(* ===== verification/_CoqProject ===== *)
-Q . S2P
Prelude.v
RustStr.v
RustPath.v
Models.v
EntryKey.v
LeaseSpec.v
LeaseProtocol.v
RegistryMemory.v
RedisStore.v
RegistryRedis.v
LeaseTheorems.v
Eviction.v
P2pTypes.v
SourceIdentityHash.v
P2pBackend.v
P2pService.v
Reaper.v
Lanes.v
Tracker.v
Fs.v
CacheLayout.v
ModelFiles.v
FileReceiver.v
FileTransfer.v
FileRoundtrip.v
ServerConfig.v
ServerConfigFacts.v
Auth.v
AuthTheorems.v
RedisServer.v
RedisProg.v
Json.v
P2pRedis.v
P2pRedisFacts.v
P2pRedisRefine.v
P2pRedisSteps.v
P2pRedisReads.v
P2pRedisTheorems.v
P2pRedisRun.v
KubeServer.v
RegistryKube.v
RegistryKubeTheorems.v
RegistryKubeNames.v
RegistryKubeRun.v
ArtifactManifest.v
MetaServer.v
P2pKube.v
P2pKubeFacts.v
P2pKubeTheorems.v
P2pKubeReads.v
P2pKubeRun.v
Regex.v
OperatorSpec.v
OperatorRender.v
Operator.v
OperatorTheorems.v
OperatorServer.v
OperatorRun.v
OpenshiftTls.v
CollectiveScripts.v
CollectiveEffects.v
CollectiveMachine.v
CollectiveInvariant.v
CollectiveTransfers.v
CollectiveEvolution.v
CollectiveTheorems.v
CollectiveBackend.v
CollectiveText.v
CollectiveRead.v
CollectiveService.v
CollectiveRun.v
RefitScripts.v
RefitMachine.v
RefitEffects.v
RefitTheorems.v
RefitBackend.v
RefitPublications.v
RefitVersions.v
RefitService.v
RefitRun.v
