(* ===== verification/Prelude.v ===== *)
(** * ModelExpress: a verification development

    ModelExpress is a model-weight cache and transfer service written in Rust.  A
    server (modelexpress_server) downloads models from Hugging Face, NGC, GCS and
    S3 into a shared cache on behalf of clients, several replicas coordinating
    through a registry; it evicts models that are not used; it keeps the metadata
    by which inference workers find peers that already hold the weights (the P2P
    service); it forms collective groups and coordinates trainers and generators for
    weight refits.  A client library
    (modelexpress_client) asks the server for models and streams their files.
    On Kubernetes an operator (operator, operator-openshift) runs servers from custom
    resources.  The shared code is modelexpress_common.  This library models the parts
    that carry the program's own logic as executable functions and proves what
    makes them correct.  Source paths below are relative to src/.

    ** Parts and files

    Foundations.
    - Prelude (this file): [result] with the [let?] notation for the question-mark
      operator, collecting results, saturating and checked machine integers, the sorts
      and hash-map iteration of the standard library, the tactics [mx_cases] and [mx_bool], the hint
      database [mx], shared list lemmas.
    - RustStr, RustPath: the [str] and [Path] methods that the code calls, on
      bytes and on path components; UTF-8 with the lossy and the checked conversion.
    - Fs: the calls of [std::fs] on a store of files, directories and links.
    - Models: statuses, providers, registry records (common models.rs,
      registry/backend.rs).

    The registry of downloads.  A download is a record with a lease; the trait
    [RegistryBackend] promises exclusive claims, fenced owners and takeover of
    expired leases.
    - EntryKey: registry/entry_key.rs, the string that names a download (tenant,
      model, revision, metadata-only) and the cache partition of a tenant.
    - LeaseSpec: the trait's promise as a machine [spec_step] on one abstract
      cell per record, and as a class: [LeaseBackend] has the operations,
      [LeaseBackendSpec] says that they refine the machine.
    - LeaseProtocol: the protocol theorems for every lawful backend.
    - RegistryMemory (Module Memory): registry/backend/memory.rs; a state record
      and one function per trait operation; the refinement.
    - RedisStore: Redis hash commands, Lua number conversion and RFC 3339 as
      classes with laws, and a concrete store.  RegistryRedis (Module Redis):
      registry/backend/redis.rs; keys, the six Lua scripts as atomic functions,
      record decoding, the operations; the refinement, with the migration of
      records under name-only keys.
    - LeaseTheorems: the lease properties, and that both backends are lawful.
    - KubeServer: the requests of the registry backend to the Kubernetes API as a class
      [KubeApi] with laws (resource versions, JSON patches with their tests, merge
      patches), and a concrete server.  RegistryKube (Module Kube): registry/backend/kubernetes.rs and
      registry/k8s_types.rs, every method as a program of API requests and clock
      readings, with the observations by which a replica judges that a lease expired.
      RegistryKubeTheorems: claims, fencing and takeover in every interleaving.
      RegistryKubeNames: the names of resources.  RegistryKubeRun: a concrete run.

    The download tracker and the cache.
    - Tracker: ModelDownloadTracker of services.rs; waiting channels, the download
      task with its heartbeat, ensure_model_downloaded (claim loop, retry of a
      failed download, polling), deletion of a model's entries.  An operation
      returns the trace of what it asked and did.
    - Eviction: cache.rs; the LRU policy, the eviction of an entry with the
      decision which files to delete, one cycle, over the class [Registry]; the
      in-memory registry is an instance.
    - CacheLayout (Modules Gcs, S3, Ngc, Hf): name parsers, revision validation
      and model directories of the providers (common providers.rs, cache.rs).
    - ArtifactManifest (Module Manifest): artifact_manifest.rs of the common crate, the
      manifest of a directory on the store of Fs, and which files and chunks it has.

    The file transfer.
    - ModelFiles: collect_model_files, list_model_files and stream_model_files of
      services.rs.
    - FileReceiver: stream_model_files_from_server of the client's lib.rs, one
      function per stage of its loop, on the store of Fs.
    - FileTransfer: the client against any server.  FileRoundtrip: client and
      server together.

    The P2P metadata service (server p2p/).
    - P2pTypes: messages, records, conversions.  SourceIdentityHash: the source
      id.  P2pBackend (Module MemMeta): the class [MetadataBackend], the default
      filtered listing, the in-memory backend.  P2pService: the four handlers with
      tenant scoping over that class.  Reaper: one pass of the stale-source
      reaper.
    - Json: JSON values, the serde forms of Rust types and merge patches.  P2pRedis (Module RedisMeta):
      p2p/backend/redis.rs, the stored structs, both Lua scripts and the trait methods
      as programs.  P2pRedisFacts, P2pRedisRefine, P2pRedisSteps, P2pRedisReads,
      P2pRedisTheorems: it refines the in-memory backend.  P2pRedisRun: a run.
    - MetaServer: the API server as the P2P backend
      uses it, as a class [MetaApi] with laws.  P2pKube (Module KubeMeta):
      p2p/backend/kubernetes.rs and p2p/k8s_types.rs.  P2pKubeFacts, P2pKubeTheorems,
      P2pKubeReads: atomic heartbeats, ownership, what a lookup reads back.
      P2pKubeRun: a run, and behaviours of this
      backend alone.

    Redis as the other services use it.
    - RedisServer: strings, sets, sorted sets and expiry beside the hashes of
      RedisStore, as a class with laws on four views of a key, and a concrete server.
    - RedisProg: a method that makes several calls is a program; [exec] runs it
      alone, [runs] lets other replicas move the server before every call.

    Collective groups (server refit_collective/).
    - Lanes: lanes.rs, validation of a lane declaration and rank assignment.
    - CollectiveScripts: the seven Lua scripts and common.lua.  CollectiveEffects:
      what they change.  CollectiveMachine: one step per script, whatever it answers, and
      per expiry of a key, with the history of lost members; CollectiveInvariant, CollectiveTransfers, CollectiveEvolution: the
      invariants; CollectiveTheorems: their consequences for clients.
    - CollectiveBackend: messages, stored texts and the methods of redis.rs as
      programs.  CollectiveText: the texts read back.  CollectiveRead: a group that
      is read in several calls is not torn.
    - CollectiveService: request validation and the handlers, over the class
      [CollectiveOps]; an accepted join is one step of the machine.
    - CollectiveRun: a concrete run.

    Refit coordination (server refit/).
    - RefitScripts: the key layout and the ten Lua scripts.  RefitMachine: one rule
      per script with the backend's keys and arguments, one for the environment, and
      footprints ([touches]).  RefitEffects: the effect of each script.
      RefitTheorems: versions, meshes, readiness, leases.
    - RefitBackend: messages, stored records and the seventeen methods of redis.rs
      as programs.  RefitPublications: the listing of publications; RefitVersions:
      the record of a version and a repeated creation.
    - RefitService: service.rs and coverage.rs; validation, the check of a worker's
      tensor coverage, the fifteen handlers over the class [RefitOps].
    - RefitRun: a concrete run, and two divergences.

    Configuration and authentication of the server.
    - ServerConfig (Module Conf): config.rs with the TLS versions of the common crate:
      allowlist entries, the arguments as they are read from the environment, their
      layering over a file or the defaults, validation; in Module Env envs.rs and
      backend_config.rs.  ServerConfigFacts: the lists of texts and the allowlist.
    - Auth (Module Auth): auth.rs, auth/token.rs, auth/layer.rs: bearer tokens, the
      judgement of a TokenReview, and the machine of a server's requests with its two
      caches, which are the class [TtlCache].  AuthTheorems: who is admitted, and how the
      services scope a caller.

    The operator.
    - Regex: a matcher by derivatives with its meaning, for the patterns of the schema.
    - OperatorSpec (Module Crd): crd.rs, labels.rs, tls.rs: the custom resource, and its
      admission rules as the predicate [admitted]; before it the API objects that the
      operator applies.  OperatorRender (Module Render):
      volume.rs, env.rs, rbac.rs, deployment.rs: the objects a spec renders to.
    - Operator (Module Operator): controller.rs, a reconcile as a program of requests;
      [run] gives every request an arbitrary answer or none, and may stop anywhere.
      OperatorTheorems: a program logic over the history of requests, and the order and
      the ownership of what a reconcile does.
    - OperatorServer: the environment of the container as the server reads it.
      OperatorRun: the rendered objects, concrete runs, three divergences.
    - OpenshiftTls (Module Profile): apiserver.rs of operator-openshift, the cluster's TLS
      profile, and the way of its settings to a server.

    ** What the theorems show

    - Leases (LeaseTheorems): in every interleaving a live lease excludes all
      other claimants, a replica that lost its lease is fenced, an expired lease
      is taken over and the new owner can publish, and of concurrent claims one
      wins; the in-memory and the Redis backend refine the contract that implies
      this.
    - Tracker: download tasks are started exactly for granted leases; DOWNLOADED
      is reported only after the files were verified; a task that lost its lease
      publishes nothing; deletion removes exactly the entries of the model.
    - Eviction: no file that another entry may use is deleted, the policy selects
      exactly what it documents and meets the count limit, a failed deletion
      keeps the record, and a cycle removes exactly the selection.
    - File transfer: a transfer into a new directory installs exactly the
      selected files, if their names are UTF-8; the client writes files only below its model directory,
      whatever the server sends and whatever links exist; what it accepts is
      complete; the server collects exactly the selected files.
    - Names and paths: entry keys and canonical names round-trip, partitions of
      different tenants are disjoint, model directories stay below the cache root but
      for the special S3 and NGC names that the findings report.
    - P2P: over the in-memory backend tenants neither see nor change each other's
      workers, a limited listing
      equals the reference that filters first, the reaper does exactly what it
      documents and is idempotent, source ids ignore hash order, records survive
      their conversions.
    - Lanes: an accepted layout assigns each slot the ranks of its declaration,
      and the ranks of a lane number its members.
    - Collective groups: in every interleaving a READY group has participants of its
      epoch only, all lanes published and equal plans; members of an epoch read one
      communicator per lane; a group that is read is not a mixture of two epochs; one
      transfer is active, of the current epoch, it completes with as many reporters as
      there are slots, and a finished one does not change.  All slots are held, only
      members have reported, and all members when a transfer completes, unless a
      refused join lost a member of the epoch.  The next refresh detects readiness; an
      accepted join request is one step of the machine.
    - Refits: a version's record never changes except its state, which advances; a
      version becomes READY only with every logical shard published by a registered
      trainer of its mesh generation, and a listing at that moment has them all; an
      active lease keeps publications and mesh; a mesh changes only under a new
      generation and goes only when its versions are released; a repeated creation
      answers the first version; element counts are exact or refused.
    - Kubernetes backends: a claim that succeeds found the entry unclaimed or took over
      after the owner was silent for the whole lease by the claimer's own clock; only the
      owner refreshes and finishes; a status update is one atomic change; a worker of
      another namespace is not replaced; a lookup answers what was published.
    - Redis P2P backend: operations of the kinds that [op_ok] admits succeed together
      with those of the in-memory backend and lead to the same answers; the pipelined listing is the filtered one;
      newer heartbeats stand.
    - Access: an admitted request carries a token that the API server vouched for within
      the lifetime of the cache, for an audience and an account of the configuration;
      with tenant isolation its caller acts in exactly its namespace; an accepted
      allowlist is well formed and prints to itself.
    - Operator: the cluster-scoped binding is applied only when the finalizer is held as
      far as the operator knows, objects of others are neither deleted nor replaced, a
      reconcile that succeeds has applied everything in order (but a network policy that
      somebody else controls) and says so, its status loop ends, the rendered objects fit
      each other, and what an admitted resource asks for is what the server runs with,
      also when the TLS settings come from the cluster.
    - Manifests: the files of a directory, each once and in order, and chunks that tile
      them; no other outcome than that, an error about the chunk size, a path that is
      not UTF-8, or an exceeded count.
    - Redis details: set and get round-trip, key names round-trip, SCAN results
      are deduplicated, logged URLs hide the password; the in-memory listings.

    ** Conventions, bounds and parameters

    Time is a number (nanoseconds, or milliseconds where the code has them) and an
    argument of the operation that reads a clock.  Machine integers are [Z] with
    saturation or wrap-around written out; where a count or size must fit, the
    theorem has the bound (u32::MAX members of a lane, u64::MAX bytes of a stream,
    2^53 for the milliseconds and generations that Lua keeps as doubles, 10^14 for
    the epochs that it concatenates).  Loops are structural
    on the data they consume.  Loops that wait are functions of the list of
    answers they get ([polls], [answers] in Tracker; pages of SCAN in
    RegistryRedis; results of reads in ModelFiles), so a list is one run and the
    theorems hold for all lists.  Fuel appears where the recursion is not structural:
    [trim_start] and [trim_end] have the length of the string, and each round strips at
    least a byte; path resolution follows 40 links, which is the limit of the system; the
    walk of a directory has the number of entries of the store, which bounds the depth
    of any of them, and the loop over a file's chunks has the length of the file
    ([from_directory_exact] shows that neither runs out).  The retry loops of the
    Kubernetes backends have the number of attempts that the code has.

    Code that is not in the repository is a parameter with its documented laws:
    Redis commands, Lua's tonumber, RFC 3339 and chrono conversions, Unicode
    lowercasing, JSON with SHA-256, the iteration order of hash maps, the Kubernetes API
    (objects, patches, label selectors, resource versions, reviews of tokens), the cache
    library of the authentication, base64, CRC-32C, the config crate.  Each class
    has a concrete instance, used by the witnesses.  The provider's downloads and
    deletions, the lookup of a snapshot and the results of reading files are
    arguments.  So are random identifiers, the texts of serde_json, cjson and prost
    (with their round-trip laws), and the answer of a worker's metadata endpoint.

    Assumptions of the machines.  A Lua script is atomic.  Expiry of a key is a step
    of the environment.  In the collective machine the members of a group declare its
    lanes in one order.  A join that is refused after it removed a lapsed member is a
    step like any other; it is a defect that leaves a READY group incomplete
    (CollectiveRun), so a reachable state comes with the record [D] of the epochs in
    which that happened, and the theorems say which of their claims need [~ D G e].

    In the authentication machine the API server answers a review with anything; a
    theorem about an admitted caller therefore speaks of the answer that was given.  The
    answers that an operator's request gets are arbitrary too, and a request may be made
    without its answer being seen.

    ** Not modelled

    The clients of the model hubs, with their locks, checksums and archives, are calls of
    HTTP and file-system libraries; the names, revisions and paths they work on are
    modelled.  Download manifests of the server (cache/manifest.rs) are files of one JSON
    value.  The instrumented backends and the registry manager forward every call and
    count it.  Start-up, TLS listeners, metrics, telemetry and leader election wire
    libraries together; so do the client's transport and command line.  The streams of
    the operators (watches, queues, updates of the TLS profile) belong to the controller
    runtime: the development has one reconcile, in any state, with any answers.  The
    generated schema of the custom resource is not a text here but the predicate that
    its rules are.
    Failures of transport to Redis and, in the Kubernetes backends, to the API server,
    failures of devices, and crashes between two steps of a call other than a reconcile
    are not modelled. *)

From Stdlib Require Import ZArith Lia Ascii String.
From stdpp Require Import base tactics option list sorting gmap fin_maps strings.

(** ** Results of fallible Rust code *)

(** Rust's [Result<A, E>]. *)
Inductive result (A E : Type) : Type :=
| Ok (a : A)
| Err (e : E).

Arguments Ok {A E} _.
Arguments Err {A E} _.

#[export] Instance result_eq_dec `{EqDecision A, EqDecision E} :
  EqDecision (result A E).
Proof. solve_decision. Defined.

Declare Scope mx_scope.
Delimit Scope mx_scope with mx.
Global Open Scope mx_scope.

(** The [?] operator: propagate the error, otherwise continue. *)
Notation "'let?' x ':=' e 'in' k" :=
  (match e with Ok x => k | Err err => Err err end)
  (at level 10, x pattern, e at level 100, k at level 200)
  : mx_scope.

Definition result_ok {A E} (r : result A E) : option A :=
  match r with Ok a => Some a | Err _ => None end.

(** ** Machine integers

    A [w]-bit unsigned integer is a [Z]; the operations that the code uses with
    an explicit overflow policy are written out here. *)

Definition u32_max : Z := 2 ^ 32 - 1.
Definition u64_max : Z := 2 ^ 64 - 1.
Definition i64_max : Z := 2 ^ 63 - 1.
Definition i64_min : Z := - 2 ^ 63.

(** [u32::saturating_add], [u64::saturating_add], [u64::saturating_mul] and
    [i64::saturating_sub]. *)
Definition saturating_add_u32 (a b : Z) : Z := Z.min (a + b) u32_max.
Definition saturating_add_u64 (a b : Z) : Z := Z.min (a + b) u64_max.
Definition saturating_mul_u64 (a b : Z) : Z := Z.min (a * b) u64_max.
Definition saturating_sub_i64 (a b : Z) : Z := Z.max i64_min (Z.min (a - b) i64_max).

(** [u64::checked_add]. *)
Definition u64_checked_add (a b : Z) : option Z :=
  if (a + b <=? u64_max)%Z then Some (a + b)%Z else None.

(** [u32::try_from(n).unwrap_or(u32::MAX)] on a [usize]. *)
Definition u32_try_from_or_max (n : nat) : Z :=
  if (Z.of_nat n <=? u32_max)%Z then Z.of_nat n else u32_max.

(** ** Development automation *)

Create HintDb mx.

(** Case analysis on every [match]/[if] of the goal, keeping the equations, and
    clean-up with stdpp's equality simplifier. *)
Ltac mx_cases :=
  repeat (case_match; simplify_eq/=; try done).

(** Turn the boolean tests of the code into the propositions they decide. *)
Ltac mx_bool :=
  repeat match goal with
  | H : andb _ _ = true |- _ => apply andb_true_iff in H as [? ?]
  | H : orb _ _ = false |- _ => apply orb_false_iff in H as [? ?]
  | H : negb _ = true |- _ => apply negb_true_iff in H
  | H : negb _ = false |- _ => apply negb_false_iff in H
  | H : bool_decide _ = true |- _ => apply bool_decide_eq_true in H
  | H : bool_decide _ = false |- _ => apply bool_decide_eq_false in H
  | H : (_ <=? _)%Z = true |- _ => apply Z.leb_le in H
  | H : (_ <=? _)%Z = false |- _ => apply Z.leb_gt in H
  | H : (_ <? _)%Z = true |- _ => apply Z.ltb_lt in H
  | H : (_ <? _)%Z = false |- _ => apply Z.ltb_ge in H
  | H : (_ =? _)%Z = true |- _ => apply Z.eqb_eq in H
  | H : (_ =? _)%Z = false |- _ => apply Z.eqb_neq in H
  end.

(** [Iterator::find_map]. *)
Fixpoint find_map {A B} (f : A -> option B) (l : list A) : option B :=
  match l with
  | [] => None
  | x :: l' => match f x with Some y => Some y | None => find_map f l' end
  end.

Lemma find_map_None {A B} (f : A -> option B) l :
  (forall x, x ∈ l -> f x = None) -> find_map f l = None.
Proof.
  induction l as [|x l IH]; intros Hf; simpl; [done|].
  rewrite Hf by set_solver. apply IH. set_solver.
Qed.

Lemma find_map_None_inv {A B} (f : A -> option B) l x :
  find_map f l = None -> x ∈ l -> f x = None.
Proof.
  induction l as [|y l IH]; simpl; [set_solver|]. case_match; [done|].
  intros Hn [->|Hin]%elem_of_cons; auto.
Qed.

(** A [find_map] that only one element answers. *)
Lemma find_map_unique `{EqDecision A} {B} (f : A -> option B) l x y :
  x ∈ l -> f x = Some y -> (forall z, z ∈ l -> z ≠ x -> f z = None) ->
  find_map f l = Some y.
Proof.
  intros Hx Hf Hother. induction l as [|z l IH]; [set_solver|]. simpl.
  destruct (decide (z = x)) as [->|Hne]; [by rewrite Hf|].
  rewrite Hother by set_solver. apply IH; set_solver.
Qed.

(** [iter().map(f).collect::<Result<Vec<_>, _>>()]: the first error ends it. *)
Fixpoint try_map {A B E} (f : A -> result B E) (l : list A) : result (list B) E :=
  match l with
  | [] => Ok []
  | x :: l => let? y := f x in let? ys := try_map f l in Ok (y :: ys)
  end.

Lemma try_map_Ok {A E} (l : list A) : @try_map A A E Ok l = Ok l.
Proof. induction l as [|x l IH]; simpl; [done|]. by rewrite IH. Qed.

Lemma try_map_all {A B E} (P : B -> Prop) (f : A -> result B E) l k :
  (forall x y, f x = Ok y -> P y) -> try_map f l = Ok k -> Forall P k.
Proof.
  intros Hf. revert k. induction l as [|x l IH]; intros k; simpl; [by intros [= <-]|].
  destruct (f x) as [y|] eqn:Hx; [|done]. destruct (try_map f l) as [ys|]; [|done].
  intros [= <-]. constructor; [by eapply Hf|by apply IH].
Qed.

(** What a [try_map] that succeeded or failed says of its elements. *)
Lemma try_map_ok {A B E} (f : A -> result B E) l ys :
  try_map f l = Ok ys -> Forall2 (fun x y => f x = Ok y) l ys.
Proof.
  revert ys. induction l as [|x l IH]; intros ys; cbn; [intros [= <-]; constructor|].
  destruct (f x) as [y|] eqn:Hx; [|done]. destruct (try_map f l) as [zs|]; [|done].
  intros [= <-]. constructor; [done|]. by apply IH.
Qed.

Lemma try_map_err {A B E} (f : A -> result B E) l e :
  try_map f l = Err e -> ∃ x, x ∈ l ∧ f x = Err e.
Proof.
  induction l as [|x l IH]; cbn; [done|]. destruct (f x) as [y|] eqn:Hx.
  - destruct (try_map f l) as [zs|]; [done|]. intros [= ->].
    destruct (IH eq_refl) as (z & Hz & Hf). exists z. split; [by right|done].
  - intros [= ->]. exists x. split; [by left|done].
Qed.

Lemma try_map_map {A B E} (f : A -> result B E) (g : B -> A) l :
  Forall (fun y => f (g y) = Ok y) l -> try_map f (map g l) = Ok l.
Proof. induction 1 as [|y l Hy Hl IH]; simpl; [done|]. by rewrite Hy, IH. Qed.

Lemma try_map_Forall2 {A B E} (f : A -> result B E) (Q : A -> B -> Prop) l :
  (forall x, x ∈ l -> ∃ y, f x = Ok y ∧ Q x y) -> ∃ ys, try_map f l = Ok ys ∧ Forall2 Q l ys.
Proof.
  induction l as [|x l IH]; intros Hl; [by exists []|].
  destruct (Hl x) as (y & Hy & HQ); [by left|].
  destruct IH as (ys & Hys & HQs); [intros x' ?; apply Hl; by right|].
  exists (y :: ys). cbn [try_map]. rewrite Hy, Hys. by split; [|constructor].
Qed.

(** ** Stable sorting: [slice::sort_by] / [slice::sort_by_key]

    Rust's [sort_by] is a stable sort; [leb x y] stands for "[x] does not compare
    [Greater] than [y]".  Insertion from the right puts an element before the
    elements it ties with, so equal elements keep their order. *)
Section sort_by.
Context {A : Type} (leb : A -> A -> bool).

Fixpoint insert_by (x : A) (l : list A) : list A :=
  match l with
  | [] => [x]
  | y :: l' => if leb x y then x :: y :: l' else y :: insert_by x l'
  end.

Definition sort_by (l : list A) : list A := foldr insert_by [] l.

Lemma insert_by_perm x l : insert_by x l ≡ₚ x :: l.
Proof.
  induction l as [|y l IH]; simpl; [done|].
  case_match; [done|]. rewrite IH. constructor.
Qed.

Lemma sort_by_perm l : sort_by l ≡ₚ l.
Proof.
  induction l as [|x l IH]; simpl; [done|].
  by rewrite insert_by_perm, IH.
Qed.

Lemma elem_of_sort_by x l : x ∈ sort_by l ↔ x ∈ l.
Proof. by rewrite sort_by_perm. Qed.

Lemma length_sort_by l : length (sort_by l) = length l.
Proof. by rewrite sort_by_perm. Qed.

Context (leb_total : forall x y, leb x y = true \/ leb y x = true)
        (leb_trans : forall x y z, leb x y = true -> leb y z = true -> leb x z = true).

Lemma insert_by_sorted x l :
  StronglySorted (fun a b => leb a b = true) l ->
  StronglySorted (fun a b => leb a b = true) (insert_by x l).
Proof.
  induction 1 as [|y l Hl IH Hy]; simpl; [by repeat constructor|].
  case_match eqn:Hxy.
  - constructor; [by constructor|]. constructor; [done|].
    eapply Forall_impl; [exact Hy|]; eauto.
  - constructor; [done|]. apply Forall_forall. intros z.
    rewrite insert_by_perm, elem_of_cons.
    intros [->|Hz]; [destruct (leb_total x y); congruence|].
    by eapply Forall_forall in Hy.
Qed.

Lemma sort_by_sorted l : StronglySorted (fun a b => leb a b = true) (sort_by l).
Proof. induction l; simpl; [constructor|]. by apply insert_by_sorted. Qed.

(** Stability: the elements of one equivalence class keep their order. *)
Lemma insert_by_filter (P : A -> bool) x l :
  (forall y z, P y = true -> P z = true -> leb y z = true) ->
  List.filter P (insert_by x l) =
  (if P x then x :: List.filter P l else List.filter P l).
Proof.
  intros HP. induction l as [|y l IH]; simpl; [by destruct (P x)|].
  destruct (leb x y) eqn:Hxy; simpl.
  - by destruct (P x), (P y).
  - rewrite IH. destruct (P x) eqn:Hx, (P y) eqn:Hy; try done.
    rewrite HP in Hxy; done.
Qed.

Lemma sort_by_stable (P : A -> bool) l :
  (forall y z, P y = true -> P z = true -> leb y z = true) ->
  List.filter P (sort_by l) = List.filter P l.
Proof.
  intros HP. induction l as [|x l IH]; simpl; [done|].
  rewrite insert_by_filter by done. by rewrite IH.
Qed.
End sort_by.

(** [sort_by_key] with a [Z]-valued key. *)
Definition sort_by_key {A} (key : A -> Z) (l : list A) : list A :=
  sort_by (fun x y => key x <=? key y)%Z l.

Lemma sort_by_key_perm {A} (key : A -> Z) l : sort_by_key key l ≡ₚ l.
Proof. apply sort_by_perm. Qed.

Lemma sort_by_key_sorted {A} (key : A -> Z) l :
  StronglySorted (fun a b => (key a <= key b)%Z) (sort_by_key key l).
Proof.
  unfold sort_by_key.
  assert (Hs : StronglySorted (fun a b => (key a <=? key b)%Z = true)
                 (sort_by (fun x y => (key x <=? key y)%Z) l)).
  { apply sort_by_sorted; intros; rewrite ?Z.leb_le in *; lia. }
  induction Hs as [|x l' ? IH Hx]; constructor; [done|].
  eapply Forall_impl; [exact Hx|]. intros ? ?. by apply Z.leb_le.
Qed.

(** A prefix of a list with one more element. *)
Lemma prefix_of_snoc {A} (q p : list A) x :
  q `prefix_of` p ++ [x] -> q `prefix_of` p ∨ q = p ++ [x].
Proof.
  intros [r Hr]. destruct r as [|y r _] using rev_ind; [right; by rewrite app_nil_r in Hr|].
  rewrite app_assoc in Hr. apply app_inj_tail in Hr as [-> _]. left. by eexists.
Qed.

(** Elements with distinct keys are determined by their key. *)
Lemma NoDup_map_inj {A B} (f : A -> B) l x y :
  NoDup (map f l) -> x ∈ l -> y ∈ l -> f x = f y -> x = y.
Proof.
  intros Hnd [i Hi]%list_elem_of_lookup_1 [j Hj]%list_elem_of_lookup_1 Hf.
  assert (i = j) as ->; [|congruence].
  apply (NoDup_lookup _ i j (f x) Hnd); rewrite list_lookup_fmap.
  - by rewrite Hi.
  - by rewrite Hj, Hf.
Qed.

(** In a sorted list every element of a prefix is below every element of the
    remaining suffix. *)
Lemma StronglySorted_take_drop {A} (R : A -> A -> Prop) (l : list A) n x y :
  StronglySorted R l -> x ∈ take n l -> y ∈ drop n l -> R x y.
Proof.
  intros Hs. revert n. induction Hs as [|z l Hl IH Hz]; intros n Hx Hy.
  { rewrite take_nil in Hx. set_solver. }
  destruct n as [|n]; simpl in *; [set_solver|].
  apply elem_of_cons in Hx as [->|Hx]; [|by eapply IH].
  eapply Forall_forall in Hz; [done|].
  apply list_elem_of_In. apply list_elem_of_In in Hy.
  rewrite <- (take_drop n l). apply in_or_app. by right.
Qed.

(** ** Iteration over a [HashMap]

    The order in which a Rust [HashMap] yields its entries is unspecified.  The
    definitions that iterate over one take the order from this interface, whose
    law says only that every entry is visited exactly once. *)
Class HashIter := {
  hash_entries : forall {A : Type}, gmap string A -> list (string * A)
}.

Class HashIterLaws `{HashIter} : Prop := {
  hash_entries_perm : forall (A : Type) (m : gmap string A),
    hash_entries m ≡ₚ map_to_list m
}.

Definition hash_values `{HashIter} {A} (m : gmap string A) : list A :=
  (hash_entries m).*2.

(** One lawful order: the one of [map_to_list]. *)
#[export] Instance map_to_list_iter : HashIter | 100 :=
  {| hash_entries A m := map_to_list m |}.

#[export] Instance map_to_list_iter_laws : HashIterLaws | 100.
Proof. by constructor. Qed.

Section hash_iter.
Context `{HashIterLaws}.

Lemma elem_of_hash_entries {A} (m : gmap string A) k v :
  (k, v) ∈ hash_entries m ↔ m !! k = Some v.
Proof. by rewrite hash_entries_perm, elem_of_map_to_list. Qed.

Lemma elem_of_hash_values {A} (m : gmap string A) v :
  v ∈ hash_values m ↔ ∃ k, m !! k = Some v.
Proof.
  unfold hash_values. rewrite list_elem_of_fmap. split.
  - intros [[k v'] [-> Hin]]. exists k. by apply elem_of_hash_entries.
  - intros [k Hk]. exists (k, v). by rewrite elem_of_hash_entries.
Qed.

Lemma NoDup_hash_keys {A} (m : gmap string A) : NoDup (hash_entries m).*1.
Proof. rewrite hash_entries_perm. apply NoDup_fst_map_to_list. Qed.

Lemma length_hash_values {A} (m : gmap string A) : length (hash_values m) = size m.
Proof.
  unfold hash_values. rewrite length_fmap, hash_entries_perm.
  apply length_map_to_list.
Qed.
End hash_iter.

#[export] Hint Resolve sort_by_perm sort_by_key_perm sort_by_key_sorted : mx.
