(* ===== verification/RustStr.v ===== *)
(** * Rust string operations

    A Rust [&str] is its UTF-8 bytes, so a [string] of 8-bit [ascii]; searching
    for, splitting at or stripping an ASCII pattern works byte by byte.  The
    [str] and [char] methods that the server calls are defined here with the
    lemmas that the encoders and parsers share. *)

From Stdlib Require Import ZArith Lia Ascii String.
From stdpp Require Import base tactics option list sets strings.
From S2P Require Import Prelude.

(** ** Bytes *)

Definition byte_in (lo hi : N) (c : ascii) : bool :=
  (lo <=? N_of_ascii c)%N && (N_of_ascii c <=? hi)%N.

(** [u8::is_ascii_digit], [is_ascii_lowercase], [is_ascii_uppercase],
    [is_ascii_alphanumeric], [is_ascii_control] and [to_ascii_lowercase]. *)
Definition is_ascii_digit (c : ascii) : bool := byte_in 48 57 c.
Definition is_ascii_lowercase (c : ascii) : bool := byte_in 97 122 c.
Definition is_ascii_uppercase (c : ascii) : bool := byte_in 65 90 c.
Definition is_ascii_alphanumeric (c : ascii) : bool :=
  is_ascii_digit c || is_ascii_lowercase c || is_ascii_uppercase c.
Definition is_ascii_control (c : ascii) : bool :=
  byte_in 0 31 c || (N_of_ascii c =? 127)%N.
Definition to_ascii_lowercase (c : ascii) : ascii :=
  if is_ascii_uppercase c then ascii_of_N (N_of_ascii c + 32) else c.

(** [char::is_whitespace] (Unicode [White_Space]) as the UTF-8 sequences of its
    25 code points, in the order U+0009..U+000D, U+0020, U+0085, U+00A0, U+1680,
    U+2000..U+200A, U+2028, U+2029, U+202F, U+205F, U+3000. *)
Definition bytes_str (l : list N) : string :=
  foldr (fun b s => String (ascii_of_N b) s) EmptyString l.

Definition whitespace_seqs : list string :=
  bytes_str <$>
    ([[9]; [10]; [11]; [12]; [13]; [32]; [194; 133]; [194; 160]; [225; 154; 128];
      [226; 128; 128]; [226; 128; 129]; [226; 128; 130]; [226; 128; 131];
      [226; 128; 132]; [226; 128; 133]; [226; 128; 134]; [226; 128; 135];
      [226; 128; 136]; [226; 128; 137]; [226; 128; 138]; [226; 128; 168];
      [226; 128; 169]; [226; 128; 175]; [226; 129; 159]; [227; 128; 128]]%N).

(** ** Whole-string predicates *)

Fixpoint str_all (P : ascii -> bool) (s : string) : bool :=
  match s with
  | EmptyString => true
  | String c s' => P c && str_all P s'
  end.

(** [str::contains] with a [char] predicate or a single character. *)
Definition str_any (P : ascii -> bool) (s : string) : bool :=
  negb (str_all (fun c => negb (P c)) s).

Definition contains_char (c : ascii) (s : string) : bool :=
  str_any (Ascii.eqb c) s.

Definition str_is_empty (s : string) : bool :=
  match s with EmptyString => true | _ => false end.

Definition str_first (s : string) : option ascii :=
  match s with EmptyString => None | String c _ => Some c end.

Fixpoint str_last (s : string) : option ascii :=
  match s with
  | EmptyString => None
  | String c EmptyString => Some c
  | String _ s' => str_last s'
  end.

Fixpoint str_map (f : ascii -> ascii) (s : string) : string :=
  match s with
  | EmptyString => EmptyString
  | String c s' => String (f c) (str_map f s')
  end.

(** ** Prefixes and suffixes *)

(** [str::strip_prefix]. *)
Fixpoint strip_prefix (p s : string) : option string :=
  match p, s with
  | EmptyString, _ => Some s
  | String c p', String d s' => if Ascii.eqb c d then strip_prefix p' s' else None
  | String _ _, EmptyString => None
  end.

(** [str::starts_with]. *)
Definition starts_with (p s : string) : bool :=
  match strip_prefix p s with Some _ => true | None => false end.

(** [str::contains] with a string pattern. *)
Fixpoint contains_str (p s : string) : bool :=
  starts_with p s ||
  match s with
  | EmptyString => false
  | String _ s' => contains_str p s'
  end.

(** [str::ends_with]. *)
Fixpoint ends_with (p s : string) : bool :=
  String.eqb p s ||
  match s with
  | EmptyString => false
  | String _ s' => ends_with p s'
  end.

(** [str::trim_start]: strip whitespace sequences while there is one. The fuel
    is the length of the string, and every round strips at least one byte. *)
Fixpoint trim_start_fuel (fuel : nat) (s : string) : string :=
  match fuel with
  | 0 => s
  | S fuel' =>
      match list_find (fun w => starts_with w s = true) whitespace_seqs with
      | Some (_, w) => match strip_prefix w s with
                       | Some r => trim_start_fuel fuel' r
                       | None => s
                       end
      | None => s
      end
  end.

Definition trim_start (s : string) : string := trim_start_fuel (String.length s) s.

(** [str::strip_suffix]. *)
Fixpoint strip_suffix (p s : string) : option string :=
  if String.eqb p s then Some EmptyString
  else match s with
       | EmptyString => None
       | String c s' => match strip_suffix p s' with
                        | Some r => Some (String c r)
                        | None => None
                        end
       end.

(** [str::trim_end], in the same way from the other end. *)
Fixpoint trim_end_fuel (fuel : nat) (s : string) : string :=
  match fuel with
  | 0 => s
  | S fuel' =>
      match list_find (fun w => ends_with w s = true) whitespace_seqs with
      | Some (_, w) => match strip_suffix w s with
                       | Some r => trim_end_fuel fuel' r
                       | None => s
                       end
      | None => s
      end
  end.

Definition trim_end (s : string) : string := trim_end_fuel (String.length s) s.

(** [str::trim]. *)
Definition trim (s : string) : string := trim_end (trim_start s).

(** [str::trim_end_matches(c)] with a character. *)
Fixpoint trim_end_matches (c : ascii) (s : string) : string :=
  match s with
  | EmptyString => EmptyString
  | String d s' =>
      match trim_end_matches c s' with
      | EmptyString => if Ascii.eqb c d then EmptyString else String d EmptyString
      | r => String d r
      end
  end.

(** [str::replace(c, r)] with a character. *)
Fixpoint replace_char (c : ascii) (r s : string) : string :=
  match s with
  | EmptyString => EmptyString
  | String d s' =>
      if Ascii.eqb c d then r +:+ replace_char c r s' else String d (replace_char c r s')
  end.

(** [str::eq_ignore_ascii_case]. *)
Definition eq_ignore_ascii_case (a b : string) : bool :=
  String.eqb (str_map to_ascii_lowercase a) (str_map to_ascii_lowercase b).

(** [str::get(..n)]: [None] past the end or inside a multi-byte character. *)
Definition is_continuation (c : ascii) : bool := byte_in 128 191 c.

Definition str_get_to (n : nat) (s : string) : option string :=
  if (n <=? String.length s)%nat &&
     match String.get n s with Some c => negb (is_continuation c) | None => true end
  then Some (String.substring 0 n s) else None.

(** ** Splitting *)

(** [str::split_once] at a character. *)
Fixpoint split_once (c : ascii) (s : string) : option (string * string) :=
  match s with
  | EmptyString => None
  | String d s' =>
      if Ascii.eqb c d then Some (EmptyString, s')
      else match split_once c s' with
           | Some (a, b) => Some (String d a, b)
           | None => None
           end
  end.

(** [str::splitn(n, c)]: at most [n] pieces, the last one unsplit. *)
Fixpoint splitn (n : nat) (c : ascii) (s : string) : list string :=
  match n with
  | 0 => []
  | 1 => [s]
  | S n' => match split_once c s with
            | Some (a, b) => a :: splitn n' c b
            | None => [s]
            end
  end.

(** [str::split(c)]: every piece, so at least one. *)
Fixpoint split (c : ascii) (s : string) : list string :=
  match s with
  | EmptyString => [EmptyString]
  | String d s' =>
      if Ascii.eqb c d then EmptyString :: split c s'
      else match split c s' with
           | [] => [String d EmptyString]
           | x :: xs => String d x :: xs
           end
  end.

(** [slice::join]. *)
Fixpoint join (sep : string) (l : list string) : string :=
  match l with
  | [] => EmptyString
  | [x] => x
  | x :: l' => x +:+ sep +:+ join sep l'
  end.

(** ** Lemmas *)

Lemma str_app_nil_l (b : string) : "" +:+ b = b.
Proof. done. Qed.

Lemma str_app_cons c (a b : string) : String c a +:+ b = String c (a +:+ b).
Proof. done. Qed.

(** Simplification under [+:+], which [simpl] does not unfold. *)
Ltac str_simpl := repeat (rewrite str_app_cons || rewrite str_app_nil_l); simpl.

Lemma str_app_assoc (a b c : string) : (a +:+ b) +:+ c = a +:+ (b +:+ c).
Proof. induction a as [|x a IH]; str_simpl; [done|]. by rewrite IH. Qed.

Lemma str_app_nil_r (a : string) : a +:+ "" = a.
Proof. induction a as [|x a IH]; str_simpl; [done|]. by rewrite IH. Qed.

Lemma strip_prefix_app (p s : string) : strip_prefix p (p +:+ s) = Some s.
Proof. induction p as [|c p IH]; str_simpl; [done|]. by rewrite Ascii.eqb_refl. Qed.

Lemma strip_prefix_Some (p s r : string) : strip_prefix p s = Some r ↔ s = p +:+ r.
Proof.
  split.
  - revert s. induction p as [|c p IH]; intros [|d s] H; simpl in *; simplify_eq; try done.
    destruct (Ascii.eqb_spec c d); [|done]. subst. str_simpl. by rewrite (IH s).
  - intros ->. apply strip_prefix_app.
Qed.

Lemma starts_with_app (p s : string) : starts_with p (p +:+ s) = true.
Proof. unfold starts_with. by rewrite strip_prefix_app. Qed.

Lemma starts_with_false (p s : string) :
  starts_with p s = false ↔ strip_prefix p s = None.
Proof. unfold starts_with. by destruct (strip_prefix p s). Qed.

Lemma starts_with_true (p s : string) :
  starts_with p s = true ↔ ∃ r, s = p +:+ r.
Proof.
  unfold starts_with. destruct (strip_prefix p s) as [r|] eqn:E; split.
  - apply strip_prefix_Some in E. eauto.
  - done.
  - done.
  - intros [r ->]. by rewrite strip_prefix_app in E.
Qed.

Lemma contains_char_cons c d s :
  contains_char c (String d s) = Ascii.eqb c d || contains_char c s.
Proof. unfold contains_char, str_any. simpl. by rewrite negb_andb, negb_involutive. Qed.

Lemma contains_char_app c (a b : string) :
  contains_char c (a +:+ b) = contains_char c a || contains_char c b.
Proof.
  induction a as [|d a IH]; str_simpl; [done|].
  by rewrite !contains_char_cons, IH, orb_assoc.
Qed.

Lemma split_once_app c (a b : string) :
  contains_char c a = false -> split_once c (a +:+ String c b) = Some (a, b).
Proof.
  induction a as [|d a IH]; str_simpl; [by rewrite Ascii.eqb_refl|].
  rewrite contains_char_cons, orb_false_iff. intros [Hd Ha].
  by rewrite Hd, IH.
Qed.

Lemma split_once_Some c s a b :
  split_once c s = Some (a, b) -> s = a +:+ String c b ∧ contains_char c a = false.
Proof.
  revert a b. induction s as [|d s IH]; intros a b; simpl; [done|].
  destruct (Ascii.eqb_spec c d) as [->|Hne]; [by intros; simplify_eq|].
  destruct (split_once c s) as [[a' b']|]; [|done]. intros [= <- <-].
  destruct (IH a' b' eq_refl) as [-> Ha]. split; [done|].
  rewrite contains_char_cons, Ha. by apply Ascii.eqb_neq in Hne as ->.
Qed.

Lemma split_once_None c s : split_once c s = None ↔ contains_char c s = false.
Proof.
  induction s as [|d s IH]; simpl; [done|].
  rewrite contains_char_cons.
  destruct (Ascii.eqb c d); [done|]. rewrite orb_false_l, <- IH.
  by destruct (split_once c s) as [[a b]|].
Qed.

Lemma str_all_impl (P Q : ascii -> bool) s :
  (forall c, P c = true -> Q c = true) -> str_all P s = true -> str_all Q s = true.
Proof.
  intros HPQ. induction s as [|c s IH]; simpl; [done|].
  rewrite !andb_true_iff. intros [? ?]. auto.
Qed.

Lemma str_all_app (P : ascii -> bool) (a b : string) :
  str_all P (a +:+ b) = str_all P a && str_all P b.
Proof.
  induction a as [|c a IH]; [done|]. rewrite str_app_cons. simpl. by rewrite IH, andb_assoc.
Qed.

Lemma str_all_not_contains (P : ascii -> bool) c s :
  P c = false -> str_all P s = true -> contains_char c s = false.
Proof.
  intros Hc Hs. unfold contains_char, str_any. rewrite negb_false_iff.
  eapply str_all_impl; [|exact Hs]. intros d Hd. apply negb_true_iff, Ascii.eqb_neq.
  congruence.
Qed.

(** [split] inverts [join] on a non-empty list of pieces without the separator. *)
Lemma split_app_sep c (a b : string) :
  contains_char c a = false -> split c (a +:+ String c b) = a :: split c b.
Proof.
  induction a as [|d a IH]; str_simpl; [by rewrite Ascii.eqb_refl|].
  rewrite contains_char_cons, orb_false_iff. intros [Hd Ha].
  by rewrite Hd, IH.
Qed.

Lemma split_no_sep c (a : string) : contains_char c a = false -> split c a = [a].
Proof.
  induction a as [|d a IH]; simpl; [done|].
  rewrite contains_char_cons, orb_false_iff. intros [Hd Ha].
  by rewrite Hd, IH.
Qed.

Lemma split_join c (l : list string) :
  l ≠ [] -> Forall (fun x => contains_char c x = false) l ->
  split c (join (String c "") l) = l.
Proof.
  intros Hne Hl. induction Hl as [|x l Hx Hl IH]; [done|].
  destruct l as [|y l]; [by apply split_no_sep|].
  change (join (String c "") (x :: y :: l)) with
    (x +:+ String c (join (String c "") (y :: l))).
  rewrite split_app_sep by done. by rewrite IH.
Qed.

#[export] Hint Resolve strip_prefix_app starts_with_app split_once_app : mx.

(** ** Trimming and replacing *)

Lemma split_ne_nil c s : split c s ≠ [].
Proof. destruct s as [|d s]; simpl; [done|]. repeat case_match; done. Qed.

Lemma split_pieces c s x : x ∈ split c s -> contains_char c x = false.
Proof.
  revert x. induction s as [|d s IH]; intros x; simpl.
  { by intros ->%list_elem_of_singleton. }
  destruct (Ascii.eqb c d) eqn:Hd.
  { intros [->|Hx]%elem_of_cons; [done|by apply IH]. }
  destruct (split c s) as [|y ys] eqn:Hs; [by apply split_ne_nil in Hs|].
  intros [->|Hx]%elem_of_cons; [|apply IH; set_solver].
  rewrite contains_char_cons, Hd, (IH y) by set_solver. done.
Qed.

Lemma join_split c s : join (String c EmptyString) (split c s) = s.
Proof.
  induction s as [|d s IH]; [done|]. simpl.
  destruct (split c s) as [|y ys] eqn:Hs; [by apply split_ne_nil in Hs|].
  destruct (Ascii.eqb c d) eqn:Hd.
  - apply Ascii.eqb_eq in Hd as <-. cbn [join]. rewrite str_app_nil_l, str_app_cons, str_app_nil_l.
    by f_equal.
  - destruct ys as [|z zs]; cbn [join] in *; [by f_equal|].
    rewrite str_app_cons. by f_equal.
Qed.

Lemma trim_end_matches_no c s : contains_char c s = false -> trim_end_matches c s = s.
Proof.
  induction s as [|d s IH]; [done|]. rewrite contains_char_cons. intros [Hd Hs]%orb_false_iff.
  cbn [trim_end_matches]. rewrite IH by done. destruct s; [by rewrite Hd|done].
Qed.

Lemma trim_end_matches_idem c s :
  trim_end_matches c (trim_end_matches c s) = trim_end_matches c s.
Proof.
  induction s as [|d s IH]; [done|]. cbn [trim_end_matches].
  destruct (trim_end_matches c s) as [|e r] eqn:Hr.
  - destruct (Ascii.eqb c d) eqn:Hd; [done|]. simpl. by rewrite Hd.
  - change (String d (String e r)) with (String d (String e r)). cbn [trim_end_matches] in *.
    by rewrite IH.
Qed.

Lemma contains_replace c r s :
  contains_char c r = false -> contains_char c (replace_char c r s) = false.
Proof.
  intros Hr. induction s as [|d s IH]; [done|]. cbn [replace_char].
  destruct (Ascii.eqb c d) eqn:Hd.
  - by rewrite contains_char_app, Hr, IH.
  - by rewrite contains_char_cons, Hd, IH.
Qed.

Lemma strip_suffix_Some p s r : strip_suffix p s = Some r -> s = r +:+ p.
Proof.
  revert r. induction s as [|d s IH]; intros r; cbn [strip_suffix].
  - destruct (String.eqb_spec p EmptyString) as [->|]; [|done]. by intros [= <-].
  - destruct (String.eqb_spec p (String d s)) as [->|]; [by intros [= <-]|].
    destruct (strip_suffix p s) as [q|]; [|done]. intros [= <-].
    rewrite str_app_cons. f_equal. by apply IH.
Qed.

Lemma ends_with_true p s : ends_with p s = true ↔ ∃ r, s = r +:+ p.
Proof.
  split.
  - induction s as [|d s IH]; simpl; rewrite orb_true_iff.
    + intros [->%String.eqb_eq|]; [|done]. by exists EmptyString.
    + intros [->%String.eqb_eq|Hs]; [by exists EmptyString|].
      destruct (IH Hs) as [r ->]. by exists (String d r).
  - intros [r ->]. induction r as [|d r IH].
    + rewrite str_app_nil_l. destruct p; simpl; by rewrite ?String.eqb_refl, ?Ascii.eqb_refl.
    + rewrite str_app_cons. cbn [ends_with]. by rewrite IH, orb_true_r.
Qed.

Lemma ends_with_strip p s : ends_with p s = true -> is_Some (strip_suffix p s).
Proof.
  induction s as [|d s IH]; cbn [ends_with strip_suffix].
  - destruct (String.eqb p EmptyString); [by eauto|done].
  - destruct (String.eqb p (String d s)); [by eauto|]. simpl. intros Hs.
    destruct (IH Hs) as [r ->]. by eauto.
Qed.

Lemma str_length_app (a b : string) :
  String.length (a +:+ b) = String.length a + String.length b.
Proof. induction a as [|c a IH]; [done|]. rewrite str_app_cons. simpl. by rewrite IH. Qed.

(** No whitespace at the start (at the end). *)
Definition no_ws_start (s : string) : Prop :=
  forall w, w ∈ whitespace_seqs -> starts_with w s = false.
Definition no_ws_end (s : string) : Prop :=
  forall w, w ∈ whitespace_seqs -> ends_with w s = false.

Lemma whitespace_non_empty w : w ∈ whitespace_seqs -> 0 < String.length w.
Proof.
  revert w. apply Forall_forall. unfold whitespace_seqs. simpl.
  repeat (constructor; [simpl; lia|]). constructor.
Qed.

Lemma trim_start_fuel_spec fuel s :
  String.length s <= fuel ->
  no_ws_start (trim_start_fuel fuel s) ∧ ∃ pre, s = pre +:+ trim_start_fuel fuel s.
Proof.
  revert s. induction fuel as [|fuel IH]; intros s Hlen; cbn [trim_start_fuel].
  - destruct s; [|simpl in Hlen; lia]. split; [|by exists EmptyString].
    intros w Hw%whitespace_non_empty. destruct w; simpl in *; [lia|done].
  - destruct (list_find _ _) as [[i w]|] eqn:Hf.
    + apply list_find_Some in Hf as (Hw%list_elem_of_lookup_2 & Hs & _).
      unfold starts_with in Hs. destruct (strip_prefix w s) as [r|] eqn:Hr; [|done].
      apply strip_prefix_Some in Hr as ->. rewrite str_length_app in Hlen.
      pose proof (whitespace_non_empty _ Hw).
      destruct (IH r) as [Hn [pre Hpre]]; [lia|]. split; [done|].
      exists (w +:+ pre). by rewrite str_app_assoc, <- Hpre.
    + split; [|by exists EmptyString]. intros w Hw. apply not_true_iff_false.
      apply list_find_None in Hf. rewrite Forall_forall in Hf. by apply Hf.
Qed.

Lemma trim_end_fuel_spec fuel s :
  String.length s <= fuel ->
  no_ws_end (trim_end_fuel fuel s) ∧ ∃ post, s = trim_end_fuel fuel s +:+ post.
Proof.
  revert s. induction fuel as [|fuel IH]; intros s Hlen; cbn [trim_end_fuel].
  - destruct s; [|simpl in Hlen; lia]. split; [|by exists EmptyString].
    intros w Hw%whitespace_non_empty. destruct w; simpl in *; [lia|done].
  - destruct (list_find _ _) as [[i w]|] eqn:Hf.
    + apply list_find_Some in Hf as (Hw%list_elem_of_lookup_2 & Hs & _).
      destruct (ends_with_strip _ _ Hs) as [r Hr]. rewrite Hr.
      apply strip_suffix_Some in Hr as ->. rewrite str_length_app in Hlen.
      pose proof (whitespace_non_empty _ Hw).
      destruct (IH r) as [Hn [post Hpost]]; [lia|]. split; [done|].
      exists (post +:+ w). by rewrite <- str_app_assoc, <- Hpost.
    + split; [|exists EmptyString; by rewrite str_app_nil_r]. intros w Hw. apply not_true_iff_false.
      apply list_find_None in Hf. rewrite Forall_forall in Hf. by apply Hf.
Qed.

Lemma trim_start_id s : no_ws_start s -> trim_start s = s.
Proof.
  intros Hn. unfold trim_start. destruct (String.length s) as [|n]; [done|]. cbn [trim_start_fuel].
  replace (list_find _ _) with (@None (nat * string)); [done|]. symmetry.
  apply list_find_None, Forall_forall. intros w Hw. by rewrite (Hn w Hw).
Qed.

Lemma trim_end_id s : no_ws_end s -> trim_end s = s.
Proof.
  intros Hn. unfold trim_end. destruct (String.length s) as [|n]; [done|]. cbn [trim_end_fuel].
  replace (list_find _ _) with (@None (nat * string)); [done|]. symmetry.
  apply list_find_None, Forall_forall. intros w Hw. by rewrite (Hn w Hw).
Qed.

(** [trim] cuts a substring out, and there is nothing left to trim. *)
Lemma trim_spec s : trim (trim s) = trim s ∧ ∃ pre post, s = pre +:+ trim s +:+ post.
Proof.
  unfold trim. destruct (trim_start_fuel_spec (String.length s) s) as [Hs [pre Hpre]]; [done|].
  fold (trim_start s) in *. set (t := trim_start s) in *.
  destruct (trim_end_fuel_spec (String.length t) t) as [He [post Hpost]]; [done|].
  fold (trim_end t) in *. split; [|by exists pre, post; rewrite <- Hpost].
  rewrite trim_start_id; [by apply trim_end_id|].
  intros w Hw. specialize (Hs w Hw). rewrite Hpost in Hs. unfold starts_with in *.
  destruct (strip_prefix w (trim_end t)) as [r|] eqn:Hr; [|done].
  apply strip_prefix_Some in Hr. rewrite Hr, str_app_assoc, strip_prefix_app in Hs. done.
Qed.

Lemma split_app c (a b : string) : split c (a +:+ String c b) = split c a ++ split c b.
Proof.
  induction a as [|d a IH].
  - rewrite str_app_nil_l. simpl. by rewrite Ascii.eqb_refl.
  - rewrite str_app_cons. cbn [split]. rewrite IH. destruct (Ascii.eqb c d); [done|].
    destruct (split c a) as [|x xs] eqn:Ha; [by apply split_ne_nil in Ha|]. done.
Qed.

(** ** UTF-8 *)

(** The continuation bytes, and for the first byte of a sequence of three or four
    the range of the second ([core::str::lossy], Unicode table 3-7). *)
Definition utf8_cont (c : ascii) : bool := byte_in 128 191 c.

Definition utf8_second3 (a b : ascii) : bool :=
  (byte_in 224 224 a && byte_in 160 191 b) || (byte_in 225 236 a && utf8_cont b) ||
  (byte_in 237 237 a && byte_in 128 159 b) || (byte_in 238 239 a && utf8_cont b).

Definition utf8_second4 (a b : ascii) : bool :=
  (byte_in 240 240 a && byte_in 144 191 b) || (byte_in 241 243 a && utf8_cont b) ||
  (byte_in 244 244 a && byte_in 128 143 b).

(** The first sequence of bytes that are not empty: its length, and whether it is a
    character or a maximal invalid part. *)
Definition utf8_head (a : ascii) (s : string) : nat * bool :=
  if byte_in 0 127 a then (1, true)
  else if byte_in 194 223 a then
    match s with
    | String b _ => if utf8_cont b then (2, true) else (1, false)
    | _ => (1, false)
    end
  else if byte_in 224 239 a then
    match s with
    | String b (String c _) =>
        if negb (utf8_second3 a b) then (1, false)
        else if utf8_cont c then (3, true) else (2, false)
    | String b EmptyString => if utf8_second3 a b then (2, false) else (1, false)
    | _ => (1, false)
    end
  else if byte_in 240 244 a then
    match s with
    | String b s =>
        if negb (utf8_second4 a b) then (1, false)
        else match s with
        | String c s =>
            if negb (utf8_cont c) then (2, false)
            else match s with
            | String d _ => if utf8_cont d then (4, true) else (3, false)
            | _ => (3, false)
            end
        | _ => (2, false)
        end
    | _ => (1, false)
    end
  else (1, false).

Fixpoint str_take (n : nat) (s : string) : string :=
  match n, s with
  | S n, String c s => String c (str_take n s)
  | _, _ => EmptyString
  end.

Fixpoint str_drop (n : nat) (s : string) : string :=
  match n, s with
  | S n, String _ s => str_drop n s
  | _, _ => s
  end.

(** U+FFFD. *)
Definition replacement_char : string := bytes_str [239; 191; 189]%N.

(** The sequences of a string, with the parts that are not characters replaced; and
    whether there is none of them.  A string has at most as many as it has bytes. *)
Fixpoint lossy_loop (fuel : nat) (s : string) : string :=
  match fuel, s with
  | S fuel, String a r =>
      let '(n, ok) := utf8_head a r in
      (if ok then str_take n s else replacement_char) +:+ lossy_loop fuel (str_drop n s)
  | _, _ => EmptyString
  end.

Fixpoint utf8_loop (fuel : nat) (s : string) : bool :=
  match s with
  | EmptyString => true
  | String a r =>
      match fuel with
      | S fuel => let '(n, ok) := utf8_head a r in ok && utf8_loop fuel (str_drop n s)
      | O => false
      end
  end.

(** [OsStr::to_string_lossy] and [OsStr::to_str]. *)
Definition to_string_lossy (s : string) : string := lossy_loop (String.length s) s.
Definition is_utf8 (s : string) : bool := utf8_loop (String.length s) s.
Definition to_str (s : string) : option string := if is_utf8 s then Some s else None.

Lemma str_take_drop n s : str_take n s +:+ str_drop n s = s.
Proof.
  revert s. induction n as [|n IH]; intros [|c s]; [done..|].
  cbn [str_take str_drop]. by rewrite str_app_cons, IH.
Qed.

Lemma length_str_drop n s : String.length (str_drop n s) = String.length s - n.
Proof. revert s. induction n as [|n IH]; intros [|c s]; [done..|]. cbn. by rewrite IH. Qed.

(** A sequence has a byte, and a character is there in full. *)
Lemma utf8_head_length a s : 1 <= (utf8_head a s).1.
Proof. unfold utf8_head. repeat case_match; simpl; lia. Qed.

Lemma utf8_head_within a s : (utf8_head a s).1 <= String.length (String a s).
Proof. unfold utf8_head. repeat case_match; subst; simpl; lia. Qed.

(** What follows a character does not matter. *)
Lemma utf8_head_app a s t :
  (utf8_head a s).2 = true -> utf8_head a (s +:+ t) = utf8_head a s.
Proof.
  unfold utf8_head. destruct (byte_in 0 127 a); [done|].
  destruct (byte_in 194 223 a); [by destruct s|].
  destruct (byte_in 224 239 a).
  { destruct s as [|b [|c s]]; [done| |done]. cbn. by destruct (utf8_second3 a b). }
  destruct (byte_in 240 244 a); [|done].
  destruct s as [|b [|c [|d s]]]; [done|..|done]; cbn.
  - by destruct (utf8_second4 a b).
  - destruct (utf8_second4 a b); [|done]. by destruct (utf8_cont c).
Qed.

Lemma str_drop_app n s t : n <= String.length s -> str_drop n (s +:+ t) = str_drop n s +:+ t.
Proof.
  revert s. induction n as [|n IH]; intros [|c s] Hn; [done..|simpl in Hn; lia|].
  cbn. apply IH. simpl in Hn. lia.
Qed.

(** More fuel than bytes changes nothing. *)
Lemma utf8_loop_fuel fuel fuel' s :
  String.length s <= fuel -> String.length s <= fuel' -> utf8_loop fuel s = utf8_loop fuel' s.
Proof.
  revert fuel' s. induction fuel as [|fuel IH]; intros fuel' [|a r] Hf Hf'; cbn in Hf, Hf'; try lia.
  - by destruct fuel'.
  - by destruct fuel'.
  - destruct fuel' as [|fuel']; [lia|]. cbn [utf8_loop].
    pose proof (utf8_head_length a r) as Hn. destruct (utf8_head a r) as [n ok]. cbn in Hn. f_equal.
    apply IH; rewrite length_str_drop; simpl; lia.
Qed.

Lemma is_utf8_app s t : is_utf8 s = true -> is_utf8 (s +:+ t) = is_utf8 t.
Proof.
  remember (String.length s) as k eqn:Hk. revert s Hk.
  induction k as [k IH] using lt_wf_ind. intros [|a r] Hk Hs; [done|].
  unfold is_utf8 in Hs. cbn [String.length utf8_loop] in Hs.
  pose proof (utf8_head_length a r) as Hn. pose proof (utf8_head_within a r) as Hw.
  destruct (utf8_head a r) as [n ok] eqn:Eh. cbn [fst] in *.
  apply andb_true_iff in Hs as [-> Hs].
  change (String a r +:+ t) with (String a (r +:+ t)). unfold is_utf8 at 1.
  cbn [String.length utf8_loop]. rewrite utf8_head_app, Eh by (by rewrite Eh). cbn [andb].
  change (String a (r +:+ t)) with (String a r +:+ t). rewrite str_drop_app by done.
  assert (String.length (str_drop n (String a r)) < k) as Hlt
    by (subst k; rewrite length_str_drop; simpl in *; lia).
  transitivity (is_utf8 (str_drop n (String a r) +:+ t)).
  - apply utf8_loop_fuel; [|done]. rewrite !str_length_app, length_str_drop. simpl. lia.
  - apply (IH _ Hlt); [done|]. rewrite <- Hs. apply utf8_loop_fuel; [done|].
    rewrite length_str_drop. simpl. lia.
Qed.

(** Valid bytes are kept. *)
Lemma lossy_valid s : is_utf8 s = true -> to_string_lossy s = s.
Proof.
  unfold is_utf8, to_string_lossy. generalize (String.length s). intros k. revert s.
  induction k as [|k IH]; intros [|a r]; [done..|]. cbn [utf8_loop lossy_loop].
  destruct (utf8_head a r) as [n ok]. intros [-> Hs]%andb_true_iff.
  cbn [negb andb] in Hs. rewrite (IH _ Hs). apply (str_take_drop n (String a r)).
Qed.

Lemma to_str_Some s t : to_str s = Some t ↔ is_utf8 s = true ∧ t = s.
Proof. unfold to_str. destruct (is_utf8 s); naive_solver. Qed.

Lemma is_utf8_join sep l :
  is_utf8 sep = true -> Forall (fun x => is_utf8 x = true) l -> is_utf8 (join sep l) = true.
Proof.
  intros Hsep. induction 1 as [|x l Hx Hl IH]; [done|]. destruct l as [|y l]; [done|].
  change (join sep (x :: y :: l)) with (x +:+ sep +:+ join sep (y :: l)).
  by rewrite !is_utf8_app.
Qed.

Example lossy_sample :
  to_string_lossy (bytes_str [97; 192; 128; 226; 130; 226; 130; 172; 240; 159]%N) =
  "a" +:+ replacement_char +:+ replacement_char +:+ replacement_char +:+
    bytes_str [226; 130; 172]%N +:+ replacement_char.
Proof. reflexivity. Qed.
