(* ===== verification/RustPath.v ===== *)
(** * Rust paths

    A [Path] is compared and joined through its [components]; the model keeps
    the components, so two [PathBuf]s that Rust's [PartialEq] identifies (for
    instance [a//b] and [a/b]) are one value.  Unix paths only: there is no
    [Component::Prefix]. *)

From Stdlib Require Import ZArith Lia Ascii String.
From stdpp Require Import base tactics option list strings.
From S2P Require Import Prelude RustStr.

(** [std::path::Component]. *)
Inductive component : Type :=
| RootDir
| CurDir
| ParentDir
| Normal (s : string).

#[export] Instance component_eq_dec : EqDecision component.
Proof. solve_decision. Defined.

Abbreviation path := (list component).

(** One piece between slashes; empty pieces and [.] disappear. *)
Definition piece_component (piece : string) : option component :=
  if String.eqb piece "" || String.eqb piece "." then None
  else if String.eqb piece ".." then Some ParentDir
  else Some (Normal piece).

(** [Path::components]: the root of an absolute path, a leading [.] of a
    relative one, then the pieces. *)
Definition components (s : string) : path :=
  let pieces := split "/" s in
  if starts_with "/" s then RootDir :: omap piece_component pieces
  else match pieces with
       | "." :: rest => CurDir :: omap piece_component rest
       | _ => omap piece_component pieces
       end.

Definition is_absolute (p : path) : bool :=
  match p with RootDir :: _ => true | _ => false end.

(** [Path::join]: an absolute argument replaces the path; the leading [.] of a
    relative argument disappears behind a non-empty path. *)
Definition path_join (p q : path) : path :=
  if is_absolute q then q
  else match p, q with
       | _ :: _, CurDir :: q' => p ++ q'
       | _, _ => p ++ q
       end.

(** [Path::file_name]: the last component if it is a normal one. *)
Definition file_name (p : path) : option string :=
  match last p with
  | Some (Normal s) => Some s
  | _ => None
  end.

(** [Path::starts_with] on components. *)
Definition path_starts_with (p base : path) : bool :=
  bool_decide (base `prefix_of` p).

(** [Path::strip_prefix]. *)
Fixpoint path_strip_prefix (base p : path) : option path :=
  match base, p with
  | [], _ => Some p
  | c :: base', d :: p' => if decide (c = d) then path_strip_prefix base' p' else None
  | _ :: _, [] => None
  end.

Lemma path_strip_prefix_app base p : path_strip_prefix base (base ++ p) = Some p.
Proof. induction base as [|c base IH]; simpl; [done|]. by rewrite decide_True. Qed.

Lemma path_join_relative (p q : path) :
  p ≠ [] -> is_absolute q = false -> (forall q', q ≠ CurDir :: q') ->
  path_join p q = p ++ q.
Proof.
  intros Hp Hq Hc. unfold path_join. rewrite Hq.
  destruct p as [|c p]; [done|]. destruct q as [|[] q]; try done.
  by destruct (Hc q).
Qed.

(** A single piece that is a file name has itself as its only component. *)
Lemma components_single (s : string) :
  s ≠ "" -> s ≠ "." -> s ≠ ".." -> contains_char "/" s = false ->
  components s = [Normal s].
Proof.
  intros H0 H1 H2 Hs. unfold components.
  rewrite split_no_sep by done.
  replace (starts_with "/" s) with false.
  2:{ symmetry. apply starts_with_false. destruct s as [|c s]; [done|].
      rewrite contains_char_cons, orb_false_iff in Hs. destruct Hs as [Hc _].
      cbn [strip_prefix]. by rewrite Hc. }
  assert (piece_component s = Some (Normal s)) as Hp.
  { unfold piece_component.
    apply String.eqb_neq in H0 as ->. apply String.eqb_neq in H1 as ->.
    by apply String.eqb_neq in H2 as ->. }
  destruct (decide (s = ".")) as [->|_]; [done|].
  assert (omap piece_component [s] = [Normal s]) as Ho by (simpl; by rewrite Hp).
  repeat case_match; simplify_eq; try done.
Qed.

(** A file name: one piece that is not special. *)
Definition file_name_ok (s : string) : Prop :=
  s ≠ "" ∧ s ≠ "." ∧ s ≠ ".." ∧ contains_char "/" s = false.

Lemma components_file_name s : file_name_ok s -> components s = [Normal s].
Proof. intros (? & ? & ? & ?). by apply components_single. Qed.

Lemma path_join_name (p : path) s : path_join p [Normal s] = p ++ [Normal s].
Proof. by destruct p. Qed.

Lemma path_join_nil (p : path) : path_join p [] = p.
Proof. destruct p; [done|]. unfold path_join. simpl. by rewrite app_nil_r. Qed.

(** Joining pieces one by one, as the providers do. *)
Lemma path_join_pieces (p : path) (l : list string) :
  Forall file_name_ok l -> foldl (fun p c => path_join p (components c)) p l = p ++ map Normal l.
Proof.
  revert p. induction l as [|c l IH]; intros p Hl; simpl; [by rewrite app_nil_r|].
  apply Forall_cons in Hl as [Hc Hl]. rewrite components_file_name by done.
  rewrite path_join_name, IH by done. by rewrite <- app_assoc.
Qed.

Lemma components_pieces (s : string) :
  Forall file_name_ok (split "/" s) -> components s = map Normal (split "/" s).
Proof.
  intros Hall. unfold components.
  replace (starts_with "/" s) with false.
  2:{ symmetry. apply starts_with_false. destruct s as [|c s]; [done|].
      cbn [strip_prefix split] in *. destruct (Ascii.eqb "/" c); [|done].
      apply Forall_cons in Hall as [[? _] _]. done. }
  assert (omap piece_component (split "/" s) = map Normal (split "/" s)) as Ho.
  { induction Hall as [|x l (H0 & H1 & H2 & _) _ IH]; [done|].
    assert (piece_component x = Some (Normal x)) as Hp.
    { unfold piece_component. apply String.eqb_neq in H0 as ->. apply String.eqb_neq in H1 as ->.
      by apply String.eqb_neq in H2 as ->. }
    cbn [omap list_omap map]. rewrite Hp. by f_equal. }
  destruct (split "/" s) as [|x l] eqn:Hs; [by apply split_ne_nil in Hs|].
  rewrite Ho. destruct (decide (x = ".")) as [->|Hx].
  - apply Forall_cons in Hall as [(_ & ? & _) _]. done.
  - repeat case_match; simplify_eq; done.
Qed.

Lemma path_join_names (p : path) (l : list string) :
  path_join p (map Normal l) = p ++ map Normal l.
Proof. unfold path_join. destruct p, l; simpl; done. Qed.

Lemma map_Normal_inj (l1 l2 : list string) : map Normal l1 = map Normal l2 -> l1 = l2.
Proof.
  revert l2. induction l1 as [|x l1 IH]; intros [|y l2]; simpl; try done.
  intros [= -> Hl]. f_equal. by apply IH.
Qed.

Lemma path_snoc_name (p : path) (l : list string) n :
  (p ++ map Normal l) ++ [Normal n] = p ++ map Normal (l ++ [n]).
Proof. by rewrite map_app, app_assoc. Qed.
