(* ===== verification/Models.v ===== *)
(** * Shared model types (modelexpress_common/src/models.rs, registry/backend.rs)

    The download status, the providers and the registry record, with the
    provider inference of [ModelProvider::resolve_provider_for_model_name]. *)

From Stdlib Require Import ZArith Lia Ascii String.
From stdpp Require Import base tactics option list strings.
From S2P Require Import Prelude RustStr.

(** Status of a model download. *)
Inductive ModelStatus : Type :=
| DOWNLOADING
| DOWNLOADED
| ERROR.

(** Supported model providers. *)
Inductive ModelProvider : Type :=
| HuggingFace
| Ngc
| Gcs
| S3.

#[export] Instance ModelStatus_eq_dec : EqDecision ModelStatus.
Proof. solve_decision. Defined.

#[export] Instance ModelProvider_eq_dec : EqDecision ModelProvider.
Proof. solve_decision. Defined.

(** [ModelProvider::as_str]. *)
Definition provider_as_str (p : ModelProvider) : string :=
  match p with
  | HuggingFace => "hugging-face"
  | Ngc => "ngc"
  | Gcs => "gcs"
  | S3 => "s3"
  end.

(** [model_name.get(..scheme.len()).is_some_and(|p| p.eq_ignore_ascii_case(scheme))]. *)
Definition has_scheme (scheme model_name : string) : bool :=
  match str_get_to (String.length scheme) model_name with
  | Some prefix => eq_ignore_ascii_case prefix scheme
  | None => false
  end.

Definition resolve_provider_for_model_name (model_name : string)
    (default_provider : ModelProvider) : ModelProvider :=
  let model_name := trim_start model_name in
  if has_scheme "s3://" model_name then S3
  else if has_scheme "gs://" model_name then Gcs
  else if has_scheme "ngc://" model_name then Ngc
  else default_provider.

(** Full model-lifecycle record returned by registry backends. Timestamps are
    [DateTime<Utc>] values, as nanoseconds since the Unix epoch. *)
Record ModelRecord : Type := MkModelRecord {
  mr_model_name : string;
  mr_provider : ModelProvider;
  mr_status : ModelStatus;
  mr_created_at : Z;
  mr_last_used_at : Z;
  mr_message : option string
}.

(** Result of a [try_claim_for_download] call. *)
Inductive ClaimOutcome : Type :=
| Claimed
| TookOver
| AlreadyExists (status : ModelStatus).

#[export] Instance ModelRecord_eq_dec : EqDecision ModelRecord.
Proof. solve_decision. Defined.

#[export] Instance ClaimOutcome_eq_dec : EqDecision ClaimOutcome.
Proof. solve_decision. Defined.

(** Whether an outcome makes the caller the owner of the download. *)
Definition owns_download (o : ClaimOutcome) : bool :=
  match o with
  | Claimed | TookOver => true
  | AlreadyExists _ => false
  end.

Example resolve_s3 : resolve_provider_for_model_name " S3://b/m" HuggingFace = S3.
Proof. vm_compute. reflexivity. Qed.

Example resolve_default : resolve_provider_for_model_name "org/model" HuggingFace = HuggingFace.
Proof. vm_compute. reflexivity. Qed.
