(* ===== verification/EntryKey.v ===== *)
(** * Registry entry keys (modelexpress_server/src/registry/entry_key.rs)

    Every record, lease and claim is keyed on one string that folds the tenant,
    the model name, the resolved revision and the weight mode together.  This
    file models the encoder ([Display]), the parser and the cache partitions,
    and proves that the encoding is exact and that tenants cannot be
    impersonated. *)

From Stdlib Require Import ZArith Lia Ascii String.
From stdpp Require Import base tactics option list strings.
From S2P Require Import Prelude RustStr RustPath.

Definition STRUCTURED_PREFIX : string := "mx1:".
Definition TENANT_PREFIX : string := "mxt1:".
Definition PARTITIONS_DIR : string := ".modelexpress/tenants".
Definition METADATA_FLAG : string := "m".
Definition FULL_WEIGHT_FLAG : string := "-".

(** ** DNS-1123 labels (config.rs) *)

Definition matches_dns1123_label (s : string) : bool :=
  str_all (fun b => is_ascii_lowercase b || is_ascii_digit b || Ascii.eqb b "-") s
  && match str_first s with Some b => is_ascii_alphanumeric b | None => false end
  && match str_last s with Some b => is_ascii_alphanumeric b | None => false end.

Definition is_dns1123_label (s : string) : bool :=
  (String.length s <=? 63)%nat && matches_dns1123_label s.

(** ** Tenants and partitions *)

Record Tenant : Type := MkTenant { tenant_str : string }.

#[export] Instance Tenant_eq_dec : EqDecision Tenant.
Proof. solve_decision. Defined.

(** [Tenant::new]: [None] unless the namespace is a DNS-1123 label. *)
Definition Tenant_new (namespace : string) : option Tenant :=
  if is_dns1123_label namespace then Some (MkTenant namespace) else None.

(** [partition]: the tenant's cache directory, or the root when untenanted. *)
Definition partition (cache_root : path) (tenant : option Tenant) : path :=
  match tenant with
  | Some t => path_join (path_join cache_root (components PARTITIONS_DIR))
                        (components (tenant_str t))
  | None => cache_root
  end.

(** ** Entry keys *)

Record EntryKey : Type := MkEntryKey {
  ek_tenant : option Tenant;
  ek_model_name : string;
  ek_revision : option string;
  ek_metadata_only : bool
}.

#[export] Instance EntryKey_eq_dec : EqDecision EntryKey.
Proof. solve_decision. Defined.

Definition EntryKey_new (model_name : string) (revision : option string)
    (metadata_only : bool) : EntryKey :=
  MkEntryKey None model_name revision metadata_only.

Definition in_tenant (tenant : option Tenant) (k : EntryKey) : EntryKey :=
  MkEntryKey tenant (ek_model_name k) (ek_revision k) (ek_metadata_only k).

Definition needs_structured_form (k : EntryKey) : bool :=
  match ek_revision k with Some _ => true | None => false end
  || ek_metadata_only k
  || starts_with STRUCTURED_PREFIX (ek_model_name k)
  || starts_with TENANT_PREFIX (ek_model_name k).

(** [(!revision.is_empty()).then(|| revision.to_string())]. *)
Definition non_empty (revision : string) : option string :=
  if str_is_empty revision then None else Some revision.

(** [EntryKey::parse]. The tuple of [parts.next()] calls reads the pieces of
    [splitn] in order. *)
Definition parse (key : string) : EntryKey :=
  match strip_prefix TENANT_PREFIX key with
  | Some fields =>
      match splitn 4 ":" fields with
      | [t; revision; flags; model_name] =>
          match Tenant_new t with
          | Some tenant =>
              in_tenant (Some tenant)
                (EntryKey_new model_name (non_empty revision)
                   (String.eqb flags METADATA_FLAG))
          | None => EntryKey_new key None false
          end
      | _ => EntryKey_new key None false
      end
  | None =>
      match strip_prefix STRUCTURED_PREFIX key with
      | None => EntryKey_new key None false
      | Some fields =>
          match splitn 3 ":" fields with
          | [revision; flags; model_name] =>
              EntryKey_new model_name (non_empty revision)
                (String.eqb flags METADATA_FLAG)
          | _ => EntryKey_new key None false
          end
      end
  end.

(** [EntryKey::belongs_to]. *)
Definition belongs_to (k : EntryKey) (tenant : option Tenant) (model_name : string) : bool :=
  bool_decide (ek_tenant k = tenant) && String.eqb (ek_model_name k) model_name.

(** [EntryKey::cache_dir]. *)
Definition cache_dir (k : EntryKey) (cache_root : path) : path :=
  partition cache_root (ek_tenant k).

(** [Display for EntryKey]. *)
Definition to_string (k : EntryKey) : string :=
  let flags := if ek_metadata_only k then METADATA_FLAG else FULL_WEIGHT_FLAG in
  let revision := default "" (ek_revision k) in
  match ek_tenant k with
  | Some tenant =>
      TENANT_PREFIX +:+ tenant_str tenant +:+ ":" +:+ revision +:+ ":" +:+ flags
        +:+ ":" +:+ ek_model_name k
  | None =>
      if needs_structured_form k
      then STRUCTURED_PREFIX +:+ revision +:+ ":" +:+ flags +:+ ":" +:+ ek_model_name k
      else ek_model_name k
  end.

(** ** Well-formed keys

    A [Tenant] only exists through [Tenant::new], and a resolved revision is a
    commit identifier: not empty and without a colon. The model name is free. *)
Definition revision_wf (r : string) : Prop := r ≠ "" ∧ contains_char ":" r = false.

Definition tenant_wf (t : Tenant) : Prop := is_dns1123_label (tenant_str t) = true.

Definition entry_key_wf (k : EntryKey) : Prop :=
  (forall t, ek_tenant k = Some t -> tenant_wf t) ∧
  (forall r, ek_revision k = Some r -> revision_wf r).

(** ** Lemmas *)

Lemma dns1123_label_no_char c s :
  is_dns1123_label s = true ->
  is_ascii_lowercase c || is_ascii_digit c || Ascii.eqb c "-" = false ->
  contains_char c s = false.
Proof.
  unfold is_dns1123_label, matches_dns1123_label.
  rewrite !andb_true_iff. intros (_ & (H & _) & _) Hc.
  eapply str_all_not_contains; [|exact H]. exact Hc.
Qed.

Lemma dns1123_label_non_empty s : is_dns1123_label s = true -> s ≠ "".
Proof. by intros H ->. Qed.

Lemma Tenant_new_Some s t : Tenant_new s = Some t ↔ t = MkTenant s ∧ is_dns1123_label s = true.
Proof. unfold Tenant_new. case_match; split; [intros [= <-]|intros [-> _]|..]; try done. by intros [_ ?]. Qed.

Lemma non_empty_default (r : option string) :
  (forall s, r = Some s -> revision_wf s) -> non_empty (default "" r) = r.
Proof.
  intros Hr. destruct r as [s|]; [|done]. destruct (Hr s eq_refl) as [Hne _].
  by destruct s.
Qed.

Lemma default_revision_no_colon (r : option string) :
  (forall s, r = Some s -> revision_wf s) -> contains_char ":" (default "" r) = false.
Proof. intros Hr. destruct r as [s|]; [|done]. by destruct (Hr s eq_refl). Qed.

Lemma flag_no_colon (b : bool) :
  contains_char ":" (if b then METADATA_FLAG else FULL_WEIGHT_FLAG) = false.
Proof. by destruct b. Qed.

Lemma flag_eqb (b : bool) :
  String.eqb (if b then METADATA_FLAG else FULL_WEIGHT_FLAG) METADATA_FLAG = b.
Proof. by destruct b. Qed.

(** Splitting off one field that holds no separator. *)
Lemma splitn_field n c (a b : string) :
  contains_char c a = false -> n ≠ 0 ->
  splitn (S n) c (a +:+ String c b) = a :: splitn n c b.
Proof. intros Ha Hn. destruct n; [done|]. cbn [splitn]. by rewrite split_once_app. Qed.

Lemma tenant_prefix_not_structured s :
  strip_prefix TENANT_PREFIX (STRUCTURED_PREFIX +:+ s) = None.
Proof. reflexivity. Qed.

(** Every piece of [splitn] but the last one is free of the separator. *)
Lemma splitn_cons_no_sep n c s a l :
  splitn n c s = a :: l -> l ≠ [] -> contains_char c a = false.
Proof.
  destruct n as [|[|n]]; [done|by intros [= _ <-]|].
  cbn [splitn]. destruct (split_once c s) as [[x y]|] eqn:E; [|by intros [= _ <-]].
  intros [= <- _] _. by apply split_once_Some in E as [_ ?].
Qed.

Lemma splitn_tail n c s a l :
  splitn n c s = a :: l -> l ≠ [] -> ∃ s', l = splitn (pred n) c s'.
Proof.
  destruct n as [|[|n]]; [done|by intros [= _ <-]|].
  cbn [splitn]. destruct (split_once c s) as [[x y]|] eqn:E; [|by intros [= _ <-]].
  intros [= _ <-] _. by exists y.
Qed.

Lemma parse_tenant_fields (t : Tenant) r f name :
  tenant_wf t -> contains_char ":" r = false -> contains_char ":" f = false ->
  parse (TENANT_PREFIX +:+ tenant_str t +:+ ":" +:+ r +:+ ":" +:+ f +:+ ":" +:+ name)
  = MkEntryKey (Some t) name (non_empty r) (String.eqb f METADATA_FLAG).
Proof.
  intros Ht Hr Hf. unfold parse. rewrite strip_prefix_app.
  rewrite !str_app_cons, !str_app_nil_l.
  rewrite splitn_field by (done || by eapply dns1123_label_no_char).
  rewrite splitn_field by done. rewrite splitn_field by done. cbn [splitn].
  assert (Tenant_new (tenant_str t) = Some t) as ->; [|done].
  apply Tenant_new_Some. by destruct t.
Qed.

Lemma parse_structured_fields r f name :
  contains_char ":" r = false -> contains_char ":" f = false ->
  parse (STRUCTURED_PREFIX +:+ r +:+ ":" +:+ f +:+ ":" +:+ name)
  = MkEntryKey None name (non_empty r) (String.eqb f METADATA_FLAG).
Proof.
  intros Hr Hf. unfold parse. rewrite tenant_prefix_not_structured, strip_prefix_app.
  rewrite !str_app_cons, !str_app_nil_l.
  rewrite splitn_field by done. by rewrite splitn_field by done.
Qed.

Lemma parse_bare name :
  starts_with STRUCTURED_PREFIX name = false -> starts_with TENANT_PREFIX name = false ->
  parse name = EntryKey_new name None false.
Proof.
  rewrite !starts_with_false. intros H1 H2. unfold parse. by rewrite H2, H1.
Qed.

Lemma roundtrip k : entry_key_wf k -> parse (to_string k) = k.
Proof.
  destruct k as [t name r m]. intros [Ht Hr]. unfold to_string. cbn in *.
  destruct t as [t|].
  - rewrite parse_tenant_fields by eauto using default_revision_no_colon, flag_no_colon.
    by rewrite flag_eqb, non_empty_default.
  - destruct (needs_structured_form _) eqn:Hn.
    + rewrite parse_structured_fields by eauto using default_revision_no_colon, flag_no_colon.
      by rewrite flag_eqb, non_empty_default.
    + unfold needs_structured_form in Hn. cbn in Hn. rewrite !orb_false_iff in Hn.
      destruct Hn as (((Hrev & ->) & H1) & H2).
      destruct r; [done|]. by apply parse_bare.
Qed.

Lemma non_empty_wf r s :
  contains_char ":" r = false -> non_empty r = Some s -> revision_wf s.
Proof. unfold non_empty. destruct r; simpl; [done|]. by intros H [= <-]. Qed.

Lemma parse_wf key : entry_key_wf (parse key).
Proof.
  assert (forall name, entry_key_wf (EntryKey_new name None false)) as Hbare by by split.
  unfold parse. destruct (strip_prefix TENANT_PREFIX key) as [fields|].
  - destruct (splitn 4 ":" fields) as [|t [|r [|f [|name [|]]]]] eqn:E; auto.
    destruct (Tenant_new t) as [t'|] eqn:Et; auto.
    apply Tenant_new_Some in Et as [-> Ht].
    apply splitn_tail in E as [s' E]; [|done]. cbn [pred] in E.
    split; cbn; [by intros ? [= <-]|].
    intros s. apply non_empty_wf. by eapply splitn_cons_no_sep.
  - destruct (strip_prefix STRUCTURED_PREFIX key) as [fields|]; auto.
    destruct (splitn 3 ":" fields) as [|r [|f [|name [|]]]] eqn:E; auto.
    split; cbn; [done|].
    intros s. apply non_empty_wf. by eapply splitn_cons_no_sep.
Qed.

(** The components of a tenant's partition below the cache root. *)
Lemma partition_components (root : path) (t : Tenant) :
  root ≠ [] -> tenant_wf t ->
  partition root (Some t) =
  root ++ [Normal ".modelexpress"; Normal "tenants"; Normal (tenant_str t)].
Proof.
  intros Hroot Ht. unfold partition.
  assert (components (tenant_str t) = [Normal (tenant_str t)]) as ->.
  { apply components_single.
    - by apply dns1123_label_non_empty.
    - intros Heq. unfold tenant_wf in Ht. by rewrite Heq in Ht.
    - intros Heq. unfold tenant_wf in Ht. by rewrite Heq in Ht.
    - by eapply dns1123_label_no_char. }
  change (components PARTITIONS_DIR) with [Normal ".modelexpress"; Normal "tenants"].
  rewrite (path_join_relative root) by done.
  rewrite path_join_relative by (done || by destruct root).
  by rewrite <- app_assoc.
Qed.

(** ** Properties *)

(** The encoding of an entry key is exact: parsing the string that
    [Display] writes for a key with a valid tenant and a commit-like revision
    gives back the key, whatever bytes its model name holds. *)
Lemma entry_key_roundtrip (k : EntryKey) :
  entry_key_wf k -> parse (to_string k) = k.
Proof. apply roundtrip. Qed.

Lemma entry_key_roundtrip_witness :
  let k := MkEntryKey (Some (MkTenant "team-a")) "gs://b/foo:m:bar" (Some "abc123") true in
  to_string k = "mxt1:team-a:abc123:m:gs://b/foo:m:bar" ∧ parse (to_string k) = k.
Proof.
  split; [reflexivity|]. apply entry_key_roundtrip. split; cbn.
  - intros ? [= <-]. reflexivity.
  - intros ? [= <-]. by split.
Defined.

(** Parsing is total and canonical: every string parses to a well-formed
    key, and re-encoding that key changes nothing that the parser sees, so two
    strings denote the same entry exactly when their canonical encodings are
    equal. *)
Lemma entry_key_parse_canonical (key1 key2 : string) :
  entry_key_wf (parse key1) ∧
  parse (to_string (parse key1)) = parse key1 ∧
  (to_string (parse key1) = to_string (parse key2) ↔ parse key1 = parse key2).
Proof.
  split_and!; [apply parse_wf|apply roundtrip, parse_wf|]. split; [|by intros ->].
  intros Heq. rewrite <- (roundtrip (parse key1)), <- (roundtrip (parse key2)) by apply parse_wf.
  by rewrite Heq.
Qed.

(** Tenant partitions are isolated: below any cache root the partitions of
    two different namespaces lie strictly inside the root and neither contains
    the other, so no path of one tenant's cache is a path of another's. *)
Lemma partition_isolated (root : path) (t1 t2 : Tenant) :
  root ≠ [] -> tenant_wf t1 -> tenant_wf t2 -> t1 ≠ t2 ->
  path_starts_with (partition root (Some t1)) root = true ∧
  partition root (Some t1) ≠ root ∧
  forall p, path_starts_with p (partition root (Some t1)) = true ->
            path_starts_with p (partition root (Some t2)) = false.
Proof.
  intros Hroot H1 H2 Hne. unfold path_starts_with.
  rewrite !partition_components by done. split_and!.
  - apply bool_decide_eq_true. by eexists.
  - intros Heq. apply (f_equal length) in Heq. rewrite length_app in Heq. simpl in Heq. lia.
  - intros p Hp. apply bool_decide_eq_true in Hp as [s1 ->].
    apply bool_decide_eq_false. intros [s2 Heq]. rewrite <- !app_assoc in Heq.
    simplify_list_eq. destruct t1, t2; simpl in *; congruence.
Qed.

Lemma partition_isolated_witness :
  let root := [RootDir; Normal "cache"] in
  path_starts_with (partition root (Some (MkTenant "a"))) root = true ∧
  partition root (Some (MkTenant "a")) ≠ root ∧
  forall p, path_starts_with p (partition root (Some (MkTenant "a"))) = true ->
            path_starts_with p (partition root (Some (MkTenant "a-b"))) = false.
Proof. apply partition_isolated; done. Defined.
