(* ===== verification/LeaseSpec.v ===== *)
(** * The download-lease contract (registry/backend.rs)

    The [RegistryBackend] trait promises that only the caller that wins a claim
    owns a download, that a live lease cannot be taken over, and that a stale
    owner cannot publish.  This file states the promise as a machine over one
    abstract [cell] per registry key ([spec_step]), and as an interface: a
    [LeaseBackend] gives the operations of a concrete backend, and
    [LeaseBackendSpec] says that each of them refines the machine.  The
    backends discharge the interface; the protocol theorems are proved against
    it. *)

From Stdlib Require Import ZArith Lia Ascii String.
From stdpp Require Import base tactics option list strings.
From S2P Require Import Prelude RustStr Models.

(** ** Abstract cells *)

Record lease : Type := MkLease {
  l_claim_id : string;
  l_expires_at : Z
}.

#[export] Instance lease_eq_dec : EqDecision lease.
Proof. solve_decision. Defined.

(** What the registry holds for one key: nothing, or a status with the lease of
    the download in progress. *)
Inductive cell : Type :=
| Absent
| Present (status : ModelStatus) (l : option lease).

#[export] Instance cell_eq_dec : EqDecision cell.
Proof. solve_decision. Defined.

(** A missing lease counts as expired, and so does one whose deadline has come. *)
Definition lease_expired (l : option lease) (now : Z) : bool :=
  match l with
  | None => true
  | Some l => (l_expires_at l <=? now)%Z
  end.

Definition cell_owner (c : cell) : option string :=
  match c with
  | Present DOWNLOADING (Some l) => Some (l_claim_id l)
  | _ => None
  end.

(** Only a download in progress holds a lease. *)
Definition cell_wf (c : cell) : Prop :=
  match c with
  | Present status (Some _) => status = DOWNLOADING
  | _ => True
  end.

(** ** Operations and their results *)

Inductive op : Type :=
| OpClaim (p : ModelProvider) (name claim_id : string) (ttl : Z)
| OpRetry (p : ModelProvider) (name claim_id : string) (ttl : Z)
| OpRefresh (p : ModelProvider) (name claim_id : string) (ttl : Z)
| OpFinish (p : ModelProvider) (name claim_id : string) (status : ModelStatus)
           (message : option string)
| OpSetStatus (p : ModelProvider) (name : string) (status : ModelStatus)
              (message : option string)
| OpTouch (name : string)
| OpDelete (name : string).

Inductive op_result : Type :=
| RClaim (o : ClaimOutcome)
| RBool (b : bool)
| RUnit.

(** The claim id that an operation would make, or assumes to be, the owner. *)
Definition op_claim_id (o : op) : option string :=
  match o with
  | OpClaim _ _ c _ | OpRetry _ _ c _ | OpRefresh _ _ c _ | OpFinish _ _ c _ _ => Some c
  | _ => None
  end.

Definition op_acquires (o : op) : bool :=
  match o with OpClaim _ _ _ _ | OpRetry _ _ _ _ => true | _ => false end.

Definition op_provider (o : op) : option ModelProvider :=
  match o with
  | OpClaim p _ _ _ | OpRetry p _ _ _ | OpRefresh p _ _ _ | OpFinish p _ _ _ _
  | OpSetStatus p _ _ _ => Some p
  | OpTouch _ | OpDelete _ => None
  end.

Definition op_name (o : op) : string :=
  match o with
  | OpClaim _ n _ _ | OpRetry _ n _ _ | OpRefresh _ n _ _ | OpFinish _ n _ _ _
  | OpSetStatus _ n _ _ | OpTouch n | OpDelete n => n
  end.

(** ** The contract of each operation, on the cell it addresses *)

Definition spec_claim (now deadline : Z) (claim_id : string) (c : cell) : cell * ClaimOutcome :=
  match c with
  | Absent => (Present DOWNLOADING (Some (MkLease claim_id deadline)), Claimed)
  | Present DOWNLOADING l =>
      if lease_expired l now
      then (Present DOWNLOADING (Some (MkLease claim_id deadline)), TookOver)
      else (c, AlreadyExists DOWNLOADING)
  | Present status _ => (c, AlreadyExists status)
  end.

Definition spec_retry (deadline : Z) (claim_id : string) (c : cell) : cell * bool :=
  match c with
  | Present ERROR _ => (Present DOWNLOADING (Some (MkLease claim_id deadline)), true)
  | _ => (c, false)
  end.

Definition spec_refresh (deadline : Z) (claim_id : string) (c : cell) : cell * bool :=
  if bool_decide (cell_owner c = Some claim_id)
  then (Present DOWNLOADING (Some (MkLease claim_id deadline)), true)
  else (c, false).

Definition spec_finish (claim_id : string) (status : ModelStatus) (c : cell) : cell * bool :=
  if bool_decide (cell_owner c = Some claim_id)
  then (Present status None, true)
  else (c, false).

Definition spec_set_status (status : ModelStatus) (c : cell) : cell :=
  match status, c with
  | DOWNLOADING, Present _ l => Present DOWNLOADING l
  | _, _ => Present status None
  end.

(** One operation at lease-clock time [now] with new deadline [deadline] on the
    cell that it addresses. *)
Definition spec_cell (now deadline : Z) (o : op) (c : cell) : cell * op_result :=
  match o with
  | OpClaim _ _ cid _ => let '(c', r) := spec_claim now deadline cid c in (c', RClaim r)
  | OpRetry _ _ cid _ => let '(c', r) := spec_retry deadline cid c in (c', RBool r)
  | OpRefresh _ _ cid _ => let '(c', r) := spec_refresh deadline cid c in (c', RBool r)
  | OpFinish _ _ cid st _ => let '(c', r) := spec_finish cid st c in (c', RBool r)
  | OpSetStatus _ _ st _ => (spec_set_status st c, RUnit)
  | OpTouch _ => (c, RUnit)
  | OpDelete _ => (Absent, RUnit)
  end.

Definition op_ttl (o : op) : Z :=
  match o with
  | OpClaim _ _ _ t | OpRetry _ _ _ t | OpRefresh _ _ _ t => t
  | _ => 0
  end.

(** ** The interface *)

(** The operations of a backend: its state, the clock readings one call takes
    (the lease clock and whatever else it reads), and one step per trait
    operation. [lb_key] is the record an operation on a provider and a name
    addresses; [lb_errors] are the backend's own failures. *)
Class LeaseBackend (St : Type) := {
  lb_clock : Type;
  lb_error : Type;
  lb_key_type : Type;
  lb_key_dec :: EqDecision lb_key_type;
  lb_now : lb_clock -> Z;
  lb_deadline : lb_clock -> Z -> Z;
  lb_key : ModelProvider -> string -> lb_key_type;
  lb_step : lb_clock -> op -> St -> St * result op_result lb_error;
  lb_abs : St -> lb_key_type -> cell;
  lb_inv : St -> Prop;
  lb_name_ok : string -> Prop;
  lb_pre : St -> lb_clock -> op -> Prop
}.

(** The keys an operation may change: the one it names, or for the operations
    without a provider every key of the name. *)
Definition op_addresses {St} `{LeaseBackend St} (o : op) (k : lb_key_type) : Prop :=
  match op_provider o with
  | Some p => k = lb_key p (op_name o)
  | None => ∃ p, k = lb_key p (op_name o)
  end.

Definition key_ok {St} `{LeaseBackend St} (k : lb_key_type) : Prop :=
  ∃ p n, lb_name_ok n ∧ k = lb_key p n.

(** The contract: from a state that satisfies the invariant, an operation
    whose precondition holds returns a value (not a failure), keeps the
    invariant, moves each addressed cell as [spec_cell] says, answers as
    [spec_cell] says, and leaves every other cell alone. *)
Class LeaseBackendSpec (St : Type) `{LeaseBackend St} : Prop := {
  lb_abs_wf : forall (s : St) k, lb_inv s -> cell_wf (lb_abs s k);
  lb_step_refines : forall (s s' : St) clk o r,
    lb_inv s -> lb_name_ok (op_name o) -> lb_pre s clk o ->
    lb_step clk o s = (s', r) ->
    lb_inv s' ∧
    (forall k, op_addresses o k ->
       lb_abs s' k = (spec_cell (lb_now clk) (lb_deadline clk (op_ttl o)) o (lb_abs s k)).1) ∧
    (forall p, op_provider o = Some p ->
       r = Ok (spec_cell (lb_now clk) (lb_deadline clk (op_ttl o)) o
                 (lb_abs s (lb_key p (op_name o)))).2) ∧
    (op_provider o = None -> r = Ok RUnit) ∧
    (forall k, key_ok k -> ~ op_addresses o k -> lb_abs s' k = lb_abs s k);
}.
