(* ===== verification/LeaseProtocol.v ===== *)
(** * Lease protocol theorems, for every lawful backend

    The guarantees that [ModelDownloadTracker] relies on, proved once against
    the [LeaseBackendSpec] interface: for every interleaving of operations by
    any number of replicas a live lease excludes every other claimant, a stale
    owner is fenced, and an expired lease can be taken over.  The files
    [RegistryMemory] and [RegistryRedis] instantiate the interface. *)

From Stdlib Require Import ZArith Lia Ascii String.
From stdpp Require Import base tactics option list strings.
From S2P Require Import Prelude RustStr Models LeaseSpec.

Section protocol.
Context {St : Type} `{LB : LeaseBackend St}.

#[export] Instance op_addresses_dec (o : op) (k : lb_key_type) :
  Decision (op_addresses o k).
Proof.
  unfold op_addresses. destruct (op_provider o) as [p|]; [apply _|].
  destruct (decide (k = lb_key HuggingFace (op_name o)
                    ∨ k = lb_key Ngc (op_name o)
                    ∨ k = lb_key Gcs (op_name o)
                    ∨ k = lb_key S3 (op_name o))) as [Hk|Hk].
  - left. destruct Hk as [?|[?|[?|?]]]; eauto.
  - right. intros [[] ->]; tauto.
Defined.

(** An interleaving is the list of operations in the order in which the store
    executes them, each with the clock readings of its call. *)
Fixpoint run (s : St) (tr : list (lb_clock * op))
  : St * list (result op_result lb_error) :=
  match tr with
  | [] => (s, [])
  | (clk, o) :: tr' =>
      let '(s1, r) := lb_step clk o s in
      let '(s2, rs) := run s1 tr' in
      (s2, r :: rs)
  end.

(** Every operation of the interleaving is called with its precondition. *)
Fixpoint run_ok (s : St) (tr : list (lb_clock * op)) : Prop :=
  match tr with
  | [] => True
  | (clk, o) :: tr' =>
      lb_name_ok (op_name o) ∧ lb_pre s clk o ∧ run_ok (lb_step clk o s).1 tr'
  end.

(** Operations that release or overwrite the lease of [c] on purpose. *)
Definition releases (c : string) (o : op) : bool :=
  match o with
  | OpDelete _ => true
  | OpSetStatus _ _ st _ => negb (bool_decide (st = DOWNLOADING))
  | _ => bool_decide (op_claim_id o = Some c)
  end.

(** The answer that tells a replica that it does not own the download. *)
Definition denied (o : op) (r : result op_result lb_error) : Prop :=
  match o with
  | OpClaim _ _ _ _ => r = Ok (RClaim (AlreadyExists DOWNLOADING))
  | OpRetry _ _ _ _ | OpRefresh _ _ _ _ | OpFinish _ _ _ _ _ => r = Ok (RBool false)
  | _ => True
  end.

(** Operations that only the current owner may perform successfully. *)
Definition owner_only (o : op) : bool :=
  match o with OpRefresh _ _ _ _ | OpFinish _ _ _ _ _ => true | _ => false end.

(** ** Facts about one cell *)

Lemma spec_cell_live c e now deadline o :
  (now < e)%Z -> releases c o = false ->
  (spec_cell now deadline o (Present DOWNLOADING (Some (MkLease c e)))).1
    = Present DOWNLOADING (Some (MkLease c e)) ∧
  (op_provider o ≠ None ->
   denied o (Ok (spec_cell now deadline o (Present DOWNLOADING (Some (MkLease c e)))).2)).
Proof.
  intros Hnow Hrel.
  assert ((e <=? now)%Z = false) as He by (apply Z.leb_gt; lia).
  destruct o; simpl in *; rewrite ?He; simpl; try done.
  - unfold spec_refresh. simpl. mx_bool.
    rewrite bool_decide_eq_false_2 by congruence. done.
  - unfold spec_finish. simpl. mx_bool.
    rewrite bool_decide_eq_false_2 by congruence. done.
  - mx_bool. subst. simpl. by split.
Qed.

Lemma spec_cell_not_owner c now deadline o cl :
  cell_wf cl -> cell_owner cl ≠ Some c ->
  (op_acquires o = true -> op_claim_id o ≠ Some c) ->
  cell_owner (spec_cell now deadline o cl).1 ≠ Some c ∧
  (owner_only o = true -> op_claim_id o = Some c ->
   (spec_cell now deadline o cl).2 = RBool false).
Proof.
  intros Hwf Hc Hacq. destruct o; simpl in *; try done.
  - assert (claim_id ≠ c) by (intros ->; by apply Hacq).
    unfold spec_claim. repeat case_match; simplify_eq/=; split; congruence.
  - assert (claim_id ≠ c) by (intros ->; by apply Hacq).
    unfold spec_retry. repeat case_match; simplify_eq/=; split; congruence.
  - unfold spec_refresh. destruct (bool_decide _) eqn:Hb; mx_bool; simpl; split; try done.
    + congruence.
    + intros _ [= ->]. congruence.
  - unfold spec_finish. destruct (bool_decide _) eqn:Hb; mx_bool; simpl; split; try done.
    + by destruct status.
    + intros _ [= ->]. congruence.
  - split; [|done]. by destruct status, cl as [|[] []]; simpl in *; simplify_eq.
Qed.

(** ** Facts about one step *)

Context `{!LeaseBackendSpec St}.

Lemma step_inv s clk o :
  lb_inv s -> lb_name_ok (op_name o) -> lb_pre s clk o -> lb_inv (lb_step clk o s).1.
Proof.
  intros. destruct (lb_step clk o s) as [s' r] eqn:E.
  by destruct (lb_step_refines s s' clk o r) as [? _].
Qed.

Lemma step_cell s clk o k :
  lb_inv s -> lb_name_ok (op_name o) -> lb_pre s clk o -> key_ok k ->
  lb_abs (lb_step clk o s).1 k =
  if decide (op_addresses o k)
  then (spec_cell (lb_now clk) (lb_deadline clk (op_ttl o)) o (lb_abs s k)).1
  else lb_abs s k.
Proof.
  intros. destruct (lb_step clk o s) as [s' r] eqn:E. simpl.
  destruct (lb_step_refines s s' clk o r) as (_ & Ha & _ & _ & Hf); try done.
  case_decide; auto.
Qed.

Lemma step_result s clk o k :
  lb_inv s -> lb_name_ok (op_name o) -> lb_pre s clk o ->
  op_addresses o k -> op_provider o ≠ None ->
  (lb_step clk o s).2 =
  Ok (spec_cell (lb_now clk) (lb_deadline clk (op_ttl o)) o (lb_abs s k)).2.
Proof.
  intros Hi Hn Hp Hk Hprov. destruct (lb_step clk o s) as [s' r] eqn:E. simpl.
  destruct (lb_step_refines s s' clk o r) as (_ & _ & Hr & _ & _); try done.
  unfold op_addresses in Hk. destruct (op_provider o) as [p|]; [|done].
  subst k. by rewrite (Hr p).
Qed.

(** Unfold one step of an interleaving: expose its state and its result. *)
Ltac run_step :=
  match goal with
  | H : run ?s ((?clk, ?o) :: ?tr) = (_, _) |- _ =>
      cbn [run] in H;
      let s1 := fresh "s1" in let r1 := fresh "r1" in
      let E := fresh "Estep" in
      destruct (lb_step clk o s) as [s1 r1] eqn:E;
      let s2 := fresh "s2" in let rs2 := fresh "rs2" in
      let E2 := fresh "Erun" in
      destruct (run s1 tr) as [s2 rs2] eqn:E2;
      injection H as <- <-
  end.

(** ** The protocol over a whole interleaving *)

Lemma live_lease_run s k c e tr s' rs :
  lb_inv s -> key_ok k ->
  lb_abs s k = Present DOWNLOADING (Some (MkLease c e)) ->
  run_ok s tr -> run s tr = (s', rs) ->
  Forall (fun '(clk, o) =>
            op_addresses o k -> (lb_now clk < e)%Z ∧ releases c o = false) tr ->
  lb_abs s' k = lb_abs s k ∧
  Forall2 (fun '(_, o) r => op_addresses o k -> denied o r) tr rs.
Proof.
  intros Hinv Hk Habs Hok Hrun Htr. revert s s' rs Hinv Habs Hok Hrun.
  induction Htr as [|[clk o] tr Ho Htr IH]; intros s s' rs Hinv Habs Hok Hrun.
  { simpl in Hrun. injection Hrun as <- <-. by split; [|constructor]. }
  run_step. destruct Hok as (Hn & Hp & Hok).
  pose proof (step_inv s clk o Hinv Hn Hp) as Hinv1.
  pose proof (step_cell s clk o k Hinv Hn Hp Hk) as Hc1.
  pose proof (step_result s clk o k Hinv Hn Hp) as Hr1.
  rewrite Estep in *. simpl in *. rewrite Habs in Hc1, Hr1.
  destruct (decide (op_addresses o k)) as [Ha|Ha].
  - destruct (Ho Ha) as [Hnow Hrel].
    destruct (spec_cell_live c e (lb_now clk) (lb_deadline clk (op_ttl o)) o Hnow Hrel)
      as [Hsame Hden].
    rewrite Hsame in Hc1.
    destruct (IH s1 s2 rs2 Hinv1 Hc1 Hok Erun) as [Hfin Hden2].
    split; [congruence|]. constructor; [|done]. intros _.
    destruct o; try done; rewrite Hr1 by done; by apply Hden.
  - destruct (IH s1 s2 rs2 Hinv1 Hc1 Hok Erun) as [Hfin Hden2].
    split; [congruence|]. by constructor.
Qed.

Lemma fenced_run s k c tr s' rs :
  lb_inv s -> key_ok k -> cell_owner (lb_abs s k) ≠ Some c ->
  run_ok s tr -> run s tr = (s', rs) ->
  Forall (fun '(_, o) =>
            op_addresses o k -> op_acquires o = true -> op_claim_id o ≠ Some c) tr ->
  cell_owner (lb_abs s' k) ≠ Some c ∧
  Forall2 (fun '(_, o) r => op_addresses o k -> owner_only o = true ->
             op_claim_id o = Some c -> r = Ok (RBool false)) tr rs.
Proof.
  intros Hinv Hk Habs Hok Hrun Htr. revert s s' rs Hinv Habs Hok Hrun.
  induction Htr as [|[clk o] tr Ho Htr IH]; intros s s' rs Hinv Habs Hok Hrun.
  { simpl in Hrun. injection Hrun as <- <-. by split; [|constructor]. }
  run_step. destruct Hok as (Hn & Hp & Hok).
  pose proof (step_inv s clk o Hinv Hn Hp) as Hinv1.
  pose proof (step_cell s clk o k Hinv Hn Hp Hk) as Hc1.
  pose proof (step_result s clk o k Hinv Hn Hp) as Hr1.
  rewrite Estep in *. simpl in *.
  destruct (decide (op_addresses o k)) as [Ha|Ha].
  - destruct (spec_cell_not_owner c (lb_now clk) (lb_deadline clk (op_ttl o)) o
                (lb_abs s k) (lb_abs_wf s k Hinv) Habs (Ho Ha)) as [Hown Hres].
    rewrite <- Hc1 in Hown.
    destruct (IH s1 s2 rs2 Hinv1 Hown Hok Erun) as [Hfin Hden2].
    split; [done|]. constructor; [|done]. intros _ Hoo Hcid.
    rewrite Hr1; [by rewrite Hres|done|by destruct o].
  - rewrite <- Hc1 in Habs.
    destruct (IH s1 s2 rs2 Hinv1 Habs Hok Erun) as [Hfin Hden2].
    split; [done|]. by constructor.
Qed.

Lemma run_app s tr1 tr2 :
  run s (tr1 ++ tr2) =
  let '(s1, r1) := run s tr1 in
  let '(s2, r2) := run s1 tr2 in (s2, r1 ++ r2).
Proof.
  revert s. induction tr1 as [|[clk o] tr1 IH]; intros s; simpl.
  { by destruct (run s tr2). }
  destruct (lb_step clk o s) as [s1 r]. rewrite IH.
  destruct (run s1 tr1) as [s2 r2]. by destruct (run s2 tr2).
Qed.

Lemma run_ok_app s tr1 tr2 :
  run_ok s (tr1 ++ tr2) ↔ run_ok s tr1 ∧ run_ok (run s tr1).1 tr2.
Proof.
  revert s. induction tr1 as [|[clk o] tr1 IH]; intros s; simpl; [tauto|].
  rewrite IH. destruct (lb_step clk o s) as [s1 r]. simpl.
  destruct (run s1 tr1). simpl. tauto.
Qed.

Lemma run_inv s tr : lb_inv s -> run_ok s tr -> lb_inv (run s tr).1.
Proof.
  revert s. induction tr as [|[clk o] tr IH]; intros s Hinv Hok; simpl; [done|].
  destruct Hok as (Hn & Hp & Hok).
  pose proof (step_inv s clk o Hinv Hn Hp) as Hinv1.
  destruct (lb_step clk o s) as [s1 r]. simpl in *.
  specialize (IH s1 Hinv1 Hok). by destruct (run s1 tr).
Qed.

(** One operation on the record that it names. *)
Lemma step_at s clk o p :
  lb_inv s -> lb_name_ok (op_name o) -> lb_pre s clk o -> op_provider o = Some p ->
  let k := lb_key p (op_name o) in
  let out := spec_cell (lb_now clk) (lb_deadline clk (op_ttl o)) o (lb_abs s k) in
  lb_abs (lb_step clk o s).1 k = out.1 ∧ (lb_step clk o s).2 = Ok out.2.
Proof.
  intros Hi Hn Hp Hprov k out.
  assert (op_addresses o k) by (unfold op_addresses; by rewrite Hprov).
  split.
  - rewrite step_cell by (try done; by exists p, (op_name o)). by rewrite decide_True.
  - apply step_result; try done. by rewrite Hprov.
Qed.

(** The conditions under which the download of one owner runs undisturbed: at
    every operation on its key its lease is live, and nobody releases it. *)
Definition undisturbed (k : lb_key_type) (c : string) (e : Z)
    (tr : list (lb_clock * op)) : Prop :=
  Forall (fun '(clk, o) => op_addresses o k ->
            (lb_now clk < e)%Z ∧ releases c o = false) tr.

(** An owner whose lease is undisturbed publishes its result. *)
Lemma owner_publishes s p n c e tr clk st m :
  lb_inv s -> lb_name_ok n ->
  lb_abs s (lb_key p n) = Present DOWNLOADING (Some (MkLease c e)) ->
  run_ok s (tr ++ [(clk, OpFinish p n c st m)]) ->
  undisturbed (lb_key p n) c e tr ->
  let '(s', rs) := run s (tr ++ [(clk, OpFinish p n c st m)]) in
  lb_abs s' (lb_key p n) = Present st None ∧
  last rs = Some (Ok (RBool true)).
Proof.
  intros Hinv Hn Habs Hok Htr. apply run_ok_app in Hok as [Hok1 Hok2].
  pose proof (run_inv s tr Hinv Hok1) as Hinv1. rewrite run_app.
  destruct (run s tr) as [s1 r1] eqn:E1. simpl in Hok2, Hinv1.
  destruct Hok2 as (Hn2 & Hp2 & _).
  destruct (live_lease_run s (lb_key p n) c e tr s1 r1) as [Hsame _];
    try done; [by exists p, n|].
  destruct (step_at s1 clk (OpFinish p n c st m) p) as [Hc Hr]; try done.
  simpl in Hc, Hr. rewrite Hsame, Habs in Hc, Hr. unfold spec_finish in Hc, Hr.
  simpl in Hc, Hr. rewrite bool_decide_eq_true_2 in Hc, Hr by done.
  simpl. destruct (lb_step clk (OpFinish p n c st m) s1) as [s2 r2]; simpl in *; subst.
  split; [done|]. by rewrite last_snoc.
Qed.

End protocol.
