(* ===== verification/RegistryMemory.v ===== *)
(** * In-memory registry backend (registry/backend/memory.rs)

    The state behind the mutex of [InMemoryRegistryBackend] and one definition
    per trait operation.  Every operation takes the lock for its whole body, so
    each is one atomic step.  [Utc::now()] is the argument [now], in
    nanoseconds since the Unix epoch; a [Duration] is in nanoseconds.  The file
    ends with the refinement of the lease contract. *)

From Stdlib Require Import ZArith Lia Ascii String.
From stdpp Require Import base tactics option list sorting gmap fin_maps strings.
From S2P Require Import Prelude RustStr Models LeaseSpec.

(** The two chrono conversions behind [lease_deadline]. *)
Class Chrono := {
  TimeDelta_from_std : Z -> option Z;
  checked_add_signed : Z -> Z -> option Z
}.

(** Documented behaviour of chrono: an in-range conversion keeps the length,
    and a checked addition that succeeds is the exact sum. *)
Class ChronoLaws `{Chrono} : Prop := {
  from_std_exact : forall d t, TimeDelta_from_std d = Some t -> t = d;
  checked_add_exact : forall a d t, checked_add_signed a d = Some t -> t = (a + d)%Z
}.

(** The ranges of chrono: a [TimeDelta] holds up to [i64::MAX] milliseconds,
    a [DateTime] ends in the year 262142. *)
Definition chrono_delta_max : Z := i64_max * 1000000.
Definition chrono_date_max : Z := 8210266876799 * 1000000000 + 999999999.

#[export] Instance chrono_ranges : Chrono | 100 := {|
  TimeDelta_from_std d := if (d <=? chrono_delta_max)%Z then Some d else None;
  checked_add_signed a d := if (a + d <=? chrono_date_max)%Z then Some (a + d)%Z else None
|}.

#[export] Instance chrono_ranges_laws : ChronoLaws | 100.
Proof. split; simpl; intros; case_match; by simplify_eq. Qed.

Record DownloadLease : Type := MkDownloadLease {
  dl_claim_id : string;
  dl_expires_at : Z
}.

Record InMemoryState : Type := MkInMemoryState {
  models : gmap string ModelRecord;
  leases : gmap string DownloadLease
}.

#[export] Instance DownloadLease_eq_dec : EqDecision DownloadLease.
Proof. solve_decision. Defined.

#[export] Instance InMemoryState_eq_dec : EqDecision InMemoryState.
Proof. solve_decision. Defined.

Module Memory.

Definition new : InMemoryState := MkInMemoryState ∅ ∅.

Section operations.
Context `{Chrono} `{HashIter}.
Implicit Types s : InMemoryState.

Definition lease_deadline (now duration : Z) : Z :=
  default now (duration ← TimeDelta_from_std duration; checked_add_signed now duration).

Definition get_status (model_name : string) s : option ModelStatus :=
  mr_status <$> models s !! model_name.

Definition get_model_record (model_name : string) s : option ModelRecord :=
  models s !! model_name.

Definition set_status (now : Z) (model_name : string) (provider : ModelProvider)
    (status : ModelStatus) (message : option string) s : InMemoryState :=
  let record :=
    match models s !! model_name with
    | Some r => MkModelRecord (mr_model_name r) provider status (mr_created_at r) now message
    | None => MkModelRecord model_name provider status now now message
    end in
  MkInMemoryState
    (<[model_name := record]> (models s))
    (if bool_decide (status ≠ DOWNLOADING) then delete model_name (leases s) else leases s).

Definition touch_model (now : Z) (model_name : string) s : InMemoryState :=
  match models s !! model_name with
  | Some r =>
      MkInMemoryState
        (<[model_name := MkModelRecord (mr_model_name r) (mr_provider r) (mr_status r)
                           (mr_created_at r) now (mr_message r)]> (models s))
        (leases s)
  | None => s
  end.

Definition delete_model (model_name : string) s : InMemoryState :=
  MkInMemoryState (delete model_name (models s)) (delete model_name (leases s)).

Definition get_models_by_last_used (limit : option Z) s : list ModelRecord :=
  let records := sort_by_key mr_last_used_at (hash_values (models s)) in
  match limit with
  | Some limit => take (Z.to_nat limit) records
  | None => records
  end.

(** One iteration of the counting loop. *)
Definition count_status (acc : Z * Z * Z) (r : ModelRecord) : Z * Z * Z :=
  let '(downloading, downloaded, error) := acc in
  match mr_status r with
  | DOWNLOADING => (saturating_add_u32 downloading 1, downloaded, error)
  | DOWNLOADED => (downloading, saturating_add_u32 downloaded 1, error)
  | ERROR => (downloading, downloaded, saturating_add_u32 error 1)
  end.

Definition get_status_counts s : Z * Z * Z :=
  foldl count_status (0, 0, 0)%Z (hash_values (models s)).

Definition try_claim_for_download (now : Z) (model_name : string) (provider : ModelProvider)
    (claim_id : string) (lease_duration : Z) s : InMemoryState * ClaimOutcome :=
  let lease_expires_at := lease_deadline now lease_duration in
  let expired :=
    match leases s !! model_name with
    | None => true
    | Some lease => (dl_expires_at lease <=? now)%Z
    end in
  match models s !! model_name with
  | Some existing =>
      if bool_decide (mr_status existing = DOWNLOADING) && expired
      then
        (MkInMemoryState
           (<[model_name := MkModelRecord (mr_model_name existing) provider
                (mr_status existing) (mr_created_at existing) now
                (Some "Taking over expired download lease...")]> (models s))
           (<[model_name := MkDownloadLease claim_id lease_expires_at]> (leases s)),
         TookOver)
      else (s, AlreadyExists (mr_status existing))
  | None =>
      (MkInMemoryState
         (<[model_name := MkModelRecord model_name provider DOWNLOADING now now None]>
            (models s))
         (<[model_name := MkDownloadLease claim_id lease_expires_at]> (leases s)),
       Claimed)
  end.

Definition try_reset_error_for_retry (now : Z) (model_name : string)
    (provider : ModelProvider) (claim_id : string) (lease_duration : Z) s
    : InMemoryState * bool :=
  let lease_expires_at := lease_deadline now lease_duration in
  match models s !! model_name with
  | Some record =>
      if bool_decide (mr_status record = ERROR)
      then
        (MkInMemoryState
           (<[model_name := MkModelRecord (mr_model_name record) provider DOWNLOADING
                (mr_created_at record) now (Some "Retrying download...")]> (models s))
           (<[model_name := MkDownloadLease claim_id lease_expires_at]> (leases s)),
         true)
      else (s, false)
  | None => (s, false)
  end.

(** [leases.get(name).is_some_and(|lease| lease.claim_id == claim_id)]. *)
Definition owns_claim (model_name claim_id : string) s : bool :=
  match leases s !! model_name with
  | Some lease => bool_decide (dl_claim_id lease = claim_id)
  | None => false
  end.

(** [models.get(name).is_none_or(|record| record.status != DOWNLOADING)]. *)
Definition not_downloading (model_name : string) s : bool :=
  match models s !! model_name with
  | Some record => bool_decide (mr_status record ≠ DOWNLOADING)
  | None => true
  end.

Definition refresh_download_claim (now : Z) (model_name : string)
    (provider : ModelProvider) (claim_id : string) (lease_duration : Z) s
    : InMemoryState * bool :=
  let lease_expires_at := lease_deadline now lease_duration in
  if negb (owns_claim model_name claim_id s) || not_downloading model_name s
  then (s, false)
  else
    match models s !! model_name, leases s !! model_name with
    | Some record, Some lease =>
        (MkInMemoryState
           (<[model_name := MkModelRecord (mr_model_name record) provider
                (mr_status record) (mr_created_at record) now (mr_message record)]> (models s))
           (<[model_name := MkDownloadLease (dl_claim_id lease) lease_expires_at]> (leases s)),
         true)
    | _, _ => (s, false)
    end.

Definition finish_download_claim (now : Z) (model_name : string)
    (provider : ModelProvider) (claim_id : string) (status : ModelStatus)
    (message : option string) s : InMemoryState * bool :=
  if negb (owns_claim model_name claim_id s) || not_downloading model_name s
  then (s, false)
  else
    match models s !! model_name with
    | None => (s, false)
    | Some record =>
        (MkInMemoryState
           (<[model_name := MkModelRecord (mr_model_name record) provider status
                (mr_created_at record) now message]> (models s))
           (delete model_name (leases s)),
         true)
    end.

End operations.

(** ** Invariant *)

(** A lease belongs to a record in state [DOWNLOADING], and every record sits
    under its own name. *)
Definition inv (s : InMemoryState) : Prop :=
  (forall n l, leases s !! n = Some l ->
     ∃ r, models s !! n = Some r ∧ mr_status r = DOWNLOADING) ∧
  (forall n r, models s !! n = Some r -> mr_model_name r = n).

Lemma inv_new : inv new.
Proof. by split; intros ? ?; simpl; rewrite lookup_empty. Qed.

(** ** The lease contract *)

Definition abs_lease (l : DownloadLease) : lease :=
  MkLease (dl_claim_id l) (dl_expires_at l).

Definition abs (s : InMemoryState) (n : string) : cell :=
  match models s !! n with
  | None => Absent
  | Some r => Present (mr_status r) (abs_lease <$> leases s !! n)
  end.

Definition step `{Chrono} (now : Z) (o : op) (s : InMemoryState)
    : InMemoryState * result op_result Empty_set :=
  match o with
  | OpClaim p n c d =>
      let '(s', r) := try_claim_for_download now n p c d s in (s', Ok (RClaim r))
  | OpRetry p n c d =>
      let '(s', r) := try_reset_error_for_retry now n p c d s in (s', Ok (RBool r))
  | OpRefresh p n c d =>
      let '(s', r) := refresh_download_claim now n p c d s in (s', Ok (RBool r))
  | OpFinish p n c st m =>
      let '(s', r) := finish_download_claim now n p c st m s in (s', Ok (RBool r))
  | OpSetStatus p n st m => (set_status now n p st m s, Ok RUnit)
  | OpTouch n => (touch_model now n s, Ok RUnit)
  | OpDelete n => (delete_model n s, Ok RUnit)
  end.

#[export] Instance lease_backend `{Chrono} : LeaseBackend InMemoryState := {|
  lb_clock := Z;
  lb_error := Empty_set;
  lb_key_type := string;
  lb_now now := now;
  lb_deadline now d := lease_deadline now d;
  lb_key _ n := n;
  lb_step := step;
  lb_abs := abs;
  lb_inv := inv;
  lb_name_ok _ := True;
  lb_pre _ _ _ := True
|}.

(** The shape of every update: one record is replaced and its lease set or
    removed, which keeps the invariant when a lease goes with [DOWNLOADING]. *)
Lemma inv_update s n r (ol : option DownloadLease) :
  inv s -> mr_model_name r = n ->
  (is_Some ol -> mr_status r = DOWNLOADING) ->
  inv (MkInMemoryState (<[n := r]> (models s)) (partial_alter (const ol) n (leases s))).
Proof.
  intros [Hl Hm] Hn Hr. split; simpl.
  - intros n' l. destruct (decide (n' = n)) as [->|].
    + rewrite lookup_partial_alter_eq. simpl. intros ->.
      exists r. rewrite lookup_insert_eq. eauto.
    + rewrite lookup_partial_alter_ne, lookup_insert_ne by done. apply Hl.
  - intros n' r'. destruct (decide (n' = n)) as [->|].
    + rewrite lookup_insert_eq. congruence.
    + rewrite lookup_insert_ne by done. apply Hm.
Qed.

Lemma abs_update s n r (ol : option DownloadLease) k :
  abs (MkInMemoryState (<[n := r]> (models s)) (partial_alter (const ol) n (leases s))) k =
  if decide (k = n) then Present (mr_status r) (abs_lease <$> ol) else abs s k.
Proof.
  unfold abs. simpl. case_decide; [subst k|].
  - by rewrite lookup_insert_eq, lookup_partial_alter_eq.
  - by rewrite lookup_insert_ne, lookup_partial_alter_ne by done.
Qed.

Lemma lease_keep s n : leases s = partial_alter (const (leases s !! n)) n (leases s).
Proof. symmetry. by apply partial_alter_id. Qed.

(** What an operation does to the state: nothing, replace one record with its
    lease, or remove one record with its lease. *)
Inductive change (s : InMemoryState) (n : string) : InMemoryState -> cell -> Prop :=
| change_none : change s n s (abs s n)
| change_put r ol :
    mr_model_name r = n -> (is_Some ol -> mr_status r = DOWNLOADING) ->
    change s n
      (MkInMemoryState (<[n := r]> (models s)) (partial_alter (const ol) n (leases s)))
      (Present (mr_status r) (abs_lease <$> ol))
| change_del : change s n (delete_model n s) Absent.

Lemma change_spec s n s' c :
  change s n s' c -> inv s ->
  inv s' ∧ abs s' n = c ∧ forall k, k ≠ n -> abs s' k = abs s k.
Proof.
  intros [|r ol Hr Hol|] Hinv.
  - done.
  - split_and!; [by apply inv_update|by rewrite abs_update, decide_True|].
    intros. by rewrite abs_update, decide_False.
  - destruct Hinv as [Hl Hm]. unfold delete_model, abs. split_and!; simpl.
    + split; simpl; intros n' x [Hne Hx]%lookup_delete_Some; [|by apply Hm].
      rewrite lookup_delete_ne by done. by eapply Hl.
    + by rewrite lookup_delete_eq.
    + intros. by rewrite !lookup_delete_ne.
Qed.

Lemma change_none_eq s n c : c = abs s n -> change s n s c.
Proof. intros ->. constructor. Qed.

Lemma change_put_eq s n r ml ol c :
  inv s -> (models s !! n = None \/ ∃ r', models s !! n = Some r' /\ mr_model_name r = mr_model_name r') ->
  (models s !! n = None -> mr_model_name r = n) ->
  ml = partial_alter (const ol) n (leases s) ->
  (is_Some ol -> mr_status r = DOWNLOADING) ->
  c = Present (mr_status r) (abs_lease <$> ol) ->
  change s n (MkInMemoryState (<[n := r]> (models s)) ml) c.
Proof.
  intros [_ Hm] [Hn|(r' & Hr' & Heq)] Hnone -> Hol ->; constructor; auto.
  rewrite Heq. eauto.
Qed.

(** Close a goal [change ...] for an update of a known record. *)
Ltac put l :=
  apply change_put_eq with (ol := l); simpl;
  [done|naive_solver|naive_solver|try done|naive_solver|try done].

Section refinement.
Context `{Chrono}.
Implicit Types s : InMemoryState.

Lemma claim_change now n p c d s :
  inv s ->
  let '(s', r) := try_claim_for_download now n p c d s in
  let out := spec_claim now (lease_deadline now d) c (abs s n) in
  change s n s' out.1 ∧ r = out.2.
Proof.
  intros Hinv. unfold try_claim_for_download, abs.
  destruct (models s !! n) as [r|] eqn:Hr; simpl.
  - destruct (leases s !! n) as [l|] eqn:Hle; simpl;
      destruct (mr_status r) eqn:Hst; simpl;
      try destruct (_ <=? _)%Z; simpl; (split; [|done]);
      try (apply change_none_eq; unfold abs; by rewrite Hr, Hst, Hle);
      put (Some (MkDownloadLease c (lease_deadline now d))).
  - split; [|done]. put (Some (MkDownloadLease c (lease_deadline now d))).
Qed.

Lemma retry_change now n p c d s :
  inv s ->
  let '(s', r) := try_reset_error_for_retry now n p c d s in
  let out := spec_retry (lease_deadline now d) c (abs s n) in
  change s n s' out.1 ∧ r = out.2.
Proof.
  intros Hinv. unfold try_reset_error_for_retry, abs.
  destruct (models s !! n) as [r|] eqn:Hr; simpl.
  - destruct (mr_status r) eqn:Hst; simpl; (split; [|done]);
      try (apply change_none_eq; unfold abs; by rewrite Hr, Hst).
    put (Some (MkDownloadLease c (lease_deadline now d))).
  - split; [|done]. apply change_none_eq. unfold abs. by rewrite Hr.
Qed.

(** The guard shared by [refresh_download_claim] and [finish_download_claim]
    is ownership in the sense of the contract. *)
Lemma owner_guard n c s :
  negb (owns_claim n c s) || not_downloading n s =
  negb (bool_decide (cell_owner (abs s n) = Some c)).
Proof.
  unfold owns_claim, not_downloading, abs.
  destruct (models s !! n) as [r|], (leases s !! n) as [l|]; simpl; try done.
  - destruct (mr_status r); simpl; rewrite ?orb_true_r, ?orb_false_r; try done.
    f_equal. apply bool_decide_ext. naive_solver.
  - by destruct (mr_status r).
  - by rewrite orb_true_r.
Qed.

Lemma owner_inv n c s :
  cell_owner (abs s n) = Some c ->
  ∃ r l, models s !! n = Some r ∧ leases s !! n = Some l ∧
         mr_status r = DOWNLOADING ∧ dl_claim_id l = c.
Proof.
  unfold abs. destruct (models s !! n) as [r|], (leases s !! n) as [l|]; simpl;
    try destruct (mr_status r) eqn:Hst; naive_solver.
Qed.

Lemma refresh_change now n p c d s :
  inv s ->
  let '(s', r) := refresh_download_claim now n p c d s in
  let out := spec_refresh (lease_deadline now d) c (abs s n) in
  change s n s' out.1 ∧ r = out.2.
Proof.
  intros Hinv. unfold refresh_download_claim, spec_refresh. rewrite owner_guard.
  destruct (bool_decide _) eqn:Hb; simpl; [|split; [constructor|done]].
  mx_bool. destruct (owner_inv _ _ _ Hb) as (r & l & Hr & Hle & Hst & Hc).
  rewrite Hr, Hle. split; [|done].
  put (Some (MkDownloadLease (dl_claim_id l) (lease_deadline now d))).
  by rewrite Hst, Hc.
Qed.

Lemma finish_change now n p c st m s :
  inv s ->
  let '(s', r) := finish_download_claim now n p c st m s in
  let out := spec_finish c st (abs s n) in
  change s n s' out.1 ∧ r = out.2.
Proof.
  intros Hinv. unfold finish_download_claim, spec_finish. rewrite owner_guard.
  destruct (bool_decide _) eqn:Hb; simpl; [|split; [constructor|done]].
  mx_bool. destruct (owner_inv _ _ _ Hb) as (r & l & Hr & Hle & Hst & Hc).
  rewrite Hr. split; [|done]. put (None : option DownloadLease).
Qed.

Lemma set_status_change now n p st m s :
  inv s -> change s n (set_status now n p st m s) (spec_set_status st (abs s n)).
Proof.
  intros Hinv. unfold set_status, abs.
  destruct (decide (st = DOWNLOADING)) as [->|Hst].
  - rewrite bool_decide_eq_false_2 by tauto.
    destruct (models s !! n) as [r|] eqn:Hr.
    + put (leases s !! n). apply lease_keep.
    + assert (leases s !! n = None).
      { destruct (leases s !! n) eqn:Hle; [|done].
        apply Hinv in Hle as (? & ? & _). congruence. }
      put (None : option DownloadLease). rewrite (lease_keep s n) at 1. by rewrite H0.
  - rewrite bool_decide_eq_true_2 by done.
    destruct (models s !! n) as [r|] eqn:Hr; put (None : option DownloadLease);
      by destruct st.
Qed.

Lemma touch_change now n s : inv s -> change s n (touch_model now n s) (abs s n).
Proof.
  intros Hinv. unfold touch_model. destruct (models s !! n) as [r|] eqn:Hr; [|constructor].
  apply change_put_eq with (ol := leases s !! n); simpl; try done; try naive_solver.
  - apply lease_keep.
  - intros [l Hle]. apply Hinv in Hle as (? & ? & ?). congruence.
  - unfold abs. by rewrite Hr.
Qed.

Lemma step_change now o s :
  inv s ->
  let out := spec_cell now (lease_deadline now (op_ttl o)) o (abs s (op_name o)) in
  change s (op_name o) (step now o s).1 out.1 ∧
  (step now o s).2 = Ok out.2.
Proof.
  intros Hinv.
  destruct o as [p n c d|p n c d|p n c d|p n c st m|p n st m|n|n]; simpl.
  - pose proof (claim_change now n p c d s Hinv) as Hch.
    destruct (try_claim_for_download _ _ _ _ _ _), (spec_claim _ _ _ _); simpl in *.
    by destruct Hch as [? ->].
  - pose proof (retry_change now n p c d s Hinv) as Hch.
    destruct (try_reset_error_for_retry _ _ _ _ _ _), (spec_retry _ _ _); simpl in *.
    by destruct Hch as [? ->].
  - pose proof (refresh_change now n p c d s Hinv) as Hch.
    destruct (refresh_download_claim _ _ _ _ _ _), (spec_refresh _ _ _); simpl in *.
    by destruct Hch as [? ->].
  - pose proof (finish_change now n p c st m s Hinv) as Hch.
    destruct (finish_download_claim _ _ _ _ _ _ _), (spec_finish _ _ _); simpl in *.
    by destruct Hch as [? ->].
  - split; [by apply set_status_change|done].
  - split; [by apply touch_change|done].
  - split; [constructor|done].
Qed.

Lemma abs_wf s n : inv s -> cell_wf (abs s n).
Proof.
  intros [Hl _]. unfold abs. destruct (models s !! n) as [r|] eqn:Hr; [|done]. simpl.
  destruct (leases s !! n) as [l|] eqn:Hle; simpl; [|done].
  apply Hl in Hle as (r' & Hr' & ?). congruence.
Qed.

#[export] Instance lease_backend_spec : LeaseBackendSpec InMemoryState.
Proof.
  split.
  - apply abs_wf.
  - intros s s' now o r Hinv _ _ Hstep. simpl in *.
    pose proof (step_change now o s Hinv) as [Hch Hres]. rewrite Hstep in Hch, Hres.
    destruct (change_spec _ _ _ _ Hch Hinv) as (Hinv' & Hk & Hother). simpl in *.
    assert (forall k, op_addresses o k <-> k = op_name o) as Haddr.
    { intros k. unfold op_addresses. simpl. destruct (op_provider o); [reflexivity|].
      split; [by intros [_ ->]|]. intros ->. by exists HuggingFace. }
    split_and!; [done| | | |].
    + intros k ->%Haddr. done.
    + intros p Hp. by rewrite Hres.
    + intros Hp. rewrite Hres. by destruct o.
    + intros k _ Hk'. apply Hother. by rewrite <- Haddr.
Qed.
End refinement.

(** ** Listings and counters *)

Section listings.
Context `{HashIterLaws}.
Implicit Types s : InMemoryState.

(** The number of records of [s] in one status. *)
Definition status_total (st : ModelStatus) s : nat :=
  length (filter (fun e => mr_status e.2 = st) (map_to_list (models s))).

Lemma count_status_fold rs a b c :
  (0 <= a <= u32_max)%Z -> (0 <= b <= u32_max)%Z -> (0 <= c <= u32_max)%Z ->
  foldl count_status (a, b, c) rs =
  (Z.min u32_max (a + Z.of_nat (length (filter (fun r => mr_status r = DOWNLOADING) rs))),
   Z.min u32_max (b + Z.of_nat (length (filter (fun r => mr_status r = DOWNLOADED) rs))),
   Z.min u32_max (c + Z.of_nat (length (filter (fun r => mr_status r = ERROR) rs))))%Z.
Proof.
  revert a b c. induction rs as [|r rs IH]; intros a b c Ha Hb Hc; simpl.
  { rewrite !Z.add_0_r. repeat apply (f_equal2 pair); lia. }
  rewrite !filter_cons. unfold u32_max in *.
  destruct (mr_status r); simpl; unfold saturating_add_u32, u32_max;
    rewrite IH by lia; repeat apply (f_equal2 pair); lia.
Qed.

Lemma status_total_values st s :
  length (filter (fun r => mr_status r = st) (hash_values (models s))) = status_total st s.
Proof.
  unfold status_total, hash_values. rewrite <- hash_entries_perm.
  induction (hash_entries (models s)) as [|[k r] l IH]; simpl; [done|].
  rewrite !filter_cons. simpl. case_decide; simpl; auto.
Qed.

(** [get_status_counts] of the in-memory registry counts the records of
    each status, whatever order the hash map yields them in, and saturates at
    [u32::MAX] instead of wrapping. *)
Lemma memory_status_counts s :
  get_status_counts s =
  (Z.min u32_max (Z.of_nat (status_total DOWNLOADING s)),
   Z.min u32_max (Z.of_nat (status_total DOWNLOADED s)),
   Z.min u32_max (Z.of_nat (status_total ERROR s))).
Proof.
  unfold get_status_counts. rewrite count_status_fold by (unfold u32_max; lia).
  by rewrite !status_total_values.
Qed.

Lemma listing_perm s : get_models_by_last_used None s ≡ₚ (map_to_list (models s)).*2.
Proof.
  simpl. rewrite sort_by_key_perm. unfold hash_values. by rewrite hash_entries_perm.
Qed.

(** [get_models_by_last_used] of the in-memory registry returns the
    least recently used records first: with a limit it returns exactly
    [min limit n] records, in order of last use, none of them used later than a
    record left out, and the returned and omitted records together are the
    registry's records, each once. *)
Lemma memory_lru_listing (limit : Z) s :
  ∃ rest,
    get_models_by_last_used (Some limit) s ++ rest ≡ₚ (map_to_list (models s)).*2 ∧
    StronglySorted (fun a b => (mr_last_used_at a <= mr_last_used_at b)%Z)
      (get_models_by_last_used (Some limit) s) ∧
    length (get_models_by_last_used (Some limit) s)
      = Nat.min (Z.to_nat limit) (size (models s)) ∧
    (forall r r', r ∈ get_models_by_last_used (Some limit) s -> r' ∈ rest ->
       (mr_last_used_at r <= mr_last_used_at r')%Z).
Proof.
  exists (drop (Z.to_nat limit) (get_models_by_last_used None s)).
  assert (StronglySorted (fun a b => (mr_last_used_at a <= mr_last_used_at b)%Z)
    (sort_by_key mr_last_used_at (hash_values (models s)))) as Hs by auto with mx.
  split_and!.
  - simpl. rewrite take_drop. apply listing_perm.
  - simpl. rewrite <- (take_drop (Z.to_nat limit)) in Hs.
    by apply StronglySorted_app_1_l in Hs.
  - simpl. rewrite length_take, sort_by_key_perm, length_hash_values. done.
  - simpl. intros r r' Hr Hr'. by eapply (StronglySorted_take_drop _ _ _ _ _ Hs).
Qed.
End listings.

(** ** Witnesses: three records, listed in the order of [map_to_list] *)

Definition three_records : InMemoryState :=
  set_status 5 "c" Gcs ERROR (Some "no space")
    (set_status 20 "b" HuggingFace DOWNLOADED None
      (set_status 10 "a" HuggingFace DOWNLOADED None new)).

Lemma memory_status_counts_witness : get_status_counts three_records = (0, 2, 1)%Z.
Proof. rewrite memory_status_counts. vm_compute. reflexivity. Defined.

Lemma memory_lru_listing_witness :
  length (get_models_by_last_used (Some 2%Z) three_records) = 2.
Proof.
  destruct (memory_lru_listing 2 three_records) as (rest & _ & _ & Hlen & _).
  rewrite Hlen. vm_compute. reflexivity.
Defined.
End Memory.
