(* ===== verification/RedisStore.v ===== *)
(** * The Redis commands that the backends use, as an interface

    The server is not part of the program: [RedisStore] names the hash commands
    that the Lua scripts and the pipelines issue, and [RedisStoreLaws] states
    their documented effect.  Every script runs atomically, so a script is a
    function on the store.  [hash_store] is a concrete store of hashes, which
    shows that the laws can hold and makes the scripts executable. *)

From Stdlib Require Import ZArith Lia Ascii String.
From stdpp Require Import base tactics countable option list gmap fin_maps strings pretty.
From S2P Require Import Prelude RustStr.

Class RedisStore (DB : Type) := {
  hget : string -> string -> DB -> option string;
  hset : string -> string -> string -> DB -> DB;
  hdel : string -> string -> DB -> DB;
  redis_del : string -> DB -> DB;
  redis_rename : string -> string -> DB -> DB;
  hgetall : string -> DB -> list (string * string)
}.

Class RedisStoreLaws (DB : Type) `{RedisStore DB} : Prop := {
  hget_hset : forall k f v k' f' (db : DB),
    hget k' f' (hset k f v db) =
    if decide (k' = k ∧ f' = f) then Some v else hget k' f' db;
  hget_hdel : forall k f k' f' (db : DB),
    hget k' f' (hdel k f db) =
    if decide (k' = k ∧ f' = f) then None else hget k' f' db;
  hget_del : forall k k' f (db : DB),
    hget k' f (redis_del k db) = if decide (k' = k) then None else hget k' f db;
  (** [RENAME] of an existing key replaces the target. *)
  hget_rename : forall k1 k2 k f (db : DB),
    k1 ≠ k2 -> hgetall k1 db ≠ [] ->
    hget k f (redis_rename k1 k2 db) =
    if decide (k = k2) then hget k1 f db
    else if decide (k = k1) then None else hget k f db;
  elem_of_hgetall : forall k f v (db : DB), (f, v) ∈ hgetall k db ↔ hget k f db = Some v;
  hgetall_NoDup : forall k (db : DB), NoDup (hgetall k db).*1
}.

(** ** Derived commands *)

Section commands.
Context {DB : Type} `{RedisStore DB}.
Implicit Types db : DB.

(** [HSET key f1 v1 f2 v2 ...]. *)
Definition hset_all (k : string) (fvs : list (string * string)) db : DB :=
  foldl (fun db '(f, v) => hset k f v db) db fvs.

(** [HDEL key f1 f2 ...]. *)
Definition hdel_all (k : string) (fs : list string) db : DB :=
  foldl (fun db f => hdel k f db) db fs.

(** [HSETNX key f v]. *)
Definition hsetnx (k f v : string) db : DB :=
  match hget k f db with Some _ => db | None => hset k f v db end.

(** [EXISTS key]: an empty hash does not exist. *)
Definition redis_exists (k : string) db : bool := negb (bool_decide (hgetall k db = [])).

(** [DEL k1 k2 ...]. *)
Definition del_all (ks : list string) db : DB := foldl (fun db k => redis_del k db) db ks.

Context `{!RedisStoreLaws DB}.

Lemma hget_exists k f v db : hget k f db = Some v -> hgetall k db ≠ [].
Proof. intros Hget%elem_of_hgetall Hnil. rewrite Hnil in Hget. set_solver. Qed.

Lemma hgetall_nil k db : hgetall k db = [] ↔ forall f, hget k f db = None.
Proof.
  split.
  - intros Hnil f. destruct (hget k f db) eqn:E; [|done]. by apply hget_exists in E.
  - intros Hn. destruct (hgetall k db) as [|[f v] l] eqn:E; [done|].
    assert ((f, v) ∈ hgetall k db) as Hin by (rewrite E; set_solver).
    apply elem_of_hgetall in Hin. by rewrite Hn in Hin.
Qed.

(** Collecting the pairs of a hash into a map gives its fields. *)
Lemma collect_lookup k f db :
  foldl (fun (m : gmap string string) '(k, v) => <[k := v]> m) ∅ (hgetall k db) !! f =
  hget k f db.
Proof.
  assert (forall (l : list (string * string)) (m : gmap string string),
    NoDup l.*1 -> (forall x, x ∈ l.*1 -> m !! x = None) ->
    forall v, foldl (fun (m : gmap string string) '(k, v) => <[k := v]> m) m l !! f = Some v ↔
              (f, v) ∈ l ∨ m !! f = Some v) as Hgen.
  { induction l as [|[x y] l IH]; intros m Hnd Hm v; simpl; [set_solver|].
    apply NoDup_cons in Hnd as [Hx Hnd]. rewrite IH; [|done|].
    - rewrite elem_of_cons. destruct (decide (f = x)) as [->|Hne].
      + rewrite lookup_insert_eq, (Hm x) by set_solver. split; [naive_solver|].
        intros [[[= ->]|Hin]|?]; [by right|by left|done].
      + rewrite lookup_insert_ne by done. naive_solver.
    - intros z Hz. rewrite lookup_insert_ne by (intros ->; done). apply Hm. set_solver. }
  apply option_eq. intros v. rewrite Hgen; [|apply hgetall_NoDup|].
  - rewrite lookup_empty, elem_of_hgetall. naive_solver.
  - intros. apply lookup_empty.
Qed.

Lemma hget_del_all ks k f db :
  hget k f (del_all ks db) = if decide (k ∈ ks) then None else hget k f db.
Proof.
  unfold del_all. revert db. induction ks as [|k' ks IH]; intros db; cbn [foldl].
  { case_decide; set_solver. }
  rewrite IH, hget_del. repeat case_decide; set_solver.
Qed.

(** A multi-field [HSET] touches only its key. *)
Lemma hget_hset_all_ne k fvs k' f db :
  k' ≠ k -> hget k' f (hset_all k fvs db) = hget k' f db.
Proof.
  intros Hne. unfold hset_all. revert db.
  induction fvs as [|[f1 v1] fvs IH]; intros db; simpl; [done|].
  rewrite IH, hget_hset, decide_False by naive_solver. done.
Qed.

(** The value that a multi-field [HSET] gives to one field. *)
Definition assoc_last (f : string) (fvs : list (string * string)) : option string :=
  foldl (fun acc '(f', v) => if String.eqb f f' then Some v else acc) None fvs.

Lemma assoc_last_acc f fvs acc :
  foldl (fun acc '(f', v) => if String.eqb f f' then Some v else acc) acc fvs =
  match assoc_last f fvs with Some v => Some v | None => acc end.
Proof.
  unfold assoc_last. revert acc. induction fvs as [|[f1 v1] fvs IH]; intros acc; simpl; [done|].
  rewrite IH. symmetry. rewrite IH. by repeat case_match.
Qed.

Lemma hget_hset_all k fvs f db :
  hget k f (hset_all k fvs db) =
  match assoc_last f fvs with Some v => Some v | None => hget k f db end.
Proof.
  unfold hset_all. revert db.
  induction fvs as [|[f1 v1] fvs IH]; intros db; cbn [foldl]; [done|].
  rewrite IH, hget_hset. unfold assoc_last at 2. cbn [foldl]. rewrite assoc_last_acc.
  destruct (String.eqb_spec f f1) as [->|Hne].
  - rewrite decide_True by done. by case_match.
  - rewrite decide_False by naive_solver. by case_match.
Qed.

Lemma hget_hdel_all k fs k' f db :
  hget k' f (hdel_all k fs db) =
  if decide (k' = k ∧ f ∈ fs) then None else hget k' f db.
Proof.
  unfold hdel_all. revert db. induction fs as [|f1 fs IH]; intros db; cbn [foldl].
  { case_decide; set_solver. }
  rewrite IH, hget_hdel. repeat case_decide; set_solver.
Qed.

Lemma hget_hsetnx k f v db : hget k f (hsetnx k f v db) = Some (default v (hget k f db)).
Proof.
  unfold hsetnx. destruct (hget k f db) eqn:E; [done|]. by rewrite hget_hset, decide_True.
Qed.

Lemma hget_hsetnx_ne k f v k' f' db :
  ~ (k' = k ∧ f' = f) -> hget k' f' (hsetnx k f v db) = hget k' f' db.
Proof.
  intros Hne. unfold hsetnx. case_match; [done|]. by rewrite hget_hset, decide_False.
Qed.
End commands.

(** ** Numbers *)

(** Decimal digits, as [Display] of an unsigned integer prints them. *)
Definition decimal (z : Z) : string := pretty (Z.to_N z).

(** Lua's [tonumber] on a string, and the text that Redis makes of a number
    that a script passes to a command. The scripts compute with integers. *)
Class LuaNumbers := {
  lua_tonumber : string -> option Z;
  lua_arg : Z -> string
}.

(** The largest integer below which every integer is a double. *)
Definition lua_int_max : Z := 2 ^ 53.

Class LuaNumbersLaws `{LuaNumbers} : Prop := {
  tonumber_decimal : forall z, (0 <= z <= lua_int_max)%Z ->
    lua_tonumber (decimal z) = Some z;
  lua_arg_decimal : forall z, (0 <= z <= lua_int_max)%Z -> lua_arg z = decimal z
}.

(** ** Timestamps *)

(** chrono's RFC 3339 printer and parser, on nanoseconds since the epoch. *)
Class Rfc3339 := {
  to_rfc3339 : Z -> string;
  parse_from_rfc3339 : string -> option Z
}.

(** RFC 3339 has years of four digits: times up to the end of the year 9999. *)
Definition rfc3339_max : Z := 253402300799 * 1000000000 + 999999999.

Class Rfc3339Laws `{Rfc3339} : Prop := {
  parse_to_rfc3339 : forall t,
    (0 <= t <= rfc3339_max)%Z -> parse_from_rfc3339 (to_rfc3339 t) = Some t
}.

(** ** A concrete store *)

Abbreviation hash_store := (gmap string (gmap string string)).

Definition hash_at (k : string) (db : hash_store) : gmap string string :=
  default ∅ (db !! k).

#[export] Instance hash_store_redis : RedisStore hash_store | 100 := {|
  hget k f db := hash_at k db !! f;
  hset k f v db := <[k := <[f := v]> (hash_at k db)]> db;
  hdel k f db := <[k := delete f (hash_at k db)]> db;
  redis_del k db := delete k db;
  redis_rename k1 k2 db := <[k2 := hash_at k1 db]> (delete k1 db);
  hgetall k db := map_to_list (hash_at k db)
|}.

Lemma hash_at_insert k h k' (db : hash_store) :
  hash_at k' (<[k := h]> db) = if decide (k' = k) then h else hash_at k' db.
Proof.
  unfold hash_at. case_decide; [subst|].
  - by rewrite lookup_insert_eq.
  - by rewrite lookup_insert_ne.
Qed.

Lemma hash_at_delete k k' (db : hash_store) :
  hash_at k' (delete k db) = if decide (k' = k) then ∅ else hash_at k' db.
Proof.
  unfold hash_at. case_decide; [subst|].
  - by rewrite lookup_delete_eq.
  - by rewrite lookup_delete_ne.
Qed.

#[export] Instance hash_store_laws : RedisStoreLaws hash_store | 100.
Proof.
  split; simpl.
  - intros. rewrite hash_at_insert. destruct (decide (k' = k)) as [->|].
    + rewrite lookup_insert. repeat case_decide; naive_solver.
    + by rewrite decide_False by naive_solver.
  - intros. rewrite hash_at_insert. destruct (decide (k' = k)) as [->|].
    + rewrite lookup_delete. repeat case_decide; naive_solver.
    + by rewrite decide_False by naive_solver.
  - intros. rewrite hash_at_delete. by case_decide.
  - intros k1 k2 k f db Hne Hex. rewrite hash_at_insert, hash_at_delete.
    by repeat case_decide.
  - intros. by rewrite elem_of_map_to_list.
  - intros. apply NoDup_fst_map_to_list.
Qed.

(** A concrete [tonumber]: decimal digits only. *)
Fixpoint parse_digits (acc : Z) (s : string) : option Z :=
  match s with
  | EmptyString => Some acc
  | String c s' =>
      if is_ascii_digit c
      then parse_digits (acc * 10 + (Z.of_N (N_of_ascii c) - 48)) s'
      else None
  end.

(** [str::parse] of an unsigned integer type with the given maximum. *)
Definition parse_unsigned (max : Z) (s : string) : option Z :=
  let digits := default s (strip_prefix "+" s) in
  if str_is_empty digits then None
  else z ← parse_digits 0 digits; if (z <=? max)%Z then Some z else None.

(** [str::parse::<i32>]. *)
Definition parse_i32 (s : string) : option Z :=
  match strip_prefix "-" s with
  | Some digits =>
      if str_is_empty digits then None
      else z ← parse_digits 0 digits; if (z <=? 2 ^ 31)%Z then Some (- z)%Z else None
  | None => parse_unsigned (2 ^ 31 - 1) s
  end.

(** [Display] and [FromStr] of a signed integer type. *)
Definition signed_decimal (z : Z) : string :=
  if (z <? 0)%Z then "-" +:+ decimal (- z) else decimal z.

Definition parse_signed (bits : Z) (s : string) : option Z :=
  match strip_prefix "-" s with
  | Some digits =>
      if str_is_empty digits then None
      else z ← parse_digits 0 digits; if (z <=? 2 ^ (bits - 1))%Z then Some (- z)%Z else None
  | None => parse_unsigned (2 ^ (bits - 1) - 1) s
  end.

#[export] Instance digits_tonumber : LuaNumbers | 100 :=
  {| lua_tonumber s := if str_is_empty s then None else parse_digits 0 s;
     lua_arg := decimal |}.

Lemma pretty_N_char_digit x :
  (x < 10)%N ->
  is_ascii_digit (pretty_N_char x) = true ∧ N_of_ascii (pretty_N_char x) = (48 + x)%N.
Proof.
  intros Hx.
  assert (x = 0 ∨ x = 1 ∨ x = 2 ∨ x = 3 ∨ x = 4 ∨ x = 5 ∨ x = 6 ∨ x = 7 ∨ x = 8 ∨ x = 9)%N
    as Hcases by lia.
  repeat destruct Hcases as [->|Hcases]; try (by vm_compute). by subst.
Qed.

Lemma parse_digits_pretty x : forall s,
  parse_digits 0 (pretty_N_go x s) = parse_digits (Z.of_N x) s.
Proof.
  induction (N.lt_wf_0 x) as [x _ IH]; intros s.
  destruct (decide (x = 0)%N) as [->|Hx]; [done|].
  rewrite pretty_N_go_step by lia. rewrite IH by (apply N.div_lt; lia).
  assert (x `mod` 10 < 10)%N as Hm by (apply N.mod_lt; lia).
  destruct (pretty_N_char_digit _ Hm) as [Hd Hv].
  cbn [parse_digits]. rewrite Hd, Hv. f_equal.
  pose proof (N.div_mod x 10). lia.
Qed.

Lemma parse_decimal z :
  (0 <= z)%Z ->
  (if str_is_empty (decimal z) then None else parse_digits 0 (decimal z)) = Some z.
Proof.
  intros Hz. unfold decimal, pretty, pretty_N.
  destruct (decide (Z.to_N z = 0)%N) as [H0|Hn].
  - assert (z = 0)%Z as -> by lia. done.
  - assert (pretty_N_go (Z.to_N z) "" ≠ "") as Hne.
    { intros He. apply (f_equal (parse_digits 0)) in He.
      rewrite parse_digits_pretty in He. simpl in He. injection He. lia. }
    destruct (pretty_N_go (Z.to_N z) "") as [|c s] eqn:E; [done|].
    cbn [str_is_empty]. rewrite <- E, parse_digits_pretty. simpl. f_equal. lia.
Qed.

Lemma decimal_digits z : str_all is_ascii_digit (decimal z) = true.
Proof.
  unfold decimal, pretty, pretty_N. case_decide; [done|].
  assert (forall x s, str_all is_ascii_digit s = true ->
    str_all is_ascii_digit (pretty_N_go x s) = true) as Hgo; [|by apply Hgo].
  clear. intros x. induction (N.lt_wf_0 x) as [x _ IH]; intros s Hs.
  destruct (decide (x = 0)%N) as [->|Hx]; [done|].
  rewrite pretty_N_go_step by lia. apply IH; [apply N.div_lt; lia|].
  assert (x `mod` 10 < 10)%N as Hm by (apply N.mod_lt; lia).
  destruct (pretty_N_char_digit _ Hm) as [Hd _]. cbn [str_all]. by rewrite Hd, Hs.
Qed.

Lemma decimal_no c z : is_ascii_digit c = false -> contains_char c (decimal z) = false.
Proof. intros Hc. eapply str_all_not_contains; [done|apply decimal_digits]. Qed.

Lemma decimal_inj x y : (0 <= x)%Z -> (0 <= y)%Z -> decimal x = decimal y -> x = y.
Proof.
  intros Hx Hy Heq. pose proof (parse_decimal x Hx) as Px. rewrite Heq in Px.
  rewrite (parse_decimal y Hy) in Px. congruence.
Qed.

Lemma strip_no_prefix c z : is_ascii_digit c = false -> strip_prefix (String c "") (decimal z) = None.
Proof.
  intros Hc. destruct (strip_prefix (String c "") (decimal z)) as [r|] eqn:E; [|done].
  apply strip_prefix_Some in E. pose proof (decimal_no c z Hc) as Hno.
  rewrite E, str_app_cons, contains_char_cons, Ascii.eqb_refl in Hno. done.
Qed.

Lemma decimal_ne_empty z : decimal z ≠ "".
Proof.
  replace (decimal z) with (decimal (Z.of_N (Z.to_N z))) by (unfold decimal; f_equal; lia).
  intros He. pose proof (parse_decimal (Z.of_N (Z.to_N z)) ltac:(lia)) as Hp. by rewrite He in Hp.
Qed.

Lemma parse_unsigned_decimal max z :
  (0 <= z <= max)%Z -> parse_unsigned max (decimal z) = Some z.
Proof.
  intros Hz. unfold parse_unsigned. rewrite (strip_no_prefix "+") by done. cbn [default from_option].
  pose proof (parse_decimal z ltac:(lia)) as Hp. destruct (str_is_empty (decimal z)); [done|].
  rewrite Hp. simpl. destruct (Z.leb_spec z max); [done|lia].
Qed.

#[export] Instance digits_tonumber_laws : LuaNumbersLaws | 100.
Proof. split; [|done]. intros z [Hz _]. by apply parse_decimal. Qed.

(** A concrete timestamp format: the decimal number of nanoseconds. *)
#[export] Instance decimal_rfc3339 : Rfc3339 | 100 :=
  {| to_rfc3339 := decimal;
     parse_from_rfc3339 s := if str_is_empty s then None else parse_digits 0 s |}.

#[export] Instance decimal_rfc3339_laws : Rfc3339Laws | 100.
Proof. split. intros t [Ht _]. by apply parse_decimal. Qed.

(** ** Lawful texts

    A code of countable values as strings, for concrete instances of the text
    formats that the model takes as parameters. *)

Fixpoint pos_text (p : positive) : string :=
  match p with
  | xH => "1"
  | xO p => String "a" (pos_text p)
  | xI p => String "b" (pos_text p)
  end.

Fixpoint text_pos (s : string) : option positive :=
  match s with
  | EmptyString => None
  | String c s' =>
      if Ascii.eqb c "a" then xO <$> text_pos s'
      else if Ascii.eqb c "b" then xI <$> text_pos s'
      else if str_is_empty s' then Some xH else None
  end.

Lemma text_pos_text p : text_pos (pos_text p) = Some p.
Proof. induction p as [p IH|p IH|]; cbn; [by rewrite IH..|done]. Qed.

Definition code {A} `{Countable A} (x : A) : string := pos_text (encode x).
Definition uncode {A} `{Countable A} (s : string) : option A := text_pos s ≫= decode.

Lemma uncode_code {A} `{Countable A} (x : A) : uncode (code x) = Some x.
Proof. unfold uncode, code. rewrite text_pos_text. cbn. apply decode_encode. Qed.
