(* ===== verification/LeaseTheorems.v ===== *)
(** * The download lease, end to end

    The lease properties that the download tracker depends on, for every backend
    that discharges [LeaseBackendSpec], and their instances: the in-memory
    backend ([RegistryMemory]) and the Redis backend ([RegistryRedis]) do.  An
    interleaving is any list of operations by any number of replicas, in the
    order in which the store executes them. *)

From Stdlib Require Import ZArith Lia Ascii String.
From stdpp Require Import base tactics option list gmap strings.
From S2P Require Import Prelude RustStr Models LeaseSpec LeaseProtocol.
From S2P Require Import RegistryMemory RedisStore RegistryRedis.

Section theorems.
Context {St : Type} `{LeaseBackendSpec St}.

(** C1: a live lease is exclusive.  While the lease of [c] has not expired at
    any operation on its record, and nobody releases it on purpose (the owner's
    own calls, a delete, a terminal [set_status]), every interleaving leaves the
    record and the lease as they are, and answers every claim with
    [AlreadyExists DOWNLOADING] and every retry, refresh and finish with false. *)
Theorem live_lease_exclusive (s s' : St) k c e tr rs :
  lb_inv s -> key_ok k ->
  lb_abs s k = Present DOWNLOADING (Some (MkLease c e)) ->
  run_ok s tr -> run s tr = (s', rs) -> undisturbed k c e tr ->
  lb_abs s' k = lb_abs s k ∧
  Forall2 (fun '(_, o) r => op_addresses o k -> denied o r) tr rs.
Proof. intros. by eapply live_lease_run. Qed.

(** C2: a stale owner is fenced.  Once [c] does not own the record, no
    interleaving in which [c] does not acquire it again makes [c] its owner,
    and every refresh or finish that [c] tries on it answers false. *)
Theorem stale_owner_fenced (s s' : St) k c tr rs :
  lb_inv s -> key_ok k -> cell_owner (lb_abs s k) ≠ Some c ->
  run_ok s tr -> run s tr = (s', rs) ->
  Forall (fun '(_, o) =>
            op_addresses o k -> op_acquires o = true -> op_claim_id o ≠ Some c) tr ->
  cell_owner (lb_abs s' k) ≠ Some c ∧
  Forall2 (fun '(_, o) r => op_addresses o k -> owner_only o = true ->
             op_claim_id o = Some c -> r = Ok (RBool false)) tr rs.
Proof. apply fenced_run. Qed.

(** C3: a crashed owner is replaced.  When the lease of a download has expired,
    a claim by [c] answers [TookOver], and if the lease it gets is undisturbed
    until [c] finishes, the finish succeeds: the record ends in the published
    status, without a lease. *)
Theorem expired_lease_taken_over (s : St) p n c ttl clk l tr clk' st m :
  lb_inv s -> lb_name_ok n ->
  lb_abs s (lb_key p n) = Present DOWNLOADING l -> lease_expired l (lb_now clk) = true ->
  run_ok s ((clk, OpClaim p n c ttl) :: tr ++ [(clk', OpFinish p n c st m)]) ->
  undisturbed (lb_key p n) c (lb_deadline clk ttl) tr ->
  let '(s', rs) := run s ((clk, OpClaim p n c ttl) :: tr ++ [(clk', OpFinish p n c st m)]) in
  head rs = Some (Ok (RClaim TookOver)) ∧
  last rs = Some (Ok (RBool true)) ∧
  lb_abs s' (lb_key p n) = Present st None.
Proof.
  intros Hinv Hn Habs Hexp (_ & Hp & Hok) Htr.
  destruct (step_at s clk (OpClaim p n c ttl) p Hinv Hn Hp eq_refl) as [Hc Hr].
  pose proof (step_inv s clk (OpClaim p n c ttl) Hinv Hn Hp) as Hinv1.
  simpl in Hc, Hr. rewrite Habs in Hc, Hr. simpl in Hc, Hr. rewrite Hexp in Hc, Hr.
  pose proof (owner_publishes _ p n c (lb_deadline clk ttl) tr clk' st m Hinv1 Hn Hc Hok Htr)
    as Hpub.
  cbn [run]. destruct (lb_step clk (OpClaim p n c ttl) s) as [s1 r1]. simpl in *.
  destruct (run s1 _) as [s2 rs]. destruct Hpub as [Hfin Hlast].
  split_and!; [by rewrite Hr| |done]. destruct rs; [done|]. exact Hlast.
Qed.

(** One winner per race.  When any number of replicas claim a record that
    does not exist, before the first lease expires, the first claim the store
    executes answers [Claimed] and every other answers
    [AlreadyExists DOWNLOADING], so exactly one replica downloads. *)
Lemma claim_race_single_winner (s s' : St) p n clk c ttl (rest : list (lb_clock * (string * Z))) rs :
  lb_inv s -> lb_name_ok n -> lb_abs s (lb_key p n) = Absent ->
  Forall (fun '(clk', (c', _)) => (lb_now clk' < lb_deadline clk ttl)%Z ∧ c' ≠ c) rest ->
  let claims := map (fun '(clk', (c', ttl')) => (clk', OpClaim p n c' ttl')) rest in
  run_ok s ((clk, OpClaim p n c ttl) :: claims) ->
  run s ((clk, OpClaim p n c ttl) :: claims) = (s', rs) ->
  rs = Ok (RClaim Claimed) :: map (fun _ => Ok (RClaim (AlreadyExists DOWNLOADING))) rest ∧
  lb_abs s' (lb_key p n) = Present DOWNLOADING (Some (MkLease c (lb_deadline clk ttl))).
Proof.
  intros Hinv Hn Habs Hrest claims (_ & Hp & Hok) Hrun.
  destruct (step_at s clk (OpClaim p n c ttl) p Hinv Hn Hp eq_refl) as [Hc Hr].
  pose proof (step_inv s clk (OpClaim p n c ttl) Hinv Hn Hp) as Hinv1.
  simpl in Hc, Hr. rewrite Habs in Hc, Hr. simpl in Hc, Hr. cbn [run] in Hrun.
  destruct (lb_step clk (OpClaim p n c ttl) s) as [s1 r1]. simpl in *.
  destruct (run s1 claims) as [s2 rs2] eqn:E. injection Hrun as <- <-.
  destruct (live_lease_run s1 (lb_key p n) c (lb_deadline clk ttl) claims s2 rs2)
    as [Hsame Hden]; [done|by exists p, n|done|done|done| |].
  { unfold claims. apply Forall_map. eapply Forall_impl; [exact Hrest|].
    intros [clk' [c' ttl']] [Hlt Hne] _. simpl. split; [done|].
    apply bool_decide_eq_false_2. congruence. }
  split; [|congruence]. rewrite Hr. f_equal.
  clear -Hden. unfold claims in Hden. clear claims. revert rs2 Hden.
  induction rest as [|[clk' [c' ttl']] rest IH]; intros rs2 Hden; simpl in *;
    inversion Hden as [|? r ? rs3 Hr Hden']; subst; [done|].
  rewrite (IH rs3 Hden'). f_equal. by apply Hr.
Qed.
End theorems.

(** ** The backends refine the contract *)

(** C4: each operation of the in-memory registry refines the lease contract:
    from a state that satisfies the invariant it moves the record that it names
    as [spec_cell] says, with the same answer, leaves every other record and
    lease alone, and keeps the invariant (a lease belongs to a [DOWNLOADING]
    record, every record sits under its own name). *)
Theorem memory_refines_contract `{Chrono} now o (s : InMemoryState) :
  Memory.inv s ->
  let '(s', r) := Memory.step now o s in
  let out := spec_cell now (Memory.lease_deadline now (op_ttl o)) o
               (Memory.abs s (op_name o)) in
  Memory.inv s' ∧ Memory.abs s' (op_name o) = out.1 ∧ r = Ok out.2 ∧
  forall n, n ≠ op_name o -> Memory.abs s' n = Memory.abs s n.
Proof.
  intros Hinv. pose proof (Memory.step_change now o s Hinv) as [Hch Hr].
  destruct (Memory.step now o s) as [s' r].
  by destruct (Memory.change_spec _ _ _ _ Hch Hinv) as (? & ? & ?).
Qed.

(** C5: each operation of the Redis registry that names a provider refines the
    lease contract on the record of that provider and name, including a claim
    that migrates a name-only record of the same provider, and leaves the
    records of every other provider and name alone. *)
Theorem redis_refines_contract {DB} `{RedisStoreLaws DB} `{LuaNumbersLaws} `{Rfc3339Laws}
    clk o p (db : DB) :
  Redis.inv db -> Redis.name_ok (op_name o) -> Redis.op_pre db clk o ->
  op_provider o = Some p ->
  let '(db', r) := Redis.step clk o db in
  let out := spec_cell (Redis.now_ms clk)
               (Redis.now_ms clk + Redis.lease_duration_millis (op_ttl o)) o
               (Redis.abs db (p, op_name o)) in
  Redis.inv db' ∧ Redis.abs db' (p, op_name o) = out.1 ∧ r = Ok out.2 ∧
  forall p' n', Redis.name_ok n' -> (p', n') ≠ (p, op_name o) ->
    Redis.abs db' (p', n') = Redis.abs db (p', n').
Proof. apply Redis.step_refines. Qed.

(** ** Witnesses: the two backends *)

#[local] Existing Instance Memory.lease_backend.
#[local] Existing Instance Memory.lease_backend_spec.
#[local] Existing Instance Redis.lease_backend.
#[local] Existing Instance Redis.lease_backend_spec.

Definition mem_run (s : InMemoryState) (tr : list (Z * op)) :=
  run (LB := Memory.lease_backend) s tr.

Lemma memory_refines_contract_witness :
  Memory.inv (Memory.step 0 (OpClaim HuggingFace "m" "a" 10) Memory.new).1.
Proof.
  exact (proj1 (memory_refines_contract 0 (OpClaim HuggingFace "m" "a" 10) Memory.new
                  Memory.inv_new)).
Defined.

(** Replica "a" claims at time 0 for 10 units, and replica "b" tries everything
    it can before the lease expires. *)
Definition mem_claimed : InMemoryState :=
  (mem_run Memory.new [(0%Z, OpClaim HuggingFace "m" "a" 10)]).1.

Definition mem_intruder : list (Z * op) :=
  [(1%Z, OpClaim HuggingFace "m" "b" 10); (2%Z, OpRetry HuggingFace "m" "b" 10);
   (3%Z, OpRefresh HuggingFace "m" "b" 10);
   (9%Z, OpFinish HuggingFace "m" "b" DOWNLOADED None)].

Lemma mem_claimed_inv : Memory.inv mem_claimed.
Proof.
  apply (run_inv (LB := Memory.lease_backend) Memory.new
           [(0%Z, OpClaim HuggingFace "m" "a" 10)]); [apply Memory.inv_new|done].
Qed.

Lemma live_lease_exclusive_witness :
  Memory.abs (mem_run mem_claimed mem_intruder).1 "m" =
    Present DOWNLOADING (Some (MkLease "a" 10)).
Proof.
  apply (live_lease_exclusive (H := Memory.lease_backend) mem_claimed
    (mem_run mem_claimed mem_intruder).1 "m" "a" 10 mem_intruder
    (mem_run mem_claimed mem_intruder).2 mem_claimed_inv).
  - by exists HuggingFace, "m".
  - reflexivity.
  - repeat split.
  - reflexivity.
  - repeat constructor.
Defined.

(** Replica "b" takes over after the lease of "a" expired; the late finish of
    "a" is refused, the finish of "b" succeeds. *)
Definition mem_late : list (Z * op) :=
  [(11%Z, OpClaim HuggingFace "m" "b" 10);
   (12%Z, OpFinish HuggingFace "m" "a" ERROR None)] ++
  [(13%Z, OpFinish HuggingFace "m" "b" DOWNLOADED None)].

Lemma expired_lease_taken_over_witness :
  Memory.abs (mem_run mem_claimed mem_late).1 "m" = Present DOWNLOADED None.
Proof.
  pose proof (expired_lease_taken_over (H := Memory.lease_backend) mem_claimed HuggingFace "m"
    "b" 10 11%Z (Some (MkLease "a" 10)) [(12%Z, OpFinish HuggingFace "m" "a" ERROR None)] 13%Z
    DOWNLOADED None mem_claimed_inv I eq_refl eq_refl) as Hw.
  apply Hw.
  - repeat split.
  - repeat constructor.
Defined.

(** ... and "a", which lost the lease, is fenced from then on. *)
Definition mem_after_takeover : InMemoryState :=
  (mem_run mem_claimed [(11%Z, OpClaim HuggingFace "m" "b" 10)]).1.

Lemma mem_after_takeover_inv : Memory.inv mem_after_takeover.
Proof.
  apply (run_inv (LB := Memory.lease_backend) mem_claimed
           [(11%Z, OpClaim HuggingFace "m" "b" 10)]); [apply mem_claimed_inv|done].
Qed.

Lemma stale_owner_fenced_witness :
  cell_owner (Memory.abs
    (mem_run mem_after_takeover [(12%Z, OpFinish HuggingFace "m" "a" ERROR None)]).1 "m")
  ≠ Some "a".
Proof.
  apply (stale_owner_fenced (H := Memory.lease_backend) mem_after_takeover
    (mem_run mem_after_takeover [(12%Z, OpFinish HuggingFace "m" "a" ERROR None)]).1 "m" "a"
    [(12%Z, OpFinish HuggingFace "m" "a" ERROR None)] [Ok (RBool false)]
    mem_after_takeover_inv).
  - by exists HuggingFace, "m".
  - vm_compute. discriminate.
  - repeat split.
  - reflexivity.
  - repeat constructor. discriminate.
Defined.

(** The race on the Redis backend: three replicas, one winner. *)
Definition redis_clock (ms : Z) : Redis.clock := Redis.MkClock 0 (ms * 1000) 0.

Lemma redis_empty_inv : Redis.inv (∅ : hash_store).
Proof. intros n. by exists Absent. Qed.

Definition race_rest : list (Redis.clock * (string * Z)) :=
  [(redis_clock 1, ("b", 10000000000%Z)); (redis_clock 5, ("c", 10000000000%Z))].

Definition race : list (Redis.clock * op) :=
  (redis_clock 0, OpClaim S3 "s3://b/m" "a" 10000000000) ::
  map (fun '(clk', (c', ttl')) => (clk', OpClaim S3 "s3://b/m" c' ttl')) race_rest.

Lemma redis_race_ok : run_ok (LB := Redis.lease_backend) (∅ : hash_store) race.
Proof.
  assert (Redis.name_ok "s3://b/m") as Hn by (intros [] r; discriminate).
  assert (forall ms, ms = 0 ∨ ms = 1 ∨ ms = 5 ->
            Redis.clock_ok (redis_clock ms) 10000000000)%Z as Hclk.
  { intros ms [->|[->| ->]]; (split; [|split]); vm_compute; discriminate. }
  split; [exact Hn|]; split; [split; [apply (Hclk 0%Z); tauto|exact I]|].
  split; [exact Hn|]; split; [split; [apply (Hclk 1%Z); tauto|exact I]|].
  split; [exact Hn|]; split; [split; [apply (Hclk 5%Z); tauto|exact I]|exact I].
Qed.

Lemma claim_race_single_winner_witness :
  let '(s', rs) := run (LB := Redis.lease_backend) (∅ : hash_store) race in
  rs = [Ok (RClaim Claimed); Ok (RClaim (AlreadyExists DOWNLOADING));
        Ok (RClaim (AlreadyExists DOWNLOADING))] ∧
  Redis.abs s' (S3, "s3://b/m") = Present DOWNLOADING (Some (MkLease "a" 10000)).
Proof.
  destruct (run (LB := Redis.lease_backend) (∅ : hash_store) race) as [s' rs] eqn:E.
  apply (claim_race_single_winner (H := Redis.lease_backend) (∅ : hash_store) s'
    S3 "s3://b/m" (redis_clock 0) "a" 10000000000 race_rest rs redis_empty_inv).
  - intros [] r; discriminate.
  - reflexivity.
  - repeat constructor; discriminate.
  - exact redis_race_ok.
  - exact E.
Defined.

(** A name-only record of the same provider, with no lease, is migrated and
    taken over by the claim. *)
Definition legacy_db : hash_store :=
  hset_all "mx:model:org/m" [("status", "DOWNLOADING"); ("provider", "HuggingFace")] ∅.

Lemma legacy_db_inv : Redis.inv legacy_db.
Proof.
  intros n. destruct (decide (Redis.legacy_model_key n = "mx:model:org/m")) as [->|Hne].
  - exists (Present DOWNLOADING None). split; [reflexivity|done].
  - exists Absent. split; [|done]. unfold Redis.key_view, legacy_db.
    rewrite !hget_hset_all_ne by done. reflexivity.
Qed.

Lemma redis_refines_contract_witness :
  let '(db', r) := Redis.step (redis_clock 1) (OpClaim HuggingFace "org/m" "a" 10000000000)
                     legacy_db in
  Redis.abs db' (HuggingFace, "org/m") = Present DOWNLOADING (Some (MkLease "a" 10001)) ∧
  r = Ok (RClaim TookOver).
Proof.
  pose proof (redis_refines_contract (DB := hash_store) (redis_clock 1)
    (OpClaim HuggingFace "org/m" "a" 10000000000) HuggingFace legacy_db legacy_db_inv) as Hw.
  destruct (Redis.step (redis_clock 1) (OpClaim HuggingFace "org/m" "a" 10000000000) legacy_db)
    as [db' r].
  destruct Hw as (_ & Ha & Hr & _).
  - intros [] r'; discriminate.
  - split; [|exact I]. split; [|split]; vm_compute; discriminate.
  - reflexivity.
  - split; [exact Ha|exact Hr].
Defined.
