(* ===== verification/Eviction.v ===== *)
(** * Cache eviction (modelexpress_server/src/cache.rs)

    The LRU policy, the eviction of one registry entry with its decision which
    files to delete, one eviction cycle, and the cache statistics.  The registry
    is the interface [Registry] (the calls of [RegistryManager] that the service
    makes); the provider's file deletion and the manifest removal are recorded
    in a log of actions, and whether a deletion succeeds is an argument.
    [Utc::now()] is read once per examined model: [now] gives that reading. *)

From Stdlib Require Import ZArith Lia Ascii String.
From stdpp Require Import base tactics option list sorting gmap strings.
From S2P Require Import Prelude RustStr RustPath Models EntryKey RegistryMemory.

(** ** Configuration and results *)

Record LruConfig : Type := MkLruConfig {
  unused_threshold : Z;
  max_models : option Z;
  min_free_space_bytes : option Z
}.

Inductive EvictionReason : Type := TimeThreshold | CountLimit | DiskSpace | Manual.

Record EvictionCandidate : Type := MkEvictionCandidate {
  ec_model_name : string;
  ec_reason : EvictionReason
}.

Record EvictionResult : Type := MkEvictionResult {
  evicted_count : Z;
  evicted_models : list string;
  bytes_freed : option Z;
  er_reason : EvictionReason
}.

(** [DateTime::checked_sub_signed] of chrono. *)
Class ChronoSub := { checked_sub_signed : Z -> Z -> option Z }.

Class ChronoSubLaws `{ChronoSub} : Prop := {
  checked_sub_exact : forall a d t, checked_sub_signed a d = Some t -> t = (a - d)%Z
}.

#[export] Instance chrono_sub_ranges : ChronoSub | 100 :=
  {| checked_sub_signed a d := if (- chrono_date_max <=? a - d)%Z then Some (a - d)%Z else None |}.

#[export] Instance chrono_sub_ranges_laws : ChronoSubLaws | 100.
Proof. split. simpl. intros. case_match; by simplify_eq. Qed.

(** ** The LRU policy *)

Section policy.
Context `{ChronoSub}.

Definition is_time_expired (now : ModelRecord -> Z) (threshold : Z) (model : ModelRecord)
    : bool :=
  let cutoff_time := default (now model) (checked_sub_signed (now model) threshold) in
  (mr_last_used_at model <? cutoff_time)%Z.

(** [get_disk_space_info] is a placeholder that answers [None]. *)
Definition get_disk_space_info : option (Z * Z) := None.

Definition is_downloaded (model : ModelRecord) : bool :=
  bool_decide (mr_status model = DOWNLOADED).

Definition time_candidates (now : ModelRecord -> Z) (threshold : Z)
    (downloaded_models : list ModelRecord) : list EvictionCandidate :=
  map (fun m => MkEvictionCandidate (mr_model_name m) TimeThreshold)
    (List.filter (is_time_expired now threshold) downloaded_models).

(** One iteration of the count loop: push unless the name is there already. *)
Definition push_count (cands : list EvictionCandidate) (model : ModelRecord)
    : list EvictionCandidate :=
  if existsb (fun c => String.eqb (ec_model_name c) (mr_model_name model)) cands
  then cands
  else cands ++ [MkEvictionCandidate (mr_model_name model) CountLimit].

Definition select_for_eviction (now : ModelRecord -> Z) (models : list ModelRecord)
    (lru_config : LruConfig) : list EvictionCandidate :=
  let downloaded_models := List.filter is_downloaded models in
  let candidates := time_candidates now (unused_threshold lru_config) downloaded_models in
  let candidates :=
    match max_models lru_config with
    | Some max =>
        let models_to_remove_by_count := length downloaded_models - Z.to_nat max in
        if decide (0 < models_to_remove_by_count)
        then foldl push_count candidates
               (take models_to_remove_by_count (sort_by_key mr_last_used_at downloaded_models))
        else candidates
    | None => candidates
    end in
  match min_free_space_bytes lru_config, get_disk_space_info with
  | Some _, Some _ => candidates
  | _, _ => candidates
  end.

End policy.

(** ** The registry that the service calls *)

Class Registry (R RE : Type) := {
  reg_list : option Z -> R -> result (list ModelRecord) RE;
  reg_record : string -> R -> result (option ModelRecord) RE;
  reg_delete : string -> R -> R * result unit RE;
  reg_counts : R -> result (Z * Z * Z) RE
}.

(** The in-memory registry. *)
#[export] Instance memory_registry `{HashIter} : Registry InMemoryState Empty_set := {|
  reg_list limit s := Ok (Memory.get_models_by_last_used limit s);
  reg_record n s := Ok (Memory.get_model_record n s);
  reg_delete n s := (Memory.delete_model n s, Ok ());
  reg_counts s := Ok (Memory.get_status_counts s)
|}.

(** What an eviction does to the disk. *)
Inductive disk_action : Type :=
| DeleteFiles (provider : ModelProvider) (model_name : string) (dir : path)
              (revision : option string)
| RemoveManifest (dir : path) (entry_key : string).

#[export] Instance disk_action_eq_dec : EqDecision disk_action.
Proof. solve_decision. Defined.

Inductive evict_error (RE : Type) : Type :=
| RegistryFailed (e : RE)
| NotFound (entry_key : string)
| DeleteFailed (entry_key : string).

Arguments RegistryFailed {RE} _.
Arguments NotFound {RE} _.
Arguments DeleteFailed {RE} _.

Section service.
Context {R RE : Type} `{Registry R RE} `{ChronoSub}.
(** The cache root, and whether a deletion that the provider is asked for
    succeeds. *)
Context (cache_directory : path) (delete_ok : disk_action -> bool).

(** Other entries of the same model in the same partition. *)
Definition survivors (entry_key : string) (siblings : list ModelRecord) : list EntryKey :=
  let key := parse entry_key in
  List.filter (fun other => String.eqb (ek_model_name other) (ek_model_name key)
                       && bool_decide (ek_tenant other = ek_tenant key))
    (map (fun sibling => parse (mr_model_name sibling))
       (List.filter (fun sibling => negb (String.eqb (mr_model_name sibling) entry_key)) siblings)).

Definition snapshot_still_referenced (key : EntryKey) (survivors : list EntryKey) : bool :=
  existsb (fun other =>
    bool_decide (ek_revision other = ek_revision key)
    || bool_decide (ek_revision other = None)
    || bool_decide (ek_revision key = None)) survivors.

(** [Some revision]: delete that revision, or everything when it is [None];
    [None]: keep the files. *)
Definition delete_revision (key : EntryKey) (survivors : list EntryKey)
    : option (option string) :=
  match survivors with
  | [] => Some None
  | _ => if snapshot_still_referenced key survivors then None else Some (ek_revision key)
  end.

(** The state a service step works on: the registry and the disk actions so far. *)
Definition evict_model (entry_key : string) (st : R * list disk_action)
    : (R * list disk_action) * result unit (evict_error RE) :=
  let '(reg, log) := st in
  match reg_record entry_key reg with
  | Err e => (st, Err (RegistryFailed e))
  | Ok None => (st, Err (NotFound entry_key))
  | Ok (Some record) =>
      let key := parse entry_key in
      let dir := cache_dir key cache_directory in
      match reg_list None reg with
      | Err e => (st, Err (RegistryFailed e))
      | Ok siblings =>
          let finish log :=
            let log := log ++ [RemoveManifest dir entry_key] in
            let '(reg', r) := reg_delete entry_key reg in
            ((reg', log),
             match r with Ok _ => Ok () | Err e => Err (RegistryFailed e) end) in
          match delete_revision key (survivors entry_key siblings) with
          | Some revision =>
              let act := DeleteFiles (mr_provider record) (ek_model_name key) dir revision in
              if delete_ok act then finish (log ++ [act])
              else ((reg, log ++ [act]), Err (DeleteFailed entry_key))
          | None => finish log
          end
      end
  end.

(** The loop of [run_eviction_cycle] over the selected models. *)
Fixpoint evict_all (cands : list EvictionCandidate) (st : R * list disk_action)
    : (R * list disk_action) * list string :=
  match cands with
  | [] => (st, [])
  | c :: cands' =>
      let '(st, r) := evict_model (ec_model_name c) st in
      let '(st, done) := evict_all cands' st in
      (st, match r with Ok _ => ec_model_name c :: done | Err _ => done end)
  end.

Definition run_eviction_cycle (now : ModelRecord -> Z) (config : LruConfig)
    (st : R * list disk_action)
    : (R * list disk_action) * result EvictionResult (evict_error RE) :=
  match reg_list None st.1 with
  | Err e => (st, Err (RegistryFailed e))
  | Ok models =>
      let models_to_evict := select_for_eviction now models config in
      if (Z.of_nat (length models_to_evict) mod (u32_max + 1) =? 0)%Z
      then (st, Ok (MkEvictionResult 0 [] None TimeThreshold))
      else
        let '(st, successfully_evicted) := evict_all models_to_evict st in
        (st, Ok (MkEvictionResult
                   (Z.of_nat (length successfully_evicted) mod (u32_max + 1))
                   successfully_evicted None
                   (match models_to_evict with
                    | [] => TimeThreshold
                    | c :: _ => ec_reason c
                    end)))
  end.

(** ** Statistics *)

Record CacheStats : Type := MkCacheStats {
  total_models : Z;
  downloading_models : Z;
  downloaded_models : Z;
  error_models : Z;
  oldest_model_last_used : option Z;
  newest_model_last_used : option Z
}.

(** One iteration of the oldest/newest loop. *)
Definition stats_step (acc : option Z * option Z) (model : ModelRecord)
    : option Z * option Z :=
  let '(oldest, newest) := acc in
  if is_downloaded model then
    let t := mr_last_used_at model in
    (match oldest with Some o => if (t <? o)%Z then Some t else oldest | None => Some t end,
     match newest with Some n => if (n <? t)%Z then Some t else newest | None => Some t end)
  else acc.

Definition get_cache_stats (reg : R) : result CacheStats RE :=
  let? models := reg_list None reg in
  let? counts := reg_counts reg in
  let '(downloading, downloaded, error) := counts in
  let '(oldest, newest) := foldl stats_step (None, None) models in
  Ok (MkCacheStats (Z.of_nat (length models) mod (u32_max + 1)) downloading downloaded error
        oldest newest).

End service.

(** ** Properties of the policy *)

Abbreviation cand_names cs := (map ec_model_name cs).

(** The models that the count rule would remove. *)
Definition over_limit (models : list ModelRecord) (config : LruConfig) : list ModelRecord :=
  let downloaded := List.filter is_downloaded models in
  match max_models config with
  | Some max => take (length downloaded - Z.to_nat max) (sort_by_key mr_last_used_at downloaded)
  | None => []
  end.

Section policy_facts.
Context `{ChronoSub}.

Lemma elem_of_filter_b {A} (P : A -> bool) (l : list A) x :
  x ∈ List.filter P l ↔ x ∈ l ∧ P x = true.
Proof. by rewrite !list_elem_of_In, filter_In. Qed.

Lemma push_count_names l : forall cs n,
  n ∈ cand_names (foldl push_count cs l) ↔ n ∈ cand_names cs ∨ n ∈ map mr_model_name l.
Proof.
  induction l as [|m l IH]; intros cs n; cbn [foldl map]; [set_solver|].
  rewrite IH. unfold push_count. case_match eqn:Hex.
  - apply existsb_exists in Hex as (c & Hc & He%String.eqb_eq).
    assert (mr_model_name m ∈ cand_names cs).
    { rewrite <- He. apply list_elem_of_fmap. exists c. split; [done|]. by apply list_elem_of_In. }
    set_solver.
  - rewrite map_app. simpl. set_solver.
Qed.

Lemma push_count_reason l : forall cs c,
  c ∈ foldl push_count cs l ->
  c ∈ cs ∨ (ec_reason c = CountLimit ∧ ec_model_name c ∈ map mr_model_name l ∧
            ec_model_name c ∉ cand_names cs).
Proof.
  induction l as [|m l IH]; intros cs c; cbn [foldl map]; [tauto|].
  intros [Hc|(Hr & Hn & Hnc)]%IH.
  - unfold push_count in Hc. case_match eqn:Hex; [by left|].
    apply elem_of_app in Hc as [Hc| ->%list_elem_of_singleton]; [by left|right].
    split_and!; [done|set_solver|]. simpl. intros (c' & He & Hin)%list_elem_of_fmap.
    apply not_true_iff_false in Hex. apply Hex, existsb_exists. exists c'.
    split; [by apply list_elem_of_In|]. by apply String.eqb_eq.
  - right. split_and!; [done|set_solver|]. intros Hin. apply Hnc.
    unfold push_count. case_match; [done|]. rewrite map_app. set_solver.
Qed.

Lemma push_count_NoDup l : forall cs,
  NoDup (cand_names cs) -> NoDup (cand_names (foldl push_count cs l)).
Proof.
  induction l as [|m l IH]; intros cs Hnd; cbn [foldl]; [done|].
  apply IH. unfold push_count. case_match eqn:Hex; [done|].
  rewrite map_app. apply NoDup_app. split_and!; [done| |apply NoDup_singleton].
  intros n Hn ->%list_elem_of_singleton. simpl in Hn.
  apply list_elem_of_fmap in Hn as (c & He & Hin).
  apply not_true_iff_false in Hex. apply Hex, existsb_exists. exists c.
  split; [by apply list_elem_of_In|]. by apply String.eqb_eq.
Qed.

Lemma select_unfold now models config :
  select_for_eviction now models config =
  foldl push_count
    (time_candidates now (unused_threshold config) (List.filter is_downloaded models))
    (over_limit models config).
Proof.
  unfold select_for_eviction, over_limit, get_disk_space_info.
  destruct (max_models config) as [max|]; [|by case_match].
  case_decide as Hd; [by case_match|].
  replace (length (List.filter is_downloaded models) - Z.to_nat max) with 0 by lia.
  by case_match.
Qed.

Lemma over_limit_downloaded models config m :
  m ∈ over_limit models config -> m ∈ models ∧ is_downloaded m = true.
Proof.
  unfold over_limit. destruct (max_models config); [|set_solver].
  intros Hm%subseteq_take. rewrite sort_by_key_perm in Hm. by apply elem_of_filter_b.
Qed.

Lemma time_candidates_elem now th l c :
  c ∈ time_candidates now th l ↔
  ∃ m, m ∈ l ∧ is_time_expired now th m = true ∧
       c = MkEvictionCandidate (mr_model_name m) TimeThreshold.
Proof.
  unfold time_candidates. rewrite list_elem_of_fmap. split.
  - intros (m & -> & [? ?]%elem_of_filter_b). eauto.
  - intros (m & ? & ? & ->). exists m. by rewrite elem_of_filter_b.
Qed.

Lemma time_candidates_name now th l n :
  n ∈ cand_names (time_candidates now th l) ↔
  ∃ m, m ∈ l ∧ is_time_expired now th m = true ∧ mr_model_name m = n.
Proof.
  rewrite list_elem_of_fmap. split.
  - intros (c & -> & (m & ? & ? & ->)%time_candidates_elem). eauto.
  - intros (m & ? & ? & <-). exists (MkEvictionCandidate (mr_model_name m) TimeThreshold).
    split; [done|]. apply time_candidates_elem. eauto.
Qed.

Lemma select_name now models config n :
  n ∈ cand_names (select_for_eviction now models config) ↔
  ∃ m, m ∈ models ∧ is_downloaded m = true ∧ mr_model_name m = n ∧
       (is_time_expired now (unused_threshold config) m = true ∨ m ∈ over_limit models config).
Proof.
  rewrite select_unfold, push_count_names, time_candidates_name. split.
  - intros [(m & [? ?]%elem_of_filter_b & ? & ?)|(m & -> & Hm)%list_elem_of_fmap]; [by eauto 8|].
    destruct (over_limit_downloaded _ _ _ Hm). eauto 8.
  - intros (m & ? & ? & ? & [?|?]); [left; exists m; by rewrite elem_of_filter_b|right].
    apply list_elem_of_fmap. eauto.
Qed.

Lemma NoDup_filter_names (P : ModelRecord -> bool) l :
  NoDup (map mr_model_name l) -> NoDup (map mr_model_name (List.filter P l)).
Proof.
  induction l as [|m l IH]; simpl; [done|]. intros [Hm Hnd]%NoDup_cons.
  destruct (P m); simpl; [|by apply IH]. apply NoDup_cons. split; [|by apply IH].
  intros (m' & He & [Hin _]%elem_of_filter_b)%list_elem_of_fmap.
  apply Hm, list_elem_of_fmap. eauto.
Qed.

Lemma select_NoDup now models config :
  NoDup (map mr_model_name models) ->
  NoDup (cand_names (select_for_eviction now models config)).
Proof.
  intros Hnd. rewrite select_unfold. apply push_count_NoDup.
  unfold time_candidates. rewrite map_map. simpl. by do 2 apply NoDup_filter_names.
Qed.

(** The LRU policy selects the right models.  A model is selected if and
    only if it is [DOWNLOADED] and either unused for longer than the threshold
    or among the oldest models above the count limit; none is selected twice;
    and the recorded reason is the rule that picked it ([TimeThreshold] exactly
    for the expired ones). *)
Lemma eviction_selection_exact now models config :
  NoDup (map mr_model_name models) ->
  NoDup (cand_names (select_for_eviction now models config)) ∧
  (forall m, m ∈ models ->
     mr_model_name m ∈ cand_names (select_for_eviction now models config) ↔
     mr_status m = DOWNLOADED ∧
     (is_time_expired now (unused_threshold config) m = true ∨ m ∈ over_limit models config)) ∧
  (forall c, c ∈ select_for_eviction now models config ->
     ∃ m, m ∈ models ∧ mr_model_name m = ec_model_name c ∧
          ec_reason c = if is_time_expired now (unused_threshold config) m
                        then TimeThreshold else CountLimit).
Proof.
  intros Hnd. split_and!; [by apply select_NoDup| |].
  - intros m Hm. rewrite select_name. unfold is_downloaded. split.
    + intros (m' & Hm' & Hd & He & Hsel). mx_bool.
      by rewrite (NoDup_map_inj mr_model_name models m m') by done.
    + intros [Hd Hsel]. exists m. by rewrite bool_decide_eq_true.
  - intros c Hc. rewrite select_unfold in Hc.
    apply push_count_reason in Hc as [Hc|(Hr & Hn & Hnot)].
    + apply time_candidates_elem in Hc as (m & [Hm _]%elem_of_filter_b & He & ->).
      exists m. by rewrite He.
    + apply list_elem_of_fmap in Hn as (m & He & Hin).
      destruct (over_limit_downloaded _ _ _ Hin) as [Hm Hd]. exists m. split_and!; [done|done|].
      destruct (is_time_expired _ _ _) eqn:Hexp; [|done].
      destruct Hnot. rewrite time_candidates_name. exists m. by rewrite elem_of_filter_b.
Qed.

Lemma filter_take_drop {A} (P : A -> Prop) `{forall x, Decision (P x)} n (l : list A) :
  (forall x, x ∈ take n l -> ~ P x) -> length (filter P l) <= length l - n.
Proof.
  intros Hno. rewrite <- (take_drop n l) at 1. rewrite filter_app, length_app.
  assert (filter P (take n l) = []) as ->.
  { apply elem_of_nil_inv. intros x [HP Hx]%list_elem_of_filter. by apply (Hno x). }
  simpl. etrans; [apply length_filter|]. by rewrite length_drop.
Qed.

(** After the selected models are gone, at most [max_models] downloaded
    models are left, and the count rule follows the LRU order: no model that it
    removes was used later than a downloaded model that stays. *)
Lemma eviction_count_limit now models config max :
  max_models config = Some max -> NoDup (map mr_model_name models) ->
  length (filter (fun m => mr_status m = DOWNLOADED ∧
                    mr_model_name m ∉ cand_names (select_for_eviction now models config)) models)
    <= Z.to_nat max ∧
  (forall m m', m ∈ over_limit models config -> m' ∈ models -> mr_status m' = DOWNLOADED ->
     mr_model_name m' ∉ cand_names (select_for_eviction now models config) ->
     (mr_last_used_at m <= mr_last_used_at m')%Z).
Proof.
  intros Hmax Hnd.
  set (D := List.filter is_downloaded models).
  set (sel := cand_names (select_for_eviction now models config)).
  assert (over_limit models config =
          take (length D - Z.to_nat max) (sort_by_key mr_last_used_at D)) as Hover.
  { unfold over_limit. by rewrite Hmax. }
  assert (forall m, m ∈ over_limit models config -> mr_model_name m ∈ sel) as Hin.
  { intros m Hm. apply select_name. destruct (over_limit_downloaded _ _ _ Hm). eauto 8. }
  split.
  - assert (filter (fun m => mr_status m = DOWNLOADED ∧ mr_model_name m ∉ sel) models =
            filter (fun m => mr_model_name m ∉ sel) D) as ->.
    { unfold D. generalize sel. clear. intros sel. induction models as [|m l IH]; [done|].
      cbn [List.filter]. rewrite filter_cons. unfold is_downloaded at 1.
      destruct (bool_decide (mr_status m = DOWNLOADED)) eqn:Hd; mx_bool.
      - rewrite filter_cons, IH. repeat case_decide; naive_solver.
      - by rewrite decide_False by tauto. }
    rewrite <- (sort_by_key_perm mr_last_used_at D).
    etrans; [apply (filter_take_drop _ (length D - Z.to_nat max))|].
    + intros m Hm Hno. apply Hno, Hin. by rewrite Hover.
    + rewrite sort_by_key_perm. lia.
  - intros m m' Hm Hm' Hst Hno. rewrite Hover in Hm.
    apply (StronglySorted_take_drop _ _ _ m m' (sort_by_key_sorted mr_last_used_at D) Hm).
    assert (m' ∈ sort_by_key mr_last_used_at D) as Hs.
    { rewrite sort_by_key_perm. apply elem_of_filter_b. split; [done|].
      by apply bool_decide_eq_true. }
    rewrite <- (take_drop (length D - Z.to_nat max)) in Hs.
    apply elem_of_app in Hs as [Hs|Hs]; [|done]. destruct Hno. apply Hin. by rewrite Hover.
Qed.
End policy_facts.

(** A registry of three downloaded models and one in progress, a threshold of
    100, and room for two. *)
Definition sample_models : list ModelRecord :=
  [MkModelRecord "old" HuggingFace DOWNLOADED 0 10 None;
   MkModelRecord "mid" HuggingFace DOWNLOADED 0 950 None;
   MkModelRecord "busy" HuggingFace DOWNLOADING 0 5 None;
   MkModelRecord "lru" HuggingFace DOWNLOADED 0 920 None;
   MkModelRecord "new" HuggingFace DOWNLOADED 0 990 None].

Definition sample_config : LruConfig := MkLruConfig 100 (Some 2%Z) None.

Example sample_selection :
  select_for_eviction (fun _ => 1000%Z) sample_models sample_config =
  [MkEvictionCandidate "old" TimeThreshold; MkEvictionCandidate "lru" CountLimit].
Proof. reflexivity. Qed.

Lemma sample_NoDup : NoDup (map mr_model_name sample_models).
Proof. apply (bool_decide_unpack _). vm_compute. exact I. Qed.

Lemma eviction_selection_exact_witness :
  NoDup (cand_names (select_for_eviction (fun _ => 1000%Z) sample_models sample_config)).
Proof. apply (eviction_selection_exact _ _ sample_config sample_NoDup). Defined.

Lemma eviction_count_limit_witness :
  length (filter (fun m => mr_status m = DOWNLOADED ∧
            mr_model_name m ∉ cand_names
              (select_for_eviction (fun _ => 1000%Z) sample_models sample_config)) sample_models)
    <= 2.
Proof.
  apply (eviction_count_limit (fun _ => 1000%Z) sample_models sample_config 2 eq_refl
           sample_NoDup).
Defined.

(** ** Properties of the eviction of one entry *)

Section service_facts.
Context {R RE : Type} `{Registry R RE} `{ChronoSub}.
Context (cache_directory : path) (delete_ok : disk_action -> bool).

(** The entries that keep files of [key] in use: other entries of the same model
    in the same partition. *)
Definition shares_model (entry_key : string) (siblings : list ModelRecord) (other : EntryKey)
    : Prop :=
  ∃ r, r ∈ siblings ∧ mr_model_name r ≠ entry_key ∧ other = parse (mr_model_name r) ∧
       ek_model_name other = ek_model_name (parse entry_key) ∧
       ek_tenant other = ek_tenant (parse entry_key).

Lemma elem_of_survivors entry_key siblings other :
  other ∈ survivors entry_key siblings ↔ shares_model entry_key siblings other.
Proof.
  unfold survivors, shares_model. rewrite elem_of_filter_b, andb_true_iff, String.eqb_eq.
  rewrite bool_decide_eq_true, list_elem_of_fmap. split.
  - intros [(r & -> & [Hr Hne]%elem_of_filter_b) [Hn Ht]]. exists r.
    apply negb_true_iff, String.eqb_neq in Hne. by split_and!.
  - intros (r & Hr & Hne & -> & Hn & Ht). split; [|done]. exists r. split; [done|].
    apply elem_of_filter_b. split; [done|]. by apply negb_true_iff, String.eqb_neq.
Qed.

(** Every file deletion that the decision allows spares the snapshots of the
    surviving entries. *)
Lemma delete_revision_safe key svs rev other :
  delete_revision key svs = Some rev -> other ∈ svs ->
  rev ≠ None ∧ ek_revision other ≠ None ∧ ek_revision other ≠ rev.
Proof.
  unfold delete_revision. destruct svs as [|o svs]; [set_solver|].
  destruct (snapshot_still_referenced _ _) eqn:Href; [done|]. intros [= <-] Hin.
  assert (forall x, x ∈ o :: svs ->
    bool_decide (ek_revision x = ek_revision key) || bool_decide (ek_revision x = None)
    || bool_decide (ek_revision key = None) = false) as Hall.
  { intros x Hx. apply not_true_iff_false. intros Ht.
    apply not_true_iff_false in Href. apply Href. unfold snapshot_still_referenced.
    apply existsb_exists. exists x. split; [by apply list_elem_of_In|done]. }
  specialize (Hall other Hin). mx_bool. naive_solver.
Qed.

(** C17: evicting an entry never deletes a file that another registry entry may
    reference.  Whatever deletion [evict_model] asks a provider for, it is in
    the entry's own partition and for its own model name; and if any other entry
    of that model exists in the partition, it is a deletion of one revision, and
    each such entry is pinned to a different revision. *)
Theorem evict_spares_survivors entry_key (reg reg' : R) log log' res siblings prov name dir rev :
  reg_list None reg = Ok siblings ->
  evict_model cache_directory delete_ok entry_key (reg, log) = ((reg', log'), res) ->
  DeleteFiles prov name dir rev ∈ log' -> DeleteFiles prov name dir rev ∉ log ->
  dir = cache_dir (parse entry_key) cache_directory ∧
  name = ek_model_name (parse entry_key) ∧
  forall other, shares_model entry_key siblings other ->
    rev ≠ None ∧ ek_revision other ≠ None ∧ ek_revision other ≠ rev.
Proof.
  intros Hlist Hev Hin Hnot. unfold evict_model in Hev. rewrite Hlist in Hev.
  destruct (reg_record entry_key reg) as [[record|]|e]; [|simplify_eq; done..].
  destruct (delete_revision _ _) as [rv|] eqn:Hdel.
  - set (act := DeleteFiles _ _ _ rv) in *.
    assert (DeleteFiles prov name dir rev = act) as Hact.
    { destruct (delete_ok act).
      - destruct (reg_delete entry_key reg) as [reg2 r2]. simplify_eq. set_solver.
      - simplify_eq. set_solver. }
    unfold act in Hact. simplify_eq. split_and!; [done..|].
    intros other Hsh. by eapply delete_revision_safe, elem_of_survivors.
  - destruct (reg_delete entry_key reg) as [reg2 r2]. simplify_eq. set_solver.
Qed.

(** The registry record outlives its files.  When the provider fails a
    deletion that [evict_model] asks for, the call reports the failure and leaves
    the registry untouched, so that a later cycle tries again; and a call that
    succeeds has removed the record, after every requested deletion succeeded. *)
Lemma evict_delete_before_record entry_key (reg reg' : R) log log' res :
  evict_model cache_directory delete_ok entry_key (reg, log) = ((reg', log'), res) ->
  (forall prov name dir rev,
     DeleteFiles prov name dir rev ∈ log' -> DeleteFiles prov name dir rev ∉ log ->
     delete_ok (DeleteFiles prov name dir rev) = false ->
     reg' = reg ∧ res = Err (DeleteFailed entry_key)) ∧
  (res = Ok () ->
     reg' = (reg_delete entry_key reg).1 ∧
     forall prov name dir rev,
       DeleteFiles prov name dir rev ∈ log' -> DeleteFiles prov name dir rev ∉ log ->
       delete_ok (DeleteFiles prov name dir rev) = true).
Proof.
  intros Hev. unfold evict_model in Hev.
  destruct (reg_record entry_key reg) as [[record|]|e]; [|split; [set_solver|by simplify_eq]..].
  destruct (reg_list None reg) as [siblings|e]; [|split; [set_solver|by simplify_eq]].
  destruct (delete_revision _ _) as [rv|].
  - set (act := DeleteFiles _ _ _ rv) in *. destruct (delete_ok act) eqn:Hok.
    + destruct (reg_delete entry_key reg) as [reg2 r2] eqn:Ed. simplify_eq.
      assert (forall prov name dir rev,
        DeleteFiles prov name dir rev ∈ (log ++ [act]) ++
          [RemoveManifest (cache_dir (parse entry_key) cache_directory) entry_key] ->
        DeleteFiles prov name dir rev ∉ log -> delete_ok (DeleteFiles prov name dir rev) = true)
        as Hnew.
      { intros prov name dir rev Hin Hnot. rewrite <- Hok. f_equal. set_solver. }
      split; [|done]. intros prov name dir rev Hin Hnot Hf. by rewrite Hnew in Hf.
    + simplify_eq. split; [done|by intros].
  - destruct (reg_delete entry_key reg) as [reg2 r2] eqn:Ed. simplify_eq.
    split; [intros; set_solver|]. intros _. split; [done|]. intros; set_solver.
Qed.
End service_facts.

(** ** One cycle over the in-memory registry *)

Section cycle.
Context `{HashIterLaws} `{ChronoSub}.
Context (cache_directory : path) (delete_ok : disk_action -> bool).

(** Removing a list of names from the registry. *)
Definition remove_all (names : list string) (s : InMemoryState) : InMemoryState :=
  foldl (fun s n => Memory.delete_model n s) s names.

Lemma remove_all_lookup names n : forall s,
  models (remove_all names s) !! n = if decide (n ∈ names) then None else models s !! n.
Proof.
  unfold remove_all. induction names as [|x names IH]; intros s; cbn [foldl].
  { case_decide; set_solver. }
  rewrite IH. simpl. rewrite lookup_delete. repeat case_decide; set_solver.
Qed.

Lemma evict_model_memory n s log :
  is_Some (models s !! n) -> (forall act, delete_ok act = true) ->
  ∃ log', evict_model cache_directory delete_ok n (s, log) =
          ((Memory.delete_model n s, log'), Ok ()).
Proof.
  intros [r Hr] Hok. unfold evict_model. simpl. unfold Memory.get_model_record. rewrite Hr.
  destruct (delete_revision _ _); rewrite ?Hok; eauto.
Qed.

Lemma evict_all_memory cands : forall s log,
  NoDup (cand_names cands) -> (forall n, n ∈ cand_names cands -> is_Some (models s !! n)) ->
  (forall act, delete_ok act = true) ->
  ∃ log', evict_all cache_directory delete_ok cands (s, log) =
          ((remove_all (cand_names cands) s, log'), cand_names cands).
Proof.
  induction cands as [|c cands IH]; intros s log Hnd Hin Hok; cbn [evict_all map].
  { by exists log. }
  apply NoDup_cons in Hnd as [Hc Hnd].
  destruct (evict_model_memory (ec_model_name c) s log) as [log1 ->]; [|done|].
  { apply Hin. set_solver. }
  destruct (IH (Memory.delete_model (ec_model_name c) s) log1 Hnd) as [log2 ->].
  - intros n Hn. simpl. rewrite lookup_delete_ne by (intros Heq; subst; done). apply Hin. set_solver.
  - done.
  - by exists log2.
Qed.

Lemma listing_elem s m :
  m ∈ Memory.get_models_by_last_used None s ↔ ∃ n, models s !! n = Some m.
Proof. simpl. rewrite sort_by_key_perm. apply elem_of_hash_values. Qed.

Lemma listing_NoDup s :
  Memory.inv s -> NoDup (map mr_model_name (Memory.get_models_by_last_used None s)).
Proof.
  intros [_ Hm]. simpl. change (NoDup (mr_model_name <$>
    sort_by_key mr_last_used_at (hash_values (models s)))).
  rewrite sort_by_key_perm. unfold hash_values.
  pose proof (NoDup_hash_keys (models s)) as Hnd.
  replace (mr_model_name <$> (hash_entries (models s)).*2)
    with ((hash_entries (models s)).*1); [done|].
  rewrite <- list_fmap_compose. apply list_fmap_ext. intros i [n m] Hi. simpl.
  symmetry. apply Hm, elem_of_hash_entries. by eapply list_elem_of_lookup_2.
Qed.

(** C18: one eviction cycle over the in-memory registry, with every file deletion
    succeeding, removes exactly the selected models from the registry, reports
    exactly these, and leaves every other record as it was; in particular no
    record that is [DOWNLOADING] or in [ERROR] is lost. *)
Theorem eviction_cycle_exact now config s log :
  Memory.inv s -> (forall act, delete_ok act = true) ->
  (Z.of_nat (size (models s)) <= u32_max)%Z ->
  let sel := cand_names (select_for_eviction now (Memory.get_models_by_last_used None s) config) in
  ∃ s' log' res,
    run_eviction_cycle cache_directory delete_ok now config (s, log) = ((s', log'), Ok res) ∧
    evicted_models res = sel ∧ evicted_count res = Z.of_nat (length sel) ∧
    (forall n, models s' !! n = if decide (n ∈ sel) then None else models s !! n) ∧
    (forall n r, models s !! n = Some r -> mr_status r ≠ DOWNLOADED -> models s' !! n = Some r).
Proof.
  intros Hinv Hok Hsize sel.
  set (listing := Memory.get_models_by_last_used None s) in *.
  pose proof (listing_NoDup s Hinv) as Hnd.
  assert (NoDup sel) as Hsel by by apply select_NoDup.
  assert (forall n, n ∈ sel -> ∃ r, models s !! n = Some r ∧ mr_status r = DOWNLOADED) as Hin.
  { intros n (m & [n' Hm]%listing_elem & Hd & He & _)%select_name.
    exists m. apply bool_decide_eq_true in Hd. split; [|done].
    destruct Hinv as [_ Hname]. specialize (Hname n' m Hm). congruence. }
  assert (length sel <= size (models s)) as Hlen.
  { rewrite <- size_dom. rewrite <- (size_list_to_set (C := gset string) sel) by done.
    apply subseteq_size. intros n Hn%elem_of_list_to_set.
    destruct (Hin n Hn) as (r & Hr & _). by apply elem_of_dom_2 in Hr. }
  assert (Z.of_nat (length sel) mod (u32_max + 1) = Z.of_nat (length sel))%Z as Hmod.
  { apply Z.mod_small. unfold u32_max in *. lia. }
  assert (forall n r, models s !! n = Some r -> mr_status r ≠ DOWNLOADED -> n ∉ sel) as Hkeep.
  { intros n r Hr Hst Hn. destruct (Hin n Hn) as (r' & Hr' & ?). congruence. }
  unfold run_eviction_cycle. cbn [fst]. unfold reg_list at 1, memory_registry at 1. fold listing.
  assert (length (select_for_eviction now listing config) = length sel) as -> by
    (unfold sel; by rewrite length_map).
  rewrite Hmod. destruct (Z.eqb_spec (Z.of_nat (length sel)) 0) as [Hz|Hz].
  - assert (sel = []) as Hnil by (apply length_zero_iff_nil; lia).
    eexists _, _, _. split; [reflexivity|]. rewrite Hnil. simpl. split_and!; try done.
  - destruct (evict_all_memory (select_for_eviction now listing config) s log) as [log' ->];
      [done| |done|].
    { intros n Hn. destruct (Hin n Hn) as (r & -> & _). eauto. }
    eexists _, _, _. split; [reflexivity|]. simpl. split_and!; [done|done| |].
    + intros n. apply remove_all_lookup.
    + intros n r Hr Hst. rewrite remove_all_lookup, decide_False; [done|]. by eapply Hkeep.
Qed.
End cycle.

(** ** Witnesses: two revisions of one model *)

Definition rev_key (r : string) : string := to_string (MkEntryKey None "org/m" (Some r) false).

Definition two_revisions : InMemoryState :=
  Memory.set_status 20 (rev_key "r2") HuggingFace DOWNLOADED None
    (Memory.set_status 10 (rev_key "r1") HuggingFace DOWNLOADED None Memory.new).

Lemma two_revisions_inv : Memory.inv two_revisions.
Proof.
  unfold two_revisions.
  apply (Memory.change_spec _ (rev_key "r2") _ _
           (Memory.set_status_change 20 _ HuggingFace DOWNLOADED None _
              (proj1 (Memory.change_spec _ _ _ _
                 (Memory.set_status_change 10 (rev_key "r1") HuggingFace DOWNLOADED None _
                    Memory.inv_new) Memory.inv_new)))).
  apply (Memory.change_spec _ _ _ _
    (Memory.set_status_change 10 (rev_key "r1") HuggingFace DOWNLOADED None _ Memory.inv_new)
    Memory.inv_new).
Qed.

Definition sample_root : path := components "/cache".

Definition evict_r1 :=
  evict_model sample_root (fun _ => true) (rev_key "r1") (two_revisions, []).

Lemma evict_spares_survivors_witness :
  Some "r1" ≠ None ∧ ek_revision (parse (rev_key "r2")) ≠ None ∧
  ek_revision (parse (rev_key "r2")) ≠ Some "r1".
Proof.
  apply (evict_spares_survivors sample_root (fun _ => true) (rev_key "r1") two_revisions
    evict_r1.1.1 [] evict_r1.1.2 evict_r1.2
    (Memory.get_models_by_last_used None two_revisions) HuggingFace "org/m" sample_root
    (Some "r1")).
  - reflexivity.
  - vm_compute. reflexivity.
  - apply (bool_decide_unpack _). vm_compute. exact I.
  - set_solver.
  - exists (MkModelRecord (rev_key "r2") HuggingFace DOWNLOADED 20 20 None).
    split; [apply (bool_decide_unpack _); vm_compute; exact I|].
    split; [vm_compute; discriminate|split; [reflexivity|split; reflexivity]].
Defined.

Definition evict_r1_failing :=
  evict_model sample_root (fun _ => false) (rev_key "r1") (two_revisions, []).

Lemma evict_delete_before_record_witness :
  evict_r1_failing.1.1 = two_revisions ∧ evict_r1_failing.2 = Err (DeleteFailed (rev_key "r1")).
Proof.
  refine (proj1 (evict_delete_before_record sample_root (fun _ => false) (rev_key "r1")
    two_revisions evict_r1_failing.1.1 [] evict_r1_failing.1.2 evict_r1_failing.2 _)
    HuggingFace "org/m" sample_root (Some "r1") _ _ _).
  - vm_compute. reflexivity.
  - apply (bool_decide_unpack _). vm_compute. exact I.
  - set_solver.
  - reflexivity.
Defined.

Lemma eviction_cycle_exact_witness :
  ∃ s' log' res,
    run_eviction_cycle sample_root (fun _ => true) (fun _ => 30%Z) (MkLruConfig 100 (Some 1%Z) None)
      (two_revisions, []) = ((s', log'), Ok res) ∧
    evicted_models res = [rev_key "r1"].
Proof.
  destruct (eviction_cycle_exact sample_root (fun _ => true) (fun _ => 30%Z)
    (MkLruConfig 100 (Some 1%Z) None) two_revisions [] two_revisions_inv) as (s' & log' & res & Hrun & Hev & _).
  - reflexivity.
  - vm_compute. discriminate.
  - exists s', log', res. split; [exact Hrun|]. rewrite Hev. vm_compute. reflexivity.
Defined.
