(* ===== verification/P2pTypes.v ===== *)
(** * P2P metadata: records and conversions (p2p/backend.rs, p2p.proto)

    The gRPC messages of the P2P service, the records that the backends keep,
    and the conversions between them.  [f32] values are finite rationals,
    infinities or NaN: the code only stores them, tests [is_finite] and clamps. *)

From Stdlib Require Import ZArith Lia Ascii String QArith.
From stdpp Require Import base tactics option list gmap fin_maps strings.
From S2P Require Import Prelude RustStr RedisStore.

Inductive f32 : Type :=
| F32Finite (q : Q)
| F32Inf (negative : bool)
| F32NaN.

Definition f32_is_finite (v : f32) : bool :=
  match v with F32Finite _ => true | _ => false end.

(** [v.clamp(0.0, 1.0)]; NaN stays NaN. *)
Definition f32_clamp01 (v : f32) : f32 :=
  match v with
  | F32Finite q =>
      if negb (Qle_bool 0 q) then F32Finite 0
      else if negb (Qle_bool q 1) then F32Finite 1
      else v
  | F32Inf true => F32Finite 0
  | F32Inf false => F32Finite 1
  | F32NaN => F32NaN
  end.

(** [SourceStatus] with its wire values. *)
Inductive SourceStatus : Type := Unknown | Initializing | Ready | Stale.

Definition SourceStatus_i32 (s : SourceStatus) : Z :=
  match s with Unknown => 0 | Initializing => 1 | Ready => 2 | Stale => 3 end.

Definition SourceStatus_try_from (z : Z) : option SourceStatus :=
  if (z =? 0)%Z then Some Unknown
  else if (z =? 1)%Z then Some Initializing
  else if (z =? 2)%Z then Some Ready
  else if (z =? 3)%Z then Some Stale
  else None.

#[export] Instance SourceStatus_eq_dec : EqDecision SourceStatus.
Proof. solve_decision. Defined.

(** ** Messages *)

Record SourceIdentity : Type := MkSourceIdentity {
  si_mx_version : string;
  si_mx_source_type : Z;
  si_model_name : string;
  si_backend_framework : Z;
  si_tensor_parallel_size : Z;
  si_pipeline_parallel_size : Z;
  si_expert_parallel_size : Z;
  si_dtype : string;
  si_quantization : string;
  si_extra_parameters : gmap string string;
  si_revision : string;
  si_backend_framework_version : string;
  si_torch_version : string;
  si_cuda_version : string;
  si_triton_version : string;
  si_gpu_arch : string;
  si_compile_config_digest : string
}.

Record TensorDescriptor : Type := MkTensorDescriptor {
  td_name : string; td_addr : Z; td_size : Z; td_device_id : Z; td_dtype : string
}.

Record ArtifactSourceMetadata : Type := MkArtifactSourceMetadata {
  am_artifact_id : string; am_total_size : Z; am_file_count : Z; am_chunk_count : Z;
  am_node_rank : Z
}.

Inductive BackendMetadata : Type :=
| NixlMetadata (data : list Byte.byte)
| TransferEngineSessionId (sid : string).

Inductive SourcePayload : Type :=
| TensorSource (tensors : list TensorDescriptor)
| ArtifactSource (artifact : ArtifactSourceMetadata).

Record WorkerMetadata : Type := MkWorkerMetadata {
  wm_worker_rank : Z;
  wm_backend_metadata : option BackendMetadata;
  wm_status : Z;
  wm_updated_at : Z;
  wm_metadata_endpoint : string;
  wm_agent_name : string;
  wm_worker_grpc_endpoint : string;
  wm_accelerator : string;
  wm_topology : gmap string string;
  wm_tensors : list TensorDescriptor;
  wm_source_payload : option SourcePayload
}.

(** ** Records *)

Inductive BackendMetadataRecord : Type :=
| BNixl (data : list Byte.byte)
| BTransferEngine (sid : string)
| BNone.

(** [BackendMetadataRecord::from_flat]: the stored type decides; without a known
    one the fields do. *)
Definition from_flat (nixl_metadata : list Byte.byte)
    (transfer_engine_session_id : option string) (backend_type : option string)
    : BackendMetadataRecord :=
  let infer :=
    match transfer_engine_session_id with
    | Some sid =>
        if negb (str_is_empty sid) then BTransferEngine sid
        else match nixl_metadata with [] => BNone | _ => BNixl nixl_metadata end
    | None => match nixl_metadata with [] => BNone | _ => BNixl nixl_metadata end
    end in
  match backend_type with
  | Some t =>
      if String.eqb t "transfer_engine"
      then BTransferEngine (default "" transfer_engine_session_id)
      else if String.eqb t "nixl" then BNixl nixl_metadata
      else if String.eqb t "none" then BNone
      else infer
  | None => infer
  end.

Definition backend_type_str (b : BackendMetadataRecord) : string :=
  match b with
  | BNixl _ => "nixl"
  | BTransferEngine _ => "transfer_engine"
  | BNone => "none"
  end.

Record TensorRecord : Type := MkTensorRecord {
  tr_name : string; tr_addr : Z; tr_size : Z; tr_device_id : Z; tr_dtype : string
}.

Record ArtifactSourceMetadataRecord : Type := MkArtifactSourceMetadataRecord {
  ar_artifact_id : string; ar_total_size : Z; ar_file_count : Z; ar_chunk_count : Z;
  ar_node_rank : Z
}.

Record WorkerRecord : Type := MkWorkerRecord {
  wr_worker_rank : Z;
  wr_backend_metadata : BackendMetadataRecord;
  wr_tensors : list TensorRecord;
  wr_status : Z;
  wr_updated_at : Z;
  wr_metadata_endpoint : string;
  wr_agent_name : string;
  wr_worker_grpc_endpoint : string;
  wr_accelerator : string;
  wr_source_load : option f32;
  wr_topology : gmap string string;
  wr_artifact_source : option ArtifactSourceMetadataRecord
}.

Record ModelMetadataRecord : Type := MkModelMetadataRecord {
  mm_source_id : string;
  mm_worker_id : string;
  mm_model_name : string;
  mm_workers : list WorkerRecord;
  mm_published_at : Z;
  mm_owner_namespace : option string;
  mm_identity : option SourceIdentity
}.

Record SourceInstanceInfo : Type := MkSourceInstanceInfo {
  ii_source_id : string;
  ii_worker_id : string;
  ii_model_name : string;
  ii_worker_rank : Z;
  ii_status : Z;
  ii_updated_at : Z;
  ii_accelerator : string;
  ii_source_load : option f32;
  ii_topology : gmap string string;
  ii_training_step : option Z;
  ii_layout_signature : option string;
  ii_owner_namespace : option string
}.

(** ** Conversions *)

Definition TensorRecord_from (d : TensorDescriptor) : TensorRecord :=
  MkTensorRecord (td_name d) (td_addr d) (td_size d) (td_device_id d) (td_dtype d).

Definition TensorDescriptor_from (r : TensorRecord) : TensorDescriptor :=
  MkTensorDescriptor (tr_name r) (tr_addr r) (tr_size r) (tr_device_id r) (tr_dtype r).

Definition ArtifactRecord_from (m : ArtifactSourceMetadata) : ArtifactSourceMetadataRecord :=
  MkArtifactSourceMetadataRecord (am_artifact_id m) (am_total_size m) (am_file_count m)
    (am_chunk_count m) (am_node_rank m).

Definition ArtifactMetadata_from (r : ArtifactSourceMetadataRecord) : ArtifactSourceMetadata :=
  MkArtifactSourceMetadata (ar_artifact_id r) (ar_total_size r) (ar_file_count r)
    (ar_chunk_count r) (ar_node_rank r).

(** [From<WorkerMetadata> for WorkerRecord]. *)
Definition WorkerRecord_from (m : WorkerMetadata) : WorkerRecord :=
  let backend_metadata :=
    match wm_backend_metadata m with
    | Some (NixlMetadata data) => BNixl data
    | Some (TransferEngineSessionId sid) => BTransferEngine sid
    | None => BNone
    end in
  let '(tensors, artifact_source) :=
    match wm_source_payload m with
    | Some (TensorSource ts) => (ts, None)
    | Some (ArtifactSource a) => ([], Some (ArtifactRecord_from a))
    | None => (wm_tensors m, None)
    end in
  MkWorkerRecord (wm_worker_rank m) backend_metadata (map TensorRecord_from tensors)
    (wm_status m) (wm_updated_at m) (wm_metadata_endpoint m) (wm_agent_name m)
    (wm_worker_grpc_endpoint m) (wm_accelerator m) None (wm_topology m) artifact_source.

(** [From<WorkerRecord> for WorkerMetadata]. *)
Definition WorkerMetadata_from (r : WorkerRecord) : WorkerMetadata :=
  let tensors := map TensorDescriptor_from (wr_tensors r) in
  let '(legacy_tensors, source_payload) :=
    match wr_artifact_source r with
    | Some a => ([], ArtifactSource (ArtifactMetadata_from a))
    | None => (tensors, TensorSource tensors)
    end in
  let backend_metadata :=
    match wr_backend_metadata r with
    | BNixl data => Some (NixlMetadata data)
    | BTransferEngine sid => Some (TransferEngineSessionId sid)
    | BNone => None
    end in
  MkWorkerMetadata (wr_worker_rank r) backend_metadata (wr_status r) (wr_updated_at r)
    (wr_metadata_endpoint r) (wr_agent_name r) (wr_worker_grpc_endpoint r) (wr_accelerator r)
    (wr_topology r) legacy_tensors (Some source_payload).

(** [value.parse::<u64>().ok()]: digits after an optional plus sign, in range. *)
Definition parse_u64 (s : string) : option Z :=
  let digits := default s (strip_prefix "+" s) in
  if str_is_empty digits then None
  else z ← parse_digits 0 digits; if (z <=? u64_max)%Z then Some z else None.

Definition parse_training_step (extra_parameters : gmap string string) : option Z :=
  value ← (match extra_parameters !! "training_step" with
           | Some v => Some v
           | None => extra_parameters !! "version"
           end);
  parse_u64 value.

Definition parse_layout_signature (extra_parameters : gmap string string) : option string :=
  value ← extra_parameters !! "layout_signature";
  if str_is_empty value then None else Some value.

(** ** Round trips *)

Lemma tensor_roundtrip ts : map TensorRecord_from (map TensorDescriptor_from ts) = ts.
Proof. rewrite map_map. erewrite map_ext; [apply map_id|]. by intros []. Qed.

(** A record that the service can have stored: an artifact source carries no
    tensors, and the load only arrives through status updates. *)
Definition record_payload_ok (r : WorkerRecord) : Prop :=
  wr_artifact_source r ≠ None -> wr_tensors r = [].

Definition without_load (r : WorkerRecord) : WorkerRecord :=
  MkWorkerRecord (wr_worker_rank r) (wr_backend_metadata r) (wr_tensors r) (wr_status r)
    (wr_updated_at r) (wr_metadata_endpoint r) (wr_agent_name r) (wr_worker_grpc_endpoint r)
    (wr_accelerator r) None (wr_topology r) (wr_artifact_source r).

(** A worker record survives the trip through the gRPC message: decoding what
    the server sends gives the record back, except for the load, which the
    message does not carry; and every record that the server decodes from a
    publish request has the shape the round trip needs. *)
Lemma worker_record_roundtrip r :
  record_payload_ok r ->
  WorkerRecord_from (WorkerMetadata_from r) = without_load r ∧
  forall m, record_payload_ok (WorkerRecord_from m).
Proof.
  intros Hok. split.
  - unfold WorkerRecord_from, WorkerMetadata_from, without_load, record_payload_ok in *.
    destruct r as [rank [] tensors ? ? ? ? ? ? ? ? [[]|]]; simpl in *;
      rewrite ?Hok by done; rewrite ?tensor_roundtrip; done.
  - intros m. unfold record_payload_ok, WorkerRecord_from.
    by destruct (wm_source_payload m) as [[]|].
Qed.

Lemma worker_record_roundtrip_witness :
  WorkerRecord_from (WorkerMetadata_from
    (MkWorkerRecord 3 (BTransferEngine "h:1") [MkTensorRecord "w" 10 20 0 "bf16"] 2 5 "e" "a" "g"
       "cuda" (Some (F32Finite 1)) ∅ None)) =
  MkWorkerRecord 3 (BTransferEngine "h:1") [MkTensorRecord "w" 10 20 0 "bf16"] 2 5 "e" "a" "g"
    "cuda" None ∅ None.
Proof.
  apply (worker_record_roundtrip
    (MkWorkerRecord 3 (BTransferEngine "h:1") [MkTensorRecord "w" 10 20 0 "bf16"] 2 5 "e" "a" "g"
       "cuda" (Some (F32Finite 1)) ∅ None)).
  intros []. reflexivity.
Defined.

(** The flat fields that the Redis and Kubernetes backends persist. *)
Definition flat_nixl (b : BackendMetadataRecord) : list Byte.byte :=
  match b with BNixl d => d | _ => [] end.
Definition flat_session (b : BackendMetadataRecord) : option string :=
  match b with BTransferEngine s => Some s | _ => None end.

(** Backend metadata survives the flat form: with the stored type it comes
    back exactly, and without one (records of older servers) it comes back
    whenever it carries data. *)
Lemma from_flat_roundtrip b :
  from_flat (flat_nixl b) (flat_session b) (Some (backend_type_str b)) = b ∧
  (flat_nixl b ≠ [] ∨ (∃ s, flat_session b = Some s ∧ s ≠ "") ∨ b = BNone ->
   from_flat (flat_nixl b) (flat_session b) None = b).
Proof.
  split; [by destruct b|].
  destruct b as [[|x d]|[|c s]|]; simpl; try done; naive_solver.
Qed.

Lemma from_flat_roundtrip_witness :
  from_flat [] (Some "h:1") None = BTransferEngine "h:1".
Proof.
  apply (from_flat_roundtrip (BTransferEngine "h:1")). right; left.
  exists "h:1". split; [reflexivity|discriminate].
Defined.
