(* ===== verification/SourceIdentityHash.v ===== *)
(** * Source identity hashing (p2p/source_identity.rs)

    The normalisation that makes [mx_source_id] independent of letter case and
    of the iteration order of the parameter map.  The JSON text and its SHA-256
    are library code: [id_digest] stands for the two together, a function of
    the normalised payload. *)

From Stdlib Require Import ZArith Lia Ascii String.
From stdpp Require Import base tactics option list sorting gmap fin_maps strings.
From S2P Require Import Prelude RustStr P2pTypes.

(** ** Byte order on strings *)

Lemma string_leb_trans a b c :
  String.leb a b = true -> String.leb b c = true -> String.leb a c = true.
Proof.
  unfold String.leb. revert b c.
  induction a as [|x a IH]; intros [|y b] [|z c]; simpl; try done.
  unfold Ascii.compare. specialize (IH b c).
  destruct (N.compare_spec (N_of_ascii x) (N_of_ascii y)),
    (N.compare_spec (N_of_ascii y) (N_of_ascii z)),
    (N.compare_spec (N_of_ascii x) (N_of_ascii z)); try done; try lia; auto.
Qed.

(** [items.sort_by(|a, b| a.0.cmp(b.0))]. *)
Definition sort_by_fst {V} (l : list (string * V)) : list (string * V) :=
  sort_by (fun a b => String.leb a.1 b.1) l.

Lemma sort_by_fst_sorted {V} (l : list (string * V)) :
  StronglySorted (fun a b => String.leb a.1 b.1 = true) (sort_by_fst l).
Proof.
  apply sort_by_sorted.
  - intros x y. apply String.leb_total.
  - intros x y z. apply string_leb_trans.
Qed.

(** With distinct keys the sorted list does not depend on the input order. *)
Lemma sort_by_fst_perm {V} (l l' : list (string * V)) :
  NoDup l.*1 -> l ≡ₚ l' -> sort_by_fst l = sort_by_fst l'.
Proof.
  intros Hnd Hp.
  apply (StronglySorted_unique_strong (fun a b => String.leb a.1 b.1 = true));
    [|apply sort_by_fst_sorted..|by unfold sort_by_fst; rewrite !sort_by_perm].
  intros [k v] [k' v'] Hx Hy Hle Hge. simpl in *.
  pose proof (String.leb_antisym _ _ Hle Hge) as <-.
  unfold sort_by_fst in *. rewrite sort_by_perm in Hx, Hy. rewrite <- Hp in Hy.
  f_equal. clear -Hnd Hx Hy.
  induction l as [|[k0 v0] l IH]; [set_solver|]. simpl in Hnd.
  apply NoDup_cons in Hnd as [Hk Hnd].
  assert (forall w, (k0, w) ∈ l -> False) as Hno.
  { intros w Hw. apply Hk. apply list_elem_of_fmap. by exists (k0, w). }
  apply elem_of_cons in Hx as [Hx|Hx], Hy as [Hy|Hy]; simplify_eq; naive_solver.
Qed.

(** ** Normalisation *)

(** [str::to_lowercase], the Unicode mapping of the standard library. *)
Class ToLowercase := { to_lowercase : string -> string }.

#[export] Instance ascii_lowercase : ToLowercase | 100 :=
  {| to_lowercase := str_map to_ascii_lowercase |}.

(** The payload that is serialised: scalar fields in the order of the code, the
    parameters, and the optional fields that are present. *)
Record canonical : Type := MkCanonical {
  ca_mx_version : string;
  ca_mx_source_type : Z;
  ca_model_name : string;
  ca_backend_framework : Z;
  ca_tensor_parallel_size : Z;
  ca_pipeline_parallel_size : Z;
  ca_expert_parallel_size : Z;
  ca_dtype : string;
  ca_quantization : string;
  ca_extra_parameters : gmap string string;
  ca_revision : string;
  ca_optional : list (string * string)
}.

Section identity.
Context `{ToLowercase}.

(** [sorted_extra.entry(lk).or_insert_with(|| v.to_lowercase())]. *)
Definition or_insert_lower (m : gmap string string) (kv : string * string) : gmap string string :=
  let lk := to_lowercase kv.1 in
  match m !! lk with
  | Some _ => m
  | None => <[lk := to_lowercase kv.2]> m
  end.

Definition insert_non_empty_lowercase (key value : string) : list (string * string) :=
  if str_is_empty value then [] else [(key, to_lowercase value)].

Definition canonical_json `{HashIter} (i : SourceIdentity) : canonical :=
  let items := sort_by_fst (hash_entries (si_extra_parameters i)) in
  let sorted_extra := foldl or_insert_lower ∅ items in
  MkCanonical
    (to_lowercase (si_mx_version i)) (si_mx_source_type i) (to_lowercase (si_model_name i))
    (si_backend_framework i) (si_tensor_parallel_size i) (si_pipeline_parallel_size i)
    (si_expert_parallel_size i) (to_lowercase (si_dtype i)) (to_lowercase (si_quantization i))
    sorted_extra (to_lowercase (si_revision i))
    (insert_non_empty_lowercase "backend_framework_version" (si_backend_framework_version i)
     ++ insert_non_empty_lowercase "torch_version" (si_torch_version i)
     ++ insert_non_empty_lowercase "cuda_version" (si_cuda_version i)
     ++ insert_non_empty_lowercase "triton_version" (si_triton_version i)
     ++ insert_non_empty_lowercase "gpu_arch" (si_gpu_arch i)
     ++ insert_non_empty_lowercase "compile_config_digest" (si_compile_config_digest i)).

(** [validate_identity]. *)
Definition validate_identity (i : SourceIdentity) : result unit string :=
  if str_is_empty (si_model_name i) then Err "identity.model_name is required" else Ok ().

End identity.

(** The serialised text hashed and cut to 16 characters, or a digest failure. *)
Class IdDigest := { id_digest : canonical -> result string string }.

Definition compute_mx_source_id `{ToLowercase, HashIter, IdDigest} (i : SourceIdentity)
    : result string string :=
  id_digest (canonical_json i).

(** [mx_source_id] is a function of the identity: two processes that iterate
    the parameter map in different orders compute the same id, also when
    parameter keys collide after lowercasing. *)
Lemma source_id_order_independent `{ToLowercase, IdDigest} (h1 h2 : HashIter)
    (l1 : @HashIterLaws h1) (l2 : @HashIterLaws h2) (i : SourceIdentity) :
  @compute_mx_source_id _ h1 _ i = @compute_mx_source_id _ h2 _ i.
Proof.
  unfold compute_mx_source_id, canonical_json.
  rewrite (sort_by_fst_perm (@hash_entries h1 _ (si_extra_parameters i))
             (@hash_entries h2 _ (si_extra_parameters i))); [done| |].
  - apply (NoDup_hash_keys (H := h1)).
  - by rewrite (hash_entries_perm (H := h1)), (hash_entries_perm (H := h2)).
Qed.

(** An iteration in reverse order, and a digest that keeps the whole name. *)
Definition reverse_iter : HashIter := {| hash_entries A m := reverse (map_to_list m) |}.

Lemma reverse_iter_laws : @HashIterLaws reverse_iter.
Proof. split. intros A m. simpl. apply reverse_Permutation. Qed.

Definition name_digest : IdDigest := {| id_digest c := Ok (ca_model_name c) |}.

Definition sample_identity (name : string) : SourceIdentity :=
  MkSourceIdentity "1" 0 name 1 1 1 1 "bf16" "" (list_to_map [("Step", "1"); ("step", "2")]) ""
    "" "" "" "" "" "".

Lemma source_id_order_independent_witness :
  @compute_mx_source_id _ map_to_list_iter name_digest (sample_identity "Org/M") =
  @compute_mx_source_id _ reverse_iter name_digest (sample_identity "Org/M").
Proof.
  apply (source_id_order_independent (H0 := name_digest) map_to_list_iter reverse_iter
           map_to_list_iter_laws reverse_iter_laws).
Defined.
