(* ===== verification/P2pBackend.v ===== *)
(** * P2P metadata backends (p2p/backend.rs, p2p/backend/memory.rs, p2p/state.rs)

    The [MetadataBackend] trait as an interface, the default
    [list_workers_filtered], and the in-memory backend: one definition per
    operation, each an atomic step under the mutex. *)

From Stdlib Require Import ZArith Lia Ascii String.
From stdpp Require Import base tactics option list sorting gmap fin_maps strings.
From S2P Require Import Prelude RustStr P2pTypes SourceIdentityHash.

(** ** The trait *)

Class MetadataBackend (St E : Type) := {
  mb_publish : SourceIdentity -> string -> WorkerMetadata -> option string -> St ->
               St * result unit E;
  mb_get : string -> string -> St -> result (option ModelMetadataRecord) E;
  mb_list : option string -> option SourceStatus -> St -> result (list SourceInstanceInfo) E;
  mb_remove_metadata : string -> St -> St * result unit E;
  mb_remove_worker : string -> string -> St -> St * result unit E;
  mb_list_sources : St -> result (list (string * string)) E;
  mb_update_status : string -> string -> Z -> SourceStatus -> Z -> option f32 -> St ->
                     St * result unit E
}.

(** The optional predicates of a listing. *)
Record list_filter : Type := MkListFilter {
  lf_model_name : option string;
  lf_worker_rank : option Z;
  lf_min_training_step : option Z;
  lf_min_updated_at : option Z
}.

Definition is_none_or {A} (P : A -> bool) (o : option A) : bool :=
  match o with Some a => P a | None => true end.

Definition is_some_and {A} (P : A -> bool) (o : option A) : bool :=
  match o with Some a => P a | None => false end.

Definition retain_worker (f : list_filter) (w : SourceInstanceInfo) : bool :=
  is_none_or (fun m => String.eqb (ii_model_name w) m) (lf_model_name f)
  && is_none_or (fun r => (ii_worker_rank w =? r)%Z) (lf_worker_rank f)
  && is_none_or (fun s => is_some_and (fun v => (s <=? v)%Z) (ii_training_step w))
       (lf_min_training_step f)
  && is_none_or (fun t => (t <=? ii_updated_at w)%Z) (lf_min_updated_at f).

(** [sort_by_key(|w| Reverse(w.updated_at))]: most recently updated first. *)
Definition sort_recent (l : list SourceInstanceInfo) : list SourceInstanceInfo :=
  sort_by_key (fun w => (- ii_updated_at w)%Z) l.

(** [limit.filter(|value| *value > 0)], then [truncate]. *)
Definition truncate_opt {A} (limit : option Z) (l : list A) : list A :=
  match limit with
  | Some n => if (0 <? n)%Z then take (Z.to_nat n) l else l
  | None => l
  end.

Section trait.
Context {St E : Type} `{MetadataBackend St E}.

Definition list_workers_filtered (source_id : option string)
    (status_filter : option SourceStatus) (f : list_filter) (limit : option Z) (s : St)
    : result (list SourceInstanceInfo) E :=
  let? workers := mb_list source_id status_filter s in
  Ok (truncate_opt limit (sort_recent (List.filter (retain_worker f) workers))).

(** [P2pStateManager::update_worker_status] stamps the update with the server's
    clock. *)
Definition update_worker_status (now_ms : Z) (source_id worker_id : string) (worker_rank : Z)
    (status : SourceStatus) (source_load : option f32) (s : St) : St * result unit E :=
  mb_update_status source_id worker_id worker_rank status now_ms source_load s.
End trait.

(** ** The in-memory backend *)

Module MemMeta.

Record WorkerEntry : Type := MkWorkerEntry {
  ranks : gmap Z WorkerRecord;
  index_rank : Z;
  we_owner_namespace : option string
}.

Record SourceEntry : Type := MkSourceEntry {
  se_model_name : string;
  se_extra_parameters : gmap string string;
  se_identity : option SourceIdentity;
  se_workers : gmap string WorkerEntry
}.

Abbreviation state := (gmap string SourceEntry).

Definition new : state := ∅.

Definition default_worker : WorkerEntry := MkWorkerEntry ∅ 0 None.
Definition default_source : SourceEntry := MkSourceEntry "" ∅ None ∅.

(** The values of a [BTreeMap], in key order. *)
Definition btree_values (m : gmap Z WorkerRecord) : list WorkerRecord :=
  (sort_by_key fst (map_to_list m)).*2.

Section operations.
Context `{HashIter} `{ToLowercase} `{IdDigest}.
Implicit Types s : state.

Definition publish_metadata (identity : SourceIdentity) (worker_id : string)
    (worker : WorkerMetadata) (owner_namespace : option string) (s : state)
    : state * result unit string :=
  match compute_mx_source_id identity with
  | Err e => (s, Err e)
  | Ok source_id =>
      let record := WorkerRecord_from worker in
      let rank := wr_worker_rank record in
      let source := default default_source (s !! source_id) in
      let entry := default default_worker (se_workers source !! worker_id) in
      let entry := MkWorkerEntry (<[rank := record]> (ranks entry)) rank owner_namespace in
      (<[source_id := MkSourceEntry (si_model_name identity) (si_extra_parameters identity)
                        (Some identity) (<[worker_id := entry]> (se_workers source))]> s,
       Ok ())
  end.

(** The stored worker, if any. *)
Definition lookup_worker (source_id worker_id : string) (s : state) : option WorkerEntry :=
  source ← s !! source_id; se_workers source !! worker_id.

Definition get_metadata (source_id worker_id : string) (s : state)
    : option ModelMetadataRecord :=
  source ← s !! source_id;
  entry ← se_workers source !! worker_id;
  if bool_decide (ranks entry = ∅) then None
  else Some (MkModelMetadataRecord source_id worker_id (se_model_name source)
               (btree_values (ranks entry)) 0 (we_owner_namespace entry) (se_identity source)).

(** The entry that [list_workers] reports for one worker. *)
Definition worker_info (sid : string) (source : SourceEntry) (worker_id : string)
    (entry : WorkerEntry) : SourceInstanceInfo :=
  let reported :=
    match ranks entry !! index_rank entry with
    | Some r => Some r
    | None => head (btree_values (ranks entry))
    end in
  let '(status, updated_at, accelerator, source_load, topology) :=
    match reported with
    | None => (0%Z, 0%Z, "", None, ∅)
    | Some r => (wr_status r, wr_updated_at r, wr_accelerator r, wr_source_load r, wr_topology r)
    end in
  MkSourceInstanceInfo sid worker_id (se_model_name source) (index_rank entry) status updated_at
    accelerator source_load topology (parse_training_step (se_extra_parameters source))
    (parse_layout_signature (se_extra_parameters source)) (we_owner_namespace entry).

Definition status_matches (status_filter : option SourceStatus) (entry : WorkerEntry) : bool :=
  is_none_or (fun st => existsb (fun r => (wr_status r =? SourceStatus_i32 st)%Z)
                          (btree_values (ranks entry))) status_filter.

Definition list_workers (source_id : option string) (status_filter : option SourceStatus)
    (s : state) : list SourceInstanceInfo :=
  flat_map (fun '(sid, source) =>
    if is_none_or (fun f => String.eqb sid f) source_id
    then map (fun '(worker_id, entry) => worker_info sid source worker_id entry)
           (List.filter (fun '(_, entry) => status_matches status_filter entry)
              (hash_entries (se_workers source)))
    else []) (hash_entries s).

Definition remove_metadata (source_id : string) (s : state) : state := delete source_id s.

Definition remove_worker (source_id worker_id : string) (s : state) : state :=
  match s !! source_id with
  | None => s
  | Some source =>
      let workers := delete worker_id (se_workers source) in
      if bool_decide (workers = ∅) then delete source_id s
      else <[source_id := MkSourceEntry (se_model_name source) (se_extra_parameters source)
                            (se_identity source) workers]> s
  end.

Definition list_sources (s : state) : list (string * string) :=
  map (fun '(sid, source) => (sid, se_model_name source)) (hash_entries s).

Definition with_status (r : WorkerRecord) (status : SourceStatus) (updated_at : Z)
    (source_load : option f32) : WorkerRecord :=
  MkWorkerRecord (wr_worker_rank r) (wr_backend_metadata r) (wr_tensors r)
    (SourceStatus_i32 status) updated_at (wr_metadata_endpoint r) (wr_agent_name r)
    (wr_worker_grpc_endpoint r) (wr_accelerator r) source_load (wr_topology r)
    (wr_artifact_source r).

Definition update_status (source_id worker_id : string) (worker_rank : Z)
    (status : SourceStatus) (updated_at : Z) (source_load : option f32) (s : state)
    : state * result unit string :=
  match s !! source_id with
  | None => (s, Err "rank not found")
  | Some source =>
      match se_workers source !! worker_id with
      | None => (s, Err "rank not found")
      | Some entry =>
          match ranks entry !! worker_rank with
          | None => (s, Err "rank not found")
          | Some record =>
              let entry := MkWorkerEntry
                (<[worker_rank := with_status record status updated_at source_load]> (ranks entry))
                (index_rank entry) (we_owner_namespace entry) in
              (<[source_id := MkSourceEntry (se_model_name source) (se_extra_parameters source)
                   (se_identity source) (<[worker_id := entry]> (se_workers source))]> s,
               Ok ())
          end
      end
  end.

#[export] Instance metadata_backend : MetadataBackend state string := {|
  mb_publish := publish_metadata;
  mb_get sid wid s := Ok (get_metadata sid wid s);
  mb_list src st s := Ok (list_workers src st s);
  mb_remove_metadata sid s := (remove_metadata sid s, Ok ());
  mb_remove_worker sid wid s := (remove_worker sid wid s, Ok ());
  mb_list_sources s := Ok (list_sources s);
  mb_update_status := update_status
|}.

End operations.

(** ** Lookups after each operation *)

Section facts.
Context `{HashIterLaws} `{ToLowercase} `{IdDigest}.
Implicit Types s : state.

Lemma lookup_worker_publish identity wid worker owner s s' sid k w :
  compute_mx_source_id identity = Ok sid ->
  publish_metadata identity wid worker owner s = (s', Ok ()) ->
  lookup_worker k w s' =
  if decide (k = sid ∧ w = wid) then
    Some (MkWorkerEntry
            (<[wm_worker_rank worker := WorkerRecord_from worker]>
               (ranks (default default_worker (lookup_worker sid wid s))))
            (wm_worker_rank worker) owner)
  else lookup_worker k w s.
Proof.
  intros Hid Hpub. unfold publish_metadata in Hpub. rewrite Hid in Hpub.
  injection Hpub as <-. unfold lookup_worker.
  assert (wr_worker_rank (WorkerRecord_from worker) = wm_worker_rank worker) as ->.
  { unfold WorkerRecord_from. by destruct (wm_source_payload worker) as [[]|]. }
  destruct (decide (k = sid)) as [->|Hk].
  - rewrite lookup_insert_eq. simpl. destruct (decide (w = wid)) as [->|Hw].
    + rewrite lookup_insert_eq, decide_True by done. by destruct (s !! sid).
    + rewrite lookup_insert_ne, decide_False by naive_solver. by destruct (s !! sid).
  - rewrite lookup_insert_ne, decide_False by naive_solver. done.
Qed.

Lemma lookup_worker_update sid wid rank st t load s s' r k w :
  update_status sid wid rank st t load s = (s', r) ->
  ~ (k = sid ∧ w = wid) -> lookup_worker k w s' = lookup_worker k w s.
Proof.
  unfold update_status, lookup_worker. intros Hup Hne.
  destruct (s !! sid) as [source|] eqn:Hs; [|by simplify_eq].
  destruct (se_workers source !! wid) as [entry|] eqn:Hw; [|by simplify_eq].
  destruct (ranks entry !! rank) as [record|]; simplify_eq; [|done].
  destruct (decide (k = sid)) as [->|Hk].
  - rewrite lookup_insert_eq, Hs. simpl. by rewrite lookup_insert_ne by naive_solver.
  - by rewrite lookup_insert_ne.
Qed.

Lemma lookup_worker_update_eq sid wid rank st t load s e :
  lookup_worker sid wid s = Some e ->
  lookup_worker sid wid (update_status sid wid rank st t load s).1 =
  Some (match ranks e !! rank with
        | Some r => MkWorkerEntry (<[rank := with_status r st t load]> (ranks e)) (index_rank e)
                      (we_owner_namespace e)
        | None => e
        end).
Proof.
  unfold update_status, lookup_worker. intros He.
  destruct (s !! sid) as [source|] eqn:Hs; [|done]. simpl in He. rewrite He.
  destruct (ranks e !! rank); simpl; [|by rewrite Hs].
  rewrite lookup_insert_eq. simpl. by rewrite lookup_insert_eq.
Qed.

Lemma lookup_worker_remove sid wid s k w :
  lookup_worker k w (remove_worker sid wid s) =
  if decide (k = sid ∧ w = wid) then None else lookup_worker k w s.
Proof.
  unfold remove_worker, lookup_worker. destruct (s !! sid) as [source|] eqn:Hs.
  2:{ case_decide as Hd; [destruct Hd as [-> ->]; by rewrite Hs|done]. }
  destruct (decide (k = sid)) as [->|Hk].
  - assert (delete wid (se_workers source) !! w =
            if decide (sid = sid ∧ w = wid) then None else se_workers source !! w) as Hw.
    { destruct (decide (w = wid)) as [->|Hne].
      - by rewrite lookup_delete_eq, decide_True.
      - by rewrite lookup_delete_ne, decide_False by naive_solver. }
    rewrite Hs. simpl. case_bool_decide as He.
    + rewrite lookup_delete_eq. simpl. by rewrite <- Hw, He, lookup_empty.
    + rewrite lookup_insert_eq. simpl. exact Hw.
  - rewrite decide_False by naive_solver.
    case_bool_decide; [by rewrite lookup_delete_ne|by rewrite lookup_insert_ne].
Qed.

(** Every published worker has at least one rank, and no source is empty. *)
Definition inv s : Prop :=
  (forall sid wid e, lookup_worker sid wid s = Some e -> ranks e ≠ ∅) ∧
  (forall sid source, s !! sid = Some source -> se_workers source ≠ ∅).

Lemma meta_inv_new : inv new.
Proof. split; [intros sid wid e|intros sid source]; unfold lookup_worker, new; by rewrite lookup_empty. Qed.

Lemma inv_insert sid source s :
  inv s -> se_workers source ≠ ∅ ->
  (forall wid e, se_workers source !! wid = Some e -> ranks e ≠ ∅) ->
  inv (<[sid := source]> s).
Proof.
  intros [Hr Hw] Hne Hok. split; intros k; unfold lookup_worker.
  - intros wid e. destruct (decide (k = sid)) as [->|Hk].
    + rewrite lookup_insert_eq. simpl. apply Hok.
    + rewrite lookup_insert_ne by done. apply Hr.
  - intros src. destruct (decide (k = sid)) as [->|Hk].
    + rewrite lookup_insert_eq. by intros [= <-].
    + rewrite lookup_insert_ne by done. apply Hw.
Qed.

Lemma inv_workers sid source wid e s :
  inv s -> s !! sid = Some source -> se_workers source !! wid = Some e -> ranks e ≠ ∅.
Proof. intros [Hr _] Hs Hw. apply (Hr sid wid). unfold lookup_worker. by rewrite Hs. Qed.

Lemma inv_publish identity wid worker owner s :
  inv s -> inv (publish_metadata identity wid worker owner s).1.
Proof.
  intros Hinv. unfold publish_metadata. destruct (compute_mx_source_id identity) as [sid|]; [|done].
  apply inv_insert; [done|apply insert_non_empty|]. simpl.
  intros w e. destruct (decide (w = wid)) as [->|Hne].
  - rewrite lookup_insert_eq. intros [= <-]. apply insert_non_empty.
  - rewrite lookup_insert_ne by done. destruct (s !! sid) as [source|] eqn:Hs; simpl.
    + intros. by eapply inv_workers.
    + by rewrite lookup_empty.
Qed.

Lemma meta_inv_update sid wid rank st t load s :
  inv s -> inv (update_status sid wid rank st t load s).1.
Proof.
  intros Hinv. unfold update_status. destruct (s !! sid) as [source|] eqn:Hs; [|done].
  destruct (se_workers source !! wid) as [entry|] eqn:Hw; [|done].
  destruct (ranks entry !! rank) as [record|]; [|done].
  apply inv_insert; [done|apply insert_non_empty|]. simpl.
  intros w e. destruct (decide (w = wid)) as [->|Hne].
  - rewrite lookup_insert_eq. intros [= <-]. apply insert_non_empty.
  - rewrite lookup_insert_ne by done. intros. by eapply inv_workers.
Qed.

Lemma inv_remove_worker sid wid s : inv s -> inv (remove_worker sid wid s).
Proof.
  intros Hinv. destruct Hinv as [Hr Hw]. split.
  - intros k w e. rewrite lookup_worker_remove. case_decide; [done|]. apply Hr.
  - intros k source. unfold remove_worker. destruct (s !! sid) as [src|] eqn:Hs; [|by apply Hw].
    case_bool_decide as He.
    + intros [_ Hk]%lookup_delete_Some. by eapply Hw.
    + intros [[-> <-]|[_ Hk]]%lookup_insert_Some; [done|]. by eapply Hw.
Qed.

Lemma get_metadata_owner sid wid s r :
  get_metadata sid wid s = Some r ->
  ∃ e, lookup_worker sid wid s = Some e ∧ mm_owner_namespace r = we_owner_namespace e.
Proof.
  unfold get_metadata, lookup_worker. destruct (s !! sid) as [source|]; simpl; [|done].
  destruct (se_workers source !! wid) as [e|]; simpl; [|done].
  case_bool_decide; [done|]. intros [= <-]. by exists e.
Qed.

Lemma get_metadata_none sid wid s :
  inv s -> get_metadata sid wid s = None -> lookup_worker sid wid s = None.
Proof.
  intros [Hinv _]. unfold get_metadata. specialize (Hinv sid wid). unfold lookup_worker in *.
  destruct (s !! sid) as [source|]; simpl; [|done].
  destruct (se_workers source !! wid) as [e|] eqn:Hw; simpl; [|done].
  case_bool_decide as He; [|done]. by destruct (Hinv e Hw).
Qed.

Lemma elem_of_list_workers src st s i :
  i ∈ list_workers src st s ↔
  ∃ sid source wid e,
    s !! sid = Some source ∧ se_workers source !! wid = Some e ∧
    is_none_or (fun f => String.eqb sid f) src = true ∧ status_matches st e = true ∧
    i = worker_info sid source wid e.
Proof.
  unfold list_workers. rewrite list_elem_of_In, in_flat_map. split.
  - intros ([sid source] & Hs & Hi). apply list_elem_of_In, elem_of_hash_entries in Hs.
    destruct (is_none_or _ src) eqn:Hsrc; [|done].
    apply in_map_iff in Hi as ([wid e] & <- & [He Hst]%filter_In).
    apply list_elem_of_In, elem_of_hash_entries in He. eauto 10.
  - intros (sid & source & wid & e & Hs & He & Hsrc & Hst & ->). exists (sid, source).
    split; [by apply list_elem_of_In, elem_of_hash_entries|]. rewrite Hsrc.
    apply in_map_iff. exists (wid, e). split; [done|]. apply filter_In.
    split; [by apply list_elem_of_In, elem_of_hash_entries|done].
Qed.
Lemma worker_info_key sid source wid e :
  ii_source_id (worker_info sid source wid e) = sid ∧
  ii_worker_id (worker_info sid source wid e) = wid ∧
  ii_worker_rank (worker_info sid source wid e) = index_rank e ∧
  ii_owner_namespace (worker_info sid source wid e) = we_owner_namespace e.
Proof.
  unfold worker_info.
  by destruct (match ranks e !! index_rank e with Some _ => _ | None => _ end).
Qed.

(** A listing names each worker once. *)
Lemma list_workers_NoDup src st s :
  NoDup (map (fun i => (ii_source_id i, ii_worker_id i)) (list_workers src st s)).
Proof.
  unfold list_workers. pose proof (NoDup_hash_keys s) as Hnd.
  induction (hash_entries s) as [|[sid source] l IH]; simpl; [constructor|].
  simpl in Hnd. apply NoDup_cons in Hnd as [Hsid Hnd]. rewrite map_app. apply NoDup_app.
  assert (forall x, x ∈ map (fun i => (ii_source_id i, ii_worker_id i))
    (if is_none_or (fun f => String.eqb sid f) src
     then map (fun '(worker_id, entry) => worker_info sid source worker_id entry)
            (List.filter (fun '(_, entry) => status_matches st entry)
               (hash_entries (se_workers source)))
     else []) -> x.1 = sid) as Hfst.
  { intros x (i & -> & Hi)%list_elem_of_fmap. destruct (is_none_or _ src); [|set_solver].
    apply list_elem_of_fmap in Hi as ([w e] & -> & _). apply worker_info_key. }
  split_and!; [| |by apply IH].
  - destruct (is_none_or _ src); [|constructor]. rewrite map_map.
    pose proof (NoDup_hash_keys (se_workers source)) as Hw.
    clear -Hw. induction (hash_entries (se_workers source)) as [|[w e] l IH]; simpl; [constructor|].
    simpl in Hw. apply NoDup_cons in Hw as [Hw Hnd].
    destruct (status_matches st e); [|by apply IH]. simpl. apply NoDup_cons.
    split; [|by apply IH]. intros ([w' e'] & He & Hin)%list_elem_of_fmap.
    assert (w = w') as <-.
    { destruct (worker_info_key sid source w e) as (_ & Hw1 & _).
      destruct (worker_info_key sid source w' e') as (_ & Hw2 & _). congruence. }
    apply list_elem_of_In, filter_In in Hin as [Hin%list_elem_of_In _].
    apply Hw, list_elem_of_fmap. by exists (w, e').
  - intros x Hx Hx'. apply Hfst in Hx.
    apply list_elem_of_fmap in Hx' as (i & -> & Hi). simpl in Hx. subst sid.
    apply list_elem_of_In, in_flat_map in Hi as ([k src'] & Hk & Hi).
    assert (ii_source_id i = k) as Hik.
    { simpl in Hi. destruct (is_none_or (fun f => String.eqb k f) src) in Hi; [|done].
      apply in_map_iff in Hi as ([w e] & <- & _). apply worker_info_key. }
    apply Hsid, list_elem_of_fmap. exists (k, src'). split; [done|]. by apply list_elem_of_In.
Qed.
End facts.

End MemMeta.
