(* ===== verification/P2pService.v ===== *)
(** * P2P service handlers (p2p/service.rs)

    The four RPC handlers over the [MetadataBackend] interface, with every early
    return and the tenant scoping.  A handler answers a gRPC status, or a body
    with the outcome tag that the metrics layer reads.  The caller's verified
    namespace, the clock and the heartbeat timeout are arguments.  Backend errors
    are their [Display] text. *)

From Stdlib Require Import ZArith Lia Ascii String.
From stdpp Require Import base tactics option list sorting gmap fin_maps strings pretty.
From S2P Require Import Prelude RustStr RedisStore P2pTypes SourceIdentityHash P2pBackend.

(** ** Requests and responses *)

Inductive RpcOutcome : Type := OutOk | OutInvalidArgument | OutNotFound | OutBackendError | OutError.
Inductive GrpcStatus : Type := Unauthenticated (message : string).

Record PublishMetadataRequest : Type := MkPublishMetadataRequest {
  pr_identity : option SourceIdentity;
  pr_worker : option WorkerMetadata;
  pr_worker_id : string
}.

Record PublishMetadataResponse : Type := MkPublishMetadataResponse {
  ps_success : bool;
  ps_message : string;
  ps_mx_source_id : string;
  ps_worker_id : string
}.

Record ListSourcesRequest : Type := MkListSourcesRequest {
  lr_identity : option SourceIdentity;
  lr_status_filter : option Z;
  lr_filter : list_filter;
  lr_limit : option Z
}.

Record SourceInstanceRef : Type := MkSourceInstanceRef {
  sr_mx_source_id : string;
  sr_worker_id : string;
  sr_model_name : string;
  sr_worker_rank : Z;
  sr_accelerator : string;
  sr_updated_at : Z;
  sr_training_step : option Z;
  sr_layout_signature : option string;
  sr_source_load : option f32;
  sr_topology : gmap string string
}.

Record GetMetadataRequest : Type := MkGetMetadataRequest {
  gr_mx_source_id : string;
  gr_worker_id : string
}.

Record GetMetadataResponse : Type := MkGetMetadataResponse {
  gs_found : bool;
  gs_worker : option WorkerMetadata;
  gs_mx_source_id : string;
  gs_worker_id : string;
  gs_identity : option SourceIdentity
}.

Record UpdateStatusRequest : Type := MkUpdateStatusRequest {
  ur_mx_source_id : string;
  ur_worker_id : string;
  ur_worker_rank : Z;
  ur_status : Z;
  ur_source_load : option f32
}.

Record UpdateStatusResponse : Type := MkUpdateStatusResponse {
  us_success : bool;
  us_message : string
}.

(** ** Helpers *)

(** [scope_namespace]: the namespace of the verified caller, when isolation is
    on. *)
Definition scope_namespace (tenant_isolation : bool) (caller : option string)
    : result (option string) GrpcStatus :=
  if negb tenant_isolation then Ok None
  else match caller with
       | Some namespace => Ok (Some namespace)
       | None => Err (Unauthenticated "tenant isolation requires an authenticated caller")
       end.

(** [now_ms.saturating_sub(updated_at).max(0) as u64]. *)
Definition age_ms (now_ms updated_at : Z) : Z := Z.max (saturating_sub_i64 now_ms updated_at) 0.

Definition ready_source_is_fresh (now_ms heartbeat_timeout_ms : Z) (info : SourceInstanceInfo)
    : bool :=
  if (ii_updated_at info <=? 0)%Z then false
  else (age_ms now_ms (ii_updated_at info) <=? heartbeat_timeout_ms)%Z.

Definition owner_in_scope (scope owner : option string) : bool :=
  is_none_or (fun namespace => bool_decide (owner = Some namespace)) scope.

Definition worker_tensor_count (w : WorkerMetadata) : nat :=
  match wm_source_payload w with
  | Some (TensorSource ts) => length ts
  | Some (ArtifactSource _) => 0
  | None => length (wm_tensors w)
  end.

Definition source_ref (info : SourceInstanceInfo) : SourceInstanceRef :=
  MkSourceInstanceRef (ii_source_id info) (ii_worker_id info) (ii_model_name info)
    (ii_worker_rank info) (ii_accelerator info) (ii_updated_at info) (ii_training_step info)
    (ii_layout_signature info) (ii_source_load info) (ii_topology info).

Definition publish_failure (message : string) : PublishMetadataResponse :=
  MkPublishMetadataResponse false message "" "".

Section handlers.
Context {St : Type} `{MetadataBackend St string}.
Context `{ToLowercase} `{HashIter} `{IdDigest}.
Context (tenant_isolation : bool).
Implicit Types s : St.

(** ** publish_metadata *)

Definition published_message (model_name source_id worker_id : string) (rank : Z) (tensors : nat)
    : string :=
  "Published metadata for '" +:+ model_name +:+ "' (source_id=" +:+ source_id
  +:+ ", worker_id=" +:+ worker_id +:+ ", worker_rank=" +:+ decimal rank +:+ ", "
  +:+ decimal (Z.of_nat tensors) +:+ " tensors)".

Definition publish_metadata (caller : option string) (req : PublishMetadataRequest) s
    : St * result (PublishMetadataResponse * RpcOutcome) GrpcStatus :=
  match scope_namespace tenant_isolation caller with
  | Err st => (s, Err st)
  | Ok owner_namespace =>
  let invalid m := (s, Ok (publish_failure m, OutInvalidArgument)) in
  match pr_identity req with
  | None => invalid "identity is required"
  | Some ident =>
  match validate_identity ident with
  | Err e => invalid e
  | Ok _ =>
  if str_is_empty (pr_worker_id req) then invalid "worker_id is required" else
  match pr_worker req with
  | None => invalid "worker is required"
  | Some worker =>
  match compute_mx_source_id ident with
  | Err e => (s, Ok (publish_failure ("Failed to compute source id: " +:+ e), OutError))
  | Ok source_id =>
  let worker_id := pr_worker_id req in
  let publish :=
    let '(s', r) := mb_publish ident worker_id worker owner_namespace s in
    match r with
    | Ok _ =>
        (s', Ok (MkPublishMetadataResponse true
                   (published_message (si_model_name ident) source_id worker_id
                      (wm_worker_rank worker) (worker_tensor_count worker))
                   source_id worker_id, OutOk))
    | Err e => (s', Ok (publish_failure ("Failed to publish metadata: " +:+ e), OutBackendError))
    end in
  match owner_namespace with
  | None => publish
  | Some _ =>
      match mb_get source_id worker_id s with
      | Ok (Some record) =>
          if negb (owner_in_scope owner_namespace (mm_owner_namespace record))
          then invalid "worker_id is registered in another namespace"
          else publish
      | Ok None => publish
      | Err e => (s, Ok (publish_failure ("Failed to publish metadata: " +:+ e), OutBackendError))
      end
  end
  end end end end end.

(** ** list_sources *)

(** The optional source filter: an identity without a model name is no filter. *)
Definition source_filter (identity : option SourceIdentity) : result (option string) string :=
  match identity with
  | Some i =>
      if str_is_empty (si_model_name i) then Ok None
      else let? id := compute_mx_source_id i in Ok (Some id)
  | None => Ok None
  end.

(** The workers that a listing keeps, before they become references. *)
Definition visible_workers (scope : option string) (status_filter : option SourceStatus)
    (now_ms heartbeat_timeout_ms : Z) (limit : option Z) (workers : list SourceInstanceInfo)
    : list SourceInstanceInfo :=
  let workers :=
    if bool_decide (status_filter = Some Ready)
    then List.filter (ready_source_is_fresh now_ms heartbeat_timeout_ms) workers
    else workers in
  truncate_opt limit
    (List.filter (fun info => owner_in_scope scope (ii_owner_namespace info)) workers).

Definition list_sources (caller : option string) (now_ms heartbeat_timeout_secs : Z)
    (req : ListSourcesRequest) s
    : result (list SourceInstanceRef * RpcOutcome) GrpcStatus :=
  let? scope := scope_namespace tenant_isolation caller in
  match source_filter (lr_identity req) with
  | Err _ => Ok ([], OutError)
  | Ok source_id_filter =>
      let status_filter := st ← lr_status_filter req; SourceStatus_try_from st in
      let backend_limit := match scope with Some _ => None | None => lr_limit req end in
      match list_workers_filtered source_id_filter status_filter (lr_filter req)
              backend_limit s with
      | Err _ => Ok ([], OutBackendError)
      | Ok workers =>
          Ok (map source_ref
                (visible_workers scope status_filter now_ms
                   (saturating_mul_u64 heartbeat_timeout_secs 1000) (lr_limit req) workers),
              OutOk)
      end
  end.

(** ** get_metadata *)

Definition get_metadata (caller : option string) (req : GetMetadataRequest) s
    : result (GetMetadataResponse * RpcOutcome) GrpcStatus :=
  let? scope := scope_namespace tenant_isolation caller in
  if str_is_empty (gr_mx_source_id req) || str_is_empty (gr_worker_id req)
  then Ok (MkGetMetadataResponse false None "" "" None, OutInvalidArgument)
  else
    let absent := MkGetMetadataResponse false None (gr_mx_source_id req) (gr_worker_id req) None in
    match mb_get (gr_mx_source_id req) (gr_worker_id req) s with
    | Ok (Some record) =>
        if negb (owner_in_scope scope (mm_owner_namespace record)) then Ok (absent, OutNotFound)
        else
          let worker := WorkerMetadata_from <$> head (mm_workers record) in
          let found := match worker with Some _ => true | None => false end in
          Ok (MkGetMetadataResponse found worker (gr_mx_source_id req) (gr_worker_id req)
                (mm_identity record),
              if found then OutOk else OutNotFound)
    | Ok None => Ok (absent, OutNotFound)
    | Err _ => Ok (MkGetMetadataResponse false None "" "" None, OutBackendError)
    end.

(** ** update_status *)

(** A non-finite reading counts as no reading; a finite one is clamped. *)
Definition sanitize_load (load : option f32) : option f32 :=
  v ← load; if f32_is_finite v then Some (f32_clamp01 v) else None.

Definition update_status (caller : option string) (now_ms : Z) (req : UpdateStatusRequest) s
    : St * result (UpdateStatusResponse * RpcOutcome) GrpcStatus :=
  match scope_namespace tenant_isolation caller with
  | Err st => (s, Err st)
  | Ok scope =>
  let fail m o := (s, Ok (MkUpdateStatusResponse false m, o)) in
  if str_is_empty (ur_mx_source_id req) then fail "mx_source_id is required" OutInvalidArgument else
  if str_is_empty (ur_worker_id req) then fail "worker_id is required" OutInvalidArgument else
  match SourceStatus_try_from (ur_status req) with
  | None => fail ("invalid status value: " +:+ pretty (ur_status req)) OutInvalidArgument
  | Some status =>
  let source_load := sanitize_load (ur_source_load req) in
  let update :=
    let '(s', r) := update_worker_status now_ms (ur_mx_source_id req) (ur_worker_id req)
                      (ur_worker_rank req) status source_load s in
    match r with
    | Ok _ =>
        (s', Ok (MkUpdateStatusResponse true
                   ("Updated status for source '" +:+ ur_mx_source_id req +:+ "' worker_id '"
                    +:+ ur_worker_id req +:+ "' rank " +:+ decimal (ur_worker_rank req)), OutOk))
    | Err e =>
        (s', Ok (MkUpdateStatusResponse false ("Failed to update status: " +:+ e),
                 OutBackendError))
    end in
  match scope with
  | None => update
  | Some _ =>
      match mb_get (ur_mx_source_id req) (ur_worker_id req) s with
      | Ok (Some record) =>
          if owner_in_scope scope (mm_owner_namespace record) then update
          else fail "worker not found" OutNotFound
      | Ok None => fail "worker not found" OutNotFound
      | Err e => fail ("Failed to update status: " +:+ e) OutBackendError
      end
  end
  end
  end.

End handlers.

(** ** Listings *)

Lemma filter_filter_b {A} (P Q : A -> bool) l :
  List.filter P (List.filter Q l) = List.filter (fun x => Q x && P x) l.
Proof. induction l as [|x l IH]; simpl; [done|]. destruct (Q x); simpl; by rewrite ?IH. Qed.

(** When the elements that satisfy [P] come first, cutting and filtering
    commute. *)
Lemma filter_take_prefix {A} (P : A -> bool) n (l : list A) :
  StronglySorted (fun a b => P b = true -> P a = true) l ->
  List.filter P (take n l) = take n (List.filter P l).
Proof.
  intros Hs. revert n. induction Hs as [|x l Hl IH Hx]; intros n; simpl; [by rewrite !take_nil|].
  destruct n as [|n]; [by rewrite !take_0|]. simpl. destruct (P x) eqn:HP; simpl; [by rewrite IH|].
  assert (forall k, List.filter P (take k l) = []) as Hnone.
  { intros k. apply (elem_of_nil_inv (A := A)). intros y Hy.
    apply list_elem_of_In, filter_In in Hy as [Hy%list_elem_of_In HPy].
    apply subseteq_take in Hy. eapply Forall_forall in Hx; [|done]. by specialize (Hx HPy). }
  rewrite Hnone. specialize (Hnone (length l)). rewrite take_ge in Hnone by done.
  by rewrite Hnone, take_nil.
Qed.

Lemma fresh_monotone now hb a b :
  (ii_updated_at b <= ii_updated_at a)%Z ->
  ready_source_is_fresh now hb b = true -> ready_source_is_fresh now hb a = true.
Proof.
  unfold ready_source_is_fresh, age_ms, saturating_sub_i64. intros Hle Hb.
  destruct (Z.leb_spec (ii_updated_at b) 0); [done|].
  destruct (Z.leb_spec (ii_updated_at a) 0); [lia|].
  apply Z.leb_le in Hb. apply Z.leb_le. lia.
Qed.

Lemma sort_recent_fresh now hb l :
  StronglySorted (fun a b => ready_source_is_fresh now hb b = true ->
                             ready_source_is_fresh now hb a = true) (sort_recent l).
Proof.
  pose proof (sort_by_key_sorted (fun w => (- ii_updated_at w)%Z) l) as Hs.
  unfold sort_recent. induction Hs as [|x l' Hl IH Hx]; constructor; [done|].
  eapply Forall_impl; [exact Hx|]. intros y Hy. simpl in Hy. apply fresh_monotone. lia.
Qed.

Section listing_facts.
Context {St : Type} `{MetadataBackend St string}.
Context `{ToLowercase} `{HashIter} `{IdDigest}.
Context (tenant_isolation : bool).
Implicit Types s : St.

(** The condition under which a listing shows a worker. *)
Definition shown (scope : option string) (status_filter : option SourceStatus)
    (now_ms heartbeat_timeout_ms : Z) (info : SourceInstanceInfo) : bool :=
  (if bool_decide (status_filter = Some Ready)
   then ready_source_is_fresh now_ms heartbeat_timeout_ms info else true)
  && owner_in_scope scope (ii_owner_namespace info).

Lemma visible_workers_filter scope st now hb limit ws :
  visible_workers scope st now hb limit ws =
  truncate_opt limit (List.filter (shown scope st now hb) ws).
Proof.
  unfold visible_workers, shown. case_bool_decide; [by rewrite filter_filter_b|done].
Qed.

Lemma truncate_opt_idem {A} limit (l : list A) :
  truncate_opt limit (truncate_opt limit l) = truncate_opt limit l.
Proof.
  unfold truncate_opt. destruct limit as [n|]; [|done].
  destruct (0 <? n)%Z; [|done]. rewrite take_take. by rewrite Nat.min_id.
Qed.

(** The limit of a listing is exact.  Although the backend cuts an unscoped
    listing to the limit before the service drops the sources without a fresh
    heartbeat, the answer is what filtering first would give: the most recently
    updated sources that match every filter, are fresh (for a READY listing) and
    visible to the caller, in that order, as many as the limit allows. *)
Lemma list_sources_limit_exact caller now hb_secs req scope src workers s :
  scope_namespace tenant_isolation caller = Ok scope ->
  source_filter (lr_identity req) = Ok src ->
  let st := (st ← lr_status_filter req; SourceStatus_try_from st) in
  mb_list src st s = Ok workers ->
  list_sources tenant_isolation caller now hb_secs req s =
  Ok (map source_ref
        (truncate_opt (lr_limit req)
           (List.filter (shown scope st now (saturating_mul_u64 hb_secs 1000))
              (sort_recent (List.filter (retain_worker (lr_filter req)) workers)))), OutOk).
Proof.
  intros Hsc Hsrc st Hl. unfold list_sources. rewrite Hsc, Hsrc.
  unfold list_workers_filtered. fold st. rewrite Hl. f_equal. f_equal. f_equal.
  rewrite visible_workers_filter.
  set (l := List.filter (retain_worker (lr_filter req)) workers).
  set (hb := saturating_mul_u64 hb_secs 1000).
  destruct scope as [ns|]; [done|].
  rewrite <- (truncate_opt_idem (lr_limit req) (List.filter _ (sort_recent l))).
  f_equal. unfold truncate_opt. destruct (lr_limit req) as [n|]; [|done].
  destruct (0 <? n)%Z; [|done]. apply filter_take_prefix.
  pose proof (sort_recent_fresh now hb l) as Hs.
  induction Hs as [|x l' Hl' IH Hx]; constructor; [done|].
  eapply Forall_impl; [exact Hx|]. unfold shown. intros y Hy. simpl.
  case_bool_decide; [|done]. rewrite !andb_true_r. exact Hy.
Qed.

(** With tenant isolation on, a listing only shows sources that the caller's
    namespace published, and [GetMetadata] only finds such workers; without a
    verified caller both fail as unauthenticated. *)
Lemma reads_tenant_scoped caller now hb_secs lreq greq s :
  match caller with
  | None =>
      list_sources true caller now hb_secs lreq s =
        Err (Unauthenticated "tenant isolation requires an authenticated caller") ∧
      get_metadata true caller greq s =
        Err (Unauthenticated "tenant isolation requires an authenticated caller")
  | Some ns =>
      (forall refs o ref,
         list_sources true caller now hb_secs lreq s = Ok (refs, o) -> ref ∈ refs ->
         ∃ src st workers info, mb_list src st s = Ok workers ∧ info ∈ workers ∧
           ii_owner_namespace info = Some ns ∧ ref = source_ref info) ∧
      (forall resp o,
         get_metadata true caller greq s = Ok (resp, o) ->
         gs_found resp = true ∨ gs_identity resp ≠ None ->
         ∃ record, mb_get (gr_mx_source_id greq) (gr_worker_id greq) s = Ok (Some record) ∧
                   mm_owner_namespace record = Some ns)
  end.
Proof.
  destruct caller as [ns|]; [|done]. split.
  - intros refs o ref. unfold list_sources. simpl.
    destruct (source_filter (lr_identity lreq)) as [src|]; [|by intros [= <- _] ?%elem_of_nil].
    unfold list_workers_filtered. set (st := mbind _ _).
    destruct (mb_list src st s) as [workers|] eqn:Hl; [|by intros [= <- _] ?%elem_of_nil].
    intros [= <- _] (info & -> & Hin)%list_elem_of_fmap.
    rewrite visible_workers_filter in Hin.
    assert (info ∈ List.filter (shown (Some ns) st now (saturating_mul_u64 hb_secs 1000))
              (sort_recent (List.filter (retain_worker (lr_filter lreq)) workers))) as Hin'.
    { unfold truncate_opt in Hin. repeat case_match; try done. by apply subseteq_take in Hin. }
    apply list_elem_of_In, filter_In in Hin' as [Hw Hsh].
    apply list_elem_of_In in Hw. unfold sort_recent in Hw. rewrite sort_by_key_perm in Hw.
    apply list_elem_of_In, filter_In in Hw as [Hw _]. apply list_elem_of_In in Hw.
    unfold shown in Hsh. apply andb_true_iff in Hsh as [_ Hown]. simpl in Hown. mx_bool.
    by exists src, st, workers, info.
  - intros resp o. unfold get_metadata. simpl. case_match; [by intros [= <- _] [|]|].
    destruct (mb_get _ _ s) as [[record|]|]; [|by intros [= <- _] [|]..].
    case_bool_decide as Hown; simpl; [|by intros [= <- _] [|]]. by exists record.
Qed.
End listing_facts.

(** ** Tenants over the in-memory backend *)

(** One request, with the verified caller and the clock of its handler. Listings
    and lookups do not change the state. *)
Inductive p2p_request : Type :=
| RqPublish (req : PublishMetadataRequest)
| RqUpdate (req : UpdateStatusRequest)
| RqList (req : ListSourcesRequest)
| RqGet (req : GetMetadataRequest).

Section tenants.
Context `{ToLowercase} `{HashIterLaws} `{IdDigest}.
Abbreviation mstate := (gmap string MemMeta.SourceEntry).
#[local] Existing Instance MemMeta.metadata_backend.

Definition handle (caller : option string) (now : Z) (rq : p2p_request) (s : mstate) : mstate :=
  match rq with
  | RqPublish req => (publish_metadata true caller req s).1
  | RqUpdate req => (update_status true caller now req s).1
  | RqList _ | RqGet _ => s
  end.

Definition handle_all (tr : list (option string * Z * p2p_request)) (s : mstate) : mstate :=
  foldl (fun s '(caller, now, rq) => handle caller now rq s) s tr.

(** What one mutating request can do to a stored worker under isolation. *)
Lemma handle_spec caller now rq s :
  MemMeta.inv s ->
  MemMeta.inv (handle caller now rq s) ∧
  forall sid wid e,
    MemMeta.lookup_worker sid wid s = Some e -> MemMeta.we_owner_namespace e ≠ caller ->
    MemMeta.lookup_worker sid wid (handle caller now rq s) = Some e.
Proof.
  intros Hinv. destruct rq as [req|req|req|req]; simpl; [| |done|done].
  - unfold publish_metadata. destruct caller as [ns|]; simpl; [|done].
    destruct (pr_identity req) as [ident|]; [|done].
    destruct (validate_identity ident); [|done].
    destruct (str_is_empty (pr_worker_id req)); [done|].
    destruct (pr_worker req) as [worker|]; [|done].
    destruct (compute_mx_source_id ident) as [sid'|] eqn:Hid; [|done].
    set (wid' := pr_worker_id req).
    pose proof (MemMeta.inv_publish ident wid' worker (Some ns) s Hinv) as Hinv'.
    destruct (MemMeta.publish_metadata ident wid' worker (Some ns) s) as [s' r] eqn:Hpub.
    assert (forall sid wid e, MemMeta.lookup_worker sid wid s = Some e ->
              ~ (sid = sid' ∧ wid = wid') -> MemMeta.lookup_worker sid wid s' = Some e) as Hframe.
    { intros sid wid e He Hne. destruct r as [[]|].
      - rewrite (MemMeta.lookup_worker_publish _ _ _ _ _ _ _ _ _ Hid Hpub).
        by rewrite decide_False.
      - unfold MemMeta.publish_metadata in Hpub. by rewrite Hid in Hpub. }
    destruct (MemMeta.get_metadata sid' wid' s) as [record|] eqn:Hget.
    + destruct (MemMeta.get_metadata_owner _ _ _ _ Hget) as (e' & He' & Hown).
      case_bool_decide as Hscope; simpl; [|done].
      destruct r as [u|er]; (split; [done|]); intros sid wid e He Hne; apply Hframe; try done;
        intros [-> ->]; simplify_eq; congruence.
    + pose proof (MemMeta.get_metadata_none _ _ _ Hinv Hget) as Hnone.
      destruct r as [u|er]; (split; [done|]); intros sid wid e He Hne; apply Hframe; try done;
        intros [-> ->]; congruence.
  - unfold update_status. destruct caller as [ns|]; simpl; [|done].
    destruct (str_is_empty (ur_mx_source_id req)); [done|].
    destruct (str_is_empty (ur_worker_id req)); [done|].
    destruct (SourceStatus_try_from (ur_status req)) as [st|]; [|done].
    destruct (MemMeta.get_metadata _ _ s) as [record|] eqn:Hget; [|done].
    destruct (MemMeta.get_metadata_owner _ _ _ _ Hget) as (e' & He' & Hown).
    case_bool_decide as Hscope; simpl; [|done].
    unfold update_worker_status. simpl.
    pose proof (MemMeta.meta_inv_update (ur_mx_source_id req) (ur_worker_id req) (ur_worker_rank req)
                  st now (sanitize_load (ur_source_load req)) s Hinv) as Hinv'.
    destruct (MemMeta.update_status _ _ _ _ _ _ s) as [s' r] eqn:Hup. simpl in Hinv'.
    assert (forall sid wid e, MemMeta.lookup_worker sid wid s = Some e ->
              MemMeta.we_owner_namespace e ≠ Some ns ->
              MemMeta.lookup_worker sid wid s' = Some e) as Hframe.
    { intros sid wid e He Hne. rewrite (MemMeta.lookup_worker_update _ _ _ _ _ _ _ _ _ _ _ Hup);
        [done|]. intros [-> ->]. simplify_eq. congruence. }
    by destruct r.
Qed.

End tenants.

(** ** Witnesses *)

Definition sample_worker (rank status updated_at : Z) : WorkerMetadata :=
  MkWorkerMetadata rank None status updated_at "" "agent" "" "cuda" ∅ [] None.

Definition sample_publish (wid : string) : PublishMetadataRequest :=
  MkPublishMetadataRequest (Some (sample_identity "Org/M")) (Some (sample_worker 0 2 1000)) wid.

#[local] Existing Instance MemMeta.metadata_backend.
#[local] Existing Instance name_digest.

(** Tenant "b" has published one worker. *)
Definition tenant_b_state : gmap string MemMeta.SourceEntry :=
  handle (Some "b") 0 (RqPublish (sample_publish "w1")) MemMeta.new.

Lemma tenant_b_inv : MemMeta.inv tenant_b_state.
Proof. apply (handle_spec (Some "b") 0 (RqPublish (sample_publish "w1"))), MemMeta.meta_inv_new. Qed.

Definition sample_entry : MemMeta.WorkerEntry :=
  MemMeta.MkWorkerEntry (<[0%Z := WorkerRecord_from (sample_worker 0 2 1000)]> ∅) 0 (Some "b").

(** Tenant "a" tries to overwrite the worker and to mark it stale. *)
Definition attack : list (option string * Z * p2p_request) :=
  [(Some "a", 5%Z, RqPublish (sample_publish "w1"));
   (Some "a", 6%Z, RqUpdate (MkUpdateStatusRequest "org/m" "w1" 0 3 None));
   (None, 7%Z, RqUpdate (MkUpdateStatusRequest "org/m" "w1" 0 3 None))].


Definition sample_list_req : ListSourcesRequest :=
  MkListSourcesRequest None (Some 2%Z) (MkListFilter None None None None) (Some 1%Z).

Lemma list_sources_limit_exact_witness :
  list_sources true (Some "b") 1500 30 sample_list_req tenant_b_state =
  Ok ([MkSourceInstanceRef "org/m" "w1" "Org/M" 0 "cuda" 1000 None None None ∅], OutOk).
Proof.
  rewrite (list_sources_limit_exact true (Some "b") 1500 30 sample_list_req (Some "b") None
    (MemMeta.list_workers None (Some Ready) tenant_b_state) tenant_b_state); reflexivity.
Defined.

Lemma reads_tenant_scoped_witness :
  ∃ record, mb_get "org/m" "w1" tenant_b_state = Ok (Some record) ∧
            mm_owner_namespace record = Some "b".
Proof.
  destruct (reads_tenant_scoped (Some "b") 1500 30 sample_list_req
    (MkGetMetadataRequest "org/m" "w1") tenant_b_state) as [_ Hget].
  eapply Hget; [reflexivity|left; reflexivity].
Defined.

(** An identity that differs in letter case only has the same source id, so its
    publication by one tenant replaces the model name that every tenant of the
    source sees: the listing of tenant "b" by its own model name goes empty. *)
Definition case_variant : list (option string * Z * p2p_request) :=
  [(Some "a", 5%Z, RqPublish
      (MkPublishMetadataRequest (Some (sample_identity "org/m")) (Some (sample_worker 0 2 1000)) "w2"))].

Lemma case_variant_hides_source :
  let req := MkListSourcesRequest None None (MkListFilter (Some "Org/M") None None None) None in
  let shows s := match list_sources true (Some "b") 1500 30 req s with
                 | Ok (refs, _) => map sr_worker_id refs | Err _ => [] end in
  shows tenant_b_state = ["w1"] ∧ shows (handle_all case_variant tenant_b_state) = [].
Proof. split; reflexivity. Qed.
