(* ===== verification/Reaper.v ===== *)
(** * Stale-source reaper (p2p/reaper.rs)

    One reaper pass over the [MetadataBackend] interface, and its effect on the
    in-memory backend: active workers without a recent heartbeat become STALE,
    STALE workers past the collection timeout are removed, everything else is
    untouched, and a second pass changes nothing. *)

From Stdlib Require Import ZArith Lia Ascii String.
From stdpp Require Import base tactics option list gmap fin_maps strings.
From S2P Require Import Prelude RustStr P2pTypes SourceIdentityHash P2pBackend P2pService.

Section reaper.
Context {St E : Type} `{MetadataBackend St E}.
Implicit Types s : St.

Definition is_active (w : SourceInstanceInfo) : bool :=
  (ii_status w =? SourceStatus_i32 Ready)%Z || (ii_status w =? SourceStatus_i32 Initializing)%Z.

(** The pass so far: the store and the two counters. *)
Record reap_state : Type := MkReapState {
  rs_store : St;
  rs_stale_count : Z;
  rs_gc_count : Z
}.

(** One iteration of the scan. [stamp] is the clock that the status update
    reads. *)
Definition reap_worker (now heartbeat_timeout_ms gc_timeout_ms stamp : Z)
    (w : SourceInstanceInfo) (st : reap_state) : reap_state :=
  let age := age_ms now (ii_updated_at w) in
  if is_active w && (heartbeat_timeout_ms <? age)%Z then
    let '(s', r) := update_worker_status stamp (ii_source_id w) (ii_worker_id w)
                      (ii_worker_rank w) Stale None (rs_store st) in
    MkReapState s'
      (match r with Ok _ => saturating_add_u32 (rs_stale_count st) 1 | Err _ => rs_stale_count st end)
      (rs_gc_count st)
  else if (ii_status w =? SourceStatus_i32 Stale)%Z && (gc_timeout_ms <? age)%Z then
    let '(s', r) := mb_remove_worker (ii_source_id w) (ii_worker_id w) (rs_store st) in
    MkReapState s' (rs_stale_count st)
      (match r with Ok _ => saturating_add_u32 (rs_gc_count st) 1 | Err _ => rs_gc_count st end)
  else st.

(** A pass: [stamp w] is the clock reading of the update of [w]. *)
Definition reap_once (now heartbeat_timeout_ms gc_timeout_ms : Z)
    (stamp : SourceInstanceInfo -> Z) s : reap_state * result unit E :=
  match mb_list None None s with
  | Err e => (MkReapState s 0 0, Err e)
  | Ok workers =>
      (foldl (fun st w => reap_worker now heartbeat_timeout_ms gc_timeout_ms (stamp w) w st)
         (MkReapState s 0 0) workers, Ok ())
  end.

End reaper.

Arguments reap_state : clear implicits.
Arguments MkReapState {St} _ _ _.
Arguments rs_store {St} _.

(** ** The pass over the in-memory backend *)

Section memory.
Context `{ToLowercase} `{HashIterLaws} `{IdDigest}.
#[local] Existing Instance MemMeta.metadata_backend.
Abbreviation mstate := (gmap string MemMeta.SourceEntry).
Implicit Types s : mstate.

Variables (now hb gc : Z) (stamp : SourceInstanceInfo -> Z).

(** The specification of a pass on one listed worker. *)
Definition reaped (w : SourceInstanceInfo) (e : MemMeta.WorkerEntry)
    : option MemMeta.WorkerEntry :=
  if is_active w && (hb <? age_ms now (ii_updated_at w))%Z then
    Some (match MemMeta.ranks e !! ii_worker_rank w with
          | Some r => MemMeta.MkWorkerEntry
              (<[ii_worker_rank w := MemMeta.with_status r Stale (stamp w) None]> (MemMeta.ranks e))
              (MemMeta.index_rank e) (MemMeta.we_owner_namespace e)
          | None => e
          end)
  else if (ii_status w =? SourceStatus_i32 Stale)%Z && (gc <? age_ms now (ii_updated_at w))%Z
  then None
  else Some e.

Abbreviation pass ws st := (foldl (fun st w => reap_worker now hb gc (stamp w) w st) st ws).

Lemma reap_worker_other w (st : reap_state mstate) sid wid :
  ~ (sid = ii_source_id w ∧ wid = ii_worker_id w) ->
  MemMeta.lookup_worker sid wid (rs_store (reap_worker now hb gc (stamp w) w st)) =
  MemMeta.lookup_worker sid wid (rs_store st).
Proof.
  intros Hne. unfold reap_worker, update_worker_status. simpl.
  destruct (is_active w && _).
  - destruct (MemMeta.update_status _ _ _ _ _ _ _) as [s' r] eqn:Hup. simpl.
    by eapply MemMeta.lookup_worker_update.
  - destruct ((_ =? _)%Z && _); simpl; [|done].
    by rewrite MemMeta.lookup_worker_remove, decide_False.
Qed.

Lemma reap_worker_same w (st : reap_state mstate) e :
  MemMeta.lookup_worker (ii_source_id w) (ii_worker_id w) (rs_store st) = Some e ->
  MemMeta.lookup_worker (ii_source_id w) (ii_worker_id w)
    (rs_store (reap_worker now hb gc (stamp w) w st)) = reaped w e.
Proof.
  intros He. unfold reap_worker, reaped, update_worker_status. simpl.
  destruct (is_active w && _).
  - pose proof (MemMeta.lookup_worker_update_eq (ii_source_id w) (ii_worker_id w)
                  (ii_worker_rank w) Stale (stamp w) None _ _ He) as Hup.
    by destruct (MemMeta.update_status _ _ _ _ _ _ _).
  - destruct ((_ =? _)%Z && _); simpl; [|done].
    by rewrite MemMeta.lookup_worker_remove, decide_True.
Qed.

Lemma pass_other ws : forall (st : reap_state mstate) sid wid,
  (sid, wid) ∉ map (fun i => (ii_source_id i, ii_worker_id i)) ws ->
  MemMeta.lookup_worker sid wid (rs_store (pass ws st)) =
  MemMeta.lookup_worker sid wid (rs_store st).
Proof.
  induction ws as [|w ws IH]; intros st sid wid Hne; simpl in *; [done|].
  apply not_elem_of_cons in Hne as [Hw Hne]. rewrite IH by done.
  apply reap_worker_other. intros [-> ->]. done.
Qed.

Lemma pass_listed ws : forall (st : reap_state mstate) w e,
  NoDup (map (fun i => (ii_source_id i, ii_worker_id i)) ws) -> w ∈ ws ->
  MemMeta.lookup_worker (ii_source_id w) (ii_worker_id w) (rs_store st) = Some e ->
  MemMeta.lookup_worker (ii_source_id w) (ii_worker_id w) (rs_store (pass ws st)) = reaped w e.
Proof.
  induction ws as [|x ws IH]; intros st w e Hnd Hin He; [set_solver|]. simpl in *.
  apply NoDup_cons in Hnd as [Hx Hnd]. apply elem_of_cons in Hin as [->|Hin].
  - rewrite pass_other by done. by apply reap_worker_same.
  - apply IH; [done..|]. rewrite reap_worker_other; [done|]. intros [Hs Hw].
    apply Hx, list_elem_of_fmap. exists w. split; [congruence|done].
Qed.

(** The listing entry of a stored worker. *)
Lemma listed_worker s sid wid e :
  MemMeta.lookup_worker sid wid s = Some e ->
  ∃ w, w ∈ MemMeta.list_workers None None s ∧ ii_source_id w = sid ∧ ii_worker_id w = wid ∧
       ii_worker_rank w = MemMeta.index_rank e ∧
       ∃ source, w = MemMeta.worker_info sid source wid e.
Proof.
  unfold MemMeta.lookup_worker. destruct (s !! sid) as [source|] eqn:Hs; [|done]. simpl.
  intros He. exists (MemMeta.worker_info sid source wid e).
  destruct (MemMeta.worker_info_key sid source wid e) as (-> & -> & -> & _).
  split_and!; [|done..|by exists source].
  apply MemMeta.elem_of_list_workers. by exists sid, source, wid, e.
Qed.

Lemma reap_lookup s sid wid e :
  MemMeta.lookup_worker sid wid s = Some e ->
  ∃ w source, w = MemMeta.worker_info sid source wid e ∧
    MemMeta.lookup_worker sid wid (rs_store (reap_once now hb gc stamp s).1) = reaped w e.
Proof.
  intros He. destruct (listed_worker s sid wid e He) as (w & Hin & Hs & Hw & _ & source & Hinfo).
  exists w, source. split; [done|]. unfold reap_once. simpl. subst sid wid.
  apply pass_listed; [apply MemMeta.list_workers_NoDup|done|done].
Qed.

Lemma reap_absent s sid wid :
  MemMeta.lookup_worker sid wid s = None ->
  MemMeta.lookup_worker sid wid (rs_store (reap_once now hb gc stamp s).1) = None.
Proof.
  intros Hn. unfold reap_once. simpl. rewrite pass_other; [done|].
  intros (w & Hkey & Hin)%list_elem_of_fmap.
  apply MemMeta.elem_of_list_workers in Hin as (k & source & w' & e & Hs & He & _ & _ & ->).
  destruct (MemMeta.worker_info_key k source w' e) as (Hk & Hw & _). rewrite Hk, Hw in Hkey.
  simplify_eq. unfold MemMeta.lookup_worker in Hn. rewrite Hs in Hn. simpl in Hn. congruence.
Qed.

(** The listing reports the indexed rank. *)
Lemma worker_info_record sid source wid e r :
  MemMeta.ranks e !! MemMeta.index_rank e = Some r ->
  ii_status (MemMeta.worker_info sid source wid e) = wr_status r ∧
  ii_updated_at (MemMeta.worker_info sid source wid e) = wr_updated_at r.
Proof. intros Hr. unfold MemMeta.worker_info. by rewrite Hr. Qed.

Lemma worker_info_source sid source source' wid e :
  ii_status (MemMeta.worker_info sid source wid e) =
    ii_status (MemMeta.worker_info sid source' wid e) ∧
  ii_updated_at (MemMeta.worker_info sid source wid e) =
    ii_updated_at (MemMeta.worker_info sid source' wid e).
Proof.
  unfold MemMeta.worker_info.
  by destruct (match MemMeta.ranks e !! MemMeta.index_rank e with Some _ => _ | None => _ end).
Qed.

(** A reaper pass does exactly what it promises, for every stored worker.
    With [r] the record of the worker's reported rank: if it is READY or
    INITIALIZING and its last update is older than the heartbeat timeout, that
    rank becomes STALE with a fresh timestamp; if it is STALE and older than the
    collection timeout, the worker is removed; otherwise the worker keeps every
    field.  No worker appears. *)
Lemma reap_effect s sid wid :
  match MemMeta.lookup_worker sid wid s with
  | None => MemMeta.lookup_worker sid wid (rs_store (reap_once now hb gc stamp s).1) = None
  | Some e =>
      forall r, MemMeta.ranks e !! MemMeta.index_rank e = Some r ->
      let age := age_ms now (wr_updated_at r) in
      let after := MemMeta.lookup_worker sid wid (rs_store (reap_once now hb gc stamp s).1) in
      ((wr_status r = 2 ∨ wr_status r = 1) /\ hb < age ->
         ∃ t, after = Some (MemMeta.MkWorkerEntry
                (<[MemMeta.index_rank e := MemMeta.with_status r Stale t None]> (MemMeta.ranks e))
                (MemMeta.index_rank e) (MemMeta.we_owner_namespace e)))%Z ∧
      (wr_status r = 3 /\ gc < age -> after = None)%Z ∧
      (~ ((wr_status r = 2 ∨ wr_status r = 1) /\ hb < age) ->
       ~ (wr_status r = 3 /\ gc < age) -> after = Some e)%Z
  end.
Proof.
  destruct (MemMeta.lookup_worker sid wid s) as [e|] eqn:He; [|by apply reap_absent].
  intros r Hr age after. subst after age.
  destruct (reap_lookup s sid wid e He) as (w & source & Hw & ->).
  destruct (worker_info_record sid source wid e r Hr) as [Hst Hup].
  destruct (MemMeta.worker_info_key sid source wid e) as (_ & _ & Hrank & _).
  rewrite <- Hw in Hst, Hup, Hrank. unfold reaped, is_active.
  rewrite Hst, Hup, Hrank, Hr. simpl.
  set (age := age_ms now (wr_updated_at r)).
  destruct (Z.eqb_spec (wr_status r) 2), (Z.eqb_spec (wr_status r) 1),
    (Z.eqb_spec (wr_status r) 3), (Z.ltb_spec hb age), (Z.ltb_spec gc age); simpl;
    try lia; split_and!; try lia; try done; intros; try (by eexists); try done; tauto || lia.
Qed.

(** The reaper may run on every replica: a second pass at the same time
    leaves every worker as the first pass left it, because a worker that was
    just marked STALE has a fresh timestamp. *)
Lemma reap_idempotent s sid wid :
  (0 <= hb)%Z -> (0 <= gc)%Z -> (forall w, now <= stamp w)%Z ->
  let s1 := rs_store (reap_once now hb gc stamp s).1 in
  MemMeta.lookup_worker sid wid (rs_store (reap_once now hb gc stamp s1).1) =
  MemMeta.lookup_worker sid wid s1.
Proof.
  intros Hhb Hgc Hstamp s1.
  destruct (MemMeta.lookup_worker sid wid s1) as [e1|] eqn:He1; [|by apply reap_absent].
  destruct (reap_lookup s1 sid wid e1 He1) as (w1 & source1 & Hw1 & ->).
  destruct (MemMeta.lookup_worker sid wid s) as [e|] eqn:He.
  2:{ unfold s1 in He1. by rewrite reap_absent in He1. }
  destruct (reap_lookup s sid wid e He) as (w & source & Hw & Hreap).
  fold s1 in Hreap. rewrite He1 in Hreap. symmetry in Hreap.
  destruct (MemMeta.worker_info_key sid source wid e) as (_ & _ & Hrank & _).
  rewrite <- Hw in Hrank.
  assert (e1 = e -> is_active w1 = is_active w ∧ ii_status w1 = ii_status w ∧
          ii_updated_at w1 = ii_updated_at w ∧ ii_worker_rank w1 = MemMeta.index_rank e) as Hsame.
  { intros ->. destruct (worker_info_source sid source source1 wid e) as [Hst Hup].
    destruct (MemMeta.worker_info_key sid source1 wid e) as (_ & _ & Hr & _).
    subst w w1. unfold is_active. by rewrite Hst, Hup. }
  unfold reaped in Hreap. rewrite Hrank in Hreap.
  destruct (is_active w && _) eqn:Hact.
  2:{ destruct ((_ =? _)%Z && _) eqn:Hst in Hreap; [done|]. injection Hreap as <-.
      destruct (Hsame eq_refl) as (Ha & Hs & Hu & _). unfold reaped.
      by rewrite Ha, Hs, Hu, Hact, Hst. }
  destruct (MemMeta.ranks e !! MemMeta.index_rank e) as [r|] eqn:Hr.
  2:{ injection Hreap as <-. destruct (Hsame eq_refl) as (Ha & Hs & Hu & Hk). unfold reaped.
      by rewrite Ha, Hu, Hact, Hk, Hr. }
  injection Hreap as Heq.
  destruct (worker_info_record sid source1 wid e1 (MemMeta.with_status r Stale (stamp w) None))
    as [Hst Hup].
  { subst e1. simpl. by rewrite lookup_insert_eq. }
  rewrite <- Hw1 in Hst, Hup. simpl in Hst, Hup. unfold reaped, is_active.
  rewrite Hst, Hup. simpl.
  assert ((gc <? age_ms now (stamp w))%Z = false) as ->; [|done].
  apply Z.ltb_ge. unfold age_ms, saturating_sub_i64, i64_min, i64_max.
  specialize (Hstamp w). lia.
Qed.

End memory.

(** ** Witnesses *)

#[local] Existing Instance name_digest.

(** At time 100 s, with a heartbeat timeout of 30 s, the worker that was last
    heard of at 1 s is marked; a second pass changes nothing. *)
Lemma reap_idempotent_witness :
  let s1 := rs_store (reap_once (H := MemMeta.metadata_backend) 100000 30000 60000
                        (fun _ => 100001%Z) tenant_b_state).1 in
  MemMeta.lookup_worker "org/m" "w1"
    (rs_store (reap_once (H := MemMeta.metadata_backend) 100000 30000 60000
                 (fun _ => 100001%Z) s1).1) =
  MemMeta.lookup_worker "org/m" "w1" s1.
Proof.
  apply (reap_idempotent 100000 30000 60000 (fun _ => 100001%Z) tenant_b_state "org/m" "w1");
    [discriminate|discriminate|intros _; discriminate].
Defined.

Lemma reap_effect_witness :
  ∃ t, MemMeta.lookup_worker "org/m" "w1"
    (rs_store (reap_once (H := MemMeta.metadata_backend) 100000 30000 60000
                 (fun _ => 100001%Z) tenant_b_state).1) =
  Some (MemMeta.MkWorkerEntry
          (<[0%Z := MemMeta.with_status (WorkerRecord_from (sample_worker 0 2 1000)) Stale t None]>
             (MemMeta.ranks sample_entry)) 0 (Some "b")).
Proof.
  apply (reap_effect 100000 30000 60000 (fun _ => 100001%Z) tenant_b_state "org/m" "w1"
           (WorkerRecord_from (sample_worker 0 2 1000)) eq_refl).
  split; [left|]; reflexivity.
Defined.
