(* ===== verification/Lanes.v ===== *)
(** * Lane membership and rank assignment (refit_collective/lanes.rs)

    The validation of a declared lane set and the index of rank assignments that
    it builds, with the theorem that the index is the declaration: each slot
    holds, for each lane that declares it and in lane order, the rank of its
    position. *)

From Stdlib Require Import ZArith Lia Ascii String.
From stdpp Require Import base tactics option list gmap fin_maps fin_sets strings.
From S2P Require Import Prelude RustStr.

Inductive LaneKind : Type := LaneUnspecified | LaneReshard | LaneBroadcast.

#[export] Instance LaneKind_eq_dec : EqDecision LaneKind.
Proof. solve_decision. Defined.

Record Assignment : Type := MkAssignment {
  as_lane_id : Z;
  as_kind : LaneKind;
  as_rank_in_lane : Z;
  as_world_size : Z
}.

Record Lane : Type := MkLane {
  lane_id : Z;
  kind : LaneKind;
  trainer_slots : list string;
  generator_slots : list string
}.

Definition slots_in_rank_order (lane : Lane) : list string :=
  trainer_slots lane ++ generator_slots lane.

Definition world_size (lane : Lane) : Z :=
  u32_try_from_or_max (length (trainer_slots lane) + length (generator_slots lane)).

Record LaneLayout : Type := MkLaneLayout {
  lanes : list Lane;
  by_slot : gmap string (list Assignment);
  trainer_count : Z;
  generator_count : Z
}.

Inductive LaneError : Type :=
| NoLanes
| NoTrainers
| NoGenerators
| DuplicateLaneId (lane_id : Z)
| UnspecifiedLaneKind (lane_id : Z)
| UnknownSlot (lane_id : Z) (slot_id role : string)
| DuplicateSlotInLane (lane_id : Z) (slot_id : string)
| UnassignedSlot (slot_id : string)
| MultipleBroadcastLanes (found : nat)
| UnknownParticipant (slot_id : string)
| NoTrainerSlotInLane (lane_id : Z).

(** The first slot of the list that is not expected in its role. *)
Fixpoint check_known (lane_id : Z) (known : list string) (role : string)
    (slots : list string) : result unit LaneError :=
  match slots with
  | [] => Ok ()
  | s :: slots' =>
      if bool_decide (s ∈ known) then check_known lane_id known role slots'
      else Err (UnknownSlot lane_id s role)
  end.

(** [by_slot.entry(slot).or_default().push(a)]. *)
Definition push_assignment (m : gmap string (list Assignment)) (slot : string) (a : Assignment)
    : gmap string (list Assignment) :=
  <[slot := default [] (m !! slot) ++ [a]]> m.

Definition assignment (lane : Lane) (rank : nat) : Assignment :=
  MkAssignment (lane_id lane) (kind lane) (u32_try_from_or_max rank) (world_size lane).

(** The loop over the slots of one lane, from [rank] on. *)
Fixpoint assign_slots (lane : Lane) (rank : nat) (seen_in_lane : gset string)
    (slots : list string) (m : gmap string (list Assignment))
    : result (gmap string (list Assignment)) LaneError :=
  match slots with
  | [] => Ok m
  | s :: slots' =>
      if bool_decide (s ∈ seen_in_lane) then Err (DuplicateSlotInLane (lane_id lane) s)
      else assign_slots lane (S rank) ({[s]} ∪ seen_in_lane) slots'
             (push_assignment m s (assignment lane rank))
  end.

(** The loop over the lanes. *)
Fixpoint assign_lanes (trainers generators : list string) (seen_lane_ids : gset Z)
    (ls : list Lane) (m : gmap string (list Assignment))
    : result (gmap string (list Assignment)) LaneError :=
  match ls with
  | [] => Ok m
  | lane :: ls' =>
      if bool_decide (lane_id lane ∈ seen_lane_ids) then Err (DuplicateLaneId (lane_id lane))
      else if bool_decide (kind lane = LaneUnspecified)
      then Err (UnspecifiedLaneKind (lane_id lane))
      else if bool_decide (trainer_slots lane = []) then Err (NoTrainerSlotInLane (lane_id lane))
      else
        let? _ := check_known (lane_id lane) trainers "trainer" (trainer_slots lane) in
        let? _ := check_known (lane_id lane) generators "generator" (generator_slots lane) in
        let? m := assign_slots lane 0 ∅ (slots_in_rank_order lane) m in
        assign_lanes trainers generators ({[lane_id lane]} ∪ seen_lane_ids) ls' m
  end.

Fixpoint check_assigned (m : gmap string (list Assignment)) (slots : list string)
    : result unit LaneError :=
  match slots with
  | [] => Ok ()
  | s :: slots' =>
      match m !! s with
      | Some _ => check_assigned m slots'
      | None => Err (UnassignedSlot s)
      end
  end.

(** [LaneLayout::new]. *)
Definition LaneLayout_new (ls : list Lane) (expected_trainer_slots expected_generator_slots
    : list string) : result LaneLayout LaneError :=
  match expected_trainer_slots, expected_generator_slots, ls with
  | [], _, _ => Err NoTrainers
  | _, [], _ => Err NoGenerators
  | _, _, [] => Err NoLanes
  | _, _, _ =>
      let broadcast := length (filter (fun l => kind l = LaneBroadcast) ls) in
      if bool_decide (1 < broadcast) then Err (MultipleBroadcastLanes broadcast)
      else
        let? m := assign_lanes expected_trainer_slots expected_generator_slots ∅ ls ∅ in
        let? _ := check_assigned m (expected_trainer_slots ++ expected_generator_slots) in
        Ok (MkLaneLayout ls m (u32_try_from_or_max (length expected_trainer_slots))
              (u32_try_from_or_max (length expected_generator_slots)))
  end.

Definition lane_count (l : LaneLayout) : Z := u32_try_from_or_max (length (lanes l)).

Definition broadcast_lane_id (l : LaneLayout) : option Z :=
  find_map (fun lane => if bool_decide (kind lane = LaneBroadcast) then Some (lane_id lane) else None)
    (lanes l).

Definition assign (l : LaneLayout) (slot_id : string) : result (list Assignment) LaneError :=
  match by_slot l !! slot_id with
  | Some a => Ok a
  | None => Err (UnknownParticipant slot_id)
  end.

Definition is_bootstrap_leader (l : LaneLayout) (slot_id : string) : bool :=
  match by_slot l !! slot_id with
  | Some as_ => existsb (fun a => (as_rank_in_lane a =? 0)%Z) as_
  | None => false
  end.

(** ** The declaration as a reference *)

(** The position of a slot in a lane. *)
Fixpoint position (slot : string) (slots : list string) : option nat :=
  match slots with
  | [] => None
  | s :: slots' => if bool_decide (s = slot) then Some 0 else S <$> position slot slots'
  end.

(** What a slot is declared to be: one assignment per lane that lists it. *)
Definition declared (ls : list Lane) (slot : string) : list Assignment :=
  omap (fun lane => assignment lane <$> position slot (slots_in_rank_order lane)) ls.

Lemma position_lookup slot slots i :
  position slot slots = Some i -> slots !! i = Some slot.
Proof.
  revert i. induction slots as [|s slots IH]; intros i; simpl; [done|].
  case_bool_decide; [by intros [= <-]; subst|].
  destruct (position slot slots) as [j|]; [|done]. intros [= <-]. simpl. by apply IH.
Qed.

Lemma position_is_Some slot slots : is_Some (position slot slots) ↔ slot ∈ slots.
Proof.
  induction slots as [|s slots IH]; simpl.
  - split; [by intros []|set_solver].
  - case_bool_decide as Hs; [subst; split; [set_solver|eauto]|].
    rewrite fmap_is_Some, IH. set_solver.
Qed.

Lemma position_None slot slots : position slot slots = None ↔ slot ∉ slots.
Proof. rewrite <- position_is_Some, eq_None_not_Some. done. Qed.

Lemma position_NoDup slot slots i :
  NoDup slots -> slots !! i = Some slot -> position slot slots = Some i.
Proof.
  intros Hnd Hi. destruct (position slot slots) as [j|] eqn:Hj.
  - f_equal. eapply NoDup_lookup; [done|by apply position_lookup|done].
  - apply position_None in Hj. by apply list_elem_of_lookup_2 in Hi.
Qed.

(** Add the declared assignment of one lane to the list of a slot. *)
Definition extend (m : gmap string (list Assignment)) (slot : string) (o : option Assignment)
    : option (list Assignment) :=
  match o with
  | Some a => Some (default [] (m !! slot) ++ [a])
  | None => m !! slot
  end.

Lemma assign_slots_ok lane slots : forall rank seen m m',
  assign_slots lane rank seen slots m = Ok m' ->
  NoDup slots ∧ (forall s, s ∈ slots -> s ∉ seen) ∧
  forall s, m' !! s =
    extend m s ((fun j => assignment lane (rank + j)) <$> position s slots).
Proof.
  induction slots as [|x slots IH]; intros rank seen m m'; cbn [assign_slots position].
  { intros [= <-]. split_and!; [constructor|set_solver|done]. }
  case_bool_decide as Hx; [done|]. intros Hok. destruct (IH _ _ _ _ Hok) as (Hnd & Hns & Hm).
  split_and!.
  - apply NoDup_cons. split; [|done]. intros Hin. apply (Hns x Hin). set_solver.
  - set_solver.
  - intros s. rewrite Hm. unfold push_assignment. case_bool_decide as Hs.
    + subst s. assert (position x slots = None) as ->.
      { apply position_None. intros Hin. apply (Hns x Hin). set_solver. }
      simpl. rewrite lookup_insert_eq, Nat.add_0_r. done.
    + destruct (position s slots) as [j|]; simpl; rewrite lookup_insert_ne by done; [|done].
      by rewrite Nat.add_succ_r.
Qed.

Lemma check_known_ok id known role slots :
  check_known id known role slots = Ok () -> forall s, s ∈ slots -> s ∈ known.
Proof.
  induction slots as [|x slots IH]; simpl; [set_solver|].
  case_bool_decide; [|done]. intros Hok s [->|Hs]%elem_of_cons; [done|by apply IH].
Qed.

(** What the accepted lanes satisfy. *)
Definition lane_ok (trainers generators : list string) (lane : Lane) : Prop :=
  kind lane ≠ LaneUnspecified ∧ trainer_slots lane ≠ [] ∧ NoDup (slots_in_rank_order lane) ∧
  (forall s, s ∈ trainer_slots lane -> s ∈ trainers) ∧
  (forall s, s ∈ generator_slots lane -> s ∈ generators).

Lemma assign_lanes_ok trainers generators ls : forall seen m m',
  assign_lanes trainers generators seen ls m = Ok m' ->
  NoDup (map lane_id ls) ∧ (forall l, l ∈ ls -> lane_id l ∉ seen) ∧
  Forall (lane_ok trainers generators) ls ∧
  forall s, default [] (m' !! s) = default [] (m !! s) ++ declared ls s ∧
            (is_Some (m' !! s) ↔ is_Some (m !! s) ∨ declared ls s ≠ []).
Proof.
  induction ls as [|lane ls IH]; intros seen m m'; cbn [assign_lanes].
  { intros [= <-]. split_and!; [constructor|set_solver|constructor|].
    intros s. rewrite app_nil_r. split; [done|]. simpl. naive_solver. }
  case_bool_decide as Hseen; [done|]. case_bool_decide as Hkind; [done|].
  case_bool_decide as Htr; [done|].
  destruct (check_known _ trainers _ _) as [[]|] eqn:Hkt; [|done].
  destruct (check_known _ generators _ _) as [[]|] eqn:Hkg; [|done].
  destruct (assign_slots _ _ _ _ _) as [m1|] eqn:Has; [|done]. intros Hok.
  destruct (assign_slots_ok _ _ _ _ _ _ Has) as (Hnd & _ & Hm1).
  destruct (IH _ _ _ Hok) as (Hids & Hns & Hall & Hm'). split_and!.
  - simpl. apply NoDup_cons. split; [|done]. intros (l & He & Hl)%list_elem_of_fmap.
    apply (Hns l Hl). set_solver.
  - intros l [->|Hl]%elem_of_cons; [done|]. specialize (Hns l Hl). set_solver.
  - constructor; [|done]. split_and!; [done|done|done| |]; by eapply check_known_ok.
  - intros s. destruct (Hm' s) as [Hval Hsome]. rewrite Hval, Hsome, Hm1.
    unfold declared. cbn [omap list_omap].
    destruct (position s (slots_in_rank_order lane)) as [j|]; simpl.
    + rewrite <- app_assoc. split; [done|]. split; [|eauto]. intros _. by right.
    + done.
Qed.

Lemma layout_inv ls tr gen layout :
  LaneLayout_new ls tr gen = Ok layout ->
  lanes layout = ls ∧ assign_lanes tr gen ∅ ls ∅ = Ok (by_slot layout) ∧
  check_assigned (by_slot layout) (tr ++ gen) = Ok () ∧
  length (filter (fun l => kind l = LaneBroadcast) ls) <= 1.
Proof.
  unfold LaneLayout_new. destruct tr as [|t tr]; [done|]. destruct gen as [|g gen]; [done|].
  destruct ls as [|l ls]; [done|]. case_bool_decide as Hb; [done|].
  destruct (assign_lanes _ _ _ _ _) as [m|] eqn:Ha; [|done].
  destruct (check_assigned _ _) as [[]|] eqn:Hc; [|done].
  intros [= <-]. simpl. split_and!; [done|done|done|lia].
Qed.

Lemma check_assigned_ok m slots s :
  check_assigned m slots = Ok () -> s ∈ slots -> is_Some (m !! s).
Proof.
  induction slots as [|x slots IH]; simpl; [set_solver|].
  destruct (m !! x) eqn:Hx; [|done]. intros Hok [->|Hs]%elem_of_cons; [eauto|by apply IH].
Qed.

(** The index of an accepted layout is the declaration. *)
Lemma layout_declared ls tr gen layout :
  LaneLayout_new ls tr gen = Ok layout ->
  NoDup (map lane_id ls) ∧ Forall (lane_ok tr gen) ls ∧
  forall s, by_slot layout !! s = if bool_decide (declared ls s = []) then None
                                  else Some (declared ls s).
Proof.
  intros (_ & Ha & _)%layout_inv. destruct (assign_lanes_ok _ _ _ _ _ _ Ha) as (Hids & _ & Hok & Hm).
  split_and!; [done|done|]. intros s. destruct (Hm s) as [Hval Hsome].
  rewrite lookup_empty in Hval, Hsome. simpl in Hval.
  case_bool_decide as Hd.
  - rewrite Hd in Hsome. apply eq_None_not_Some. rewrite Hsome. intros [[]|]; done.
  - destruct (by_slot layout !! s) as [a|] eqn:Hs; [by simpl in Hval; subst|].
    destruct Hsome as [_ Hsome]. destruct Hsome as [? ?]; [by right|done].
Qed.

(** An accepted layout assigns ranks exactly as declared.  Every expected
    slot has an assignment; a slot that asks gets, for each lane that lists it
    and in lane order, the rank of its position in the lane (trainers first) with
    that lane's world size; and a slot on no lane is refused.  Lane ids are
    unique, at most one lane is a broadcast lane, and every listed slot is
    expected in its role. *)
Lemma lane_assignment_exact ls tr gen layout :
  LaneLayout_new ls tr gen = Ok layout ->
  (forall s, assign layout s =
     if bool_decide (declared ls s = []) then Err (UnknownParticipant s) else Ok (declared ls s)) ∧
  (forall s, s ∈ tr ++ gen -> declared ls s ≠ []) ∧
  NoDup (map lane_id ls) ∧ Forall (lane_ok tr gen) ls ∧
  length (filter (fun l => kind l = LaneBroadcast) ls) <= 1.
Proof.
  intros Hnew. destruct (layout_declared _ _ _ _ Hnew) as (Hids & Hok & Hby).
  destruct (layout_inv _ _ _ _ Hnew) as (_ & _ & Hc & Hb). split_and!; try done.
  - intros s. unfold assign. rewrite Hby. by case_bool_decide.
  - intros s Hs Hd. destruct (check_assigned_ok _ _ _ Hc Hs) as [a Ha].
    rewrite Hby, bool_decide_eq_true_2 in Ha; done.
Qed.

Lemma elem_of_declared ls s a :
  a ∈ declared ls s ↔
  ∃ lane i, lane ∈ ls ∧ position s (slots_in_rank_order lane) = Some i ∧ a = assignment lane i.
Proof.
  unfold declared. rewrite list_elem_of_omap. split.
  - intros (lane & Hl & Ha). destruct (position s _) as [i|] eqn:Hi; [|done].
    injection Ha as <-. eauto.
  - intros (lane & i & Hl & Hi & ->). exists lane. by rewrite Hi.
Qed.

(** The conversion of a rank or world size to [u32] is exact within the bound. *)
Lemma u32_exact n : (Z.of_nat n <= u32_max)%Z -> u32_try_from_or_max n = Z.of_nat n.
Proof. intros Hn. unfold u32_try_from_or_max. by rewrite (proj2 (Z.leb_le _ _)). Qed.

Lemma assignment_exact lane i :
  (Z.of_nat (length (slots_in_rank_order lane)) <= u32_max)%Z ->
  i < length (slots_in_rank_order lane) ->
  assignment lane i = MkAssignment (lane_id lane) (kind lane) (Z.of_nat i)
                        (Z.of_nat (length (slots_in_rank_order lane))).
Proof.
  intros Hsize Hi. unfold assignment, world_size. rewrite u32_exact by lia. f_equal.
  revert Hsize. unfold slots_in_rank_order. rewrite length_app. apply u32_exact.
Qed.

(** A slot leads exactly when one of its declared ranks is 0. *)
Lemma bootstrap_leader_rank ls tr gen layout slot :
  LaneLayout_new ls tr gen = Ok layout ->
  is_bootstrap_leader layout slot = true ↔
  ∃ lane, lane ∈ ls ∧ ∃ i, position slot (slots_in_rank_order lane) = Some i ∧
                           u32_try_from_or_max i = 0%Z.
Proof.
  intros (_ & _ & Hby)%layout_declared. unfold is_bootstrap_leader. rewrite Hby.
  transitivity (∃ a, a ∈ declared ls slot ∧ as_rank_in_lane a = 0%Z).
  - case_bool_decide as Hd; [rewrite Hd; split; [done|set_solver]|].
    rewrite existsb_exists. split; intros (a & Ha & Hz); exists a.
    + by rewrite list_elem_of_In, <- Z.eqb_eq.
    + by rewrite <- list_elem_of_In, Z.eqb_eq.
  - setoid_rewrite elem_of_declared. split.
    + intros (a & (lane & i & Hl & Hi & ->) & Hz). eauto.
    + intros (lane & Hl & i & Hi & Hz). exists (assignment lane i). split; [eauto|done].
Qed.

(** Within each lane of an accepted layout the assigned ranks are a
    numbering of the members: position [i] of the lane belongs to one slot, which
    holds rank [i] of that lane, and no other slot holds an assignment with the
    same lane and rank; rank 0 is a trainer, and the bootstrap leaders are
    exactly the slots that are first in some lane.  (A lane of more than
    [u32::MAX] slots would saturate; the bound says there is none.) *)
Lemma lane_ranks_numbering ls tr gen layout :
  LaneLayout_new ls tr gen = Ok layout ->
  (forall lane, lane ∈ ls -> (Z.of_nat (length (slots_in_rank_order lane)) <= u32_max)%Z) ->
  (forall lane i slot, lane ∈ ls -> slots_in_rank_order lane !! i = Some slot ->
     MkAssignment (lane_id lane) (kind lane) (Z.of_nat i)
       (Z.of_nat (length (slots_in_rank_order lane))) ∈ declared ls slot ∧
     (i < length (trainer_slots lane) -> slot ∈ tr) ∧
     forall slot' a, a ∈ declared ls slot' -> as_lane_id a = lane_id lane ->
       as_rank_in_lane a = Z.of_nat i -> slot' = slot) ∧
  (forall slot, is_bootstrap_leader layout slot = true ↔
     ∃ lane, lane ∈ ls ∧ head (trainer_slots lane) = Some slot).
Proof.
  intros Hnew Hsize. destruct (layout_declared _ _ _ _ Hnew) as (Hids & Hok & Hby).
  rewrite Forall_forall in Hok. split.
  - intros lane i slot Hl Hi. destruct (Hok lane Hl) as (_ & _ & Hnd & Htr & _).
    pose proof (lookup_lt_Some _ _ _ Hi) as Hlt. split_and!.
    + rewrite <- assignment_exact by auto. apply elem_of_declared. exists lane, i.
      split_and!; [done|by apply position_NoDup|done].
    + intros Hit. apply Htr. unfold slots_in_rank_order in Hi. rewrite lookup_app_l in Hi by done.
      by eapply list_elem_of_lookup_2.
    + intros slot' a (lane' & j & Hl' & Hj & ->)%elem_of_declared Hid.
      assert (lane' = lane) as -> by (by eapply NoDup_map_inj). apply position_lookup in Hj.
      rewrite assignment_exact by eauto using lookup_lt_Some. simpl. intros ->%Nat2Z.inj. congruence.
  - intros slot. rewrite (bootstrap_leader_rank _ _ _ _ _ Hnew).
    split; intros (lane & Hl & H); exists lane; (split; [done|]);
      destruct (Hok lane Hl) as (_ & Hne & Hnd & _); pose proof (Hsize lane Hl) as Hu.
    + destruct H as (i & Hi & Hz). apply position_lookup in Hi.
      pose proof (lookup_lt_Some _ _ _ Hi). rewrite u32_exact in Hz by lia.
      assert (i = 0) as -> by lia. unfold slots_in_rank_order in Hi.
      by destruct (trainer_slots lane); simplify_eq/=.
    + exists 0. split; [|done]. apply position_NoDup; [done|].
      unfold slots_in_rank_order. by destruct (trainer_slots lane); simplify_eq/=.
Qed.

(** ** Witness: two reshard lanes and a broadcast lane *)

Definition sample_lanes : list Lane :=
  [MkLane 7 LaneReshard ["t0"] ["g0"]; MkLane 8 LaneReshard ["t1"] ["g1"];
   MkLane 9 LaneBroadcast ["t0"; "t1"] ["g0"; "g1"]].

Definition sample_layout : LaneLayout :=
  match LaneLayout_new sample_lanes ["t0"; "t1"] ["g0"; "g1"] with
  | Ok l => l
  | Err _ => MkLaneLayout [] ∅ 0 0
  end.

Lemma lane_assignment_exact_witness :
  assign sample_layout "g1" =
  Ok [MkAssignment 8 LaneReshard 1 2; MkAssignment 9 LaneBroadcast 3 4].
Proof.
  rewrite (proj1 (lane_assignment_exact sample_lanes ["t0"; "t1"] ["g0"; "g1"] sample_layout
                    eq_refl)). reflexivity.
Defined.

Lemma lane_ranks_numbering_witness :
  is_bootstrap_leader sample_layout "t1" = true.
Proof.
  apply (lane_ranks_numbering sample_lanes ["t0"; "t1"] ["g0"; "g1"] sample_layout eq_refl).
  - intros lane Hl. repeat (apply elem_of_cons in Hl as [->|Hl]; [discriminate|]). set_solver.
  - exists (MkLane 8 LaneReshard ["t1"] ["g1"]). split; [set_solver|reflexivity].
Defined.
