(* ===== verification/Tracker.v ===== *)
(** * Download tracker (modelexpress_server/src/services.rs)

    [ModelDownloadTracker] on one replica: the waiting channels, the background
    download task with its lease heartbeat, the deletion of a model's entries,
    and [ensure_model_downloaded].  The registry's answers, the file check and
    the download itself are arguments; each operation returns the trace of what
    it asked and did, so that the theorems can relate the two: a download is
    started exactly for the leases that were granted, and only an owner that the
    registry confirms publishes. *)

From Stdlib Require Import ZArith Lia Ascii String.
From stdpp Require Import base tactics option list gmap fin_maps strings.
From S2P Require Import Prelude RustStr RustPath Models EntryKey RegistryMemory Eviction.

(** ** Targets and updates *)

Record DownloadTarget : Type := MkDownloadTarget {
  dt_tenant : option Tenant;
  dt_model_name : string;
  dt_provider : ModelProvider;
  dt_revision : option string;
  dt_ignore_weights : bool
}.

(** [DownloadTarget::entry_key]. *)
Definition target_entry_key (t : DownloadTarget) : string :=
  to_string (in_tenant (dt_tenant t)
    (EntryKey_new (dt_model_name t) (dt_revision t) (dt_ignore_weights t))).

Record ModelStatusUpdate : Type := MkModelStatusUpdate {
  su_model_name : string;
  su_status : ModelStatus;
  su_message : option string;
  su_provider : ModelProvider;
  su_resolved_revision : option string
}.

(** [UpdateIdentity]: the routing key and the identity that updates report. *)
Record UpdateIdentity : Type := MkUpdateIdentity {
  ui_entry_key : string;
  ui_model_name : string;
  ui_provider : ModelProvider;
  ui_resolved_revision : option string
}.

Definition status_update (i : UpdateIdentity) (status : ModelStatus) (message : option string)
    : ModelStatusUpdate :=
  MkModelStatusUpdate (ui_model_name i) status message (ui_provider i) (ui_resolved_revision i).

(** [ModelServiceImpl::scope]: the partition of the verified caller. *)
Inductive scope_error : Type := ScopeUnauthenticated | ScopePermissionDenied.

Definition scope (tenant_isolation : bool) (caller : option string)
    : result (option Tenant) scope_error :=
  if negb tenant_isolation then Ok None
  else match caller with
       | None => Err ScopeUnauthenticated
       | Some namespace =>
           match Tenant_new namespace with
           | Some t => Ok (Some t)
           | None => Err ScopePermissionDenied
           end
       end.

(** ** Waiting channels *)

(** The channels of one replica, by entry key, and what was sent to each. *)
Record waiters : Type := MkWaiters {
  waiting : gmap string (list nat);
  delivered : list (nat * ModelStatusUpdate)
}.

Definition is_terminal (s : ModelStatus) : bool :=
  match s with DOWNLOADED | ERROR => true | DOWNLOADING => false end.

(** [try_send] to every registered channel; a terminal status ends the wait. *)
Definition notify_waiters (i : UpdateIdentity) (status : ModelStatus) (message : option string)
    (w : waiters) : waiters :=
  match waiting w !! ui_entry_key i with
  | None => w
  | Some channels =>
      MkWaiters
        (if is_terminal status then delete (ui_entry_key i) (waiting w) else waiting w)
        (delivered w ++ map (fun ch => (ch, status_update i status message)) channels)
  end.

Definition add_waiting_channel (entry_key : string) (ch : nat) (w : waiters) : waiters :=
  MkWaiters (<[entry_key := default [] (waiting w !! entry_key) ++ [ch]]> (waiting w))
    (delivered w).

Definition waiting_count (w : waiters) : nat := size (waiting w).

(** A terminal notification reaches every channel that waits for the entry,
    once per registration, reports the caller's model name with the resolved
    revision, and ends the wait; the waiters of other entries are untouched, and
    a progress update keeps everyone waiting. *)
Lemma notify_waiters_complete i status message w chs :
  waiting w !! ui_entry_key i = Some chs ->
  let w' := notify_waiters i status message w in
  delivered w' = delivered w ++ map (fun ch => (ch, status_update i status message)) chs ∧
  waiting w' !! ui_entry_key i = (if is_terminal status then None else Some chs) ∧
  forall k, k ≠ ui_entry_key i -> waiting w' !! k = waiting w !! k.
Proof.
  intros Hw. unfold notify_waiters. rewrite Hw. simpl. split; [done|].
  destruct (is_terminal status); [|by rewrite Hw].
  split; [apply lookup_delete_eq|]. intros. by rewrite lookup_delete_ne.
Qed.

(** ** The download task *)

Inductive task_event : Type :=
| TRefresh (claim_id : string) (reply : result bool string)
| TFinish (claim_id : string) (status : ModelStatus) (message : option string)
          (reply : result bool string)
| TNotify (status : ModelStatus) (message : option string).

(** The heartbeats answered before the download ends: a lost lease stops the
    task, a failing registry does not. *)
Fixpoint heartbeats (claim_id : string) (beats : list (result bool string))
    : list task_event * bool :=
  match beats with
  | [] => ([], true)
  | Ok false :: _ => ([TRefresh claim_id (Ok false)], false)
  | b :: beats' =>
      let '(evs, alive) := heartbeats claim_id beats' in (TRefresh claim_id b :: evs, alive)
  end.

(** The terminal status of a download result. *)
Definition task_outcome (retry : bool) (res : result unit string)
    : ModelStatus * option string :=
  match res with
  | Ok _ => (DOWNLOADED, Some "Model download completed successfully")
  | Err e =>
      (ERROR, Some (if retry then "Download failed on retry: " +:+ e
                    else "Download failed: " +:+ e))
  end.

(** [spawn_download_task]: [download] is the provider's result, a snapshot path,
    and [record] writes the manifest for it. *)
Definition download_task (claim_id : string) (retry : bool) (beats : list (result bool string))
    (download : result path string) (record : path -> result unit string)
    (finish_reply : result bool string) : list task_event :=
  let '(evs, alive) := heartbeats claim_id beats in
  if negb alive then evs
  else
    let res := let? p := download in record p in
    let '(status, message) := task_outcome retry res in
    evs ++ TFinish claim_id status message finish_reply ::
      match finish_reply with
      | Ok true => [TNotify status message]
      | _ => []
      end.

Definition is_refresh (e : task_event) : Prop :=
  match e with TRefresh _ _ => True | _ => False end.

Lemma heartbeats_refresh claim_id beats :
  Forall is_refresh (heartbeats claim_id beats).1 ∧
  (Ok false ∈ beats -> (heartbeats claim_id beats).2 = false).
Proof.
  induction beats as [|b beats [IH1 IH2]]; simpl; [split; [constructor|set_solver]|].
  destruct b as [[]|er].
  - destruct (heartbeats claim_id beats). simpl in *. split; [by constructor|].
    intros [?|?]%elem_of_cons; [done|auto].
  - split; [by repeat constructor|done].
  - destruct (heartbeats claim_id beats). simpl in *. split; [by constructor|].
    intros [?|?]%elem_of_cons; [done|auto].
Qed.

(** The trace of a task: heartbeats, then at most one finish, which an accepted
    one follows with the notification. *)
Lemma download_task_shape claim_id retry beats download record reply :
  let tr := download_task claim_id retry beats download record reply in
  let '(st, m) := task_outcome retry (let? p := download in record p) in
  ∃ evs, Forall is_refresh evs ∧
    (tr = evs ∨
     ~ Ok false ∈ beats ∧
     tr = evs ++ TFinish claim_id st m reply ::
            match reply with Ok true => [TNotify st m] | _ => [] end).
Proof.
  unfold download_task. destruct (heartbeats_refresh claim_id beats) as [Hr Hlost].
  destruct (heartbeats claim_id beats) as [evs alive]. simpl in *.
  destruct (task_outcome _ _) as [st m]. exists evs. split; [done|].
  destruct alive; simpl; [right|by left]. split; [|done]. intros Hin. by specialize (Hlost Hin).
Qed.

(** Splitting a list whose head part satisfies [P] at an element that does not. *)
Lemma app_split_not {A} (P : A -> Prop) (l1 l2 pre post : list A) x :
  Forall P l1 -> ~ P x -> l1 ++ l2 = pre ++ x :: post ->
  ∃ pre', pre = l1 ++ pre' ∧ l2 = pre' ++ x :: post.
Proof.
  intros Hl1 Hx. revert pre. induction Hl1 as [|y l1 Hy Hl1 IH]; intros pre Heq; [by exists pre|].
  destruct pre as [|z pre]; injection Heq as -> Heq; [done|].
  destruct (IH pre Heq) as (pre' & -> & ->). by exists pre'.
Qed.

(** The download task publishes only as a confirmed owner.  It notifies the
    waiters at most once, as its last act, directly after a finish for its own
    claim that the registry accepted, with the same status and message; a finish
    reports [DOWNLOADED] exactly when the provider delivered and the manifest was
    written; and a task that a heartbeat told that its lease is lost publishes
    nothing. *)
Lemma task_publishes_as_owner claim_id retry beats download record reply :
  let tr := download_task claim_id retry beats download record reply in
  (forall pre st m post, tr = pre ++ TNotify st m :: post ->
     post = [] ∧ ∃ pre', pre = pre' ++ [TFinish claim_id st m (Ok true)]) ∧
  (forall cid st m r, TFinish cid st m r ∈ tr ->
     cid = claim_id ∧ r = reply ∧
     (st = DOWNLOADED ↔ ∃ p, download = Ok p ∧ record p = Ok ())) ∧
  (Ok false ∈ beats -> Forall is_refresh tr).
Proof.
  intros tr. pose proof (download_task_shape claim_id retry beats download record reply) as Hs.
  fold tr in Hs. cbv zeta in Hs.
  assert ((task_outcome retry (let? p := download in record p)).1 = DOWNLOADED ↔
          ∃ p, download = Ok p ∧ record p = Ok ()) as Hout.
  { destruct download as [p|e]; simpl; [|split; [done|by intros (? & ? & _)]].
    destruct (record p) as [[]|e] eqn:Hrec; simpl.
    - split; [eauto|done].
    - split; [done|]. intros (? & [= <-] & ?). congruence. }
  destruct (task_outcome _ _) as [st0 m0]. simpl in Hout.
  destruct Hs as (evs & Hev & [Htr|[Hno Htr]]); rewrite Htr; clear Htr tr.
  - rewrite Forall_forall in Hev. split_and!; [|intros cid st m r Hin; by apply Hev in Hin|].
    + intros pre st m post ->. exfalso. apply (Hev (TNotify st m)). set_solver.
    + intros _. by apply Forall_forall.
  - split_and!; [| |tauto].
    + intros pre st m post Heq.
      apply (app_split_not is_refresh) in Heq as (pre' & -> & Heq); [|done|by intros []].
      destruct pre' as [|e pre']; [done|]. injection Heq as <- Heq.
      destruct reply as [[]|]; try by destruct pre'.
      destruct pre' as [|e pre']; [|by destruct pre']. injection Heq as <- <- <-.
      split; [done|]. by exists evs.
    + intros cid st m r. rewrite elem_of_app, elem_of_cons, Forall_forall in *.
      intros [Hin|[Hin|Hin]]; [by apply Hev in Hin|by simplify_eq|].
      destruct reply as [[]|]; set_solver.
Qed.

(** ** ensure_model_downloaded *)

(** What the world answers to one round: the claim, the check of the recorded
    files, and the removal of a stale record. *)
Record answer : Type := MkAnswer {
  an_claim : result ClaimOutcome string;
  an_files : bool;
  an_clear : bool
}.

Inductive ensure_event : Type :=
| EClaim (claim_id : string) (reply : result ClaimOutcome string)
| EFiles (present : bool)
| EClear (removed : bool)
| ERetry (claim_id : string) (reply : result bool string)
| ESend (u : ModelStatusUpdate)
| EWait
| ESpawn (retry : bool) (claim_id : string).

Section ensure.
Context (target : DownloadTarget) (fresh : nat -> string).

Definition ensure_identity : UpdateIdentity :=
  MkUpdateIdentity (target_entry_key target) (dt_model_name target) (dt_provider target)
    (dt_revision target).

Definition missing_files_update : ModelStatusUpdate :=
  status_update ensure_identity ERROR
    (Some ("Registry reports the model as downloaded but its files are missing from "
           +:+ "the server cache")).

Definition MAX_CLAIM_ATTEMPTS : nat := 2.

(** The claim loop: either a status with ownership, or an early return. *)
Fixpoint claim_loop (attempt : nat) (answers : list answer)
    : list ensure_event * option (ModelStatus * bool + ModelStatus) :=
  match answers with
  | [] => ([], None)
  | a :: answers' =>
      let attempt := S attempt in
      let ev := EClaim (fresh 0) (an_claim a) in
      match an_claim a with
      | Ok (Claimed | TookOver) => ([ev], Some (inl (DOWNLOADING, true)))
      | Ok (AlreadyExists DOWNLOADED) =>
          if an_files a then ([ev; EFiles true], Some (inl (DOWNLOADED, false)))
          else if decide (MAX_CLAIM_ATTEMPTS <= attempt)
          then ([ev; EFiles false; ESend missing_files_update], Some (inr ERROR))
          else
            let '(evs, r) := claim_loop attempt answers' in
            (ev :: EFiles false :: EClear (an_clear a) :: evs, r)
      | Ok (AlreadyExists existing) => ([ev], Some (inl (existing, false)))
      | Err _ =>
          ([ev; ESend (status_update ensure_identity ERROR (Some "Registry error occurred"))],
           Some (inr ERROR))
      end
  end.

Definition progress_message (status effective : ModelStatus) : option string :=
  match status, effective with
  | _, DOWNLOADED => Some "Model already downloaded"
  | ERROR, _ => Some "Previous download failed, retrying"
  | _, DOWNLOADING => Some "Model download in progress"
  | _, ERROR => Some "Download error"
  end.

(** The polling loop with claim id [fresh k]; [None] when the answers end while
    the replica still waits. *)
Fixpoint poll (k : nat) (answers : list answer) : list ensure_event * option ModelStatus :=
  match answers with
  | [] => ([], None)
  | a :: answers' =>
      let ev := EClaim (fresh k) (an_claim a) in
      match an_claim a with
      | Ok (Claimed | TookOver) =>
          let '(evs, r) := poll (S k) answers' in
          (ev :: ESpawn false (fresh k) :: evs, r)
      | Ok (AlreadyExists DOWNLOADED) =>
          if an_files a then ([ev; EFiles true], Some DOWNLOADED)
          else if negb (an_clear a)
          then ([ev; EFiles false; EClear false; ESend missing_files_update], Some ERROR)
          else
            let '(evs, r) := poll k answers' in
            (ev :: EFiles false :: EClear true :: evs, r)
      | Ok (AlreadyExists ERROR) => ([ev], Some ERROR)
      | Ok (AlreadyExists DOWNLOADING) | Err _ =>
          let '(evs, r) := poll k answers' in (ev :: evs, r)
      end
  end.

(** The part after the claim loop. *)
Definition after_claim (status : ModelStatus) (is_owner : bool) (retry_reply : result bool string)
    (polls : list answer) : list ensure_event * option ModelStatus :=
  let retry_part :=
    if bool_decide (status = ERROR) then
      match retry_reply with
      | Ok won => ([ERetry (fresh 0) (Ok won)], inl (DOWNLOADING, won))
      | Err e =>
          ([ERetry (fresh 0) (Err e);
            ESend (status_update ensure_identity ERROR
                     (Some "Registry error occurred during retry"))], inr ERROR)
      end
    else ([], inl (status, false)) in
  match retry_part with
  | (evs, inr st) => (evs, Some st)
  | (evs, inl (effective, is_retry_owner)) =>
      let evs := evs ++ [ESend (status_update ensure_identity effective
                                  (progress_message status effective))] in
      if bool_decide (effective = DOWNLOADING) then
        let evs := evs ++ [EWait] in
        if is_owner || is_retry_owner then
          let '(evs', r) := poll 1 polls in
          (evs ++ ESpawn (bool_decide (status = ERROR)) (fresh 0) :: evs', r)
        else
          let '(evs', r) := poll 0 polls in (evs ++ evs', r)
      else (evs, Some effective)
  end.

Definition ensure_model_downloaded (claims : list answer) (retry_reply : result bool string)
    (polls : list answer) : list ensure_event * option ModelStatus :=
  let '(evs, r) := claim_loop 0 claims in
  match r with
  | None => (evs, None)
  | Some (inr st) => (evs, Some st)
  | Some (inl (status, is_owner)) =>
      let '(evs', r) := after_claim status is_owner retry_reply polls in (evs ++ evs', r)
  end.

(** ** Ownership accounting *)

(** The claim ids that the registry granted, and those for which a download was
    started, in order. *)
Definition grant (e : ensure_event) : option string :=
  match e with
  | EClaim c (Ok o) => if owns_download o then Some c else None
  | ERetry c (Ok true) => Some c
  | _ => None
  end.

Definition spawned (e : ensure_event) : option string :=
  match e with ESpawn _ c => Some c | _ => None end.

(** The claim loop starts nothing; it ends as owner exactly if it was granted. *)
Lemma claim_loop_grants answers : forall attempt,
  let '(evs, r) := claim_loop attempt answers in
  omap spawned evs = [] ∧
  omap grant evs = match r with Some (inl (_, true)) => [fresh 0] | _ => [] end ∧
  (forall st, r = Some (inl (st, true)) -> st = DOWNLOADING).
Proof.
  induction answers as [|a answers IH]; intros attempt; cbn [claim_loop]; [done|].
  destruct (an_claim a) as [[| |[]]|e] eqn:Ha; try (split_and!; [done|done|naive_solver]).
  destruct (an_files a); [split_and!; [done|done|naive_solver]|].
  case_decide; [split_and!; [done|done|naive_solver]|].
  specialize (IH (S attempt)). by destruct (claim_loop (S attempt) answers).
Qed.

Lemma poll_grants answers : forall k,
  omap spawned (poll k answers).1 = omap grant (poll k answers).1.
Proof.
  induction answers as [|a answers IH]; intros k; cbn [poll]; [done|].
  pose proof (IH k) as IHk. pose proof (IH (S k)) as IHs.
  destruct (poll k answers) as [evs r], (poll (S k) answers) as [evs' r']. simpl in IHk, IHs.
  destruct (an_claim a) as [[| |[]]|e]; simpl; try done; try (by f_equal).
  destruct (an_files a); [done|]. by destruct (an_clear a).
Qed.

(** What the part after the claim loop starts, given what the claim loop got. *)
Lemma after_claim_grants status is_owner retry_reply polls :
  (is_owner = true -> status = DOWNLOADING) ->
  let evs := (after_claim status is_owner retry_reply polls).1 in
  omap spawned evs = (if is_owner then [fresh 0] else []) ++ omap grant evs.
Proof.
  intros Hown evs. subst evs. unfold after_claim.
  destruct is_owner.
  - rewrite (Hown eq_refl). simpl. pose proof (poll_grants polls 1) as Hp.
    destruct (poll 1 polls). simpl in *. by f_equal.
  - destruct status; simpl.
    + pose proof (poll_grants polls 0) as Hp. by destruct (poll 0 polls).
    + done.
    + destruct retry_reply as [[]|e]; simpl; [| |done].
      * pose proof (poll_grants polls 1) as Hp. destruct (poll 1 polls). simpl in *. by f_equal.
      * pose proof (poll_grants polls 0) as Hp. by destruct (poll 0 polls).
Qed.

(** A replica downloads exactly what it was granted.  Over a whole call, for
    every sequence of registry answers, the claim ids for which a download task
    is started are the claim ids that the registry granted (a fresh claim, a
    takeover, or a won retry), in the same order: no grant is dropped, so no
    entry stays [DOWNLOADING] without a running owner, and no download runs
    without a lease. *)
Lemma ensure_spawns_are_grants claims retry_reply polls :
  let evs := (ensure_model_downloaded claims retry_reply polls).1 in
  omap spawned evs = omap grant evs.
Proof.
  unfold ensure_model_downloaded. pose proof (claim_loop_grants claims 0) as Hc.
  destruct (claim_loop 0 claims) as [evs r]. destruct Hc as (Hs & Hg & Hown).
  destruct r as [[[status is_owner]|st]|]; simpl; [|by rewrite Hs, Hg..].
  pose proof (after_claim_grants status is_owner retry_reply polls) as Ha.
  destruct (after_claim status is_owner retry_reply polls) as [evs' r]. simpl in *.
  rewrite !omap_app, Hs, Hg, Ha by (intros ->; by apply (Hown status)).
  by destruct is_owner.
Qed.

Lemma last_cons_Some {A} (x y : A) l : last l = Some y -> last (x :: l) = Some y.
Proof. intros Hl. by rewrite last_cons, Hl. Qed.

Lemma poll_downloaded polls : forall k,
  (poll k polls).2 = Some DOWNLOADED -> last (poll k polls).1 = Some (EFiles true).
Proof.
  induction polls as [|a polls IH]; intros k; cbn [poll]; [done|].
  pose proof (IH k) as IHk. pose proof (IH (S k)) as IHs.
  destruct (poll k polls) as [evs r], (poll (S k) polls) as [evs' r']. cbn [fst snd] in *.
  destruct (an_claim a) as [[| |[]]|e]; cbn [fst snd]; try done;
    try (intros Hr; repeat apply last_cons_Some; by auto).
  destruct (an_files a); [done|]. destruct (an_clear a); cbn [negb fst snd]; [|done].
  intros Hr. repeat apply last_cons_Some. auto.
Qed.

Lemma claim_loop_downloaded claims : forall attempt,
  match (claim_loop attempt claims).2 with
  | Some (inl (DOWNLOADED, _)) => last (claim_loop attempt claims).1 = Some (EFiles true)
  | Some (inr st) => st = ERROR
  | _ => True
  end.
Proof.
  induction claims as [|a claims IH]; intros attempt; cbn [claim_loop]; [done|].
  destruct (an_claim a) as [[| |[]]|e]; try done.
  destruct (an_files a); [done|]. case_decide; [done|].
  specialize (IH (S attempt)). destruct (claim_loop (S attempt) claims) as [evs r].
  cbn [fst snd] in *. destruct r as [[[[] ?]|?]|]; try done.
  by repeat apply last_cons_Some.
Qed.

Definition is_send (e : ensure_event) : Prop := match e with ESend _ => True | _ => False end.

Lemma after_claim_downloaded status is_owner retry_reply polls :
  (after_claim status is_owner retry_reply polls).2 = Some DOWNLOADED ->
  status = DOWNLOADED ∧ Forall is_send (after_claim status is_owner retry_reply polls).1 ∨
  last (after_claim status is_owner retry_reply polls).1 = Some (EFiles true).
Proof.
  unfold after_claim.
  pose proof (poll_downloaded polls 0) as Hp0. pose proof (poll_downloaded polls 1) as Hp1.
  destruct (poll 0 polls) as [evs0 r0], (poll 1 polls) as [evs1 r1]. cbn [fst snd] in Hp0, Hp1.
  destruct status; simpl.
  - right. destruct is_owner; simpl in *.
    + specialize (Hp1 ltac:(done)). by destruct evs1.
    + specialize (Hp0 ltac:(done)). by destruct evs0.
  - left. split; [done|]. by repeat constructor.
  - right. destruct retry_reply as [[]|e]; simpl in *; [| |done].
    + rewrite orb_true_r in *. specialize (Hp1 ltac:(done)). by destruct evs1.
    + rewrite orb_false_r in *. destruct is_owner; simpl in *.
      * specialize (Hp1 ltac:(done)). by destruct evs1.
      * specialize (Hp0 ltac:(done)). by destruct evs0.
Qed.

(** C31: the tracker never reports a false success: when
    [ensure_model_downloaded] returns [DOWNLOADED], the last thing it did, apart
    from sending an update, was to verify that every file recorded for the model
    is in this server's cache. *)
Theorem ensure_downloaded_verified claims retry_reply polls :
  (ensure_model_downloaded claims retry_reply polls).2 = Some DOWNLOADED ->
  ∃ pre post, (ensure_model_downloaded claims retry_reply polls).1 = pre ++ EFiles true :: post ∧
              Forall is_send post.
Proof.
  unfold ensure_model_downloaded. pose proof (claim_loop_downloaded claims 0) as Hc.
  destruct (claim_loop 0 claims) as [evs r]. cbn [fst snd] in Hc.
  destruct r as [[[status is_owner]|st]|]; [|by simpl; subst|done].
  pose proof (after_claim_downloaded status is_owner retry_reply polls) as Ha.
  destruct (after_claim status is_owner retry_reply polls) as [evs' r]. cbn [fst snd] in *.
  intros Hr. destruct (Ha Hr) as [[-> Hsend]|Hlast].
  - apply last_Some in Hc as [l ->]. exists l, evs'. by rewrite <- (assoc_L (++)).
  - apply last_Some in Hlast as [l ->]. exists (evs ++ l), []. by rewrite (assoc_L (++)).
Qed.
End ensure.

Definition sample_target : DownloadTarget := MkDownloadTarget None "org/m" HuggingFace None false.

Definition sample_fresh (k : nat) : string := match k with 0 => "c0" | _ => "c1" end.

(** The replica waits for another owner, takes over its expired lease, and sees
    its own download complete. *)
Lemma ensure_downloaded_verified_witness :
  ∃ pre post,
    (ensure_model_downloaded sample_target sample_fresh
       [MkAnswer (Ok (AlreadyExists DOWNLOADING)) false false] (Ok false)
       [MkAnswer (Ok TookOver) false false; MkAnswer (Ok (AlreadyExists DOWNLOADED)) true false]).1
    = pre ++ EFiles true :: post ∧ Forall is_send post.
Proof.
  apply (ensure_downloaded_verified sample_target sample_fresh
    [MkAnswer (Ok (AlreadyExists DOWNLOADING)) false false] (Ok false)
    [MkAnswer (Ok TookOver) false false; MkAnswer (Ok (AlreadyExists DOWNLOADED)) true false]).
  reflexivity.
Defined.

(** ** Deleting the entries of a model *)

Record DeleteEntriesOutcome : Type := MkDeleteEntriesOutcome {
  removed : nat;
  degraded : bool
}.

Section delete.
Context {R RE : Type} `{Registry R RE}.

(** The registry record and the local waiters of one entry; the flag says
    whether the registry confirmed. *)
Definition delete_status (entry_key : string) (reg : R) (w : waiters) : R * waiters * bool :=
  let '(reg', r) := reg_delete entry_key reg in
  (reg', MkWaiters (delete entry_key (waiting w)) (delivered w),
   match r with Ok _ => true | Err _ => false end).

(** One iteration over the listed records. *)
Definition delete_entry (tenant : option Tenant) (model_name : string)
    (acc : R * waiters * nat) (record : ModelRecord) : R * waiters * nat :=
  let '(reg, w, n) := acc in
  if belongs_to (parse (mr_model_name record)) tenant model_name then
    let '(reg', w', _) := delete_status (mr_model_name record) reg w in (reg', w', S n)
  else acc.

Definition delete_model_entries (tenant : option Tenant) (model_name : string) (reg : R)
    (w : waiters) : R * waiters * DeleteEntriesOutcome :=
  match reg_list None reg with
  | Err _ =>
      let fallback := to_string (in_tenant tenant (EntryKey_new model_name None false)) in
      let '(reg', w', _) := delete_status fallback reg w in
      (reg', w', MkDeleteEntriesOutcome 0 true)
  | Ok records =>
      let '(reg', w', n) := foldl (delete_entry tenant model_name) (reg, w, 0) records in
      (reg', w', MkDeleteEntriesOutcome n false)
  end.
End delete.

Section delete_memory.
Context `{HashIterLaws}.

(** The names that a deletion addresses. *)
Definition addressed (tenant : option Tenant) (model_name n : string) : bool :=
  belongs_to (parse n) tenant model_name.

Lemma elem_of_cons_ne (n a : string) l :
  n ≠ a -> bool_decide (n ∈ a :: l) = bool_decide (n ∈ l).
Proof. intros Hne. apply bool_decide_ext. rewrite elem_of_cons. tauto. Qed.

Lemma elem_of_cons_eq (a : string) l : bool_decide (a ∈ a :: l) = true.
Proof. apply bool_decide_eq_true_2, list_elem_of_here. Qed.

Lemma delete_entries_fold tenant model_name records : forall (s : InMemoryState) w k,
  let '(s', w', k') := foldl (delete_entry tenant model_name) (s, w, k) records in
  (forall n, models s' !! n =
     if bool_decide (n ∈ map mr_model_name records) && addressed tenant model_name n
     then None else models s !! n) ∧
  (forall n, waiting w' !! n =
     if bool_decide (n ∈ map mr_model_name records) && addressed tenant model_name n
     then None else waiting w !! n) ∧
  k' = k + length (List.filter (fun r => addressed tenant model_name (mr_model_name r)) records).
Proof.
  induction records as [|r records IH]; intros s w k; cbn [foldl map List.filter].
  { split_and!; [done|done|simpl; lia]. }
  unfold delete_entry at 2, delete_status. fold (addressed tenant model_name (mr_model_name r)).
  simpl reg_delete. destruct (addressed tenant model_name (mr_model_name r)) eqn:Hr.
  - match goal with |- context [foldl _ (?s1, ?w1, ?k1) _] => specialize (IH s1 w1 k1) end.
    destruct (foldl _ _ records) as [[s' w'] k']. destruct IH as (Hm & Hw & Hk).
    split_and!; [| |simpl; lia]; intros n; rewrite ?Hm, ?Hw; simpl;
      (destruct (decide (n = mr_model_name r)) as [->|Hne];
       [rewrite lookup_delete_eq, elem_of_cons_eq, Hr; by destruct (bool_decide _)
       |by rewrite lookup_delete_ne, elem_of_cons_ne]).
  - specialize (IH s w k). destruct (foldl _ _ records) as [[s' w'] k'].
    destruct IH as (Hm & Hw & Hk). split_and!; [| |done]; intros n; rewrite ?Hm, ?Hw;
      (destruct (decide (n = mr_model_name r)) as [->|Hne];
       [by rewrite Hr, !andb_false_r|by rewrite elem_of_cons_ne]).
Qed.

(** Deleting a model clears its partition and nothing else: every registry
    entry of that model name in the caller's partition, whatever revision or
    weight mode, is removed with its waiters and counted once; every entry of
    another tenant or model stays. *)
Lemma delete_model_entries_exact tenant model_name (s : InMemoryState) w :
  Memory.inv s ->
  let '(s', w', out) := delete_model_entries tenant model_name s w in
  degraded out = false ∧
  (forall n, models s' !! n =
     if addressed tenant model_name n then None else models s !! n) ∧
  removed out = length (List.filter (fun r => addressed tenant model_name (mr_model_name r))
                          (Memory.get_models_by_last_used None s)).
Proof.
  intros Hinv. unfold delete_model_entries.
  change (reg_list None s) with
    (Ok (E := Empty_set) (Memory.get_models_by_last_used None s)). cbv beta iota.
  pose proof (delete_entries_fold tenant model_name (Memory.get_models_by_last_used None s) s w 0)
    as Hf.
  destruct (foldl _ _ (Memory.get_models_by_last_used None s)) as [[s' w'] k'].
  destruct Hf as (Hm & _ & Hk). cbn [degraded removed]. split_and!; [done| |done].
  intros n. rewrite Hm. destruct (addressed tenant model_name n); [|by rewrite andb_false_r].
  rewrite andb_true_r. case_bool_decide as Hn; [done|].
  destruct (models s !! n) as [r|] eqn:Hr; [|done]. destruct Hn.
  apply list_elem_of_fmap. exists r. split; [by destruct Hinv as [_ Hname]; rewrite (Hname n r)|].
  apply listing_elem. eauto.
Qed.
End delete_memory.

(** Deleting "org/m" in the untenanted partition removes both revisions. *)
Lemma delete_model_entries_exact_witness :
  let '(s', w', out) := delete_model_entries None "org/m" two_revisions (MkWaiters ∅ []) in
  models s' !! rev_key "r1" = None ∧ models s' !! rev_key "r2" = None ∧ removed out = 2.
Proof.
  pose proof (delete_model_entries_exact None "org/m" two_revisions (MkWaiters ∅ [])
                two_revisions_inv) as Hw.
  destruct (delete_model_entries None "org/m" two_revisions (MkWaiters ∅ [])) as [[s' w'] out].
  destruct Hw as (_ & Hm & Hk). rewrite !Hm, Hk. split_and!; reflexivity.
Defined.
