(* ===== verification/Fs.v ===== *)
(** * A file system

    The calls of [std::fs] that the code uses, on a store that maps the
    canonical absolute path of every entry to its kind.  Symbolic links are
    entries of their own and are followed component by component, at most
    [MAX_SYMLINKS] in one resolution (Linux gives [ELOOP] after 40).  A call
    fails for what the store says; failures of the device or of permissions are
    not modelled, and no other process changes the store during a call. *)

From Stdlib Require Import ZArith Lia Ascii String Strings.Byte.
From stdpp Require Import base tactics option list gmap fin_maps strings.
From S2P Require Import Prelude RustStr RustPath.

Abbreviation bytes := (list Byte.byte).

#[export] Instance byte_eq_decision : EqDecision Byte.byte := Byte.byte_eq_dec.

#[export] Instance component_countable : Countable component.
Proof.
  refine (inj_countable
    (fun c => match c with
              | RootDir => inl (inl tt) | CurDir => inl (inr tt)
              | ParentDir => inr (inl tt) | Normal s => inr (inr s)
              end)
    (fun x => match x with
              | inl (inl _) => Some RootDir | inl (inr _) => Some CurDir
              | inr (inl _) => Some ParentDir | inr (inr s) => Some (Normal s)
              end) _).
  by intros [].
Defined.

Inductive node : Type :=
| FileNode (data : bytes)
| DirNode
| SymlinkNode (target : path)
| OtherNode.

#[export] Instance node_eq_dec : EqDecision node.
Proof. solve_decision. Defined.

Abbreviation fs := (gmap path node).

(** The [errno]s that the calls below give. *)
Inductive io_error : Type := ENOENT | ENOTDIR | EISDIR | EEXIST | ELOOP.

#[export] Instance io_error_eq_dec : EqDecision io_error.
Proof. solve_decision. Defined.

Definition MAX_SYMLINKS : nat := 40.
#[global] Opaque MAX_SYMLINKS.

Definition is_dir_at (s : fs) (p : path) : bool := bool_decide (s !! p = Some DirNode).

(** The parent of a canonical path; the parent of the root is the root. *)
Definition up (p : path) : path :=
  match p with [RootDir] => [RootDir] | _ => removelast p end.

(** Path resolution from the directory [d], every link followed. *)
Fixpoint walk (s : fs) (links : nat) : path -> path -> result path io_error :=
  fix go (d rest : path) {struct rest} : result path io_error :=
    match rest with
    | [] => Ok d
    | RootDir :: rest' => go [RootDir] rest'
    | CurDir :: rest' => if is_dir_at s d then go d rest' else Err ENOTDIR
    | ParentDir :: rest' => if is_dir_at s d then go (up d) rest' else Err ENOTDIR
    | Normal n :: rest' =>
        if is_dir_at s d then
          match s !! (d ++ [Normal n]) with
          | None => Err ENOENT
          | Some (SymlinkNode t) =>
              match links with
              | 0 => Err ELOOP
              | S links' => walk s links' d (t ++ rest')
              end
          | Some _ => go (d ++ [Normal n]) rest'
          end
        else Err ENOTDIR
    end.

Section calls.
Context (cwd : path).

(** [Path::canonicalize]. *)
Definition canonicalize (s : fs) (p : path) : result path io_error :=
  match p with
  | [] => Err ENOENT
  | _ => walk s MAX_SYMLINKS cwd p
  end.

(** [Path::exists] and [Path::is_dir]: a failed resolution is [false]. *)
Definition path_exists (s : fs) (p : path) : bool :=
  match canonicalize s p with Ok _ => true | Err _ => false end.

Definition is_dir (s : fs) (p : path) : bool :=
  match canonicalize s p with Ok q => is_dir_at s q | Err _ => false end.

(** The entry that a path names without following its last component: the
    canonical directory and the name in it. *)
Definition entry_of (s : fs) (p : path) : result path io_error :=
  match last p with
  | Some (Normal n) =>
      let? d := match removelast p with [] => Ok cwd | q => canonicalize s q end in
      if is_dir_at s d then Ok (d ++ [Normal n]) else Err ENOTDIR
  | _ => canonicalize s p
  end.

(** [fs::symlink_metadata]. *)
Definition symlink_metadata (s : fs) (p : path) : result node io_error :=
  let? e := entry_of s p in
  match s !! e with Some n => Ok n | None => Err ENOENT end.

(** [fs::remove_file]: unlinks the entry itself, never a directory. *)
Definition remove_file (s : fs) (p : path) : result fs io_error :=
  let? e := entry_of s p in
  match s !! e with
  | None => Err ENOENT
  | Some DirNode => Err EISDIR
  | Some _ => Ok (delete e s)
  end.

(** [OpenOptions::new().write(true).create_new(true).open(p)]: the entry of the
    new, empty file. *)
Definition create_new (s : fs) (p : path) : result (fs * path) io_error :=
  let? e := entry_of s p in
  match s !! e with
  | Some _ => Err EEXIST
  | None => Ok (<[e := FileNode []]> s, e)
  end.

(** [write_all] on the open file at [h]. *)
Definition write_all (h : path) (data : bytes) (s : fs) : fs :=
  match s !! h with
  | Some (FileNode d) => <[h := FileNode (d ++ data)]> s
  | _ => s
  end.

Definition mkdir (s : fs) (p : path) : result fs io_error :=
  let? e := entry_of s p in
  match s !! e with
  | Some _ => Err EEXIST
  | None => Ok (<[e := DirNode]> s)
  end.

(** [fs::create_dir_all] on the reversed path: create the directory, or its
    parents first when they are missing; an existing directory is fine. *)
Fixpoint create_dir_all_rev (s : fs) (rp : path) : result fs (fs * io_error) :=
  match rp with
  | [] => Ok s
  | _ :: rq =>
      let p := reverse rp in
      match mkdir s p with
      | Ok s' => Ok s'
      | Err ENOENT =>
          let? s' := create_dir_all_rev s rq in
          match mkdir s' p with
          | Ok s'' => Ok s''
          | Err e => if is_dir s' p then Ok s' else Err (s', e)
          end
      | Err e => if is_dir s p then Ok s else Err (s, e)
      end
  end.

Definition create_dir_all (s : fs) (p : path) : result fs (fs * io_error) :=
  create_dir_all_rev s (reverse p).

End calls.

(** ** Growth of a store

    [grows s s']: [s'] has the entries of [s] and possibly new directories. *)

Definition grows (s s' : fs) : Prop :=
  forall p, s' !! p = s !! p ∨ (s !! p = None ∧ s' !! p = Some DirNode).

#[export] Instance grows_preorder : PreOrder grows.
Proof.
  split; [by left|]. intros s1 s2 s3 H12 H23 p.
  destruct (H12 p) as [H1|[H1 H1']], (H23 p) as [H2|[H2 H2']]; rewrite ?H1, ?H2 in *; naive_solver.
Qed.

Lemma grows_lookup s s' p n : grows s s' -> s !! p = Some n -> s' !! p = Some n.
Proof. intros Hg Hs. destruct (Hg p) as [->|[? _]]; congruence. Qed.

Lemma grows_is_dir s s' p : grows s s' -> is_dir_at s p = true -> is_dir_at s' p = true.
Proof.
  unfold is_dir_at. rewrite !bool_decide_eq_true. apply grows_lookup.
Qed.

(** A path that resolves in a store resolves in the same way in a store that
    only has more entries; so unlinking entries never redirects a path, it only
    makes it dangle. *)
Lemma walk_mono s s' :
  (forall p n, s !! p = Some n -> s' !! p = Some n) ->
  forall links d rest q, walk s links d rest = Ok q -> walk s' links d rest = Ok q.
Proof.
  intros Hsub. assert (forall p, is_dir_at s p = true -> is_dir_at s' p = true) as Hdir.
  { intros p. unfold is_dir_at. rewrite !bool_decide_eq_true. apply Hsub. }
  induction links as [|links IH]; intros d rest; revert d;
    induction rest as [|[| | |n] rest IHr]; intros d q; simpl; try done; try apply IHr;
    try (destruct (is_dir_at s d) eqn:Hd; [|done]; rewrite (Hdir _ Hd); apply IHr);
    (destruct (is_dir_at s d) eqn:Hd; [|done]; rewrite (Hdir _ Hd));
    (destruct (s !! (d ++ [Normal n])) as [[]|] eqn:Hn; [| | | |done]);
    rewrite (Hsub _ _ Hn); try apply IHr; try apply IH; done.
Qed.

Lemma canonicalize_mono cwd s s' p q :
  (forall r n, s !! r = Some n -> s' !! r = Some n) ->
  canonicalize cwd s p = Ok q -> canonicalize cwd s' p = Ok q.
Proof. intros Hsub. destruct p; [done|]. by apply walk_mono. Qed.

Lemma entry_of_mono cwd s s' p e :
  (forall r n, s !! r = Some n -> s' !! r = Some n) ->
  entry_of cwd s p = Ok e -> entry_of cwd s' p = Ok e.
Proof.
  intros Hsub. unfold entry_of.
  destruct (last p) as [[| | |n]|]; try (by apply canonicalize_mono).
  destruct (removelast p) as [|c q].
  - destruct (is_dir_at s cwd) eqn:Hd; [|done]. unfold is_dir_at in *.
    rewrite bool_decide_eq_true in Hd. by rewrite bool_decide_eq_true_2 by auto.
  - destruct (canonicalize cwd s (c :: q)) as [d|] eqn:Hc; [|done].
    rewrite (canonicalize_mono _ _ _ _ _ Hsub Hc).
    destruct (is_dir_at s d) eqn:Hd; [|done]. unfold is_dir_at in *.
    rewrite bool_decide_eq_true in Hd. by rewrite bool_decide_eq_true_2 by auto.
Qed.

Lemma mkdir_grows cwd s p s' : mkdir cwd s p = Ok s' -> grows s s'.
Proof.
  unfold mkdir. destruct (entry_of cwd s p) as [e|]; [|done].
  destruct (s !! e) eqn:He; [done|]. intros [= <-] q.
  destruct (decide (e = q)) as [->|Hne]; [right|left].
  - by rewrite lookup_insert_eq.
  - by rewrite lookup_insert_ne.
Qed.

(** [create_dir_all] only adds directories, also when it fails half way. *)
Lemma create_dir_all_grows cwd s p :
  match create_dir_all cwd s p with Ok s' => grows s s' | Err (s', _) => grows s s' end.
Proof.
  unfold create_dir_all. revert s. induction (reverse p) as [|c rp IH]; intros s; cbn [create_dir_all_rev].
  { done. }
  destruct (mkdir cwd s (reverse (c :: rp))) as [s1|e] eqn:Hm; [by eapply mkdir_grows|].
  assert (match (if is_dir cwd s (reverse (c :: rp)) then Ok s else Err (s, e)) with
          | Ok s' => grows s s' | Err (s', _) => grows s s' end) as Hsame.
  { by destruct (is_dir _ _ _). }
  destruct e; try exact Hsame. clear Hsame. specialize (IH s).
  destruct (create_dir_all_rev cwd s rp) as [s1|[s1 e1]]; [|done].
  destruct (mkdir cwd s1 _) as [s2|e2] eqn:Hm2.
  - etrans; [done|]. by eapply mkdir_grows.
  - by destruct (is_dir _ _ _).
Qed.

(** ** Paths without links

    [abs names] is an absolute path of plain names; it is canonical when every
    directory on the way is there. *)

Definition abs (names : list string) : path := RootDir :: map Normal names.

Lemma abs_snoc names n : abs (names ++ [n]) = abs names ++ [Normal n].
Proof. unfold abs. by rewrite map_app. Qed.

Definition dirs_to (s : fs) (p : path) : Prop :=
  forall q, q ≠ [] -> q `prefix_of` p -> s !! q = Some DirNode.

(** Every place on the way is free or a directory. *)
Definition way_free (s : fs) (p : path) : Prop :=
  s !! [RootDir] = Some DirNode ∧
  forall q, q ≠ [] -> q `prefix_of` p -> s !! q = None ∨ s !! q = Some DirNode.

Lemma walk_nil s links d : walk s links d [] = Ok d.
Proof. by destruct links. Qed.

Lemma walk_root s links d rest : walk s links d (RootDir :: rest) = walk s links [RootDir] rest.
Proof. by destruct links. Qed.

Lemma walk_missing s links d n rest :
  s !! d = Some DirNode -> s !! (d ++ [Normal n]) = None ->
  walk s links d (Normal n :: rest) = Err ENOENT.
Proof.
  intros Hd Hn. destruct links; simpl; unfold is_dir_at; by rewrite bool_decide_eq_true_2, Hn.
Qed.

Lemma walk_dir s links d n rest :
  s !! d = Some DirNode -> s !! (d ++ [Normal n]) = Some DirNode ->
  walk s links d (Normal n :: rest) = walk s links (d ++ [Normal n]) rest.
Proof.
  intros Hd Hn. destruct links; simpl; unfold is_dir_at; by rewrite bool_decide_eq_true_2, Hn.
Qed.

(** A free way either is all there, or the path does not exist yet. *)
Lemma walk_way s links a b :
  way_free s (abs (a ++ b)) -> s !! abs a = Some DirNode ->
  (walk s links (abs a) (map Normal b) = Ok (abs (a ++ b)) ∧
   forall q, abs a `prefix_of` q -> q `prefix_of` abs (a ++ b) -> s !! q = Some DirNode) ∨
  walk s links (abs a) (map Normal b) = Err ENOENT.
Proof.
  revert a. induction b as [|n b IH]; intros a Hw Ha; cbn [map].
  - left. rewrite walk_nil, app_nil_r. split; [done|]. intros q H1 H2.
    by rewrite (anti_symm prefix q (abs a)).
  - rewrite (cons_middle n a b), app_assoc in *.
    destruct (proj2 Hw (abs (a ++ [n]))) as [Hn|Hn].
    + done.
    + unfold abs. rewrite (map_app Normal (a ++ [n])). by eexists.
    + right. rewrite abs_snoc in Hn. by apply walk_missing.
    + rewrite walk_dir; [|done|by rewrite <- abs_snoc]. rewrite <- abs_snoc.
      destruct (IH (a ++ [n]) Hw Hn) as [[Hok Hdirs]|Herr]; [left|by right].
      split; [done|]. intros q H1 H2.
      destruct (decide (q = abs a)) as [->|Hne]; [done|]. apply Hdirs; [|done].
      destruct (prefix_weak_total q (abs (a ++ [n])) (abs ((a ++ [n]) ++ b))) as [Hq|Hq];
        [done|unfold abs; rewrite (map_app Normal (a ++ [n])); by eexists| |done].
      rewrite abs_snoc in Hq. destruct H1 as [r ->]. destruct Hq as [r' Hq].
      rewrite <- app_assoc in Hq. apply app_inv_head in Hq.
      destruct r as [|x r]; [by rewrite app_nil_r in Hne|]. injection Hq as <- Hr.
      symmetry in Hr. apply app_nil in Hr as [-> _]. by rewrite abs_snoc.
Qed.

Lemma canonicalize_abs cwd s l :
  canonicalize cwd s (abs l) = walk s MAX_SYMLINKS (abs []) (map Normal l).
Proof. apply walk_root. Qed.

Lemma canonicalize_way cwd s l :
  way_free s (abs l) ->
  (canonicalize cwd s (abs l) = Ok (abs l) ∧ dirs_to s (abs l)) ∨
  canonicalize cwd s (abs l) = Err ENOENT.
Proof.
  intros Hw. rewrite canonicalize_abs.
  destruct (walk_way s MAX_SYMLINKS [] l) as [[Hok Hdirs]|Herr]; [done|apply Hw| |by right].
  left. split; [done|]. intros q Hq Hpre. apply Hdirs; [|done].
  destruct q as [|c q]; [done|]. destruct Hpre as [r [= <- _]]. by exists q.
Qed.

Lemma walk_dirs s links a b :
  dirs_to s (abs (a ++ b)) -> walk s links (abs a) (map Normal b) = Ok (abs (a ++ b)).
Proof.
  revert a. induction b as [|n b IH]; intros a Hab; cbn [map].
  - by rewrite walk_nil, app_nil_r.
  - rewrite (cons_middle n a b), app_assoc in *.
    assert (abs (a ++ [n]) `prefix_of` abs ((a ++ [n]) ++ b)) as Hpre.
    { unfold abs. rewrite (map_app Normal (a ++ [n])). by eexists. }
    rewrite walk_dir, <- abs_snoc; [by apply IH| |rewrite <- abs_snoc; by apply Hab].
    apply Hab; [done|]. etrans; [|exact Hpre]. rewrite abs_snoc. by eexists.
Qed.

Lemma canonicalize_dirs cwd s l : dirs_to s (abs l) -> canonicalize cwd s (abs l) = Ok (abs l).
Proof. intros Hd. rewrite canonicalize_abs. by apply walk_dirs. Qed.

Lemma entry_of_dirs cwd s l n :
  dirs_to s (abs l) -> entry_of cwd s (abs (l ++ [n])) = Ok (abs (l ++ [n])).
Proof.
  intros Hd. unfold entry_of. rewrite abs_snoc, last_snoc, removelast_last.
  change (abs l) with (RootDir :: map Normal l) at 1. cbv iota.
  change (RootDir :: map Normal l) with (abs l). rewrite canonicalize_dirs by done.
  unfold is_dir_at. by rewrite bool_decide_eq_true_2 by (by apply Hd).
Qed.

(** Below an existing directory [mkdir], with an existing directory accepted. *)
Lemma mkdir_way cwd s l n :
  let p := abs (l ++ [n]) in
  dirs_to s (abs l) -> s !! p = None ∨ s !! p = Some DirNode ->
  mkdir cwd s p ≠ Err ENOENT ∧
  ∃ s', (match mkdir cwd s p with
         | Ok s' => Ok s'
         | Err e => if is_dir cwd s p then Ok s else Err (s, e) end) = Ok s' ∧
    dirs_to s' p ∧ forall q, s' !! q = s !! q ∨ (s !! q = None ∧ s' !! q = Some DirNode ∧ q = p).
Proof.
  intros p Hd Hp. unfold mkdir.
  assert (entry_of cwd s p = Ok p) as -> by by apply entry_of_dirs.
  assert (forall s', (forall q, q ≠ p -> s' !! q = s !! q) -> s' !! p = Some DirNode ->
            dirs_to s' p) as Hdirs.
  { intros s' Hs' Hn q Hq Hqp. destruct (decide (q = p)) as [->|Hne]; [done|].
    rewrite Hs' by done. apply Hd; [done|]. unfold p in *. rewrite abs_snoc in *.
    by apply prefix_of_snoc in Hqp as [?|?]. }
  destruct Hp as [Hn|Hn]; rewrite Hn; (split; [done|]).
  - eexists. split; [done|]. split.
    + apply Hdirs; [|by rewrite lookup_insert_eq]. intros q Hq. by rewrite lookup_insert_ne.
    + intros q. destruct (decide (q = p)) as [->|Hne].
      * right. by rewrite lookup_insert_eq, Hn.
      * left. by rewrite lookup_insert_ne.
  - assert (dirs_to s p) as Hd2 by by apply Hdirs.
    exists s. split_and!; [|done|by left]. unfold is_dir, p. rewrite canonicalize_dirs by done.
    unfold is_dir_at. by rewrite bool_decide_eq_true_2.
Qed.

(** Only new directories on the way to a path. *)
Definition adds_dirs (way : path) (s s' : fs) : Prop :=
  forall q, s' !! q = s !! q ∨
            (s !! q = None ∧ s' !! q = Some DirNode ∧ q ≠ [] ∧ q `prefix_of` way).

(** Along a free way [create_dir_all] succeeds and adds just the missing
    directories. *)
Lemma create_dir_all_way cwd s l :
  way_free s (abs l) ->
  ∃ s', create_dir_all cwd s (abs l) = Ok s' ∧ dirs_to s' (abs l) ∧ adds_dirs (abs l) s s'.
Proof.
  unfold create_dir_all. induction l as [|n l IH] using rev_ind; intros Hw.
  - assert (dirs_to s (abs [])) as Hd.
    { intros q Hq Hpre. rewrite (anti_symm prefix q [RootDir]); [apply Hw|done|].
      destruct q as [|c q]; [done|]. destruct Hpre as [r [= <- _]]. by exists q. }
    exists s. split_and!; [|done|by left]. change (reverse (abs [])) with [RootDir].
    cbn [create_dir_all_rev]. change (reverse [RootDir]) with (abs []).
    unfold mkdir, entry_of, is_dir. change (last (abs [])) with (Some RootDir). cbv iota.
    rewrite canonicalize_dirs by done. change (abs []) with [RootDir]. rewrite (proj1 Hw).
    unfold is_dir_at. by rewrite bool_decide_eq_true_2 by apply Hw.
  - rewrite abs_snoc, reverse_snoc. cbn [create_dir_all_rev].
    rewrite reverse_cons, reverse_involutive, <- abs_snoc.
    assert (abs l `prefix_of` abs (l ++ [n])) as Hpre by (rewrite abs_snoc; by eexists).
    assert (way_free s (abs l)) as Hwl.
    { split; [apply Hw|]. intros q Hq Hqp. apply Hw; [done|]. by trans (abs l). }
    destruct (canonicalize_way cwd s l Hwl) as [[Hc Hd]|Herr].
    + destruct (mkdir_way cwd s l n Hd) as (Hne & s' & Hs' & Hd' & Hq); [by apply Hw|].
      exists s'. split_and!; [by destruct (mkdir cwd s _) as [|[]]|done|].
      intros q. destruct (Hq q) as [?|(? & ? & ->)]; [by left|right]. by split_and!.
    + assert (mkdir cwd s (abs (l ++ [n])) = Err ENOENT) as ->.
      { unfold mkdir, entry_of. rewrite abs_snoc, last_snoc, removelast_last.
        unfold abs in *. by rewrite Herr. }
      destruct (IH Hwl) as (s1 & -> & Hd1 & Hq1).
      destruct (mkdir_way cwd s1 l n Hd1) as (_ & s' & Hs' & Hd' & Hq).
      { destruct (Hq1 (abs (l ++ [n]))) as [->|(_ & _ & _ & Hlong%prefix_length)]; [by apply Hw|].
        rewrite abs_snoc, length_app in Hlong. simpl in Hlong. lia. }
      exists s'. split_and!; [done|done|]. intros q.
      destruct (Hq1 q) as [H3|(H3 & H4 & H5 & H8)], (Hq q) as [H6|(H6 & H7 & ->)].
      * left. congruence.
      * right. split_and!; [congruence|done|done|done].
      * right. split_and!; [done|congruence|done|]. by trans (abs l).
      * congruence.
Qed.
