(* ===== verification/CacheLayout.v ===== *)
(** * Where the providers keep their models

    Model names of the four providers, the validation of revisions, and the
    directory of a model below the cache root: [validate_revision] and
    [is_weight_file] of providers.rs, [ModelName] of gcs/model_name.rs,
    [S3ModelName] of s3.rs, [parse_model_name] of ngc.rs, the repository layout
    of huggingface.rs, and [resolve_model_path] of cache.rs. *)

From Stdlib Require Import ZArith Lia Ascii String.
From stdpp Require Import base tactics option list gmap fin_maps strings.
From S2P Require Import Prelude RustStr RustPath Models Fs.

(** ** Revisions and weight files *)

Definition forbidden_in_revision (c : ascii) : bool :=
  is_ascii_control c || contains_char c " ~^:?*[\".

Definition validate_revision (revision : string) : bool :=
  negb (String.eqb revision "@")
  && negb (ends_with "." revision)
  && negb (contains_str ".." revision)
  && negb (contains_str "@{" revision)
  && negb (str_any forbidden_in_revision revision)
  && forallb (fun c => negb (str_is_empty c) && negb (starts_with "." c)
                       && negb (ends_with ".lock" c)) (split "/" revision).

Definition is_weight_file (filename : string) : bool :=
  ends_with ".bin" filename || ends_with ".safetensors" filename || ends_with ".h5" filename
  || ends_with ".msgpack" filename || ends_with ".ckpt.index" filename
  || ends_with ".iop" filename || ends_with ".gas" filename.

(** ** Google Cloud Storage names *)

Module Gcs.

Definition CACHE_ROOT_DIR_NAME : string := "gcs".

Record BucketName : Type := MkBucketName { normalized : string }.

Definition BucketName_parse (raw : string) : option BucketName :=
  let trimmed := trim raw in
  if str_is_empty trimmed then None
  else
    let without_scheme := default trimmed (strip_prefix "gs://" trimmed) in
    let without_trailing := trim_end_matches "/" without_scheme in
    if str_is_empty without_trailing then None
    else if contains_char "/" without_trailing then None
    else match components without_trailing with
         | [Normal _] => Some (MkBucketName without_trailing)
         | _ => None
         end.

Record ModelName : Type := MkModelName { bucket : BucketName; object_prefix : string }.

Definition has_windows_drive_prefix (c : string) : bool :=
  match c with
  | String a (String b _) =>
      (is_ascii_lowercase a || is_ascii_uppercase a) && Ascii.eqb b ":"
  | _ => false
  end.

Definition segment_ok (c : string) : bool :=
  negb (str_is_empty c) && negb (String.eqb c "." || String.eqb c "..")
  && negb (contains_char "\" c || has_windows_drive_prefix c).

Definition ModelName_new (b : BucketName) (prefix : string) : option ModelName :=
  let normalized_object_prefix := trim_end_matches "/" prefix in
  if str_is_empty normalized_object_prefix then None
  else
    let comps := split "/" normalized_object_prefix in
    if forallb segment_ok comps then Some (MkModelName b (join "/" comps)) else None.

Definition ModelName_parse (model_name : string) : option ModelName :=
  if str_is_empty model_name then None
  else match strip_prefix "gs://" model_name with
       | None => None
       | Some full_url =>
           match split_once "/" full_url with
           | None => None
           | Some (bucket_raw, prefix) =>
               if str_is_empty prefix then None
               else match BucketName_parse bucket_raw with
                    | None => None
                    | Some b => ModelName_new b prefix
                    end
           end
       end.

Definition bucket_dir (m : ModelName) (cache_dir : path) : path :=
  path_join (path_join cache_dir (components CACHE_ROOT_DIR_NAME))
    (components (normalized (bucket m))).

Definition model_dir (m : ModelName) (cache_dir : path) : path :=
  foldl (fun p c => path_join p (components c)) (bucket_dir m cache_dir)
    (split "/" (object_prefix m)).

(** [Display]. *)
Definition display (m : ModelName) : string :=
  "gs://" +:+ normalized (bucket m) +:+ "/" +:+ object_prefix m.

(** [resolve_model_path] of the provider's cache. *)
Definition resolve (cache_dir : path) (model_name : string) : option path :=
  (fun m => model_dir m cache_dir) <$> ModelName_parse model_name.

End Gcs.

(** ** S3 names *)

Module S3.

Definition CACHE_ROOT_DIR_NAME : string := "s3".

Record S3ModelName : Type := MkS3ModelName { bucket : string; object_prefix : string }.

Definition segment_ok (c : string) : bool :=
  negb (str_is_empty c) && negb (String.eqb c "." || String.eqb c "..").

Definition S3ModelName_new (b prefix : string) : option S3ModelName :=
  let p := trim_end_matches "/" prefix in
  if str_is_empty p then None
  else if forallb segment_ok (split "/" p) then Some (MkS3ModelName b p) else None.

Definition S3ModelName_parse (name : string) : option S3ModelName :=
  let model_name := trim_start name in
  match str_get_to 5 model_name with
  | None => None
  | Some scheme =>
      if negb (eq_ignore_ascii_case scheme "s3://") then None
      else
        let full_url := String.substring 5 (String.length model_name - 5) model_name in
        match split_once "/" full_url with
        | None => None
        | Some (b, prefix) =>
            if str_is_empty b || contains_char "/" b then None else S3ModelName_new b prefix
        end
  end.

Definition model_dir (m : S3ModelName) (cache_dir : path) : path :=
  foldl (fun p c => path_join p (components c))
    (path_join (path_join cache_dir (components CACHE_ROOT_DIR_NAME)) (components (bucket m)))
    (split "/" (object_prefix m)).

Definition display (m : S3ModelName) : string :=
  "s3://" +:+ bucket m +:+ "/" +:+ object_prefix m.

Definition resolve (cache_dir : path) (model_name : string) : option path :=
  (fun m => model_dir m cache_dir) <$> S3ModelName_parse model_name.

End S3.

(** ** NGC names *)

Module Ngc.

Record NgcArtifactId : Type := MkNgcArtifactId {
  org : string; team : option string; artifact_type : string; name : string; version : string
}.

Definition parse_model_name (model_name : string) : option NgcArtifactId :=
  let model_name := trim model_name in
  let model_name := default model_name (strip_prefix "ngc://" model_name) in
  let parts := split "/" model_name in
  if existsb (fun s => String.eqb s "." || String.eqb s "..") parts then None
  else match parts with
       | [a; b; c] =>
           match split_once ":" c with
           | Some (n, v) => Some (MkNgcArtifactId a (Some b) "models" n v)
           | None => Some (MkNgcArtifactId a None "models" b c)
           end
       | [a; b; c; d] => Some (MkNgcArtifactId a (Some b) "models" c d)
       | [a; b; c; d; e] => Some (MkNgcArtifactId a (Some b) c d e)
       | _ => None
       end.

Definition model_dir (cache_root : path) (id : NgcArtifactId) : path :=
  let p := path_join (path_join cache_root (components "ngc")) (components (org id)) in
  let p := match team id with Some t => path_join p (components t) | None => p end in
  path_join (path_join (path_join p (components (artifact_type id))) (components (name id)))
    (components (version id)).

Definition resolve (cwd : path) (s : fs) (cache_root : path) (model_name : string) : option path :=
  match parse_model_name model_name with
  | Some id =>
      let p := model_dir cache_root id in
      if path_exists cwd s p then Some p else None
  | None => None
  end.

End Ngc.

(** ** Hugging Face repositories *)

Module Hf.

Definition repo_root (cache_root : path) (model_name : string) : path :=
  path_join cache_root (components ("models--" +:+ replace_char "/" "--" model_name)).

Definition snapshots_dir (cache_root : path) (model_name : string) : path :=
  path_join (repo_root cache_root model_name) (components "snapshots").

Definition refs_dir (cache_root : path) (model_name : string) : path :=
  path_join (repo_root cache_root model_name) (components "refs").

(** [listing dir] is what [read_dir] yields with the creation time of each entry
    (0 when it has none); the store of files has no times. *)
Definition latest_local_snapshot_path (cwd : path) (s : fs)
    (listing : path -> option (list (path * Z))) (cache_root : path) (model_name : string)
    : option path :=
  let p := snapshots_dir cache_root model_name in
  if negb (path_exists cwd s p) then None
  else match listing p with
       | None => None
       | Some files => fst <$> last (sort_by_key snd files)
       end.

Definition resolve (cwd : path) (s : fs) (listing : path -> option (list (path * Z)))
    (cache_root : path) (model_name : string) (revision : option string) : option path :=
  match revision with
  | Some revision =>
      if validate_revision revision
      then Some (path_join (snapshots_dir cache_root model_name) (components revision))
      else None
  | None => latest_local_snapshot_path cwd s listing cache_root model_name
  end.

End Hf.

(** ** The provider's cache *)

Section resolve.
Context (cwd : path) (s : fs) (listing : path -> option (list (path * Z))).

Definition resolve_model_path (cache_root : path) (provider : ModelProvider)
    (model_name : string) (revision : option string) : option path :=
  match provider with
  | HuggingFace => Hf.resolve cwd s listing cache_root model_name revision
  | Ngc => Ngc.resolve cwd s cache_root model_name
  | Gcs => Gcs.resolve cache_root model_name
  | S3 => S3.resolve cache_root model_name
  end.

End resolve.

(** [canonical_model_name] of the providers. *)
Definition canonical_model_name (provider : ModelProvider) (model_name : string) : option string :=
  match provider with
  | Gcs => Gcs.display <$> Gcs.ModelName_parse model_name
  | S3 => S3.display <$> S3.S3ModelName_parse model_name
  | HuggingFace | Ngc => Some model_name
  end.

(** ** Facts about names *)

Lemma segments_ok (ok : string -> bool) s :
  (forall c, ok c = true -> c ≠ "" ∧ c ≠ "." ∧ c ≠ "..") ->
  forallb ok (split "/" s) = true -> Forall file_name_ok (split "/" s).
Proof.
  intros Hok Hall. apply Forall_forall. intros c Hc. rewrite forallb_forall in Hall.
  destruct (Hok c) as (? & ? & ?); [by apply Hall, list_elem_of_In|].
  split_and!; try done. by eapply split_pieces.
Qed.

Lemma gcs_segment_ok c : Gcs.segment_ok c = true -> c ≠ "" ∧ c ≠ "." ∧ c ≠ "..".
Proof. unfold Gcs.segment_ok. intros H. split_and!; intros ->; done. Qed.

Lemma s3_segment_ok c : S3.segment_ok c = true -> c ≠ "" ∧ c ≠ "." ∧ c ≠ "..".
Proof. unfold S3.segment_ok. intros H. split_and!; intros ->; done. Qed.

Lemma revision_segment_ok c :
  negb (str_is_empty c) && negb (starts_with "." c) && negb (ends_with ".lock" c) = true ->
  c ≠ "" ∧ c ≠ "." ∧ c ≠ "..".
Proof. intros H. split_and!; intros ->; done. Qed.

Lemma validate_revision_pieces revision :
  validate_revision revision = true -> Forall file_name_ok (split "/" revision).
Proof.
  unfold validate_revision. intros H. mx_bool.
  by eapply segments_ok, H0; apply revision_segment_ok.
Qed.

Lemma gcs_bucket_ok raw b : Gcs.BucketName_parse raw = Some b -> file_name_ok (Gcs.normalized b).
Proof.
  unfold Gcs.BucketName_parse. destruct (str_is_empty (trim raw)); [done|].
  set (w := trim_end_matches "/" _). destruct (str_is_empty w) eqn:He; [done|].
  destruct (contains_char "/" w) eqn:Hs; [done|].
  destruct (components w) as [|[| | |n] []] eqn:Hc; try done. intros [= <-]. simpl.
  split_and!; [| | |done]; intros Hw; by rewrite Hw in *.
Qed.

Lemma gcs_new_ok b prefix m :
  Gcs.ModelName_new b prefix = Some m ->
  Gcs.bucket m = b ∧ Gcs.object_prefix m = trim_end_matches "/" prefix ∧
  Gcs.object_prefix m ≠ "" ∧ Forall file_name_ok (split "/" (Gcs.object_prefix m)).
Proof.
  unfold Gcs.ModelName_new. destruct (str_is_empty _) eqn:He; [done|].
  destruct (forallb _ _) eqn:Hall; [|done]. intros [= <-]. simpl. rewrite join_split.
  split_and!; [done|done| |].
  - intros Hw. by rewrite Hw in He.
  - eapply segments_ok, Hall. apply gcs_segment_ok.
Qed.

Lemma gcs_parse_inv name m :
  Gcs.ModelName_parse name = Some m ->
  ∃ raw prefix, contains_char "/" raw = false ∧ Gcs.BucketName_parse raw = Some (Gcs.bucket m) ∧
    Gcs.ModelName_new (Gcs.bucket m) prefix = Some m.
Proof.
  unfold Gcs.ModelName_parse. destruct (str_is_empty name); [done|].
  destruct (strip_prefix "gs://" name) as [url|]; [|done].
  destruct (split_once "/" url) as [[raw prefix]|] eqn:Hs; [|done].
  destruct (str_is_empty prefix); [done|].
  destruct (Gcs.BucketName_parse raw) as [b|] eqn:Hb; [|done]. intros Hnew.
  destruct (gcs_new_ok _ _ _ Hnew) as (Hbk & _). exists raw, prefix. rewrite Hbk.
  split_and!; [|done|done]. by apply split_once_Some in Hs as [_ ?].
Qed.

Lemma s3_new_ok b prefix m :
  S3.S3ModelName_new b prefix = Some m ->
  S3.bucket m = b ∧ S3.object_prefix m = trim_end_matches "/" prefix ∧
  S3.object_prefix m ≠ "" ∧ Forall file_name_ok (split "/" (S3.object_prefix m)).
Proof.
  unfold S3.S3ModelName_new. destruct (str_is_empty _) eqn:He; [done|].
  destruct (forallb _ _) eqn:Hall; [|done]. intros [= <-]. simpl. split_and!; [done|done| |].
  - intros Hw. by rewrite Hw in He.
  - eapply segments_ok, Hall. apply s3_segment_ok.
Qed.

Lemma substring_drop5 c1 c2 c3 c4 c5 url :
  let s := String c1 (String c2 (String c3 (String c4 (String c5 url)))) in
  String.substring 5 (String.length s - 5) s = url.
Proof. simpl. rewrite Nat.sub_0_r. induction url; simpl; [done|by f_equal]. Qed.

(** What the S3 parser accepts: after leading white space five characters that
    spell [s3://] in some case, a bucket and a prefix. *)
Lemma s3_parse_inv name m :
  S3.S3ModelName_parse name = Some m ->
  S3.bucket m ≠ "" ∧ contains_char "/" (S3.bucket m) = false ∧
  (forall c s, S3.bucket m = String c s -> is_continuation c = false) ∧
  ∃ prefix, S3.S3ModelName_new (S3.bucket m) prefix = Some m.
Proof.
  unfold S3.S3ModelName_parse, str_get_to. set (t := trim_start name).
  destruct (_ && _) eqn:Hg; [|done]. apply andb_true_iff in Hg as [Hl Hc].
  destruct (eq_ignore_ascii_case _ _); [|done]. cbn [negb].
  destruct t as [|c1 [|c2 [|c3 [|c4 [|c5 url]]]]]; try done.
  rewrite substring_drop5.
  destruct (split_once "/" url) as [[b prefix]|] eqn:Hs; [|done].
  destruct (str_is_empty b) eqn:Hb; [done|]. destruct (contains_char "/" b) eqn:Hsl; [done|].
  intros Hnew. simpl in Hnew. destruct (s3_new_ok _ _ _ Hnew) as (Hbk & _). rewrite Hbk. split_and!.
  - by intros ->.
  - done.
  - intros c s ->. apply split_once_Some in Hs as [-> _]. rewrite str_app_cons in Hc. simpl in Hc.
    by apply negb_true_iff in Hc.
  - by exists prefix.
Qed.

(** Printing a parsed name and parsing it again changes nothing. *)
Lemma gcs_roundtrip name m :
  Gcs.ModelName_parse name = Some m -> Gcs.ModelName_parse (Gcs.display m) = Some m.
Proof.
  intros (raw & prefix & Hraw & Hb & Hnew)%gcs_parse_inv.
  destruct (gcs_new_ok _ _ _ Hnew) as (_ & Hpre & Hne & Hall).
  destruct (gcs_bucket_ok _ _ Hb) as (Hb0 & Hb1 & Hb2 & Hbs).
  destruct (trim_spec raw) as (Htrim & p1 & p2 & Hcut).
  assert (contains_char "/" (trim raw) = false) as Hts.
  { rewrite Hcut, !contains_char_app in Hraw. by repeat apply orb_false_iff in Hraw as [? Hraw]. }
  assert (Gcs.normalized (Gcs.bucket m) = trim raw) as Hbn.
  { revert Hb. unfold Gcs.BucketName_parse. destruct (str_is_empty (trim raw)); [done|].
    destruct (strip_prefix "gs://" (trim raw)) as [r|] eqn:Hp; simpl.
    - apply strip_prefix_Some in Hp. by rewrite Hp in Hts.
    - rewrite trim_end_matches_no by done. repeat case_match; try done. by intros [= <-]. }
  unfold Gcs.ModelName_parse, Gcs.display. rewrite strip_prefix_app.
  rewrite (str_app_cons "/" ""), str_app_nil_l, split_once_app by done.
  change (str_is_empty _) with false at 1. cbv iota. destruct (Gcs.object_prefix m) as [|c pr] eqn:Hop; [done|].
  cbn [str_is_empty]. rewrite <- Hop. rewrite Hbn. clear Hb0 Hb1 Hb2.
  assert (Gcs.BucketName_parse (trim raw) = Some (Gcs.bucket m)) as ->.
  { rewrite <- Hb. unfold Gcs.BucketName_parse. by rewrite Htrim. }
  rewrite <- Hnew. unfold Gcs.ModelName_new. rewrite Hop, Hpre in *.
  by rewrite trim_end_matches_idem.
Qed.

Lemma s3_roundtrip name m :
  S3.S3ModelName_parse name = Some m -> S3.S3ModelName_parse (S3.display m) = Some m.
Proof.
  intros (Hb & Hsl & Hcont & prefix & Hnew)%s3_parse_inv.
  destruct (s3_new_ok _ _ _ Hnew) as (_ & Hpre & _).
  unfold S3.S3ModelName_parse, S3.display. set (url := S3.bucket m +:+ _).
  change ("s3://" +:+ url) with
    (String "s" (String "3" (String ":" (String "/" (String "/" url))))).
  rewrite trim_start_id.
  2:{ intros w. revert w. apply Forall_forall. unfold whitespace_seqs. simpl.
      repeat (constructor; [reflexivity|]). constructor. }
  rewrite substring_drop5.
  replace (str_get_to 5 _) with (Some "s3://").
  2:{ unfold str_get_to. replace (_ && _) with true; [by destruct url|]. simpl. unfold url.
      destruct (S3.bucket m) as [|c b] eqn:Hbk; [done|].
      rewrite str_app_cons. simpl. by rewrite (Hcont c b). }
  change (negb (eq_ignore_ascii_case "s3://" "s3://")) with false. cbv iota.
  unfold url. rewrite str_app_cons, str_app_nil_l, split_once_app by done. rewrite Hsl.
  destruct (S3.bucket m) as [|c b] eqn:Hbk; [done|]. simpl. rewrite <- Hnew.
  unfold S3.S3ModelName_new. by rewrite Hpre, trim_end_matches_idem.
Qed.

Lemma gcs_model_dir name m root :
  Gcs.ModelName_parse name = Some m ->
  Gcs.model_dir m root =
    root ++ map Normal ("gcs" :: Gcs.normalized (Gcs.bucket m) :: split "/" (Gcs.object_prefix m)).
Proof.
  intros (raw & prefix & _ & Hb & Hnew)%gcs_parse_inv.
  destruct (gcs_new_ok _ _ _ Hnew) as (_ & _ & _ & Hall).
  unfold Gcs.model_dir, Gcs.bucket_dir. rewrite path_join_pieces by done.
  rewrite (components_file_name (Gcs.normalized _)) by by eapply gcs_bucket_ok.
  rewrite components_file_name by done. rewrite !path_join_name, <- !app_assoc. done.
Qed.

Lemma s3_model_dir name m root :
  S3.S3ModelName_parse name = Some m -> S3.bucket m ≠ "." -> S3.bucket m ≠ ".." ->
  S3.model_dir m root =
    root ++ map Normal ("s3" :: S3.bucket m :: split "/" (S3.object_prefix m)).
Proof.
  intros (Hb & Hsl & _ & prefix & Hnew)%s3_parse_inv H1 H2.
  destruct (s3_new_ok _ _ _ Hnew) as (_ & _ & _ & Hall).
  unfold S3.model_dir. rewrite path_join_pieces by done.
  rewrite (components_file_name (S3.bucket _)) by done.
  rewrite components_file_name by done. rewrite !path_join_name, <- !app_assoc. done.
Qed.

(** A piece of an NGC name; an empty one adds nothing to a path. *)
Definition ngc_piece (s : string) : Prop :=
  s ≠ "." ∧ s ≠ ".." ∧ contains_char "/" s = false.

Lemma path_join_piece (p : path) s :
  ngc_piece s -> path_join p (components s) = p ++ map Normal (filter (.≠ "") [s]).
Proof.
  intros (H1 & H2 & H3). rewrite filter_cons. case_decide as H0; simpl.
  - rewrite components_file_name by done. apply path_join_name.
  - assert (s = "") as -> by (destruct (decide (s = "")); [done|by destruct H0]).
    simpl. rewrite path_join_nil. by rewrite app_nil_r.
Qed.

Lemma ngc_parse_pieces model_name id :
  Ngc.parse_model_name model_name = Some id ->
  Ngc.name id ≠ "." -> Ngc.name id ≠ ".." -> Ngc.version id ≠ "." -> Ngc.version id ≠ ".." ->
  ngc_piece (Ngc.org id) ∧ (forall t, Ngc.team id = Some t -> ngc_piece t) ∧
  ngc_piece (Ngc.artifact_type id) ∧ ngc_piece (Ngc.name id) ∧ ngc_piece (Ngc.version id).
Proof.
  unfold Ngc.parse_model_name. set (parts := split "/" _). destruct (existsb _ parts) eqn:He; [done|].
  assert (Forall ngc_piece parts) as Hp.
  { apply Forall_forall. intros x Hx. assert (String.eqb x "." || String.eqb x ".." = false) as Hd.
    { apply not_true_iff_false. intros Hd. apply not_true_iff_false in He. apply He, existsb_exists.
      exists x. split; [by apply list_elem_of_In|done]. }
    apply orb_false_iff in Hd as [?%String.eqb_neq ?%String.eqb_neq].
    split_and!; [done|done|]. by eapply split_pieces. }
  clearbody parts.
  destruct parts as [|a [|b [|c [|d [|e []]]]]]; try done; rewrite !Forall_cons in Hp;
    [destruct Hp as (Ha & Hb & Hc & _)|destruct Hp as (Ha & Hb & Hc & Hd & _)
    |destruct Hp as (Ha & Hb & Hc & Hd & He' & _)].
  - destruct (split_once ":" c) as [[n v]|] eqn:Hs; intros [= <-]; cbn [Ngc.org Ngc.team Ngc.artifact_type Ngc.name Ngc.version].
    2:{ intros. split_and!; try done. }
    apply split_once_Some in Hs as [-> _]. intros ????.
    assert (ngc_piece n ∧ ngc_piece v) as [? ?].
    { destruct Hc as (_ & _ & Hsl). rewrite contains_char_app, contains_char_cons in Hsl.
      repeat apply orb_false_iff in Hsl as [? Hsl]. done. }
    split_and!; try done. by intros t [= <-].
  - intros [= <-] ????. split_and!; try done. by intros t [= <-].
  - intros [= <-] ????. split_and!; try done. by intros t [= <-].
Qed.

(** The directory of the cache root that belongs to a provider. *)
Definition provider_dir (provider : ModelProvider) (model_name : string) : string :=
  match provider with
  | HuggingFace => "models--" +:+ replace_char "/" "--" model_name
  | Ngc => "ngc"
  | Gcs => "gcs"
  | S3 => "s3"
  end.

(** What a name must satisfy for its directory to stay below the provider's:
    the S3 parser accepts a special bucket, and the NGC parser splits
    [name:version] after it has checked the segments, and accepts empty ones. *)
Definition name_contained (provider : ModelProvider) (model_name : string)
    (revision : option string) : Prop :=
  match provider with
  | HuggingFace => is_Some revision
  | Gcs => True
  | S3 => forall m, S3.S3ModelName_parse model_name = Some m ->
            S3.bucket m ≠ "." ∧ S3.bucket m ≠ ".."
  | Ngc => forall id, Ngc.parse_model_name model_name = Some id ->
            (Ngc.name id ≠ "." ∧ Ngc.name id ≠ "..") ∧ file_name_ok (Ngc.version id)
  end.

Lemma hf_repo_root root model_name :
  Hf.repo_root root model_name = root ++ [Normal (provider_dir HuggingFace model_name)].
Proof.
  unfold Hf.repo_root, provider_dir.
  rewrite components_file_name, path_join_name; [done|]. split_and!; [done|done|done|].
  rewrite contains_char_app, contains_replace by done. done.
Qed.

(** C32: for a name that satisfies [name_contained], the directory that
    [resolve_model_path] gives for a model lies below the cache root, in the directory
    of its provider, and is reached through plain file names only.  Names with a
    special S3 bucket or a special NGC [name:version] part are excluded: the parsers let
    them through, and they do walk out ([s3_bucket_escapes], [ngc_version_escapes]). *)
Theorem resolve_model_path_contained cwd s listing root provider model_name revision p :
  resolve_model_path cwd s listing root provider model_name revision = Some p ->
  name_contained provider model_name revision ->
  ∃ names, names ≠ [] ∧ p = root ++ map Normal (provider_dir provider model_name :: names).
Proof.
  destruct provider; cbn [resolve_model_path name_contained];
    unfold Hf.resolve, Ngc.resolve, Gcs.resolve, S3.resolve.
  - intros Hp [r ->]. destruct (validate_revision r) eqn:Hr; [|done]. injection Hp as <-.
    unfold Hf.snapshots_dir. rewrite hf_repo_root, (components_file_name "snapshots"),
      path_join_name, components_pieces, path_join_names by (done || by apply validate_revision_pieces).
    exists ("snapshots" :: split "/" r). split; [done|]. by rewrite <- !app_assoc.
  - destruct (Ngc.parse_model_name model_name) as [id|] eqn:Hid; [|done].
    destruct (path_exists _ _ _); [|done]. intros [= <-] Hok.
    destruct (Hok id eq_refl) as ((? & ?) & Hv). pose proof Hv as (? & ? & ? & _).
    destruct (ngc_parse_pieces _ _ Hid) as (Ho & Ht & Ha & Hn & _); try done.
    unfold Ngc.model_dir. rewrite (components_file_name "ngc"), path_join_name by done.
    rewrite (components_file_name (Ngc.version id)), path_join_name by done.
    rewrite (path_join_piece _ (Ngc.org id)) by done.
    destruct (Ngc.team id) as [t|]; [rewrite (path_join_piece _ t) by auto|];
      rewrite (path_join_piece _ (Ngc.artifact_type id)), (path_join_piece _ (Ngc.name id)) by done;
      rewrite <- !app_assoc.
    + exists (filter (.≠ "") [Ngc.org id] ++ filter (.≠ "") [t] ++ filter (.≠ "") [Ngc.artifact_type id]
              ++ filter (.≠ "") [Ngc.name id] ++ [Ngc.version id]).
      split; [by intros ?%(f_equal last); rewrite !app_assoc, last_snoc in *|].
      cbn [map provider_dir]. by rewrite !map_app.
    + exists (filter (.≠ "") [Ngc.org id] ++ filter (.≠ "") [Ngc.artifact_type id]
              ++ filter (.≠ "") [Ngc.name id] ++ [Ngc.version id]).
      split; [by intros ?%(f_equal last); rewrite !app_assoc, last_snoc in *|].
      cbn [map provider_dir]. by rewrite !map_app.
  - destruct (Gcs.ModelName_parse model_name) as [m|] eqn:Hm; [|done]. intros [= <-] _.
    rewrite (gcs_model_dir _ _ _ Hm). eexists. by split; [|reflexivity].
  - destruct (S3.S3ModelName_parse model_name) as [m|] eqn:Hm; [|done]. intros [= <-] Hok.
    destruct (Hok m eq_refl). rewrite (s3_model_dir _ _ _ Hm) by done. eexists. by split; [|reflexivity].
Qed.

(** [canonical_model_name] is canonical: canonicalising twice changes
    nothing, the canonical name stands for the same directory as the name it came
    from, and two Google Cloud Storage models with the same directory have the
    same canonical name. *)
Lemma canonical_model_name_canonical provider name1 canon1 :
  canonical_model_name provider name1 = Some canon1 ->
  canonical_model_name provider canon1 = Some canon1 ∧
  (forall cwd s listing root revision,
     resolve_model_path cwd s listing root provider canon1 revision
     = resolve_model_path cwd s listing root provider name1 revision) ∧
  (forall cwd s listing root revision name2 canon2 p,
     provider = Gcs -> canonical_model_name provider name2 = Some canon2 ->
     resolve_model_path cwd s listing root provider name1 revision = Some p ->
     resolve_model_path cwd s listing root provider name2 revision = Some p -> canon1 = canon2).
Proof.
  destruct provider; cbn [canonical_model_name resolve_model_path];
    unfold Gcs.resolve, S3.resolve.
  - intros [= ->]. done.
  - intros [= ->]. done.
  - destruct (Gcs.ModelName_parse name1) as [m1|] eqn:Hm1; [|done]. intros [= <-].
    rewrite (gcs_roundtrip _ _ Hm1). split_and!; [done|done|].
    intros _ _ _ root _ name2 canon2 p _.
    destruct (Gcs.ModelName_parse name2) as [m2|] eqn:Hm2; [|done]. intros [= <-] [= Hp1] [= Hp2].
    rewrite (gcs_model_dir _ _ _ Hm1) in Hp1. rewrite (gcs_model_dir _ _ _ Hm2) in Hp2. subst p.
    apply app_inv_head, map_Normal_inj in Hp2. injection Hp2 as Hb Hs.
    unfold Gcs.display. rewrite Hb.
    by rewrite <- (join_split "/" (Gcs.object_prefix m1)), <- Hs, join_split.
  - destruct (S3.S3ModelName_parse name1) as [m1|] eqn:Hm1; [|done]. intros [= <-].
    rewrite (s3_roundtrip _ _ Hm1). split_and!; [done|done|]. by intros.
Qed.

(** ** Witnesses and boundary cases *)

Definition no_listing : path -> option (list (path * Z)) := fun _ => None.

Lemma resolve_model_path_contained_witness :
  ∃ names, names ≠ [] ∧
    components "/cache/models--org--m/snapshots/refs/pr/1" =
    components "/cache" ++ map Normal (provider_dir HuggingFace "org/m" :: names).
Proof.
  apply (resolve_model_path_contained [RootDir] ∅ no_listing (components "/cache") HuggingFace
           "org/m" (Some "refs/pr/1")); [vm_compute; reflexivity|eexists; reflexivity].
Defined.

Lemma canonical_model_name_canonical_witness :
  canonical_model_name Gcs "gs://b/x/y" = Some "gs://b/x/y".
Proof.
  apply (canonical_model_name_canonical Gcs "gs:// b /x/y//" "gs://b/x/y"). vm_compute. reflexivity.
Defined.

(** An S3 bucket of two dots leaves the provider's directory, and so does an NGC
    version; with empty segments the latter reaches the cache root itself. *)
Lemma s3_bucket_escapes :
  resolve_model_path [RootDir] ∅ no_listing (components "/cache") S3 "s3://../models--org--m" None
  = Some (components "/cache/s3/../models--org--m").
Proof. vm_compute. reflexivity. Qed.

Lemma ngc_version_escapes :
  resolve_model_path [RootDir]
    {[ [RootDir] := DirNode; components "/cache" := DirNode; components "/cache/ngc" := DirNode;
       components "/cache/ngc/models" := DirNode ]}
    no_listing (components "/cache") Ngc "ngc:////..:.." None
  = Some (components "/cache/ngc/models/../..").
Proof. vm_compute. reflexivity. Qed.
