(* ===== verification/ModelFiles.v ===== *)
(** * Serving model files (modelexpress_server/src/services.rs)

    [collect_model_files], [ensure_selected_files_exist], [cached_snapshot], and
    the handlers [list_model_files] and [stream_model_files].  A snapshot is the
    tree that [read_dir] and [metadata] show below its directory, links followed.
    The server's cache directory and the provider's lookup of a snapshot are
    arguments, and so is what reading a file yields: any division of its content
    into pieces, or an error. *)

From Stdlib Require Import ZArith Lia Ascii String.
From stdpp Require Import base tactics option list gmap fin_maps strings.
From S2P Require Import Prelude RustStr RustPath Models EntryKey RegistryMemory Eviction Tracker.
From S2P Require Import Fs CacheLayout.

(** ** Messages *)

Record FileChunk : Type := MkFileChunk {
  fc_relative_path : string;
  fc_data : bytes;
  fc_offset : Z;
  fc_total_size : Z;
  fc_is_last_chunk : bool;
  fc_is_last_file : bool;
  fc_commit_hash : option string
}.

Record ModelFilesRequest : Type := MkModelFilesRequest {
  mf_model_name : string;
  mf_provider : Z;
  mf_chunk_size : Z;
  mf_file_selector : option (list string);
  mf_ignore_weights : bool;
  mf_revision : option string
}.

Record ModelFileInfo : Type := MkModelFileInfo { fi_relative_path : string; fi_size : Z }.

Record ModelFileList : Type := MkModelFileList {
  fl_model_name : string;
  fl_files : list ModelFileInfo;
  fl_total_size : Z
}.

(** The [tonic::Status] codes of the handlers, with their messages. *)
Inductive status : Type :=
| InvalidArgument (msg : string)
| NotFoundStatus (msg : string)
| Internal (msg : string)
| Unauthenticated (msg : string)
| PermissionDenied (msg : string).

(** [GrpcModelProvider::try_from] and the conversion to [ModelProvider]. *)
Definition provider_try_from (i : Z) : option ModelProvider :=
  if (i =? 0)%Z then Some HuggingFace
  else if (i =? 1)%Z then Some Ngc
  else if (i =? 2)%Z then Some Gcs
  else if (i =? 3)%Z then Some S3
  else None.

(** ** Collecting the files of a snapshot *)

(** A file with its size ([None] when [metadata] fails), a directory with what
    [read_dir] yields (nothing when it fails), or something else. *)
#[warnings="-register-all"]
Inductive tree : Type :=
| TFile (size : option Z)
| TDir (entries : list (string * tree))
| TOther.

Definition unsafe_component (c : component) : bool :=
  match c with ParentDir | RootDir => true | _ => false end.

(** The bytes of a path, and [to_string_lossy] of them. *)
Definition component_str (c : component) : string :=
  match c with RootDir => "" | CurDir => "." | ParentDir => ".." | Normal s => s end.

Definition path_bytes (p : path) : string :=
  match p with
  | RootDir :: p' => "/" +:+ join "/" (map component_str p')
  | _ => join "/" (map component_str p)
  end.

Definition path_display (p : path) : string := to_string_lossy (path_bytes p).

(** One file: its path below the snapshot, unless it is unsafe, an ignored
    weight file or not selected. *)
Definition collect_file (base_path p : path) (file_selector : option (list string))
    (ignore_weights : bool) (size : option Z) : list (path * Z) :=
  match size with
  | None => []
  | Some len =>
      match path_strip_prefix base_path p with
      | None => []
      | Some relative =>
          if existsb unsafe_component relative then []
          else if ignore_weights && is_weight_file (path_display relative) then []
          else if match file_selector with
                  | None => true
                  | Some paths => existsb (fun sp => bool_decide (components sp = relative)) paths
                  end
          then [(relative, len)] else []
      end
  end.

Fixpoint collect_model_files (base_path : path) (file_selector : option (list string))
    (ignore_weights : bool) (t : tree) (current_path : path) {struct t} : list (path * Z) :=
  match t with
  | TDir entries =>
      (fix go (es : list (string * tree)) : list (path * Z) :=
         match es with
         | [] => []
         | (entry_name, sub) :: es' =>
             let p := path_join current_path [Normal entry_name] in
             match sub with
             | TFile size => collect_file base_path p file_selector ignore_weights size
             | TDir _ => collect_model_files base_path file_selector ignore_weights sub p
             | TOther => []
             end ++ go es'
         end) entries
  | _ => []
  end.

Definition ensure_selected_files_exist (files : list (path * Z))
    (file_selector : option (list string)) : result unit string :=
  match file_selector with
  | None => Ok ()
  | Some paths =>
      match List.find (fun sp =>
              negb (existsb (fun '(p, _) => bool_decide (components sp = p)) files)) paths with
      | Some missing_path =>
          Err ("Selected file not found in model directory: " +:+ missing_path)
      | None => Ok ()
      end
  end.

(** ** Requests *)

Definition requested_revision (revision : option string) : result (option string) status :=
  match revision with
  | Some r => if validate_revision r then Ok (Some r) else Err (InvalidArgument "Invalid revision")
  | None => Ok None
  end.

Section handlers.
Context (cwd : path) (s : fs) (listing : path -> option (list (path * Z))).
(** [get_server_cache_dir] and the provider's [get_model_path_revision]. *)
Context (server_cache_dir : option path).
Context (get_model_path_revision :
           ModelProvider -> string -> path -> option string -> result path string).
(** The snapshot below a directory, and for each file, when it opens, the
    results of reading it with a buffer until the end. *)
Context (snapshot : path -> tree).
Context (reads : path -> Z -> option (list (result bytes string))).

Definition cache_dir_for (tenant : option Tenant) : option path :=
  (fun root => partition root tenant) <$> server_cache_dir.

Definition cached_snapshot (provider : ModelProvider) (model_name : string) (cache_dir : path)
    (revision : option string) : result (path * option string) status :=
  match get_model_path_revision provider model_name cache_dir revision with
  | Err e => Err (NotFoundStatus ("Model not found: " +:+ e))
  | Ok model_path =>
      let commit_hash :=
        if bool_decide (provider = HuggingFace) then file_name model_path ≫= to_str else None in
      if bool_decide (provider = HuggingFace) && bool_decide (commit_hash = None)
      then Err (Internal "Resolved Hugging Face model path did not contain a revision")
      else match resolve_model_path cwd s listing cache_dir provider model_name commit_hash with
           | None => Err (Internal "Failed to resolve expected cache layout")
           | Some expected_model_path =>
               if bool_decide (model_path = expected_model_path)
               then Ok (model_path, commit_hash)
               else Err (Internal "Resolved model path does not match expected cache layout")
           end
  end.

(** The common start of the two handlers: scope, provider, name, revision, cache
    directory and snapshot. *)
Definition locate (tenant_isolation : bool) (caller : option string) (req : ModelFilesRequest)
    : result (string * path * option string) status :=
  let? tenant := match scope tenant_isolation caller with
                 | Ok t => Ok t
                 | Err ScopeUnauthenticated =>
                     Err (Unauthenticated "tenant isolation requires an authenticated caller")
                 | Err ScopePermissionDenied =>
                     Err (PermissionDenied "caller namespace is not a valid namespace")
                 end in
  let? provider := match provider_try_from (mf_provider req) with
                   | Some p => Ok p
                   | None => Err (InvalidArgument "Invalid provider value")
                   end in
  let? model_name := match canonical_model_name provider (mf_model_name req) with
                     | Some n => Ok n
                     | None => Err (InvalidArgument "invalid model name")
                     end in
  let? revision := requested_revision (mf_revision req) in
  let? cache_dir := match cache_dir_for tenant with
                    | Some d => Ok d
                    | None => Err (Internal "Server cache directory not configured")
                    end in
  let? found := cached_snapshot provider model_name cache_dir revision in
  Ok (model_name, fst found, snd found).

Definition files_of (req : ModelFilesRequest) (model_path : path)
    : result (list (path * Z)) status :=
  let files := collect_model_files model_path (mf_file_selector req) (mf_ignore_weights req)
                 (snapshot model_path) model_path in
  match ensure_selected_files_exist files (mf_file_selector req) with
  | Ok _ => Ok files
  | Err e => Err (NotFoundStatus e)
  end.

(** The sum of [u64] sizes wraps. *)
Definition list_model_files (tenant_isolation : bool) (caller : option string)
    (req : ModelFilesRequest) : result ModelFileList status :=
  let? loc := locate tenant_isolation caller req in
  let '(model_name, model_path, _) := loc in
  let? files := files_of req model_path in
  Ok (MkModelFileList model_name
        (map (fun '(p, size) => MkModelFileInfo (path_display p) size) files)
        (foldl (fun acc '(_, size) => (acc + size) mod 2 ^ 64)%Z 0%Z files)).

(** ** Streaming *)

Abbreviation message := (result FileChunk status).

(** The read loop of one file.  The second component is [None] when the task has
    returned, and otherwise the flag [is_first_chunk]. *)
Fixpoint read_loop (relative_path : string) (total_size : Z) (is_last_file : bool)
    (commit_hash : option string) (is_first_chunk : bool) (offset : Z)
    (rs : list (result bytes string)) : list message * option bool :=
  match rs with
  | [] | Ok [] :: _ => ([], Some is_first_chunk)
  | Err e :: _ => ([Err (Internal ("Failed to read file: " +:+ e))], None)
  | Ok data :: rs' =>
      let bytes_read := Z.of_nat (length data) in
      let is_last_chunk := (total_size <=? saturating_add_u64 offset bytes_read)%Z in
      let chunk := MkFileChunk relative_path data offset total_size is_last_chunk
                     (is_last_file && is_last_chunk)
                     (if is_first_chunk then commit_hash else None) in
      let '(ms, r) := read_loop relative_path total_size is_last_file commit_hash false
                        (saturating_add_u64 offset bytes_read) rs' in
      (Ok chunk :: ms, r)
  end.

Definition stream_file (model_path : path) (chunk_size : Z) (commit_hash : option string)
    (is_first_chunk is_last_file : bool) (relative_path : path) (total_size : Z)
    : list message * option bool :=
  match reads (path_join model_path relative_path) chunk_size with
  | None => ([Err (Internal "Failed to open file")], None)
  | Some rs =>
      if (total_size =? 0)%Z then
        ([Ok (MkFileChunk (path_display relative_path) [] 0 0 true is_last_file
                (if is_first_chunk then commit_hash else None))], Some false)
      else read_loop (path_display relative_path) total_size is_last_file commit_hash
             is_first_chunk 0 rs
  end.

(** The loop over the files; [file_idx] counts them. *)
Fixpoint stream_loop (model_path : path) (chunk_size : Z) (commit_hash : option string)
    (total_files file_idx : nat) (is_first_chunk : bool) (files : list (path * Z))
    : list message :=
  match files with
  | [] => []
  | (relative_path, total_size) :: files' =>
      let is_last_file := Nat.eqb file_idx (total_files - 1) in
      match stream_file model_path chunk_size commit_hash is_first_chunk is_last_file
              relative_path total_size with
      | (ms, None) => ms
      | (ms, Some first) =>
          ms ++ stream_loop model_path chunk_size commit_hash total_files (S file_idx) first files'
      end
  end.

Definition DEFAULT_TRANSFER_CHUNK_SIZE : Z := 32 * 1024.

Definition stream_model_files (tenant_isolation : bool) (caller : option string)
    (req : ModelFilesRequest) : result (list message) status :=
  let chunk_size :=
    if (mf_chunk_size req =? 0)%Z then DEFAULT_TRANSFER_CHUNK_SIZE else mf_chunk_size req in
  let? loc := locate tenant_isolation caller req in
  let '(_, model_path, commit_hash) := loc in
  let? files := files_of req model_path in
  match files with
  | [] => Err (NotFoundStatus "No files found in model directory")
  | _ => Ok (stream_loop model_path chunk_size commit_hash (length files) 0 true files)
  end.

End handlers.

(** ** What is collected *)

(** A snapshot as the operating system shows it: the names of a directory are
    distinct file names. *)
#[warnings="-register-all"]
Inductive tree_wf : tree -> Prop :=
| wf_file size : tree_wf (TFile size)
| wf_other : tree_wf TOther
| wf_dir entries :
    NoDup (map fst entries) -> Forall file_name_ok (map fst entries) ->
    Forall (fun e => tree_wf (snd e)) entries -> tree_wf (TDir entries).

Fixpoint entry_at (entry_name : string) (es : list (string * tree)) : option tree :=
  match es with
  | [] => None
  | (n, t) :: es' => if decide (n = entry_name) then Some t else entry_at entry_name es'
  end.

(** The node below a tree at a list of names. *)
Fixpoint tree_at (t : tree) (names : list string) : option tree :=
  match names with
  | [] => Some t
  | n :: names' =>
      match t with
      | TDir es => match entry_at n es with Some sub => tree_at sub names' | None => None end
      | _ => None
      end
  end.

Lemma entry_at_elem n t es : NoDup (map fst es) -> entry_at n es = Some t ↔ (n, t) ∈ es.
Proof.
  induction es as [|[m u] es IH]; simpl; [set_solver|]. intros [Hm Hnd]%NoDup_cons.
  rewrite elem_of_cons. case_decide as He.
  - subst. split; [intros [= ->]; by left|]. intros [[= ->]|Hin]; [done|]. destruct Hm.
    apply list_elem_of_fmap. by exists (n, t).
  - rewrite IH by done. split; [by right|]. intros [[= -> _]|?]; done.
Qed.

Lemma tree_at_app t a b :
  tree_at t (a ++ b) = match tree_at t a with Some u => tree_at u b | None => None end.
Proof.
  revert t. induction a as [|n a IH]; intros t; simpl; [done|].
  destruct t; try done. by destruct (entry_at n entries).
Qed.

(** No file is below another file. *)
Lemma tree_files_prefix_free t a b x y :
  tree_at t a = Some (TFile x) -> tree_at t b = Some (TFile y) -> a `prefix_of` b -> a = b.
Proof.
  intros Ha Hb [r ->]. rewrite tree_at_app, Ha in Hb.
  destruct r; simpl in Hb; [by rewrite app_nil_r|done].
Qed.

Lemma tree_induction (P : tree -> Prop) :
  (forall size, P (TFile size)) -> P TOther ->
  (forall entries, Forall (fun e => P (snd e)) entries -> P (TDir entries)) -> forall t, P t.
Proof.
  intros Hf Ho Hd. fix IH 1. intros [size|entries|]; [apply Hf| |apply Ho].
  apply Hd. induction entries as [|[n t] es IHes]; constructor; [apply IH|apply IHes].
Qed.

(** Whether the filters of a request let a file through. *)
Definition selected (file_selector : option (list string)) (ignore_weights : bool)
    (names : list string) : Prop :=
  (ignore_weights = true -> is_weight_file (to_string_lossy (join "/" names)) = false) ∧
  match file_selector with
  | None => True
  | Some paths => ∃ sp, sp ∈ paths ∧ components sp = map Normal names
  end.

Lemma path_display_names names :
  path_display (map Normal names) = to_string_lossy (join "/" names).
Proof.
  unfold path_display, path_bytes. replace (map component_str (map Normal names)) with names.
  - by destruct names.
  - rewrite map_map. by rewrite map_id.
Qed.

(** Two names that are not UTF-8 are sent as the same name. *)
Example lossy_names_collide :
  let a := map Normal [bytes_str [97; 254]%N] in
  let b := map Normal [bytes_str [97; 255]%N] in
  a ≠ b ∧ path_display a = path_display b ∧ path_display a = "a" +:+ replacement_char.
Proof. split_and!; [discriminate|reflexivity|reflexivity]. Qed.

Lemma collect_file_spec base names sel iw size rel len :
  (rel, len) ∈ collect_file base (base ++ map Normal names) sel iw size ↔
  rel = map Normal names ∧ size = Some len ∧ selected sel iw names.
Proof.
  unfold collect_file. destruct size as [l|]; [|set_solver].
  rewrite path_strip_prefix_app, path_display_names.
  replace (existsb unsafe_component (map Normal names)) with false by (by induction names).
  unfold selected. destruct (iw && is_weight_file _) eqn:Hw.
  { apply andb_true_iff in Hw as [-> Hw]. rewrite Hw. split; [set_solver|naive_solver]. }
  assert ((iw = true -> is_weight_file (to_string_lossy (join "/" names)) = false) ↔ True) as ->.
  { split; [done|]. intros _ ->. done. }
  destruct sel as [paths|].
  - destruct (existsb _ paths) eqn:He.
    + apply existsb_exists in He as (sp & Hin%list_elem_of_In & Hc%bool_decide_eq_true).
      rewrite list_elem_of_singleton. split; [intros [= -> ->]; eauto 6|naive_solver].
    + split; [set_solver|]. intros (-> & _ & _ & sp & Hin & Hc). apply not_true_iff_false in He.
      destruct He. apply existsb_exists. exists sp. rewrite <- list_elem_of_In, bool_decide_eq_true. done.
  - rewrite list_elem_of_singleton. naive_solver.
Qed.

Lemma collect_file_length base p sel iw size : length (collect_file base p sel iw size) <= 1.
Proof. unfold collect_file. repeat case_match; simpl; lia. Qed.

(** The contribution of one directory entry. *)
Definition collect_entry base sel iw cur (e : string * tree) : list (path * Z) :=
  let p := path_join cur [Normal (fst e)] in
  match snd e with
  | TFile size => collect_file base p sel iw size
  | TDir _ => collect_model_files base sel iw (snd e) p
  | TOther => []
  end.

Lemma collect_dir base sel iw es cur :
  collect_model_files base sel iw (TDir es) cur = concat (map (collect_entry base sel iw cur) es).
Proof. induction es as [|[n t] es IH]; simpl; [done|]. simpl in IH. by rewrite IH. Qed.

Section collected.
Context (base : path) (sel : option (list string)) (iw : bool).

Definition collected_spec (t : tree) : Prop :=
  forall pre rel len,
    (rel, len) ∈ collect_model_files base sel iw t (base ++ map Normal pre) ↔
    ∃ names, names ≠ [] ∧ rel = map Normal (pre ++ names) ∧
      tree_at t names = Some (TFile (Some len)) ∧ selected sel iw (pre ++ names).

(** An entry contributes the files below its own name. *)
Lemma collect_entry_spec pre n t rel len :
  tree_wf t -> collected_spec t ->
  (rel, len) ∈ collect_entry base sel iw (base ++ map Normal pre) (n, t) ↔
  ∃ names, rel = map Normal (pre ++ n :: names) ∧
    tree_at t names = Some (TFile (Some len)) ∧ selected sel iw (pre ++ n :: names).
Proof.
  intros Hwf IH. unfold collect_entry. cbn [fst snd]. rewrite path_join_name, path_snoc_name.
  destruct t as [size|es|].
  - rewrite collect_file_spec. split.
    + intros (-> & -> & Hs). by exists [].
    + intros ([|m names] & -> & Ht & Hs); [by simplify_eq/=|done].
  - rewrite (IH (pre ++ [n])). split.
    + intros (names & _ & -> & Ht & Hs). exists names. by rewrite <- app_assoc in *.
    + intros (names & -> & Ht & Hs). exists names. rewrite <- app_assoc.
      split_and!; try done. by intros ->.
  - split; [set_solver|]. intros ([|m names] & _ & Ht & _); done.
Qed.

Lemma collect_spec t : tree_wf t -> collected_spec t.
Proof.
  induction t as [size| |es IH] using tree_induction; intros Hwf pre rel len.
  - simpl. split; [set_solver|]. by intros ([|] & ? & _ & ? & _).
  - simpl. split; [set_solver|]. by intros ([|] & ? & _ & ? & _).
  - inversion_clear Hwf as [| |? Hnd _ Hsub]. rewrite Forall_forall in IH, Hsub.
    rewrite collect_dir, list_elem_of_In, in_concat. split.
    + intros (l & Hl & Hin). apply in_map_iff in Hl as ([n t] & <- & He%list_elem_of_In).
      apply list_elem_of_In, collect_entry_spec in Hin as (names & -> & Ht & Hs);
        [|by apply (Hsub (n, t))|by apply (IH (n, t)), (Hsub (n, t))].
      exists (n :: names). split_and!; try done. cbn [tree_at].
      by rewrite (proj2 (entry_at_elem n t es Hnd) He).
    + intros ([|n names] & Hne & -> & Ht & Hs); [done|]. cbn [tree_at] in Ht.
      destruct (entry_at n es) as [t|] eqn:He; [|done]. apply entry_at_elem in He; [|done].
      exists (collect_entry base sel iw (base ++ map Normal pre) (n, t)). split.
      * apply in_map_iff. exists (n, t). split; [done|]. by apply list_elem_of_In.
      * apply list_elem_of_In, collect_entry_spec; [by apply (Hsub (n, t))| |by exists names].
        by apply (IH (n, t)), (Hsub (n, t)).
Qed.

Lemma collect_NoDup t : tree_wf t ->
  forall pre, NoDup (map fst (collect_model_files base sel iw t (base ++ map Normal pre))).
Proof.
  induction t as [size| |es IH] using tree_induction; intros Hwf pre; [constructor|constructor|].
  inversion_clear Hwf as [| |? Hnd _ Hsub]. rewrite collect_dir.
  induction es as [|[n t] es IHes]; [constructor|]. cbn [map concat] in *.
  apply NoDup_cons in Hnd as [Hn Hnd]. apply Forall_cons in IH as [IHt IH].
  apply Forall_cons in Hsub as [Ht Hsub]. simpl in IHt, Ht.
  rewrite map_app. apply NoDup_app. split_and!; [| |by apply IHes].
  - unfold collect_entry. cbn [fst snd]. destruct t as [size|es'|]; [| |constructor].
    + pose proof (collect_file_length base (path_join (base ++ map Normal pre) [Normal n]) sel iw size).
      destruct (collect_file _ _ _ _ _) as [|x [|]]; simpl in *; [constructor| |lia].
      apply NoDup_singleton.
    + rewrite path_join_name, path_snoc_name. by apply IHt.
  - intros rel ([rel' len] & -> & Hin)%list_elem_of_fmap
      ([rel'' len'] & Heq & Hin'%list_elem_of_In%in_concat)%list_elem_of_fmap.
    simpl in Heq. subst rel''. destruct Hin' as (l & Hl & Hin').
    apply in_map_iff in Hl as ([n' t'] & <- & He%list_elem_of_In).
    apply collect_entry_spec in Hin as (a & -> & _); [|done|by apply collect_spec].
    rewrite Forall_forall in Hsub. apply list_elem_of_In, collect_entry_spec in Hin' as (b & Heq & _);
      [|by apply (Hsub (n', t'))|by apply collect_spec, (Hsub (n', t'))].
    apply map_Normal_inj, app_inv_head in Heq. injection Heq as -> _.
    apply Hn, list_elem_of_fmap. by exists (n', t').
Qed.
End collected.

(** The server lists and streams exactly the files that a request asks for:
    the plain files of the snapshot at any depth, except weight files when they
    are to be ignored and files that a selector does not name; each appears once,
    with its size, under its path relative to the snapshot. *)
Lemma collect_model_files_exact base sel iw t :
  tree_wf t ->
  (forall rel len,
     (rel, len) ∈ collect_model_files base sel iw t base ↔
     ∃ names, names ≠ [] ∧ rel = map Normal names ∧
       tree_at t names = Some (TFile (Some len)) ∧ selected sel iw names) ∧
  NoDup (map fst (collect_model_files base sel iw t base)).
Proof.
  intros Hwf. pose proof (collect_spec base sel iw t Hwf []) as Hs.
  pose proof (collect_NoDup base sel iw t Hwf []) as Hn. simpl in *. rewrite app_nil_r in *. done.
Qed.

Definition sample_tree : tree :=
  TDir [("config.json", TFile (Some 2%Z)); ("onnx", TDir [("w.bin", TFile (Some 3%Z))]);
        ("empty", TFile (Some 0%Z))].

Lemma sample_tree_wf : tree_wf sample_tree.
Proof.
  repeat first [constructor | apply (bool_decide_unpack _); exact I | split_and!; done | set_solver].
Qed.

Lemma collect_model_files_exact_witness :
  NoDup (map fst (collect_model_files [RootDir] None true sample_tree [RootDir])).
Proof. apply (collect_model_files_exact [RootDir] None true sample_tree), sample_tree_wf. Defined.
