(* ===== verification/FileReceiver.v ===== *)
(** * Receiving model files (modelexpress_client/src/lib.rs)

    [stream_model_files_from_server]: the client installs the chunks that a
    server streams into its local cache.  A failed step leaves the store as it
    is at that point, so every step returns the store with its error.  The
    messages of the errors are kept without their arguments.  The cache
    configuration is given; [sync_all] does not change the store. *)

From Stdlib Require Import ZArith Lia Ascii String.
From stdpp Require Import base tactics option list gmap fin_maps strings.
From S2P Require Import Prelude RustStr RustPath Models EntryKey RegistryMemory Eviction Tracker.
From S2P Require Import Fs CacheLayout ModelFiles.

(** [modelexpress_common::Error], the cases of this function. *)
Inductive recv_error : Type :=
| ErrValidation (msg : string)
| ErrIo (msg : string)
| ErrServer (msg : string)
| ErrGrpc (st : status).

Definition is_safe_relative_path (p : path) : bool :=
  existsb (fun c => match c with Normal _ => true | _ => false end) p
  && negb (existsb unsafe_component p).

(** The operating system takes a path that ends in a slash or in [/.] for a
    directory; [components] does not show it. *)
Definition names_directory (raw : string) : bool := ends_with "/" raw || ends_with "/." raw.

(** [Path::parent]. *)
Definition path_parent (p : path) : option path :=
  match p with
  | [] | [RootDir] => None
  | _ => Some (removelast p)
  end.

Section receiver.
Context (cwd : path) (listing : path -> option (list (path * Z))).
Context (local_cache_path : path) (provider : ModelProvider) (model_name : string).

Definition io {A : Type} (s : fs) (msg : string) (r : result A io_error) : result A (fs * recv_error) :=
  match r with Ok a => Ok a | Err _ => Err (s, ErrIo msg) end.

Definition fail {A : Type} (s : fs) (e : recv_error) : result A (fs * recv_error) := Err (s, e).

(** [fs::create_dir_all] with its error turned into ours. *)
Definition create_dirs (s : fs) (p : path) (msg : string) : result fs (fs * recv_error) :=
  match create_dir_all cwd s p with
  | Ok s' => Ok s'
  | Err (s', _) => Err (s', ErrIo msg)
  end.

(** The model directory and its canonical form. *)
Definition prepare_stream_model_dir (s : fs) (commit_hash : option string)
    : result (fs * path * path) (fs * recv_error) :=
  if bool_decide (provider = HuggingFace) && bool_decide (commit_hash = None)
  then fail s (ErrValidation "Failed to resolve model directory: missing required revision")
  else if match commit_hash with Some r => negb (validate_revision r) | None => false end
  then fail s (ErrValidation "Failed to resolve model directory")
  else match resolve_model_path cwd s listing local_cache_path provider model_name commit_hash with
       | None => fail s (ErrIo "Failed to resolve model directory")
       | Some model_dir =>
           let? s := create_dirs s model_dir "Failed to create model directory" in
           let? canonical_cache_dir :=
             io s "Failed to canonicalize cache directory" (canonicalize cwd s local_cache_path) in
           let? canonical_model_dir :=
             io s "Failed to canonicalize model directory" (canonicalize cwd s model_dir) in
           if negb (path_starts_with canonical_model_dir canonical_cache_dir)
           then fail s (ErrValidation
                          "Received model directory that resolves outside cache root")
           else Ok (s, model_dir, canonical_model_dir)
       end.

(** Replaces the final entry, never what it points to.  A path that the
    operating system takes for a directory is refused by one call or the other. *)
Definition create_stream_output_file (s : fs) (file_path : path) (dir_form : bool)
    : result (fs * path) (fs * recv_error) :=
  if dir_form then
    if is_dir cwd s file_path
    then fail s (ErrValidation "Refusing to overwrite directory in model directory")
    else fail s (ErrIo "Failed to create file")
  else
    let? s :=
      match symlink_metadata cwd s file_path with
      | Ok DirNode => fail s (ErrValidation "Refusing to overwrite directory in model directory")
      | Ok OtherNode =>
          fail s (ErrValidation "Refusing to overwrite unsupported file type in model directory")
      | Ok (FileNode _ | SymlinkNode _) =>
          io s "Failed to replace existing file" (remove_file cwd s file_path)
      | Err ENOENT => Ok s
      | Err _ => fail s (ErrIo "Failed to inspect output file")
      end in
    io s "Failed to create file" (create_new cwd s file_path).

Record StreamedFileState : Type := MkStreamedFileState {
  sf_path : path;
  sf_file : path;               (* where the open file is in the store *)
  sf_expected_size : Z;
  sf_bytes_written : Z;
  sf_saw_last_chunk : bool
}.

Record recv_state : Type := MkRecvState {
  rv_fs : fs;
  rv_model_dir : option (path * path);     (* as given and canonical *)
  rv_current_file : option StreamedFileState;
  rv_files_received : Z;
  rv_bytes_received : Z;
  rv_saw_chunk : bool;
  rv_saw_final_chunk : bool
}.

Definition incomplete (f : StreamedFileState) : bool :=
  negb (sf_saw_last_chunk f) || negb (sf_bytes_written f =? sf_expected_size f)%Z.

(** The parent of the file exists, created if needed, and resolves below the
    model directory. *)
Definition check_parent (s : fs) (canonical_model_dir file_path : path)
    : result fs (fs * recv_error) :=
  match path_parent file_path with
  | None => Ok s
  | Some parent =>
      let? s := if path_exists cwd s parent then Ok s
                else create_dirs s parent "Failed to create parent directory" in
      let? canonical_parent :=
        io s "Failed to canonicalize parent directory" (canonicalize cwd s parent) in
      if negb (path_starts_with canonical_parent canonical_model_dir)
      then fail s (ErrValidation "Received file path that resolves outside model directory")
      else Ok s
  end.

(** The file that a chunk belongs to: the open one, or a new one once the open
    one is complete.  Also the number of files so far. *)
Definition open_file (s : fs) (current : option StreamedFileState) (files_received : Z)
    (file_path : path) (c : FileChunk) : result (fs * StreamedFileState * Z) (fs * recv_error) :=
  let need_new_file :=
    match current with None => true | Some f => negb (bool_decide (sf_path f = file_path)) end in
  match need_new_file, current with
  | false, Some f => Ok (s, f, files_received)
  | _, _ =>
      if match current with Some f => incomplete f | None => false end
      then fail s (ErrValidation "Received new file before previous file completed")
      else if negb (fc_offset c =? 0)%Z
      then fail s (ErrValidation "Received first chunk for file with non-zero offset")
      else
        let? created := create_stream_output_file s file_path
                          (names_directory (fc_relative_path c)) in
        let '(s, h) := created in
        Ok (s, MkStreamedFileState file_path h (fc_total_size c) 0 false,
            saturating_add_u64 files_received 1)
  end.

(** Appending a chunk to its file. *)
Definition write_chunk (s : fs) (f : StreamedFileState) (c : FileChunk)
    : result (fs * StreamedFileState) (fs * recv_error) :=
  if sf_saw_last_chunk f then fail s (ErrValidation "Received extra chunk for completed file")
  else if negb (fc_total_size c =? sf_expected_size f)%Z
  then fail s (ErrValidation "Received inconsistent total size for file")
  else if negb (fc_offset c =? sf_bytes_written f)%Z
  then fail s (ErrValidation "Received unexpected offset for file")
  else
    let next_size := saturating_add_u64 (sf_bytes_written f) (Z.of_nat (length (fc_data c))) in
    if (sf_expected_size f <? next_size)%Z
    then fail s (ErrValidation "Received chunk for file that exceeds the advertised size")
    else
      let s := write_all (sf_file f) (fc_data c) s in
      let f := MkStreamedFileState (sf_path f) (sf_file f) (sf_expected_size f) next_size
                 (sf_saw_last_chunk f) in
      if fc_is_last_chunk c then
        if negb (sf_bytes_written f =? sf_expected_size f)%Z
        then fail s (ErrValidation "Received final chunk for file before its end")
        else Ok (s, MkStreamedFileState (sf_path f) (sf_file f) (sf_expected_size f)
                      (sf_bytes_written f) true)
      else if (sf_bytes_written f =? sf_expected_size f)%Z
      then fail s (ErrValidation "Received non-final chunk that completed file")
      else Ok (s, f).

(** A chunk of the file at [file_path]: its parent, the file and the write. *)
Definition install_chunk (s : fs) (canonical_model_dir file_path : path)
    (current : option StreamedFileState) (files_received : Z) (c : FileChunk)
    : result (fs * StreamedFileState * Z) (fs * recv_error) :=
  let? s := check_parent s canonical_model_dir file_path in
  let? opened := open_file s current files_received file_path c in
  let '(s, f, files_received) := opened in
  let? written := write_chunk s f c in
  let '(s, f) := written in
  Ok (s, f, files_received).

(** One round of the loop. *)
Definition recv_chunk (st : recv_state) (c : FileChunk) : result recv_state (fs * recv_error) :=
  let s := rv_fs st in
  if rv_saw_final_chunk st
  then fail s (ErrValidation "Received extra file chunk after the final stream marker")
  else
    let? dirs :=
      match rv_model_dir st with
      | Some d => Ok (s, d)
      | None =>
          let? prepared := prepare_stream_model_dir s (fc_commit_hash c) in
          let '(s, model_dir, canonical_model_dir) := prepared in
          Ok (s, (model_dir, canonical_model_dir))
      end in
    let '(s, (model_dir, canonical_model_dir)) := dirs in
    let relative_path := components (fc_relative_path c) in
    if negb (is_safe_relative_path relative_path)
    then fail s (ErrValidation "Received potentially unsafe file path from server")
    else
      let file_path := path_join model_dir relative_path in
      if (fc_total_size c <? fc_offset c)%Z
      then fail s (ErrValidation "Received chunk with offset beyond total size")
      else
        let? installed := install_chunk s canonical_model_dir file_path (rv_current_file st)
                            (rv_files_received st) c in
        let '(s, f, files_received) := installed in
        Ok (MkRecvState s (Some (model_dir, canonical_model_dir)) (Some f) files_received
              (saturating_add_u64 (rv_bytes_received st) (Z.of_nat (length (fc_data c)))) true
              (fc_is_last_file c && fc_is_last_chunk c)).

(** The loop over the messages; an error message of the stream ends it. *)
Fixpoint recv_loop (st : recv_state) (ms : list (result FileChunk status))
    : result recv_state (fs * recv_error) :=
  match ms with
  | [] => Ok st
  | Err e :: _ => fail (rv_fs st) (ErrGrpc e)
  | Ok c :: ms' => let? st' := recv_chunk st c in recv_loop st' ms'
  end.

(** After the loop: the final marker was seen and the last file is complete. *)
Definition finish (st : recv_state) : result (fs * path) (fs * recv_error) :=
  let s := rv_fs st in
  if negb (rv_saw_chunk st) then fail s (ErrServer "Server streamed no files")
  else if negb (rv_saw_final_chunk st)
  then fail s (ErrServer "Server stream ended before the final file marker")
  else if match rv_current_file st with Some f => incomplete f | None => false end
  then fail s (ErrValidation "Final streamed file ended incomplete")
  else match rv_model_dir st with
       | Some (dir, _) => Ok (s, dir)
       | None => fail s (ErrServer "Server streamed no model directory")
       end.

(** The whole call on the answer of the server: the store afterwards, and the
    snapshot directory. *)
Definition stream_model_files_from_server (s : fs) (reply : result (list (result FileChunk status)) status)
    : result (fs * path) (fs * recv_error) :=
  let? s := create_dirs s local_cache_path "Failed to create local cache directory" in
  match reply with
  | Err e => fail s (ErrGrpc e)
  | Ok ms =>
      let? st := recv_loop (MkRecvState s None None 0 0 false false) ms in
      finish st
  end.

(** The store after the call, whether or not it succeeded. *)
Definition store_after (r : result (fs * path) (fs * recv_error)) : fs :=
  match r with Ok (s, _) => s | Err (s, _) => s end.

End receiver.
