(* ===== verification/FileTransfer.v ===== *)
(** * Properties of the file transfer

    The client of FileReceiver.v against an arbitrary server: what it can change
    in the file system, and what it has installed when it succeeds.  Then the
    client and the server of ModelFiles.v together. *)

From Stdlib Require Import ZArith Lia Ascii String.
From stdpp Require Import base tactics option list gmap fin_maps strings.
From S2P Require Import Prelude RustStr RustPath Models EntryKey RegistryMemory Eviction Tracker.
From S2P Require Import Fs CacheLayout ModelFiles FileReceiver.

(** ** Paths from the server *)

Lemma omap_piece_component (l : list string) c :
  c ∈ omap piece_component l -> c = ParentDir ∨ ∃ s, c = Normal s.
Proof.
  intros (x & _ & Hx)%list_elem_of_omap. unfold piece_component in Hx.
  repeat case_match; simplify_eq; eauto.
Qed.

(** A path that passes the client's test is a list of names, possibly after a
    leading dot. *)
Lemma safe_components s :
  is_safe_relative_path (components s) = true ->
  ∃ names, names ≠ [] ∧
    (components s = map Normal names ∨ components s = CurDir :: map Normal names).
Proof.
  assert (forall l : list string, existsb unsafe_component (omap piece_component l) = false ->
            ∃ names, omap piece_component l = map Normal names) as Hnames.
  { intros l Hsafe. pose proof (omap_piece_component l) as Hl.
    induction (omap piece_component l) as [|c cs IH]; [by exists []|]. simpl in Hsafe.
    apply orb_false_iff in Hsafe as [Hc Hcs].
    destruct IH as [names ->]; [done|intros; apply Hl; by right|].
    destruct (Hl c) as [->|[n ->]]; [by left|done|]. by exists (n :: names). }
  unfold components, is_safe_relative_path. intros [Hn Hu%negb_true_iff]%andb_true_iff.
  destruct (starts_with "/" s); [done|].
  assert (forall l : list string, existsb (fun c => match c with Normal _ => true | _ => false end)
                      (omap piece_component l) = true ->
            existsb unsafe_component (omap piece_component l) = false ->
            ∃ names, names ≠ [] ∧ omap piece_component l = map Normal names) as Hplain.
  { intros l Hl1 Hl2. destruct (Hnames l Hl2) as [names Heq]. exists names. split; [|done].
    intros ->. by rewrite Heq in Hl1. }
  repeat case_match; try (destruct (Hplain _ Hn Hu) as (names & ? & ?); by eauto).
  destruct (Hplain _ Hn Hu) as (names & ? & ->). eauto.
Qed.

Lemma safe_join p s :
  is_safe_relative_path (components s) = true ->
  ∃ q n, path_join p (components s) = q ++ [Normal n].
Proof.
  intros (names & Hne & Hc)%safe_components.
  destruct (exists_last Hne) as (front & n & ->). destruct Hc as [-> | ->].
  - rewrite path_join_names, map_app, app_assoc. by eexists _, _.
  - destruct p as [|c p]; simpl.
    + exists (CurDir :: map Normal front), n. unfold path_join. simpl. by rewrite map_app.
    + exists (c :: p ++ map Normal front), n. unfold path_join. simpl.
      by rewrite map_app, <- app_assoc.
Qed.

(** ** Confinement

    Below the directory [c] anything may change; elsewhere only new directories
    may appear. *)

Definition confined (c : path) (s s' : fs) : Prop :=
  forall p, ~ c `prefix_of` p -> s' !! p = s !! p ∨ (s !! p = None ∧ s' !! p = Some DirNode).

#[export] Instance confined_preorder c : PreOrder (confined c).
Proof.
  split; [by left|]. intros s1 s2 s3 H12 H23 p Hp.
  destruct (H12 p Hp) as [H1|[H1 H1']], (H23 p Hp) as [H2|[H2 H2']];
    rewrite ?H1, ?H2 in *; naive_solver.
Qed.

Lemma grows_confined c s s' : grows s s' -> confined c s s'.
Proof. intros Hg p _. apply Hg. Qed.

Lemma confined_insert c s p n : c `prefix_of` p -> confined c s (<[p := n]> s).
Proof.
  intros Hp q Hq. left. rewrite lookup_insert_ne; [done|]. by intros ->.
Qed.

Lemma confined_delete c s p : c `prefix_of` p -> confined c s (delete p s).
Proof.
  intros Hp q Hq. left. rewrite lookup_delete_ne; [done|]. by intros ->.
Qed.

Lemma confined_write c s h data : c `prefix_of` h -> confined c s (write_all h data s).
Proof.
  intros Hp. unfold write_all. destruct (s !! h) as [[]|]; try done. by apply confined_insert.
Qed.

#[export] Hint Resolve grows_confined confined_insert confined_delete confined_write : mx.

Section confinement.
Context (cwd : path) (listing : path -> option (list (path * Z))).
Context (local_cache_path : path) (provider : ModelProvider) (model_name : string).

Lemma create_dirs_grows s p msg :
  match create_dirs cwd s p msg with Ok s' => grows s s' | Err (s', _) => grows s s' end.
Proof.
  unfold create_dirs. pose proof (create_dir_all_grows cwd s p) as Hg.
  destruct (create_dir_all cwd s p) as [|[]]; done.
Qed.

(** The store of a step, whether or not it succeeded. *)
Definition left_by {A} (store : A -> fs) (r : result A (fs * recv_error)) : fs :=
  match r with Ok a => store a | Err (s, _) => s end.

Lemma prepare_spec s commit :
  match prepare_stream_model_dir cwd listing local_cache_path provider model_name s commit with
  | Ok (s', md, cmd) =>
      grows s s' ∧ ∃ c, canonicalize cwd s' local_cache_path = Ok c ∧ c `prefix_of` cmd
  | Err (s', _) => grows s s'
  end.
Proof.
  unfold prepare_stream_model_dir, fail, io.
  destruct (_ && _); [done|]. destruct (match commit with Some _ => _ | None => _ end); [done|].
  destruct (resolve_model_path _ _ _ _ _ _ _) as [md|]; [|done].
  pose proof (create_dirs_grows s md "Failed to create model directory") as Hg.
  destruct (create_dirs _ _ _ _) as [s'|[s' e]]; [|done].
  destruct (canonicalize cwd s' local_cache_path) as [c|] eqn:Hc; [|done].
  destruct (canonicalize cwd s' md) as [cmd|] eqn:Hm; [|done].
  destruct (path_starts_with cmd c) eqn:Hp; simpl; [|done].
  split; [done|]. exists c. split; [done|]. by apply bool_decide_eq_true in Hp.
Qed.

(** The entry that a file path names, once its parent resolves. *)
Lemma entry_of_file s q n d e :
  canonicalize cwd s q = Ok d -> entry_of cwd s (q ++ [Normal n]) = Ok e -> e = d ++ [Normal n].
Proof.
  intros Hq. unfold entry_of. rewrite last_snoc, removelast_last.
  destruct q as [|c q]; [done|]. rewrite Hq. destruct (is_dir_at s d); [|done]. by intros [= <-].
Qed.

(** Creating the output file only touches its own entry in the directory that
    the parent resolves to, links below it included. *)
Lemma create_output_spec s q n d dir_form :
  canonicalize cwd s q = Ok d ->
  match create_stream_output_file cwd s (q ++ [Normal n]) dir_form with
  | Ok (s', h) => h = d ++ [Normal n] ∧ s' !! h = Some (FileNode []) ∧
                  forall p, p ≠ h -> s' !! p = s !! p
  | Err (s', _) => forall p, p ≠ d ++ [Normal n] -> s' !! p = s !! p
  end.
Proof.
  intros Hq. unfold create_stream_output_file, io, fail.
  destruct dir_form; [by destruct (is_dir _ _ _)|].
  assert (forall s', (forall p, p ≠ d ++ [Normal n] -> s' !! p = s !! p) ->
            (forall p x, s' !! p = Some x -> s !! p = Some x) ->
            match (match create_new cwd s' (q ++ [Normal n]) with
                   | Ok a => Ok a | Err _ => Err (s', ErrIo "Failed to create file") end) with
            | Ok (s'', h) => h = d ++ [Normal n] ∧ s'' !! h = Some (FileNode []) ∧
                             forall p, p ≠ h -> s'' !! p = s !! p
            | Err (s'', _) => forall p, p ≠ d ++ [Normal n] -> s'' !! p = s !! p
            end) as Hcreate.
  { intros s' Hsame Hsub. unfold create_new.
    destruct (entry_of cwd s' _) as [e|] eqn:He; [|done].
    apply (entry_of_mono _ _ s) in He; [|done]. apply (entry_of_file _ _ _ _ _ Hq) in He as ->.
    destruct (s' !! _); [done|]. split_and!; [done|by rewrite lookup_insert_eq|].
    intros p Hp. rewrite lookup_insert_ne by done. by apply Hsame. }
  unfold symlink_metadata. destruct (entry_of cwd s _) as [e|[]] eqn:He; try done.
  2:{ by apply Hcreate. }
  pose proof (entry_of_file _ _ _ _ _ Hq He) as ->.
  destruct (s !! _) as [[]|] eqn:Hn; try done; [| |by apply Hcreate];
    unfold remove_file; rewrite He, Hn; (apply Hcreate; [|apply lookup_delete_Some]).
  all: intros p Hp; by rewrite lookup_delete_ne.
Qed.

Lemma path_parent_snoc q n : path_parent (q ++ [Normal n]) = Some q.
Proof.
  unfold path_parent. rewrite removelast_last.
  destruct (q ++ [Normal n]) as [|[] []] eqn:He; try done;
    destruct q as [|? []]; simplify_eq/=; done.
Qed.

Lemma check_parent_spec s cmd q n :
  match check_parent cwd s cmd (q ++ [Normal n]) with
  | Ok s' => grows s s' ∧ ∃ d, canonicalize cwd s' q = Ok d ∧ cmd `prefix_of` d
  | Err (s', _) => grows s s'
  end.
Proof.
  unfold check_parent, fail, io. rewrite path_parent_snoc.
  assert (forall s', grows s s' ->
    match (match (match canonicalize cwd s' q with Ok a => Ok a
                  | Err _ => Err (s', ErrIo "Failed to canonicalize parent directory") end) with
           | Ok cp => if negb (path_starts_with cp cmd)
                      then Err (s', ErrValidation "Received file path that resolves outside model directory")
                      else Ok s'
           | Err er => Err er end) with
    | Ok s'' => grows s s'' ∧ ∃ d, canonicalize cwd s'' q = Ok d ∧ cmd `prefix_of` d
    | Err (s'', _) => grows s s''
    end) as Hrest.
  { intros s' Hg. destruct (canonicalize cwd s' q) as [d|] eqn:Hc; [|done].
    destruct (path_starts_with d cmd) eqn:Hp; [|done]. split; [done|]. exists d.
    split; [done|]. by apply bool_decide_eq_true in Hp. }
  destruct (path_exists cwd s q); [by apply Hrest|].
  pose proof (create_dirs_grows s q "Failed to create parent directory") as Hg.
  destruct (create_dirs _ _ _ _) as [s'|[s' e]]; [by apply Hrest|done].
Qed.

(** The open file of a chunk: the current one, or a new one whose predecessor is
    complete. *)
Lemma open_file_spec s current fr q n d c :
  canonicalize cwd s q = Ok d ->
  match open_file cwd s current fr (q ++ [Normal n]) c with
  | Ok (s', f, _) =>
      sf_path f = q ++ [Normal n] ∧
      ((current = Some f ∧ s' = s) ∨
       (f = MkStreamedFileState (q ++ [Normal n]) (d ++ [Normal n]) (fc_total_size c) 0 false ∧
        fc_offset c = 0%Z ∧ s' !! (d ++ [Normal n]) = Some (FileNode []) ∧
        (forall p, p ≠ d ++ [Normal n] -> s' !! p = s !! p) ∧
        forall g, current = Some g -> incomplete g = false))
  | Err (s', _) => forall p, p ≠ d ++ [Normal n] -> s' !! p = s !! p
  end.
Proof.
  intros Hq. unfold open_file, fail.
  destruct current as [f|].
  - destruct (bool_decide (sf_path f = _)) eqn:Hp; cbn [negb].
    { apply bool_decide_eq_true in Hp. eauto. }
    destruct (incomplete f) eqn:Hi; [done|]. destruct (fc_offset c =? 0)%Z eqn:Ho; [|done]. cbn [negb].
    pose proof (create_output_spec s q n d (names_directory (fc_relative_path c)) Hq) as Hc.
    destruct (create_stream_output_file _ _ _ _) as [[s' h]|[s' e]]; [|done].
    destruct Hc as (-> & Hh & Hs). split; [done|right]. apply Z.eqb_eq in Ho.
    split_and!; try done. by intros g [= <-].
  - destruct (fc_offset c =? 0)%Z eqn:Ho; [|done]. cbn [negb].
    pose proof (create_output_spec s q n d (names_directory (fc_relative_path c)) Hq) as Hc.
    destruct (create_stream_output_file _ _ _ _) as [[s' h]|[s' e]]; [|done].
    destruct Hc as (-> & Hh & Hs). split; [done|right]. apply Z.eqb_eq in Ho. by split_and!.
Qed.

Lemma write_chunk_spec s f c :
  match write_chunk s f c with
  | Ok (s', f') =>
      s' = write_all (sf_file f) (fc_data c) s ∧ sf_saw_last_chunk f = false ∧
      fc_total_size c = sf_expected_size f ∧ fc_offset c = sf_bytes_written f ∧
      f' = MkStreamedFileState (sf_path f) (sf_file f) (sf_expected_size f)
             (saturating_add_u64 (sf_bytes_written f) (Z.of_nat (length (fc_data c))))
             (fc_is_last_chunk c) ∧
      (sf_bytes_written f' <= sf_expected_size f)%Z ∧
      (fc_is_last_chunk c = true ↔ sf_bytes_written f' = sf_expected_size f)
  | Err (s', _) => s' = s ∨ s' = write_all (sf_file f) (fc_data c) s
  end.
Proof.
  unfold write_chunk, fail. destruct (sf_saw_last_chunk f) eqn:Hl; [by left|].
  destruct (_ =? _)%Z eqn:Ht; [|by left]. destruct (fc_offset c =? _)%Z eqn:Ho; [|by left]. simpl.
  destruct (_ <? _)%Z eqn:Hn; [by left|]. mx_bool.
  destruct (fc_is_last_chunk c) eqn:Hc.
  - destruct (_ =? sf_expected_size f)%Z eqn:He; cbn [negb]; [|by right]. mx_bool.
    by split_and!.
  - destruct (_ =? sf_expected_size f)%Z eqn:He; [by right|]. mx_bool.
    by split_and!.
Qed.

(** What the loop keeps: before the first chunk only directories were added;
    after it, all changes but new directories are below the canonical model
    directory [cmd], and so is the open file. *)
Definition confined_state (s0 : fs) (st : recv_state) : Prop :=
  match rv_model_dir st with
  | None => grows s0 (rv_fs st) ∧ rv_current_file st = None
  | Some (_, cmd) =>
      (∃ s1 s2 commit md c,
         prepare_stream_model_dir cwd listing local_cache_path provider model_name s1 commit
           = Ok (s2, md, cmd) ∧
         grows s0 s1 ∧ canonicalize cwd s2 local_cache_path = Ok c ∧ c `prefix_of` cmd) ∧
      confined cmd s0 (rv_fs st) ∧
      forall f, rv_current_file st = Some f -> cmd `prefix_of` sf_file f
  end.

Definition confined_store (s0 s' : fs) : Prop :=
  grows s0 s' ∨
  ∃ s1 s2 commit md cmd c,
    prepare_stream_model_dir cwd listing local_cache_path provider model_name s1 commit
      = Ok (s2, md, cmd) ∧
    grows s0 s1 ∧ canonicalize cwd s2 local_cache_path = Ok c ∧ c `prefix_of` cmd ∧
    confined cmd s0 s'.

Lemma confined_state_store s0 st : confined_state s0 st -> confined_store s0 (rv_fs st).
Proof.
  unfold confined_state. destruct (rv_model_dir st) as [[md cmd]|].
  - intros ((s1 & s2 & commit & md' & c & Hp & Hg & Hc & Hpre) & Hconf & _). right.
    by exists s1, s2, commit, md', cmd, c.
  - intros [Hg _]. by left.
Qed.

(** A chunk after the model directory is known. *)
Lemma install_confined s cmd q n current fr c :
  (forall f, current = Some f -> cmd `prefix_of` sf_file f) ->
  match install_chunk cwd s cmd (q ++ [Normal n]) current fr c with
  | Ok (s', f, _) => confined cmd s s' ∧ cmd `prefix_of` sf_file f
  | Err (s', _) => confined cmd s s'
  end.
Proof.
  intros Hcur. unfold install_chunk. pose proof (check_parent_spec s cmd q n) as Hck.
  destruct (check_parent _ _ _ _) as [s1|[s1 e]]; [|auto with mx].
  destruct Hck as (Hg & d & Hd & Hpre). apply (grows_confined cmd) in Hg.
  assert (cmd `prefix_of` d ++ [Normal n]) as Hh by by apply prefix_app_r.
  assert (forall s', (forall p, p ≠ d ++ [Normal n] -> s' !! p = s1 !! p) -> confined cmd s s') as Hsame.
  { intros s' Hs'. etrans; [exact Hg|]. intros p Hp. left. apply Hs'. by intros ->. }
  pose proof (open_file_spec s1 current fr q n d c Hd) as Hop.
  destruct (open_file _ _ _ _ _ _) as [[[s2 f] fr']|[s2 e]]; [|by apply Hsame].
  assert (confined cmd s s2 ∧ cmd `prefix_of` sf_file f) as [Hs2 Hf].
  { destruct Hop as (_ & [[-> ->]|(-> & _ & _ & Hs2 & _)]); [eauto|]. simpl. eauto. }
  pose proof (write_chunk_spec s2 f c) as Hw.
  destruct (write_chunk s2 f c) as [[s3 f']|[s3 e]].
  - destruct Hw as (-> & _ & _ & _ & -> & _). simpl. split; [|done].
    etrans; [exact Hs2|]. auto with mx.
  - destruct Hw as [-> | ->]; [done|]. etrans; [exact Hs2|]. auto with mx.
Qed.

Lemma recv_chunk_confined s0 st c :
  confined_state s0 st ->
  match recv_chunk cwd listing local_cache_path provider model_name st c with
  | Ok st' => confined_state s0 st'
  | Err (s', _) => confined_store s0 s'
  end.
Proof.
  intros Hst. pose proof (confined_state_store s0 st Hst) as Hstore. unfold recv_chunk, fail.
  destruct (rv_saw_final_chunk st); [done|].
  set (dirs := match rv_model_dir st with Some d => _ | None => _ end).
  assert (match dirs with
          | Ok (s, (md, cmd)) => confined_state s0 (MkRecvState s (Some (md, cmd)) (rv_current_file st)
                                   (rv_files_received st) 0 true false)
          | Err (s', _) => confined_store s0 s'
          end) as Hdirs.
  { unfold dirs. revert Hst. unfold confined_state. destruct (rv_model_dir st) as [[md cmd]|]; [done|].
    intros [Hg ->]. pose proof (prepare_spec (rv_fs st) (fc_commit_hash c)) as Hp.
    destruct (prepare_stream_model_dir _ _ _ _ _ _ _) as [[[s1 md] cmd]|[s1 e]] eqn:Hprep.
    - destruct Hp as (Hg1 & c0 & Hc0 & Hpre). simpl. split_and!; [|apply grows_confined; by trans (rv_fs st)|done].
      by exists (rv_fs st), s1, (fc_commit_hash c), md, c0.
    - left. by trans (rv_fs st). }
  clearbody dirs. destruct dirs as [[s [md cmd]]|[s' e]]; [|done].
  pose proof (confined_state_store _ _ Hdirs) as Hs. cbn [rv_fs] in Hs.
  destruct (is_safe_relative_path _) eqn:Hsafe; cbn [negb]; [|done].
  destruct (_ <? _)%Z; [done|].
  destruct (safe_join md (fc_relative_path c) Hsafe) as (q & n & ->).
  destruct Hdirs as (Hprep & Hconf & Hcur). cbn [rv_fs rv_current_file] in *.
  pose proof (install_confined s cmd q n (rv_current_file st) (rv_files_received st) c Hcur) as Hi.
  destruct (install_chunk _ _ _ _ _ _ _) as [[[s2 f] fr]|[s2 e]].
  - destruct Hi as [Hs2 Hf]. split_and!; [done|by trans s|]. by intros g [= <-].
  - destruct Hprep as (s1 & s1' & commit & md' & c0 & ? & ? & ? & ?). right.
    exists s1, s1', commit, md', cmd, c0. split_and!; try done. by trans s.
Qed.

Lemma recv_loop_confined s0 ms st :
  confined_state s0 st ->
  match recv_loop cwd listing local_cache_path provider model_name st ms with
  | Ok st' => confined_state s0 st'
  | Err (s', _) => confined_store s0 s'
  end.
Proof.
  revert st. induction ms as [|[c|e] ms IH]; intros st Hst; cbn [recv_loop]; [done| |].
  - pose proof (recv_chunk_confined s0 st c Hst) as Hc.
    destruct (recv_chunk _ _ _ _ _ _ _) as [st'|[s' e]]; [by apply IH|done].
  - by apply confined_state_store.
Qed.
End confinement.

(** C20: the client is safe against any server: whatever answer it gets, and
    whatever links its file system holds, the call adds at most directories
    outside the model directory it works in; every file it creates, replaces or
    writes is below the canonical model directory, which is below the canonical
    cache root.  This holds for failed calls as well. *)
Theorem receiver_confined cwd listing cache provider model_name s0 reply :
  confined_store cwd listing cache provider model_name s0
    (store_after (stream_model_files_from_server cwd listing cache provider model_name s0 reply)).
Proof.
  unfold stream_model_files_from_server.
  pose proof (create_dirs_grows cwd s0 cache "Failed to create local cache directory") as Hg.
  destruct (create_dirs _ _ _ _) as [s1|[s1 e]]; [|by left].
  destruct reply as [ms|e]; [|by left].
  assert (confined_state cwd listing cache provider model_name s0
            (MkRecvState s1 None None 0 0 false false)) as Hinit by done.
  pose proof (recv_loop_confined cwd listing cache provider model_name s0 ms _ Hinit) as Hl.
  destruct (recv_loop _ _ _ _ _ _ _) as [st|[s' e]]; [|done].
  apply confined_state_store in Hl. unfold finish, fail.
  repeat case_match; done.
Qed.

(** ** What an accepted stream looks like *)

Definition chunks_data (cs : list FileChunk) : bytes := concat (map fc_data cs).

Definition chunks_size (cs : list FileChunk) : Z := Z.of_nat (length (chunks_data cs)).

(** The chunks of one file so far: contiguous from offset 0, within the
    advertised size, and marked as last exactly where that size is reached. *)
Definition chunks_fit (size : Z) (is_last : bool) (cs : list FileChunk) : Prop :=
  cs ≠ [] ∧
  (forall i c, cs !! i = Some c ->
     fc_offset c = chunks_size (take i cs) ∧ fc_total_size c = size ∧
     (fc_is_last_chunk c = true ↔ S i = length cs ∧ is_last = true)) ∧
  (chunks_size cs <= size)%Z ∧ (is_last = true ↔ chunks_size cs = size).

Record group : Type := MkGroup { g_path : path; g_file : path; g_chunks : list FileChunk }.

(** A file that the stream has completed. *)
Definition group_complete (model_dir : path) (g : group) : Prop :=
  chunks_fit (chunks_size (g_chunks g)) true (g_chunks g) ∧
  (forall c, c ∈ g_chunks g -> path_join model_dir (components (fc_relative_path c)) = g_path g) ∧
  last (g_file g) = last (g_path g).

(** What the groups leave in the store: a later one replaces an earlier one. *)
Definition contents (gs : list group) : gmap path bytes :=
  foldl (fun m g => <[g_file g := chunks_data (g_chunks g)]> m) ∅ gs.

Lemma contents_snoc gs g :
  contents (gs ++ [g]) = <[g_file g := chunks_data (g_chunks g)]> (contents gs).
Proof. unfold contents. by rewrite foldl_app. Qed.

Lemma chunks_data_snoc cs c : chunks_data (cs ++ [c]) = chunks_data cs ++ fc_data c.
Proof. unfold chunks_data. rewrite map_app, concat_app. simpl. by rewrite app_nil_r. Qed.

Lemma chunks_size_app cs cs' : chunks_size (cs ++ cs') = (chunks_size cs + chunks_size cs')%Z.
Proof. unfold chunks_size, chunks_data. rewrite map_app, concat_app, length_app. lia. Qed.

Lemma chunks_size_nonneg cs : (0 <= chunks_size cs)%Z.
Proof. unfold chunks_size. lia. Qed.

Lemma chunks_size_snoc cs c :
  chunks_size (cs ++ [c]) = (chunks_size cs + Z.of_nat (length (fc_data c)))%Z.
Proof. rewrite chunks_size_app. unfold chunks_size at 2, chunks_data. simpl. by rewrite app_nil_r. Qed.

(** A further chunk of the file. *)
Lemma chunks_fit_snoc size cs c :
  (cs = [] ∨ chunks_fit size false cs) ->
  fc_offset c = chunks_size cs -> fc_total_size c = size ->
  (chunks_size (cs ++ [c]) <= size)%Z ->
  (fc_is_last_chunk c = true ↔ chunks_size (cs ++ [c]) = size) ->
  chunks_fit size (fc_is_last_chunk c) (cs ++ [c]).
Proof.
  intros Hcs Ho Ht Hle Hlast. split_and!; [by destruct cs| |done|done].
  intros i d Hi. apply lookup_app_Some in Hi as [Hi|[Hlen Hi]].
  - destruct Hcs as [-> |(_ & Hfit & _)]; [done|].
    destruct (Hfit i d Hi) as (Hoff & Htot & Hl). pose proof (lookup_lt_Some _ _ _ Hi).
    rewrite take_app_le by lia. split_and!; [done|done|]. rewrite length_app. simpl.
    split; [naive_solver|]. intros [? _]. lia.
  - apply list_lookup_singleton_Some in Hi as [Hi <-]. assert (i = length cs) as -> by lia.
    rewrite take_app_length. split_and!; [done|done|]. rewrite length_app. simpl.
    split; [intros ->; split; [lia|done]|naive_solver].
Qed.

Lemma write_all_lookup (h : path) (data d : bytes) (s : fs) (p : path) :
  s !! h = Some (FileNode d) ->
  write_all h data s !! p = if decide (p = h) then Some (FileNode (d ++ data)) else s !! p.
Proof.
  intros Hh. unfold write_all. rewrite Hh. case_decide as Hp.
  - subst. by rewrite lookup_insert_eq.
  - by rewrite lookup_insert_ne.
Qed.

Section soundness.
Context (cwd : path) (listing : path -> option (list (path * Z))).
Context (local_cache_path : path) (provider : ModelProvider) (model_name : string).

Definition stored (gs : list group) (s : fs) : Prop :=
  forall h d, contents gs !! h = Some d -> s !! h = Some (FileNode d).

Lemma stored_grows gs s s' : grows s s' -> stored gs s -> stored gs s'.
Proof. intros Hg Hs h d Hh. eapply grows_lookup; [done|by apply Hs]. Qed.

(** The state in the middle of a file. *)
Definition in_file (md : path) (s : fs) (f : StreamedFileState) (front : list group)
    (cs : list FileChunk) : Prop :=
  Forall (group_complete md) front ∧
  chunks_fit (sf_expected_size f) (sf_saw_last_chunk f) cs ∧
  sf_bytes_written f = chunks_size cs ∧
  (forall c, c ∈ cs -> path_join md (components (fc_relative_path c)) = sf_path f) ∧
  last (sf_file f) = last (sf_path f) ∧
  stored (front ++ [MkGroup (sf_path f) (sf_file f) cs]) s.

(** A complete file becomes a group of its own. *)
Lemma in_file_complete md s f front cs :
  in_file md s f front cs -> incomplete f = false ->
  Forall (group_complete md) (front ++ [MkGroup (sf_path f) (sf_file f) cs]).
Proof.
  intros (Hfront & Hfit & Hw & Hpaths & Hl & _) Hi. apply Forall_app. split; [done|].
  apply Forall_singleton. unfold incomplete in Hi. mx_bool. split_and!; simpl; [|done|done].
  rewrite H, <- H0, Hw in Hfit. done.
Qed.

(** Appending a chunk to the open file. *)
Lemma write_in_file md s f c s' f' front cs :
  write_chunk s f c = Ok (s', f') ->
  (chunks_size (cs ++ [c]) <= u64_max)%Z ->
  path_join md (components (fc_relative_path c)) = sf_path f ->
  ((cs = [] ∧ Forall (group_complete md) front ∧ sf_bytes_written f = 0%Z ∧
    last (sf_file f) = last (sf_path f) ∧ s !! sf_file f = Some (FileNode []) ∧
    forall h d, h ≠ sf_file f -> contents front !! h = Some d -> s !! h = Some (FileNode d)) ∨
   in_file md s f front cs) ->
  in_file md s' f' front (cs ++ [c]).
Proof.
  intros Hw Hmax Hpath Hst. pose proof (write_chunk_spec s f c) as Hspec. rewrite Hw in Hspec.
  destruct Hspec as (-> & Hl & Ht & Ho & -> & Hle & Hlast). cbn [sf_bytes_written] in Hle, Hlast.
  assert (Forall (group_complete md) front ∧ sf_bytes_written f = chunks_size cs ∧
          last (sf_file f) = last (sf_path f) ∧
          s !! sf_file f = Some (FileNode (chunks_data cs)) ∧
          (cs = [] ∨ chunks_fit (sf_expected_size f) false cs) ∧
          (forall d, d ∈ cs -> path_join md (components (fc_relative_path d)) = sf_path f) ∧
          (forall h d, h ≠ sf_file f -> contents front !! h = Some d -> s !! h = Some (FileNode d)))
    as (Hfront & Hbw & Hn & Hfile & Hfit & Hpaths & Hrest).
  { destruct Hst as [(-> & ? & Hz & ? & ? & ?)|(? & Hfit & ? & ? & ? & Hs)].
    - split_and!; try done; [by left|set_solver].
    - split_and!; try done.
      + apply Hs. rewrite contents_snoc. simpl. by rewrite lookup_insert_eq.
      + right. by rewrite <- Hl.
      + intros h d Hh Hc. apply Hs. rewrite contents_snoc, lookup_insert_ne by done. done. }
  assert (saturating_add_u64 (sf_bytes_written f) (Z.of_nat (length (fc_data c)))
          = chunks_size (cs ++ [c])) as Hsat.
  { unfold saturating_add_u64. rewrite chunks_size_snoc in *. rewrite Hbw. lia. }
  rewrite Hsat in *. split_and!; simpl; try done.
  - apply chunks_fit_snoc; try done. by rewrite Ho, Hbw.
  - intros d [Hd| ->%list_elem_of_singleton]%elem_of_app; [by apply Hpaths|done].
  - intros h d. rewrite contents_snoc. simpl. rewrite (write_all_lookup _ _ _ _ _ Hfile).
    case_decide as Hh; [subst h|].
    + rewrite lookup_insert_eq, chunks_data_snoc. by intros [= <-].
    + rewrite lookup_insert_ne by done. by apply Hrest.
Qed.

Lemma install_received s md cmd q n current fr c s' f' fr' front cs :
  path_join md (components (fc_relative_path c)) = q ++ [Normal n] ->
  (chunks_size (concat (map g_chunks front) ++ cs ++ [c]) <= u64_max)%Z ->
  match current with
  | None => front = [] ∧ cs = []
  | Some f => in_file md s f front cs
  end ->
  install_chunk cwd s cmd (q ++ [Normal n]) current fr c = Ok (s', f', fr') ->
  ∃ front' cs', in_file md s' f' front' cs' ∧
    concat (map g_chunks front) ++ cs ++ [c] = concat (map g_chunks front') ++ cs'.
Proof.
  intros Hpath Hmax Hcur. unfold install_chunk. pose proof (check_parent_spec cwd s cmd q n) as Hck.
  destruct (check_parent _ _ _ _) as [s1|]; [|done]. destruct Hck as (Hg & d & Hd & _).
  pose proof (open_file_spec cwd s1 current fr q n d c Hd) as Hop.
  destruct (open_file _ _ _ _ _ _) as [[[s2 f] fr2]|]; [|done]. destruct Hop as (Hfp & Hop).
  destruct (write_chunk s2 f c) as [[s3 f3]|] eqn:Hw; [|done]. intros [= <- <- <-].
  assert (chunks_size (cs ++ [c]) <= u64_max)%Z as Hmax1.
  { rewrite chunks_size_app in Hmax. pose proof (chunks_size_nonneg (concat (map g_chunks front))). lia. }
  destruct Hop as [[-> ->]|(-> & Ho & Hnew & Hsame & Hdone)].
  - exists front, (cs ++ [c]). split; [|done].
    eapply write_in_file; [done|done|by rewrite Hfp|]. right.
    destruct Hcur as (? & ? & ? & ? & ? & Hs). split_and!; try done. by eapply stored_grows.
  - set (front' := match current with Some g => front ++ [MkGroup (sf_path g) (sf_file g) cs]
                   | None => [] end).
    assert (Forall (group_complete md) front' ∧ stored front' s ∧
            concat (map g_chunks front') = concat (map g_chunks front) ++ cs) as (Hf & Hs & Hcat).
    { destruct current as [g|].
      - split_and!; [by apply (in_file_complete md s), Hdone|by apply Hcur|].
        unfold front'. rewrite map_app, concat_app. simpl. by rewrite app_nil_r.
      - destruct Hcur as [-> ->]. done. }
    exists front', [c]. split; [|by rewrite Hcat, <- app_assoc].
    apply (write_in_file md s2 _ c s3 f3 front' [] Hw); [|done|left].
    { rewrite chunks_size_app in Hmax1. pose proof (chunks_size_nonneg cs). simpl. lia. }
    split_and!; simpl; try done; [by rewrite !last_snoc|].
    intros h d' Hh Hc. rewrite Hsame by done. eapply grows_lookup; [done|by apply Hs].
Qed.

Definition final_marker (c : FileChunk) : bool := fc_is_last_file c && fc_is_last_chunk c.

(** The state after the chunks [cs]. *)
Definition received (st : recv_state) (cs : list FileChunk) : Prop :=
  match rv_current_file st with
  | None => cs = [] ∧ rv_saw_chunk st = false
  | Some f => ∃ md cmd front gc, rv_model_dir st = Some (md, cmd) ∧
      cs = concat (map g_chunks front) ++ gc ∧ in_file md (rv_fs st) f front gc
  end ∧
  (forall i c, cs !! i = Some c -> final_marker c = true -> S i = length cs) ∧
  (rv_saw_final_chunk st = true ↔ ∃ c, last cs = Some c ∧ final_marker c = true).

Lemma recv_chunk_received st c st' cs :
  recv_chunk cwd listing local_cache_path provider model_name st c = Ok st' ->
  (chunks_size (cs ++ [c]) <= u64_max)%Z ->
  received st cs -> received st' (cs ++ [c]).
Proof.
  unfold recv_chunk, fail. intros Hstep Hmax (Hcur & Hmark & Hfinal).
  destruct (rv_saw_final_chunk st) eqn:Hsf; [done|].
  set (dirs := match rv_model_dir st with Some d => _ | None => _ end) in Hstep.
  destruct dirs as [[s [md cmd]]|] eqn:Hdirs; [|done].
  assert (∃ front gc, cs = concat (map g_chunks front) ++ gc ∧
            match rv_current_file st with
            | None => front = [] ∧ gc = []
            | Some f => in_file md s f front gc
            end) as (front & gc & -> & Hin).
  { destruct (rv_current_file st) as [f|].
    - destruct Hcur as (md' & cmd' & front & gc & Hmd & -> & Hin). exists front, gc.
      unfold dirs in Hdirs. rewrite Hmd in Hdirs. by simplify_eq.
    - destruct Hcur as [-> _]. by exists [], []. }
  destruct (is_safe_relative_path _) eqn:Hsafe; [|done]. cbn [negb] in Hstep.
  destruct (_ <? _)%Z; [done|].
  destruct (safe_join md (fc_relative_path c) Hsafe) as (q & n & Hq). rewrite Hq in Hstep.
  destruct (install_chunk _ _ _ _ _ _ _) as [[[s' f'] fr']|] eqn:Hi; [|done].
  injection Hstep as <-. rewrite <- app_assoc in *.
  destruct (install_received _ _ _ _ _ _ _ _ _ _ _ _ _ Hq Hmax Hin Hi) as (front' & gc' & Hin' & Heq).
  split_and!; simpl.
  - by exists md, cmd, front', gc'.
  - rewrite app_assoc. intros i d Hd Hfm. rewrite length_app. simpl.
    apply lookup_app_Some in Hd as [Hd|[Hlen Hd]].
    + exfalso. pose proof (Hmark i d Hd Hfm) as Hi'.
      enough (false = true) by done. apply Hfinal. exists d. split; [|done].
      rewrite last_lookup. by rewrite <- Hi'.
    + apply list_lookup_singleton_Some in Hd as [Hd _]. lia.
  - rewrite app_assoc, last_snoc. unfold final_marker. naive_solver.
Qed.

Lemma recv_loop_received ms st st' cs :
  recv_loop cwd listing local_cache_path provider model_name st ms = Ok st' ->
  received st cs -> (chunks_size (cs ++ omap result_ok ms) <= u64_max)%Z ->
  ms = map Ok (omap result_ok ms) ∧ received st' (cs ++ omap result_ok ms).
Proof.
  revert st cs. induction ms as [|[c|e] ms IH]; intros st cs; cbn [recv_loop]; [| |done].
  - intros [= <-] Hr _. by rewrite app_nil_r.
  - change (omap result_ok (Ok c :: ms)) with (c :: omap result_ok ms).
    destruct (recv_chunk _ _ _ _ _ st c) as [st1|] eqn:Hc; [|done]. intros Hl Hr Hmax.
    rewrite cons_middle, app_assoc in *.
    destruct (IH st1 (cs ++ [c]) Hl) as [Hms Hrec]; [|done|].
    + eapply recv_chunk_received; [done| |done]. rewrite chunks_size_app in Hmax.
      pose proof (chunks_size_nonneg (omap result_ok ms)). lia.
    + split; [|done]. simpl. by f_equal.
Qed.
End soundness.

(** C21: a successful call has received a well-formed stream and installed it.
    The chunks divide into consecutive files: the chunks of a file name one path,
    are contiguous from offset 0, agree on the file's size, and the one that
    reaches it, and no other, is marked as last; the last chunk of the stream, and
    no other, carries the final marker.  Each file then holds the bytes of its
    chunks (of the last such file, if several have the same place). *)
Theorem receiver_sound cwd listing cache provider model_name s0 ms s' model_dir :
  stream_model_files_from_server cwd listing cache provider model_name s0 (Ok ms)
    = Ok (s', model_dir) ->
  (chunks_size (omap result_ok ms) <= u64_max)%Z ->
  ∃ gs, ms = map Ok (concat (map g_chunks gs)) ∧ Forall (group_complete model_dir) gs ∧ gs ≠ [] ∧
    (forall i c, concat (map g_chunks gs) !! i = Some c ->
       final_marker c = true ↔ S i = length (concat (map g_chunks gs))) ∧
    stored gs s'.
Proof.
  unfold stream_model_files_from_server. destruct (create_dirs _ _ _ _) as [s1|]; [|done].
  destruct (recv_loop _ _ _ _ _ _ _) as [st|] eqn:Hl; [|done]. intros Hfin Hmax.
  apply (recv_loop_received _ _ _ _ _ _ _ _ []) in Hl as [Hms Hrec]; [| |done].
  2:{ split_and!; simpl; [done|done|]. split; [done|]. by intros (c & ? & _). }
  simpl in Hrec. set (cs := omap result_ok ms) in *. clearbody cs. revert Hfin. unfold finish, fail.
  destruct (rv_saw_chunk st) eqn:Hsaw; [|done]. destruct (rv_saw_final_chunk st) eqn:Hsf; [|done].
  cbn [negb]. destruct Hrec as (Hcur & Hmark & Hfinal).
  destruct (rv_current_file st) as [f|]; [|naive_solver].
  destruct Hcur as (md & cmd & front & gc & Hmd & Hcs & Hin). rewrite Hmd.
  destruct (incomplete f) eqn:Hi; [done|]. intros [= <- <-].
  exists (front ++ [MkGroup (sf_path f) (sf_file f) gc]).
  assert (concat (map g_chunks (front ++ [MkGroup (sf_path f) (sf_file f) gc])) = cs) as Hcat.
  { rewrite map_app, concat_app, Hcs. simpl. by rewrite app_nil_r. }
  rewrite Hcat. split_and!; [done|by eapply in_file_complete|by destruct front| |apply Hin].
  intros i c Hc. split; [by apply Hmark|]. intros Hlen.
  destruct (proj1 Hfinal Hsf) as (c' & Hlast & Hm). rewrite last_lookup, <- Hlen in Hlast.
  simpl in Hlast. congruence.
Qed.

(** The parent directory is created before it is checked: through a link that is
    already in the model directory, a refused chunk still leaves a directory
    outside. *)
Definition linked_store : fs :=
  {[ [RootDir] := DirNode; abs ["etc"] := DirNode; abs ["c"] := DirNode;
     abs ["c"; "gcs"] := DirNode; abs ["c"; "gcs"; "b"] := DirNode;
     abs ["c"; "gcs"; "b"; "m"] := DirNode;
     abs ["c"; "gcs"; "b"; "m"; "link"] := SymlinkNode (abs ["etc"]) ]}.

Lemma refused_chunk_leaves_directory :
  let r := stream_model_files_from_server [RootDir] no_listing (abs ["c"]) Gcs "gs://b/m" linked_store
             (Ok [Ok (MkFileChunk "link/new/f" [] 0 0 true true None)]) in
  match r with Ok _ => False | Err (_, e) =>
    e = ErrValidation "Received file path that resolves outside model directory" end ∧
  bool_decide (store_after r !! abs ["etc"; "new"] = Some DirNode) = true ∧
  bool_decide (linked_store !! abs ["etc"; "new"] = None) = true.
Proof. vm_compute. split_and!; reflexivity. Qed.
