(* ===== verification/FileRoundtrip.v ===== *)
(** * The file transfer end to end

    What the server of ModelFiles.v streams, the client of FileReceiver.v
    accepts and installs: into a model directory that does not exist yet, on a
    way without links, the client writes exactly the files of the snapshot that
    the request selects, with their content. *)

From Stdlib Require Import ZArith Lia Ascii String Strings.Byte.
From stdpp Require Import base tactics option list gmap fin_maps strings.
From S2P Require Import Prelude RustStr RustPath Models EntryKey RegistryMemory Eviction Tracker.
From S2P Require Import Fs CacheLayout ModelFiles FileReceiver FileTransfer.

(** ** The relative path of a chunk *)

Lemma names_split names :
  names ≠ [] -> Forall file_name_ok names -> split "/" (join "/" names) = names.
Proof.
  intros Hne Hok. apply split_join; [done|]. eapply Forall_impl; [exact Hok|].
  by intros x (_ & _ & _ & ?).
Qed.

Lemma rel_components names :
  names ≠ [] -> Forall file_name_ok names -> components (join "/" names) = map Normal names.
Proof. intros Hne Hok. by rewrite components_pieces; rewrite names_split. Qed.

Lemma rel_safe names : names ≠ [] -> is_safe_relative_path (map Normal names) = true.
Proof.
  intros Hne. unfold is_safe_relative_path. apply andb_true_iff. split.
  - by destruct names.
  - apply negb_true_iff. clear Hne. by induction names.
Qed.

Lemma rel_not_directory names :
  names ≠ [] -> Forall file_name_ok names -> names_directory (join "/" names) = false.
Proof.
  intros Hne Hok. unfold names_directory. pose proof (names_split names Hne Hok) as Hs.
  rewrite Forall_forall in Hok. apply orb_false_iff. split; apply not_true_iff_false.
  - intros [r Hr]%ends_with_true. rewrite Hr, split_app in Hs.
    destruct (Hok "") as [? _]; [|done]. rewrite <- Hs. apply elem_of_app. right. by left.
  - intros [r Hr]%ends_with_true. rewrite Hr, split_app in Hs.
    destruct (Hok ".") as (_ & ? & _); [|done]. rewrite <- Hs. apply elem_of_app. right. by left.
Qed.

(** A file is not on the way to it. *)
Lemma snoc_not_prefix {A} (w : list A) x : ~ w ++ [x] `prefix_of` w.
Proof. intros Hl%prefix_length. rewrite length_app in Hl. simpl in Hl. lia. Qed.

Section install.
Context (cwd : path) (L : list string).

Lemma check_parent_ok s front n :
  way_free s (abs (L ++ front)) ->
  ∃ s', check_parent cwd s (abs L) (abs (L ++ front) ++ [Normal n]) = Ok s' ∧
    dirs_to s' (abs (L ++ front)) ∧ adds_dirs (abs (L ++ front)) s s'.
Proof.
  intros Hw. unfold check_parent, io. rewrite path_parent_snoc.
  assert (∃ s', (if path_exists cwd s (abs (L ++ front)) then Ok s
                 else create_dirs cwd s (abs (L ++ front)) "Failed to create parent directory") = Ok s' ∧
            dirs_to s' (abs (L ++ front)) ∧ adds_dirs (abs (L ++ front)) s s') as (s' & -> & Hd & Hs').
  { unfold path_exists, create_dirs. destruct (canonicalize_way cwd s _ Hw) as [[-> Hd]| ->].
    - exists s. split_and!; [done|done|by left].
    - destruct (create_dir_all_way cwd s _ Hw) as (s' & -> & Hd & Hs'). by exists s'. }
  exists s'. rewrite canonicalize_dirs by done. split_and!; [|done|done].
  unfold path_starts_with. rewrite bool_decide_eq_true_2; [done|].
  unfold abs. rewrite map_app. by eexists.
Qed.

(** The first chunk of a file in a free place. *)
Lemma install_first s front n current fr c :
  let p := abs (L ++ front) ++ [Normal n] in
  way_free s (abs (L ++ front)) -> s !! p = None ->
  names_directory (fc_relative_path c) = false ->
  match current with None => True | Some f => incomplete f = false ∧ sf_path f ≠ p end ->
  fc_offset c = 0%Z -> (Z.of_nat (length (fc_data c)) <= fc_total_size c <= u64_max)%Z ->
  (fc_is_last_chunk c = true ↔ Z.of_nat (length (fc_data c)) = fc_total_size c) ->
  ∃ s' fr', install_chunk cwd s (abs L) p current fr c =
      Ok (s', MkStreamedFileState p p (fc_total_size c) (Z.of_nat (length (fc_data c)))
                (fc_is_last_chunk c), fr') ∧
    s' !! p = Some (FileNode (fc_data c)) ∧ dirs_to s' (abs (L ++ front)) ∧
    forall q, q ≠ p ->
      s' !! q = s !! q ∨
      (s !! q = None ∧ s' !! q = Some DirNode ∧ q ≠ [] ∧ q `prefix_of` abs (L ++ front)).
Proof.
  intros p Hw Hfree Hnd Hcur Ho [Hle Hmax] Hlast. unfold install_chunk.
  destruct (check_parent_ok s front n Hw) as (s1 & Hck & Hd & Hs1). fold p in Hck. rewrite Hck.
  assert (s1 !! p = None) as Hp1.
  { destruct (Hs1 p) as [?|(_ & _ & _ & Hlong%snoc_not_prefix)]; [congruence|done]. }
  assert (entry_of cwd s1 p = Ok p) as He.
  { unfold p. rewrite <- abs_snoc. by apply entry_of_dirs. }
  assert (create_stream_output_file cwd s1 p (names_directory (fc_relative_path c))
          = Ok (<[p := FileNode []]> s1, p)) as Hcr.
  { rewrite Hnd. unfold create_stream_output_file, symlink_metadata, create_new, io.
    by rewrite He, Hp1, He, Hp1. }
  assert (open_file cwd s1 current fr p c =
          Ok (<[p := FileNode []]> s1, MkStreamedFileState p p (fc_total_size c) 0 false,
              saturating_add_u64 fr 1)) as ->.
  { unfold open_file. rewrite Ho, Hcr. destruct current as [f|]; [|done].
    destruct Hcur as [-> Hne]. by rewrite bool_decide_eq_false_2. }
  assert (saturating_add_u64 0 (Z.of_nat (length (fc_data c))) = Z.of_nat (length (fc_data c))) as Hsat.
  { unfold saturating_add_u64. lia. }
  assert (write_all p (fc_data c) (<[p := FileNode []]> s1) = <[p := FileNode (fc_data c)]> s1) as Hwr.
  { unfold write_all. by rewrite lookup_insert_eq, insert_insert_eq. }
  exists (<[p := FileNode (fc_data c)]> s1), (saturating_add_u64 fr 1). split_and!.
  - unfold write_chunk. simpl. rewrite Z.eqb_refl, Ho, Hsat, Hwr. simpl.
    rewrite (proj2 (Z.ltb_ge _ _)) by lia.
    destruct (fc_is_last_chunk c).
    + rewrite (proj2 (Z.eqb_eq _ _)) by by apply Hlast. done.
    + rewrite (proj2 (Z.eqb_neq _ _)); [done|]. intros Heq. by apply Hlast in Heq.
  - by rewrite lookup_insert_eq.
  - intros q Hq Hpre. rewrite lookup_insert_ne by (intros <-; rewrite Hd in Hp1; done). by apply Hd.
  - intros q Hq. rewrite lookup_insert_ne by done. apply Hs1.
Qed.

(** A further chunk of the open file. *)
Lemma install_next s front n fr c d0 size :
  let p := abs (L ++ front) ++ [Normal n] in
  dirs_to s (abs (L ++ front)) -> s !! p = Some (FileNode d0) ->
  fc_offset c = Z.of_nat (length d0) -> fc_total_size c = size ->
  (Z.of_nat (length (d0 ++ fc_data c)) <= size <= u64_max)%Z ->
  (fc_is_last_chunk c = true ↔ Z.of_nat (length (d0 ++ fc_data c)) = size) ->
  install_chunk cwd s (abs L) p
    (Some (MkStreamedFileState p p size (Z.of_nat (length d0)) false)) fr c =
  Ok (<[p := FileNode (d0 ++ fc_data c)]> s,
      MkStreamedFileState p p size (Z.of_nat (length (d0 ++ fc_data c))) (fc_is_last_chunk c), fr).
Proof.
  intros p Hd Hp Ho Ht [Hle Hmax] Hlast. unfold install_chunk.
  assert (way_free s (abs (L ++ front))) as Hw.
  { split; [apply Hd; [done|by eexists (map Normal _)]|]. intros. right. by apply Hd. }
  destruct (check_parent_ok s front n Hw) as (s1 & Hck & _ & Hs1). fold p in Hck. rewrite Hck.
  assert (s1 = s) as ->.
  { apply map_eq. intros q. destruct (Hs1 q) as [?|(Hn & _ & Hne & Hpre)]; [done|].
    by rewrite Hd in Hn. }
  unfold open_file. cbn [sf_path]. rewrite bool_decide_eq_true_2 by done. cbn [negb].
  assert (saturating_add_u64 (Z.of_nat (length d0)) (Z.of_nat (length (fc_data c)))
          = Z.of_nat (length (d0 ++ fc_data c))) as Hsat.
  { rewrite length_app in *. unfold saturating_add_u64. lia. }
  unfold write_chunk. simpl. rewrite Ht, Ho, !Z.eqb_refl, Hsat. simpl.
  rewrite (proj2 (Z.ltb_ge _ _)) by lia. unfold write_all. rewrite Hp.
  destruct (fc_is_last_chunk c).
  - rewrite (proj2 (Z.eqb_eq _ _)) by by apply Hlast. done.
  - rewrite (proj2 (Z.eqb_neq _ _)); [done|]. intros Heq. by apply Hlast in Heq.
Qed.
End install.

Section transfer.
Context (cwd : path) (listing : path -> option (list (path * Z))).
Context (cache : path) (provider : ModelProvider) (model_name : string) (L : list string).

Abbreviation recv := (recv_chunk cwd listing cache provider model_name).
Abbreviation loop := (recv_loop cwd listing cache provider model_name).

Lemma recv_loop_app st a b : loop st (a ++ b) = (let? st' := loop st a in loop st' b).
Proof.
  revert st. induction a as [|[c|e] a IH]; intros st; cbn [app recv_loop]; [done| |done].
  destruct (recv st c); [apply IH|done].
Qed.

(** The state at the end of a file (or before the first one). *)
Definition at_boundary (st : recv_state) : Prop :=
  rv_model_dir st = Some (abs L, abs L) ∧ rv_saw_final_chunk st = false ∧
  match rv_current_file st with None => True | Some f => incomplete f = false end.

(** A chunk that the middle part installs. *)
Lemma recv_step st c names s' f' fr' :
  rv_model_dir st = Some (abs L, abs L) -> rv_saw_final_chunk st = false ->
  names ≠ [] -> Forall file_name_ok names -> fc_relative_path c = join "/" names ->
  (fc_offset c <= fc_total_size c)%Z ->
  install_chunk cwd (rv_fs st) (abs L) (abs (L ++ names)) (rv_current_file st)
    (rv_files_received st) c = Ok (s', f', fr') ->
  ∃ br, recv st c = Ok (MkRecvState s' (Some (abs L, abs L)) (Some f') fr' br true
                          (fc_is_last_file c && fc_is_last_chunk c)).
Proof.
  intros Hmd Hsf Hne Hok Hrel Hoff Hi. unfold recv_chunk. rewrite Hsf, Hmd, Hrel.
  rewrite rel_components, rel_safe by done. cbn [negb].
  rewrite (proj2 (Z.ltb_ge _ _)) by done. rewrite path_join_names.
  replace (abs L ++ map Normal names) with (abs (L ++ names)) by (unfold abs; by rewrite map_app).
  rewrite Hi. by eexists.
Qed.

(** A complete file with its last chunk marked as final or not. *)
Definition after_file (p : path) (size : Z) (is_last_file : bool) (s' : fs)
    (st' : recv_state) : Prop :=
  rv_fs st' = s' ∧ rv_model_dir st' = Some (abs L, abs L) ∧
  rv_current_file st' = Some (MkStreamedFileState p p size size true) ∧
  rv_saw_final_chunk st' = is_last_file ∧ rv_saw_chunk st' = true.

(** A further chunk of the open file. *)
Lemma recv_next st front n c d0 size :
  let p := abs (L ++ front) ++ [Normal n] in
  Forall file_name_ok (front ++ [n]) -> fc_relative_path c = join "/" (front ++ [n]) ->
  rv_model_dir st = Some (abs L, abs L) -> rv_saw_final_chunk st = false ->
  rv_current_file st = Some (MkStreamedFileState p p size (Z.of_nat (length d0)) false) ->
  dirs_to (rv_fs st) (abs (L ++ front)) -> rv_fs st !! p = Some (FileNode d0) ->
  fc_offset c = Z.of_nat (length d0) -> fc_total_size c = size ->
  (Z.of_nat (length (d0 ++ fc_data c)) <= size <= u64_max)%Z ->
  (fc_is_last_chunk c = true ↔ Z.of_nat (length (d0 ++ fc_data c)) = size) ->
  ∃ br, recv st c =
    Ok (MkRecvState (<[p := FileNode (d0 ++ fc_data c)]> (rv_fs st)) (Some (abs L, abs L))
          (Some (MkStreamedFileState p p size (Z.of_nat (length (d0 ++ fc_data c)))
                   (fc_is_last_chunk c)))
          (rv_files_received st) br true (fc_is_last_file c && fc_is_last_chunk c)).
Proof.
  intros p Hok Hrel Hmd Hsf Hcur Hd Hp Ho Ht Hsz Hlast.
  eapply (recv_step st c (front ++ [n])); try done.
  - by destruct front.
  - rewrite Ho, Ht. rewrite length_app in Hsz. lia.
  - rewrite Hcur, app_assoc, abs_snoc. by apply install_next.
Qed.

(** The bytes still to come are none exactly for the last piece. *)
Lemma last_piece (d0 d : bytes) pieces size :
  Forall (fun d : bytes => d ≠ []) pieces ->
  Z.of_nat (length (d0 ++ d ++ concat pieces)) = size ->
  ((size <=? Z.of_nat (length (d0 ++ d)))%Z = true ↔ Z.of_nat (length (d0 ++ d)) = size) ∧
  ((size <=? Z.of_nat (length (d0 ++ d)))%Z = true ↔ pieces = []).
Proof.
  intros Hpc Hsz. rewrite !Z.leb_le, !length_app in *. split; [lia|].
  destruct pieces as [|e pieces]; simpl in *; [split; [done|lia]|].
  apply Forall_cons in Hpc as [He _]. destruct e as [|x e]; [done|].
  rewrite length_app in Hsz. simpl in Hsz. split; [lia|done].
Qed.

Lemma saturating_lengths (d0 d rest : bytes) size :
  Z.of_nat (length (d0 ++ d ++ rest)) = size -> (size <= u64_max)%Z ->
  saturating_add_u64 (Z.of_nat (length d0)) (Z.of_nat (length d)) = Z.of_nat (length (d0 ++ d)).
Proof. rewrite !length_app. unfold saturating_add_u64. lia. Qed.

(** The rest of an open file. *)
Lemma recv_reads front n is_last_file commit size pieces st d0 :
  let names := front ++ [n] in
  let p := abs (L ++ front) ++ [Normal n] in
  Forall file_name_ok names -> Forall (fun d : bytes => d ≠ []) pieces ->
  rv_model_dir st = Some (abs L, abs L) -> rv_saw_final_chunk st = false ->
  rv_current_file st = Some (MkStreamedFileState p p size (Z.of_nat (length d0)) false) ->
  dirs_to (rv_fs st) (abs (L ++ front)) -> rv_fs st !! p = Some (FileNode d0) ->
  pieces ≠ [] -> Z.of_nat (length (d0 ++ concat pieces)) = size -> (size <= u64_max)%Z ->
  ∃ ms st',
    read_loop (join "/" names) size is_last_file commit false (Z.of_nat (length d0)) (map Ok pieces)
      = (ms, Some false) ∧
    loop st ms = Ok st' ∧
    after_file p size is_last_file (<[p := FileNode (d0 ++ concat pieces)]> (rv_fs st)) st'.
Proof.
  intros names p Hok. revert st d0.
  induction pieces as [|d pieces IH]; intros st d0 Hpc Hmd Hsf Hcur Hd Hp Hne Hsz Hmax; [done|].
  apply Forall_cons in Hpc as [Hd1 Hpc]. cbn [concat] in *.
  destruct (last_piece d0 d pieces size Hpc Hsz) as [Hlast Hlast'].
  destruct d as [|b d]; [done|]. cbn [map read_loop].
  rewrite (saturating_lengths d0 (b :: d) (concat pieces) size) by done.
  set (is_last := (size <=? _)%Z) in *.
  destruct (recv_next st front n (MkFileChunk (join "/" names) (b :: d) (Z.of_nat (length d0)) size
              is_last (is_last_file && is_last) None) d0 size) as (br & Hstep); try done.
  { rewrite app_assoc, length_app in Hsz. simpl fc_data. lia. }
  cbn [fc_data fc_is_last_chunk fc_is_last_file] in Hstep.
  destruct (decide (pieces = [])) as [->|Hmore].
  - assert (is_last = true) as Hl by by apply Hlast'. cbn [map read_loop].
    eexists _, _. split; [done|]. cbn [recv_loop]. rewrite Hstep. split; [done|].
    simpl. rewrite app_nil_r. unfold after_file. simpl. rewrite Hl, !andb_true_r.
    split_and!; try done. do 2 f_equal. by apply Hlast.
  - assert (is_last = false) as Hl by by apply not_true_iff_false; rewrite Hlast'.
    rewrite Hl, !andb_false_r in *.
    edestruct (IH (MkRecvState (<[p := FileNode (d0 ++ b :: d)]> (rv_fs st)) (Some (abs L, abs L))
                (Some (MkStreamedFileState p p size (Z.of_nat (length (d0 ++ b :: d))) false))
                (rv_files_received st) br true false) (d0 ++ b :: d))
      as (ms & st' & Hms & Hloop & Hafter); try done.
    { simpl. intros q Hq Hpre. rewrite lookup_insert_ne; [by apply Hd|]. intros <-.
      by apply snoc_not_prefix in Hpre. }
    { simpl. by rewrite lookup_insert_eq. }
    { by rewrite <- app_assoc. }
    rewrite Hms. eexists _, st'. split; [done|]. cbn [recv_loop]. rewrite Hstep. split; [done|].
    cbn [rv_fs] in Hafter. by rewrite insert_insert_eq, <- app_assoc in Hafter.
Qed.

(** The stores that a file installed at the end of [w] may leave. *)
Definition installs (w : path) (n : string) (s s' : fs) : Prop :=
  forall q, q ≠ w ++ [Normal n] -> s' !! q = s !! q ∨
    (s !! q = None ∧ s' !! q = Some DirNode ∧ q ≠ [] ∧ q `prefix_of` w).

(** The first chunk of a file in a free place. *)
Lemma recv_first st front n d size is_last is_last_file cm :
  let names := front ++ [n] in
  let p := abs (L ++ front) ++ [Normal n] in
  Forall file_name_ok names -> at_boundary st ->
  (forall f, rv_current_file st = Some f -> sf_path f ≠ p) ->
  way_free (rv_fs st) (abs (L ++ front)) -> rv_fs st !! p = None ->
  (Z.of_nat (length d) <= size <= u64_max)%Z -> (is_last = true ↔ Z.of_nat (length d) = size) ->
  ∃ s1 fr br, recv st (MkFileChunk (join "/" names) d 0 size is_last (is_last_file && is_last) cm) =
      Ok (MkRecvState s1 (Some (abs L, abs L))
            (Some (MkStreamedFileState p p size (Z.of_nat (length d)) is_last)) fr br true
            ((is_last_file && is_last) && is_last)) ∧
    s1 !! p = Some (FileNode d) ∧ dirs_to s1 (abs (L ++ front)) ∧
    installs (abs (L ++ front)) n (rv_fs st) s1.
Proof.
  intros names p Hok (Hmd & Hsf & Hinc) Hcur Hw Hfree Hd Hl.
  assert (names ≠ []) as Hne by by destruct front.
  destruct (install_first cwd L (rv_fs st) front n (rv_current_file st) (rv_files_received st)
    (MkFileChunk (join "/" names) d 0 size is_last (is_last_file && is_last) cm))
    as (s1 & fr & Hi & Hp & Hdirs & Hs1); try done; [by apply rel_not_directory| |].
  { destruct (rv_current_file st); [by split; [|apply Hcur]|done]. }
  edestruct (recv_step st) as (br & Hstep); [exact Hmd|exact Hsf|exact Hne|exact Hok| | | |].
  4:{ exists s1, fr, br. split_and!; [exact Hstep|done|done|done]. }
  - done.
  - simpl. lia.
  - unfold names. rewrite app_assoc, abs_snoc. exact Hi.
Qed.

(** A whole file in a free place, as the server streams it. *)
Lemma recv_file (reads : path -> Z -> option (list (result bytes string))) model_path chunk_size
    commit first is_last_file front n pieces st :
  let names := front ++ [n] in
  let p := abs (L ++ front) ++ [Normal n] in
  let size := Z.of_nat (length (concat pieces)) in
  Forall file_name_ok names -> is_utf8 (join "/" names) = true ->
  Forall (fun d : bytes => d ≠ []) pieces -> (size <= u64_max)%Z ->
  reads (path_join model_path (map Normal names)) chunk_size = Some (map Ok pieces) ->
  at_boundary st -> (forall f, rv_current_file st = Some f -> sf_path f ≠ p) ->
  way_free (rv_fs st) (abs (L ++ front)) -> rv_fs st !! p = None ->
  ∃ c ms st' s',
    stream_file reads model_path chunk_size commit first is_last_file (map Normal names) size
      = (Ok c :: ms, Some false) ∧ fc_commit_hash c = (if first then commit else None) ∧
    loop st (Ok c :: ms) = Ok st' ∧
    after_file p size is_last_file s' st' ∧ s' !! p = Some (FileNode (concat pieces)) ∧
    installs (abs (L ++ front)) n (rv_fs st) s'.
Proof.
  intros names p size Hok Hutf Hpc Hmax Hreads Hst Hcur Hw Hfree.
  unfold stream_file. rewrite Hreads, path_display_names, lossy_valid by done.
  pose proof (fun d is_last cm Hd => recv_first st front n d size is_last is_last_file cm Hok Hst Hcur
                Hw Hfree (conj Hd Hmax)) as Hfirst. fold names p in Hfirst.
  destruct pieces as [|d pieces].
  { change size with 0%Z in *. cbn [Z.eqb].
    destruct (Hfirst [] true (if first then commit else None)) as (s1 & fr & br & Hr & Hp & _ & Hs1);
      [done|done|]. rewrite andb_true_r in Hr.
    eexists _, _, _, s1. split; [done|]. split; [done|]. cbn [recv_loop]. rewrite Hr.
    split; [done|]. rewrite andb_true_r. by split_and!. }
  apply Forall_cons in Hpc as [Hd Hpc]. cbn [concat] in *.
  destruct (last_piece [] d pieces size Hpc eq_refl) as [Hlast Hlast']. cbn [app] in *.
  destruct d as [|b d]; [done|]. cbn [map read_loop].
  assert (saturating_add_u64 0 (Z.of_nat (length (b :: d))) = Z.of_nat (length (b :: d))) as ->
    by by apply (saturating_lengths [] (b :: d) (concat pieces) size).
  replace (size =? 0)%Z with false by (symmetry; apply Z.eqb_neq; unfold size; simpl; lia).
  set (is_last := (size <=? _)%Z) in *.
  destruct (Hfirst (b :: d) is_last (if first then commit else None))
    as (s1 & fr & br & Hr & Hp & Hdirs & Hs1).
  { unfold size. rewrite length_app. lia. } { done. }
  destruct (decide (pieces = [])) as [->|Hmore].
  - assert (is_last = true) as Hl by by apply Hlast'. rewrite Hl, !andb_true_r in *.
    rewrite (proj1 Hlast eq_refl) in Hr.
    cbn [map read_loop]. eexists _, _, _, s1. split; [done|]. split; [done|]. cbn [recv_loop].
    rewrite Hr. split; [done|]. cbn [concat]. by rewrite app_nil_r.
  - assert (is_last = false) as Hl by by apply not_true_iff_false; rewrite Hlast'.
    rewrite Hl, !andb_false_r in *.
    edestruct (recv_reads front n is_last_file commit size pieces) as (ms & st' & Hms & Hloop & Haf);
      [exact Hok|exact Hpc| | | | | |exact Hmore|exact eq_refl|exact Hmax|].
    6:{ fold names p in Hms, Haf. rewrite Hms. eexists _, _, st', _. split; [done|].
        split; [done|]. cbn [recv_loop]. rewrite Hr. split; [exact Hloop|]. split; [exact Haf|]. split; [by rewrite lookup_insert_eq|].
        intros q Hq. rewrite lookup_insert_ne by done. by apply Hs1. }
    all: done.
Qed.

(** ** The stream of all files *)

(** A file with its names below the snapshot and the pieces it is read in. *)
Abbreviation served_file := (list string * list bytes)%type.

Definition file_size (f : served_file) : Z := Z.of_nat (length (concat (snd f))).

Definition listed (f : served_file) : path * Z := (map Normal (fst f), file_size f).

Definition served (reads : path -> Z -> option (list (result bytes string))) (model_path : path)
    (chunk_size : Z) (f : served_file) : Prop :=
  fst f ≠ [] ∧ Forall file_name_ok (fst f) ∧ is_utf8 (join "/" (fst f)) = true ∧
  Forall (fun d : bytes => d ≠ []) (snd f) ∧
  (file_size f <= u64_max)%Z ∧
  reads (path_join model_path (map Normal (fst f))) chunk_size = Some (map Ok (snd f)).

Definition place (f : served_file) : path := abs (L ++ fst f).

(** Where the files [rest] are still to come and the files [done] are there. *)
Definition installed (done rest : list served_file) (s : fs) : Prop :=
  (forall f, f ∈ done -> s !! place f = Some (FileNode (concat (snd f)))) ∧
  (forall f front n, f ∈ rest -> fst f = front ++ [n] -> way_free s (abs (L ++ front))) ∧
  (forall f, f ∈ rest -> s !! place f = None) ∧
  (forall q d, abs L `prefix_of` q -> s !! q = Some (FileNode d) ->
     ∃ f, f ∈ done ∧ q = place f ∧ d = concat (snd f)).

Lemma abs_prefix (a b : list string) : abs (L ++ a) `prefix_of` abs (L ++ b) -> a `prefix_of` b.
Proof.
  unfold abs. intros [r Hr]. injection Hr as Hr. rewrite !map_app, <- app_assoc in Hr.
  apply app_inv_head in Hr. revert b Hr. induction a as [|x a IH]; intros [|y b] Hr; simpl in *;
    [by exists []|by eexists|done|]. injection Hr as -> Hr.
  by apply prefix_cons, IH.
Qed.

(** No file is below another one of the list. *)
Definition prefix_free (l : list served_file) : Prop :=
  NoDup (map fst l) ∧ forall f g, f ∈ l -> g ∈ l -> fst f `prefix_of` fst g -> fst f = fst g.

(** Installing one of the files keeps the places of the others. *)
Lemma installed_step done g rest s s' front n :
  prefix_free (g :: rest) -> installed done (g :: rest) s -> fst g = front ++ [n] ->
  s' !! place g = Some (FileNode (concat (snd g))) ->
  installs (abs (L ++ front)) n s s' -> installed (done ++ [g]) rest s'.
Proof.
  intros [[Hg Hnd]%NoDup_cons Hpf] (Hdone & Hway & Hfree & Honly) Hn Hp Hi.
  assert (place g = abs (L ++ front) ++ [Normal n]) as Hpg.
  { unfold place. by rewrite Hn, app_assoc, abs_snoc. }
  assert (forall f, f ∈ rest -> ~ fst g `prefix_of` fst f ∧ ~ fst f `prefix_of` fst g) as Hdis.
  { intros f Hf. assert (fst f ≠ fst g) as Hne.
    { intros He. apply Hg. rewrite <- He. apply list_elem_of_fmap. eauto. }
    split; intros Hpre; apply Hpf in Hpre; set_solver. }
  unfold installs in Hi. rewrite <- Hpg in Hi. split_and!.
  - intros f [Hf| ->%list_elem_of_singleton]%elem_of_app; [|done].
    destruct (decide (place f = place g)) as [He|He].
    { specialize (Hdone f Hf). rewrite He, Hfree in Hdone by set_solver. done. }
    destruct (Hi _ He) as [->|[Hno _]]; [by apply Hdone|]. by rewrite Hdone in Hno.
  - intros f front' n' Hf Hn'. pose proof (Hway f front' n' ltac:(set_solver) Hn') as [Hr Hq].
    split.
    { destruct (Hi [RootDir]) as [->|[Hno _]]; [|done|congruence].
      rewrite Hpg. intros [=]. by destruct (map Normal (L ++ front)). }
    intros q Hne Hpre. destruct (decide (q = place g)) as [->|He].
    + exfalso. destruct (Hdis f Hf) as [Hno _]. apply Hno. apply abs_prefix in Hpre.
      rewrite Hn'. by apply prefix_app_r.
    + destruct (Hi q He) as [->|(_ & -> & _)]; [by apply Hq|by right].
  - intros f Hf. destruct (Hdis f Hf) as [Hno1 Hno2].
    destruct (Hi (place f)) as [->|(_ & _ & _ & Hpre)].
    + intros He. apply Hno2. unfold place in He. apply abs_prefix. by rewrite He.
    + apply Hfree. set_solver.
    + exfalso. apply Hno2. apply abs_prefix in Hpre. rewrite Hn. by apply prefix_app_r.
  - intros q d Hpre Hd. destruct (decide (q = place g)) as [->|He].
    + exists g. rewrite Hp in Hd. injection Hd as <-. set_solver.
    + destruct (Hi q He) as [Hs|(_ & Hs & _)]; rewrite Hs in Hd; [|done].
      destruct (Honly q d Hpre Hd) as (f & ? & ? & ?). exists f. set_solver.
Qed.

(** What the client has reached at the end of a stream. *)
Definition transferred (files : list served_file) (st : recv_state) : Prop :=
  installed files [] (rv_fs st) ∧ finish st = Ok (rv_fs st, abs L).

Lemma recv_stream reads model_path chunk_size commit total rest : forall ds idx first st,
  rest ≠ [] -> prefix_free rest -> Forall (served reads model_path chunk_size) rest ->
  idx + length rest = total -> at_boundary st ->
  (forall f, rv_current_file st = Some f -> ∃ g, g ∈ ds ∧ sf_path f = place g) ->
  installed ds rest (rv_fs st) ->
  ∃ c ms st',
    stream_loop reads model_path chunk_size commit total idx first (map listed rest) = Ok c :: ms ∧
    fc_commit_hash c = (if first then commit else None) ∧
    loop st (Ok c :: ms) = Ok st' ∧ transferred (ds ++ rest) st'.
Proof.
  induction rest as [|g rest IH]; intros ds idx first st Hne Hpf Hsv Hidx Hst Hcur Hin; [done|].
  apply Forall_cons in Hsv as [(Hgne & Hok & Hutf & Hpc & Hmax & Hreads) Hsv].
  destruct (exists_last Hgne) as (front & n & Hn). rewrite Hn in *.
  assert (place g = abs (L ++ front) ++ [Normal n]) as Hpg.
  { unfold place. by rewrite Hn, app_assoc, abs_snoc. }
  assert (rv_fs st !! place g = None) as Hnone by (apply Hin; by left).
  destruct (recv_file reads model_path chunk_size commit first (Nat.eqb idx (total - 1)) front n
              (snd g) st) as (c & ms & st1 & s1 & Hsf & Hc & Hl & Haf & Hp1 & Hi); try done.
  { intros f Hf. destruct (Hcur f Hf) as (g' & Hg' & ->). rewrite <- Hpg. intros He.
    destruct Hin as [Hdone _]. specialize (Hdone g' Hg'). by rewrite He, Hnone in Hdone. }
  { eapply Hin; [by left|done]. } { by rewrite <- Hpg. }
  rewrite <- Hpg in *. destruct Haf as (<- & Hmd1 & Hcur1 & Hfin1 & Hsaw1).
  pose proof (installed_step ds g rest _ _ front n Hpf Hin Hn Hp1 Hi) as Hin1.
  cbn [map]. change (listed g) with (map Normal (fst g), Z.of_nat (length (concat (snd g)))).
  cbn [stream_loop]. rewrite Hn, Hsf.
  assert (installed (ds ++ [g]) rest (rv_fs st1)) as Hin2 by done.
  destruct rest as [|g2 rest].
  - cbn [map stream_loop]. rewrite app_nil_r. exists c, ms, st1. split_and!; try done.
    split; [done|]. unfold finish. rewrite Hsaw1, Hfin1, Hcur1, Hmd1. simpl in Hidx.
    replace (Nat.eqb idx (total - 1)) with true by (symmetry; apply Nat.eqb_eq; lia).
    unfold incomplete. simpl. by rewrite Z.eqb_refl.
  - destruct (IH (ds ++ [g]) (S idx) false st1) as (c2 & ms2 & st2 & Hs2 & _ & Hl2 & Hin3); try done.
    + destruct Hpf as [[_ ?]%NoDup_cons Hpf]. split; [done|]. intros. apply Hpf; set_solver.
    + simpl in *. lia.
    + split_and!; [done| |].
      * rewrite Hfin1. apply Nat.eqb_neq. simpl in Hidx. lia.
      * rewrite Hcur1. unfold incomplete. simpl. by rewrite Z.eqb_refl.
    + intros f. rewrite Hcur1. intros [= <-]. exists g. set_solver.
    + rewrite <- app_assoc in Hin3. exists c, (ms ++ Ok c2 :: ms2), st2. split_and!; try done.
      * by rewrite Hs2.
      * rewrite app_comm_cons, recv_loop_app, Hl. exact Hl2.
Qed.

(** The first chunk may as well find the model directory prepared. *)
Lemma recv_prepared st c s1 md cmd :
  rv_saw_final_chunk st = false -> rv_model_dir st = None ->
  prepare_stream_model_dir cwd listing cache provider model_name (rv_fs st) (fc_commit_hash c)
    = Ok (s1, md, cmd) ->
  recv st c = recv (MkRecvState s1 (Some (md, cmd)) (rv_current_file st) (rv_files_received st)
                      (rv_bytes_received st) (rv_saw_chunk st) false) c.
Proof. intros Hf Hd Hp. unfold recv_chunk. rewrite Hf, Hd, Hp. done. Qed.
End transfer.

(** ** A fresh model directory *)

(** The client side of a transfer: a cache root and a model directory below it,
    without links or files on the way, and nothing below the model directory. *)
Record fresh_target (cwd : path) (listing : path -> option (list (path * Z)))
    (provider : ModelProvider) (model_name : string) (commit : option string)
    (K L : list string) (s0 : fs) : Prop := {
  ft_commit : match commit with
              | Some r => validate_revision r = true
              | None => provider ≠ HuggingFace
              end;
  ft_resolve : forall s, resolve_model_path cwd s listing (abs K) provider model_name commit
                         = Some (abs L);
  ft_below : K `prefix_of` L;
  ft_way : way_free s0 (abs L);
  ft_empty : forall q, abs L `prefix_of` q -> q ≠ abs L -> s0 !! q = None
}.

Section fresh.
Context (cwd : path) (listing : path -> option (list (path * Z))).
Context (provider : ModelProvider) (model_name : string) (commit : option string).
Context (K L : list string) (s0 : fs).
Context (Hft : fresh_target cwd listing provider model_name commit K L s0).

Lemma abs_app_prefix (a b : list string) : a `prefix_of` b -> abs a `prefix_of` abs b.
Proof. intros [r ->]. unfold abs. rewrite map_app. by eexists. Qed.

Lemma adds_dirs_way (way : path) (s s' : fs) (p : path) :
  adds_dirs way s s' -> way_free s p -> way_free s' p.
Proof.
  intros Ha [Hr Hw]. split.
  - destruct (Ha [RootDir]) as [->|[? _]]; [done|congruence].
  - intros q Hq Hpre. destruct (Ha q) as [->|(_ & -> & _)]; [by apply Hw|by right].
Qed.

Lemma way_free_prefix (s : fs) (p q : path) : p `prefix_of` q -> way_free s q -> way_free s p.
Proof. intros Hp [Hr Hw]. split; [done|]. intros r Hr0 Hr1. apply Hw; [done|]. by trans p. Qed.

Lemma prepare_fresh msg :
  ∃ s1 s2, create_dirs cwd s0 (abs K) msg = Ok s1 ∧
    prepare_stream_model_dir cwd listing (abs K) provider model_name s1 commit
      = Ok (s2, abs L, abs L) ∧
    dirs_to s2 (abs L) ∧ adds_dirs (abs L) s0 s2.
Proof.
  destruct Hft as [Hc Hres Hbelow Hway _]. pose proof (abs_app_prefix _ _ Hbelow) as Hpre.
  destruct (create_dir_all_way cwd s0 K) as (s1 & H1 & Hd1 & Ha1); [by eapply way_free_prefix|].
  destruct (create_dir_all_way cwd s1 L) as (s2 & H2 & Hd2 & Ha2); [by eapply adds_dirs_way|].
  assert (dirs_to s2 (abs K)) as Hd2K by (intros q ??; apply Hd2; [done|by trans (abs K)]).
  exists s1, s2. split_and!; [by unfold create_dirs; rewrite H1| |done|].
  - unfold prepare_stream_model_dir, create_dirs, io.
    replace (_ && _) with false.
    2:{ destruct commit; [by rewrite andb_false_r|]. by rewrite bool_decide_eq_false_2. }
    replace (match commit with Some _ => _ | None => _ end) with false by (destruct commit; by rewrite ?Hc).
    rewrite Hres, H2, !canonicalize_dirs by done. unfold path_starts_with.
    by rewrite bool_decide_eq_true_2.
  - intros q. destruct (Ha1 q) as [Hq1|(Hq1 & Hq1' & Hne & Hp1)], (Ha2 q) as [Hq2|(Hq2 & ? & ? & ?)];
      try congruence.
    + left. congruence.
    + right. split_and!; [congruence|done|done|done].
    + right. split_and!; [done|congruence|done|by trans (abs K)].
Qed.

(** Nothing is in the way of files below the prepared directory. *)
Lemma fresh_installed s2 files :
  dirs_to s2 (abs L) -> adds_dirs (abs L) s0 s2 -> (forall f, f ∈ files -> fst f ≠ []) ->
  installed L [] files s2.
Proof.
  intros Hd Ha Hne. destruct Hft as [_ _ _ _ Hempty].
  assert (forall q, abs L `prefix_of` q -> q ≠ abs L -> s2 !! q = None) as Hnone.
  { intros q Hq Hneq. destruct (Ha q) as [->|(_ & _ & _ & Hpre)]; [by apply Hempty|].
    by destruct Hneq; apply (anti_symm prefix). }
  split_and!; [set_solver| | |].
  - intros f front n Hf Hn. split; [apply Hd; [done|by eexists (map Normal L)]|].
    intros q Hq Hpre. destruct (prefix_weak_total q (abs L) (abs (L ++ front))) as [Hq1|Hq1];
      [done|by apply abs_app_prefix; eexists|right; by apply Hd|].
    destruct (decide (q = abs L)) as [->|Hneq]; [right; by apply Hd|left; by apply Hnone].
  - intros f Hf. apply Hnone; [by apply abs_app_prefix; eexists|]. unfold place.
    intros He%(f_equal length). unfold abs in He. simpl in He. rewrite !length_map, length_app in He.
    specialize (Hne f Hf). destruct (fst f); [done|]. simpl in He. lia.
  - intros q d Hpre Hq. destruct (decide (q = abs L)) as [->|Hneq].
    + rewrite Hd in Hq; done.
    + by rewrite Hnone in Hq.
Qed.

(** The whole transfer of a list of files. *)
Lemma transfer_files reads model_path chunk_size files :
  files ≠ [] -> prefix_free files -> Forall (served reads model_path chunk_size) files ->
  ∃ s', stream_model_files_from_server cwd listing (abs K) provider model_name s0
          (Ok (stream_loop reads model_path chunk_size commit (length files) 0 true
                 (map listed files)))
        = Ok (s', abs L) ∧ installed L files [] s'.
Proof.
  intros Hne Hpf Hsv. unfold stream_model_files_from_server.
  destruct (prepare_fresh "Failed to create local cache directory")
    as (s1 & s2 & -> & Hprep & Hd & Ha).
  destruct (recv_stream cwd listing (abs K) provider model_name L reads model_path chunk_size commit
    (length files) files [] 0 true (MkRecvState s2 (Some (abs L, abs L)) None 0 0 false false))
    as (c & ms & st' & Hms & Hc & Hl & Hin & Hfin); try done.
  { apply fresh_installed; [done|done|]. intros f Hf. rewrite Forall_forall in Hsv.
    by destruct (Hsv f Hf). }
  rewrite Hms. exists (rv_fs st'). split; [|done].
  cbn [recv_loop] in Hl |- *. rewrite (recv_prepared _ _ _ _ _ _ _ s2 (abs L) (abs L)); try done.
  - cbn [rv_current_file rv_files_received rv_bytes_received rv_saw_chunk]. by rewrite Hl.
  - cbn [rv_fs]. by rewrite Hc.
Qed.
End fresh.

(** ** From the snapshot of the server to the cache of the client *)

Lemma tree_at_names_ok t names u :
  tree_wf t -> tree_at t names = Some u -> Forall file_name_ok names.
Proof.
  revert t. induction names as [|n names IH]; intros t Hwf Hu; [constructor|]. cbn [tree_at] in Hu.
  destruct t as [|es|]; try done. inversion_clear Hwf as [| |? Hnd Hok Hsub].
  destruct (entry_at n es) as [t'|] eqn:He; [|done]. apply entry_at_elem in He; [|done].
  rewrite Forall_forall in Hok. rewrite Forall_forall in Hsub. constructor.
  - apply Hok. apply list_elem_of_fmap. by exists (n, t').
  - eapply IH; [|done]. by apply (Hsub (n, t')).
Qed.

(** The names of a path of plain names. *)
Definition names_of (p : path) : list string :=
  omap (fun c => match c with Normal s => Some s | _ => None end) p.

Lemma names_of_names names : names_of (map Normal names) = names.
Proof. induction names as [|n names IH]; [done|]. unfold names_of in *. cbn. by f_equal. Qed.

(** What the server reads from the files of a request: pieces that add up to
    their listed size. *)
Definition faithful_reads (t : tree) (model_path : path) (chunk_size : Z)
    (sel : option (list string)) (iw : bool)
    (reads : path -> Z -> option (list (result bytes string))) (content : list string -> list bytes)
    : Prop :=
  forall names len,
    tree_at t names = Some (TFile (Some len)) -> selected sel iw names ->
    reads (path_join model_path (map Normal names)) chunk_size = Some (map Ok (content names)) ∧
    Forall (fun d : bytes => d ≠ []) (content names) ∧
    len = Z.of_nat (length (concat (content names))) ∧ (len <= u64_max)%Z.

(** The names of the files that a request selects are UTF-8. *)
Definition utf8_names (t : tree) (sel : option (list string)) (iw : bool) : Prop :=
  forall names len, tree_at t names = Some (TFile (Some len)) -> selected sel iw names ->
    Forall (fun n => is_utf8 n = true) names.

Section exact.
Context (t : tree) (model_path : path) (chunk_size : Z) (sel : option (list string)) (iw : bool).
Context (reads : path -> Z -> option (list (result bytes string))) (content : list string -> list bytes).
Context (Hwf : tree_wf t) (Hutf : utf8_names t sel iw).
Context (Hreads : faithful_reads t model_path chunk_size sel iw reads content).

Definition collected_files : list (list string * list bytes) :=
  map (fun e => (names_of (fst e), content (names_of (fst e))))
    (collect_model_files model_path sel iw t model_path).

Lemma collected_elem f :
  f ∈ collected_files ↔ fst f ≠ [] ∧ snd f = content (fst f) ∧
    ∃ len, tree_at t (fst f) = Some (TFile (Some len)) ∧ selected sel iw (fst f).
Proof.
  destruct (collect_model_files_exact model_path sel iw t Hwf) as [Hex _].
  unfold collected_files. rewrite list_elem_of_fmap. split.
  - intros ([rel len] & -> & (names & Hne & -> & Hat & Hs)%Hex). simpl. rewrite names_of_names. eauto.
  - destruct f as [names pieces]. simpl. intros (Hne & -> & len & Hat & Hs).
    exists (map Normal names, len). simpl. rewrite names_of_names. split; [done|]. apply Hex. eauto.
Qed.

Lemma collected_listed : map listed collected_files = collect_model_files model_path sel iw t model_path.
Proof.
  destruct (collect_model_files_exact model_path sel iw t Hwf) as [Hex _].
  unfold collected_files. rewrite map_map. rewrite <- (map_id (collect_model_files _ _ _ _ _)) at 2.
  apply map_ext_in. intros [rel len] (names & Hne & -> & Hat & Hs)%list_elem_of_In%Hex.
  unfold listed, file_size. simpl. rewrite names_of_names.
  by destruct (Hreads names len Hat Hs) as (_ & _ & -> & _).
Qed.

Lemma collected_prefix_free : prefix_free collected_files.
Proof.
  destruct (collect_model_files_exact model_path sel iw t Hwf) as [Hex Hnd]. split.
  - rewrite <- collected_listed in Hnd. rewrite map_map in Hnd.
    revert Hnd. generalize collected_files. intros l.
    induction l as [|f l IH]; simpl; [constructor|]. intros [Hf Hnd]%NoDup_cons. apply NoDup_cons.
    split; [|by apply IH]. intros (g & He & Hg)%list_elem_of_fmap. apply Hf. rewrite He.
    apply list_elem_of_fmap. by exists g.
  - intros f g (_ & _ & len & Hf & _)%collected_elem (_ & _ & len' & Hg & _)%collected_elem.
    by eapply tree_files_prefix_free.
Qed.

Lemma collected_served : Forall (served reads model_path chunk_size) collected_files.
Proof.
  apply Forall_forall. intros f (Hne & Hc & len & Hat & Hs)%collected_elem.
  destruct (Hreads _ _ Hat Hs) as (Hr & Hp & Hlen & Hmax). unfold served, file_size. rewrite Hc.
  split_and!; try done; [by eapply tree_at_names_ok| |lia].
  apply is_utf8_join; [done|]. by eapply Hutf.
Qed.
End exact.

(** C19: a transfer is exact: when the server has found the snapshot of a request
    and streams it, and the client's model directory is new, the call of the
    client succeeds, however the reads divide the files into chunks, and the
    files below its model directory are exactly the files of the snapshot that
    the request selects, at the same relative paths and with the same bytes.  The
    names of the selected files are UTF-8: the server sends a name through
    [to_string_lossy], so another name arrives changed ([lossy_names_collide]). *)
Theorem file_transfer_exact scwd sfs slisting server_cache_dir gmpr snapshot reads
    tenant_isolation caller req mname model_path commit ms content
    cwd listing provider model_name K L s0 :
  let t := snapshot model_path in
  let sel := mf_file_selector req in
  let iw := mf_ignore_weights req in
  locate scwd sfs slisting server_cache_dir gmpr tenant_isolation caller req
    = Ok (mname, model_path, commit) ->
  stream_model_files scwd sfs slisting server_cache_dir gmpr snapshot reads
    tenant_isolation caller req = Ok ms ->
  tree_wf t -> utf8_names t sel iw ->
  faithful_reads t model_path
    (if (mf_chunk_size req =? 0)%Z then DEFAULT_TRANSFER_CHUNK_SIZE else mf_chunk_size req)
    sel iw reads content ->
  fresh_target cwd listing provider model_name commit K L s0 ->
  ∃ s', stream_model_files_from_server cwd listing (abs K) provider model_name s0 (Ok ms)
        = Ok (s', abs L) ∧
    forall names d, names ≠ [] ->
      s' !! abs (L ++ names) = Some (FileNode d) ↔
      (∃ len, tree_at t names = Some (TFile (Some len))) ∧ selected sel iw names ∧
      d = concat (content names).
Proof.
  intros t sel iw Hloc Hms Hwf Hutf Hreads Hft. unfold stream_model_files in Hms. rewrite Hloc in Hms.
  unfold files_of in Hms. fold t sel iw in Hms. set (cs := if (_ =? _)%Z then _ else _) in *.
  destruct (ensure_selected_files_exist _ _); [|done].
  rewrite <- (collected_listed t model_path cs sel iw reads content Hwf Hreads) in Hms.
  destruct (collected_files t model_path sel iw content) as [|f0 fs0] eqn:Hcf; [done|].
  rewrite <- Hcf in *. assert (collected_files t model_path sel iw content ≠ []) as Hne by by rewrite Hcf.
  rewrite length_map in Hms. assert (ms = stream_loop reads model_path cs commit
    (length (collected_files t model_path sel iw content)) 0 true
    (map listed (collected_files t model_path sel iw content))) as ->.
  { rewrite Hcf in Hms |- *. simpl in Hms |- *. congruence. }
  destruct (transfer_files _ _ _ _ _ K L s0 Hft reads model_path cs
    (collected_files t model_path sel iw content)) as (s' & Hrun & Hdone & _ & _ & Honly);
    [done|by eapply collected_prefix_free|by apply collected_served|].
  exists s'. split; [done|]. intros names d Hnn. split.
  - intros Hd. destruct (Honly _ _ ltac:(by apply abs_app_prefix; eexists) Hd) as (f & Hf & Hp & ->).
    apply (collected_elem _ _ _ _ _ Hwf) in Hf as (_ & Hc & len & Hat & Hs).
    assert (names = fst f) as ->; [|by rewrite Hc; eauto].
    apply (anti_symm prefix); apply (abs_prefix L); unfold place in Hp; by rewrite Hp.
  - intros ((len & Hat) & Hs & ->).
    apply (Hdone (names, content names)), (collected_elem _ _ _ _ _ Hwf). simpl. eauto.
Qed.

(** ** Witness: three files, one of them empty, one in a directory *)

Definition sample_content (names : list string) : list bytes :=
  if decide (names = ["config.json"]) then [["{"; "}"]]%byte
  else if decide (names = ["onnx"; "w.bin"]) then [["a"; "b"]; ["c"]]%byte
  else [].

Definition sample_model_path : path := components "/srv/models--org--m/snapshots/abc".

Definition sample_reads (p : path) (chunk_size : Z) : option (list (result bytes string)) :=
  match path_strip_prefix sample_model_path p with
  | Some r => Some (map Ok (sample_content (names_of r)))
  | None => None
  end.

Definition sample_request : ModelFilesRequest :=
  MkModelFilesRequest "org/m" 0 2 None false (Some "abc").

Definition sample_reply : result (list (result FileChunk status)) status :=
  stream_model_files [RootDir] ∅ no_listing (Some (components "/srv"))
    (fun _ _ _ _ => Ok sample_model_path) (fun _ => sample_tree) sample_reads false None sample_request.

Definition sample_messages : list (result FileChunk status) :=
  match sample_reply with Ok ms => ms | Err _ => [] end.

Definition sample_dir : list string := ["c"; "models--org--m"; "snapshots"; "abc"].

Definition sample_store : fs := {[ [RootDir] := DirNode ]}.

Lemma sample_faithful : forall chunk_size,
  faithful_reads sample_tree sample_model_path chunk_size None false sample_reads sample_content.
Proof.
  intros chunk_size names len Hat _. split.
  { unfold sample_reads. rewrite path_join_names, path_strip_prefix_app, names_of_names. done. }
  destruct names as [|n names]; [done|]. cbn [tree_at sample_tree entry_at] in Hat.
  repeat case_decide; subst; try done.
  - destruct names; [|done]. injection Hat as <-. split_and!; try done. by repeat constructor.
  - destruct names as [|n names]; [done|]. cbn [tree_at entry_at] in Hat.
    case_decide; [|done]. subst. destruct names; [|done]. injection Hat as <-.
    split_and!; try done. by repeat constructor.
  - destruct names; [|done]. injection Hat as <-. split_and!; try done.
Qed.

Lemma sample_utf8 : utf8_names sample_tree None false.
Proof.
  intros names len Hat _. destruct names as [|n names]; [done|].
  cbn [tree_at sample_tree entry_at] in Hat. repeat case_decide; subst; try done.
  - destruct names; [|done]. by repeat constructor.
  - destruct names as [|n names]; [done|]. cbn [tree_at entry_at] in Hat.
    case_decide; [|done]. subst. destruct names; [|done]. by repeat constructor.
  - destruct names; [|done]. by repeat constructor.
Qed.

Lemma sample_fresh :
  fresh_target [RootDir] no_listing HuggingFace "org/m" (Some "abc") ["c"] sample_dir sample_store.
Proof.
  assert (forall q : path, q ≠ [RootDir] -> sample_store !! q = None) as Hs.
  { intros q Hq. unfold sample_store. by apply lookup_singleton_ne. }
  split.
  - reflexivity.
  - reflexivity.
  - by eexists.
  - split; [apply lookup_singleton_eq|]. intros q _ _.
    destruct (decide (q = [RootDir])) as [->|Hq]; [right; apply lookup_singleton_eq|left; by apply Hs].
  - intros q [r ->] _. by apply Hs.
Qed.

Lemma file_transfer_exact_witness :
  ∃ s', stream_model_files_from_server [RootDir] no_listing (abs ["c"]) HuggingFace "org/m"
          sample_store (Ok sample_messages) = Ok (s', abs sample_dir) ∧
    s' !! abs (sample_dir ++ ["onnx"; "w.bin"]) = Some (FileNode ["a"; "b"; "c"]%byte).
Proof.
  destruct (file_transfer_exact [RootDir] ∅ no_listing (Some (components "/srv"))
    (fun _ _ _ _ => Ok sample_model_path) (fun _ => sample_tree) sample_reads false None
    sample_request "org/m" sample_model_path (Some "abc") sample_messages sample_content
    [RootDir] no_listing HuggingFace "org/m" ["c"] sample_dir sample_store)
    as (s' & Hrun & Hfiles).
  - vm_compute. reflexivity.
  - vm_compute. reflexivity.
  - apply sample_tree_wf.
  - apply sample_utf8.
  - apply sample_faithful.
  - apply sample_fresh.
  - exists s'. split; [exact Hrun|]. apply Hfiles; [discriminate|]. split; [|split].
    + exists 3%Z. reflexivity.
    + split; [discriminate|exact I].
    + reflexivity.
Defined.

Definition sample_run : result (fs * path) (fs * recv_error) :=
  stream_model_files_from_server [RootDir] no_listing (abs ["c"]) HuggingFace "org/m"
    sample_store (Ok sample_messages).

Lemma sample_run_ok : ∃ s', sample_run = Ok (s', abs sample_dir).
Proof.
  assert (match sample_run with Ok (_, p) => bool_decide (p = abs sample_dir) | Err _ => false end
          = true) as H by (vm_compute; reflexivity).
  destruct sample_run as [[s' p]|]; [|done]. apply bool_decide_eq_true in H as ->. by eexists.
Qed.

Lemma receiver_sound_witness :
  ∃ gs, sample_messages = map Ok (concat (map g_chunks gs)) ∧ gs ≠ [].
Proof.
  destruct sample_run_ok as [s' Hrun].
  destruct (receiver_sound [RootDir] no_listing (abs ["c"]) HuggingFace "org/m" sample_store
    sample_messages s' (abs sample_dir)) as (gs & Hms & _ & Hne & _).
  - exact Hrun.
  - vm_compute. discriminate.
  - exists gs. split; [exact Hms|exact Hne].
Defined.
