(* ===== verification/ServerConfig.v ===== *)
(** * The server's configuration (modelexpress_server/src/config.rs, common tls.rs)

    The allowlist of service accounts and its text form, the security and TLS
    sections, the arguments that clap reads from the environment, their application
    over a loaded file, and the validation of the result (Module Conf).  What the [config]
    crate makes of a file is an argument.  The getters of common envs.rs that the server
    uses, on an environment given as a function, and the choice of the metadata backend
    in backend_config.rs (Module Env); Unicode lowercasing is a parameter. *)

From Stdlib Require Import ZArith Lia Ascii String.
From stdpp Require Import base tactics option list gmap fin_maps strings.
From S2P Require Import Prelude RustStr RustPath EntryKey RegistryMemory RedisStore Eviction.
From S2P Require Import SourceIdentityHash Fs.

Module Conf.

Inductive AuthMode : Type := Off | Enforce.

#[export] Instance AuthMode_eq_dec : EqDecision AuthMode.
Proof. solve_decision. Defined.

(** ** The allowlist *)

Definition is_dns1123_subdomain (s : string) : bool :=
  (String.length s <=? 253)%nat && forallb matches_dns1123_label (split "." s).

Inductive ServiceAccountMatch : Type :=
| Any
| Named (name : string).

Definition match_admits (m : ServiceAccountMatch) (service_account : string) : bool :=
  match m with Any => true | Named name => String.eqb name service_account end.

Definition match_display (m : ServiceAccountMatch) : string :=
  match m with Any => "*" | Named name => name end.

Definition match_try_from (value : string) : result ServiceAccountMatch string :=
  if String.eqb value "*" then Ok Any
  else if is_dns1123_subdomain value then Ok (Named value)
  else Err ("service account '" +:+ value +:+ "' must be '*' or a DNS-1123 subdomain").

Record ServiceAccountRef : Type := MkServiceAccountRef {
  sr_namespace : string;
  sr_service_account : ServiceAccountMatch
}.

Definition ServiceAccountRef_new (namespace service_account : string)
    : result ServiceAccountRef string :=
  if negb (is_dns1123_label namespace)
  then Err ("namespace '" +:+ namespace +:+ "' must be a DNS-1123 label")
  else let? m := match_try_from service_account in Ok (MkServiceAccountRef namespace m).

Definition admits (r : ServiceAccountRef) (namespace service_account : string) : bool :=
  String.eqb (sr_namespace r) namespace && match_admits (sr_service_account r) service_account.

Definition ref_display (r : ServiceAccountRef) : string :=
  sr_namespace r +:+ ":" +:+ match_display (sr_service_account r).

Definition ref_from_str (s : string) : result ServiceAccountRef string :=
  match split_once ":" s with
  | None => Err ("expected '<namespace>:<serviceaccount>', got '" +:+ s +:+ "'")
  | Some (namespace, service_account) =>
      match ServiceAccountRef_new (trim namespace) (trim service_account) with
      | Ok r => Ok r
      | Err error => Err ("invalid allowlist entry '" +:+ s +:+ "': " +:+ error)
      end
  end.

(** [CommaList::from_str] for an item type with the parser [from_str]. *)
Definition comma_list {A} (from_str : string -> result A string) (s : string)
    : result (list A) string :=
  try_map from_str (List.filter (fun part => negb (str_is_empty part)) (map trim (split "," s))).

(** ** Sections *)

Record SecurityConfig : Type := MkSecurityConfig {
  sec_mode : option AuthMode;
  sec_token_audiences : list string;
  sec_allowed_service_accounts : list ServiceAccountRef;
  sec_cache_ttl_secs : Z;
  sec_tenant_isolation : option AuthMode
}.

Definition SecurityConfig_default : SecurityConfig := MkSecurityConfig None [] [] 60 None.

Definition resolve_mode (c : SecurityConfig) : AuthMode := default Off (sec_mode c).

Definition resolve_tenant_isolation (c : SecurityConfig) : AuthMode :=
  default Off (sec_tenant_isolation c).

Inductive security_error : Type := NoAudience | NoAllowlist | IsolationWithoutAuth.

Definition validate_resolved (c : SecurityConfig) (mode : AuthMode) : result unit security_error :=
  let isolation :=
    if bool_decide (resolve_tenant_isolation c = Enforce) && negb (bool_decide (mode = Enforce))
    then Err IsolationWithoutAuth else Ok () in
  if bool_decide (mode = Enforce) then
    if bool_decide (sec_token_audiences c = []) then Err NoAudience
    else match sec_allowed_service_accounts c with [] => Err NoAllowlist | _ => isolation end
  else isolation.

Inductive TlsVersion : Type := Tls10 | Tls11 | Tls12 | Tls13.

#[export] Instance TlsVersion_eq_dec : EqDecision TlsVersion.
Proof. solve_decision. Defined.

Definition TlsVersion_as_str (v : TlsVersion) : string :=
  match v with Tls10 => "TLS1.0" | Tls11 => "TLS1.1" | Tls12 => "TLS1.2" | Tls13 => "TLS1.3" end.

Definition TlsVersion_from_str (s : string) : result TlsVersion string :=
  let normalized := str_map to_ascii_lowercase (trim s) in
  let rest :=
    match strip_prefix "versiontls" normalized with
    | Some r => r
    | None => match strip_prefix "tlsv" normalized with
              | Some r => r
              | None => default normalized (strip_prefix "tls" normalized)
              end
    end in
  let digits := replace_char "_" "" (replace_char "." "" rest) in
  if String.eqb digits "10" then Ok Tls10
  else if String.eqb digits "11" then Ok Tls11
  else if String.eqb digits "12" then Ok Tls12
  else if String.eqb digits "13" then Ok Tls13
  else Err ("unknown TLS version '" +:+ s +:+ "' (expected TLS1.0, TLS1.1, TLS1.2 or TLS1.3)").

Record TlsConfig : Type := MkTlsConfig {
  tls_cert_file : option path;
  tls_key_file : option path;
  tls_min_version : option TlsVersion;
  tls_cipher_suites : list string;
  tls_groups : list string
}.

Definition TlsConfig_default : TlsConfig := MkTlsConfig None None None [] [].

Inductive TlsConfigError : Type :=
| CertWithoutKey
| KeyWithoutCert
| SettingsWithoutCertificate
| MissingFile (field : string) (p : path).

Definition is_enabled (c : TlsConfig) : bool :=
  bool_decide (is_Some (tls_cert_file c)) || bool_decide (is_Some (tls_key_file c)).

Definition key_pair (c : TlsConfig) : result (option (path * path)) TlsConfigError :=
  match tls_cert_file c, tls_key_file c with
  | Some cert, Some key => Ok (Some (cert, key))
  | None, None => Ok None
  | Some _, None => Err CertWithoutKey
  | None, Some _ => Err KeyWithoutCert
  end.

(** [Path::is_file]. *)
Definition is_file (cwd : path) (s : fs) (p : path) : bool :=
  match canonicalize cwd s p with
  | Ok q => match s !! q with Some (FileNode _) => true | _ => false end
  | Err _ => false
  end.

Definition validate_tls (cwd : path) (s : fs) (c : TlsConfig) : result unit TlsConfigError :=
  let? files := key_pair c in
  match files with
  | None =>
      if bool_decide (is_Some (tls_min_version c)) || negb (bool_decide (tls_cipher_suites c = []))
         || negb (bool_decide (tls_groups c = []))
      then Err SettingsWithoutCertificate else Ok ()
  | Some (cert, key) =>
      if negb (is_file cwd s cert) then Err (MissingFile "tls.cert_file" cert)
      else if negb (is_file cwd s key) then Err (MissingFile "tls.key_file" key)
      else Ok ()
  end.

Inductive LogLevel : Type := Trace | Debug | Info | Warn | Error.
Inductive LogFormat : Type := Json | Pretty | Compact.

Record ServerSettings : Type := MkServerSettings {
  ss_host : string;
  ss_port : Z;
  ss_metrics_port : Z
}.

Record CacheEvictionConfig : Type := MkCacheEvictionConfig {
  ce_enabled : bool;
  ce_policy : LruConfig;
  ce_check_interval : Z
}.

Record CacheConfig : Type := MkCacheConfig {
  cc_eviction : CacheEvictionConfig;
  cc_directory : path;
  cc_max_size_bytes : option Z
}.

Record LoggingConfig : Type := MkLoggingConfig {
  lc_level : LogLevel;
  lc_format : LogFormat;
  lc_file : option path;
  lc_structured : bool
}.

Record ServerConfig : Type := MkServerConfig {
  sc_server : ServerSettings;
  sc_cache : CacheConfig;
  sc_logging : LoggingConfig;
  sc_security : SecurityConfig;
  sc_tls : TlsConfig
}.

Definition ServerConfig_default : ServerConfig :=
  let nanos_per_second := 1000000000%Z in
  MkServerConfig (MkServerSettings "0.0.0.0" 8001 9401)
    (MkCacheConfig
       (MkCacheEvictionConfig true (MkLruConfig (7 * 86400 * nanos_per_second) None None)
          (3600 * nanos_per_second))
       [CurDir; Normal "cache"] None)
    (MkLoggingConfig Info Pretty None false) SecurityConfig_default TlsConfig_default.

(** ** Arguments *)

Record SecurityArgs : Type := MkSecurityArgs {
  sa_mode : option AuthMode;
  sa_token_audiences : option (list string);
  sa_allowed_service_accounts : option (list ServiceAccountRef);
  sa_cache_ttl_secs : option Z;
  sa_tenant_isolation : option AuthMode
}.

Record TlsArgs : Type := MkTlsArgs {
  ta_cert_file : option path;
  ta_key_file : option path;
  ta_min_version : option TlsVersion;
  ta_cipher_suites : option (list string);
  ta_groups : option (list string)
}.

Record ServerArgs : Type := MkServerArgs {
  ar_config : option path;
  ar_port : option Z;
  ar_host : option string;
  ar_metrics_port : option Z;
  ar_log_level : option LogLevel;
  ar_log_format : option LogFormat;
  ar_cache_directory : option path;
  ar_cache_eviction_enabled : option bool;
  ar_security : SecurityArgs;
  ar_tls : TlsArgs
}.

(** ** clap's value parsers *)

Definition choose {A} (table : list (string * A)) (s : string) : result A string :=
  match List.find (fun '(name, _) => String.eqb name s) table with
  | Some (_, a) => Ok a
  | None => Err ("invalid value '" +:+ s +:+ "'")
  end.

Definition parse_auth_mode : string -> result AuthMode string :=
  choose [("off", Off); ("enforce", Enforce)].
Definition parse_log_level : string -> result LogLevel string :=
  choose [("trace", Trace); ("debug", Debug); ("info", Info); ("warn", Warn); ("error", Error)].
Definition parse_log_format : string -> result LogFormat string :=
  choose [("json", Json); ("pretty", Pretty); ("compact", Compact)].
Definition parse_bool : string -> result bool string := choose [("true", true); ("false", false)].

Definition parse_number (max : Z) (s : string) : result Z string :=
  match parse_unsigned max s with Some z => Ok z | None => Err ("invalid value '" +:+ s +:+ "'") end.

Definition parse_non_zero_u16 (s : string) : result Z string :=
  let? z := parse_number 65535 s in
  if (z =? 0)%Z then Err ("invalid value '" +:+ s +:+ "'") else Ok z.

Definition parse_path (s : string) : result path string :=
  if str_is_empty s then Err "a value is required" else Ok (components s).

(** An argument that is read from a variable. *)
Definition env_arg {A} (env : string -> option string) (name : string)
    (value_parser : string -> result A string) : result (option A) string :=
  match env name with
  | None => Ok None
  | Some s => let? a := value_parser s in Ok (Some a)
  end.

(** [ServerArgs::parse] of a command line without flags. *)
Definition security_args (env : string -> option string) : result SecurityArgs string :=
  let? mode := env_arg env "MODEL_EXPRESS_SECURITY_MODE" parse_auth_mode in
  let? audiences := env_arg env "MODEL_EXPRESS_SECURITY_TOKEN_AUDIENCES" (comma_list Ok) in
  let? allowed := env_arg env "MODEL_EXPRESS_SECURITY_ALLOWED_SERVICE_ACCOUNTS"
                    (comma_list ref_from_str) in
  let? ttl := env_arg env "MODEL_EXPRESS_SECURITY_CACHE_TTL_SECS" (parse_number u64_max) in
  let? isolation := env_arg env "MODEL_EXPRESS_SECURITY_TENANT_ISOLATION" parse_auth_mode in
  Ok (MkSecurityArgs mode audiences allowed ttl isolation).

Definition tls_args (env : string -> option string) : result TlsArgs string :=
  let? cert := env_arg env "MODEL_EXPRESS_TLS_CERT_FILE" parse_path in
  let? key := env_arg env "MODEL_EXPRESS_TLS_KEY_FILE" parse_path in
  let? min_version := env_arg env "MODEL_EXPRESS_TLS_MIN_VERSION" TlsVersion_from_str in
  let? ciphers := env_arg env "MODEL_EXPRESS_TLS_CIPHER_SUITES" (comma_list Ok) in
  let? groups := env_arg env "MODEL_EXPRESS_TLS_GROUPS" (comma_list Ok) in
  Ok (MkTlsArgs cert key min_version ciphers groups).

Definition args_from_env (env : string -> option string) : result ServerArgs string :=
  let? port := env_arg env "MODEL_EXPRESS_SERVER_PORT" parse_non_zero_u16 in
  let? host := env_arg env "MODEL_EXPRESS_SERVER_HOST" Ok in
  let? metrics := env_arg env "MODEL_EXPRESS_SERVER_METRICS_PORT" (parse_number 65535) in
  let? level := env_arg env "MODEL_EXPRESS_LOG_LEVEL" parse_log_level in
  let? format := env_arg env "MODEL_EXPRESS_LOG_FORMAT" parse_log_format in
  let? directory := env_arg env "MODEL_EXPRESS_CACHE_DIRECTORY" parse_path in
  let? eviction := env_arg env "MODEL_EXPRESS_CACHE_EVICTION_ENABLED" parse_bool in
  let? security := security_args env in
  let? tls := tls_args env in
  Ok (MkServerArgs None port host metrics level format directory eviction security tls).

(** ** Loading *)

Inductive ServerConfigError : Type :=
| BadFile (e : string)
| BadTls (e : TlsConfigError)
| MissingCacheParent (p : path)
| BadAddress (field value : string)
| BadSecurity (e : security_error).

Definition or_else {A} (a : option A) (b : A) : A := default b a.

Definition apply_security (a : SecurityArgs) (c : SecurityConfig) : SecurityConfig :=
  MkSecurityConfig
    (match sa_mode a with Some m => Some m | None => sec_mode c end)
    (or_else (sa_token_audiences a) (sec_token_audiences c))
    (or_else (sa_allowed_service_accounts a) (sec_allowed_service_accounts c))
    (or_else (sa_cache_ttl_secs a) (sec_cache_ttl_secs c))
    (match sa_tenant_isolation a with Some m => Some m | None => sec_tenant_isolation c end).

Definition apply_tls (a : TlsArgs) (c : TlsConfig) : TlsConfig :=
  MkTlsConfig
    (match ta_cert_file a with Some f => Some f | None => tls_cert_file c end)
    (match ta_key_file a with Some f => Some f | None => tls_key_file c end)
    (match ta_min_version a with Some v => Some v | None => tls_min_version c end)
    (or_else (ta_cipher_suites a) (tls_cipher_suites c))
    (or_else (ta_groups a) (tls_groups c)).

Definition apply_args (a : ServerArgs) (c : ServerConfig) : ServerConfig :=
  MkServerConfig
    (MkServerSettings (or_else (ar_host a) (ss_host (sc_server c)))
       (or_else (ar_port a) (ss_port (sc_server c)))
       (or_else (ar_metrics_port a) (ss_metrics_port (sc_server c))))
    (MkCacheConfig
       (MkCacheEvictionConfig
          (or_else (ar_cache_eviction_enabled a) (ce_enabled (cc_eviction (sc_cache c))))
          (ce_policy (cc_eviction (sc_cache c))) (ce_check_interval (cc_eviction (sc_cache c))))
       (or_else (ar_cache_directory a) (cc_directory (sc_cache c))) (cc_max_size_bytes (sc_cache c)))
    (MkLoggingConfig (or_else (ar_log_level a) (lc_level (sc_logging c)))
       (or_else (ar_log_format a) (lc_format (sc_logging c))) (lc_file (sc_logging c))
       (lc_structured (sc_logging c)))
    (apply_security (ar_security a) (sc_security c))
    (apply_tls (ar_tls a) (sc_tls c)).

(** [Path::parent]. *)
Definition parent (p : path) : option path :=
  match last p with
  | None | Some RootDir => None
  | Some _ => Some (removelast p)
  end.

Section load.
Context (cwd : path) (s : fs).

Definition validate (c : ServerConfig) : result unit ServerConfigError :=
  let? _ := match parent (cc_directory (sc_cache c)) with
            | Some p => if path_exists cwd s p then Ok () else Err (MissingCacheParent p)
            | None => Ok ()
            end in
  let mode := resolve_mode (sc_security c) in
  let? _ := match validate_resolved (sc_security c) mode with
            | Ok _ => Ok ()
            | Err e => Err (BadSecurity e)
            end in
  match validate_tls cwd s (sc_tls c) with Ok _ => Ok () | Err e => Err (BadTls e) end.

(** What the [config] crate makes of an explicit file and of the layered sources. *)
Context (validate_config_file : path -> result ServerConfig string).
Context (load_layered_config : ServerConfig -> result ServerConfig string).
Definition load_internal (strict_mode : bool) (args : ServerArgs)
    : result ServerConfig ServerConfigError :=
  let? config := match match ar_config args with
                       | Some file => validate_config_file file
                       | None => if strict_mode then Ok ServerConfig_default
                                 else load_layered_config ServerConfig_default
                       end with
                 | Ok c => Ok c
                 | Err e => Err (BadFile e)
                 end in
  let config := apply_args args config in
  let? _ := validate config in
  Ok config.

Definition load (args : ServerArgs) : result ServerConfig ServerConfigError :=
  load_internal false args.

(** The parser of socket addresses. *)
Context {Addr : Type} (parse_addr : string -> option Addr).

Definition socket_addr (c : ServerConfig) : result Addr ServerConfigError :=
  let addr := ss_host (sc_server c) +:+ ":" +:+ decimal (ss_port (sc_server c)) in
  match parse_addr addr with Some a => Ok a | None => Err (BadAddress "server address" addr) end.

Definition metrics_socket_addr (c : ServerConfig) : result (option Addr) ServerConfigError :=
  if (ss_metrics_port (sc_server c) =? 0)%Z then Ok None
  else
    let addr := ss_host (sc_server c) +:+ ":" +:+ decimal (ss_metrics_port (sc_server c)) in
    match parse_addr addr with
    | Some a => Ok (Some a)
    | None => Err (BadAddress "metrics address" addr)
    end.
End load.

End Conf.

(** ** Environment variables and the metadata backend *)

Module Env.

Section getters.
Context (env : string -> option string).

(** [env::var(a).or_else(|_| env::var(b))]. *)
Definition first_of (a b : string) : option string :=
  match env a with Some v => Some v | None => env b end.

Definition home_dir : option string := first_of "HOME" "USERPROFILE".

Definition home_dir_or_cwd : path := components (default "." home_dir).

Definition cache_directory : option path := components <$> env "MODEL_EXPRESS_CACHE_DIRECTORY".

Definition server_endpoint_or_default : string :=
  default "http://localhost:8001" (env "MODEL_EXPRESS_SERVER_ENDPOINT").

(** The first value that is not blank. *)
Definition ngc_api_key : option string :=
  find_map (fun var => v ← env var; if str_is_empty (trim v) then None else Some (trim v))
    ["NGC_API_KEY"; "NGC_CLI_API_KEY"].

Definition metadata_backend : string := default "" (env "MX_METADATA_BACKEND").
Definition redis_url : option string := first_of "MX_REDIS_URL" "REDIS_URL".
Definition redis_host : option string := first_of "MX_REDIS_HOST" "REDIS_HOST".
Definition redis_port : option string := first_of "MX_REDIS_PORT" "REDIS_PORT".
Definition metadata_namespace : option string := first_of "MX_METADATA_NAMESPACE" "POD_NAMESPACE".

Definition env_u64 (name : string) (dflt : Z) : Z :=
  default dflt (env name ≫= parse_unsigned u64_max).

Definition reaper_scan_interval_secs : Z := env_u64 "MX_REAPER_SCAN_INTERVAL_SECS" 30.
Definition registry_stats_interval_secs : Z :=
  Z.max (env_u64 "MX_REGISTRY_STATS_INTERVAL_SECS" 60) 1.
Definition heartbeat_timeout_secs : Z := env_u64 "MX_HEARTBEAT_TIMEOUT_SECS" 90.
Definition gc_timeout_secs : Z := env_u64 "MX_GC_TIMEOUT_SECS" 3600.

(** ** backend_config.rs *)

Inductive BackendConfig : Type :=
| Redis (url : string)
| Kubernetes (namespace : string)
| Memory.

(** The errors, without their hints. *)
Inductive backend_error : Type :=
| InvalidBackend (value : string)
| NoRedisHost
| NoRedisPort
| NoNamespace.

Definition redis_url_from_env : result string backend_error :=
  match redis_url with
  | Some url => Ok url
  | None =>
      match redis_host with
      | None => Err NoRedisHost
      | Some host =>
          match redis_port with
          | None => Err NoRedisPort
          | Some port => Ok ("redis://" +:+ host +:+ ":" +:+ port)
          end
      end
  end.

Definition k8s_namespace_from_env : result string backend_error :=
  match metadata_namespace with Some ns => Ok ns | None => Err NoNamespace end.

(** [memory_backend]: the cargo feature. *)
Context `{ToLowercase} (memory_backend : bool).

Definition from_env : result BackendConfig backend_error :=
  let lower := to_lowercase metadata_backend in
  if String.eqb lower "redis" then let? url := redis_url_from_env in Ok (Redis url)
  else if existsb (String.eqb lower) ["kubernetes"; "k8s"; "crd"]
  then let? ns := k8s_namespace_from_env in Ok (Kubernetes ns)
  else if memory_backend && String.eqb lower "memory" then Ok Memory
  else Err (InvalidBackend lower).

(** [from_type_str]: the connection strings come from the caller. *)
Definition from_type_str (backend_type redis_url k8s_namespace : string)
    : result BackendConfig backend_error :=
  let lower := to_lowercase backend_type in
  if String.eqb lower "redis" then Ok (Redis redis_url)
  else if existsb (String.eqb lower) ["kubernetes"; "k8s"; "crd"] then Ok (Kubernetes k8s_namespace)
  else if memory_backend && String.eqb lower "memory" then Ok Memory
  else Err (InvalidBackend lower).
End getters.
End Env.
