(* ===== verification/ServerConfigFacts.v ===== *)
(** * Facts about the server's configuration

    Texts without white space are not trimmed, lists survive their comma-separated form,
    an allowlist entry that parses is well formed, and a configuration that loads
    isolates tenants only when it authenticates callers. *)

From Stdlib Require Import ZArith Lia Ascii String.
From stdpp Require Import base tactics option list gmap fin_maps strings.
From S2P Require Import Prelude RustStr RustPath EntryKey Fs RedisStore RegistryMemory Eviction.
From S2P Require Import ServerConfig.
Import Conf.

(** ** Texts and lists *)

(** A visible ASCII character. *)
Definition graphic (c : ascii) : bool := byte_in 33 126 c.

Lemma whitespace_not_graphic w : w ∈ whitespace_seqs -> str_all graphic w = false.
Proof.
  revert w. apply Forall_forall. unfold whitespace_seqs. cbn [fmap list_fmap].
  repeat (constructor; [vm_compute; reflexivity|]). constructor.
Qed.

Lemma trim_graphic s : str_all graphic s = true -> trim s = s.
Proof.
  intros Hs. unfold trim. rewrite trim_start_id; [apply trim_end_id|].
  all: intros w Hw; apply not_true_iff_false; intros Hp;
    pose proof (whitespace_not_graphic w Hw) as Hn.
  - apply ends_with_true in Hp as [r ->]. rewrite str_all_app, Hn, andb_false_r in Hs. done.
  - apply starts_with_true in Hp as [r ->]. rewrite str_all_app, Hn in Hs. done.
Qed.

(** A text that is one item of a comma-separated list. *)
Definition plain_item (s : string) : Prop :=
  s ≠ "" ∧ contains_char "," s = false ∧ trim s = s.

Lemma graphic_item s :
  s ≠ "" -> contains_char "," s = false -> str_all graphic s = true -> plain_item s.
Proof. repeat split; [done..|]. by apply trim_graphic. Qed.

Lemma comma_list_join {A} (f : string -> result A string) l :
  Forall plain_item l -> comma_list f (join "," l) = try_map f l.
Proof.
  intros Hl. unfold comma_list. destruct l as [|x l]; [done|].
  rewrite (split_join ","); [|done|eapply Forall_impl; [exact Hl|by intros ? (? & ? & ?)]].
  f_equal. induction Hl as [|y k (Hy & _ & Ht) Hk IH]; [done|]. simpl. rewrite Ht, IH.
  by destruct y.
Qed.

(** ** Names of the allowlist *)

Definition label_char (c : ascii) : bool := is_ascii_lowercase c || is_ascii_digit c || Ascii.eqb c "-".

Lemma label_chars s : matches_dns1123_label s = true -> str_all label_char s = true.
Proof. unfold matches_dns1123_label. rewrite !andb_true_iff. by intros [[H _] _]. Qed.

Lemma subdomain_chars_of s :
  forallb matches_dns1123_label (split "." s) = true ->
  str_all (fun c => label_char c || Ascii.eqb c ".") s = true.
Proof.
  rewrite forallb_forall. intros Hl.
  rewrite <- (join_split "." s). induction (split "." s) as [|x l IH]; [done|].
  assert (str_all (fun c => label_char c || Ascii.eqb c ".") x = true) as Hx.
  { eapply str_all_impl; [|apply label_chars, Hl; by left].
    intros c Hc. by rewrite Hc. }
  destruct l as [|y l]; [done|].
  change (join (String "." "") (x :: y :: l)) with (x +:+ String "." (join (String "." "") (y :: l))).
  rewrite str_all_app, Hx. simpl. apply IH. intros z Hz. apply Hl. by right.
Qed.

Lemma subdomain_chars s :
  is_dns1123_subdomain s = true -> str_all (fun c => label_char c || Ascii.eqb c ".") s = true.
Proof.
  unfold is_dns1123_subdomain. rewrite andb_true_iff. intros [_ Hl]. by apply subdomain_chars_of.
Qed.

Lemma label_char_graphic c : label_char c = true -> graphic c = true.
Proof. destruct c as [[] [] [] [] [] [] [] []]; vm_compute; congruence. Qed.

Definition ref_wf (r : ServiceAccountRef) : Prop :=
  is_dns1123_label (sr_namespace r) = true ∧
  match sr_service_account r with Any => True | Named name => is_dns1123_subdomain name = true end.

Lemma name_item_graphic s :
  str_all (fun c => label_char c || Ascii.eqb c ".") s = true ->
  str_all graphic s = true ∧ contains_char "," s = false ∧ contains_char ":" s = false.
Proof.
  intros Hs. split; [|by split; (eapply str_all_not_contains; [|exact Hs])].
  eapply str_all_impl; [|exact Hs]. intros c.
  destruct c as [[] [] [] [] [] [] [] []]; vm_compute; congruence.
Qed.

Lemma account_text m :
  match m with Any => True | Named name => is_dns1123_subdomain name = true end ->
  match_try_from (match_display m) = Ok m ∧ str_all graphic (match_display m) = true ∧
  contains_char "," (match_display m) = false.
Proof.
  destruct m as [|name]; simpl; [done|]. intros Hn.
  destruct (name_item_graphic name) as (Hg & Hc & _); [by apply subdomain_chars|].
  unfold match_try_from. rewrite Hn.
  destruct (String.eqb name "*") eqn:E; [|done]. apply String.eqb_eq in E as ->. done.
Qed.

Lemma namespace_text ns :
  is_dns1123_label ns = true ->
  str_all graphic ns = true ∧ contains_char "," ns = false ∧ contains_char ":" ns = false.
Proof.
  unfold is_dns1123_label. rewrite andb_true_iff. intros [_ Hl].
  apply name_item_graphic. eapply str_all_impl; [|by apply label_chars].
  intros c Hc. by rewrite Hc.
Qed.

Lemma ref_roundtrip r : ref_wf r -> ref_from_str (ref_display r) = Ok r.
Proof.
  destruct r as [ns m]. intros [Hns Hm]. simpl in *. unfold ref_from_str, ref_display. simpl.
  destruct (namespace_text ns Hns) as (Hg & _ & Hc).
  destruct (account_text m Hm) as (Hr & Hgm & _).
  change (":" +:+ match_display m) with (String ":" (match_display m)).
  rewrite split_once_app by done. rewrite !trim_graphic by done.
  unfold ServerConfig.Conf.ServiceAccountRef_new. by rewrite Hns, Hr.
Qed.

Lemma ref_item r : ref_wf r -> plain_item (ref_display r).
Proof.
  destruct r as [ns m]. intros [Hns Hm]. simpl in *. unfold ref_display. simpl.
  destruct (namespace_text ns Hns) as (Hg & Hc & _).
  destruct (account_text m Hm) as (_ & Hgm & Hcm).
  apply graphic_item.
  - destruct ns; [|done]. by vm_compute in Hns.
  - by rewrite !contains_char_app, Hc, Hcm.
  - by rewrite !str_all_app, Hg, Hgm.
Qed.

Lemma ref_from_str_wf s r : ref_from_str s = Ok r -> ref_wf r.
Proof.
  unfold ref_from_str. destruct (split_once ":" s) as [[ns acc]|]; [|done].
  unfold ServiceAccountRef_new. destruct (is_dns1123_label (trim ns)) eqn:Hns; [|done]. simpl.
  unfold match_try_from. destruct (String.eqb (trim acc) "*"); [by intros [= <-]|].
  destruct (is_dns1123_subdomain (trim acc)) eqn:Ha; [|done]. by intros [= <-].
Qed.

(** The accounts of a namespace that an entry names. *)
Lemma admits_spec r ns acc :
  admits r ns acc = true ↔
    sr_namespace r = ns ∧ (sr_service_account r = Any ∨ sr_service_account r = Named acc).
Proof.
  unfold admits, match_admits. rewrite andb_true_iff, String.eqb_eq.
  destruct (sr_service_account r) as [|name]; [naive_solver|].
  rewrite String.eqb_eq. naive_solver.
Qed.

(** ** Validation *)

Lemma validated_security c mode :
  validate_resolved c mode = Ok () ->
  (mode = Enforce -> sec_token_audiences c ≠ [] ∧ sec_allowed_service_accounts c ≠ []) ∧
  (resolve_tenant_isolation c = Enforce -> mode = Enforce).
Proof.
  unfold validate_resolved. destruct mode; simpl.
  - destruct (resolve_tenant_isolation c); [done|]. by rewrite bool_decide_eq_true_2.
  - case_bool_decide as Ha; [done|]. by destruct (sec_allowed_service_accounts c).
Qed.

Section load.
Context (cwd : path) (s : fs).

Lemma validate_Ok c :
  validate cwd s c = Ok () ->
  validate_resolved (sc_security c) (resolve_mode (sc_security c)) = Ok () ∧
  validate_tls cwd s (sc_tls c) = Ok ().
Proof.
  unfold validate. destruct (parent _) as [p|]; [destruct (path_exists cwd s p); [|done]|];
    destruct (validate_resolved _ _) as [[]|]; try done; destruct (validate_tls _ _ _) as [[]|]; done.
Qed.

Context (file : path -> result ServerConfig string) (layered : ServerConfig -> result ServerConfig string).

Lemma load_validated strict args c :
  load_internal cwd s file layered strict args = Ok c -> validate cwd s c = Ok ().
Proof.
  unfold load_internal.
  destruct (match ar_config args with Some _ => _ | None => _ end) as [c0|]; [|done].
  destruct (validate cwd s (apply_args args c0)) as [[]|] eqn:Hv; [|done]. by intros [= <-].
Qed.
End load.

(** C40: every entry of an allowlist that the server accepts names a DNS-1123 namespace
    and either every account or a DNS-1123 subdomain, and the text that the entries
    print to is read back as the same list. *)
Theorem allowlist_well_formed text entries :
  comma_list ref_from_str text = Ok entries ->
  Forall ref_wf entries ∧ comma_list ref_from_str (join "," (map ref_display entries)) = Ok entries.
Proof.
  intros H. assert (Forall ref_wf entries) as Hwf.
  { eapply try_map_all; [|exact H]. apply ref_from_str_wf. }
  split; [done|]. rewrite comma_list_join.
  - apply try_map_map. eapply Forall_impl; [exact Hwf|]. apply ref_roundtrip.
  - rewrite Forall_map. eapply Forall_impl; [exact Hwf|]. apply ref_item.
Qed.

Lemma allowlist_well_formed_witness :
  let entries := [MkServiceAccountRef "team-a" (Named "trainer.v1"); MkServiceAccountRef "ops" Any] in
  comma_list ref_from_str " team-a:trainer.v1, ,ops: *" = Ok entries ∧
  Forall ref_wf entries ∧
  comma_list ref_from_str (join "," (map ref_display entries)) = Ok entries.
Proof.
  intros entries.
  assert (comma_list ref_from_str " team-a:trainer.v1, ,ops: *" = Ok entries) as H
    by (vm_compute; reflexivity).
  exact (conj H (allowlist_well_formed _ _ H)).
Defined.

(** A relative cache directory of one component has the empty path as its parent, which
    does not exist: the configuration is refused wherever it is. *)
Lemma relative_directory_refused cwd s c name :
  cc_directory (sc_cache c) = [Normal name] -> validate cwd s c = Err (MissingCacheParent []).
Proof. intros H. unfold validate. by rewrite H. Qed.
