(* ===== verification/Auth.v ===== *)
(** * Authentication of callers (modelexpress_server/src/auth.rs, auth/token.rs, auth/layer.rs)

    Bearer tokens, the TokenReview of the Kubernetes API, the two caches of moka, and the
    layer in front of the services.  [verify] looks into the caches, waits for a review
    when they do not answer, and goes on with its result, so it is two functions,
    [verify_begin] and [verify_end]; [step] interleaves the requests of one server, the
    reviews, whose answers are arbitrary, and the evictions of the caches.  moka's
    caches are the class [TtlCache]; [ttl_map] is a concrete one. *)

From Stdlib Require Import ZArith Lia Ascii String.
From stdpp Require Import base tactics option list gmap fin_maps strings.
From S2P Require Import Prelude RustStr RustPath EntryKey ServerConfig.

(** ** The cache *)

Class TtlCache (C V : Type) := {
  (** [get] at a time; a cache may forget an entry whenever it likes. *)
  cache_get : Z -> string -> C -> option V;
  cache_insert : Z -> string -> V -> C -> C;
  (** What the cache holds, with the times of insertion. *)
  cache_entries : C -> gmap string (V * Z);
  cache_ttl : C -> Z
}.

Class TtlCacheLaws (C V : Type) `{TtlCache C V} : Prop := {
  cache_get_fresh : forall now k (c : C) v, cache_get now k c = Some v ->
    ∃ t, cache_entries c !! k = Some (v, t) ∧ (now < t + cache_ttl c)%Z;
  cache_insert_entries : forall now k v (c : C) k' e,
    cache_entries (cache_insert now k v c) !! k' = Some e ->
    (k' = k ∧ e = (v, now)) ∨ cache_entries c !! k' = Some e;
  cache_insert_ttl : forall now k v (c : C), cache_ttl (cache_insert now k v c) = cache_ttl c
}.

(** A cache without a bound on its size. *)
Record ttl_map (V : Type) : Type := MkTtlMap { tm_ttl : Z; tm_entries : gmap string (V * Z) }.
Arguments MkTtlMap {V} _ _.
Arguments tm_ttl {V} _.
Arguments tm_entries {V} _.

#[export] Instance ttl_map_cache V : TtlCache (ttl_map V) V := {|
  cache_get now k c :=
    match tm_entries c !! k with
    | Some (v, t) => if (now <? t + tm_ttl c)%Z then Some v else None
    | None => None
    end;
  cache_insert now k v c := MkTtlMap (tm_ttl c) (<[k := (v, now)]> (tm_entries c));
  cache_entries := tm_entries;
  cache_ttl := tm_ttl
|}.

#[export] Instance ttl_map_laws V : TtlCacheLaws (ttl_map V) V.
Proof.
  split; simpl.
  - intros now k c v. destruct (tm_entries c !! k) as [[w t]|]; [|done].
    case_match eqn:E; [|done]. intros [= <-]. exists t. split; [done|lia].
  - intros now k v c k' e. destruct (decide (k = k')) as [->|Hk].
    + rewrite lookup_insert_eq. intros [= <-]. by left.
    + rewrite lookup_insert_ne by done. by right.
  - done.
Qed.

Module Auth.
Import Conf.

(** ** Tokens *)

Record CallerIdentity : Type := MkCallerIdentity {
  ci_namespace : string;
  ci_service_account : string;
  ci_pod_name : option string;
  ci_pod_uid : option string
}.

(** A header map: names in lower case, in order. *)
Abbreviation HeaderMap := (list (string * string)).

Definition header_get (name : string) (headers : HeaderMap) : option string :=
  snd <$> List.find (fun '(n, _) => String.eqb n name) headers.

(** [HeaderValue::to_str]: visible ASCII or a tab. *)
Definition header_to_str (value : string) : option string :=
  if str_all (fun c => byte_in 32 126 c || byte_in 9 9 c) value then Some value else None.

(** [str::get(n..)]: inside the string at a character. *)
Definition str_get_from (n : nat) (s : string) : option string :=
  if (n <=? String.length s)%nat &&
     match String.get n s with Some c => negb (is_continuation c) | None => true end
  then Some (String.substring n (String.length s - n) s) else None.

Definition extract_bearer (headers : HeaderMap) : option string :=
  value ← header_get "authorization" headers ≫= header_to_str;
  prefix ← str_get_to 7 value;
  if negb (eq_ignore_ascii_case prefix "bearer ") then None
  else raw ← str_get_from 7 value;
       if str_is_empty raw then None else Some raw.

Definition parse_sa_username (username : string) : option (string * string) :=
  rest ← strip_prefix "system:serviceaccount:" username;
  '(namespace, service_account) ← split_once ":" rest;
  if str_is_empty namespace || str_is_empty service_account then None
  else Some (namespace, service_account).

(** The API objects. *)
Record UserInfo : Type := MkUserInfo {
  ui_username : option string;
  ui_extra : option (gmap string (list string))
}.

Record TokenReviewSpec : Type := MkTokenReviewSpec {
  trs_token : option string;
  trs_audiences : option (list string)
}.

Record TokenReviewStatus : Type := MkTokenReviewStatus {
  ts_authenticated : option bool;
  ts_audiences : option (list string);
  ts_error : option string;
  ts_user : option UserInfo
}.

Definition EXTRA_POD_NAME : string := "authentication.kubernetes.io/pod-name".
Definition EXTRA_POD_UID : string := "authentication.kubernetes.io/pod-uid".

Definition caller_from_userinfo (user : UserInfo) : option CallerIdentity :=
  username ← ui_username user;
  '(namespace, service_account) ← parse_sa_username username;
  let first key := extra ← ui_extra user; values ← extra !! key; head values in
  Some (MkCallerIdentity namespace service_account (first EXTRA_POD_NAME) (first EXTRA_POD_UID)).

Inductive TokenError : Type :=
| ApiError (e : string)
| NoStatus
| NotAuthenticated (e : option string)
| NoUser
| NotServiceAccount
| AudienceMismatch (requested : list string) (actual : option (list string)).

Definition is_token_rejection (e : TokenError) : bool :=
  match e with
  | NotAuthenticated _ | NotServiceAccount | AudienceMismatch _ _ => true
  | ApiError _ | NoStatus | NoUser => false
  end.

(** What the API server answers to the creation of a TokenReview: a failure, or the
    object with its status. *)
Abbreviation ReviewAnswer := (result (option TokenReviewStatus) string).

Definition review_request (token : string) (audiences : list string) : TokenReviewSpec :=
  MkTokenReviewSpec (Some token) (if bool_decide (audiences = []) then None else Some audiences).

(** [review_token] after the request. *)
Definition review_token (audiences : list string) (reviewed : ReviewAnswer)
    : result CallerIdentity TokenError :=
  match reviewed with
  | Err e => Err (ApiError e)
  | Ok None => Err NoStatus
  | Ok (Some status) =>
      if negb (default false (ts_authenticated status)) then Err (NotAuthenticated (ts_error status))
      else
        let status_audiences := default [] (ts_audiences status) in
        let has_overlap := existsb (fun req => existsb (String.eqb req) status_audiences) audiences in
        if negb (bool_decide (audiences = [])) && negb has_overlap
        then Err (AudienceMismatch audiences (ts_audiences status))
        else match ts_user status with
             | None => Err NoUser
             | Some user =>
                 match caller_from_userinfo user with
                 | Some caller => Ok caller
                 | None => Err NotServiceAccount
                 end
             end
  end.

(** ** verify *)

Inductive Denial : Type :=
| Unauthenticated
| PermissionDenied (message : string)
| Unavailable.

Section verify.
Context {TC NC : Type} `{TtlCache TC CallerIdentity} `{TtlCache NC unit}.
(** The configuration that [AuthState::new] keeps. *)
Context (audiences : list string) (allowlist : list ServiceAccountRef).

Definition authorize (caller : CallerIdentity) : result CallerIdentity Denial :=
  if existsb (fun entry => admits entry (ci_namespace caller) (ci_service_account caller))
       allowlist
  then Ok caller
  else Err (PermissionDenied ("service account " +:+ ci_namespace caller +:+ ":" +:+
              ci_service_account caller +:+ " is not in the allowlist")).

(** [verify] until it answers or waits for the review of a token. *)
Definition verify_begin (now : Z) (headers : HeaderMap) (tokens : TC) (negative : NC)
    : string + result CallerIdentity Denial :=
  match extract_bearer headers with
  | None => inr (Err Unauthenticated)
  | Some token =>
      match cache_get now token negative with
      | Some tt => inr (Err Unauthenticated)
      | None =>
          match cache_get now token tokens with
          | Some caller => inr (authorize caller)
          | None => inl token
          end
      end
  end.

(** [try_get_with] keeps a result that is not an error. *)
Definition keep_review (now : Z) (token : string) (r : result CallerIdentity TokenError)
    (tokens : TC) : TC :=
  match r with Ok caller => cache_insert now token caller tokens | Err _ => tokens end.

(** [verify] with the result of the review. *)
Definition verify_end (now : Z) (token : string) (r : result CallerIdentity TokenError)
    (negative : NC) : NC * result CallerIdentity Denial :=
  match r with
  | Ok caller => (negative, authorize caller)
  | Err error =>
      if is_token_rejection error
      then (cache_insert now token tt negative, Err Unauthenticated)
      else (negative, Err Unavailable)
  end.

(** ** The requests of one server *)

(** [waiting]: requests whose token is being reviewed; concurrent requests with one
    token wait for one review.  The last two components are not part of the program:
    the reviews so far and what the requests were answered, each with its time. *)
Record state : Type := MkState {
  as_clock : Z;
  as_tokens : TC;
  as_negative : NC;
  as_waiting : list (nat * string);
  as_reviews : list (Z * string * ReviewAnswer);
  as_answers : list (Z * nat * HeaderMap * result CallerIdentity Denial);
  as_requests : gmap nat HeaderMap
}.

(** The requests that wait for a token, answered one after the other. *)
Fixpoint answer_waiting (now : Z) (token : string) (r : result CallerIdentity TokenError)
    (ids : list (nat * string)) (requests : gmap nat HeaderMap) (negative : NC)
    : NC * list (Z * nat * HeaderMap * result CallerIdentity Denial) :=
  match ids with
  | [] => (negative, [])
  | (id, _) :: ids =>
      let '(negative1, a) := verify_end now token r negative in
      let '(negative2, l) := answer_waiting now token r ids requests negative1 in
      (negative2, (now, id, default [] (requests !! id), a) :: l)
  end.

Inductive step : state -> state -> Prop :=
| step_request st now id headers :
    (as_clock st <= now)%Z -> as_requests st !! id = None ->
    step st
      (match verify_begin now headers (as_tokens st) (as_negative st) with
       | inl token =>
           MkState now (as_tokens st) (as_negative st) ((id, token) :: as_waiting st)
             (as_reviews st) (as_answers st) (<[id := headers]> (as_requests st))
       | inr a =>
           MkState now (as_tokens st) (as_negative st) (as_waiting st) (as_reviews st)
             ((now, id, headers, a) :: as_answers st) (<[id := headers]> (as_requests st))
       end)
| step_review st now token answer :
    (as_clock st <= now)%Z -> token ∈ (as_waiting st).*2 ->
    step st
      (let r := review_token audiences answer in
       let served := List.filter (fun '(_, t) => String.eqb t token) (as_waiting st) in
       let '(negative, answers) :=
         answer_waiting now token r served (as_requests st) (as_negative st) in
       MkState now (keep_review now token r (as_tokens st)) negative
         (List.filter (fun '(_, t) => negb (String.eqb t token)) (as_waiting st))
         ((now, token, answer) :: as_reviews st) (answers ++ as_answers st) (as_requests st))
| step_forget st tokens negative :
    cache_entries tokens ⊆ cache_entries (as_tokens st) ->
    cache_ttl tokens = cache_ttl (as_tokens st) ->
    cache_entries negative ⊆ cache_entries (as_negative st) ->
    cache_ttl negative = cache_ttl (as_negative st) ->
    step st
      (MkState (as_clock st) tokens negative (as_waiting st) (as_reviews st) (as_answers st)
         (as_requests st)).

(** [AuthState::new] with empty caches of the configured time to live. *)
Definition initial (ttl : Z) (st : state) : Prop :=
  cache_entries (as_tokens st) = ∅ ∧ cache_ttl (as_tokens st) = ttl ∧
  cache_entries (as_negative st) = ∅ ∧ cache_ttl (as_negative st) = ttl ∧
  as_waiting st = [] ∧ as_reviews st = [] ∧ as_answers st = [] ∧ as_requests st = ∅.

Definition reachable (ttl : Z) (st : state) : Prop := ∃ st0, initial ttl st0 ∧ rtc step st0 st.

(** ** The layer *)

(** [AuthService::call]: the inner service runs with the caller, or the denial is the
    answer. *)
Definition call {A S} (inner : CallerIdentity -> A) (into_status : Denial -> S)
    (verified : result CallerIdentity Denial) : A + S :=
  match verified with
  | Ok caller => inl (inner caller)
  | Err denial => inr (into_status denial)
  end.
End verify.

Arguments MkState {TC NC} _ _ _ _ _ _ _.
Arguments state : clear implicits.
End Auth.
