(* ===== verification/AuthTheorems.v ===== *)
(** * Who is admitted

    In every interleaving of requests, reviews and evictions an answer of [verify] rests
    on a review of that very token, made at most the time to live of the caches before;
    and under a validated configuration that isolates tenants, an admitted caller acts
    in the namespace that the API server vouched for, in every service. *)

From Stdlib Require Import ZArith Lia Ascii String.
From stdpp Require Import base tactics option list relations gmap fin_maps strings.
From S2P Require Import Prelude RustStr RustPath EntryKey Fs RedisStore RegistryMemory Tracker.
From S2P Require Import P2pTypes P2pBackend P2pService.
From S2P Require Import ServerConfig ServerConfigFacts Auth.
Import Conf Auth.

(** ** Reviews *)

(** The API server authenticated the token of a service account, for one of the
    audiences when some are requested. *)
Definition vouched (audiences : list string) (answer : ReviewAnswer) (caller : CallerIdentity) : Prop :=
  ∃ status user,
    answer = Ok (Some status) ∧ ts_authenticated status = Some true ∧
    (audiences = [] ∨ ∃ a, a ∈ audiences ∧ a ∈ default [] (ts_audiences status)) ∧
    ts_user status = Some user ∧
    ui_username user = Some ("system:serviceaccount:" +:+ ci_namespace caller +:+ ":" +:+
                             ci_service_account caller).

Lemma parse_sa_username_Some username ns acc :
  parse_sa_username username = Some (ns, acc) ->
  username = "system:serviceaccount:" +:+ ns +:+ ":" +:+ acc ∧ ns ≠ "" ∧ acc ≠ "".
Proof.
  unfold parse_sa_username.
  destruct (strip_prefix "system:serviceaccount:" username) as [rest|] eqn:Hp; [|done]. simpl.
  destruct (split_once ":" rest) as [[a b]|] eqn:Hs; [|done]. simpl.
  destruct a as [|ca a]; [done|]. destruct b as [|cb b]; [done|]. intros [= <- <-].
  apply strip_prefix_Some in Hp as ->. apply split_once_Some in Hs as [-> _]. done.
Qed.

Lemma existsb_string (l : list string) x : existsb (String.eqb x) l = true -> x ∈ l.
Proof. rewrite existsb_exists. intros (y & Hy & ->%String.eqb_eq). by apply list_elem_of_In. Qed.

Lemma review_token_vouched audiences answer caller :
  review_token audiences answer = Ok caller -> vouched audiences answer caller.
Proof.
  unfold review_token. destruct answer as [[status|]|]; [|done..].
  destruct (ts_authenticated status) as [[]|] eqn:Ha; [|done..]. cbn [default negb].
  destruct (negb (bool_decide (audiences = [])) && _) eqn:Ho; [done|].
  destruct (ts_user status) as [user|] eqn:Hu; [|done].
  destruct (caller_from_userinfo user) as [c|] eqn:Hc; [|done]. intros [= <-].
  exists status, user. split_and!; [done..| |done|].
  - apply andb_false_iff in Ho as [Ho|Ho]; mx_bool; [by left|right].
    apply existsb_exists in Ho as (a & Ha1 & Ha2). exists a.
    split; [by apply list_elem_of_In|by apply existsb_string].
  - unfold caller_from_userinfo in Hc. destruct (ui_username user) as [n|]; [|done]. simpl in Hc.
    destruct (parse_sa_username n) as [[ns acc]|] eqn:Hn; [|done]. simpl in Hc.
    injection Hc as <-. simpl. f_equal. by apply parse_sa_username_Some in Hn as [-> _].
Qed.

Section sound.
Context {TC NC : Type} `{TtlCacheLaws TC CallerIdentity} `{TtlCacheLaws NC unit}.
Context (audiences : list string) (allowlist : list ServiceAccountRef) (ttl : Z).
Abbreviation st_of := (state TC NC).

Definition allowed (caller : CallerIdentity) : Prop :=
  ∃ entry, entry ∈ allowlist ∧ admits entry (ci_namespace caller) (ci_service_account caller) = true.

Lemma authorize_spec caller :
  match authorize allowlist caller with
  | Ok c => c = caller ∧ allowed caller
  | Err (PermissionDenied _) => ¬ allowed caller
  | Err _ => False
  end.
Proof.
  unfold authorize. destruct (existsb _ allowlist) eqn:E.
  - apply existsb_exists in E as (e & He & Ha). split; [done|]. exists e.
    by rewrite list_elem_of_In.
  - intros (e & He & Ha). apply not_true_iff_false in E. apply E, existsb_exists.
    exists e. by rewrite <- list_elem_of_In.
Qed.

(** ** What an answer rests on *)

Abbreviation review_log := (list (Z * string * ReviewAnswer)).

(** A review of the token, not longer ago than the caches keep it. *)
Definition recent (log : review_log) (now : Z) (token : string) (answer : ReviewAnswer) : Prop :=
  ∃ t, (t, token, answer) ∈ log ∧ (t <= now)%Z ∧ (t = now ∨ now < t + ttl)%Z.

Definition justified (log : review_log) (now : Z) (headers : HeaderMap)
    (a : result CallerIdentity Denial) : Prop :=
  match extract_bearer headers with
  | None => a = Err Unauthenticated
  | Some token =>
      ∃ answer, recent log now token answer ∧
        match a, review_token audiences answer with
        | Ok c, Ok caller => c = caller ∧ allowed caller
        | Err (PermissionDenied _), Ok caller => ¬ allowed caller
        | Err Unauthenticated, Err e => is_token_rejection e = true
        | Err Unavailable, Err e => is_token_rejection e = false
        | _, _ => False
        end
  end.

Lemma recent_mono log x now token answer :
  recent log now token answer -> recent (x :: log) now token answer.
Proof. intros (t & Hin & Ht). exists t. split; [by right|done]. Qed.

Lemma justified_mono log x now headers a :
  justified log now headers a -> justified (x :: log) now headers a.
Proof.
  unfold justified. destruct (extract_bearer headers); [|done].
  intros (answer & Hr & Ha). exists answer. split; [by apply recent_mono|done].
Qed.

Record inv (st : st_of) : Prop := {
  inv_ttl : cache_ttl (as_tokens st) = ttl ∧ cache_ttl (as_negative st) = ttl;
  inv_tokens : forall token caller t, cache_entries (as_tokens st) !! token = Some (caller, t) ->
    (t <= as_clock st)%Z ∧
    ∃ answer, (t, token, answer) ∈ as_reviews st ∧ review_token audiences answer = Ok caller;
  inv_negative : forall token u t, cache_entries (as_negative st) !! token = Some (u, t) ->
    (t <= as_clock st)%Z ∧
    ∃ answer e, (t, token, answer) ∈ as_reviews st ∧
      review_token audiences answer = Err e ∧ is_token_rejection e = true;
  inv_waiting : forall id token, (id, token) ∈ as_waiting st ->
    ∃ headers, as_requests st !! id = Some headers ∧ extract_bearer headers = Some token;
  inv_answers : forall now id headers a, (now, id, headers, a) ∈ as_answers st ->
    justified (as_reviews st) now headers a
}.

Lemma initial_inv st : initial ttl st -> inv st.
Proof.
  intros (Ht & ? & Hn & ? & Hw & _ & Ha & _). split.
  - done.
  - intros token caller t. by rewrite Ht, lookup_empty.
  - intros token u t. by rewrite Hn, lookup_empty.
  - intros id token. rewrite Hw. by intros ?%elem_of_nil.
  - intros now id headers a. rewrite Ha. by intros ?%elem_of_nil.
Qed.

Lemma begin_justified st now headers a :
  inv st -> (as_clock st <= now)%Z ->
  verify_begin allowlist now headers (as_tokens st) (as_negative st) = inr a ->
  justified (as_reviews st) now headers a.
Proof.
  intros Hi Hnow. unfold verify_begin, justified.
  destruct (extract_bearer headers) as [token|]; [|by intros [= <-]].
  destruct (cache_get now token (as_negative st)) as [[]|] eqn:Hneg.
  - intros [= <-]. apply cache_get_fresh in Hneg as (t & Hneg & Hf).
    destruct (inv_negative _ Hi _ _ _ Hneg) as (Hle & answer & e & Hin & Hr & He).
    exists answer. rewrite Hr. split; [|done]. exists t. split; [done|].
    destruct (inv_ttl _ Hi) as [_ ->] in Hf. lia.
  - destruct (cache_get now token (as_tokens st)) as [caller|] eqn:Htok; [|done]. intros [= <-].
    apply cache_get_fresh in Htok as (t & Htok & Hf).
    destruct (inv_tokens _ Hi _ _ _ Htok) as (Hle & answer & Hin & Hr).
    exists answer. rewrite Hr. split.
    + exists t. split; [done|]. destruct (inv_ttl _ Hi) as [-> _] in Hf. lia.
    + pose proof (authorize_spec caller) as Ha.
      by destruct (authorize allowlist caller) as [c|[]].
Qed.

(** A request that waited for the review that has just been made. *)
Lemma end_justified log now token answer headers negative :
  extract_bearer headers = Some token ->
  justified ((now, token, answer) :: log) now headers
    (verify_end allowlist now token (review_token audiences answer) negative).2.
Proof.
  intros Hh. unfold justified, verify_end. rewrite Hh.
  assert (recent ((now, token, answer) :: log) now token answer) as Hr.
  { exists now. split; [by left|]. split; [lia|by left]. }
  destruct (review_token audiences answer) as [caller|e] eqn:E.
  - exists answer. split; [done|]. rewrite E. simpl. pose proof (authorize_spec caller) as Ha.
    by destruct (authorize allowlist caller) as [c|[]].
  - destruct (is_token_rejection e) eqn:Hrej; exists answer; (split; [done|]); by rewrite E.
Qed.

Lemma end_negative now token r (negative : NC) k u t :
  cache_entries (verify_end allowlist now token r negative).1 !! k = Some (u, t) ->
  cache_entries negative !! k = Some (u, t) ∨
  (k = token ∧ t = now ∧ ∃ e, r = Err e ∧ is_token_rejection e = true).
Proof.
  destruct r as [caller|e]; simpl; [by left|].
  destruct (is_token_rejection e) eqn:E; simpl; [|by left].
  intros [[-> [= -> ->]]|Hk]%cache_insert_entries; [right|by left]. eauto.
Qed.

Lemma end_ttl now token r (negative : NC) :
  cache_ttl (verify_end allowlist now token r negative).1 = cache_ttl negative.
Proof. destruct r as [|e]; [done|]. simpl. destruct (is_token_rejection e); [|done]. apply cache_insert_ttl. Qed.

Lemma answer_waiting_spec log now token answer ids requests negative :
  (forall id t, (id, t) ∈ ids -> t = token ∧
     ∃ headers, requests !! id = Some headers ∧ extract_bearer headers = Some token) ->
  let r := review_token audiences answer in
  let '(negative', answers) := answer_waiting allowlist now token r ids requests negative in
  cache_ttl negative' = cache_ttl negative ∧
  (forall k u t, cache_entries negative' !! k = Some (u, t) ->
     cache_entries negative !! k = Some (u, t) ∨
     (k = token ∧ t = now ∧ ∃ e, r = Err e ∧ is_token_rejection e = true)) ∧
  (forall n id headers a, (n, id, headers, a) ∈ answers ->
     n = now ∧ justified ((now, token, answer) :: log) n headers a).
Proof.
  intros Hids r. revert negative. induction ids as [|[id t] ids IH]; intros negative; simpl.
  { split; [done|]. split; [by left|]. by intros ???? ?%elem_of_nil. }
  destruct (Hids id t) as [-> (headers & Hreq & Hb)]; [by left|].
  destruct (verify_end allowlist now token r negative) as [negative1 a] eqn:He.
  specialize (IH ltac:(intros; apply Hids; by right) negative1).
  destruct (answer_waiting allowlist now token r ids requests negative1) as [negative2 l].
  destruct IH as (Httl & Hneg & Hans).
  pose proof (end_ttl now token r negative) as Ht1. rewrite He in Ht1.
  split; [by rewrite Httl|]. split.
  - intros k u t Hk. destruct (Hneg k u t Hk) as [Hk'|?]; [|by right].
    apply (end_negative now token r negative). by rewrite He.
  - intros n id' h a' Hin. apply elem_of_cons in Hin as [Heq|Hin]; [|by eapply Hans].
    injection Heq as -> -> -> ->. split; [done|]. rewrite Hreq. simpl.
    pose proof (end_justified log now token answer headers negative Hb) as Hj.
    fold r in Hj. by rewrite He in Hj.
Qed.

Lemma waiting_fresh (l : list (nat * string)) id token :
  (id, token) ∈ List.filter (fun '(_, t) => String.eqb t token) l -> (id, token) ∈ l.
Proof. rewrite !list_elem_of_In. by intros [? _]%filter_In. Qed.

Lemma auth_step_inv st st' : inv st -> step audiences allowlist st st' -> inv st'.
Proof.
  intros Hi Hs. destruct Hs as [st now id headers Hnow Hnew|st now token answer Hnow Hw|st tokens negative Ht Htt Hn Hnt].
  - pose proof (begin_justified st now headers) as Hb.
    assert (forall i t (m := <[id := headers]> (as_requests st)), (i, t) ∈ as_waiting st ->
      ∃ h, m !! i = Some h ∧ extract_bearer h = Some t) as Hwait.
    { intros i t m Hin. destruct (inv_waiting _ Hi _ _ Hin) as (h & Hh & Hb').
      exists h. split; [|done]. unfold m. by rewrite lookup_insert_ne by congruence. }
    destruct (verify_begin allowlist now headers _ _) as [token|a] eqn:Hv; split; simpl.
    all: try apply (inv_ttl _ Hi).
    all: try (intros k c t Hk; destruct (inv_tokens _ Hi _ _ _ Hk) as [Hle ?]; split; [lia|done]).
    all: try (intros k c t Hk; destruct (inv_negative _ Hi _ _ _ Hk) as [Hle ?]; split; [lia|done]).
    + intros i t [[= -> ->]|Hin]%elem_of_cons; [|by apply Hwait]. exists headers.
      rewrite lookup_insert_eq. split; [done|]. unfold verify_begin in Hv.
      destruct (extract_bearer headers) as [tk|]; [|done].
      destruct (cache_get now tk (as_negative st)) as [[]|]; [done|].
      destruct (cache_get now tk (as_tokens st)); [done|]. by injection Hv as ->.
    + apply (inv_answers _ Hi).
    + apply Hwait.
    + intros n i h b [[= -> -> -> ->]|Hin]%elem_of_cons; [by apply Hb|by apply (inv_answers _ Hi _ i)].
  - cbv zeta. set (served := List.filter (fun '(_, t) => String.eqb t token) (as_waiting st)).
    pose proof (answer_waiting_spec (as_reviews st) now token answer served (as_requests st)
                  (as_negative st)) as Hspec. cbv zeta in Hspec.
    destruct (answer_waiting _ _ _ _ _ _ _) as [negative' answers] eqn:Hans.
    destruct Hspec as (Httl & Hneg & Hjust).
    { intros i t Hin. unfold served in Hin.
      assert (t = token) as ->.
      { apply list_elem_of_In, filter_In in Hin as [_ E]. by apply String.eqb_eq in E. }
      split; [done|]. by apply (inv_waiting _ Hi), waiting_fresh. }
    destruct (inv_ttl _ Hi) as [Ht1 Ht2]. split; simpl.
    + split; [|by rewrite Httl]. unfold keep_review.
      destruct (review_token audiences answer); [by rewrite cache_insert_ttl|done].
    + intros k c t Hk. unfold keep_review in Hk.
      destruct (review_token audiences answer) as [caller|e] eqn:Hr.
      * apply cache_insert_entries in Hk as [[-> [= -> ->]]|Hk].
        -- split; [lia|]. exists answer. split; [by left|done].
        -- destruct (inv_tokens _ Hi _ _ _ Hk) as (Hle & ans & Hin & ?).
           split; [lia|]. exists ans. split; [by right|done].
      * destruct (inv_tokens _ Hi _ _ _ Hk) as (Hle & ans & Hin & ?).
        split; [lia|]. exists ans. split; [by right|done].
    + intros k u t Hk. destruct (Hneg _ _ _ Hk) as [Hk'|(-> & -> & e & Hr & He)].
      * destruct (inv_negative _ Hi _ _ _ Hk') as (Hle & ans & e & Hin & ?).
        split; [lia|]. exists ans, e. split; [by right|done].
      * split; [lia|]. exists answer, e. split; [by left|done].
    + intros i t Hin. apply (inv_waiting _ Hi), list_elem_of_In.
      by apply list_elem_of_In, filter_In in Hin as [? _].
    + intros n i h b Hin; apply elem_of_app in Hin as [Hin|Hin]; [by eapply Hjust|].
      apply justified_mono. by apply (inv_answers _ Hi _ i).
  - destruct (inv_ttl _ Hi) as [Ht1 Ht2]. split; simpl.
    + by rewrite Htt, Hnt.
    + intros k c t Hk. apply (inv_tokens _ Hi). by eapply lookup_weaken.
    + intros k u t Hk. apply (inv_negative _ Hi _ u). by eapply lookup_weaken.
    + apply (inv_waiting _ Hi).
    + apply (inv_answers _ Hi).
Qed.

Lemma reachable_inv st : reachable audiences allowlist ttl st -> inv st.
Proof.
  intros (st0 & Hinit & Hr). apply initial_inv in Hinit.
  induction Hr as [|st1 st2 st3 Hs Hr IH]; [done|]. apply IH. by eapply auth_step_inv.
Qed.
End sound.

(** C29: in every interleaving of requests, reviews with arbitrary answers and evictions of
    the caches, a request that is admitted carries a bearer token that the API server
    authenticated as a service account, for one of the configured audiences, in a review
    of that token not longer ago than the time to live of the cache; and an entry of the
    allowlist admits the account. *)
Theorem admitted_vouched `{TtlCacheLaws TC CallerIdentity} `{TtlCacheLaws NC unit}
    (audiences : list string) (allowlist : list ServiceAccountRef) (ttl : Z)
    (st : state TC NC) now id headers caller :
  reachable audiences allowlist ttl st ->
  (now, id, headers, Ok caller) ∈ as_answers st ->
  ∃ token t answer,
    extract_bearer headers = Some token ∧
    (t, token, answer) ∈ as_reviews st ∧ (t <= now)%Z ∧ (t = now ∨ now < t + ttl)%Z ∧
    vouched audiences answer caller ∧
    ∃ entry, entry ∈ allowlist ∧ sr_namespace entry = ci_namespace caller ∧
      (sr_service_account entry = Any ∨ sr_service_account entry = Named (ci_service_account caller)).
Proof.
  intros Hr Hin. apply reachable_inv in Hr. apply (inv_answers _ _ _ _ Hr) in Hin.
  unfold justified in Hin. destruct (extract_bearer headers) as [token|] eqn:Hh; [|done].
  destruct Hin as (answer & (t & Hlog & Hle & Hf) & Hm).
  destruct (review_token audiences answer) as [c|] eqn:Hrev; [|done].
  destruct Hm as [-> (entry & He & Ha)]. apply admits_spec in Ha as [Hns Hacc].
  exists token, t, answer. split_and!; try done; [by apply review_token_vouched|].
  by exists entry.
Qed.

(** ** Tenants *)

(** C30: under a validated configuration that isolates tenants, an admitted caller was
    vouched for by the API server for a configured audience, and the P2P service and the
    model service both scope it to exactly the namespace of its token: neither refuses
    it, and neither lets it act without a namespace. *)
Theorem isolated_callers_scoped `{TtlCacheLaws TC CallerIdentity} `{TtlCacheLaws NC unit}
    (cwd : path) (s : fs) (c : ServerConfig) (st : state TC NC) now id headers caller :
  let security := sc_security c in
  validate cwd s c = Ok () ->
  resolve_tenant_isolation security = Enforce ->
  Forall ref_wf (sec_allowed_service_accounts security) ->
  reachable (sec_token_audiences security) (sec_allowed_service_accounts security)
    (sec_cache_ttl_secs security) st ->
  (now, id, headers, Ok caller) ∈ as_answers st ->
  (∃ t token status user a,
     (t, token, Ok (Some status)) ∈ as_reviews st ∧ extract_bearer headers = Some token ∧
     ts_authenticated status = Some true ∧
     a ∈ sec_token_audiences security ∧ a ∈ default [] (ts_audiences status) ∧
     ts_user status = Some user ∧
     ui_username user = Some ("system:serviceaccount:" +:+ ci_namespace caller +:+ ":" +:+
                              ci_service_account caller)) ∧
  scope_namespace true (Some (ci_namespace caller)) = Ok (Some (ci_namespace caller)) ∧
  scope true (Some (ci_namespace caller)) = Ok (Some (MkTenant (ci_namespace caller))).
Proof.
  intros security Hv Hiso Hwf Hr Hin. apply validate_Ok in Hv as [Hsec _].
  apply validated_security in Hsec as [Hmode Himp]. destruct (Hmode (Himp Hiso)) as [Haud _].
  apply reachable_inv in Hr. apply (inv_answers _ _ _ _ Hr) in Hin.
  unfold justified in Hin. destruct (extract_bearer headers) as [token|] eqn:Hh; [|done].
  destruct Hin as (answer & (t & Hlog & _) & Hm).
  destruct (review_token (sec_token_audiences security) answer) as [c'|] eqn:Hrev; [|done].
  destruct Hm as [-> (entry & He & Ha)]. apply admits_spec in Ha as [Hns _].
  apply review_token_vouched in Hrev as (status & user & -> & Hau & [?|(a & Ha1 & Ha2)] & Hu & Hn);
    [done|]. split; [by exists t, token, status, user, a|]. split; [done|].
  rewrite Forall_forall in Hwf. destruct (Hwf _ He) as [Hlabel _]. rewrite Hns in Hlabel.
  unfold scope, Tenant_new. simpl. by rewrite Hlabel.
Qed.

(** ** A run *)

Definition sample_allowlist : list ServiceAccountRef :=
  [MkServiceAccountRef "team-a" (Named "trainer")].

Definition sample_user : UserInfo :=
  MkUserInfo (Some "system:serviceaccount:team-a:trainer") None.

Definition sample_status : TokenReviewStatus :=
  MkTokenReviewStatus (Some true) (Some ["other"; "mx"]) None (Some sample_user).

Definition sample_headers : HeaderMap := [("authorization", "BEARER tok")].

Definition sample_caller : CallerIdentity := MkCallerIdentity "team-a" "trainer" None None.

Abbreviation sample_st := (state (ttl_map CallerIdentity) (ttl_map unit)).

Definition sample_start : sample_st := MkState 0 (MkTtlMap 60 ∅) (MkTtlMap 60 ∅) [] [] [] ∅.

Definition sample_waiting : sample_st :=
  MkState 5 (MkTtlMap 60 ∅) (MkTtlMap 60 ∅) [(0, "tok")] [] [] {[0 := sample_headers]}.

Definition sample_reviewed : sample_st :=
  MkState 7 (MkTtlMap 60 {["tok" := (sample_caller, 7%Z)]}) (MkTtlMap 60 ∅) []
    [(7%Z, "tok", Ok (Some sample_status))]
    [(7%Z, 0, sample_headers, Ok sample_caller)] {[0 := sample_headers]}.

(** The second request is answered from the cache. *)
Definition sample_cached : sample_st :=
  MkState 66 (MkTtlMap 60 {["tok" := (sample_caller, 7%Z)]}) (MkTtlMap 60 ∅) []
    [(7%Z, "tok", Ok (Some sample_status))]
    [(66%Z, 1, sample_headers, Ok sample_caller); (7%Z, 0, sample_headers, Ok sample_caller)]
    (<[1 := sample_headers]> {[0 := sample_headers]}).

Lemma step_to (a : list string) l (st st1 st2 : sample_st) : step a l st st1 -> st1 = st2 -> step a l st st2.
Proof. by intros ? <-. Qed.

Lemma sample_run : reachable ["mx"] sample_allowlist 60 sample_cached.
Proof.
  exists sample_start. split; [by split_and!|].
  apply (rtc_l _ _ sample_waiting).
  { eapply step_to; [apply (step_request _ _ sample_start 5 0 sample_headers)|];
      [vm_compute; discriminate|reflexivity|vm_compute; reflexivity]. }
  apply (rtc_l _ _ sample_reviewed).
  { eapply step_to; [apply (step_review _ _ sample_waiting 7 "tok" (Ok (Some sample_status)))|];
      [vm_compute; discriminate|by left|vm_compute; reflexivity]. }
  apply rtc_once.
  eapply step_to; [apply (step_request _ _ sample_reviewed 66 1 sample_headers)|];
    [vm_compute; discriminate|reflexivity|vm_compute; reflexivity].
Qed.

Lemma admitted_vouched_witness :
  ∃ token t answer,
    extract_bearer sample_headers = Some token ∧
    (t, token, answer) ∈ as_reviews sample_cached ∧ (t <= 66)%Z ∧ (t = 66 ∨ 66 < t + 60)%Z ∧
    vouched ["mx"] answer sample_caller ∧
    ∃ entry, entry ∈ sample_allowlist ∧ sr_namespace entry = ci_namespace sample_caller ∧
      (sr_service_account entry = Any ∨
       sr_service_account entry = Named (ci_service_account sample_caller)).
Proof.
  exact (admitted_vouched ["mx"] sample_allowlist 60 sample_cached 66 1 sample_headers sample_caller
           sample_run (list_elem_of_here _ _)).
Defined.

Definition sample_config : ServerConfig :=
  MkServerConfig (sc_server ServerConfig_default) 
    (MkCacheConfig (cc_eviction (sc_cache ServerConfig_default)) [RootDir; Normal "cache"] None)
    (sc_logging ServerConfig_default)
    (MkSecurityConfig (Some Enforce) ["mx"] sample_allowlist 60 (Some Enforce))
    TlsConfig_default.

Lemma isolated_callers_scoped_witness :
  validate [RootDir] {[ [RootDir] := DirNode ]} sample_config = Ok () ∧
  scope_namespace true (Some "team-a") = Ok (Some "team-a") ∧
  scope true (Some "team-a") = Ok (Some (MkTenant "team-a")).
Proof.
  assert (validate [RootDir] {[ [RootDir] := DirNode ]} sample_config = Ok ()) as Hv
    by (vm_compute; reflexivity).
  assert (Forall ref_wf sample_allowlist) as Hwf
    by (constructor; [split; vm_compute; reflexivity|constructor]).
  exact (conj Hv (proj2 (isolated_callers_scoped [RootDir] {[ [RootDir] := DirNode ]} sample_config
           sample_cached 66 1 sample_headers sample_caller Hv eq_refl Hwf sample_run
           (list_elem_of_here _ _)))).
Defined.
