(* ===== verification/RedisServer.v ===== *)
(** * The other Redis commands: strings, sets, sorted sets, expiry

    [RedisStore] has the hash commands; the refit and collective scripts also use
    strings, sets, sorted sets and key expiry.  [RedisServer] names these
    commands and [RedisServerLaws] states their documented effect on four views
    of a key: its hash fields, its string, its set, its sorted set.  A key is
    used with one type throughout (the key prefixes of the scripts are disjoint),
    so the views are independent; the error of a command that meets a key of
    another type is not modelled.  [PEXPIRE] and the [EX] option of [SET] arm a
    timer and change no data; the deletion of an expired key is a separate step
    ([redis_del]) that the environment takes.  [redis_db] is a concrete server. *)

From Stdlib Require Import ZArith Lia Ascii String.
From stdpp Require Import base tactics option list gmap fin_maps fin_map_dom fin_sets strings.
From S2P Require Import Prelude RustStr RedisStore.

Class RedisServer (DB : Type) `{RedisStore DB} := {
  str_get : string -> DB -> option string;
  str_set : string -> string -> DB -> DB;
  smembers : string -> DB -> list string;
  sadd : string -> string -> DB -> DB;
  srem : string -> string -> DB -> DB;
  zentries : string -> DB -> list (string * Z);
  zadd : string -> Z -> string -> DB -> DB;
  zrem : string -> string -> DB -> DB;
  (** [ZREMRANGEBYSCORE key -inf max]. *)
  zremrange_to : string -> Z -> DB -> DB;
  pexpire : string -> string -> DB -> DB
}.

(** ** Views of a key *)

Section views.
Context {DB : Type} `{RedisServer DB}.

Definition hfields (k : string) (db : DB) : gmap string string := list_to_map (hgetall k db).
Definition set_at (k : string) (db : DB) : gset string := list_to_set (smembers k db).
Definition zset_at (k : string) (db : DB) : gmap string Z := list_to_map (zentries k db).

(** Which views two states share. *)
Definition same_hashes (db db' : DB) : Prop := forall k f, hget k f db' = hget k f db.
Definition same_strs (db db' : DB) : Prop := forall k, str_get k db' = str_get k db.
Definition same_sets (db db' : DB) : Prop := forall k, set_at k db' = set_at k db.
Definition same_zsets (db db' : DB) : Prop := forall k, zset_at k db' = zset_at k db.
End views.

Class RedisServerLaws (DB : Type) `{RedisServer DB} : Prop := {
  smembers_NoDup : forall k (db : DB), NoDup (smembers k db);
  zentries_NoDup : forall k (db : DB), NoDup (zentries k db).*1;
  (** Hash commands. *)
  hset_frame : forall k f v (db : DB),
    same_strs db (hset k f v db) ∧ same_sets db (hset k f v db) ∧ same_zsets db (hset k f v db);
  hdel_frame : forall k f (db : DB),
    same_strs db (hdel k f db) ∧ same_sets db (hdel k f db) ∧ same_zsets db (hdel k f db);
  (** [DEL] removes a key of any type. *)
  str_get_del : forall k k' (db : DB),
    str_get k' (redis_del k db) = if decide (k' = k) then None else str_get k' db;
  set_at_del : forall k k' (db : DB),
    set_at k' (redis_del k db) = if decide (k' = k) then ∅ else set_at k' db;
  zset_at_del : forall k k' (db : DB),
    zset_at k' (redis_del k db) = if decide (k' = k) then ∅ else zset_at k' db;
  (** Strings. *)
  str_get_set : forall k v k' (db : DB),
    str_get k' (str_set k v db) = if decide (k' = k) then Some v else str_get k' db;
  str_set_frame : forall k v (db : DB),
    same_hashes db (str_set k v db) ∧ same_sets db (str_set k v db) ∧
    same_zsets db (str_set k v db);
  (** Sets. *)
  set_at_sadd : forall k m k' (db : DB),
    set_at k' (sadd k m db) = if decide (k' = k) then {[m]} ∪ set_at k' db else set_at k' db;
  sadd_frame : forall k m (db : DB),
    same_hashes db (sadd k m db) ∧ same_strs db (sadd k m db) ∧ same_zsets db (sadd k m db);
  set_at_srem : forall k m k' (db : DB),
    set_at k' (srem k m db) = if decide (k' = k) then set_at k' db ∖ {[m]} else set_at k' db;
  srem_frame : forall k m (db : DB),
    same_hashes db (srem k m db) ∧ same_strs db (srem k m db) ∧ same_zsets db (srem k m db);
  (** Sorted sets. *)
  zset_at_zadd : forall k s m k' (db : DB),
    zset_at k' (zadd k s m db) =
    if decide (k' = k) then <[m := s]> (zset_at k' db) else zset_at k' db;
  zadd_frame : forall k s m (db : DB),
    same_hashes db (zadd k s m db) ∧ same_strs db (zadd k s m db) ∧ same_sets db (zadd k s m db);
  zset_at_zrem : forall k m k' (db : DB),
    zset_at k' (zrem k m db) = if decide (k' = k) then delete m (zset_at k' db) else zset_at k' db;
  zrem_frame : forall k m (db : DB),
    same_hashes db (zrem k m db) ∧ same_strs db (zrem k m db) ∧ same_sets db (zrem k m db);
  zset_at_zremrange : forall k hi k' (db : DB),
    zset_at k' (zremrange_to k hi db) =
    if decide (k' = k) then filter (fun e => (hi < e.2)%Z) (zset_at k' db) else zset_at k' db;
  zremrange_frame : forall k hi (db : DB),
    same_hashes db (zremrange_to k hi db) ∧ same_strs db (zremrange_to k hi db) ∧
    same_sets db (zremrange_to k hi db);
  (** Timers change no data. *)
  pexpire_frame : forall k ms (db : DB),
    same_hashes db (pexpire k ms db) ∧ same_strs db (pexpire k ms db) ∧
    same_sets db (pexpire k ms db) ∧ same_zsets db (pexpire k ms db)
}.

(** Numbers that a script concatenates to a string: Lua prints them with 14
    significant digits. *)
Class LuaConcat := { lua_concat : Z -> string }.

Definition lua_concat_max : Z := 10 ^ 14.

Class LuaConcatLaws `{LuaConcat} : Prop := {
  lua_concat_decimal : forall z, (0 <= z < lua_concat_max)%Z -> lua_concat z = decimal z
}.

(** ** Derived commands and lemmas *)

Section commands.
Context {DB : Type} `{RedisServer DB}.
Implicit Types db : DB.

(** [HVALS], [HKEYS], [HLEN], [HEXISTS], [SCARD], [ZCARD]. *)
Definition hvals (k : string) db : list string := (hgetall k db).*2.
Definition hkeys (k : string) db : list string := (hgetall k db).*1.
Definition hlen (k : string) db : nat := length (hgetall k db).
Definition hexists (k f : string) db : bool :=
  match hget k f db with Some _ => true | None => false end.
Definition scard (k : string) db : nat := length (smembers k db).
Definition zcard (k : string) db : nat := length (zentries k db).

Context `{!RedisStoreLaws DB, !RedisServerLaws DB}.

Lemma hfields_lookup k f db : hfields k db !! f = hget k f db.
Proof.
  apply option_eq. intros v. unfold hfields.
  rewrite <- elem_of_list_to_map by apply hgetall_NoDup. apply elem_of_hgetall.
Qed.

Lemma hgetall_hfields k db : hgetall k db ≡ₚ map_to_list (hfields k db).
Proof. unfold hfields. by rewrite map_to_list_to_map by apply hgetall_NoDup. Qed.

Lemma hlen_size k db : hlen k db = size (hfields k db).
Proof. unfold hlen. by rewrite hgetall_hfields, length_map_to_list. Qed.

Lemma elem_of_hvals k v db : v ∈ hvals k db ↔ ∃ f, hget k f db = Some v.
Proof.
  unfold hvals. rewrite list_elem_of_fmap. split.
  - intros ([f v'] & -> & Hin%elem_of_hgetall). eauto.
  - intros [f Hf%elem_of_hgetall]. by exists (f, v).
Qed.

Lemma length_hvals k db : length (hvals k db) = size (hfields k db).
Proof. unfold hvals. by rewrite length_fmap, <- hlen_size. Qed.

Lemma hfields_ext k k' db db' :
  (forall f, hget k' f db' = hget k f db) -> hfields k' db' = hfields k db.
Proof. intros Heq. apply map_eq. intros f. by rewrite !hfields_lookup. Qed.

Lemma hfields_nil k db : hgetall k db = [] ↔ hfields k db = ∅.
Proof.
  rewrite hgetall_nil. split.
  - intros Hn. apply map_eq. intros f. by rewrite hfields_lookup, lookup_empty.
  - intros He f. by rewrite <- hfields_lookup, He, lookup_empty.
Qed.

(** [EXISTS] on a hash. *)
Lemma redis_exists_true k db : redis_exists k db = true ↔ ∃ f v, hget k f db = Some v.
Proof.
  unfold redis_exists. rewrite negb_true_iff, bool_decide_eq_false, hgetall_nil.
  split.
  - intros Hn. destruct (map_choose (hfields k db)) as (f & v & Hfv).
    + intros He. apply Hn. intros f. by rewrite <- hfields_lookup, He, lookup_empty.
    + exists f, v. by rewrite <- hfields_lookup.
  - intros (f & v & Hf) Hn. by rewrite Hn in Hf.
Qed.

Lemma redis_exists_false k db : redis_exists k db = false ↔ forall f, hget k f db = None.
Proof.
  unfold redis_exists. by rewrite negb_false_iff, bool_decide_eq_true, hgetall_nil.
Qed.

Lemma hget_redis_exists k f v db : hget k f db = Some v -> redis_exists k db = true.
Proof. intros Hf. apply redis_exists_true. eauto. Qed.

Lemma elem_of_smembers k m db : m ∈ smembers k db ↔ m ∈ set_at k db.
Proof. unfold set_at. set_solver. Qed.

Lemma scard_size k db : scard k db = size (set_at k db).
Proof.
  unfold scard, set_at. by rewrite size_list_to_set by apply smembers_NoDup.
Qed.

Lemma zcard_size k db : zcard k db = size (zset_at k db).
Proof.
  unfold zcard, zset_at. rewrite <- length_map_to_list.
  by rewrite map_to_list_to_map by apply zentries_NoDup.
Qed.

(** The hash view under the other commands. *)
Lemma hget_sadd k m k' f db : hget k' f (sadd k m db) = hget k' f db.
Proof. apply (sadd_frame k m db). Qed.
Lemma hget_srem k m k' f db : hget k' f (srem k m db) = hget k' f db.
Proof. apply (srem_frame k m db). Qed.
Lemma hget_str_set k v k' f db : hget k' f (str_set k v db) = hget k' f db.
Proof. apply (str_set_frame k v db). Qed.
Lemma hget_zadd k s m k' f db : hget k' f (zadd k s m db) = hget k' f db.
Proof. apply (zadd_frame k s m db). Qed.
Lemma hget_zrem k m k' f db : hget k' f (zrem k m db) = hget k' f db.
Proof. apply (zrem_frame k m db). Qed.
Lemma hget_zremrange k hi k' f db : hget k' f (zremrange_to k hi db) = hget k' f db.
Proof. apply (zremrange_frame k hi db). Qed.
Lemma hget_pexpire k ms k' f db : hget k' f (pexpire k ms db) = hget k' f db.
Proof. apply (pexpire_frame k ms db). Qed.

Lemma set_at_hset k f v k' db : set_at k' (hset k f v db) = set_at k' db.
Proof. apply (hset_frame k f v db). Qed.
Lemma set_at_hdel k f k' db : set_at k' (hdel k f db) = set_at k' db.
Proof. apply (hdel_frame k f db). Qed.
Lemma set_at_str_set k v k' db : set_at k' (str_set k v db) = set_at k' db.
Proof. apply (str_set_frame k v db). Qed.
Lemma set_at_zadd k s m k' db : set_at k' (zadd k s m db) = set_at k' db.
Proof. apply (zadd_frame k s m db). Qed.
Lemma set_at_zrem k m k' db : set_at k' (zrem k m db) = set_at k' db.
Proof. apply (zrem_frame k m db). Qed.
Lemma set_at_zremrange k hi k' db : set_at k' (zremrange_to k hi db) = set_at k' db.
Proof. apply (zremrange_frame k hi db). Qed.
Lemma set_at_pexpire k ms k' db : set_at k' (pexpire k ms db) = set_at k' db.
Proof. apply (pexpire_frame k ms db). Qed.

Lemma str_get_hset k f v k' db : str_get k' (hset k f v db) = str_get k' db.
Proof. apply (hset_frame k f v db). Qed.
Lemma str_get_hdel k f k' db : str_get k' (hdel k f db) = str_get k' db.
Proof. apply (hdel_frame k f db). Qed.
Lemma str_get_sadd k m k' db : str_get k' (sadd k m db) = str_get k' db.
Proof. apply (sadd_frame k m db). Qed.
Lemma str_get_srem k m k' db : str_get k' (srem k m db) = str_get k' db.
Proof. apply (srem_frame k m db). Qed.
Lemma str_get_zadd k s m k' db : str_get k' (zadd k s m db) = str_get k' db.
Proof. apply (zadd_frame k s m db). Qed.
Lemma str_get_zrem k m k' db : str_get k' (zrem k m db) = str_get k' db.
Proof. apply (zrem_frame k m db). Qed.
Lemma str_get_zremrange k hi k' db : str_get k' (zremrange_to k hi db) = str_get k' db.
Proof. apply (zremrange_frame k hi db). Qed.
Lemma str_get_pexpire k ms k' db : str_get k' (pexpire k ms db) = str_get k' db.
Proof. apply (pexpire_frame k ms db). Qed.

Lemma zset_at_hset k f v k' db : zset_at k' (hset k f v db) = zset_at k' db.
Proof. apply (hset_frame k f v db). Qed.
Lemma zset_at_hdel k f k' db : zset_at k' (hdel k f db) = zset_at k' db.
Proof. apply (hdel_frame k f db). Qed.
Lemma zset_at_str_set k v k' db : zset_at k' (str_set k v db) = zset_at k' db.
Proof. apply (str_set_frame k v db). Qed.
Lemma zset_at_sadd k m k' db : zset_at k' (sadd k m db) = zset_at k' db.
Proof. apply (sadd_frame k m db). Qed.
Lemma zset_at_srem k m k' db : zset_at k' (srem k m db) = zset_at k' db.
Proof. apply (srem_frame k m db). Qed.
Lemma zset_at_pexpire k ms k' db : zset_at k' (pexpire k ms db) = zset_at k' db.
Proof. apply (pexpire_frame k ms db). Qed.

(** Multi-field commands. *)
Lemma hset_all_frame k fvs db :
  same_strs db (hset_all k fvs db) ∧ same_sets db (hset_all k fvs db) ∧
  same_zsets db (hset_all k fvs db).
Proof.
  unfold hset_all. revert db. induction fvs as [|[f v] fvs IH]; intros db; cbn [foldl].
  { done. }
  destruct (IH (hset k f v db)) as (H1 & H2 & H3), (hset_frame k f v db) as (G1 & G2 & G3).
  split_and!; intros k'; [rewrite H1|rewrite H2|rewrite H3]; auto.
Qed.

Lemma set_at_hset_all k fvs k' db : set_at k' (hset_all k fvs db) = set_at k' db.
Proof. apply (hset_all_frame k fvs db). Qed.
Lemma str_get_hset_all k fvs k' db : str_get k' (hset_all k fvs db) = str_get k' db.
Proof. apply (hset_all_frame k fvs db). Qed.
Lemma zset_at_hset_all k fvs k' db : zset_at k' (hset_all k fvs db) = zset_at k' db.
Proof. apply (hset_all_frame k fvs db). Qed.

(** One law for a multi-field [HSET] on all keys. *)
Lemma hget_hset_all_if k fvs k' f db :
  hget k' f (hset_all k fvs db) =
  if decide (k' = k) then from_option Some (hget k' f db) (assoc_last f fvs) else hget k' f db.
Proof.
  case_decide as Hk; [subst k'|by apply hget_hset_all_ne].
  rewrite hget_hset_all. by destruct (assoc_last f fvs).
Qed.

Lemma set_at_del_all ks k db :
  set_at k (del_all ks db) = if decide (k ∈ ks) then ∅ else set_at k db.
Proof.
  unfold del_all. revert db. induction ks as [|k' ks IH]; intros db; cbn [foldl].
  { by rewrite decide_False by set_solver. }
  rewrite IH, set_at_del. repeat case_decide; set_solver.
Qed.

Lemma hfields_hset k f v db : hfields k (hset k f v db) = <[f := v]> (hfields k db).
Proof.
  apply map_eq. intros f'. rewrite hfields_lookup, hget_hset.
  destruct (decide (f' = f)) as [->|Hne].
  - by rewrite decide_True, lookup_insert_eq.
  - rewrite decide_False by naive_solver. by rewrite lookup_insert_ne, hfields_lookup.
Qed.

Lemma hfields_hdel k f db : hfields k (hdel k f db) = delete f (hfields k db).
Proof.
  apply map_eq. intros f'. rewrite hfields_lookup, hget_hdel.
  destruct (decide (f' = f)) as [->|Hne].
  - by rewrite decide_True, lookup_delete_eq.
  - rewrite decide_False by naive_solver. by rewrite lookup_delete_ne, hfields_lookup.
Qed.
End commands.

(** Rewriting every view through every command. *)
Create Rewrite HintDb redis.
#[export] Hint Rewrite @hget_sadd @hget_srem @hget_str_set @hget_zadd @hget_zrem @hget_zremrange
  @hget_pexpire @set_at_hset @set_at_hdel @set_at_str_set @set_at_zadd @set_at_zrem
  @set_at_zremrange @set_at_pexpire @str_get_hset @str_get_hdel @str_get_sadd @str_get_srem
  @str_get_zadd @str_get_zrem @str_get_zremrange @str_get_pexpire @zset_at_hset @zset_at_hdel
  @zset_at_str_set @zset_at_sadd @zset_at_srem @zset_at_pexpire
  @set_at_hset_all @str_get_hset_all @zset_at_hset_all using (apply _) : redis.

(** ** A concrete server *)

Record redis_db : Type := MkRedisDb {
  rd_hashes : hash_store;
  rd_strs : gmap string string;
  rd_sets : gmap string (gset string);
  rd_zsets : gmap string (gmap string Z)
}.

#[export] Instance redis_db_eq_dec : EqDecision redis_db.
Proof. solve_decision. Defined.

Definition redis_empty : redis_db := MkRedisDb ∅ ∅ ∅ ∅.

Definition on_hashes (f : hash_store -> hash_store) (db : redis_db) : redis_db :=
  MkRedisDb (f (rd_hashes db)) (rd_strs db) (rd_sets db) (rd_zsets db).

Definition members (k : string) (db : redis_db) : gset string := default ∅ (rd_sets db !! k).
Definition scores (k : string) (db : redis_db) : gmap string Z := default ∅ (rd_zsets db !! k).

Definition set_members (k : string) (s : gset string) (db : redis_db) : redis_db :=
  MkRedisDb (rd_hashes db) (rd_strs db) (<[k := s]> (rd_sets db)) (rd_zsets db).
Definition set_scores (k : string) (z : gmap string Z) (db : redis_db) : redis_db :=
  MkRedisDb (rd_hashes db) (rd_strs db) (rd_sets db) (<[k := z]> (rd_zsets db)).

#[export] Instance redis_db_store : RedisStore redis_db | 100 := {|
  hget k f db := hget k f (rd_hashes db);
  hset k f v := on_hashes (hset k f v);
  hdel k f := on_hashes (hdel k f);
  redis_del k db := MkRedisDb (redis_del k (rd_hashes db)) (delete k (rd_strs db))
                      (delete k (rd_sets db)) (delete k (rd_zsets db));
  redis_rename k1 k2 := on_hashes (redis_rename k1 k2);
  hgetall k db := hgetall k (rd_hashes db)
|}.

#[export] Instance redis_db_store_laws : RedisStoreLaws redis_db | 100.
Proof.
  split; intros.
  - apply (hget_hset (DB := hash_store)).
  - apply (hget_hdel (DB := hash_store)).
  - apply (hget_del (DB := hash_store)).
  - by apply (hget_rename (DB := hash_store)).
  - apply (elem_of_hgetall (DB := hash_store)).
  - apply (hgetall_NoDup (DB := hash_store)).
Qed.

#[export] Instance redis_db_server : RedisServer redis_db | 100 := {|
  str_get k db := rd_strs db !! k;
  str_set k v db := MkRedisDb (rd_hashes db) (<[k := v]> (rd_strs db)) (rd_sets db) (rd_zsets db);
  smembers k db := elements (members k db);
  sadd k m db := set_members k ({[m]} ∪ members k db) db;
  srem k m db := set_members k (members k db ∖ {[m]}) db;
  zentries k db := map_to_list (scores k db);
  zadd k s m db := set_scores k (<[m := s]> (scores k db)) db;
  zrem k m db := set_scores k (delete m (scores k db)) db;
  zremrange_to k hi db := set_scores k (filter (fun e => (hi < e.2)%Z) (scores k db)) db;
  pexpire _ _ db := db
|}.

Lemma redis_db_set_at k (db : redis_db) : set_at k db = members k db.
Proof. unfold set_at. simpl. set_solver. Qed.

Lemma redis_db_zset_at k (db : redis_db) : zset_at k db = scores k db.
Proof. unfold zset_at. simpl. apply list_to_map_to_list. Qed.

Lemma members_insert k s k' (db : redis_db) :
  members k' (set_members k s db) = if decide (k' = k) then s else members k' db.
Proof.
  unfold members, set_members. simpl. case_decide; [subst|].
  - by rewrite lookup_insert_eq.
  - by rewrite lookup_insert_ne.
Qed.

Lemma scores_insert k z k' (db : redis_db) :
  scores k' (set_scores k z db) = if decide (k' = k) then z else scores k' db.
Proof.
  unfold scores, set_scores. simpl. case_decide; [subst|].
  - by rewrite lookup_insert_eq.
  - by rewrite lookup_insert_ne.
Qed.

#[export] Instance redis_db_server_laws : RedisServerLaws redis_db | 100.
Proof.
  split; intros; repeat split; intros; rewrite ?redis_db_set_at, ?redis_db_zset_at; try done.
  - apply NoDup_elements.
  - apply NoDup_fst_map_to_list.
  - simpl. rewrite lookup_delete. repeat case_decide; congruence.
  - unfold members. simpl. case_decide; [subst; by rewrite lookup_delete_eq|].
    by rewrite lookup_delete_ne.
  - unfold scores. simpl. case_decide; [subst; by rewrite lookup_delete_eq|].
    by rewrite lookup_delete_ne.
  - simpl. rewrite lookup_insert. repeat case_decide; congruence.
  - simpl. rewrite members_insert. by case_decide; subst.
  - simpl. rewrite members_insert. by case_decide; subst.
  - simpl. rewrite scores_insert. by case_decide; subst.
  - simpl. rewrite scores_insert. by case_decide; subst.
  - simpl. rewrite scores_insert. by case_decide; subst.
Qed.

#[export] Instance decimal_concat : LuaConcat | 100 := {| lua_concat := decimal |}.
#[export] Instance decimal_concat_laws : LuaConcatLaws | 100.
Proof. by split. Qed.
