(* ===== verification/RedisProg.v ===== *)
(** * Methods that make several Redis calls

    A backend method is a program: a sequence of atomic calls to the server, each
    depending on the replies before it.  [exec] runs a program alone; [runs] lets
    an environment move the server before every call, which is how the other
    replicas and clients interleave with it. *)

From Stdlib Require Import ZArith Lia Ascii String.
From stdpp Require Import base tactics option list relations.
From S2P Require Import Prelude.

Inductive prog (DB A : Type) : Type :=
| Ret (a : A)
| Call (R : Type) (cmd : DB -> DB * R) (k : R -> prog DB A).

Arguments Ret {DB A} _.
Arguments Call {DB A R} _ _.

(** A command that only reads. *)
Definition Read {DB A R} (f : DB -> R) (k : R -> prog DB A) : prog DB A :=
  Call (fun db => (db, f db)) k.

Fixpoint bind {DB A B} (p : prog DB A) (k : A -> prog DB B) : prog DB B :=
  match p with
  | Ret a => k a
  | Call cmd k' => Call cmd (fun r => bind (k' r) k)
  end.

(** Sequencing, and sequencing with the question-mark operator. *)
Notation "'let!' x ':=' p 'in' k" := (bind p (fun x => k))
  (at level 10, x pattern, p at level 100, k at level 200) : mx_scope.
Notation "'try!' x ':=' p 'in' k" :=
  (bind p (fun r => match r with Ok x => k | Err e => Ret (Err e) end))
  (at level 10, x pattern, p at level 100, k at level 200) : mx_scope.

(** Alone. *)
Fixpoint exec {DB A} (p : prog DB A) (db : DB) : DB * A :=
  match p with
  | Ret a => (db, a)
  | Call cmd k => let '(db, r) := cmd db in exec (k r) db
  end.

(** Interleaved with an environment: the program answers [a] and leaves [db']. *)
Fixpoint runs {DB A} (env : DB -> DB -> Prop) (p : prog DB A) (db : DB) (a : A) (db' : DB) : Prop :=
  match p with
  | Ret b => a = b ∧ db' = db
  | Call cmd k => ∃ db1, env db db1 ∧ runs env (k (cmd db1).2) (cmd db1).1 a db'
  end.

(** The states before each call of a program that runs alone. *)
Fixpoint path {DB A} (p : prog DB A) (db : DB) : list DB :=
  match p with
  | Ret _ => []
  | Call cmd k => db :: path (k (cmd db).2) (cmd db).1
  end.

Section lemmas.
Context {DB : Type} (env : DB -> DB -> Prop).

Lemma exec_bind {A B} (p : prog DB A) (k : A -> prog DB B) db :
  exec (bind p k) db = exec (k (exec p db).2) (exec p db).1.
Proof.
  revert db. induction p as [a|R cmd k' IH]; intros db; simpl; [done|].
  destruct (cmd db) as [db' r]. apply IH.
Qed.

Lemma runs_bind {A B} (p : prog DB A) (k : A -> prog DB B) db b db' :
  runs env (bind p k) db b db' ↔ ∃ a db1, runs env p db a db1 ∧ runs env (k a) db1 b db'.
Proof.
  revert db. induction p as [a|R cmd k' IH]; intros db; simpl.
  - naive_solver.
  - setoid_rewrite IH. naive_solver.
Qed.

(** Running alone is running in an environment that may do nothing. *)
Lemma exec_runs {A} (p : prog DB A) db :
  (forall db, env db db) -> runs env p db (exec p db).2 (exec p db).1.
Proof.
  intros Hrefl. revert db. induction p as [a|R cmd k IH]; intros db; simpl; [done|].
  exists db. split; [apply Hrefl|]. destruct (cmd db) as [db1 r] eqn:E. simpl. apply IH.
Qed.

(** It is enough that the environment may do nothing where it is asked to. *)
Lemma path_runs {A} (p : prog DB A) db :
  Forall (fun d => env d d) (path p db) -> runs env p db (exec p db).2 (exec p db).1.
Proof.
  revert db. induction p as [a|R cmd k IH]; intros db Hp; simpl in *; [done|].
  apply Forall_cons in Hp as [Hd Hp]. exists db. split; [done|].
  destruct (cmd db) as [db1 r] eqn:E. simpl in *. by apply IH.
Qed.
End lemmas.
