(* ===== verification/Json.v ===== *)
(** * JSON values (serde_json and cjson as the backends use them)

    The texts are library code: [JsonText] has serde_json's printer and parser on
    JSON values, and what Lua's cjson reads of a decoded object.  What the derived
    [Serialize] and [Deserialize] of the program's structs do between a value and a
    struct is defined here field by field: unknown fields are ignored, a repeated
    field is an error, a missing field takes its default or is an error.  (serde
    would also take a struct from an array of its fields, a form that nothing in
    the program writes; it is an error here.)

    Merge patches (RFC 7386) are how the API server applies a patch to a stored object:
    the fields of an object are merged one by one, null removes a field, and anything
    else replaces what was there.  The objects of a stored value have no repeated keys,
    and the order of their fields has no meaning. *)

From Stdlib Require Import ZArith Lia Ascii String QArith Qround.
From stdpp Require Import base tactics option list gmap fin_maps strings countable pretty.
From S2P Require Import Prelude RustStr RedisStore P2pTypes.

(** A number is an integer in the range of [i64] or [u64], or else a decimal. *)
Inductive json : Type :=
| JNull
| JBool (b : bool)
| JInt (z : Z)
| JFloat (q : Q)
| JStr (s : string)
| JArr (l : list json)
| JObj (fields : list (string * json)).

(** Every integer of the value fits the parser's integer types. *)
Fixpoint json_ok (v : json) : bool :=
  match v with
  | JInt z => (i64_min <=? z)%Z && (z <=? u64_max)%Z
  | JArr l => forallb json_ok l
  | JObj fields => forallb (fun kv => json_ok kv.2) fields
  | _ => true
  end.

(** The rationals that are values of type f32, in lowest terms. *)
Definition is_f32 (q : Q) : Prop :=
  ∃ m e, (Z.abs m < 2 ^ 24)%Z ∧ (-149 <= e <= 104)%Z ∧ q = Qred (inject_Z m * Qpower 2 e).

Class JsonText := {
  json_print : json -> string;
  json_parse : string -> option json;
  (** [cjson.decode]: a table and [tonumber] of its fields, or no table. *)
  cjson_table : string -> option (string -> option Z);
  (** The decimal that [Display] of a finite f32 prints, the f32 nearest to a
      decimal, and the f64 nearest to a decimal. *)
  f32_shortest : Q -> Q;
  f32_nearest : Q -> Q;
  f64_nearest : Q -> Q;
  (** The [Display] text of a parse error. *)
  json_error : string
}.

Class JsonTextLaws `{JsonText} `{LuaNumbers} : Prop := {
  json_parse_print : forall v, json_ok v = true -> json_parse (json_print v) = Some v;
  f32_nearest_shortest : forall q, is_f32 q -> f32_nearest (f32_shortest q) = q;
  (** An object's text starts with a brace, so it is no number. *)
  json_print_object : forall fields, ∃ t, json_print (JObj fields) = String "{" t;
  lua_tonumber_brace : forall t, lua_tonumber (String "{" t) = None;
  cjson_print_object : forall fields, json_ok (JObj fields) = true -> ∃ g,
    cjson_table (json_print (JObj fields)) = Some g ∧
    forall k z, (k, JInt z) ∈ fields -> NoDup fields.*1 -> (0 <= z <= lua_int_max)%Z -> g k = Some z
}.

(** ** Serialisation *)

Section serialize.
Context `{JsonText} `{HashIter}.

Definition ser_option {A} (ser : A -> json) (o : option A) : json :=
  match o with Some a => ser a | None => JNull end.

(** serde_json writes [null] for a float that is not finite. *)
Definition ser_f32 (v : f32) : json :=
  match v with F32Finite q => JFloat (f32_shortest q) | _ => JNull end.

Definition ser_bytes (l : list Byte.byte) : json :=
  JArr ((fun b => JInt (Z.of_N (Byte.to_N b))) <$> l).

Definition ser_map (m : gmap string string) : json :=
  JObj ((fun kv => (kv.1, JStr kv.2)) <$> hash_entries m).
End serialize.

(** ** Deserialisation *)

Section deserialize.
Context `{JsonText}.

(** The value of a field: an error when the field is repeated. *)
Definition json_field (fields : list (string * json)) (k : string) : option (option json) :=
  match List.filter (fun kv => String.eqb kv.1 k) fields with
  | [] => Some None
  | [kv] => Some (Some kv.2)
  | _ => None
  end.

(** A field with [#[serde(default)]], and a required one. *)
Definition de_default {A} (de : json -> option A) (d : A) (fields : list (string * json))
    (k : string) : option A :=
  match json_field fields k with
  | None => None
  | Some None => Some d
  | Some (Some v) => de v
  end.

Definition de_required {A} (de : json -> option A) (fields : list (string * json)) (k : string)
    : option A :=
  match json_field fields k with
  | Some (Some v) => de v
  | _ => None
  end.

Definition de_string (v : json) : option string :=
  match v with JStr s => Some s | _ => None end.

Definition de_int (lo hi : Z) (v : json) : option Z :=
  match v with
  | JInt z => if (lo <=? z)%Z && (z <=? hi)%Z then Some z else None
  | _ => None
  end.

Definition de_u32 : json -> option Z := de_int 0 u32_max.
Definition de_i32 : json -> option Z := de_int (- 2 ^ 31) (2 ^ 31 - 1).
Definition de_i64 : json -> option Z := de_int i64_min i64_max.

Definition de_f32 (v : json) : option f32 :=
  match v with
  | JInt z => Some (F32Finite (f32_nearest (inject_Z z)))
  | JFloat q => Some (F32Finite (f32_nearest q))
  | _ => None
  end.

Definition de_option {A} (de : json -> option A) (v : json) : option (option A) :=
  match v with JNull => Some None | _ => Some <$> de v end.

Definition de_list {A} (de : json -> option A) (v : json) : option (list A) :=
  match v with JArr l => mapM de l | _ => None end.

Definition de_bytes : json -> option (list Byte.byte) :=
  de_list (fun v => z ← de_int 0 255 v; Byte.of_N (Z.to_N z)).

(** A [HashMap]: a repeated key keeps its last value. *)
Definition de_map (v : json) : option (gmap string string) :=
  match v with
  | JObj fields =>
      foldl (fun acc kv => m ← acc; s ← de_string kv.2; Some (<[kv.1 := s]> m)) (Some ∅) fields
  | _ => None
  end.

Definition de_struct {A} (de : list (string * json) -> option A) (v : json) : option A :=
  match v with JObj fields => de fields | _ => None end.

(** [serde_json::from_str]. *)
Definition from_str {A} (de : json -> option A) (text : string) : option A :=
  json_parse text ≫= de.
End deserialize.

(** ** Round trips of the pieces *)

Section roundtrips.
Context `{JsonTextLaws} `{HashIter, !HashIterLaws}.

Lemma de_ser_bytes l : de_bytes (ser_bytes l) = Some l.
Proof.
  unfold de_bytes, de_list, ser_bytes. induction l as [|b l IH]; [done|]. cbn [fmap list_fmap mapM].
  pose proof (Byte.to_N_bounded b) as Hb. cbn [de_int].
  replace (Z.of_N (Byte.to_N b) <=? 255)%Z with true by lia.
  replace (0 <=? Z.of_N (Byte.to_N b))%Z with true by lia. cbn.
  rewrite N2Z.id, Byte.of_to_N. cbn. by rewrite IH.
Qed.

Lemma de_map_foldl l m0 :
  foldl (fun acc kv => m ← acc; s ← de_string kv.2; Some (<[kv.1 := s]> m)) (Some m0)
    ((fun kv : string * string => (kv.1, JStr kv.2)) <$> l) =
  Some (foldl (fun (m : gmap string string) kv => <[kv.1 := kv.2]> m) m0 l).
Proof. revert m0. induction l as [|[k s] l IH]; intros m0; [done|]. cbn. apply IH. Qed.

Lemma foldl_insert_lookup (l : list (string * string)) (m0 : gmap string string) k :
  NoDup l.*1 ->
  foldl (fun m kv => <[kv.1 := kv.2]> m) m0 l !! k =
  match (list_to_map l : gmap string string) !! k with Some v => Some v | None => m0 !! k end.
Proof.
  revert m0. induction l as [|[k' s] l IH]; intros m0 Hnd; cbn; [by rewrite lookup_empty|].
  apply NoDup_cons in Hnd as [Hk Hnd]. rewrite IH by done.
  destruct (decide (k = k')) as [->|Hne].
  - rewrite lookup_insert_eq. by rewrite not_elem_of_list_to_map_1, lookup_insert_eq.
  - rewrite !lookup_insert_ne by done. done.
Qed.

Lemma de_ser_map m : de_map (ser_map m) = Some m.
Proof.
  unfold ser_map, de_map. rewrite de_map_foldl. f_equal.
  assert (NoDup (hash_entries m).*1) as Hnd.
  { rewrite hash_entries_perm. apply NoDup_fst_map_to_list. }
  apply map_eq. intros k. rewrite foldl_insert_lookup by done. rewrite lookup_empty.
  rewrite (list_to_map_proper (hash_entries m) (map_to_list m)); [|done|apply hash_entries_perm].
  rewrite list_to_map_to_list. by destruct (m !! k).
Qed.

Lemma ser_map_ok m : json_ok (ser_map m) = true.
Proof.
  unfold ser_map. cbn. rewrite forallb_forall. intros kv Hin.
  apply in_map_iff in Hin as (? & <- & _). done.
Qed.

Lemma ser_bytes_ok l : json_ok (ser_bytes l) = true.
Proof.
  unfold ser_bytes. cbn. rewrite forallb_forall. intros v Hin.
  apply in_map_iff in Hin as (b & <- & _). cbn.
  pose proof (Byte.to_N_bounded b). unfold i64_min, u64_max. lia.
Qed.

(** Only a finite load survives. *)
Definition stored_load (o : option f32) : option f32 :=
  o ≫= fun v => if f32_is_finite v then Some v else None.

Definition load_typed (o : option f32) : Prop :=
  match o with Some (F32Finite q) => is_f32 q | _ => True end.

Lemma de_ser_load o :
  load_typed o -> de_option de_f32 (ser_option ser_f32 o) = Some (stored_load o).
Proof.
  destruct o as [[q| |]|]; cbn; try done. intros Hq. by rewrite f32_nearest_shortest.
Qed.

Lemma ser_load_ok o : json_ok (ser_option ser_f32 o) = true.
Proof. by destruct o as [[]|]. Qed.

Lemma de_int_in lo hi z : (lo <= z <= hi)%Z -> de_int lo hi (JInt z) = Some z.
Proof.
  intros Hz. cbn. replace (lo <=? z)%Z with true by lia.
  replace (z <=? hi)%Z with true by lia. done.
Qed.

Lemma de_ser_list {A} (ser : A -> json) (de : json -> option A) l :
  (forall a, a ∈ l -> de (ser a) = Some a) -> de_list de (JArr (ser <$> l)) = Some l.
Proof.
  cbn. induction l as [|a l IH]; intros Hall; [done|]. cbn.
  rewrite Hall by set_solver. cbn. rewrite IH by set_solver. done.
Qed.

Lemma de_ser_option {A} (ser : A -> json) (de : json -> option A) o :
  (forall a, ser a ≠ JNull) -> (forall a, o = Some a -> de (ser a) = Some a) ->
  de_option de (ser_option ser o) = Some o.
Proof.
  intros Hnull Hall. destruct o as [a|]; cbn; [|done].
  specialize (Hall a eq_refl). specialize (Hnull a). unfold de_option.
  destruct (ser a); rewrite ?Hall; done.
Qed.
End roundtrips.

(** ** Merge patches *)

Abbreviation json_map := (gmap string json).

Definition object_map (v : json) : json_map :=
  match v with JObj fields => list_to_map fields | _ => ∅ end.

Definition put_field (m : json_map) (k : string) (v : json) : json_map :=
  match v with JNull => delete k m | _ => <[k := v]> m end.

Fixpoint merge_json (patch target : json) {struct patch} : json :=
  match patch with
  | JObj fields =>
      JObj (map_to_list
        ((fix go (fields : list (string * json)) (m : json_map) : json_map :=
            match fields with
            | [] => m
            | (k, v) :: fields =>
                go fields (match v with
                           | JNull => delete k m
                           | _ => <[k := merge_json v (default JNull (m !! k))]> m
                           end)
            end) fields (object_map target)))
  | _ => patch
  end.

(** The loop over the fields, by name. *)
Fixpoint merge_fields (fields : list (string * json)) (m : json_map) : json_map :=
  match fields with
  | [] => m
  | (k, v) :: fields =>
      merge_fields fields
        (match v with JNull => delete k m | _ => <[k := merge_json v (default JNull (m !! k))]> m end)
  end.

Lemma merge_json_object fields target :
  merge_json (JObj fields) target = JObj (map_to_list (merge_fields fields (object_map target))).
Proof. reflexivity. Qed.

(** A value that is not an object replaces the target. *)
Definition json_leaf (v : json) : Prop := match v with JObj _ => False | _ => True end.

Lemma merge_json_leaf v target : json_leaf v -> merge_json v target = v.
Proof. by destruct v. Qed.

(** The value of a field after a patch that names no field twice. *)
Definition patched (v : option json) (old : option json) : option json :=
  match v with
  | None => old
  | Some JNull => None
  | Some v => Some (merge_json v (default JNull old))
  end.

Lemma merge_fields_lookup fields m k :
  NoDup fields.*1 ->
  merge_fields fields m !! k = patched ((list_to_map fields : json_map) !! k) (m !! k).
Proof.
  revert m. induction fields as [|[k' v] fields IH]; intros m Hnd; [done|].
  cbn in Hnd. apply NoDup_cons in Hnd as [Hk Hnd]. cbn [merge_fields]. rewrite IH by done. cbn.
  destruct (decide (k = k')) as [->|Hne].
  - rewrite lookup_insert_eq. rewrite (not_elem_of_list_to_map_1 _ _ Hk). cbn [patched].
    destruct v; by rewrite ?lookup_insert_eq, ?lookup_delete_eq.
  - rewrite lookup_insert_ne by done.
    assert ((match v with JNull => delete k' m | _ => <[k' := merge_json v (default JNull (m !! k'))]> m end) !! k
            = m !! k) as ->; [|done].
    destruct v; by rewrite ?lookup_insert_ne, ?lookup_delete_ne.
Qed.

(** ** Reading the fields of a merged object *)

Lemma json_field_map (m : json_map) k : json_field (map_to_list m) k = Some (m !! k).
Proof.
  unfold json_field. pose proof (NoDup_fst_map_to_list m) as Hnd.
  assert (forall v, (k, v) ∈ map_to_list m ↔ m !! k = Some v) as Hin by (intros v; apply elem_of_map_to_list).
  revert Hnd Hin. generalize (m !! k) as o. generalize (map_to_list m) as l.
  assert (forall l : list (string * json), (forall v, (k, v) ∉ l) ->
    List.filter (fun kv => String.eqb kv.1 k) l = []) as Hnone.
  { induction l as [|[k' v'] l IH]; intros Hno; [done|]. cbn. destruct (String.eqb_spec k' k) as [->|_].
    - destruct (Hno v'). by left.
    - apply IH. intros v Hv. apply (Hno v). by right. }
  induction l as [|[k' v'] l IH]; intros o Hnd Hin.
  - cbn. destruct o as [v|]; [|done]. specialize (Hin v). set_solver.
  - cbn in Hnd. apply NoDup_cons in Hnd as [Hk Hnd]. cbn. destruct (String.eqb_spec k' k) as [->|Hne].
    + rewrite Hnone.
      * assert (o = Some v') as -> by (apply Hin; by left). done.
      * intros v Hv. apply Hk. apply list_elem_of_fmap. by exists (k, v).
    + rewrite (IH o); [done|done|]. intros v. rewrite <- Hin, elem_of_cons. naive_solver.
Qed.

(** What a successful reading of a field says of the map of the fields. *)
Lemma json_field_lookup fields k o :
  json_field fields k = Some o -> (list_to_map fields : json_map) !! k = o.
Proof.
  unfold json_field. revert o. induction fields as [|[k' v'] fields IH]; intros o; cbn.
  - by intros [= <-].
  - destruct (String.eqb_spec k' k) as [->|Hne].
    + rewrite lookup_insert_eq. by destruct (List.filter _ fields); intros [= <-].
    + rewrite lookup_insert_ne by done. apply IH.
Qed.

(** ** Maps of strings *)

Definition string_fields (m : gmap string string) : json_map := JStr <$> m.

Lemma de_map_map (m : gmap string string) : de_map (JObj (map_to_list (string_fields m))) = Some m.
Proof.
  cbn. assert (map_to_list (string_fields m) ≡ₚ (fun kv => (kv.1, JStr kv.2)) <$> map_to_list m) as Hp.
  { unfold string_fields. rewrite map_to_list_fmap. apply reflexive_eq. apply list_fmap_ext. by intros ? []. }
  set (l := map_to_list (string_fields m)) in *.
  assert (∃ l', l = (fun kv : string * string => (kv.1, JStr kv.2)) <$> l' ∧ l' ≡ₚ map_to_list m)
    as (l' & -> & Hl').
  { apply Permutation_map_inv in Hp as (l' & -> & Hp). by exists l'. }
  rewrite de_map_foldl. f_equal.
  assert (NoDup l'.*1) as Hnd by (rewrite Hl'; apply NoDup_fst_map_to_list).
  apply map_eq. intros k. rewrite foldl_insert_lookup by done. rewrite lookup_empty.
  rewrite (list_to_map_proper l' (map_to_list m)), list_to_map_to_list by done. by destruct (m !! k).
Qed.

Lemma de_map_fields fields m :
  NoDup fields.*1 -> de_map (JObj fields) = Some m -> (list_to_map fields : json_map) = string_fields m.
Proof.
  intros Hnd. cbn.
  assert (forall acc, foldl (fun acc kv => m ← acc; s ← de_string kv.2; Some (<[kv.1 := s]> m)) (Some acc) fields = Some m ->
    ∃ l, fields = (fun kv : string * string => (kv.1, JStr kv.2)) <$> l) as Hstr.
  { clear Hnd. induction fields as [|[k v] fields IH]; intros acc Hf; [by exists []|]. cbn in Hf.
    destruct (de_string v) as [s|] eqn:Hv; cbn in Hf.
    - destruct (IH _ Hf) as [l ->]. exists ((k, s) :: l). destruct v; by inversion Hv.
    - exfalso. clear -Hf. induction fields as [|f fields IHn]; [done|by apply IHn]. }
  intros Hf. destruct (Hstr _ Hf) as [l ->]. rewrite de_map_foldl in Hf. injection Hf as <-.
  assert (NoDup l.*1) as Hnd'.
  { rewrite <- list_fmap_compose in Hnd. erewrite list_fmap_ext; [exact Hnd|]. by intros ? []. }
  apply map_eq. intros k. unfold string_fields. rewrite lookup_fmap, foldl_insert_lookup by done.
  rewrite lookup_empty. clear Hnd Hnd' Hstr.
  induction l as [|[k' s] l IH]; cbn; [by rewrite !lookup_empty|].
  destruct (decide (k = k')) as [->|Hne]; [by rewrite !lookup_insert_eq|].
  rewrite !lookup_insert_ne by done. exact IH.
Qed.

(** A map merged into another one: the patch wins, what it does not name stays. *)
Lemma merge_map `{HashIter, !HashIterLaws} (m old : gmap string string) target :
  object_map target = string_fields old ->
  de_map (merge_json (ser_map m) target) = Some (m ∪ old).
Proof.
  intros Htarget. unfold ser_map. rewrite merge_json_object, Htarget.
  replace (merge_fields _ (string_fields old)) with (string_fields (m ∪ old)); [apply de_map_map|].
  assert (NoDup (hash_entries m).*1) as Hnd.
  { rewrite hash_entries_perm. apply NoDup_fst_map_to_list. }
  apply map_eq. intros k. rewrite merge_fields_lookup.
  2:{ rewrite <- list_fmap_compose. erewrite list_fmap_ext; [exact Hnd|]. by intros ? []. }
  unfold string_fields. rewrite !lookup_fmap, lookup_union.
  assert ((list_to_map ((fun kv : string * string => (kv.1, JStr kv.2)) <$> hash_entries m) : json_map) !! k
          = JStr <$> m !! k) as ->.
  { rewrite <- (list_to_map_to_list m) at 2.
    rewrite <- (list_to_map_proper (hash_entries m) (map_to_list m)); [|done|apply hash_entries_perm].
    clear Hnd. induction (hash_entries m) as [|[k' s] l IH]; cbn; [by rewrite !lookup_empty|].
    destruct (decide (k = k')) as [->|Hne]; [by rewrite !lookup_insert_eq|].
    rewrite !lookup_insert_ne by done. exact IH. }
  destruct (m !! k) as [s|]; cbn; [by destruct (old !! k)|]. by destruct (old !! k).
Qed.
