(* ===== verification/P2pRedis.v ===== *)
(** * Redis backend of the P2P metadata (p2p/backend/redis.rs)

    The stored structs with their derived JSON forms, the two Lua scripts, and one
    program per method of the trait.  A pipeline that is not atomic is a sequence of
    calls; the pages that SCAN returns are an argument of the listings.  A method
    ends in an error where the code does; lost connections are not modelled. *)

From Stdlib Require Import ZArith Lia Ascii String QArith Qround.
From stdpp Require Import base tactics option list sorting gmap fin_maps strings pretty.
From S2P Require Import Prelude RustStr RedisStore RedisServer RedisProg P2pTypes.
From S2P Require Import SourceIdentityHash P2pBackend Json.

Module RedisMeta.

(** ** Keys *)

Definition SOURCE_PREFIX : string := "mx:source:".
Definition ATTRIBUTES_FIELD : string := "__attributes__".
Definition STATUS_FIELD_PREFIX : string := "status:".

Definition source_key (source_id : string) : string := SOURCE_PREFIX +:+ source_id.
Definition worker_key (source_id worker_id : string) : string :=
  SOURCE_PREFIX +:+ source_id +:+ ":" +:+ worker_id.
Definition status_field (worker_rank : Z) : string := STATUS_FIELD_PREFIX +:+ decimal worker_rank.

(** ** Stored structs *)

Record SourceAttributesJson : Type := MkAttributes {
  sa_model_name : string;
  sa_mx_version : string;
  sa_mx_source_type : Z;
  sa_backend_framework : Z;
  sa_tensor_parallel_size : Z;
  sa_pipeline_parallel_size : Z;
  sa_expert_parallel_size : Z;
  sa_dtype : string;
  sa_quantization : string;
  sa_extra_parameters : gmap string string;
  sa_revision : string;
  sa_backend_framework_version : string;
  sa_torch_version : string;
  sa_cuda_version : string;
  sa_triton_version : string;
  sa_gpu_arch : string;
  sa_compile_config_digest : string
}.

Definition default_attributes : SourceAttributesJson :=
  MkAttributes "" "" 0 0 0 0 0 "" "" ∅ "" "" "" "" "" "" "".

Record TensorRecordJson : Type := MkTensorJson {
  tj_name : string; tj_addr : Z; tj_size : Z; tj_device_id : Z; tj_dtype : string
}.

Record ArtifactSourceMetadataJson : Type := MkArtifactJson {
  aj_artifact_id : string; aj_total_size : Z; aj_file_count : Z; aj_chunk_count : Z;
  aj_node_rank : Z
}.

Record WorkerRecordJson : Type := MkWorkerJson {
  wj_worker_rank : Z;
  wj_backend_type : option string;
  wj_nixl_metadata : list Byte.byte;
  wj_transfer_engine_session_id : option string;
  wj_tensors : list TensorRecordJson;
  wj_status : Z;
  wj_updated_at : Z;
  wj_metadata_endpoint : string;
  wj_agent_name : string;
  wj_worker_grpc_endpoint : string;
  wj_accelerator : string;
  wj_source_load : option f32;
  wj_topology : gmap string string;
  wj_artifact_source : option ArtifactSourceMetadataJson;
  wj_owner_namespace : option string
}.

Record WorkerSummaryJson : Type := MkSummary {
  ws_worker_rank : Z;
  ws_status : Z;
  ws_updated_at : Z;
  ws_accelerator : string;
  ws_source_load : option f32;
  ws_topology : gmap string string;
  ws_owner_namespace : option string
}.

(** ** Conversions *)

(** [From<&SourceIdentity> for SourceAttributesJson]. *)
Definition attributes_from (id : SourceIdentity) : SourceAttributesJson :=
  MkAttributes (si_model_name id) (si_mx_version id) (si_mx_source_type id)
    (si_backend_framework id) (si_tensor_parallel_size id) (si_pipeline_parallel_size id)
    (si_expert_parallel_size id) (si_dtype id) (si_quantization id) (si_extra_parameters id)
    (si_revision id) (si_backend_framework_version id) (si_torch_version id)
    (si_cuda_version id) (si_triton_version id) (si_gpu_arch id) (si_compile_config_digest id).

Definition to_source_identity (a : SourceAttributesJson) : SourceIdentity :=
  MkSourceIdentity (sa_mx_version a) (sa_mx_source_type a) (sa_model_name a)
    (sa_backend_framework a) (sa_tensor_parallel_size a) (sa_pipeline_parallel_size a)
    (sa_expert_parallel_size a) (sa_dtype a) (sa_quantization a) (sa_extra_parameters a)
    (sa_revision a) (sa_backend_framework_version a) (sa_torch_version a) (sa_cuda_version a)
    (sa_triton_version a) (sa_gpu_arch a) (sa_compile_config_digest a).

Definition tensor_json_from (r : TensorRecord) : TensorRecordJson :=
  MkTensorJson (tr_name r) (tr_addr r) (tr_size r) (tr_device_id r) (tr_dtype r).
Definition tensor_record_from (j : TensorRecordJson) : TensorRecord :=
  MkTensorRecord (tj_name j) (tj_addr j) (tj_size j) (tj_device_id j) (tj_dtype j).

Definition artifact_json_from (r : ArtifactSourceMetadataRecord) : ArtifactSourceMetadataJson :=
  MkArtifactJson (ar_artifact_id r) (ar_total_size r) (ar_file_count r) (ar_chunk_count r)
    (ar_node_rank r).
Definition artifact_record_from (j : ArtifactSourceMetadataJson) : ArtifactSourceMetadataRecord :=
  MkArtifactSourceMetadataRecord (aj_artifact_id j) (aj_total_size j) (aj_file_count j)
    (aj_chunk_count j) (aj_node_rank j).

Definition from_worker_record (r : WorkerRecord) : WorkerRecordJson :=
  let '(nixl_metadata, transfer_engine_session_id) :=
    match wr_backend_metadata r with
    | BNixl data => (data, None)
    | BTransferEngine sid => ([], Some sid)
    | BNone => ([], None)
    end in
  MkWorkerJson (wr_worker_rank r) (Some (backend_type_str (wr_backend_metadata r)))
    nixl_metadata transfer_engine_session_id (tensor_json_from <$> wr_tensors r) (wr_status r)
    (wr_updated_at r) (wr_metadata_endpoint r) (wr_agent_name r) (wr_worker_grpc_endpoint r)
    (wr_accelerator r) (wr_source_load r) (wr_topology r)
    (artifact_json_from <$> wr_artifact_source r) None.

(** [json.owner_namespace = owner_namespace]. *)
Definition with_owner (j : WorkerRecordJson) (owner : option string) : WorkerRecordJson :=
  MkWorkerJson (wj_worker_rank j) (wj_backend_type j) (wj_nixl_metadata j)
    (wj_transfer_engine_session_id j) (wj_tensors j) (wj_status j) (wj_updated_at j)
    (wj_metadata_endpoint j) (wj_agent_name j) (wj_worker_grpc_endpoint j) (wj_accelerator j)
    (wj_source_load j) (wj_topology j) (wj_artifact_source j) owner.

(** [From<WorkerRecordJson> for WorkerRecord]. *)
Definition worker_record_from (j : WorkerRecordJson) : WorkerRecord :=
  MkWorkerRecord (wj_worker_rank j)
    (from_flat (wj_nixl_metadata j) (wj_transfer_engine_session_id j) (wj_backend_type j))
    (tensor_record_from <$> wj_tensors j) (wj_status j) (wj_updated_at j)
    (wj_metadata_endpoint j) (wj_agent_name j) (wj_worker_grpc_endpoint j) (wj_accelerator j)
    (wj_source_load j) (wj_topology j) (artifact_record_from <$> wj_artifact_source j).

Section json_forms.
Context `{JsonText} `{HashIter}.

(** ** JSON forms *)

Definition serialize_u64_as_string (z : Z) : json := JStr (decimal z).

(** [value as u64] of a float: toward zero, saturating. *)
Definition f64_as_u64 (q : Q) : Z :=
  let t := if Qle_bool 0 q then Qfloor q else Qceiling q in Z.max 0 (Z.min t u64_max).

Definition deserialize_u64_from_any (v : json) : option Z :=
  match v with
  | JInt z => if (0 <=? z)%Z then Some z else None
  | JFloat q => Some (f64_as_u64 (f64_nearest q))
  | JStr s => parse_unsigned u64_max s
  | _ => None
  end.

Definition ser_attributes (a : SourceAttributesJson) : json :=
  JObj [("model_name", JStr (sa_model_name a)); ("mx_version", JStr (sa_mx_version a));
    ("mx_source_type", JInt (sa_mx_source_type a));
    ("backend_framework", JInt (sa_backend_framework a));
    ("tensor_parallel_size", JInt (sa_tensor_parallel_size a));
    ("pipeline_parallel_size", JInt (sa_pipeline_parallel_size a));
    ("expert_parallel_size", JInt (sa_expert_parallel_size a)); ("dtype", JStr (sa_dtype a));
    ("quantization", JStr (sa_quantization a));
    ("extra_parameters", ser_map (sa_extra_parameters a)); ("revision", JStr (sa_revision a));
    ("backend_framework_version", JStr (sa_backend_framework_version a));
    ("torch_version", JStr (sa_torch_version a)); ("cuda_version", JStr (sa_cuda_version a));
    ("triton_version", JStr (sa_triton_version a)); ("gpu_arch", JStr (sa_gpu_arch a));
    ("compile_config_digest", JStr (sa_compile_config_digest a))].

Definition de_attributes : json -> option SourceAttributesJson := de_struct (fun fs =>
  model_name ← de_required de_string fs "model_name";
  mx_version ← de_default de_string "" fs "mx_version";
  mx_source_type ← de_default de_i32 0%Z fs "mx_source_type";
  backend_framework ← de_default de_i32 0%Z fs "backend_framework";
  tensor_parallel_size ← de_default de_u32 0%Z fs "tensor_parallel_size";
  pipeline_parallel_size ← de_default de_u32 0%Z fs "pipeline_parallel_size";
  expert_parallel_size ← de_default de_u32 0%Z fs "expert_parallel_size";
  dtype ← de_default de_string "" fs "dtype";
  quantization ← de_default de_string "" fs "quantization";
  extra_parameters ← de_default de_map ∅ fs "extra_parameters";
  revision ← de_default de_string "" fs "revision";
  backend_framework_version ← de_default de_string "" fs "backend_framework_version";
  torch_version ← de_default de_string "" fs "torch_version";
  cuda_version ← de_default de_string "" fs "cuda_version";
  triton_version ← de_default de_string "" fs "triton_version";
  gpu_arch ← de_default de_string "" fs "gpu_arch";
  compile_config_digest ← de_default de_string "" fs "compile_config_digest";
  Some (MkAttributes model_name mx_version mx_source_type backend_framework tensor_parallel_size
    pipeline_parallel_size expert_parallel_size dtype quantization extra_parameters revision
    backend_framework_version torch_version cuda_version triton_version gpu_arch
    compile_config_digest)).

Definition ser_tensor (t : TensorRecordJson) : json :=
  JObj [("name", JStr (tj_name t)); ("addr", serialize_u64_as_string (tj_addr t));
    ("size", serialize_u64_as_string (tj_size t)); ("device_id", JInt (tj_device_id t));
    ("dtype", JStr (tj_dtype t))].

Definition de_tensor : json -> option TensorRecordJson := de_struct (fun fs =>
  name ← de_required de_string fs "name";
  addr ← de_required deserialize_u64_from_any fs "addr";
  size ← de_required deserialize_u64_from_any fs "size";
  device_id ← de_required de_u32 fs "device_id";
  dtype ← de_required de_string fs "dtype";
  Some (MkTensorJson name addr size device_id dtype)).

Definition ser_artifact (a : ArtifactSourceMetadataJson) : json :=
  JObj [("artifact_id", JStr (aj_artifact_id a));
    ("total_size", serialize_u64_as_string (aj_total_size a));
    ("file_count", JInt (aj_file_count a)); ("chunk_count", JInt (aj_chunk_count a));
    ("node_rank", JInt (aj_node_rank a))].

Definition de_artifact : json -> option ArtifactSourceMetadataJson := de_struct (fun fs =>
  artifact_id ← de_required de_string fs "artifact_id";
  total_size ← de_required deserialize_u64_from_any fs "total_size";
  file_count ← de_required de_u32 fs "file_count";
  chunk_count ← de_required de_u32 fs "chunk_count";
  node_rank ← de_default de_u32 0%Z fs "node_rank";
  Some (MkArtifactJson artifact_id total_size file_count chunk_count node_rank)).

Definition ser_worker (j : WorkerRecordJson) : json :=
  JObj [("worker_rank", JInt (wj_worker_rank j));
    ("backend_type", ser_option JStr (wj_backend_type j));
    ("nixl_metadata", ser_bytes (wj_nixl_metadata j));
    ("transfer_engine_session_id", ser_option JStr (wj_transfer_engine_session_id j));
    ("tensors", JArr (ser_tensor <$> wj_tensors j)); ("status", JInt (wj_status j));
    ("updated_at", JInt (wj_updated_at j)); ("metadata_endpoint", JStr (wj_metadata_endpoint j));
    ("agent_name", JStr (wj_agent_name j));
    ("worker_grpc_endpoint", JStr (wj_worker_grpc_endpoint j));
    ("accelerator", JStr (wj_accelerator j));
    ("source_load", ser_option ser_f32 (wj_source_load j)); ("topology", ser_map (wj_topology j));
    ("artifact_source", ser_option ser_artifact (wj_artifact_source j));
    ("owner_namespace", ser_option JStr (wj_owner_namespace j))].

Definition de_worker : json -> option WorkerRecordJson := de_struct (fun fs =>
  worker_rank ← de_required de_u32 fs "worker_rank";
  backend_type ← de_default (de_option de_string) None fs "backend_type";
  nixl_metadata ← de_default de_bytes [] fs "nixl_metadata";
  session_id ← de_default (de_option de_string) None fs "transfer_engine_session_id";
  tensors ← de_required (de_list de_tensor) fs "tensors";
  status ← de_default de_i32 0%Z fs "status";
  updated_at ← de_default de_i64 0%Z fs "updated_at";
  metadata_endpoint ← de_default de_string "" fs "metadata_endpoint";
  agent_name ← de_default de_string "" fs "agent_name";
  worker_grpc_endpoint ← de_default de_string "" fs "worker_grpc_endpoint";
  accelerator ← de_default de_string "" fs "accelerator";
  source_load ← de_default (de_option de_f32) None fs "source_load";
  topology ← de_default de_map ∅ fs "topology";
  artifact_source ← de_default (de_option de_artifact) None fs "artifact_source";
  owner_namespace ← de_default (de_option de_string) None fs "owner_namespace";
  Some (MkWorkerJson worker_rank backend_type nixl_metadata session_id tensors status updated_at
    metadata_endpoint agent_name worker_grpc_endpoint accelerator source_load topology
    artifact_source owner_namespace)).

Definition ser_summary (s : WorkerSummaryJson) : json :=
  JObj [("worker_rank", JInt (ws_worker_rank s)); ("status", JInt (ws_status s));
    ("updated_at", JInt (ws_updated_at s)); ("accelerator", JStr (ws_accelerator s));
    ("source_load", ser_option ser_f32 (ws_source_load s)); ("topology", ser_map (ws_topology s));
    ("owner_namespace", ser_option JStr (ws_owner_namespace s))].

Definition de_summary : json -> option WorkerSummaryJson := de_struct (fun fs =>
  worker_rank ← de_required de_u32 fs "worker_rank";
  status ← de_required de_i32 fs "status";
  updated_at ← de_required de_i64 fs "updated_at";
  accelerator ← de_default de_string "" fs "accelerator";
  source_load ← de_default (de_option de_f32) None fs "source_load";
  topology ← de_default de_map ∅ fs "topology";
  owner_namespace ← de_default (de_option de_string) None fs "owner_namespace";
  Some (MkSummary worker_rank status updated_at accelerator source_load topology owner_namespace)).

Definition attributes_text (a : SourceAttributesJson) : string := json_print (ser_attributes a).
Definition worker_text (j : WorkerRecordJson) : string := json_print (ser_worker j).
Definition summary_text (s : WorkerSummaryJson) : string := json_print (ser_summary s).

Definition parse_attributes : string -> option SourceAttributesJson := from_str de_attributes.
Definition parse_worker : string -> option WorkerRecordJson := from_str de_worker.
Definition parse_summary : string -> option WorkerSummaryJson := from_str de_summary.

(** ** Readings of the hashes *)

Definition source_identity_from_attributes (attr_json : option string)
    : string * option SourceIdentity :=
  let attrs := attr_json ≫= parse_attributes in
  (default "" (sa_model_name <$> attrs), to_source_identity <$> attrs).

Definition overlay_status (fields : gmap string string) (worker_rank record_status : Z)
    (record_updated_at : Z) (record_source_load : option f32) : Z * Z * option f32 :=
  match fields !! status_field worker_rank ≫= parse_summary with
  | Some summary =>
      if (record_updated_at <=? ws_updated_at summary)%Z
      then (ws_status summary, ws_updated_at summary, ws_source_load summary)
      else (record_status, record_updated_at, record_source_load)
  | None => (record_status, record_updated_at, record_source_load)
  end.

Definition worker_records_match_status (fields : gmap string string)
    (required_status : SourceStatus) : bool :=
  existsb (fun '(field, value) =>
    if starts_with STATUS_FIELD_PREFIX field then false
    else match parse_worker value with
         | Some record =>
             let '(status, _, _) := overlay_status fields (wj_worker_rank record)
                                      (wj_status record) (wj_updated_at record)
                                      (wj_source_load record) in
             (status =? SourceStatus_i32 required_status)%Z
         | None => false
         end) (hash_entries fields).

(** The loop of a listing over SCAN's pages: the next cursor and a batch each. *)
Fixpoint scan_keys (pages : list (Z * list string)) : list string :=
  match pages with
  | [] => []
  | (next_cursor, batch) :: pages' =>
      batch ++ (if (next_cursor =? 0)%Z then [] else scan_keys pages')
  end.

(** [key[SOURCE_PREFIX.len()..]]. *)
Definition key_source_id (key : string) : string :=
  substring (String.length SOURCE_PREFIX) (String.length key - String.length SOURCE_PREFIX) key.

Definition source_ids_of (source_id : option string) (pages : list (Z * list string))
    : list string :=
  match source_id with
  | Some sid => [sid]
  | None => key_source_id <$> scan_keys pages
  end.
End json_forms.

(** ** Scripts *)

Section scripts.
Context {DB : Type} `{RedisServer DB} `{LuaNumbers} `{JsonText}.
Implicit Types db : DB.

Definition REMOVE_WORKER_LUA (worker_key source_key worker_id attributes_field : string) db
    : DB * Z :=
  let db := redis_del worker_key db in
  let db := hdel source_key worker_id db in
  let remaining := Z.of_nat (hlen source_key db) in
  let db :=
    if (remaining =? 0)%Z || ((remaining =? 1)%Z && hexists source_key attributes_field db)
    then redis_del source_key db else db in
  (db, remaining).

(** Whether a stored row forbids the write: its time is above the incoming one.
    [None]: the comparison with nil raises an error. *)
Definition row_is_newer (updated_at incoming : option Z) : option bool :=
  match updated_at with
  | None => Some false
  | Some t => t' ← incoming; Some (t' <? t)%Z
  end.

(** Whether the row of the source hash is to be replaced. *)
Definition updates_source_row (source_json : option string) (rank incoming : option Z)
    : option bool :=
  match source_json with
  | None => Some true
  | Some source_json =>
      match lua_tonumber source_json with
      | Some representative_rank => Some (bool_decide (Some representative_rank = rank))
      | None =>
          match cjson_table source_json with
          | None => Some false
          | Some source =>
              if bool_decide (source "worker_rank" = rank)
              then negb <$> row_is_newer (source "updated_at") incoming
              else Some false
          end
      end
  end.

(** The reply is [None] when the script raises an error. *)
Definition UPDATE_STATUS_IF_FRESH_LUA (worker_key source_key : string)
    (rank_arg field worker_id summary updated_at_arg : string) db : DB * option Z :=
  if negb (hexists worker_key rank_arg db) then (db, Some (-1)%Z)
  else
    let incoming := lua_tonumber updated_at_arg in
    let current_updated_at :=
      current ← hget worker_key field db ≫= cjson_table; current "updated_at" in
    match row_is_newer current_updated_at incoming with
    | None => (db, None)
    | Some true => (db, Some 0%Z)
    | Some false =>
        match updates_source_row (hget source_key worker_id db) (lua_tonumber rank_arg) incoming with
        | None => (db, None)
        | Some update_source_summary =>
            let db := hset worker_key field summary db in
            (if update_source_summary then hset source_key worker_id summary db else db,
             Some 1%Z)
        end
    end.
End scripts.

(** ** The logged URL *)

(** [rfind] of a character: the text before its last occurrence and after it. *)
Fixpoint split_last (c : ascii) (s : string) : option (string * string) :=
  match s with
  | EmptyString => None
  | String d s' =>
      match split_last c s' with
      | Some (a, b) => Some (String d a, b)
      | None => if Ascii.eqb c d then Some ("", s') else None
      end
  end.

(** The URL that [connect] logs. *)
Definition safe_url (redis_url : string) : string :=
  match split_last "@" redis_url with
  | Some (prefix, host) =>
      match split_last ":" prefix with
      | Some (before, _) => before +:+ ":***" +:+ "@" +:+ host
      | None => redis_url
      end
  | None => redis_url
  end.

(** ** Methods *)

Section methods.
Context {DB : Type} `{RedisServer DB} `{LuaNumbers} `{JsonText} `{HashIter}.
Context `{ToLowercase} `{IdDigest}.
Implicit Types db : DB.

Abbreviation MetadataResult A := (result A string).

(** The calls of a loop, one after the other. *)
Fixpoint for_each {A B} (f : A -> prog DB B) (l : list A) : prog DB (list B) :=
  match l with
  | [] => Ret []
  | a :: l' => let! b := f a in let! bs := for_each f l' in Ret (b :: bs)
  end.

Definition write (cmd : DB -> DB) : prog DB unit := Call (fun db => (cmd db, ())) Ret.

(** The rows that a publication writes. *)
Definition published_json (worker : WorkerMetadata) (owner : option string) : WorkerRecordJson :=
  with_owner (from_worker_record (WorkerRecord_from worker)) owner.

Definition published_summary (worker : WorkerMetadata) (owner : option string)
    : WorkerSummaryJson :=
  let r := WorkerRecord_from worker in
  MkSummary (wr_worker_rank r) (wr_status r) (wr_updated_at r) (wr_accelerator r)
    (wr_source_load r) (wr_topology r) owner.

Definition publish_metadata (identity : SourceIdentity) (worker_id : string)
    (worker : WorkerMetadata) (owner_namespace : option string)
    : prog DB (MetadataResult unit) :=
  match compute_mx_source_id identity with
  | Err e => Ret (Err e)
  | Ok source_id =>
      let worker_key := worker_key source_id worker_id in
      let source_key := source_key source_id in
      let rank := wr_worker_rank (WorkerRecord_from worker) in
      let attr_json := attributes_text (attributes_from identity) in
      let value := worker_text (published_json worker owner_namespace) in
      let summary := summary_text (published_summary worker owner_namespace) in
      let! _ := write (hset worker_key (decimal rank) value) in
      let! _ := write (hset worker_key (status_field rank) summary) in
      let! _ := write (hset source_key ATTRIBUTES_FIELD attr_json) in
      let! _ := write (hset source_key worker_id summary) in
      Ret (Ok ())
  end.

(** The loop of [get_metadata] over the fields of a worker hash. *)
Fixpoint collect_workers (fields : gmap string string) (entries : list (string * string))
    (owner_namespace : option string) : MetadataResult (option string * list WorkerRecord) :=
  match entries with
  | [] => Ok (owner_namespace, [])
  | (field, value) :: entries' =>
      if starts_with STATUS_FIELD_PREFIX field
      then collect_workers fields entries' owner_namespace
      else
        match parse_worker value with
        | None => Err json_error
        | Some json =>
            let owner_namespace :=
              match owner_namespace with Some o => Some o | None => wj_owner_namespace json end in
            let worker := worker_record_from json in
            let '(status, updated_at, source_load) :=
              overlay_status fields (wr_worker_rank worker) (wr_status worker)
                (wr_updated_at worker) (wr_source_load worker) in
            let worker := MkWorkerRecord (wr_worker_rank worker) (wr_backend_metadata worker)
              (wr_tensors worker) status updated_at (wr_metadata_endpoint worker)
              (wr_agent_name worker) (wr_worker_grpc_endpoint worker) (wr_accelerator worker)
              source_load (wr_topology worker) (wr_artifact_source worker) in
            let? rest := collect_workers fields entries' owner_namespace in
            Ok (rest.1, worker :: rest.2)
        end
  end.

Definition get_metadata (source_id worker_id : string)
    : prog DB (MetadataResult (option ModelMetadataRecord)) :=
  Read (hfields (worker_key source_id worker_id)) (fun fields =>
    if bool_decide (fields = ∅) then Ret (Ok None)
    else Read (hget (source_key source_id) ATTRIBUTES_FIELD) (fun attr_json =>
      let '(model_name, identity) := source_identity_from_attributes attr_json in
      Ret (let? collected := collect_workers fields (hash_entries fields) None in
           Ok (Some (MkModelMetadataRecord source_id worker_id model_name
                 (sort_by_key wr_worker_rank collected.2) 0 collected.1 identity))))).

(** What a listing reports of the representative rank of a worker hash. *)
Definition reported_rank (fields : gmap string string) (worker_rank : Z)
    : Z * Z * string * option f32 * gmap string string * option string :=
  match fields !! decimal worker_rank ≫= parse_worker with
  | Some j =>
      let '(status, updated_at, source_load) :=
        overlay_status fields worker_rank (wj_status j) (wj_updated_at j) (wj_source_load j) in
      (status, updated_at, wj_accelerator j, source_load, wj_topology j, wj_owner_namespace j)
  | None => (0%Z, 0%Z, "", None, ∅, None)
  end.

Definition instance_info (sid worker_id : string) (attributes : SourceAttributesJson)
    (worker_rank : Z)
    (reported : Z * Z * string * option f32 * gmap string string * option string)
    : SourceInstanceInfo :=
  let '(status, updated_at, accelerator, source_load, topology, owner_namespace) := reported in
  MkSourceInstanceInfo sid worker_id (sa_model_name attributes) worker_rank status updated_at
    accelerator source_load topology (parse_training_step (sa_extra_parameters attributes))
    (parse_layout_signature (sa_extra_parameters attributes)) owner_namespace.

Definition stored_attributes (instance_map : gmap string string) : SourceAttributesJson :=
  default default_attributes (instance_map !! ATTRIBUTES_FIELD ≫= parse_attributes).

(** The entries of a source hash that stand for workers. *)
Definition worker_rows (instance_map : gmap string string) : list (string * string) :=
  List.filter (fun kv => negb (String.eqb kv.1 ATTRIBUTES_FIELD)) (hash_entries instance_map).

(** The representative rank: a decimal, or the one of a summary. *)
Definition listed_rank (rank_str : string) : Z :=
  match parse_unsigned u32_max rank_str with
  | Some rank => rank
  | None => default 0%Z (ws_worker_rank <$> parse_summary rank_str)
  end.

(** One row of [list_workers], read against its worker hash. *)
Definition listed_worker (sid : string) (attributes : SourceAttributesJson)
    (status_filter : option SourceStatus) (iid rank_str : string) (fields : gmap string string)
    : option SourceInstanceInfo :=
  let worker_rank := listed_rank rank_str in
  if bool_decide (fields = ∅) then None
  else if is_some_and (fun required => negb (worker_records_match_status fields required))
            status_filter
  then None
  else Some (instance_info sid iid attributes worker_rank (reported_rank fields worker_rank)).

Definition list_workers (source_id : option string) (status_filter : option SourceStatus)
    (pages : list (Z * list string)) : prog DB (MetadataResult (list SourceInstanceInfo)) :=
  let! per_source := for_each (fun sid =>
    Read (hfields (source_key sid)) (fun instance_map =>
      for_each (fun '(iid, rank_str) =>
        Read (hfields (worker_key sid iid)) (fun fields =>
          Ret (listed_worker sid (stored_attributes instance_map) status_filter iid rank_str fields)))
        (worker_rows instance_map))) (source_ids_of source_id pages) in
  Ret (Ok (omap id (concat per_source))).

(** A row that [list_workers_filtered] has to read the worker hash for. *)
Record detailed : Type := MkDetailed {
  de_source_id : string;
  de_worker_id : string;
  de_worker_rank : Z;
  de_attributes_of : SourceAttributesJson
}.

(** One row of a source hash: left to the second phase, reported, or dropped. *)
Definition select_row (status_filter : option SourceStatus) (f : list_filter) (sid : string)
    (attributes : SourceAttributesJson) (row : string * string)
    : list detailed * list SourceInstanceInfo :=
  let '(worker_id, rank_text) := row in
  let summary := parse_summary rank_text in
  let worker_rank :=
    match summary with
    | Some value => ws_worker_rank value
    | None => default 0%Z (parse_unsigned u32_max rank_text)
    end in
  let later := MkDetailed sid worker_id worker_rank attributes in
  if is_some_and (fun rank => negb (rank =? worker_rank)%Z) (lf_worker_rank f) then ([], [])
  else
    match summary with
    | Some summary =>
        match status_filter with
        | Some _ => ([later], [])
        | None =>
            if is_some_and (fun minimum => (ws_updated_at summary <? minimum)%Z)
                 (lf_min_updated_at f)
            then ([], [])
            else ([], [instance_info sid worker_id attributes worker_rank
                         (ws_status summary, ws_updated_at summary, ws_accelerator summary,
                          ws_source_load summary, ws_topology summary,
                          ws_owner_namespace summary)])
        end
    | None => ([later], [])
    end.

(** The first phase on one source hash. *)
Definition select_source (status_filter : option SourceStatus) (f : list_filter) (sid : string)
    (instance_map : gmap string string) : list detailed * list SourceInstanceInfo :=
  let attributes := stored_attributes instance_map in
  if is_some_and (fun model => negb (String.eqb (sa_model_name attributes) model)) (lf_model_name f)
  then ([], [])
  else if is_some_and (fun minimum =>
            is_none_or (fun step => (step <? minimum)%Z)
              (parse_training_step (sa_extra_parameters attributes))) (lf_min_training_step f)
  then ([], [])
  else
    let selected := select_row status_filter f sid attributes <$> worker_rows instance_map in
    (concat selected.*1, concat selected.*2).

(** The second phase on one worker hash. *)
Definition select_detailed (status_filter : option SourceStatus) (f : list_filter) (d : detailed)
    (fields : gmap string string) : list SourceInstanceInfo :=
  if bool_decide (fields = ∅) then []
  else if is_some_and (fun required => negb (worker_records_match_status fields required))
            status_filter
  then []
  else
    let info := instance_info (de_source_id d) (de_worker_id d) (de_attributes_of d)
                  (de_worker_rank d) (reported_rank fields (de_worker_rank d)) in
    if is_some_and (fun minimum => (ii_updated_at info <? minimum)%Z) (lf_min_updated_at f)
    then [] else [info].

Definition list_workers_filtered (source_id : option string)
    (status_filter : option SourceStatus) (f : list_filter) (limit : option Z)
    (pages : list (Z * list string)) : prog DB (MetadataResult (list SourceInstanceInfo)) :=
  match source_ids_of source_id pages with
  | [] => Ret (Ok [])
  | source_ids =>
      let! source_hashes := for_each (fun sid => Read (hfields (source_key sid)) Ret) source_ids in
      let selected := zip_with (select_source status_filter f) source_ids source_hashes in
      let detailed_selected := concat selected.*1 in
      let result := concat selected.*2 in
      match detailed_selected, result with
      | [], [] => Ret (Ok [])
      | _, _ =>
          let! worker_hashes := for_each (fun d =>
            Read (hfields (worker_key (de_source_id d) (de_worker_id d))) Ret)
            detailed_selected in
          let result := result ++
            concat (zip_with (select_detailed status_filter f) detailed_selected worker_hashes) in
          Ret (Ok (truncate_opt limit (sort_recent result)))
      end
  end.

Definition remove_metadata (source_id : string) : prog DB (MetadataResult unit) :=
  Read (hfields (source_key source_id)) (fun instance_map =>
    let! _ := for_each (fun '(iid, _) => write (redis_del (worker_key source_id iid)))
                (worker_rows instance_map) in
    let! _ := write (redis_del (source_key source_id)) in
    Ret (Ok ())).

Definition remove_worker (source_id worker_id : string) : prog DB (MetadataResult unit) :=
  Call (REMOVE_WORKER_LUA (worker_key source_id worker_id) (source_key source_id) worker_id
          ATTRIBUTES_FIELD) (fun _ => Ret (Ok ())).

Definition list_sources (pages : list (Z * list string))
    : prog DB (MetadataResult (list (string * string))) :=
  let! sources := for_each (fun key =>
    Read (hget key ATTRIBUTES_FIELD) (fun attr_json =>
      Ret ((fun json => (key_source_id key, default "" (sa_model_name <$> parse_attributes json)))
             <$> attr_json))) (scan_keys pages) in
  Ret (Ok (omap id sources)).

Definition update_status_if_fresh (worker_key source_key worker_id : string) (worker_rank : Z)
    (summary : string) (updated_at : Z) : prog DB (MetadataResult bool) :=
  Call (UPDATE_STATUS_IF_FRESH_LUA worker_key source_key (decimal worker_rank)
          (status_field worker_rank) worker_id summary (signed_decimal updated_at)) (fun result =>
    Ret (match result with
         | None => Err "script error"
         | Some value =>
             if (value =? -1)%Z
             then Err ("worker rank " +:+ decimal worker_rank +:+ " not found in '"
                       +:+ worker_key +:+ "'")
             else if (value =? 0)%Z then Ok false
             else if (value =? 1)%Z then Ok true
             else Err ("unexpected status update result: " +:+ signed_decimal value)
         end)).

(** The part of a status update after the fields to carry forward are known. *)
Definition write_status (source_id worker_id : string) (worker_rank : Z) (status : SourceStatus)
    (updated_at : Z) (source_load : option f32)
    (carried : string * gmap string string * option string) : prog DB (MetadataResult unit) :=
  let '(accelerator, topology, owner_namespace) := carried in
  let status_summary := summary_text (MkSummary worker_rank (SourceStatus_i32 status) updated_at
                                        accelerator source_load topology owner_namespace) in
  try! _ := update_status_if_fresh (worker_key source_id worker_id) (source_key source_id)
              worker_id worker_rank status_summary updated_at in
  Ret (Ok ()).

Definition update_status (source_id worker_id : string) (worker_rank : Z)
    (status : SourceStatus) (updated_at : Z) (source_load : option f32)
    : prog DB (MetadataResult unit) :=
  let key := worker_key source_id worker_id in
  let write := write_status source_id worker_id worker_rank status updated_at source_load in
  Read (hget key (status_field worker_rank)) (fun status_json =>
    match status_json ≫= parse_summary with
    | Some summary => write (ws_accelerator summary, ws_topology summary, ws_owner_namespace summary)
    | None =>
        Read (hget key (decimal worker_rank)) (fun value =>
          match value with
          | None => Ret (Err ("update_status: rank " +:+ decimal worker_rank
                              +:+ " not found in source '" +:+ source_id +:+ "' worker '"
                              +:+ worker_id +:+ "'"))
          | Some json_str =>
              match parse_worker json_str with
              | None => Ret (Err json_error)
              | Some record =>
                  write (wj_accelerator record, wj_topology record, wj_owner_namespace record)
              end
          end)
    end).
End methods.

End RedisMeta.
