(* ===== verification/P2pRedisFacts.v ===== *)
(** * Facts about the Redis P2P backend: keys, stored texts, programs

    Distinct keys and fields do not collide, every stored struct survives its text
    when its integers are in their types' ranges, and the effect of each writing
    command on the hashes. *)

From Stdlib Require Import ZArith Lia Ascii String QArith.
From stdpp Require Import base tactics option list sorting gmap fin_maps strings pretty.
From S2P Require Import Prelude RustStr RedisStore RedisServer RedisProg P2pTypes.
From S2P Require Import SourceIdentityHash P2pBackend Json P2pRedis.

Import RedisMeta.

(** ** Keys and fields *)

Definition colonless (s : string) : Prop := contains_char ":" s = false.

#[export] Instance colonless_dec s : Decision (colonless s) := decide (contains_char ":" s = false).

Lemma source_key_inj sid sid' : source_key sid = source_key sid' -> sid = sid'.
Proof. unfold source_key. by intros ?%(inj (String.append _)). Qed.

Lemma source_worker_key sid sid' wid : colonless sid -> source_key sid ≠ worker_key sid' wid.
Proof.
  unfold source_key, worker_key. intros Hs ->%(inj (String.append _)).
  revert Hs. unfold colonless. rewrite !contains_char_app.
  replace (contains_char ":" ":") with true by done.
  by rewrite orb_true_l, orb_true_r.
Qed.

Lemma worker_key_inj sid sid' wid wid' :
  colonless sid -> colonless sid' -> worker_key sid wid = worker_key sid' wid' ->
  sid = sid' ∧ wid = wid'.
Proof.
  unfold worker_key. intros Hs Hs' Hk%(inj (String.append _)).
  change (":" +:+ ?w) with (String ":" w) in Hk. apply (f_equal (split_once ":")) in Hk.
  rewrite !split_once_app in Hk by done. by simplify_eq.
Qed.

Lemma substring_all s : substring 0 (String.length s) s = s.
Proof. induction s as [|c s IH]; cbn; [done|by rewrite IH]. Qed.

Lemma source_key_id sid : key_source_id (source_key sid) = sid.
Proof.
  unfold key_source_id, source_key, SOURCE_PREFIX. rewrite !str_app_cons, str_app_nil_l.
  cbn [String.length]. rewrite !Nat.sub_succ, Nat.sub_0_r. apply substring_all.
Qed.

Lemma starts_with_status r : starts_with STATUS_FIELD_PREFIX (status_field r) = true.
Proof. apply starts_with_app. Qed.

Lemma decimal_not_status r : starts_with STATUS_FIELD_PREFIX (decimal r) = false.
Proof.
  unfold starts_with. destruct (strip_prefix STATUS_FIELD_PREFIX (decimal r)) as [t|] eqn:E; [|done].
  apply strip_prefix_Some in E. pose proof (decimal_no "s" r eq_refl) as Hno.
  by rewrite E in Hno.
Qed.

Lemma status_decimal r r' : status_field r ≠ decimal r'.
Proof.
  intros He. pose proof (starts_with_status r) as H1. rewrite He, decimal_not_status in H1. done.
Qed.

Lemma status_field_inj r r' :
  (0 <= r)%Z -> (0 <= r')%Z -> status_field r = status_field r' -> r = r'.
Proof. unfold status_field. intros ?? ?%(inj (String.append _)). by apply decimal_inj. Qed.

(** ** Stored texts *)

Definition u32_typed (z : Z) : Prop := (0 <= z <= u32_max)%Z.
Definition u64_typed (z : Z) : Prop := (0 <= z <= u64_max)%Z.
Definition i32_typed (z : Z) : Prop := (- 2 ^ 31 <= z <= 2 ^ 31 - 1)%Z.
Definition i64_typed (z : Z) : Prop := (i64_min <= z <= i64_max)%Z.

(** What a stored row can hold: no load, or a finite one. *)
Definition finite_load (o : option f32) : Prop :=
  match o with Some (F32Finite q) => is_f32 q | Some _ => False | None => True end.

Record identity_typed (i : SourceIdentity) : Prop := MkIdentityTyped {
  it_source_type : i32_typed (si_mx_source_type i);
  it_framework : i32_typed (si_backend_framework i);
  it_tensor : u32_typed (si_tensor_parallel_size i);
  it_pipeline : u32_typed (si_pipeline_parallel_size i);
  it_expert : u32_typed (si_expert_parallel_size i)
}.

Record summary_typed (s : WorkerSummaryJson) : Prop := MkSummaryTyped {
  st_rank : u32_typed (ws_worker_rank s);
  st_status : i32_typed (ws_status s);
  st_time : i64_typed (ws_updated_at s);
  st_load : finite_load (ws_source_load s)
}.

Definition tensor_typed (t : TensorRecordJson) : Prop :=
  u64_typed (tj_addr t) ∧ u64_typed (tj_size t) ∧ u32_typed (tj_device_id t).

Definition artifact_typed (a : ArtifactSourceMetadataJson) : Prop :=
  u64_typed (aj_total_size a) ∧ u32_typed (aj_file_count a) ∧ u32_typed (aj_chunk_count a) ∧
  u32_typed (aj_node_rank a).

Record worker_typed (j : WorkerRecordJson) : Prop := MkWorkerTyped {
  wt_rank : u32_typed (wj_worker_rank j);
  wt_status : i32_typed (wj_status j);
  wt_time : i64_typed (wj_updated_at j);
  wt_load : finite_load (wj_source_load j);
  wt_tensors : Forall tensor_typed (wj_tensors j);
  wt_artifact : forall a, wj_artifact_source j = Some a -> artifact_typed a
}.

Lemma u64_as_string_roundtrip `{JsonText} z :
  u64_typed z -> deserialize_u64_from_any (serialize_u64_as_string z) = Some z.
Proof. intros. by apply parse_unsigned_decimal. Qed.

Ltac int_ok :=
  rewrite Z.leb_le;
  unfold u32_typed, u64_typed, i32_typed, i64_typed, i64_min, i64_max, u32_max, u64_max in *; lia.

Section texts.
Context `{JsonTextLaws} `{HashIter, !HashIterLaws}.

Lemma de_required_hit {A} (de : json -> option A) fs k v :
  json_field fs k = Some (Some v) -> de_required de fs k = de v.
Proof. unfold de_required. by intros ->. Qed.

Lemma de_default_hit {A} (de : json -> option A) d fs k v :
  json_field fs k = Some (Some v) -> de_default de d fs k = de v.
Proof. unfold de_default. by intros ->. Qed.

Lemma de_ser_string o : de_option de_string (ser_option JStr o) = Some o.
Proof. by destruct o. Qed.

Lemma de_ser_finite o : finite_load o -> de_option de_f32 (ser_option ser_f32 o) = Some o.
Proof. destruct o as [[q| |]|]; cbn; try done. intros Hq. by rewrite f32_nearest_shortest. Qed.

(** Reads the next field of a printed struct. *)
Ltac read_field :=
  first [erewrite de_required_hit by reflexivity | erewrite de_default_hit by reflexivity];
  cbn [snd].

Lemma de_ser_attributes i :
  identity_typed i -> de_attributes (ser_attributes (attributes_from i)) = Some (attributes_from i).
Proof.
  intros [? ? ? ? ?]. unfold de_attributes, de_struct, ser_attributes.
  repeat (read_field; unfold de_u32, de_i32; rewrite ?de_int_in, ?de_ser_map by assumption;
          cbn [de_string mbind option_bind]). done.
Qed.

Lemma de_ser_summary s : summary_typed s -> de_summary (ser_summary s) = Some s.
Proof.
  intros [? ? ? ?]. unfold de_summary, de_struct, ser_summary.
  repeat (read_field; unfold de_u32, de_i32, de_i64;
          rewrite ?de_int_in, ?de_ser_map, ?de_ser_string, ?de_ser_finite by assumption;
          cbn [de_string mbind option_bind]). by destruct s.
Qed.

Lemma de_ser_tensor t : tensor_typed t -> de_tensor (ser_tensor t) = Some t.
Proof.
  intros (? & ? & ?). unfold de_tensor, de_struct, ser_tensor.
  repeat (read_field; unfold de_u32;
          rewrite ?de_int_in, ?u64_as_string_roundtrip by assumption;
          cbn [de_string mbind option_bind]). by destruct t.
Qed.

Lemma de_ser_artifact a : artifact_typed a -> de_artifact (ser_artifact a) = Some a.
Proof.
  intros (? & ? & ? & ?). unfold de_artifact, de_struct, ser_artifact.
  repeat (read_field; unfold de_u32;
          rewrite ?de_int_in, ?u64_as_string_roundtrip by assumption;
          cbn [de_string mbind option_bind]). by destruct a.
Qed.

Lemma de_ser_worker j : worker_typed j -> de_worker (ser_worker j) = Some j.
Proof.
  intros [? ? ? ? Hts Ha]. unfold de_worker, de_struct, ser_worker.
  assert (de_list de_tensor (JArr (ser_tensor <$> wj_tensors j)) = Some (wj_tensors j)) as Ht.
  { apply de_ser_list. intros t Hin. apply de_ser_tensor.
    rewrite Forall_forall in Hts. by apply Hts. }
  assert (de_option de_artifact (ser_option ser_artifact (wj_artifact_source j)) =
          Some (wj_artifact_source j)) as Haj.
  { apply de_ser_option; [done|]. intros a E. by apply de_ser_artifact, Ha. }
  repeat (read_field; unfold de_u32, de_i32, de_i64;
          rewrite ?de_int_in, ?de_ser_map, ?de_ser_string, ?de_ser_finite, ?de_ser_bytes, ?Ht, ?Haj
            by assumption;
          cbn [de_string mbind option_bind]). by destruct j.
Qed.

(** Splits the check of an object into the checks of its fields. *)
Ltac ok_fields :=
  cbn [json_ok forallb snd]; rewrite ?andb_true_iff; split_and?;
  try done; try int_ok; try apply ser_map_ok; try apply ser_bytes_ok; try apply ser_load_ok.

Lemma ser_string_ok o : json_ok (ser_option JStr o) = true.
Proof. by destruct o. Qed.

Lemma ser_attributes_ok i :
  identity_typed i -> json_ok (ser_attributes (attributes_from i)) = true.
Proof.
  intros [? ? ? ? ?]. unfold ser_attributes.
  cbn [attributes_from sa_mx_source_type sa_backend_framework sa_tensor_parallel_size
       sa_pipeline_parallel_size sa_expert_parallel_size]. ok_fields.
Qed.

Lemma ser_summary_ok s : summary_typed s -> json_ok (ser_summary s) = true.
Proof. intros [? ? ? ?]. unfold ser_summary. ok_fields. by destruct (ws_owner_namespace s). Qed.

Lemma ser_worker_ok j : worker_typed j -> json_ok (ser_worker j) = true.
Proof.
  intros [? ? ? ? Hts Ha]. unfold ser_worker. ok_fields; try apply ser_string_ok.
  - rewrite forallb_forall. intros v (t & <- & Hin)%in_map_iff. apply list_elem_of_In in Hin.
    rewrite Forall_forall in Hts. destruct (Hts t Hin) as (? & ? & ?). unfold ser_tensor. ok_fields.
  - destruct (wj_artifact_source j) as [a|]; [|done]. destruct (Ha a eq_refl) as (? & ? & ? & ?).
    cbn [ser_option]. unfold ser_artifact. ok_fields.
Qed.

Lemma parse_attributes_text i :
  identity_typed i -> parse_attributes (attributes_text (attributes_from i)) = Some (attributes_from i).
Proof.
  intros Hi. unfold parse_attributes, from_str, attributes_text.
  rewrite json_parse_print by (by apply ser_attributes_ok). by apply de_ser_attributes.
Qed.

Lemma parse_summary_text s : summary_typed s -> parse_summary (summary_text s) = Some s.
Proof.
  intros Hs. unfold parse_summary, from_str, summary_text.
  rewrite json_parse_print by (by apply ser_summary_ok). by apply de_ser_summary.
Qed.

Lemma parse_worker_text j : worker_typed j -> parse_worker (worker_text j) = Some j.
Proof.
  intros Hj. unfold parse_worker, from_str, worker_text.
  rewrite json_parse_print by (by apply ser_worker_ok). by apply de_ser_worker.
Qed.

(** A summary is no source attributes: the model name is required. *)
Lemma parse_attributes_summary s : summary_typed s -> parse_attributes (summary_text s) = None.
Proof.
  intros Hs. unfold parse_attributes, from_str, summary_text.
  by rewrite json_parse_print by (by apply ser_summary_ok).
Qed.

(** A summary is no number, for Rust and for Lua. *)
Lemma summary_text_brace s : ∃ t, summary_text s = String "{" t.
Proof. apply json_print_object. Qed.

Lemma parse_unsigned_summary max s : parse_unsigned max (summary_text s) = None.
Proof. by destruct (summary_text_brace s) as [t ->]. Qed.

Lemma tonumber_summary s : lua_tonumber (summary_text s) = None.
Proof. destruct (summary_text_brace s) as [t ->]. apply lua_tonumber_brace. Qed.

Definition time_ok (t : Z) : Prop := (0 <= t <= lua_int_max)%Z.

Lemma time_ok_i64 t : time_ok t -> i64_typed t.
Proof. unfold time_ok, i64_typed, lua_int_max, i64_min, i64_max. lia. Qed.

Lemma cjson_summary s :
  summary_typed s -> time_ok (ws_updated_at s) -> ∃ g,
    cjson_table (summary_text s) = Some g ∧
    g "worker_rank" = Some (ws_worker_rank s) ∧ g "updated_at" = Some (ws_updated_at s).
Proof.
  intros Hs Ht. destruct (cjson_print_object _ (ser_summary_ok s Hs)) as (g & Hg & Hget).
  assert (NoDup ["worker_rank"; "status"; "updated_at"; "accelerator"; "source_load"; "topology";
                 "owner_namespace"]) as Hnd by (apply (bool_decide_unpack _); by vm_compute).
  exists g. split; [exact Hg|]. split; apply Hget; try exact Hnd; try exact Ht.
  - apply elem_of_cons. by left.
  - destruct (st_rank _ Hs). unfold u32_max, lua_int_max in *. lia.
  - do 2 (apply elem_of_cons; right). apply elem_of_cons. by left.
Qed.
End texts.

Lemma tonumber_signed `{LuaNumbersLaws} t :
  time_ok t -> lua_tonumber (signed_decimal t) = Some t.
Proof.
  intros Ht. unfold signed_decimal. destruct (Z.ltb_spec t 0); [unfold time_ok in *; lia|].
  by apply tonumber_decimal.
Qed.

(** ** Messages *)

Definition tensor_message_typed (d : TensorDescriptor) : Prop :=
  u64_typed (td_addr d) ∧ u64_typed (td_size d) ∧ u32_typed (td_device_id d).

(** The integer fields of a worker message are in their types' ranges, and its time
    is one that a Lua number holds exactly. *)
Record message_typed (m : WorkerMetadata) : Prop := MkMessageTyped {
  mt_rank : u32_typed (wm_worker_rank m);
  mt_status : i32_typed (wm_status m);
  mt_time : time_ok (wm_updated_at m);
  mt_tensors : Forall tensor_message_typed (wm_tensors m);
  mt_payload : match wm_source_payload m with
               | Some (TensorSource ts) => Forall tensor_message_typed ts
               | Some (ArtifactSource a) =>
                   u64_typed (am_total_size a) ∧ u32_typed (am_file_count a) ∧
                   u32_typed (am_chunk_count a) ∧ u32_typed (am_node_rank a)
               | None => True
               end
}.

Lemma record_fields m :
  wr_worker_rank (WorkerRecord_from m) = wm_worker_rank m ∧
  wr_status (WorkerRecord_from m) = wm_status m ∧
  wr_updated_at (WorkerRecord_from m) = wm_updated_at m ∧
  wr_source_load (WorkerRecord_from m) = None.
Proof. unfold WorkerRecord_from. by destruct (wm_source_payload m) as [[]|]. Qed.

Lemma published_summary_typed m owner :
  message_typed m -> summary_typed (published_summary m owner).
Proof.
  intros [? ? ? ? ?]. unfold published_summary. destruct (record_fields m) as (-> & -> & -> & ->).
  split; cbn; [done..| |done]. by apply time_ok_i64.
Qed.

Lemma tensors_typed ts :
  Forall tensor_message_typed ts ->
  Forall tensor_typed (tensor_json_from <$> map TensorRecord_from ts).
Proof. intros Hts. apply Forall_fmap, Forall_fmap. eapply Forall_impl; [exact Hts|]. by intros []. Qed.

Lemma published_json_typed m owner :
  message_typed m -> worker_typed (published_json m owner).
Proof.
  intros [? ? Ht Hts Hp]. apply time_ok_i64 in Ht.
  unfold published_json, from_worker_record, WorkerRecord_from.
  destruct (wm_backend_metadata m) as [[]|], (wm_source_payload m) as [[ts|a]|];
    (split; cbn; [done..| |]); try (by apply tensors_typed); try done;
    intros ? [= <-]; exact Hp.
Qed.

(** What is published is what is read back. *)
Lemma published_record m owner :
  worker_record_from (published_json m owner) = WorkerRecord_from m.
Proof.
  unfold published_json, from_worker_record. destruct (WorkerRecord_from m) as [? b ts ? ? ? ? ? ? ? ? a].
  cbn. destruct b; cbn; unfold worker_record_from; cbn; f_equal;
    try (rewrite <- list_fmap_compose; rewrite <- (list_fmap_id ts) at 2; apply list_fmap_ext; by intros ? []);
    by destruct a as [[]|].
Qed.

Lemma attributes_identity i : to_source_identity (attributes_from i) = i.
Proof. by destruct i. Qed.

(** ** Hashes after a command *)

Section effects.
Context {DB : Type} `{RedisServer DB} `{!RedisStoreLaws DB, !RedisServerLaws DB}.
Implicit Types db : DB.

Lemma hfields_hset_if k f v k' db :
  hfields k' (hset k f v db) = if decide (k' = k) then <[f := v]> (hfields k db) else hfields k' db.
Proof.
  case_decide as E; [subst; apply hfields_hset|]. apply hfields_ext. intros f'.
  rewrite hget_hset, decide_False by naive_solver. done.
Qed.

Lemma hfields_hdel_if k f k' db :
  hfields k' (hdel k f db) = if decide (k' = k) then delete f (hfields k db) else hfields k' db.
Proof.
  case_decide as E; [subst; apply hfields_hdel|]. apply hfields_ext. intros f'.
  rewrite hget_hdel, decide_False by naive_solver. done.
Qed.

Lemma hfields_del_if k k' db :
  hfields k' (redis_del k db) = if decide (k' = k) then ∅ else hfields k' db.
Proof.
  apply map_eq. intros f. rewrite hfields_lookup, hget_del. case_decide; [by rewrite lookup_empty|].
  by rewrite hfields_lookup.
Qed.

Lemma hfields_hset_ne k f v k' db : k' ≠ k -> hfields k' (hset k f v db) = hfields k' db.
Proof. intros. by rewrite hfields_hset_if, decide_False. Qed.

Lemma hfields_hdel_ne k f k' db : k' ≠ k -> hfields k' (hdel k f db) = hfields k' db.
Proof. intros. by rewrite hfields_hdel_if, decide_False. Qed.

Lemma hfields_del_eq k db : hfields k (redis_del k db) = ∅.
Proof. by rewrite hfields_del_if, decide_True. Qed.

Lemma hfields_del_ne k k' db : k' ≠ k -> hfields k' (redis_del k db) = hfields k' db.
Proof. intros. by rewrite hfields_del_if, decide_False. Qed.

Lemma hget_hfields k f db : hget k f db = hfields k db !! f.
Proof. by rewrite hfields_lookup. Qed.

(** A loop of calls that only read. *)
Lemma exec_for_each_read {A B} (f : A -> prog DB B) (g : A -> B) l db :
  (forall a, a ∈ l -> exec (f a) db = (db, g a)) -> exec (for_each f l) db = (db, g <$> l).
Proof.
  induction l as [|a l IH]; intros Hf; [done|]. cbn [for_each].
  rewrite exec_bind, Hf by set_solver. cbn [fst snd].
  rewrite exec_bind, IH by set_solver. done.
Qed.

(** A loop of writes. *)
Lemma exec_for_each_write {A} (w : A -> DB -> DB) l db :
  exec (for_each (fun a => write (w a)) l) db = (foldl (fun db a => w a db) db l, (fun _ => ()) <$> l).
Proof.
  revert db. induction l as [|a l IH]; intros db; [done|].
  cbn [for_each write bind exec]. rewrite exec_bind, IH. done.
Qed.
End effects.

(** Reads the hash of one key through the commands before. *)
Ltac hash_through :=
  cbn beta;
  repeat first
    [rewrite hfields_hset | rewrite hfields_hdel | rewrite hfields_del_eq
    |rewrite hfields_hset_ne by auto | rewrite hfields_hdel_ne by auto
    |rewrite hfields_del_ne by auto].
