(* ===== verification/P2pRedisRefine.v ===== *)
(** * The Redis P2P backend implements the in-memory one

    [represents] relates a database to a state of the in-memory backend.  Each
    writing method of the Redis backend, run alone, keeps it along the method of the
    in-memory backend, and each reading method answers what the in-memory one does. *)

From Stdlib Require Import ZArith Lia Ascii String QArith.
From stdpp Require Import base tactics option list sorting gmap fin_maps strings pretty.
From S2P Require Import Prelude RustStr RedisStore RedisServer RedisProg P2pTypes.
From S2P Require Import SourceIdentityHash P2pBackend Json P2pRedis P2pRedisFacts.

Import RedisMeta.
Import MemMeta (WorkerEntry, MkWorkerEntry, SourceEntry, MkSourceEntry, ranks, index_rank,
  we_owner_namespace, se_model_name, se_extra_parameters, se_identity, se_workers,
  default_worker, default_source).

(** ** The relation *)

(** The record that a rank's two rows stand for. *)
Definition live_record (j : WorkerRecordJson) (sm : WorkerSummaryJson) : WorkerRecord :=
  let w := worker_record_from j in
  MkWorkerRecord (wr_worker_rank w) (wr_backend_metadata w) (wr_tensors w) (ws_status sm)
    (ws_updated_at sm) (wr_metadata_endpoint w) (wr_agent_name w) (wr_worker_grpc_endpoint w)
    (wr_accelerator w) (ws_source_load sm) (wr_topology w) (wr_artifact_source w).

Section relation.
Context `{JsonText} `{HashIter}.

(** The rows of one rank in a worker hash. *)
Record rank_rows (h : gmap string string) (owner : option string) (r : Z)
    (j : WorkerRecordJson) (sm : WorkerSummaryJson) : Prop := MkRankRows {
  rr_record : h !! decimal r = Some (worker_text j);
  rr_status : h !! status_field r = Some (summary_text sm);
  rr_record_typed : worker_typed j;
  rr_status_typed : summary_typed sm;
  rr_time : time_ok (ws_updated_at sm);
  rr_record_rank : wj_worker_rank j = r;
  rr_status_rank : ws_worker_rank sm = r;
  rr_fresh : (wj_updated_at j <= ws_updated_at sm)%Z;
  rr_accelerator : ws_accelerator sm = wj_accelerator j;
  rr_topology : ws_topology sm = wj_topology j;
  rr_status_owner : ws_owner_namespace sm = owner;
  rr_record_owner : wj_owner_namespace j = owner
}.

(** A worker hash and its row in the source hash against an entry. *)
Record worker_rel (h : gmap string string) (row : option string) (e : WorkerEntry) : Prop :=
  MkWorkerRel {
  wl_ranks : forall r w, ranks e !! r = Some w -> ∃ j sm,
    rank_rows h (we_owner_namespace e) r j sm ∧ w = live_record j sm;
  wl_fields : forall f, is_Some (h !! f) -> ∃ r, is_Some (ranks e !! r) ∧
    (f = decimal r ∨ f = status_field r);
  wl_index : is_Some (ranks e !! index_rank e);
  wl_row : row = h !! status_field (index_rank e)
}.

Definition worker_opt (h : gmap string string) (row : option string) (oe : option WorkerEntry)
    : Prop :=
  match oe with Some e => worker_rel h row e | None => h = ∅ ∧ row = None end.

Definition source_workers (o : option SourceEntry) : gmap string WorkerEntry :=
  se_workers (default default_source o).

(** The attributes of a source. *)
Definition identity_rel (attr : option string) (o : option SourceEntry) : Prop :=
  match o with
  | None => attr = None
  | Some source => ∃ id, identity_typed id ∧ attr = Some (attributes_text (attributes_from id)) ∧
      se_model_name source = si_model_name id ∧
      se_extra_parameters source = si_extra_parameters id ∧ se_identity source = Some id
  end.

(** A source hash and its worker hashes against a source. *)
Record source_rel (S : gmap string string) (W : string -> gmap string string)
    (o : option SourceEntry) : Prop := MkSourceRel {
  so_identity : identity_rel (S !! ATTRIBUTES_FIELD) o;
  so_workers : forall wid, wid ≠ ATTRIBUTES_FIELD ->
    worker_opt (W wid) (S !! wid) (source_workers o !! wid);
  so_reserved : W ATTRIBUTES_FIELD = ∅ ∧ source_workers o !! ATTRIBUTES_FIELD = None;
  so_inhabited : is_Some o -> source_workers o ≠ ∅
}.

Definition represents {DB} `{RedisStore DB} (db : DB) (s : MemMeta.state) : Prop :=
  (forall sid, is_Some (s !! sid) -> colonless sid) ∧
  (forall sid, colonless sid ->
     source_rel (hfields (source_key sid) db) (fun wid => hfields (worker_key sid wid) db) (s !! sid)).
End relation.

(** ** One rank *)

Section ranks.
Context `{JsonTextLaws} `{HashIter, !HashIterLaws}.

Lemma rank_rows_u32 h o r j sm : rank_rows h o r j sm -> u32_typed r.
Proof. intros []. subst. by apply wt_rank. Qed.

Lemma rank_rows_nonneg h o r j sm : rank_rows h o r j sm -> (0 <= r)%Z.
Proof. intros Hr%rank_rows_u32. by destruct Hr. Qed.

Lemma rank_rows_frame h h' o r j sm :
  h' !! decimal r = h !! decimal r -> h' !! status_field r = h !! status_field r ->
  rank_rows h o r j sm -> rank_rows h' o r j sm.
Proof. intros Hd Hs []. by split; rewrite ?Hd, ?Hs. Qed.

Lemma overlay_rows h o r j sm :
  rank_rows h o r j sm ->
  overlay_status h r (wj_status j) (wj_updated_at j) (wj_source_load j) =
  (ws_status sm, ws_updated_at sm, ws_source_load sm).
Proof.
  intros []. unfold overlay_status. rewrite rr_status0. cbn.
  rewrite parse_summary_text by done. by replace (wj_updated_at j <=? ws_updated_at sm)%Z with true by lia.
Qed.

Lemma live_record_fields h o r j sm :
  rank_rows h o r j sm ->
  wr_worker_rank (live_record j sm) = r ∧ wr_status (live_record j sm) = ws_status sm ∧
  wr_updated_at (live_record j sm) = ws_updated_at sm ∧
  wr_accelerator (live_record j sm) = ws_accelerator sm ∧
  wr_source_load (live_record j sm) = ws_source_load sm ∧
  wr_topology (live_record j sm) = ws_topology sm.
Proof. intros []. cbn. by rewrite rr_accelerator0, rr_topology0. Qed.

(** Two ranks share no field. *)
Lemma rank_fields_ne r r' :
  (0 <= r)%Z -> (0 <= r')%Z -> r ≠ r' ->
  decimal r ≠ decimal r' ∧ decimal r ≠ status_field r' ∧
  status_field r ≠ decimal r' ∧ status_field r ≠ status_field r'.
Proof.
  intros Hr Hr' Hne. split_and!.
  - by intros ?%decimal_inj.
  - intros He. by apply (status_decimal r' r).
  - apply status_decimal.
  - by intros ?%status_field_inj.
Qed.

(** The rows of a new publication. *)
Lemma published_rows h m owner :
  message_typed m ->
  rank_rows (<[status_field (wm_worker_rank m) := summary_text (published_summary m owner)]>
               (<[decimal (wm_worker_rank m) := worker_text (published_json m owner)]> h))
    owner (wm_worker_rank m) (published_json m owner) (published_summary m owner) ∧
  live_record (published_json m owner) (published_summary m owner) = WorkerRecord_from m.
Proof.
  intros Hm. destruct (record_fields m) as (Hr & Hs & Ht & Hl).
  assert (Hj : forall m, wj_worker_rank (published_json m owner) = wr_worker_rank (WorkerRecord_from m)
    ∧ wj_updated_at (published_json m owner) = wr_updated_at (WorkerRecord_from m)
    ∧ wj_accelerator (published_json m owner) = wr_accelerator (WorkerRecord_from m)
    ∧ wj_topology (published_json m owner) = wr_topology (WorkerRecord_from m)
    ∧ wj_owner_namespace (published_json m owner) = owner).
  { intros m'. unfold published_json, from_worker_record. by destruct (wr_backend_metadata _). }
  destruct (Hj m) as (Hj1 & Hj2 & Hj3 & Hj4 & Hj5). split.
  - split.
    + rewrite lookup_insert_ne by apply status_decimal. apply lookup_insert_eq.
    + apply lookup_insert_eq.
    + by apply published_json_typed.
    + by apply published_summary_typed.
    + cbn. rewrite Ht. by apply mt_time.
    + by rewrite Hj1.
    + exact Hr.
    + rewrite Hj2. apply Z.le_refl.
    + by rewrite Hj3.
    + by rewrite Hj4.
    + done.
    + done.
  - unfold live_record. rewrite published_record. cbn. by destruct (WorkerRecord_from m).
Qed.

(** The rows after a status update. *)
Lemma updated_rows h o r j sm st t load :
  rank_rows h o r j sm -> (ws_updated_at sm <= t)%Z -> time_ok t -> finite_load load ->
  let sm' := MkSummary r (SourceStatus_i32 st) t (ws_accelerator sm) load (ws_topology sm)
               (ws_owner_namespace sm) in
  rank_rows (<[status_field r := summary_text sm']> h) o r j sm' ∧
  live_record j sm' = MemMeta.with_status (live_record j sm) st t load.
Proof.
  intros Hrows Hle Ht Hl sm'. pose proof (rank_rows_u32 _ _ _ _ _ Hrows) as Hr.
  destruct Hrows. split; [|done]. split; try done.
  - by rewrite lookup_insert_ne by apply status_decimal.
  - apply lookup_insert_eq.
  - split; try done; [by destruct st|by apply time_ok_i64].
  - cbn. lia.
Qed.

Lemma worker_rel_rows h row e r w :
  worker_rel h row e -> ranks e !! r = Some w ->
  ∃ j sm, rank_rows h (we_owner_namespace e) r j sm ∧ w = live_record j sm.
Proof. intros []. auto. Qed.

Lemma worker_rel_nonneg h row e r : worker_rel h row e -> is_Some (ranks e !! r) -> (0 <= r)%Z.
Proof.
  intros Hw [w Hr]. destruct (worker_rel_rows _ _ _ _ _ Hw Hr) as (j & sm & Hrows & _).
  by apply rank_rows_nonneg in Hrows.
Qed.

(** A worker hash has no field of a rank that the entry does not have. *)
Lemma worker_rel_absent h row e r :
  worker_rel h row e -> (0 <= r)%Z -> ranks e !! r = None ->
  h !! decimal r = None ∧ h !! status_field r = None.
Proof.
  intros Hw Hr Hnone.
  assert (forall f, (f = decimal r ∨ f = status_field r) -> h !! f = None) as Hf; [|by split; apply Hf; auto].
  intros f Hf. apply eq_None_not_Some. intros Hs.
  destruct (wl_fields _ _ _ Hw f Hs) as (r' & Hr' & Hf').
  pose proof (worker_rel_nonneg _ _ _ _ Hw Hr') as Hp.
  assert (r ≠ r') as Hne by (intros ->; rewrite Hnone in Hr'; by destruct Hr').
  destruct (rank_fields_ne r r' Hr Hp Hne) as (? & ? & ? & ?). naive_solver.
Qed.

(** The rows of another rank stay. *)
Lemma rank_rows_insert h o r r' j sm v v' :
  (0 <= r')%Z -> r ≠ r' -> rank_rows h o r j sm ->
  rank_rows (<[status_field r' := v]> (<[decimal r' := v']> h)) o r j sm.
Proof.
  intros Hr' Hne Hrows. pose proof (rank_rows_nonneg _ _ _ _ _ Hrows) as Hr.
  destruct (rank_fields_ne r' r Hr' Hr ltac:(done)) as (? & ? & ? & ?).
  eapply rank_rows_frame; [| |exact Hrows]; by rewrite !lookup_insert_ne.
Qed.

Lemma rank_rows_insert_status h o r r' j sm v :
  (0 <= r')%Z -> r ≠ r' -> rank_rows h o r j sm ->
  rank_rows (<[status_field r' := v]> h) o r j sm.
Proof.
  intros Hr' Hne Hrows. pose proof (rank_rows_nonneg _ _ _ _ _ Hrows) as Hr.
  destruct (rank_fields_ne r' r Hr' Hr ltac:(done)) as (? & ? & ? & ?).
  eapply rank_rows_frame; [| |exact Hrows]; by rewrite !lookup_insert_ne.
Qed.

Lemma worker_publish h row oe m owner :
  worker_opt h row oe -> message_typed m ->
  (forall e, oe = Some e -> we_owner_namespace e = owner) ->
  let rank := wm_worker_rank m in
  let summary := summary_text (published_summary m owner) in
  worker_rel (<[status_field rank := summary]>
                (<[decimal rank := worker_text (published_json m owner)]> h))
    (Some summary)
    (MkWorkerEntry (<[rank := WorkerRecord_from m]> (ranks (default default_worker oe))) rank owner).
Proof.
  intros Hw Hm Ho rank summary. destruct (mt_rank _ Hm) as [Hpos _].
  destruct (published_rows h m owner Hm) as [Hrows Hlive]. split; cbn.
  - intros r w. destruct (decide (r = rank)) as [->|Hne].
    + rewrite lookup_insert_eq. intros [= <-]. eauto.
    + rewrite lookup_insert_ne by done. destruct oe as [e|]; cbn; [|by rewrite lookup_empty].
      rewrite <- (Ho e eq_refl). intros Hr.
      destruct (worker_rel_rows _ _ _ _ _ Hw Hr) as (j & sm & Hold & ->).
      exists j, sm. split; [|done]. by apply rank_rows_insert.
  - intros f [v Hf]. apply lookup_insert_Some in Hf as [[<- _]|[_ Hf]].
    { exists rank. rewrite lookup_insert_eq. split; [done|by right]. }
    apply lookup_insert_Some in Hf as [[<- _]|[_ Hf]].
    { exists rank. rewrite lookup_insert_eq. split; [done|by left]. }
    destruct oe as [e|]; cbn.
    + destruct (wl_fields _ _ _ Hw f ltac:(done)) as (r & [w Hr] & Hfr). exists r. split; [|done].
      destruct (decide (r = rank)) as [->|]; [by rewrite lookup_insert_eq|by rewrite lookup_insert_ne].
    + destruct Hw as [-> _]. by rewrite lookup_empty in Hf.
  - by rewrite lookup_insert_eq.
  - by rewrite lookup_insert_eq.
Qed.

(** The entry after a status update. *)
Definition updated_entry (e : WorkerEntry) (r : Z) (w : WorkerRecord) (st : SourceStatus) (t : Z)
    (load : option f32) : WorkerEntry :=
  MkWorkerEntry (<[r := MemMeta.with_status w st t load]> (ranks e)) (index_rank e)
    (we_owner_namespace e).

Lemma worker_update h row e r j sm st t load :
  worker_rel h row e -> rank_rows h (we_owner_namespace e) r j sm ->
  (ws_updated_at sm <= t)%Z -> time_ok t -> finite_load load ->
  let text := summary_text (MkSummary r (SourceStatus_i32 st) t (ws_accelerator sm) load
                              (ws_topology sm) (ws_owner_namespace sm)) in
  worker_rel (<[status_field r := text]> h)
    (if decide (index_rank e = r) then Some text else row)
    (updated_entry e r (live_record j sm) st t load).
Proof.
  intros Hw Hrows Hle Ht Hl text. pose proof (rank_rows_nonneg _ _ _ _ _ Hrows) as Hpos.
  destruct (updated_rows _ _ _ _ _ st t load Hrows Hle Ht Hl) as [Hnew Hlive]. split; cbn.
  - intros r' w. destruct (decide (r' = r)) as [->|Hne].
    + rewrite lookup_insert_eq. intros [= <-]. eauto.
    + rewrite lookup_insert_ne by done. intros Hr.
      destruct (worker_rel_rows _ _ _ _ _ Hw Hr) as (j' & sm' & Hold & ->).
      exists j', sm'. split; [|done]. by apply rank_rows_insert_status.
  - intros f Hf. destruct (decide (f = status_field r)) as [->|Hne].
    { exists r. rewrite lookup_insert_eq. split; [done|by right]. }
    rewrite lookup_insert_ne in Hf by done.
    destruct (wl_fields _ _ _ Hw f Hf) as (r' & [w Hr] & Hfr). exists r'. split; [|done].
    destruct (decide (r' = r)) as [->|]; [by rewrite lookup_insert_eq|by rewrite lookup_insert_ne].
  - destruct (decide (index_rank e = r)) as [->|]; [by rewrite lookup_insert_eq|].
    rewrite lookup_insert_ne by done. apply Hw.
  - case_decide as He; [by rewrite He, lookup_insert_eq|].
    rewrite lookup_insert_ne; [apply Hw|]. intros Hs%status_field_inj; [done|done|].
    eapply worker_rel_nonneg; [exact Hw|apply Hw].
Qed.
End ranks.
