(* ===== verification/P2pRedisSteps.v ===== *)
(** * The simulation: each method of the Redis P2P backend along the in-memory one *)

From Stdlib Require Import ZArith Lia Ascii String QArith.
From stdpp Require Import base tactics option list sorting gmap fin_maps strings pretty.
From S2P Require Import Prelude RustStr RedisStore RedisServer RedisProg P2pTypes.
From S2P Require Import SourceIdentityHash P2pBackend Json P2pRedis P2pRedisFacts P2pRedisRefine.

Import RedisMeta.
Import MemMeta (WorkerEntry, MkWorkerEntry, SourceEntry, MkSourceEntry, ranks, index_rank,
  we_owner_namespace, se_model_name, se_extra_parameters, se_identity, se_workers,
  default_worker, default_source).

(** ** One source *)

Section source.
Context `{JsonTextLaws} `{HashIter, !HashIterLaws}.

Lemma source_rel_ext S S' W W' o :
  S' = S -> (forall wid, W' wid = W wid) -> source_rel S W o -> source_rel S' W' o.
Proof.
  intros -> HW []. split; [done| |by rewrite HW|done]. intros wid Hw. rewrite HW. auto.
Qed.

(** The source hash has a row for exactly the workers. *)
Lemma worker_opt_row h row oe : worker_opt h row oe -> is_Some row ↔ is_Some oe.
Proof.
  destruct oe as [e|]; cbn.
  - intros Hw. split; [done|]. intros _. rewrite (wl_row _ _ _ Hw).
    destruct (wl_index _ _ _ Hw) as [w Hi].
    destruct (worker_rel_rows _ _ _ _ _ Hw Hi) as (j & sm & Hrows & _).
    by rewrite (rr_status _ _ _ _ _ Hrows).
  - by intros [_ ->].
Qed.

Lemma worker_opt_empty h row oe : worker_opt h row oe -> h = ∅ ↔ oe = None.
Proof.
  destruct oe as [e|]; cbn; [|naive_solver]. intros Hw. split; [|done]. intros ->.
  destruct (wl_index _ _ _ Hw) as [w Hi].
  destruct (worker_rel_rows _ _ _ _ _ Hw Hi) as (j & sm & Hrows & _).
  by destruct Hrows; rewrite lookup_empty in rr_record.
Qed.

(** One worker changes or arrives. *)
Lemma source_set_worker S W S' W' o source wid e :
  source_rel S W o -> wid ≠ ATTRIBUTES_FIELD ->
  worker_rel (W' wid) (S' !! wid) e ->
  (forall f, f ≠ wid -> f ≠ ATTRIBUTES_FIELD -> S' !! f = S !! f) ->
  (forall w, w ≠ wid -> W' w = W w) ->
  identity_rel (S' !! ATTRIBUTES_FIELD) (Some source) ->
  se_workers source = <[wid := e]> (source_workers o) ->
  source_rel S' W' (Some source).
Proof.
  intros [Hid Hws [Hr1 Hr2] Hin] Hne Hw HS HW Hid' Hse. split; [done| | |].
  - intros w Hw'. unfold source_workers. cbn. rewrite Hse. destruct (decide (w = wid)) as [->|Hww].
    + by rewrite lookup_insert_eq.
    + rewrite lookup_insert_ne, HS, HW by done. auto.
  - unfold source_workers. cbn. rewrite Hse, lookup_insert_ne, HW by done. done.
  - intros _. unfold source_workers. cbn. rewrite Hse. apply insert_non_empty.
Qed.

(** One worker leaves, and others stay. *)
Lemma source_drop_worker S W W' source wid :
  source_rel S W (Some source) -> wid ≠ ATTRIBUTES_FIELD ->
  W' wid = ∅ -> (forall w, w ≠ wid -> W' w = W w) ->
  delete wid (se_workers source) ≠ ∅ ->
  source_rel (delete wid S) W'
    (Some (MkSourceEntry (se_model_name source) (se_extra_parameters source) (se_identity source)
             (delete wid (se_workers source)))).
Proof.
  intros [Hid Hws [Hr1 Hr2] Hin] Hne HW HW' Hd. split; unfold source_workers; cbn.
  - rewrite lookup_delete_ne by done. exact Hid.
  - intros w Hw. destruct (decide (w = wid)) as [->|Hww].
    + by rewrite !lookup_delete_eq.
    + rewrite !lookup_delete_ne, HW' by done. by apply Hws.
  - rewrite HW', lookup_delete_ne by done. done.
  - done.
Qed.

(** The script's test: no row is left but the attributes. *)
Lemma source_left_empty S W source wid :
  source_rel S W (Some source) -> wid ≠ ATTRIBUTES_FIELD ->
  delete ATTRIBUTES_FIELD (delete wid S) = ∅ ↔ delete wid (se_workers source) = ∅.
Proof.
  intros [Hid Hws [_ Hr] _] Hne. unfold source_workers in *. cbn in *.
  assert (forall f, f ≠ ATTRIBUTES_FIELD -> S !! f = None ↔ se_workers source !! f = None) as Hrow.
  { intros f Hf. pose proof (worker_opt_row _ _ _ (Hws f Hf)) as Hi.
    by rewrite !eq_None_not_Some, Hi. }
  split; intros He; apply map_eq; intros f; rewrite lookup_empty.
  - destruct (decide (f = wid)) as [->|Hf]; [apply lookup_delete_eq|].
    rewrite lookup_delete_ne by done. destruct (decide (f = ATTRIBUTES_FIELD)) as [->|Ha]; [done|].
    apply Hrow; [done|]. apply (f_equal (lookup f)) in He.
    by rewrite !lookup_delete_ne, lookup_empty in He by done.
  - destruct (decide (f = ATTRIBUTES_FIELD)) as [->|Ha]; [apply lookup_delete_eq|].
    rewrite lookup_delete_ne by done. destruct (decide (f = wid)) as [->|Hf]; [apply lookup_delete_eq|].
    rewrite lookup_delete_ne by done. apply Hrow; [done|]. apply (f_equal (lookup f)) in He.
    by rewrite lookup_delete_ne, lookup_empty in He by done.
Qed.

Lemma source_rel_none : source_rel ∅ (fun _ => ∅) None.
Proof.
  split; cbn; unfold source_workers; cbn; intros; by rewrite ?lookup_empty.
Qed.

Lemma source_rel_gone S W : source_rel S W None -> S = ∅ ∧ forall wid, W wid = ∅.
Proof.
  intros [Hid Hws [Hr _] _]. unfold source_workers in Hws. cbn in *. split.
  - apply map_eq. intros f. rewrite lookup_empty.
    destruct (decide (f = ATTRIBUTES_FIELD)) as [->|Hf]; [done|].
    specialize (Hws f Hf). rewrite lookup_empty in Hws. apply Hws.
  - intros wid. destruct (decide (wid = ATTRIBUTES_FIELD)) as [->|Hf]; [done|].
    specialize (Hws wid Hf). rewrite lookup_empty in Hws. apply Hws.
Qed.
End source.

(** ** The database *)

Section database.
Context {DB : Type} `{RedisServer DB} `{!RedisStoreLaws DB, !RedisServerLaws DB}.
Context `{LuaNumbers} `{JsonText} `{!LuaNumbersLaws, !JsonTextLaws} `{HashIter, !HashIterLaws}.
Context `{ToLowercase} `{IdDigest}.
Implicit Types (db : DB) (s : MemMeta.state).

(** Nothing but the keys of one source changes. *)
Definition only_source (sid : string) db db' : Prop :=
  forall k, k ≠ source_key sid -> (forall wid, k ≠ worker_key sid wid) -> hfields k db' = hfields k db.

Lemma represents_step db db' s s' sid :
  represents db s -> colonless sid -> only_source sid db db' ->
  (forall k, k ≠ sid -> s' !! k = s !! k) ->
  source_rel (hfields (source_key sid) db') (fun wid => hfields (worker_key sid wid) db') (s' !! sid) ->
  represents db' s'.
Proof.
  intros [Hc Hr] Hsid Honly Hs Hnew. split.
  - intros k Hk. destruct (decide (k = sid)) as [->|Hne]; [done|]. apply Hc. by rewrite <- Hs.
  - intros k Hk. destruct (decide (k = sid)) as [->|Hne]; [done|]. rewrite Hs by done.
    eapply source_rel_ext; [| |by apply Hr].
    + apply Honly; [by intros ?%source_key_inj|]. intros wid. by apply source_worker_key.
    + intros wid. apply Honly; [apply not_eq_sym; by apply source_worker_key|].
      intros wid' [? _]%worker_key_inj; done.
Qed.

Lemma represents_empty db : (forall k f, hget k f db = None) -> represents db MemMeta.new.
Proof.
  intros He. assert (forall k, hfields k db = ∅) as Hf.
  { intros k. apply map_eq. intros f. by rewrite hfields_lookup, He, lookup_empty. }
  split.
  - intros sid. unfold MemMeta.new. rewrite lookup_empty. by intros [].
  - intros sid Hsid. unfold MemMeta.new. rewrite lookup_empty.
    eapply source_rel_ext; [apply Hf|intros; apply Hf|apply source_rel_none].
Qed.

Lemma source_keys_apart sid :
  colonless sid ->
  (forall wid, worker_key sid wid ≠ source_key sid) ∧
  (forall wid, source_key sid ≠ worker_key sid wid) ∧
  (forall wid wid', wid ≠ wid' -> worker_key sid wid ≠ worker_key sid wid').
Proof.
  intros Hs. split_and!.
  - intros wid He. by apply (source_worker_key sid sid wid).
  - intros wid. by apply source_worker_key.
  - by intros wid wid' Hne [_ ?]%worker_key_inj.
Qed.

(** *** Publication *)

Lemma publish_simulation db s identity wid m owner sid :
  (forall c sid, id_digest c = Ok sid -> colonless sid) ->
  represents db s -> compute_mx_source_id identity = Ok sid ->
  wid ≠ ATTRIBUTES_FIELD -> message_typed m -> identity_typed identity ->
  (forall e, MemMeta.lookup_worker sid wid s = Some e -> we_owner_namespace e = owner) ->
  represents (exec (publish_metadata identity wid m owner) db).1
    (MemMeta.publish_metadata identity wid m owner s).1 ∧
  (exec (publish_metadata identity wid m owner) db).2 = Ok ().
Proof.
  intros Hhex Hrep Hid Hne Hm Hi Ho.
  assert (colonless sid) as Hsid by (by eapply Hhex).
  assert (wr_worker_rank (WorkerRecord_from m) = wm_worker_rank m) as Hrank by apply record_fields.
  unfold publish_metadata, MemMeta.publish_metadata. rewrite Hid, Hrank. cbn [exec bind write fst snd].
  split; [|done].
  destruct (source_keys_apart sid Hsid) as (Hws & Hsw & Hww).
  eapply (represents_step db _ s _ sid); [done|done| | |].
  - intros k Hk Hk'. by hash_through.
  - intros k Hk. by rewrite lookup_insert_ne.
  - rewrite lookup_insert_eq. destruct Hrep as [_ Hrep].
    eapply (source_set_worker _ _ _ _ (s !! sid) _ wid); [by apply Hrep|done| | | | |reflexivity].
    + hash_through. rewrite lookup_insert_eq. eapply worker_publish; [|done|].
      * exact (so_workers _ _ _ (Hrep sid Hsid) wid Hne).
      * intros e He. apply Ho. unfold MemMeta.lookup_worker. unfold source_workers in He.
        destruct (s !! sid); [done|]. cbn in He. by rewrite lookup_empty in He.
    + intros f Hf Hfa. hash_through. by rewrite !lookup_insert_ne by done.
    + intros w Hw. by hash_through.
    + hash_through. rewrite lookup_insert_ne, lookup_insert_eq by done. by exists identity.
Qed.
(** *** Removal *)

Lemma remove_script_test S W source wid a :
  source_rel S W (Some source) -> wid ≠ ATTRIBUTES_FIELD ->
  delete wid S !! ATTRIBUTES_FIELD = Some a ->
  (Z.of_nat (size (delete wid S)) =? 0)%Z ||
    ((Z.of_nat (size (delete wid S)) =? 1)%Z && true) =
  bool_decide (delete wid (se_workers source) = ∅).
Proof.
  intros Hs Hne Ha. apply eq_bool_prop_intro. rewrite bool_decide_spec.
  rewrite <- (source_left_empty S W source wid) by done.
  set (D := delete wid S) in *.
  rewrite <- map_size_empty_iff, map_size_delete, Ha. cbn.
  assert (size D ≠ 0) as Hpos by (rewrite map_size_ne_0_lookup; eauto).
  rewrite Is_true_true, orb_true_iff, andb_true_iff, !Z.eqb_eq. lia.
Qed.

Lemma remove_worker_simulation db s sid wid :
  represents db s -> colonless sid -> wid ≠ ATTRIBUTES_FIELD ->
  represents (exec (remove_worker sid wid) db).1 (MemMeta.remove_worker sid wid s) ∧
  (exec (remove_worker sid wid) db).2 = Ok ().
Proof.
  intros Hrep Hsid Hne. unfold remove_worker. cbn [exec].
  destruct (REMOVE_WORKER_LUA _ _ _ _ db) as [db' n] eqn:Hrun. cbn [fst snd]. split; [|done].
  unfold REMOVE_WORKER_LUA in Hrun. injection Hrun as <- _. rewrite hlen_size.
  destruct (source_keys_apart sid Hsid) as (Hws & Hsw & Hww).
  assert (Hsrc := proj2 Hrep sid Hsid).
  eapply (represents_step db _ s _ sid); [done|done| | |].
  - intros k Hk Hk'. case_match; by hash_through.
  - intros k Hk. unfold MemMeta.remove_worker. destruct (s !! sid); [|done].
    case_bool_decide; by rewrite ?lookup_delete_ne, ?lookup_insert_ne.
  - unfold hexists. rewrite hget_hfields. hash_through.
    unfold MemMeta.remove_worker. destruct (s !! sid) as [source|] eqn:Hs.
    + destruct (so_identity _ _ _ Hsrc) as (id & _ & Ha & _).
      assert (delete wid (hfields (source_key sid) db) !! ATTRIBUTES_FIELD =
              Some (attributes_text (attributes_from id))) as Ha'
        by (by rewrite lookup_delete_ne).
      rewrite Ha'. cbn [negb is_some_and]. erewrite remove_script_test by done.
      case_bool_decide as Hd.
      * rewrite lookup_delete_eq. apply (source_rel_ext ∅ _ (fun _ => ∅)); [by hash_through| |apply source_rel_none].
        intros w. destruct (decide (w = wid)) as [->|Hw]; hash_through; [done|].
        destruct (decide (w = ATTRIBUTES_FIELD)) as [->|Hwa]; [apply Hsrc|].
        pose proof (so_workers _ _ _ Hsrc w Hwa) as Hwr. eapply worker_opt_empty; [exact Hwr|].
        apply (f_equal (lookup w)) in Hd. by rewrite lookup_delete_ne, lookup_empty in Hd.
      * rewrite lookup_insert_eq.
        eapply source_rel_ext; [by hash_through|reflexivity|].
        eapply source_drop_worker; [exact Hsrc|done|by hash_through| |done].
        intros w Hw. by hash_through.
    + rewrite Hs. apply source_rel_gone in Hsrc as [He Hw]. rewrite He, delete_empty, map_size_empty.
      replace (Z.of_nat 0 =? 0)%Z with true by done. cbn [orb].
      apply (source_rel_ext ∅ _ (fun _ => ∅)); [by hash_through| |apply source_rel_none].
      intros w. destruct (decide (w = wid)) as [->|Hww']; by hash_through.
Qed.

Lemma hfields_del_rows sid rows k db :
  hfields k (foldl (fun db '(iid, _) => redis_del (worker_key sid iid) db) db rows) =
  if decide (Exists (fun row : string * string => k = worker_key sid row.1) rows) then ∅
  else hfields k db.
Proof.
  revert db. induction rows as [|[iid v] rows IH]; intros db.
  { rewrite decide_False; [done|]. by intros ?%Exists_nil. }
  cbn [foldl]. rewrite IH, hfields_del_if.
  destruct (decide (Exists _ ((iid, v) :: rows))) as [Hex|Hex]; rewrite Exists_cons in Hex; cbn in Hex.
  - repeat case_decide; naive_solver.
  - rewrite !decide_False by tauto. done.
Qed.

Lemma elem_of_worker_rows (h : gmap string string) f v :
  (f, v) ∈ worker_rows h ↔ h !! f = Some v ∧ f ≠ ATTRIBUTES_FIELD.
Proof.
  unfold worker_rows. rewrite list_elem_of_In, filter_In, <- list_elem_of_In, elem_of_hash_entries.
  cbn. by rewrite negb_true_iff, String.eqb_neq.
Qed.

Lemma remove_metadata_simulation db s sid :
  represents db s -> colonless sid ->
  represents (exec (remove_metadata sid) db).1 (MemMeta.remove_metadata sid s) ∧
  (exec (remove_metadata sid) db).2 = Ok ().
Proof.
  intros Hrep Hsid. unfold remove_metadata, Read. cbn [exec].
  assert (forall l db, exec (for_each (fun '(iid, _) => write (redis_del (worker_key sid iid))) l) db =
    (foldl (fun db '(iid, _) => redis_del (worker_key sid iid) db) db l, (fun _ : string * string => ()) <$> l))
    as Hloop.
  { intros l. induction l as [|[iid v] l IH]; intros db0; [done|].
    cbn [for_each write bind exec foldl]. by rewrite exec_bind, IH. }
  rewrite exec_bind, Hloop. cbn [exec write bind fst snd]. split; [|done].
  destruct (source_keys_apart sid Hsid) as (Hws & Hsw & Hww).
  assert (Hsrc := proj2 Hrep sid Hsid).
  eapply (represents_step db _ s _ sid); [done|done| | |].
  - intros k Hk Hk'. hash_through. rewrite hfields_del_rows, decide_False; [done|].
    intros ([iid v] & _ & ->)%Exists_exists. by apply (Hk' iid).
  - intros k Hk. unfold MemMeta.remove_metadata. by rewrite lookup_delete_ne.
  - unfold MemMeta.remove_metadata. rewrite lookup_delete_eq.
    apply (source_rel_ext ∅ _ (fun _ => ∅)); [by hash_through| |apply source_rel_none].
    intros w. hash_through. rewrite hfields_del_rows. case_decide as Hex; [done|].
    destruct (decide (w = ATTRIBUTES_FIELD)) as [->|Hwa]; [apply Hsrc|].
    pose proof (so_workers _ _ _ Hsrc w Hwa) as Hwr.
    destruct (hfields (source_key sid) db !! w) as [v|] eqn:Hrow.
    + destruct Hex. apply Exists_exists. exists (w, v). split; [|done]. by apply elem_of_worker_rows.
    + eapply worker_opt_empty; [exact Hwr|]. apply eq_None_not_Some. intros Hi.
      apply (worker_opt_row _ _ _ Hwr) in Hi. by destruct Hi.
Qed.

(** *** Status updates *)

(** The script on fresh rows. *)
Lemma update_script db sid wid r j sm i (text : string) t :
  rank_rows (hfields (worker_key sid wid) db) (ws_owner_namespace sm) r j sm ->
  (∃ smi, hget (source_key sid) wid db = Some (summary_text smi) ∧ summary_typed smi ∧
     time_ok (ws_updated_at smi) ∧ ws_worker_rank smi = i ∧ (i = r -> smi = sm)) ->
  (ws_updated_at sm <= t)%Z -> time_ok t ->
  UPDATE_STATUS_IF_FRESH_LUA (worker_key sid wid) (source_key sid) (decimal r) (status_field r) wid
    text (signed_decimal t) db =
  (let db' := hset (worker_key sid wid) (status_field r) text db in
   if decide (i = r) then hset (source_key sid) wid text db' else db', Some 1%Z).
Proof.
  intros Hrows (smi & Hrow & Hty & Hti & Hi & Hsame) Hle Ht.
  pose proof (rank_rows_u32 _ _ _ _ _ Hrows) as Hr. destruct Hrows.
  unfold UPDATE_STATUS_IF_FRESH_LUA, hexists. rewrite !hget_hfields, rr_record, rr_status, <- hget_hfields, Hrow.
  cbn [negb]. rewrite tonumber_signed by done.
  destruct (cjson_summary sm) as (g & Hg & Hgr & Hgt); [done..|]. cbn [mbind option_bind]. rewrite Hg.
  cbn [mbind option_bind]. rewrite Hgt.
  cbn [row_is_newer mbind option_bind]. replace (t <? ws_updated_at sm)%Z with false by lia.
  unfold updates_source_row. rewrite tonumber_summary.
  destruct (cjson_summary smi) as (gi & Hgi & Hgir & Hgit); [done..|]. rewrite Hgi, Hgir, Hgit, Hi.
  rewrite tonumber_decimal by (unfold u32_typed, u32_max, lua_int_max in *; lia).
  destruct (decide (i = r)) as [->|Hne].
  - rewrite bool_decide_true by done. rewrite (Hsame eq_refl). cbn [row_is_newer mbind option_bind fmap option_fmap option_map].
    by replace (t <? ws_updated_at sm)%Z with false by lia.
  - by rewrite bool_decide_false by congruence.
Qed.

(** The row of a worker in the source hash. *)
Lemma source_row db s sid wid e :
  represents db s -> colonless sid -> wid ≠ ATTRIBUTES_FIELD ->
  source_workers (s !! sid) !! wid = Some e ->
  worker_rel (hfields (worker_key sid wid) db) (hfields (source_key sid) db !! wid) e.
Proof.
  intros [_ Hrep] Hsid Hne He. pose proof (so_workers _ _ _ (Hrep sid Hsid) wid Hne) as Hw.
  cbn in Hw. by rewrite He in Hw.
Qed.

Lemma lookup_source_worker sid wid s :
  MemMeta.lookup_worker sid wid s = source_workers (s !! sid) !! wid.
Proof.
  unfold MemMeta.lookup_worker, source_workers. destruct (s !! sid); cbn; [done|].
  by rewrite lookup_empty.
Qed.

(** A rank that the in-memory state does not have is in no worker hash. *)
Lemma rank_absent db s sid wid r :
  represents db s -> colonless sid -> (0 <= r)%Z ->
  (forall e, MemMeta.lookup_worker sid wid s = Some e -> ranks e !! r = None) ->
  hget (worker_key sid wid) (decimal r) db = None ∧
  hget (worker_key sid wid) (status_field r) db = None.
Proof.
  intros Hrep Hsid Hr Hno. rewrite !hget_hfields. setoid_rewrite lookup_source_worker in Hno.
  destruct (decide (wid = ATTRIBUTES_FIELD)) as [->|Hne].
  { destruct (so_reserved _ _ _ (proj2 Hrep sid Hsid)) as [He _]. cbn in He.
    by rewrite He, !lookup_empty. }
  pose proof (so_workers _ _ _ (proj2 Hrep sid Hsid) wid Hne) as Hw. cbn in Hw.
  destruct (source_workers (s !! sid) !! wid) as [e|] eqn:He; cbn in Hw.
  - by eapply worker_rel_absent; [exact Hw|done|apply Hno].
  - destruct Hw as [-> _]. by rewrite !lookup_empty.
Qed.

Lemma memory_update_missing sid wid r st t load s :
  (forall e, MemMeta.lookup_worker sid wid s = Some e -> ranks e !! r = None) ->
  MemMeta.update_status sid wid r st t load s = (s, Err "rank not found").
Proof.
  unfold MemMeta.lookup_worker, MemMeta.update_status. intros Hno.
  destruct (s !! sid) as [source|]; [|done]. cbn in Hno.
  destruct (se_workers source !! wid) as [e|]; [|done]. by rewrite Hno.
Qed.

Definition succeeds {A E} (r : result A E) : bool := match r with Ok _ => true | Err _ => false end.

Lemma update_simulation db s sid wid r st t load :
  represents db s -> colonless sid -> u32_typed r -> time_ok t -> finite_load load ->
  (forall e w, MemMeta.lookup_worker sid wid s = Some e -> ranks e !! r = Some w ->
     (wr_updated_at w <= t)%Z) ->
  represents (exec (update_status sid wid r st t load) db).1
    (MemMeta.update_status sid wid r st t load s).1 ∧
  succeeds (exec (update_status sid wid r st t load) db).2 =
  succeeds (MemMeta.update_status sid wid r st t load s).2.
Proof.
  intros Hrep Hsid Hr Ht Hl Hfresh. destruct (Hr) as [Hpos _].
  destruct (match MemMeta.lookup_worker sid wid s with
            | Some e => match ranks e !! r with Some w => Some (e, w) | None => None end
            | None => None end) as [[e w]|] eqn:Hfind.
  2:{ assert (forall e, MemMeta.lookup_worker sid wid s = Some e -> ranks e !! r = None) as Hno.
      { intros e He. rewrite He in Hfind. by destruct (ranks e !! r). }
      rewrite memory_update_missing by done.
      destruct (rank_absent db s sid wid r) as [Hd Hst]; [done..|].
      unfold update_status, Read. cbn [exec]. rewrite Hst. cbn [mbind option_bind exec]. by rewrite Hd. }
  destruct (MemMeta.lookup_worker sid wid s) as [e'|] eqn:He; [|done].
  destruct (ranks e' !! r) as [w'|] eqn:Hw; [|done]. injection Hfind as -> ->.
  assert (wid ≠ ATTRIBUTES_FIELD) as Hne.
  { intros ->. destruct (so_reserved _ _ _ (proj2 Hrep sid Hsid)) as [_ Hres].
    by rewrite lookup_source_worker, Hres in He. }
  rewrite lookup_source_worker in He.
  pose proof (source_row _ _ _ _ _ Hrep Hsid Hne He) as Hwr.
  destruct (worker_rel_rows _ _ _ _ _ Hwr Hw) as (j & sm & Hrows & ->).
  assert (ws_updated_at sm <= t)%Z as Hle by exact (Hfresh e _ eq_refl Hw).
  assert (ws_owner_namespace sm = we_owner_namespace e) as Hown by apply Hrows.
  destruct (wl_index _ _ _ Hwr) as [wi Hwi].
  destruct (worker_rel_rows _ _ _ _ _ Hwr Hwi) as (ji & smi & Hrowsi & _).
  set (text := summary_text (MkSummary r (SourceStatus_i32 st) t (ws_accelerator sm) load
                              (ws_topology sm) (ws_owner_namespace sm))).
  assert (exec (update_status sid wid r st t load) db =
    (let db' := hset (worker_key sid wid) (status_field r) text db in
     if decide (index_rank e = r) then hset (source_key sid) wid text db' else db', Ok ())) as Hrun.
  { unfold update_status, Read. cbn [exec]. rewrite hget_hfields, (rr_status _ _ _ _ _ Hrows).
    cbn [mbind option_bind]. rewrite parse_summary_text by apply Hrows.
    unfold write_status, update_status_if_fresh. cbn [bind exec].
    erewrite (update_script db sid wid r j sm (index_rank e)); [reflexivity| | |done|done].
    - by rewrite Hown.
    - exists smi. rewrite hget_hfields, (wl_row _ _ _ Hwr), (rr_status _ _ _ _ _ Hrowsi).
      split; [done|]. split; [apply Hrowsi|]. split; [apply Hrowsi|]. split; [apply Hrowsi|].
      intros Hir. rewrite Hir in Hrowsi.
      pose proof (rr_status _ _ _ _ _ Hrowsi) as H1'. rewrite (rr_status _ _ _ _ _ Hrows) in H1'.
      apply (f_equal (fun o => o ≫= parse_summary)) in H1'. cbn [mbind option_bind] in H1'.
      rewrite !parse_summary_text in H1' by (apply Hrows || apply Hrowsi). by injection H1'. }
  rewrite Hrun. cbn [fst snd].
  unfold MemMeta.update_status. unfold source_workers in He.
  destruct (s !! sid) as [source|] eqn:Hs; cbn in He; [|by rewrite lookup_empty in He].
  rewrite He, Hw. cbn [fst snd]. split; [|done].
  destruct (source_keys_apart sid Hsid) as (Hws & Hsw & Hww).
  assert (Hsrc := proj2 Hrep sid Hsid). rewrite Hs in Hsrc.
  eapply (represents_step db _ s _ sid); [done|done| | |].
  - intros k Hk Hk'. cbn zeta. case_decide; by hash_through.
  - intros k Hk. by rewrite lookup_insert_ne.
  - rewrite lookup_insert_eq. cbn zeta.
    eapply (source_set_worker _ _ _ _ _ _ wid); [exact Hsrc|done| | | | |reflexivity].
    + pose proof (worker_update _ _ _ _ _ _ st t load Hwr Hrows Hle Ht Hl) as Hnew.
      case_decide; hash_through; rewrite ?lookup_insert_eq; exact Hnew.
    + intros f Hf Hfa. case_decide; hash_through; by rewrite ?lookup_insert_ne.
    + intros w Hw'. case_decide; by hash_through.
    + destruct (so_identity _ _ _ Hsrc) as (id & Hid).
      case_decide; hash_through; rewrite ?lookup_insert_ne by done; by exists id.
Qed.

End database.
