(* ===== verification/P2pRedisReads.v ===== *)
(** * What the Redis P2P backend reads

    In a database that represents an in-memory state, a lookup answers the same
    record, a listing the same workers, and the pipelined [list_workers_filtered]
    exactly what the trait's default would make of [list_workers]. *)

From Stdlib Require Import ZArith Lia Ascii String QArith.
From stdpp Require Import base tactics option list sorting gmap fin_maps strings pretty.
From S2P Require Import Prelude RustStr RedisStore RedisServer RedisProg P2pTypes.
From S2P Require Import SourceIdentityHash P2pBackend Json P2pRedis P2pRedisFacts P2pRedisRefine.
From S2P Require Import P2pRedisSteps.

Import RedisMeta.
Import MemMeta (WorkerEntry, MkWorkerEntry, SourceEntry, MkSourceEntry, ranks, index_rank,
  we_owner_namespace, se_model_name, se_extra_parameters, se_identity, se_workers,
  default_worker, default_source).

(** ** Lists *)

Lemma NoDup_omap_inj {A B} (f : A -> option B) (l : list A) :
  NoDup l -> (forall x y z, x ∈ l -> y ∈ l -> f x = Some z -> f y = Some z -> x = y) ->
  NoDup (omap f l).
Proof.
  induction l as [|a l IH]; intros Hnd Hinj; [constructor|]. apply NoDup_cons in Hnd as [Ha Hnd].
  assert (NoDup (omap f l)) as Hl.
  { apply IH; [done|]. intros x y z ??. apply Hinj; by apply elem_of_cons; right. }
  cbn. destruct (f a) as [b|] eqn:Hb; [|done]. apply NoDup_cons. split; [|done].
  intros (x & Hx & Hfx)%list_elem_of_omap. apply Ha.
  rewrite (Hinj a x b); [done|apply elem_of_cons; by left|apply elem_of_cons; by right|done|done].
Qed.

Lemma filter_omap {A B} (p : B -> bool) (f : A -> option B) l :
  List.filter p (omap f l) = omap (fun x => y ← f x; if p y then Some y else None) l.
Proof.
  induction l as [|a l IH]; [done|]. cbn. destruct (f a) as [b|]; cbn; [|done].
  destruct (p b); cbn; by rewrite IH.
Qed.

Lemma omap_option_list {A B} (f : A -> option B) l : concat (option_list ∘ f <$> l) = omap f l.
Proof. induction l as [|a l IH]; [done|]. cbn. rewrite IH. by destruct (f a). Qed.

Lemma filter_concat {A} (p : A -> bool) (ls : list (list A)) :
  List.filter p (concat ls) = concat (List.filter p <$> ls).
Proof. induction ls as [|l ls IH]; [done|]. cbn. by rewrite List.filter_app, IH. Qed.

Lemma concat_fmap_perm {A B} (f g : A -> list B) l :
  (forall a, a ∈ l -> f a ≡ₚ g a) -> concat (f <$> l) ≡ₚ concat (g <$> l).
Proof.
  induction l as [|a l IH]; intros Hfg; [done|]. cbn. rewrite Hfg by (apply elem_of_cons; by left).
  rewrite IH; [done|]. intros b Hb. apply Hfg, elem_of_cons. by right.
Qed.

Lemma concat_perm {A} (ls ls' : list (list A)) : ls ≡ₚ ls' -> concat ls ≡ₚ concat ls'.
Proof.
  induction 1; cbn; [done|by f_equiv| |by etrans].
  rewrite !app_assoc. by rewrite (Permutation_app_comm y x).
Qed.

Lemma zip_with_fmap_self {A B C} (g : A -> B -> C) (h : A -> B) l :
  zip_with g l (h <$> l) = (fun a => g a (h a)) <$> l.
Proof. induction l as [|a l IH]; [done|]. cbn. by rewrite IH. Qed.

Lemma concat_fmap_concat {A B} (f : A -> list B) (ls : list (list A)) :
  concat (f <$> concat ls) = concat ((fun l => concat (f <$> l)) <$> ls).
Proof. induction ls as [|l ls IH]; [done|]. cbn. by rewrite fmap_app, concat_app, IH. Qed.

Lemma sort_by_key_unique {A} (key : A -> Z) (l l' : list A) :
  NoDup (key <$> l) -> l ≡ₚ l' -> sort_by_key key l = sort_by_key key l'.
Proof.
  intros Hnd Hp. apply (StronglySorted_unique_strong (fun a b => (key a <= key b)%Z));
    [|apply sort_by_key_sorted..|by rewrite !sort_by_key_perm].
  intros x y Hx Hy Hle Hge. rewrite sort_by_key_perm in Hx. rewrite sort_by_key_perm, <- Hp in Hy.
  assert (key x = key y) as Hk by lia. clear -Hnd Hx Hy Hk.
  induction l as [|a l IH]; [by apply elem_of_nil in Hx|]. cbn in Hnd.
  apply NoDup_cons in Hnd as [Ha Hnd].
  assert (forall b, b ∈ l -> key a ≠ key b) as Hno.
  { intros b Hb Hab. apply Ha. rewrite Hab. by apply list_elem_of_fmap_2. }
  apply elem_of_cons in Hx as [->|Hx]; apply elem_of_cons in Hy as [->|Hy]; naive_solver.
Qed.

Lemma sort_by_key_fmap {A B} (key : B -> Z) (f : A -> B) l :
  f <$> sort_by_key (key ∘ f) l = sort_by_key key (f <$> l).
Proof.
  unfold sort_by_key, sort_by, compose. induction l as [|a l IH]; [done|]. cbn. rewrite <- IH.
  generalize (foldr (insert_by (fun x y => (key (f x) <=? key (f y))%Z)) [] l). clear.
  intros l0. induction l0 as [|b l0 IH]; [done|]. cbn. destruct (key (f a) <=? key (f b))%Z; [done|].
  cbn. by rewrite IH.
Qed.

Lemma sort_by_key_ext {A} (k k' : A -> Z) l :
  (forall x, x ∈ l -> k x = k' x) -> sort_by_key k l = sort_by_key k' l.
Proof.
  unfold sort_by_key, sort_by. induction l as [|a l IH]; intros Hk; [done|]. cbn [foldr].
  rewrite IH by (intros; apply Hk, elem_of_cons; by right).
  assert (forall l0, (forall b, b ∈ l0 -> k b = k' b) ->
    insert_by (fun x y => (k x <=? k y)%Z) a l0 = insert_by (fun x y => (k' x <=? k' y)%Z) a l0) as Hins.
  { intros l0 Hl0. induction l0 as [|b l0 IH0]; [done|]. cbn.
    rewrite (Hk a) by (apply elem_of_cons; by left).
    rewrite (Hl0 b) by (apply elem_of_cons; by left). case_match; [done|].
    f_equal. apply IH0. intros; apply Hl0, elem_of_cons; by right. }
  apply Hins. intros b Hb. apply Hk, elem_of_cons. right.
  exact (proj1 (elem_of_sort_by (fun x y => (k' x <=? k' y)%Z) b l) Hb).
Qed.

(** ** Lookup *)

Section reads.
Context {DB : Type} `{RedisServer DB} `{!RedisStoreLaws DB, !RedisServerLaws DB}.
Context `{LuaNumbers} `{JsonText} `{!LuaNumbersLaws, !JsonTextLaws} `{HashIter, !HashIterLaws}.
Context `{ToLowercase} `{IdDigest}.
Implicit Types (db : DB) (s : MemMeta.state).

(** The rank and record that a field of a worker hash stands for. *)
Definition record_at (e : WorkerEntry) (row : string * string) : option (Z * WorkerRecord) :=
  if starts_with STATUS_FIELD_PREFIX row.1 then None
  else r ← parse_unsigned u32_max row.1; w ← ranks e !! r; Some (r, w).

Lemma record_at_decimal e r v h row j sm :
  worker_rel h row e -> rank_rows h (we_owner_namespace e) r j sm ->
  ranks e !! r = Some (live_record j sm) ->
  record_at e (decimal r, v) = Some (r, live_record j sm).
Proof.
  intros Hw Hrows Hr. unfold record_at. cbn. rewrite decimal_not_status.
  rewrite parse_unsigned_decimal by (by eapply rank_rows_u32). cbn. by rewrite Hr.
Qed.

(** A field that is not a status field is a rank's record. *)
Lemma record_field h row e f v :
  worker_rel h row e -> h !! f = Some v -> starts_with STATUS_FIELD_PREFIX f = false ->
  ∃ r j sm, f = decimal r ∧ v = worker_text j ∧ rank_rows h (we_owner_namespace e) r j sm ∧
    ranks e !! r = Some (live_record j sm).
Proof.
  intros Hw Hf Hst. destruct (wl_fields _ _ _ Hw f (mk_is_Some _ _ Hf)) as (r & [w Hr] & [->| ->]).
  - destruct (worker_rel_rows _ _ _ _ _ Hw Hr) as (j & sm & Hrows & ->).
    exists r, j, sm. rewrite (rr_record _ _ _ _ _ Hrows) in Hf. by simplify_eq.
  - by rewrite starts_with_status in Hst.
Qed.

Lemma collect_workers_rel h row e l o :
  worker_rel h row e -> (forall f v, (f, v) ∈ l -> h !! f = Some v) ->
  o = None ∨ o = we_owner_namespace e ->
  ∃ o', collect_workers h l o = Ok (o', (omap (record_at e) l).*2) ∧
    (o' = o ∨ o' = we_owner_namespace e) ∧ (omap (record_at e) l ≠ [] -> o' = we_owner_namespace e).
Proof.
  intros Hw. revert o. induction l as [|[f v] l IH]; intros o Hl Ho; [exists o; by split; [|split; [left|]]|].
  assert (Hf : h !! f = Some v) by (apply Hl, elem_of_cons; by left).
  assert (Hl' : forall f v, (f, v) ∈ l -> h !! f = Some v)
    by (intros; apply Hl, elem_of_cons; by right).
  cbn [collect_workers omap list_omap].
  destruct (starts_with STATUS_FIELD_PREFIX f) eqn:Hst.
  { assert (record_at e (f, v) = None) as -> by (unfold record_at; cbn; by rewrite Hst). by apply IH. }
  destruct (record_field h row e f v Hw Hf Hst) as (r & j & sm & -> & -> & Hrows & Hr).
  rewrite (record_at_decimal e r (worker_text j) h row j sm) by done.
  rewrite parse_worker_text by apply Hrows. rewrite (rr_record_owner _ _ _ _ _ Hrows).
  assert (match o with Some o => Some o | None => we_owner_namespace e end = we_owner_namespace e)
    as -> by (by destruct Ho as [->| ->]; [|destruct (we_owner_namespace e)]).
  destruct (IH (we_owner_namespace e) Hl' ltac:(by right)) as (o' & Hc & Ho' & _). rewrite Hc.
  assert (o' = we_owner_namespace e) as -> by (by destruct Ho').
  pose proof (overlay_rows _ _ _ _ _ Hrows) as Hov.
  exists (we_owner_namespace e). cbn. rewrite (rr_record_rank _ _ _ _ _ Hrows), Hov. cbn.
  split; [|by split; [right|]]. repeat f_equal. unfold live_record. cbn.
  by rewrite (rr_record_rank _ _ _ _ _ Hrows).
Qed.

Lemma records_perm h row e :
  worker_rel h row e -> omap (record_at e) (hash_entries h) ≡ₚ map_to_list (ranks e).
Proof.
  intros Hw. apply NoDup_Permutation.
  - apply NoDup_omap_inj.
    + eapply NoDup_fmap_1, NoDup_hash_keys.
    + intros [f v] [f' v'] z Hx Hy Hz Hz'. apply elem_of_hash_entries in Hx, Hy.
      unfold record_at in Hz, Hz'. cbn in Hz, Hz'.
      destruct (starts_with STATUS_FIELD_PREFIX f) eqn:Hs; [done|].
      destruct (starts_with STATUS_FIELD_PREFIX f') eqn:Hs'; [done|].
      destruct (record_field h row e f v Hw Hx Hs) as (r & j & sm & -> & -> & Hrows & Hr).
      destruct (record_field h row e f' v' Hw Hy Hs') as (r' & j' & sm' & -> & -> & Hrows' & Hr').
      rewrite parse_unsigned_decimal in Hz by (by eapply rank_rows_u32).
      rewrite parse_unsigned_decimal in Hz' by (by eapply rank_rows_u32). cbn in Hz, Hz'.
      rewrite Hr in Hz. rewrite Hr' in Hz'. cbn in Hz, Hz'. simplify_eq.
      congruence.
  - apply NoDup_map_to_list.
  - intros [r w]. rewrite elem_of_map_to_list, list_elem_of_omap. split.
    + intros ([f v] & Hin & Hz). unfold record_at in Hz. cbn in Hz.
      destruct (starts_with STATUS_FIELD_PREFIX f); [done|].
      destruct (parse_unsigned u32_max f) as [r'|]; [|done]. cbn in Hz.
      destruct (ranks e !! r') eqn:Hr; [|done]. cbn in Hz. by simplify_eq.
    + intros Hr. destruct (worker_rel_rows _ _ _ _ _ Hw Hr) as (j & sm & Hrows & ->).
      exists (decimal r, worker_text j). split.
      * apply elem_of_hash_entries, Hrows.
      * by eapply record_at_decimal.
Qed.

(** Sorted by rank, the records are the values of the entry's map. *)
Lemma records_sorted h row e l :
  worker_rel h row e -> l ≡ₚ map_to_list (ranks e) ->
  sort_by_key wr_worker_rank l.*2 = MemMeta.btree_values (ranks e).
Proof.
  intros Hw Hl. unfold MemMeta.btree_values. rewrite <- sort_by_key_fmap. f_equal.
  rewrite (sort_by_key_ext _ fst).
  - apply sort_by_key_unique; [|done]. rewrite Hl. apply NoDup_fst_map_to_list.
  - intros [r w] Hin. rewrite Hl in Hin. apply elem_of_map_to_list in Hin.
    destruct (worker_rel_rows _ _ _ _ _ Hw Hin) as (j & sm & Hrows & ->).
    by apply (live_record_fields _ _ _ _ _ Hrows).
Qed.

Lemma get_simulation db s sid wid :
  represents db s -> colonless sid ->
  exec (get_metadata sid wid) db = (db, Ok (MemMeta.get_metadata sid wid s)).
Proof.
  intros Hrep Hsid. assert (Hsrc := proj2 Hrep sid Hsid).
  assert (MemMeta.lookup_worker sid wid s = None -> hfields (worker_key sid wid) db = ∅) as Hnone.
  { rewrite lookup_source_worker. intros He.
    destruct (decide (wid = ATTRIBUTES_FIELD)) as [->|Hne]; [apply Hsrc|].
    pose proof (so_workers _ _ _ Hsrc wid Hne) as Hw. cbn in Hw.
    by apply (worker_opt_empty _ _ _ Hw). }
  unfold get_metadata, Read. cbn [exec].
  unfold MemMeta.get_metadata, MemMeta.lookup_worker in *.
  destruct (s !! sid) as [source|] eqn:Hs; cbn [mbind option_bind] in *.
  2:{ rewrite Hnone by done. by rewrite bool_decide_true. }
  destruct (se_workers source !! wid) as [e|] eqn:He; cbn [mbind option_bind].
  2:{ rewrite Hnone by done. by rewrite bool_decide_true. }
  assert (wid ≠ ATTRIBUTES_FIELD) as Hne.
  { intros ->. destruct (so_reserved _ _ _ Hsrc) as [_ Hres]. unfold source_workers in Hres. cbn in Hres.
    by rewrite Hres in He. }
  pose proof (so_workers _ _ _ Hsrc wid Hne) as Hw. unfold source_workers in Hw. cbn in Hw.
  rewrite He in Hw. cbn in Hw.
  destruct (wl_index _ _ _ Hw) as [wi Hwi].
  assert (ranks e ≠ ∅) as Hranks by (intros Hr; by rewrite Hr, lookup_empty in Hwi).
  rewrite (bool_decide_false _ Hranks), bool_decide_false.
  2:{ intros Hh. pose proof (proj1 (worker_opt_empty _ _ (Some e) Hw) Hh). done. }
  destruct (so_identity _ _ _ Hsrc) as (i & Hit & Ha & Hn & _ & Hi).
  cbn [exec]. rewrite hget_hfields, Ha. unfold source_identity_from_attributes.
  cbn [mbind option_bind]. rewrite parse_attributes_text by done.
  cbn [fmap option_fmap option_map default from_option id exec].
  destruct (collect_workers_rel (hfields (worker_key sid wid) db) (hfields (source_key sid) db !! wid) e
              (hash_entries (hfields (worker_key sid wid) db)) None)
    as (o' & Hc & _ & Ho); [exact Hw|by intros f v ?%elem_of_hash_entries|by left|].
  rewrite Hc, Ho.
  2:{ intros Hm. pose proof (records_perm _ _ _ Hw) as Hp. rewrite Hm in Hp.
      symmetry in Hp. by apply Permutation_nil_r, map_to_list_empty_iff in Hp. }
  cbn. rewrite attributes_identity, Hn, Hi. repeat f_equal.
  by eapply records_sorted, records_perm.
Qed.
(** ** Listings *)

(** The rows of one source in a listing. *)
Definition listed db (st : option SourceStatus) (sid : string) : list SourceInstanceInfo :=
  let S := hfields (source_key sid) db in
  omap (fun row => listed_worker sid (stored_attributes S) st row.1 row.2
                     (hfields (worker_key sid row.1) db)) (worker_rows S).

Lemma exec_list_workers db src st pages :
  exec (list_workers src st pages) db = (db, Ok (concat (listed db st <$> source_ids_of src pages))).
Proof.
  unfold list_workers. rewrite exec_bind.
  rewrite (exec_for_each_read _ (fun sid =>
    let S := hfields (source_key sid) db in
    (fun row => listed_worker sid (stored_attributes S) st row.1 row.2
                  (hfields (worker_key sid row.1) db)) <$> worker_rows S)).
  2:{ intros sid _. unfold Read. cbn [exec]. apply exec_for_each_read.
      intros [iid rank_str] _. reflexivity. }
  cbn [exec fst snd]. do 2 f_equal.
  induction (source_ids_of src pages) as [|sid l IH]; [done|]. cbn. rewrite omap_app, IH. f_equal.
  unfold listed. induction (worker_rows _) as [|[iid v] rows IH']; [done|]. cbn. rewrite IH'.
  by destruct (listed_worker _ _ _ _ _ _).
Qed.

(** The worker hash of a row: some rank has the status. *)
Lemma match_status_rel h row e st :
  worker_rel h row e ->
  worker_records_match_status h st = true ↔
  ∃ r w, ranks e !! r = Some w ∧ wr_status w = SourceStatus_i32 st.
Proof.
  intros Hw. unfold worker_records_match_status. rewrite existsb_exists. split.
  - intros ([f v] & Hin & Hm). apply list_elem_of_In, elem_of_hash_entries in Hin.
    destruct (starts_with STATUS_FIELD_PREFIX f) eqn:Hs; [done|].
    destruct (record_field h row e f v Hw Hin Hs) as (r & j & sm & -> & -> & Hrows & Hr).
    rewrite parse_worker_text, (rr_record_rank _ _ _ _ _ Hrows), (overlay_rows _ _ _ _ _ Hrows) in Hm
      by apply Hrows.
    apply Z.eqb_eq in Hm. by exists r, (live_record j sm).
  - intros (r & w & Hr & Hst). destruct (worker_rel_rows _ _ _ _ _ Hw Hr) as (j & sm & Hrows & ->).
    exists (decimal r, worker_text j). split; [by apply list_elem_of_In, elem_of_hash_entries, Hrows|].
    rewrite decimal_not_status, parse_worker_text by apply Hrows.
    rewrite (rr_record_rank _ _ _ _ _ Hrows), (overlay_rows _ _ _ _ _ Hrows). by apply Z.eqb_eq.
Qed.

Lemma status_matches_rel h row e st :
  worker_rel h row e ->
  is_none_or (worker_records_match_status h) st = MemMeta.status_matches st e.
Proof.
  intros Hw. destruct st as [st|]; [|done]. unfold MemMeta.status_matches. cbn.
  apply eq_bool_prop_intro. rewrite !Is_true_true, (match_status_rel h row e) by done.
  rewrite existsb_exists. unfold MemMeta.btree_values. split.
  - intros (r & w & Hr & Hst). exists w. split; [|by apply Z.eqb_eq].
    apply list_elem_of_In, list_elem_of_fmap. exists (r, w). split; [done|].
    by rewrite sort_by_key_perm, elem_of_map_to_list.
  - intros (w & Hin & Hst). apply list_elem_of_In, list_elem_of_fmap in Hin as ([r w'] & -> & Hin).
    rewrite sort_by_key_perm, elem_of_map_to_list in Hin. exists r, w'. by apply Z.eqb_eq in Hst.
Qed.

(** What is known of the summary in a row. *)
Record row_summary (h : gmap string string) (e : WorkerEntry) (text : string)
    (sm : WorkerSummaryJson) : Prop := MkRowSummary {
  rs_parse : parse_summary text = Some sm;
  rs_number : listed_rank text = ws_worker_rank sm;
  rs_rank : ws_worker_rank sm = index_rank e;
  rs_hash : h ≠ ∅;
  rs_reported : reported_rank h (ws_worker_rank sm) =
    (ws_status sm, ws_updated_at sm, ws_accelerator sm, ws_source_load sm, ws_topology sm,
     ws_owner_namespace sm);
  rs_owner : ws_owner_namespace sm = we_owner_namespace e;
  rs_record : ∃ w, ranks e !! index_rank e = Some w ∧ wr_status w = ws_status sm ∧
    wr_updated_at w = ws_updated_at sm ∧ wr_accelerator w = ws_accelerator sm ∧
    wr_source_load w = ws_source_load sm ∧ wr_topology w = ws_topology sm
}.

Lemma row_summary_rel h text e : worker_rel h (Some text) e -> ∃ sm, row_summary h e text sm.
Proof.
  intros Hw. destruct (wl_index _ _ _ Hw) as [w Hi].
  destruct (worker_rel_rows _ _ _ _ _ Hw Hi) as (j & sm & Hrows & ->).
  pose proof (wl_row _ _ _ Hw) as Ht. rewrite (rr_status _ _ _ _ _ Hrows) in Ht. injection Ht as ->.
  destruct (live_record_fields _ _ _ _ _ Hrows) as (_ & ? & ? & ? & ? & ?).
  pose proof (overlay_rows _ _ _ _ _ Hrows) as Hov. exists sm. destruct Hrows. split.
  - by apply parse_summary_text.
  - unfold listed_rank. by rewrite parse_unsigned_summary, parse_summary_text.
  - done.
  - intros ->. by rewrite lookup_empty in rr_record.
  - unfold reported_rank. rewrite rr_status_rank, rr_record. cbn.
    rewrite parse_worker_text, Hov by done. by rewrite rr_accelerator, rr_topology, rr_status_owner, rr_record_owner.
  - done.
  - eauto 10.
Qed.

(** The entry of one worker in a listing of the in-memory backend, from its row. *)
Lemma row_worker_info h e text sm sid source wid i :
  row_summary h e text sm ->
  se_model_name source = si_model_name i -> se_extra_parameters source = si_extra_parameters i ->
  instance_info sid wid (attributes_from i) (ws_worker_rank sm) (reported_rank h (ws_worker_rank sm)) =
  MemMeta.worker_info sid source wid e.
Proof.
  intros [] Hn He. rewrite rs_reported0, rs_rank0.
  destruct rs_record0 as (w & Hw & H1' & H2' & H3' & H4' & H5').
  unfold MemMeta.worker_info, instance_info. rewrite Hw, Hn, He. cbn.
  by rewrite H1', H2', H3', H4', H5', rs_owner0.
Qed.

(** The workers of one source in a listing of the in-memory backend. *)
Definition memory_listed s (st : option SourceStatus) (sid : string) : list SourceInstanceInfo :=
  match s !! sid with
  | Some source =>
      map (fun '(wid, e) => MemMeta.worker_info sid source wid e)
        (List.filter (fun '(_, e) => MemMeta.status_matches st e) (hash_entries (se_workers source)))
  | None => []
  end.

Lemma stored_attributes_rel db s sid source :
  represents db s -> colonless sid -> s !! sid = Some source -> ∃ i,
    stored_attributes (hfields (source_key sid) db) = attributes_from i ∧
    se_model_name source = si_model_name i ∧ se_extra_parameters source = si_extra_parameters i.
Proof.
  intros Hrep Hsid Hs. pose proof (so_identity _ _ _ (proj2 Hrep sid Hsid)) as Hid. rewrite Hs in Hid.
  destruct Hid as (i & Hi & Ha & Hn & He & _). exists i. split; [|done].
  unfold stored_attributes. rewrite Ha. cbn. by rewrite parse_attributes_text.
Qed.

(** Every row of a source hash stands for a worker of the source. *)
Lemma worker_rows_rel db s sid source wid text :
  represents db s -> colonless sid -> s !! sid = Some source ->
  (wid, text) ∈ worker_rows (hfields (source_key sid) db) -> ∃ e,
    se_workers source !! wid = Some e ∧ worker_rel (hfields (worker_key sid wid) db) (Some text) e.
Proof.
  intros Hrep Hsid Hs [Hrow Hne]%elem_of_worker_rows.
  pose proof (so_workers _ _ _ (proj2 Hrep sid Hsid) wid Hne) as Hw. cbn in Hw. rewrite Hrow, Hs in Hw.
  unfold source_workers in Hw. cbn in Hw.
  destruct (se_workers source !! wid) as [e|]; [by exists e|]. by destruct Hw.
Qed.

Lemma worker_rows_none db s sid :
  represents db s -> colonless sid -> s !! sid = None ->
  worker_rows (hfields (source_key sid) db) = [].
Proof.
  intros Hrep Hsid Hs. pose proof (proj2 Hrep sid Hsid) as Hsrc. rewrite Hs in Hsrc.
  apply source_rel_gone in Hsrc as [He _].
  destruct (worker_rows _) as [|[wid text] l] eqn:Hrows; [done|].
  assert ((wid, text) ∈ worker_rows (hfields (source_key sid) db)) as Hin
    by (rewrite Hrows; apply elem_of_cons; by left).
  apply elem_of_worker_rows in Hin as [Hin _]. by rewrite He, lookup_empty in Hin.
Qed.

(** The rows of a source hash are the workers of the source, in some order. *)
Lemma worker_rows_perm db s sid source :
  represents db s -> colonless sid -> s !! sid = Some source ->
  worker_rows (hfields (source_key sid) db) ≡ₚ
  (fun we => (we.1, default "" (hfields (source_key sid) db !! we.1))) <$> hash_entries (se_workers source).
Proof.
  intros Hrep Hsid Hs. apply NoDup_Permutation.
  - unfold worker_rows. apply NoDup_ListNoDup, List.NoDup_filter, NoDup_ListNoDup.
    eapply NoDup_fmap_1, NoDup_hash_keys.
  - apply NoDup_fmap_2_strong; [|eapply NoDup_fmap_1, NoDup_hash_keys].
    intros [w1 e1] [w2 e2] H1'%elem_of_hash_entries H2'%elem_of_hash_entries. cbn.
    intros He. apply (f_equal fst) in He. cbn in He. subst. by simplify_eq.
  - intros [wid text]. split.
    + intros Hin. destruct (worker_rows_rel _ _ _ _ _ _ Hrep Hsid Hs Hin) as (e & He & _).
      apply list_elem_of_fmap. exists (wid, e). split; [|by apply elem_of_hash_entries].
      apply elem_of_worker_rows in Hin as [Hin _]. cbn. by rewrite Hin.
    + intros ([w e] & Heq & He%elem_of_hash_entries)%list_elem_of_fmap. cbn in Heq. injection Heq as -> ->.
      assert (w ≠ ATTRIBUTES_FIELD) as Hne.
      { intros ->. destruct (so_reserved _ _ _ (proj2 Hrep sid Hsid)) as [_ Hres].
        rewrite Hs in Hres. unfold source_workers in Hres. cbn in Hres. by rewrite Hres in He. }
      apply elem_of_worker_rows. split; [|done].
      pose proof (worker_opt_row _ _ _ (so_workers _ _ _ (proj2 Hrep sid Hsid) w Hne)) as Hi.
      rewrite Hs in Hi. unfold source_workers in Hi. cbn in Hi. rewrite He in Hi.
      destruct (proj2 Hi ltac:(done)) as [text Ht]. by rewrite Ht.
Qed.

(** What the in-memory backend lists of one worker. *)
Definition memory_row (source : SourceEntry) (st : option SourceStatus) (sid wid : string)
    : option SourceInstanceInfo :=
  match se_workers source !! wid with
  | Some e => if MemMeta.status_matches st e then Some (MemMeta.worker_info sid source wid e) else None
  | None => None
  end.

Lemma listed_row db s st sid source i wid text :
  represents db s -> colonless sid -> s !! sid = Some source ->
  se_model_name source = si_model_name i -> se_extra_parameters source = si_extra_parameters i ->
  (wid, text) ∈ worker_rows (hfields (source_key sid) db) ->
  listed_worker sid (attributes_from i) st wid text (hfields (worker_key sid wid) db) =
  memory_row source st sid wid.
Proof.
  intros Hrep Hsid Hs Hn He Hin.
  destruct (worker_rows_rel db s sid source wid text) as (e & Hwe & Hrel); [done..|].
  destruct (row_summary_rel _ _ _ Hrel) as (sm & Hsm). unfold memory_row. rewrite Hwe.
  unfold listed_worker. rewrite bool_decide_false by apply Hsm.
  rewrite (rs_number _ _ _ _ Hsm), (row_worker_info _ _ _ _ sid source wid i Hsm Hn He).
  rewrite <- (status_matches_rel _ _ _ st Hrel).
  destruct st as [st|]; cbn; [|done]. by destruct (worker_records_match_status _ st).
Qed.

Lemma memory_rows source st sid (text : string -> string) l :
  (forall we, we ∈ l -> se_workers source !! we.1 = Some we.2) ->
  omap (fun row : string * string => memory_row source st sid row.1)
    ((fun we => (we.1, text we.1)) <$> l) =
  map (fun '(wid, e) => MemMeta.worker_info sid source wid e)
    (List.filter (fun '(_, e) => MemMeta.status_matches st e) l).
Proof.
  induction l as [|[wid e] l IH]; intros Hl; [done|]. cbn.
  rewrite IH by (intros; apply Hl, elem_of_cons; by right).
  specialize (Hl (wid, e) ltac:(apply elem_of_cons; by left)). cbn in Hl.
  unfold memory_row. rewrite Hl. by destruct (MemMeta.status_matches st e).
Qed.

Lemma omap_ext_in {A B} (f g : A -> option B) (l : list A) :
  (forall a, a ∈ l -> f a = g a) -> omap f l = omap g l.
Proof.
  induction l as [|a l IH]; intros Hfg; [done|]. cbn.
  rewrite (Hfg a) by (apply elem_of_cons; by left).
  by rewrite IH by (intros; apply Hfg, elem_of_cons; by right).
Qed.

Lemma listed_perm db s st sid :
  represents db s -> colonless sid -> listed db st sid ≡ₚ memory_listed s st sid.
Proof.
  intros Hrep Hsid. unfold listed, memory_listed. destruct (s !! sid) as [source|] eqn:Hs.
  2:{ by rewrite (worker_rows_none _ _ _ Hrep Hsid Hs). }
  destruct (stored_attributes_rel _ _ _ _ Hrep Hsid Hs) as (i & Ha & Hn & He). rewrite Ha.
  rewrite (omap_ext_in _ (fun row : string * string => memory_row source st sid row.1)).
  2:{ intros [wid text] Hin. by eapply listed_row. }
  rewrite (worker_rows_perm db s sid source) by done.
  rewrite (memory_rows source st sid (fun wid => default "" (hfields (source_key sid) db !! wid))); [done|].
  by intros [wid e] ?%elem_of_hash_entries.
Qed.

End reads.
