(* ===== verification/P2pRedisTheorems.v ===== *)
(** * Theorems on the Redis P2P backend

    It refines the in-memory backend operation by operation; its pipelined listing is
    the trait's default; of concurrent heartbeats the newest one stands. *)

From Stdlib Require Import ZArith Lia Ascii String QArith.
From stdpp Require Import base tactics option list sorting relations gmap fin_maps strings pretty.
From S2P Require Import Prelude RustStr RedisStore RedisServer RedisProg P2pTypes.
From S2P Require Import SourceIdentityHash P2pBackend Json P2pRedis P2pRedisFacts P2pRedisRefine.
From S2P Require Import P2pRedisSteps P2pRedisReads.

Import RedisMeta.
Import MemMeta (WorkerEntry, MkWorkerEntry, SourceEntry, MkSourceEntry, ranks, index_rank,
  we_owner_namespace, se_model_name, se_extra_parameters, se_identity, se_workers,
  default_worker, default_source).

Section theorems.
Context {DB : Type} `{RedisServer DB} `{!RedisStoreLaws DB, !RedisServerLaws DB}.
Context `{LuaNumbers} `{JsonText} `{!LuaNumbersLaws, !JsonTextLaws} `{HashIter, !HashIterLaws}.
Context `{ToLowercase} `{IdDigest}.
Implicit Types (db : DB) (s : MemMeta.state).

(** ** Listings *)

(** A SCAN that found every source once. *)
Definition complete_scan s (pages : list (Z * list string)) : Prop :=
  scan_keys pages ≡ₚ source_key <$> (hash_entries s).*1.

Lemma key_source_ids (l : list string) : key_source_id <$> (source_key <$> l) = l.
Proof. induction l as [|sid l IH]; [done|]. cbn. by rewrite source_key_id, IH. Qed.

Lemma scan_source_ids s pages :
  complete_scan s pages -> source_ids_of None pages ≡ₚ (hash_entries s).*1.
Proof. unfold complete_scan, source_ids_of. intros ->. by rewrite key_source_ids. Qed.

Lemma memory_list_all st s :
  MemMeta.list_workers None st s = concat (memory_listed s st <$> (hash_entries s).*1).
Proof.
  unfold MemMeta.list_workers. cbn [is_none_or].
  assert (forall sid source, (sid, source) ∈ hash_entries s -> s !! sid = Some source) as Hall
    by (by intros ?? ?%elem_of_hash_entries).
  revert Hall. generalize (hash_entries s) as l. induction l as [|[sid source] l IH]; intros Hall; [done|].
  cbn. rewrite IH by (intros; apply Hall, elem_of_cons; by right). f_equal. unfold memory_listed.
  by rewrite (Hall sid source) by (apply elem_of_cons; by left).
Qed.

Lemma memory_list_one sid st s : MemMeta.list_workers (Some sid) st s ≡ₚ memory_listed s st sid.
Proof.
  unfold MemMeta.list_workers, memory_listed. cbn [is_none_or].
  pose proof (NoDup_hash_keys s) as Hnd.
  assert (forall source, (sid, source) ∈ hash_entries s ↔ s !! sid = Some source) as Hin
    by (intros; apply elem_of_hash_entries).
  revert Hnd Hin. generalize (hash_entries s) as l.
  induction l as [|[k source] l IH]; intros Hnd Hin; cbn.
  { destruct (s !! sid) as [source|] eqn:Hs; [|done].
    pose proof (proj2 (Hin source) eq_refl) as Hn. by apply elem_of_nil in Hn. }
  apply NoDup_cons in Hnd as [Hk Hnd]. cbn in Hk.
  destruct (String.eqb_spec k sid) as [->|Hne].
  - rewrite (proj1 (Hin source)) by (apply elem_of_cons; by left).
    assert (forall l, sid ∉ l.*1 ->
      flat_map (fun '(k, source) => if String.eqb k sid
        then map (fun '(wid, e) => MemMeta.worker_info k source wid e)
               (List.filter (fun '(_, e) => MemMeta.status_matches st e) (hash_entries (se_workers source)))
        else []) l = []) as Hnil.
    { clear. intros l. induction l as [|[k source] l IH]; intros Hk; [done|]. cbn in *.
      apply not_elem_of_cons in Hk as [Hk Hl]. destruct (String.eqb_spec k sid); [congruence|by apply IH]. }
    by rewrite Hnil, app_nil_r.
  - cbn. apply IH; [done|]. intros src. rewrite <- Hin, elem_of_cons. naive_solver.
Qed.

(** A listing answers the workers that the in-memory backend answers. *)
Lemma list_simulation db s src st pages :
  represents db s -> (forall sid, src = Some sid -> colonless sid) ->
  (src = None -> complete_scan s pages) ->
  ∃ l, exec (list_workers src st pages) db = (db, Ok l) ∧ l ≡ₚ MemMeta.list_workers src st s.
Proof.
  intros Hrep Hsrc Hscan. rewrite exec_list_workers. eexists. split; [reflexivity|].
  destruct src as [sid|].
  - cbn. rewrite app_nil_r, memory_list_one. apply listed_perm; auto.
  - rewrite memory_list_all. rewrite (concat_perm _ (listed db st <$> (hash_entries s).*1))
      by (by rewrite scan_source_ids by auto).
    apply concat_fmap_perm. intros sid Hsid. apply listed_perm; [done|].
    apply list_elem_of_fmap in Hsid as ([k source] & -> & Hin%elem_of_hash_entries).
    by apply (proj1 Hrep).
Qed.

Lemma list_sources_simulation db s pages :
  represents db s -> complete_scan s pages ->
  ∃ l, exec (list_sources pages) db = (db, Ok l) ∧ l ≡ₚ MemMeta.list_sources s.
Proof.
  intros Hrep Hscan. unfold list_sources. rewrite exec_bind.
  rewrite (exec_for_each_read _ (fun key => (fun json => (key_source_id key,
      default "" (sa_model_name <$> parse_attributes json))) <$> hget key ATTRIBUTES_FIELD db)) by done.
  cbn [exec fst snd]. eexists. split; [reflexivity|]. rewrite Hscan.
  unfold MemMeta.list_sources.
  assert (forall l : list (string * SourceEntry), (forall x, x ∈ l -> s !! x.1 = Some x.2) ->
    omap id ((fun key => (fun json => (key_source_id key, default "" (sa_model_name <$> parse_attributes json)))
      <$> hget key ATTRIBUTES_FIELD db) <$> (source_key <$> l.*1)) =
    map (fun '(sid, source) => (sid, se_model_name source)) l) as Hl.
  { induction l as [|[sid source] l IH]; intros Hl; [done|].
    assert (s !! sid = Some source) as Hs by (apply (Hl (sid, source)), elem_of_cons; by left).
    assert (colonless sid) as Hsid by (apply (proj1 Hrep); eauto).
    pose proof (so_identity _ _ _ (proj2 Hrep sid Hsid)) as Hid. rewrite Hs in Hid.
    destruct Hid as (i & Hi & Ha & Hn & _). cbn. rewrite hget_hfields, Ha. cbn.
    rewrite parse_attributes_text by done. cbn. rewrite source_key_id, Hn. f_equal.
    apply IH. intros; apply Hl, elem_of_cons; by right. }
  rewrite Hl; [done|]. by intros [sid source] ?%elem_of_hash_entries.
Qed.

(** ** The pipelined listing *)

(** The tests of a filter that concern a source, and those of a worker. *)
Definition keeps_source (f : list_filter) (a : SourceAttributesJson) : bool :=
  is_none_or (fun m => String.eqb (sa_model_name a) m) (lf_model_name f) &&
  is_none_or (fun n => is_some_and (fun v => (n <=? v)%Z) (parse_training_step (sa_extra_parameters a)))
    (lf_min_training_step f).

Definition keeps_rank (f : list_filter) (rank : Z) : bool :=
  is_none_or (fun r => (rank =? r)%Z) (lf_worker_rank f).
Definition keeps_time (f : list_filter) (updated_at : Z) : bool :=
  is_none_or (fun t => (t <=? updated_at)%Z) (lf_min_updated_at f).

Lemma retain_instance f sid wid a rank st t acc load topo owner :
  retain_worker f (instance_info sid wid a rank (st, t, acc, load, topo, owner)) =
  keeps_source f a && keeps_rank f rank && keeps_time f t.
Proof.
  unfold retain_worker, keeps_source, keeps_rank, keeps_time. cbn.
  destruct (is_none_or _ (lf_model_name f)), (is_none_or _ (lf_worker_rank f)); cbn;
    by rewrite ?andb_true_r, ?andb_false_r.
Qed.

Lemma is_some_and_negb {A} (P Q : A -> bool) o :
  (forall a, Q a = negb (P a)) -> is_some_and Q o = negb (is_none_or P o).
Proof. intros HQ. destruct o; cbn; [apply HQ|done]. Qed.

Lemma is_none_or_negb {A} (P Q : A -> bool) o :
  (forall a, Q a = negb (P a)) -> is_none_or Q o = negb (is_some_and P o).
Proof. intros HQ. destruct o; cbn; [apply HQ|done]. Qed.

Lemma select_source_keeps st f sid S :
  select_source st f sid S =
  if keeps_source f (stored_attributes S)
  then (concat (select_row st f sid (stored_attributes S) <$> worker_rows S).*1,
        concat (select_row st f sid (stored_attributes S) <$> worker_rows S).*2)
  else ([], []).
Proof.
  unfold select_source, keeps_source.
  rewrite (is_some_and_negb (fun m => String.eqb (sa_model_name (stored_attributes S)) m)) by done.
  rewrite (is_some_and_negb (fun n => is_some_and (fun v => (n <=? v)%Z)
             (parse_training_step (sa_extra_parameters (stored_attributes S))))).
  - by destruct (is_none_or _ (lf_model_name f)), (is_none_or _ (lf_min_training_step f)).
  - intros m. apply is_none_or_negb. intros v. apply Z.ltb_antisym.
Qed.

Lemma select_row_summary st f sid a wid text h e sm :
  row_summary h e text sm ->
  select_row st f sid a (wid, text) =
  if keeps_rank f (ws_worker_rank sm) then
    match st with
    | Some _ => ([MkDetailed sid wid (ws_worker_rank sm) a], [])
    | None => ([], if keeps_time f (ws_updated_at sm)
                   then [instance_info sid wid a (ws_worker_rank sm)
                           (reported_rank h (ws_worker_rank sm))] else [])
    end
  else ([], []).
Proof.
  intros []. unfold select_row. rewrite rs_parse, rs_reported.
  rewrite (is_some_and_negb (fun r => (ws_worker_rank sm =? r)%Z))
    by (intros r; by rewrite Z.eqb_sym).
  rewrite (is_some_and_negb (fun t => (t <=? ws_updated_at sm)%Z)) by (intros; apply Z.ltb_antisym).
  unfold keeps_rank, keeps_time. destruct (is_none_or _ (lf_worker_rank f)); cbn [negb]; [|done].
  destruct st; [done|]. by destruct (is_none_or _ (lf_min_updated_at f)).
Qed.

(** What the default listing keeps of one row. *)
Definition kept_row f st sid a (h : gmap string string) (row : string * string)
    : option SourceInstanceInfo :=
  match listed_worker sid a st row.1 row.2 h with
  | Some x => if retain_worker f x then Some x else None
  | None => None
  end.

Lemma kept_row_summary f st sid a h wid text e sm :
  row_summary h e text sm ->
  kept_row f st sid a h (wid, text) =
  if is_none_or (worker_records_match_status h) st &&
     (keeps_source f a && keeps_rank f (ws_worker_rank sm) && keeps_time f (ws_updated_at sm))
  then Some (instance_info sid wid a (ws_worker_rank sm) (reported_rank h (ws_worker_rank sm)))
  else None.
Proof.
  intros []. unfold kept_row, listed_worker. cbn [fst snd]. rewrite rs_number, bool_decide_false by done.
  rewrite (is_some_and_negb (worker_records_match_status h)) by done.
  destruct (is_none_or _ st); cbn [negb andb]; [|done]. by rewrite rs_reported, retain_instance.
Qed.

Lemma select_detailed_summary f st sid a wid h e text sm :
  row_summary h e text sm -> keeps_source f a = true -> keeps_rank f (ws_worker_rank sm) = true ->
  select_detailed (Some st) f (MkDetailed sid wid (ws_worker_rank sm) a) h =
  option_list (kept_row f (Some st) sid a h (wid, text)).
Proof.
  intros Hsm Hs Hr. rewrite (kept_row_summary _ _ _ _ _ _ _ _ _ Hsm), Hs, Hr. destruct Hsm.
  unfold select_detailed. cbn [de_source_id de_worker_id de_worker_rank de_attributes_of].
  rewrite bool_decide_false, rs_reported by done. cbn [is_some_and is_none_or].
  rewrite (is_some_and_negb (fun t => (t <=? ws_updated_at sm)%Z)) by (intros; apply Z.ltb_antisym).
  unfold keeps_time. destruct (worker_records_match_status h st); cbn [negb andb]; [|done].
  by destruct (is_none_or _ (lf_min_updated_at f)).
Qed.

(** The worker hash that a row of a source leads to. *)
Definition hash_of db (d : detailed) : gmap string string :=
  hfields (worker_key (de_source_id d) (de_worker_id d)) db.

Lemma filter_listed db f st sid :
  List.filter (retain_worker f) (listed db st sid) =
  omap (fun row => kept_row f st sid (stored_attributes (hfields (source_key sid) db))
                     (hfields (worker_key sid row.1) db) row)
    (worker_rows (hfields (source_key sid) db)).
Proof. unfold listed. rewrite filter_omap. apply omap_ext_in. done. Qed.

(** Both phases on one source yield what the default listing keeps of it. *)
Lemma select_source_exact db s st f sid :
  represents db s -> colonless sid ->
  let selected := select_source st f sid (hfields (source_key sid) db) in
  (match st with Some _ => selected.2 = [] | None => selected.1 = [] end) ∧
  selected.2 ++ concat ((fun d => select_detailed st f d (hash_of db d)) <$> selected.1) =
  List.filter (retain_worker f) (listed db st sid).
Proof.
  intros Hrep Hsid. cbn zeta. rewrite filter_listed, select_source_keeps.
  set (S := hfields (source_key sid) db). set (a := stored_attributes S).
  assert (forall wid text, (wid, text) ∈ worker_rows S -> ∃ e sm,
    row_summary (hfields (worker_key sid wid) db) e text sm) as Hrows.
  { intros wid text Hin. destruct (s !! sid) as [source|] eqn:Hs.
    - destruct (worker_rows_rel db s sid source wid text) as (e & _ & Hrel); [done..|].
      exists e. by apply row_summary_rel.
    - unfold S in Hin. rewrite (worker_rows_none _ _ _ Hrep Hsid Hs) in Hin. by apply elem_of_nil in Hin. }
  revert Hrows. generalize (worker_rows S) as rows. intros rows Hrows.
  destruct (keeps_source f a) eqn:Hka.
  - induction rows as [|[wid text] rows IH]; [by destruct st|].
    destruct IH as [IH1 IH2]; [intros; eapply Hrows, elem_of_cons; by right|].
    cbn [fst snd] in IH1, IH2.
    destruct (Hrows wid text) as (e & sm & Hsm); [apply elem_of_cons; by left|].
    cbn [fmap list_fmap concat omap list_omap]. rewrite (select_row_summary _ _ _ _ _ _ _ _ _ Hsm).
    pose proof (select_detailed_summary f) as Hdet.
    destruct (keeps_rank f (ws_worker_rank sm)) eqn:Hkr.
    + destruct st as [st|]; cbn in IH1, IH2 |- *.
      * specialize (Hdet st sid a wid _ e text sm Hsm Hka Hkr). rewrite IH1 in IH2 |- *.
        split; [done|]. cbn in IH2 |- *. unfold hash_of at 1. cbn [de_source_id de_worker_id].
        rewrite Hdet, IH2. by destruct (kept_row _ _ _ _ _ _).
      * rewrite IH1 in IH2 |- *. split; [done|]. cbn in IH2 |- *. rewrite app_nil_r in IH2 |- *.
        rewrite (kept_row_summary _ _ _ _ _ _ _ _ _ Hsm), Hka, Hkr. cbn. rewrite IH2.
        by destruct (keeps_time f (ws_updated_at sm)).
    + cbn. split; [done|]. rewrite IH2.
      by rewrite (kept_row_summary _ _ _ _ _ _ _ _ _ Hsm), Hkr, !andb_false_r.
  - split; [by destruct st|]. cbn. symmetry.
    induction rows as [|[wid text] rows IH]; [done|].
    destruct (Hrows wid text) as (e & sm & Hsm); [apply elem_of_cons; by left|].
    cbn. rewrite (kept_row_summary _ _ _ _ _ _ _ _ _ Hsm), Hka. cbn. rewrite andb_false_r.
    apply IH. intros; eapply Hrows, elem_of_cons; by right.
Qed.
Lemma select_sources_exact db s st f ids :
  represents db s -> Forall colonless ids ->
  let selected := (fun sid => select_source st f sid (hfields (source_key sid) db)) <$> ids in
  concat selected.*2 ++ concat ((fun d => select_detailed st f d (hash_of db d)) <$> concat selected.*1) =
  List.filter (retain_worker f) (concat (listed db st <$> ids)).
Proof.
  intros Hrep Hids. cbn zeta. rewrite filter_concat.
  induction Hids as [|sid ids Hsid Hids IH]; [done|]. cbn.
  destruct (select_source_exact db s st f sid Hrep Hsid) as [He Hx]. rewrite <- Hx, <- IH. cbn in He |- *.
  destruct st as [st|].
  - rewrite He. cbn. rewrite fmap_app, concat_app, app_assoc.
    assert (concat ((fun sid => select_source (Some st) f sid (hfields (source_key sid) db)) <$> ids).*2 = [])
      as ->; [|done].
    clear IH Hx He Hsid. induction Hids as [|sid' ids Hsid Hids IH]; [done|]. cbn.
    destruct (select_source_exact db s (Some st) f sid' Hrep Hsid) as [He _]. cbn in He. by rewrite He, IH.
  - rewrite He. cbn. by rewrite app_nil_r, app_assoc.
Qed.

(** The second phase, whichever lists are empty. *)
Lemma exec_second_phase db st f limit (selected : list (list detailed * list SourceInstanceInfo)) :
  exec
    (match concat selected.*1, concat selected.*2 with
     | [], [] => Ret (Ok [])
     | _, _ =>
         let! worker_hashes := for_each (fun d =>
           Read (hfields (worker_key (de_source_id d) (de_worker_id d))) Ret) (concat selected.*1) in
         let result := concat selected.*2 ++
           concat (zip_with (select_detailed st f) (concat selected.*1) worker_hashes) in
         Ret (Ok (truncate_opt limit (sort_recent result)))
     end) db =
  (db, Ok (E := string) (truncate_opt limit (sort_recent
     (concat selected.*2 ++
      concat ((fun d => select_detailed st f d (hash_of db d)) <$> concat selected.*1))))).
Proof.
  assert (forall ds infos, exec
    (let! worker_hashes := for_each (fun d =>
       Read (hfields (worker_key (de_source_id d) (de_worker_id d))) Ret) ds in
     Ret (Ok (E := string) (truncate_opt limit (sort_recent (infos ++
       concat (zip_with (select_detailed st f) ds worker_hashes)))))) db =
    (db, Ok (truncate_opt limit (sort_recent
       (infos ++ concat ((fun d => select_detailed st f d (hash_of db d)) <$> ds)))))) as Hrun.
  { intros ds infos. rewrite exec_bind, (exec_for_each_read _ (hash_of db)) by done.
    cbn [fst snd exec]. by rewrite zip_with_fmap_self. }
  destruct (concat selected.*1) as [|d ds]; [destruct (concat selected.*2) as [|x infos]|].
  - destruct limit as [n|]; cbn; [|done]. rewrite take_nil. by case_match.
  - apply (Hrun [] (x :: infos)).
  - apply Hrun.
Qed.

(** ** Sequences of operations *)

Inductive meta_op : Type :=
| OpPublish (identity : SourceIdentity) (wid : string) (m : WorkerMetadata) (owner : option string)
| OpUpdate (sid wid : string) (r : Z) (st : SourceStatus) (t : Z) (load : option f32)
| OpRemoveWorker (sid wid : string)
| OpRemoveMetadata (sid : string).

Definition redis_op (op : meta_op) : prog DB (result unit string) :=
  match op with
  | OpPublish i wid m owner => publish_metadata i wid m owner
  | OpUpdate sid wid r st t load => update_status sid wid r st t load
  | OpRemoveWorker sid wid => remove_worker sid wid
  | OpRemoveMetadata sid => remove_metadata sid
  end.

Definition memory_op (op : meta_op) s : MemMeta.state * result unit string :=
  match op with
  | OpPublish i wid m owner => MemMeta.publish_metadata i wid m owner s
  | OpUpdate sid wid r st t load => MemMeta.update_status sid wid r st t load s
  | OpRemoveWorker sid wid => (MemMeta.remove_worker sid wid s, Ok ())
  | OpRemoveMetadata sid => (MemMeta.remove_metadata sid s, Ok ())
  end.

(** What the two backends agree on: machine integers, worker ids other than the
    reserved field, a republication by the same owner, and a clock that does not go
    back behind the stored time. *)
Definition op_ok s (op : meta_op) : Prop :=
  match op with
  | OpPublish i wid m owner =>
      wid ≠ ATTRIBUTES_FIELD ∧ message_typed m ∧ identity_typed i ∧
      forall sid e, compute_mx_source_id i = Ok sid -> MemMeta.lookup_worker sid wid s = Some e ->
        we_owner_namespace e = owner
  | OpUpdate sid wid r _ t load =>
      colonless sid ∧ u32_typed r ∧ time_ok t ∧ finite_load load ∧
      forall e w, MemMeta.lookup_worker sid wid s = Some e -> ranks e !! r = Some w ->
        (wr_updated_at w <= t)%Z
  | OpRemoveWorker sid wid => colonless sid ∧ wid ≠ ATTRIBUTES_FIELD
  | OpRemoveMetadata sid => colonless sid
  end.

(** Source ids are hexadecimal. *)
Definition plain_ids : Prop := forall c sid, id_digest c = Ok sid -> colonless sid.

Lemma op_simulation db s op :
  plain_ids -> represents db s -> op_ok s op ->
  represents (exec (redis_op op) db).1 (memory_op op s).1 ∧
  succeeds (exec (redis_op op) db).2 = succeeds (memory_op op s).2.
Proof.
  intros Hids Hrep Hok. destruct op as [i wid m owner|sid wid r st t load|sid wid|sid]; cbn [op_ok redis_op memory_op fst snd] in *.
  - destruct Hok as (Hne & Hm & Hi & Ho). destruct (compute_mx_source_id i) as [sid|e] eqn:Hid.
    + destruct (publish_simulation db s i wid m owner sid) as [Hr ->]; [done..|intros e; by apply Ho|].
      split; [done|]. unfold MemMeta.publish_metadata. by rewrite Hid.
    + unfold publish_metadata, MemMeta.publish_metadata. by rewrite Hid.
  - destruct Hok as (? & ? & ? & ? & ?). by apply update_simulation.
  - destruct Hok. destruct (remove_worker_simulation db s sid wid) as [Hr ->]; done.
  - destruct (remove_metadata_simulation db s sid) as [Hr ->]; done.
Qed.

Fixpoint run_redis (ops : list meta_op) db : DB * list bool :=
  match ops with
  | [] => (db, [])
  | op :: ops =>
      let '(db, r) := exec (redis_op op) db in
      let '(db, rs) := run_redis ops db in (db, succeeds r :: rs)
  end.

Fixpoint run_memory (ops : list meta_op) s : MemMeta.state * list bool :=
  match ops with
  | [] => (s, [])
  | op :: ops =>
      let '(s, r) := memory_op op s in
      let '(s, rs) := run_memory ops s in (s, succeeds r :: rs)
  end.

Fixpoint ops_ok (ops : list meta_op) s : Prop :=
  match ops with
  | [] => True
  | op :: ops => op_ok s op ∧ ops_ok ops (memory_op op s).1
  end.

Lemma run_simulation ops db s :
  plain_ids -> represents db s -> ops_ok ops s ->
  represents (run_redis ops db).1 (run_memory ops s).1 ∧
  (run_redis ops db).2 = (run_memory ops s).2.
Proof.
  intros Hids. revert db s. induction ops as [|op ops IH]; intros db s Hrep Hok; [done|].
  destruct Hok as [Hop Hok]. destruct (op_simulation db s op Hids Hrep Hop) as [Hr Hs].
  cbn. destruct (exec (redis_op op) db) as [db1 r1], (memory_op op s) as [s1 r1']. cbn in *.
  destruct (IH db1 s1 Hr Hok) as [Hr' Hs'].
  destruct (run_redis ops db1) as [db2 rs], (run_memory ops s1) as [s2 rs']. cbn in *.
  split; [done|]. by rewrite Hs, Hs'.
Qed.

(** C22: The Redis backend implements the in-memory one on operations that satisfy
    [op_ok]: values of the wire types, source ids without colons, no worker with the
    reserved id [__attributes__], no heartbeat older than the stored one, no infinite or
    NaN load, and no publication of a worker by another namespace than its owner (outside
    of these the backends differ). From an empty database, each such publication, status
    update and removal succeeds on Redis exactly when it does in memory; afterwards a
    lookup answers the same record, and the listings of workers and of sources are those
    of the in-memory backend up to order, if the scan lists every key once. *)
Theorem redis_refines_memory ops db :
  plain_ids -> (forall k f, hget k f db = None) -> ops_ok ops MemMeta.new ->
  let '(db', replies) := run_redis ops db in
  let '(s', replies') := run_memory ops MemMeta.new in
  replies = replies' ∧
  (forall sid wid, colonless sid ->
     exec (get_metadata sid wid) db' = (db', Ok (MemMeta.get_metadata sid wid s'))) ∧
  (forall src st pages, (forall sid, src = Some sid -> colonless sid) ->
     (src = None -> complete_scan s' pages) ->
     ∃ l, exec (list_workers src st pages) db' = (db', Ok l) ∧ l ≡ₚ MemMeta.list_workers src st s') ∧
  (forall pages, complete_scan s' pages ->
     ∃ l, exec (list_sources pages) db' = (db', Ok l) ∧ l ≡ₚ MemMeta.list_sources s').
Proof.
  intros Hids He Hok. pose proof (run_simulation ops db MemMeta.new Hids) as Hrun.
  destruct (run_redis ops db) as [db' replies], (run_memory ops MemMeta.new) as [s' replies'].
  cbn in Hrun. destruct Hrun as [Hrep Hreplies]; [by apply represents_empty|done|].
  split; [done|]. split_and!.
  - intros. by apply get_simulation.
  - intros. by apply list_simulation.
  - intros. by apply list_sources_simulation.
Qed.

(** C23: The pipelined listing, which reads the summaries of the source hashes and only
    fetches the worker hashes it cannot do without, answers exactly what the trait's
    default makes of the full listing: its workers filtered, most recent first, and
    cut to the limit. *)
Theorem pipelined_listing_exact ops db src st f limit pages :
  plain_ids -> (forall k f, hget k f db = None) -> ops_ok ops MemMeta.new ->
  let db' := (run_redis ops db).1 in
  Forall colonless (source_ids_of src pages) -> ∃ l,
    exec (list_workers src st pages) db' = (db', Ok l) ∧
    exec (list_workers_filtered src st f limit pages) db' =
      (db', Ok (truncate_opt limit (sort_recent (List.filter (retain_worker f) l)))).
Proof.
  intros Hids He Hok db' Hcl.
  destruct (run_simulation ops db MemMeta.new Hids) as [Hrep _]; [by apply represents_empty|done|].
  fold db' in Hrep. clearbody db'. exists (concat (listed db' st <$> source_ids_of src pages)).
  split; [apply exec_list_workers|].
  rewrite <- (select_sources_exact db' _ st f _ Hrep Hcl). unfold list_workers_filtered.
  destruct (source_ids_of src pages) as [|sid ids] eqn:Hsrc; [destruct limit as [n|]; cbn; [rewrite take_nil; by case_match|done]|].
  rewrite exec_bind, (exec_for_each_read _ (fun sid => hfields (source_key sid) db')) by done.
  cbn [fst snd]. rewrite zip_with_fmap_self. apply exec_second_phase.
Qed.
(** ** Concurrent heartbeats *)

(** A status row: a summary with a time that Lua holds exactly. *)
Definition status_row (text : string) (sm : WorkerSummaryJson) : Prop :=
  text = summary_text sm ∧ summary_typed sm ∧ time_ok (ws_updated_at sm).

(** The atomic write of some replica's status update. *)
Inductive heartbeat db : DB -> Prop :=
| Heartbeat sid wid r text sm :
    colonless sid -> u32_typed r -> status_row text sm ->
    heartbeat db (UPDATE_STATUS_IF_FRESH_LUA (worker_key sid wid) (source_key sid) (decimal r)
                    (status_field r) wid text (signed_decimal (ws_updated_at sm)) db).1.

(** The script, whatever rows it finds. *)
Lemma script_effect db wk sk rank_arg field wid text t db' reply :
  time_ok t ->
  UPDATE_STATUS_IF_FRESH_LUA wk sk rank_arg field wid text (signed_decimal t) db = (db', reply) ->
  (reply = Some (-1)%Z ∧ db' = db) ∨
  (reply = Some 0%Z ∧ db' = db ∧ ∃ current g t',
     hget wk field db = Some current ∧ cjson_table current = Some g ∧
     g "updated_at" = Some t' ∧ (t < t')%Z) ∨
  (reply = Some 1%Z ∧
     (forall current g t', hget wk field db = Some current -> cjson_table current = Some g ->
        g "updated_at" = Some t' -> (t' <= t)%Z) ∧
     (db' = hset wk field text db ∨ db' = hset sk wid text (hset wk field text db))).
Proof.
  intros Ht. unfold UPDATE_STATUS_IF_FRESH_LUA. destruct (hexists wk rank_arg db); cbn [negb].
  2:{ intros [= <- <-]. by left. }
  intros Hrun. right. revert Hrun. rewrite tonumber_signed by done.
  assert (∃ b, updates_source_row (hget sk wid db) (lua_tonumber rank_arg) (Some t) = Some b) as [b ->].
  { unfold updates_source_row, row_is_newer. destruct (hget sk wid db) as [row|]; [|by eexists].
    destruct (lua_tonumber row); [by eexists|]. destruct (cjson_table row) as [g|]; [|by eexists].
    case_match; [|by eexists]. destruct (g "updated_at"); by eexists. }
  destruct (hget wk field db) as [current|] eqn:Hc; cbn.
  2:{ intros [= <- <-]. right. split; [done|]. split; [done|]. destruct b; auto. }
  destruct (cjson_table current) as [g|] eqn:Hg; cbn.
  2:{ intros [= <- <-]. right. split; [done|]. split; [naive_solver|]. destruct b; auto. }
  destruct (g "updated_at") as [t'|] eqn:Hu; cbn.
  2:{ intros [= <- <-]. right. split; [done|]. split; [naive_solver|]. destruct b; auto. }
  destruct (Z.ltb_spec t t'); intros [= <- <-].
  - left. split; [done|]. split; [done|]. by exists current, g, t'.
  - right. split; [done|]. split; [naive_solver|]. destruct b; auto.
Qed.

(** A status row of a worker rank. *)
Definition row_at (sid wid : string) (r : Z) (sm : WorkerSummaryJson) db : Prop :=
  ∃ text, hget (worker_key sid wid) (status_field r) db = Some text ∧ status_row text sm.

(** A stored row is only ever replaced by one that is at least as recent. *)
Lemma heartbeat_monotone db db' sid wid r sm :
  heartbeat db db' -> colonless sid -> u32_typed r -> row_at sid wid r sm db ->
  ∃ sm', row_at sid wid r sm' db' ∧ (ws_updated_at sm <= ws_updated_at sm')%Z.
Proof.
  intros Hb Hsid Hr (text & Hget & Hrow). destruct Hb as [sid' wid' r' text' sm' Hsid' Hr' Hrow'].
  destruct (UPDATE_STATUS_IF_FRESH_LUA _ _ _ _ _ _ _ db) as [db' reply] eqn:Heff. cbn [fst].
  apply script_effect in Heff; [|apply Hrow'].
  assert (forall k v, hget (worker_key sid wid) (status_field r) (hset (source_key sid') k v db') =
    hget (worker_key sid wid) (status_field r) db') as Hsrc.
  { intros k v. rewrite hget_hset, decide_False; [done|]. intros [He _].
    by apply (source_worker_key sid' sid wid). }
  destruct Heff as [[_ ->]|[(_ & -> & _)|(_ & Hle & Hdb)]]; [exists sm; split; [by exists text|done]..|].
  assert (hget (worker_key sid wid) (status_field r) db' =
    if decide (worker_key sid wid = worker_key sid' wid' ∧ status_field r = status_field r')
    then Some text' else Some text) as Hget'.
  { destruct Hdb as [-> | ->]; rewrite !hget_hset; [|rewrite decide_False
      by (intros [? _]; by apply (source_worker_key sid' sid wid))]; case_decide; by rewrite ?Hget. }
  case_decide as Hd; [|exists sm; split; [by exists text|done]].
  destruct Hd as [Hk Hf]. rewrite <- Hk, <- Hf in Hle.
  exists sm'. split; [by exists text'|]. destruct Hrow as (-> & Hty & Hti).
  destruct (cjson_summary sm Hty Hti) as (g & Hg & _ & Hu). by eapply Hle.
Qed.

Lemma heartbeats_monotone db db' sid wid r sm :
  rtc heartbeat db db' -> colonless sid -> u32_typed r -> row_at sid wid r sm db ->
  ∃ sm', row_at sid wid r sm' db' ∧ (ws_updated_at sm <= ws_updated_at sm')%Z.
Proof.
  intros Hrun Hsid Hr. revert sm. induction Hrun as [db|db1 db2 db3 Hb _ IH]; intros sm Hrow.
  - exists sm. split; [done|lia].
  - destruct (heartbeat_monotone _ _ _ _ _ _ Hb Hsid Hr Hrow) as (sm1 & Hrow1 & Hle1).
    destruct (IH sm1 Hrow1) as (sm2 & Hrow2 & Hle2). exists sm2. split; [done|lia].
Qed.

(** The script of an update on a status row that is there. *)
Lemma fresh_write db sid wid r sm0 text sm res :
  colonless sid -> row_at sid wid r sm0 db -> status_row text sm ->
  (UPDATE_STATUS_IF_FRESH_LUA (worker_key sid wid) (source_key sid) (decimal r) (status_field r) wid
     text (signed_decimal (ws_updated_at sm)) db).2 = Some res -> res ≠ (-1)%Z ->
  let db' := (UPDATE_STATUS_IF_FRESH_LUA (worker_key sid wid) (source_key sid) (decimal r)
                (status_field r) wid text (signed_decimal (ws_updated_at sm)) db).1 in
  ∃ sm', row_at sid wid r sm' db' ∧ (ws_updated_at sm0 <= ws_updated_at sm')%Z ∧
    (sm' = sm ∨ (sm' = sm0 ∧ (ws_updated_at sm < ws_updated_at sm0)%Z)).
Proof.
  intros Hsid (text0 & Hget & (-> & Hty & Hti)) Hrow Hres Hne.
  destruct (UPDATE_STATUS_IF_FRESH_LUA _ _ _ _ _ _ _ db) as [db' reply] eqn:Heff. cbn [fst snd] in Hres |- *.
  apply script_effect in Heff; [|apply Hrow].
  destruct (cjson_summary sm0 Hty Hti) as (g & Hg & _ & Hu).
  destruct Heff as [[-> _]|[(_ & -> & Hnew)|(_ & Hle & Hdb)]]; [by injection Hres as <-| |].
  - destruct Hnew as (current & g' & t' & Hget' & Hg' & Hu' & Hlt).
    rewrite Hget in Hget'. injection Hget' as <-. rewrite Hg in Hg'. injection Hg' as <-.
    rewrite Hu in Hu'. injection Hu' as <-. exists sm0. split; [by eexists|]. split; [lia|by right].
  - exists sm. split; [|split; [by eapply Hle|by left]]. exists text. split; [|done].
    destruct Hdb as [-> | ->]; rewrite !hget_hset; [by rewrite decide_True|].
    rewrite decide_False, decide_True; [done..|].
    intros [He _]. by apply (source_worker_key sid sid wid).
Qed.

(** C24: Of concurrent heartbeats the newest stands. While other replicas report status
    for any worker, an update of a rank that answers success leaves a status row that
    is at least as recent as the one before and as the update: it is the update's
    own row, with its status, time and load, or a strictly newer one. *)
Theorem newest_heartbeat_stands db db' sid wid r st t load sm0 :
  colonless sid -> u32_typed r -> time_ok t -> finite_load load ->
  row_at sid wid r sm0 db ->
  runs (rtc heartbeat) (update_status sid wid r st t load) db (Ok ()) db' ->
  ∃ sm, row_at sid wid r sm db' ∧ (ws_updated_at sm0 <= ws_updated_at sm)%Z ∧
    ((ws_status sm = SourceStatus_i32 st ∧ ws_updated_at sm = t ∧ ws_source_load sm = load) ∨
     (t < ws_updated_at sm)%Z).
Proof.
  intros Hsid Hr Ht Hl Hrow0 Hrun. unfold update_status, Read in Hrun. cbn [runs] in Hrun.
  destruct Hrun as (db1 & Henv1 & Hrun). cbn [fst snd] in Hrun.
  destruct (heartbeats_monotone _ _ _ _ _ _ Henv1 Hsid Hr Hrow0) as (sm1 & Hrow1 & Hle1).
  destruct (Hrow1) as (text1 & Hget1 & (-> & Hty1 & Hti1)).
  rewrite Hget1 in Hrun. cbn [mbind option_bind] in Hrun. rewrite parse_summary_text in Hrun by done.
  unfold write_status, update_status_if_fresh in Hrun. cbn [bind runs] in Hrun.
  destruct Hrun as (db2 & Henv2 & Hrun).
  destruct (heartbeats_monotone _ _ _ _ _ _ Henv2 Hsid Hr Hrow1) as (sm2 & Hrow2 & Hle2).
  set (mine := MkSummary r (SourceStatus_i32 st) t (ws_accelerator sm1) load (ws_topology sm1)
                 (ws_owner_namespace sm1)) in *.
  assert (status_row (summary_text mine) mine) as Hmine.
  { split; [done|]. split; [|done]. split; [done|by destruct st|by apply time_ok_i64|done]. }
  pose proof (fresh_write db2 sid wid r sm2 (summary_text mine) mine) as Hw. cbn [ws_updated_at mine] in Hw.
  destruct (UPDATE_STATUS_IF_FRESH_LUA _ _ _ _ _ _ _ db2) as [db3 reply]. cbn [fst snd] in Hrun, Hw.
  destruct reply as [res|]; cbn in Hrun; [|by destruct Hrun].
  destruct (decide (res = -1)%Z) as [->|Hne]; [by destruct Hrun|].
  rewrite (proj2 (Z.eqb_neq res (-1)) Hne) in Hrun.
  destruct (Hw res Hsid Hrow2 Hmine eq_refl Hne) as (sm & Hrow & Hle & Hor).
  assert (db' = db3) as ->.
  { destruct (res =? 0)%Z; cbn in Hrun; [by destruct Hrun|].
    destruct (res =? 1)%Z; cbn in Hrun; by destruct Hrun. }
  exists sm. split; [done|]. split; [lia|]. destruct Hor as [->|[-> Hlt]]; [by left|by right].
Qed.
End theorems.
