(* ===== verification/KubeServer.v ===== *)
(** * The Kubernetes API server as the registry backend uses it

    The server is not part of the program: [KubeApi] names the requests that the
    backend makes for its custom resource, and [KubeApiLaws] states what the API
    documentation says of them: names are unique, every change of an object gives it
    a new resource version, a JSON Patch (RFC 6902) is applied whole or refused, a
    merge patch (RFC 7386) sets the fields it names and removes those it names as
    null.  [kube_db] is a concrete server that meets the laws.  Requests that fail for
    reasons of transport are not modelled. *)

From Stdlib Require Import ZArith Lia Ascii String.
From stdpp Require Import base tactics option list gmap fin_maps strings.
From S2P Require Import Prelude RustStr EntryKey.

(** The status object of a resource: a field holds a string or [null]. *)
Abbreviation raw_status := (gmap string (option string)).

(** A [ModelCacheEntry]; the resource version is the revision of its last change. *)
Record entry : Type := MkEntry {
  en_version : Z;
  en_model_name : string;
  en_provider : string;
  en_status : option raw_status
}.

#[export] Instance entry_eq_dec : EqDecision entry.
Proof. solve_decision. Defined.

(** The operations of a JSON Patch, on the paths that the backend patches. *)
Inductive patch_op : Type :=
| TestVersion (version : Z)
| AddStatus (status : raw_status)
| TestField (field : string) (value : option string)
| AddField (field : string) (value : option string)
| ReplaceField (field : string) (value : option string).

Definition patch_one (version : Z) (op : patch_op) (status : option raw_status)
    : option (option raw_status) :=
  match op with
  | TestVersion v => if (v =? version)%Z then Some status else None
  | AddStatus raw => Some (Some raw)
  | TestField f v =>
      raw ← status; if bool_decide (raw !! f = Some v) then Some status else None
  | AddField f v => raw ← status; Some (Some (<[f := v]> raw))
  | ReplaceField f v =>
      raw ← status; if bool_decide (is_Some (raw !! f)) then Some (Some (<[f := v]> raw)) else None
  end.

Fixpoint json_patch (version : Z) (ops : list patch_op) (status : option raw_status)
    : option (option raw_status) :=
  match ops with
  | [] => Some status
  | op :: ops => status ← patch_one version op status; json_patch version ops status
  end.

(** A merge patch of the status: [None] is null. *)
Definition merge_patch (fields : list (string * option string)) (status : option raw_status)
    : option raw_status :=
  Some (foldl (fun (raw : raw_status) '(f, v) =>
    match v with Some s => <[f := Some s]> raw | None => delete f raw end) (default ∅ status) fields).

(** [metadata.name]: a DNS-1123 subdomain. *)
Definition valid_name (name : string) : bool :=
  (String.length name <=? 253)%nat && forallb matches_dns1123_label (split "." name).

Inductive api_result (A : Type) : Type :=
| ApiOk (a : A)
| ApiError (code : Z).
Arguments ApiOk {A} _.
Arguments ApiError {A} _.

Class KubeApi (K : Type) := {
  kube_get : string -> K -> option entry;
  kube_list : K -> list (string * entry);
  kube_create : string -> string -> string -> K -> K * api_result entry;
  kube_delete : string -> K -> K * api_result unit;
  kube_merge_status : string -> list (string * option string) -> K -> K * api_result unit;
  kube_patch_status : string -> list patch_op -> K -> K * api_result unit;
  (** The revision of the last change in the store. *)
  kube_revision : K -> Z
}.

Section views.
Context {K : Type} `{KubeApi K}.

(** The object under one name is replaced, every other one stays. *)
Definition kube_put (name : string) (e : option entry) (k k' : K) : Prop :=
  forall n, kube_get n k' = if decide (n = name) then e else kube_get n k.

Definition kube_same (k k' : K) : Prop := forall n, kube_get n k' = kube_get n k.

(** The status of an object is set: under a new version when it changes. *)
Definition kube_set_status (name : string) (e : entry) (status : option raw_status) (k k' : K) : Prop :=
  ∃ version, kube_put name (Some (MkEntry version (en_model_name e) (en_provider e) status)) k k' ∧
    (version = en_version e ∧ status = en_status e ∨ (kube_revision k < version)%Z).
End views.

Class KubeApiLaws (K : Type) `{KubeApi K} : Prop := {
  elem_of_kube_list : forall n e (k : K), (n, e) ∈ kube_list k ↔ kube_get n k = Some e;
  kube_list_NoDup : forall k : K, NoDup (kube_list k).*1;
  kube_version_bound : forall n e (k : K), kube_get n k = Some e -> (en_version e <= kube_revision k)%Z;
  kube_create_spec : forall n m p (k : K),
    let '(k', r) := kube_create n m p k in
    (kube_revision k <= kube_revision k')%Z ∧
    match kube_get n k with
    | Some _ => kube_same k k' ∧ r = ApiError 409
    | None =>
        if valid_name n
        then ∃ e, kube_put n (Some e) k k' ∧ r = ApiOk e ∧ (kube_revision k < en_version e)%Z ∧
               en_model_name e = m ∧ en_provider e = p ∧ en_status e = None
        else kube_same k k' ∧ r = ApiError 422
    end;
  kube_delete_spec : forall n (k : K),
    let '(k', r) := kube_delete n k in
    (kube_revision k <= kube_revision k')%Z ∧ kube_put n None k k' ∧
    r = match kube_get n k with Some _ => ApiOk () | None => ApiError 404 end;
  kube_merge_spec : forall n fields (k : K),
    let '(k', r) := kube_merge_status n fields k in
    (kube_revision k <= kube_revision k')%Z ∧
    match kube_get n k with
    | Some e => kube_set_status n e (merge_patch fields (en_status e)) k k' ∧ r = ApiOk ()
    | None => kube_same k k' ∧ r = ApiError 404
    end;
  kube_patch_spec : forall n ops (k : K),
    let '(k', r) := kube_patch_status n ops k in
    (kube_revision k <= kube_revision k')%Z ∧
    match kube_get n k with
    | Some e =>
        match json_patch (en_version e) ops (en_status e) with
        | Some status => kube_set_status n e status k k' ∧ r = ApiOk ()
        | None => kube_same k k' ∧ r = ApiError 422
        end
    | None => kube_same k k' ∧ r = ApiError 404
    end
}.

(** ** A concrete server *)

Record kube_db : Type := MkKubeDb {
  kd_entries : gmap string entry;
  kd_revision : Z;
  kd_bound : bool_decide (map_Forall (fun _ e => (en_version e <= kd_revision)%Z) kd_entries) = true
}.

Lemma kube_db_bound (d : kube_db) n e :
  kd_entries d !! n = Some e -> (en_version e <= kd_revision d)%Z.
Proof. destruct d as [m r Hb]. cbn. pose proof (proj1 (bool_decide_eq_true _) Hb) as Hall. apply Hall. Qed.

(** One change of the entries under the next revision. *)
Program Definition kube_commit (n : string) (e : option entry) (d : kube_db) : kube_db :=
  MkKubeDb
    (match e with
     | Some e => <[n := MkEntry (kd_revision d + 1) (en_model_name e) (en_provider e) (en_status e)]>
                   (kd_entries d)
     | None => delete n (kd_entries d)
     end) (kd_revision d + 1) _.
Next Obligation.
  intros n e d. apply bool_decide_eq_true. intros n' e' He'.
  assert (forall n e, kd_entries d !! n = Some e -> (en_version e <= kd_revision d + 1)%Z) as Hold.
  { intros n0 e0 H0. pose proof (kube_db_bound d n0 e0 H0). lia. }
  destruct e as [e|].
  - apply lookup_insert_Some in He' as [[_ <-]|[_ He']]; [cbn; lia|by apply (Hold n')].
  - apply lookup_delete_Some in He' as [_ He']. by apply (Hold n').
Qed.

Program Definition kube_empty : kube_db := MkKubeDb ∅ 0 _.
Next Obligation. apply bool_decide_eq_true, map_Forall_empty. Qed.

#[export] Instance kube_db_api : KubeApi kube_db | 100 := {|
  kube_get n d := kd_entries d !! n;
  kube_list d := map_to_list (kd_entries d);
  kube_create n m p d :=
    match kd_entries d !! n with
    | Some _ => (d, ApiError 409)
    | None =>
        if valid_name n
        then (kube_commit n (Some (MkEntry 0 m p None)) d,
              ApiOk (MkEntry (kd_revision d + 1) m p None))
        else (d, ApiError 422)
    end;
  kube_delete n d :=
    match kd_entries d !! n with
    | Some _ => (kube_commit n None d, ApiOk ())
    | None => (d, ApiError 404)
    end;
  kube_merge_status n fields d :=
    match kd_entries d !! n with
    | Some e => (kube_commit n (Some (MkEntry 0 (en_model_name e) (en_provider e)
                                        (merge_patch fields (en_status e)))) d, ApiOk ())
    | None => (d, ApiError 404)
    end;
  kube_patch_status n ops d :=
    match kd_entries d !! n with
    | Some e =>
        match json_patch (en_version e) ops (en_status e) with
        | Some status => (kube_commit n (Some (MkEntry 0 (en_model_name e) (en_provider e) status)) d,
                          ApiOk ())
        | None => (d, ApiError 422)
        end
    | None => (d, ApiError 404)
    end;
  kube_revision := kd_revision
|}.

Lemma kube_commit_some n e (d : kube_db) :
  kube_put n (Some (MkEntry (kd_revision d + 1) (en_model_name e) (en_provider e) (en_status e)))
    d (kube_commit n (Some e) d).
Proof.
  intros n'. cbn. case_decide; subst; by rewrite ?lookup_insert_eq, ?lookup_insert_ne.
Qed.

Lemma kube_commit_none n (d : kube_db) : kube_put n None d (kube_commit n None d).
Proof.
  intros n'. cbn. case_decide; subst; by rewrite ?lookup_delete_eq, ?lookup_delete_ne.
Qed.

#[export] Instance kube_db_laws : KubeApiLaws kube_db | 100.
Proof.
  split.
  - intros n e d. apply elem_of_map_to_list.
  - intros d. apply NoDup_fst_map_to_list.
  - intros n e d. apply kube_db_bound.
  - intros n m p d. cbn. destruct (kd_entries d !! n); [split; [lia|done]|].
    destruct (valid_name n); [|split; [lia|done]]. cbn. split; [lia|].
    eexists. split; [apply (kube_commit_some n (MkEntry 0 m p None))|]. cbn. split; [done|].
    split; [lia|done].
  - intros n d. cbn. destruct (kd_entries d !! n) eqn:He; cbn.
    + split; [lia|]. split; [apply kube_commit_none|done].
    + split; [lia|]. split; [|done]. intros n'. case_decide; [by subst|done].
  - intros n fields d. cbn. destruct (kd_entries d !! n) as [e|]; [|split; [lia|done]]. cbn.
    split; [lia|]. split; [|done]. eexists.
    split; [apply (kube_commit_some n (MkEntry 0 _ _ _))|]. right. cbn. lia.
  - intros n ops d. cbn. destruct (kd_entries d !! n) as [e|]; [|split; [lia|done]].
    destruct (json_patch _ ops _); [|split; [lia|done]]. cbn.
    split; [lia|]. split; [|done]. eexists.
    split; [apply (kube_commit_some n (MkEntry 0 _ _ _))|]. right. cbn. lia.
Qed.
