(* ===== verification/RegistryKube.v ===== *)
(** * Kubernetes registry backend (registry/backend/kubernetes.rs, registry/k8s_types.rs)

    One custom resource per provider and model.  A method makes several requests and
    looks at the replica's own record of lease observations, so it is a program over a
    [world]: the API server, the observations behind the mutex, the two clocks.
    The last component, [w_renewed], is not part of the program: it remembers when a
    lease was written, for stating what a takeover waits for. *)

From Stdlib Require Import ZArith Lia Ascii String.
From stdpp Require Import base tactics option list sorting gmap fin_maps strings pretty.
From S2P Require Import Prelude RustStr Models EntryKey RedisStore RedisProg KubeServer.
From S2P Require Import RegistryMemory.

(** [hex_sha256]: the digest in lowercase hex, or the provider's failure. *)
Class HexDigest := { hex_sha256 : string -> result string string }.

Class HexDigestLaws `{HexDigest} : Prop := {
  hex_sha256_hex : forall s h, hex_sha256 s = Ok h ->
    String.length h = 64 ∧
    str_all (fun b => is_ascii_digit b || byte_in 97 102 b) h = true
}.

Module Kube.

Inductive KubeError : Type :=
| UnknownProvider (s : string)
| InvalidRfc3339 (field value : string)
| ApiFailed (code : Z)
| Undecodable
| Digest (message : string)
| Disappeared.

(** ** Resource names *)

Definition CR_NAME_PREFIX : string := "mx-cache-".
Definition K8S_NAME_MAX : nat := 253.
Definition NAME_BUDGET : nat := K8S_NAME_MAX - String.length CR_NAME_PREFIX.
Definition HASH_SUFFIX_LEN : nat := 12.

(** One character of a name, read from its first byte; the other bytes of a character
    beyond ASCII add nothing. *)
Definition sanitize_char (c : ascii) : string :=
  if Ascii.eqb c "/" then "--"
  else if is_ascii_alphanumeric c then String (to_ascii_lowercase c) ""
  else if Ascii.eqb c "-" || Ascii.eqb c "." then String c ""
  else if is_continuation c then "" else "-".

Fixpoint sanitize_chars (s : string) : string :=
  match s with
  | EmptyString => ""
  | String c s' => sanitize_char c +:+ sanitize_chars s'
  end.

Definition is_dash_dot (c : ascii) : bool := Ascii.eqb c "-" || Ascii.eqb c ".".

(** [trim_matches(|c| c == '-' || c == '.')]. *)
Fixpoint trim_left (s : string) : string :=
  match s with
  | String c s' => if is_dash_dot c then trim_left s' else s
  | EmptyString => ""
  end.

Fixpoint trim_right (s : string) : string :=
  match s with
  | EmptyString => ""
  | String c s' =>
      match trim_right s' with
      | EmptyString => if is_dash_dot c then "" else String c ""
      | t => String c t
      end
  end.

Definition trim_dashes (s : string) : string := trim_right (trim_left s).

Definition ALL_PROVIDERS : list ModelProvider := [HuggingFace; Ngc; Gcs; S3].

Definition provider_str (p : ModelProvider) : string :=
  match p with HuggingFace => "HuggingFace" | Ngc => "Ngc" | Gcs => "Gcs" | S3 => "S3" end.

Section names.
Context `{HexDigest}.

Definition sanitize_registry_name (model_name : string) : result string string :=
  let trimmed := trim_dashes (sanitize_chars model_name) in
  let? hash := hex_sha256 model_name in
  let hash_suffix := substring 0 HASH_SUFFIX_LEN hash in
  if str_is_empty trimmed then Ok hash_suffix
  else
    let max_prefix := NAME_BUDGET - (HASH_SUFFIX_LEN + 1) in
    let prefix_len := Nat.min (String.length trimmed) max_prefix in
    Ok (substring 0 prefix_len trimmed +:+ "-" +:+ hash_suffix).

Definition cr_name_for (provider : ModelProvider) (model_name : string) : result string KubeError :=
  match sanitize_registry_name (provider_str provider +:+ "/" +:+ model_name) with
  | Ok name => Ok (CR_NAME_PREFIX +:+ name)
  | Err e => Err (Digest e)
  end.

Definition legacy_cr_name_for (model_name : string) : result string KubeError :=
  match sanitize_registry_name model_name with
  | Ok name => Ok (CR_NAME_PREFIX +:+ name)
  | Err e => Err (Digest e)
  end.

Fixpoint collect_results {A E} (l : list (result A E)) : result (list A) E :=
  match l with
  | [] => Ok []
  | r :: l => let? a := r in let? rest := collect_results l in Ok (a :: rest)
  end.

Definition candidate_cr_names (model_name : string) : result (list string) KubeError :=
  let? names := collect_results (map (fun p => cr_name_for p model_name) ALL_PROVIDERS) in
  let? legacy := legacy_cr_name_for model_name in
  Ok (names ++ [legacy]).
End names.

(** ** Resources *)

Definition DOWNLOADING_PHASE : string := "Downloading".
Definition DOWNLOADED_PHASE : string := "Downloaded".
Definition ERROR_PHASE : string := "Error".

Record ModelCacheEntryStatus : Type := MkStatus {
  ms_phase : string;
  ms_created_at : option string;
  ms_last_used_at : option string;
  ms_message : option string;
  ms_claim_id : option string;
  ms_lease_expires_at : option string
}.

Definition default_status : ModelCacheEntryStatus := MkStatus "" None None None None None.

(** Deserialisation of a status: null is no phase. *)
Definition decode_status (raw : raw_status) : option ModelCacheEntryStatus :=
  phase ← (match raw !! "phase" with
           | Some (Some p) => Some p
           | Some None => None
           | None => Some ""
           end);
  Some (MkStatus phase (mjoin (raw !! "createdAt")) (mjoin (raw !! "lastUsedAt"))
          (mjoin (raw !! "message")) (mjoin (raw !! "claimId")) (mjoin (raw !! "leaseExpiresAt"))).

(** A [ModelCacheEntry] as the client library hands it out. *)
Record ModelCacheEntry : Type := MkCr {
  cr_name : string;
  cr_version : Z;
  cr_model_name : string;
  cr_provider : string;
  cr_status : option ModelCacheEntryStatus
}.

Definition decode_entry (name : string) (e : entry) : option ModelCacheEntry :=
  match en_status e with
  | None => Some (MkCr name (en_version e) (en_model_name e) (en_provider e) None)
  | Some raw =>
      st ← decode_status raw;
      Some (MkCr name (en_version e) (en_model_name e) (en_provider e) (Some st))
  end.

Definition provider_from_str (s : string) : result ModelProvider KubeError :=
  if String.eqb s "HuggingFace" then Ok HuggingFace
  else if String.eqb s "Ngc" then Ok Ngc
  else if String.eqb s "Gcs" then Ok Gcs
  else if String.eqb s "S3" then Ok S3
  else Err (UnknownProvider s).

Definition status_from_phase (phase : string) : ModelStatus :=
  if String.eqb phase DOWNLOADING_PHASE then DOWNLOADING
  else if String.eqb phase DOWNLOADED_PHASE then DOWNLOADED
  else if String.eqb phase ERROR_PHASE then ERROR
  else if String.eqb phase "" then DOWNLOADING
  else ERROR.

Definition phase_from_status (status : ModelStatus) : string :=
  match status with
  | DOWNLOADING => DOWNLOADING_PHASE
  | DOWNLOADED => DOWNLOADED_PHASE
  | ERROR => ERROR_PHASE
  end.

(** ** Lease observations *)

Record LeaseFingerprint : Type := MkFingerprint {
  lf_claim_id : option string;
  lf_lease_expires_at : option string
}.

#[export] Instance LeaseFingerprint_eq_dec : EqDecision LeaseFingerprint.
Proof. solve_decision. Defined.

Record LeaseObservation : Type := MkObservation {
  lo_fingerprint : LeaseFingerprint;
  lo_observed_at : Z
}.

Abbreviation lease_observations := (gmap string LeaseObservation).

(** [lease_observation_expired]; [duration_since] saturates at zero. *)
Definition lease_observation_expired (observations : lease_observations) (name : string)
    (fingerprint : LeaseFingerprint) (now lease_duration : Z) : lease_observations * bool :=
  let observed := <[name := MkObservation fingerprint now]> observations in
  match observations !! name with
  | Some o =>
      if bool_decide (lo_fingerprint o = fingerprint)
      then (observations, (lease_duration <=? Z.max 0 (now - lo_observed_at o))%Z)
      else (observed, (lease_duration =? 0)%Z)
  | None => (observed, (lease_duration =? 0)%Z)
  end.

(** ** The world *)

Record world (K : Type) : Type := MkWorld {
  w_kube : K;
  w_observations : lease_observations;
  w_monotonic : Z;
  w_wall : Z;
  w_renewed : string -> LeaseFingerprint -> option Z
}.
Arguments MkWorld {K} _ _ _ _ _.
Arguments w_kube {K} _.
Arguments w_observations {K} _.
Arguments w_monotonic {K} _.
Arguments w_wall {K} _.
Arguments w_renewed {K} _ _ _.

Section backend.
Context {K : Type} `{KubeApi K} `{HexDigest} `{Rfc3339} `{Chrono}.

Abbreviation W := (world K).
Abbreviation RegistryResult A := (result A KubeError).

Definition with_kube (k : K) (w : W) : W :=
  MkWorld k (w_observations w) (w_monotonic w) (w_wall w) (w_renewed w).
Definition with_observations (o : lease_observations) (w : W) : W :=
  MkWorld (w_kube w) o (w_monotonic w) (w_wall w) (w_renewed w).

(** One request to the API server. *)
Definition request {A} (cmd : K -> K * A) : prog W A :=
  Call (fun w => let '(k, a) := cmd (w_kube w) in (with_kube k w, a)) Ret.

Definition utc_now : prog W Z := Read w_wall Ret.
Definition instant_now : prog W Z := Read w_monotonic Ret.

Definition lease_has_expired (name : string) (status : ModelCacheEntryStatus) (lease_duration : Z)
    : prog W bool :=
  let fingerprint := MkFingerprint (ms_claim_id status) (ms_lease_expires_at status) in
  let! now := instant_now in
  Call (fun w =>
    let '(o, expired) := lease_observation_expired (w_observations w) name fingerprint now lease_duration in
    (with_observations o w, expired)) Ret.

Definition clear_lease_observation (name : string) : prog W unit :=
  Call (fun w => (with_observations (delete name (w_observations w)) w, ())) Ret.

Definition parse_rfc3339 (s field : string) : RegistryResult Z :=
  match parse_from_rfc3339 s with
  | Some t => Ok t
  | None => Err (InvalidRfc3339 field s)
  end.

Definition record_from_cr (now : Z) (cr : ModelCacheEntry) : RegistryResult ModelRecord :=
  let status := default default_status (cr_status cr) in
  let? provider := provider_from_str (cr_provider cr) in
  let model_status := status_from_phase (ms_phase status) in
  let? created_at := match ms_created_at status with
                     | Some s => parse_rfc3339 s "createdAt"
                     | None => Ok now
                     end in
  let? last_used_at := match ms_last_used_at status with
                       | Some s => parse_rfc3339 s "lastUsedAt"
                       | None => Ok now
                       end in
  Ok (MkModelRecord (cr_model_name cr) provider model_status created_at last_used_at
        (ms_message status)).

Record StatusPatch : Type := MkStatusPatch {
  sp_phase : option string;
  sp_last_used_at : option string;
  sp_created_at : option string;
  sp_message : option (option string);
  sp_claim_id : option (option string);
  sp_lease_expires_at : option (option string)
}.

Definition patch_field (name : string) (value : option (option string)) : list (string * option string) :=
  match value with Some v => [(name, v)] | None => [] end.

Definition patch_fields (update : StatusPatch) : list (string * option string) :=
  patch_field "phase" (Some <$> sp_phase update) ++
  patch_field "lastUsedAt" (Some <$> sp_last_used_at update) ++
  patch_field "createdAt" (Some <$> sp_created_at update) ++
  patch_field "message" (sp_message update) ++
  patch_field "claimId" (sp_claim_id update) ++
  patch_field "leaseExpiresAt" (sp_lease_expires_at update).

Definition patch_status (name : string) (update : StatusPatch) : prog W (RegistryResult unit) :=
  match patch_fields update with
  | [] => Ret (Ok ())
  | fields =>
      let! r := request (kube_merge_status name fields) in
      Ret (match r with ApiOk _ => Ok () | ApiError code => Err (ApiFailed code) end)
  end.

Definition get_cr (name : string) : prog W (RegistryResult (option ModelCacheEntry)) :=
  let! e := request (fun k => (k, kube_get name k)) in
  Ret (match e with
       | None => Ok None
       | Some e => match decode_entry name e with
                   | Some cr => Ok (Some cr)
                   | None => Err Undecodable
                   end
       end).

(** The patch of a claim on an entry that was read at a resource version. *)
Definition claim_patch (version : Z) (status_missing : bool) (claim_id now lease_expires_at : string)
    : list patch_op :=
  TestVersion version ::
  if status_missing
  then [AddStatus (list_to_map
          [("phase", Some DOWNLOADING_PHASE); ("createdAt", Some now); ("lastUsedAt", Some now);
           ("message", Some "Starting download..."); ("claimId", Some claim_id);
           ("leaseExpiresAt", Some lease_expires_at)])]
  else [TestField "phase" (Some DOWNLOADING_PHASE); AddField "claimId" (Some claim_id);
        AddField "leaseExpiresAt" (Some lease_expires_at);
        AddField "message" (Some "Taking over expired download lease...");
        AddField "lastUsedAt" (Some now)].

(** The request of a claim, once the entry may be claimed. *)
Definition write_claim (cr : ModelCacheEntry) (status_missing is_fresh_claim : bool) (claim_id : string)
    (lease_duration : Z) : prog W (RegistryResult ClaimOutcome) :=
  let! now := utc_now in
  let! deadline_now := utc_now in
  let lease_expires_at := to_rfc3339 (Memory.lease_deadline deadline_now lease_duration) in
  let! r := request (kube_patch_status (cr_name cr)
                       (claim_patch (cr_version cr) status_missing claim_id (to_rfc3339 now)
                          lease_expires_at)) in
  match r with
  | ApiOk _ =>
      let! _ := clear_lease_observation (cr_name cr) in
      Ret (Ok (if is_fresh_claim then Claimed else TookOver))
  | ApiError code =>
      if (code =? 409)%Z || (code =? 422)%Z
      then
        try! entry := get_cr (cr_name cr) in
        Ret (Ok (AlreadyExists (match entry ≫= cr_status with
                                | Some status => status_from_phase (ms_phase status)
                                | None => DOWNLOADING
                                end)))
      else Ret (Err (ApiFailed code))
  end.

Definition try_claim_existing (cr : ModelCacheEntry) (claim_id : string) (lease_duration : Z)
    (claim_uninitialized : bool) : prog W (RegistryResult ClaimOutcome) :=
  let status_missing := bool_decide (cr_status cr = None) in
  let status := default default_status (cr_status cr) in
  let current := status_from_phase (ms_phase status) in
  if negb (bool_decide (current = DOWNLOADING))
  then
    let! _ := clear_lease_observation (cr_name cr) in
    Ret (Ok (AlreadyExists current))
  else
    let is_fresh_claim := status_missing && claim_uninitialized in
    if is_fresh_claim
    then write_claim cr status_missing is_fresh_claim claim_id lease_duration
    else
      let! expired := lease_has_expired (cr_name cr) status lease_duration in
      if expired
      then write_claim cr status_missing is_fresh_claim claim_id lease_duration
      else Ret (Ok (AlreadyExists DOWNLOADING)).

Definition first_error {A} (r : result (list string) KubeError) (k : list string -> prog W (RegistryResult A))
    : prog W (RegistryResult A) :=
  match r with Ok names => k names | Err e => Ret (Err e) end.

Fixpoint find_first (names : list string) : prog W (RegistryResult (option ModelCacheEntry)) :=
  match names with
  | [] => Ret (Ok None)
  | name :: names' =>
      try! cr := get_cr name in
      match cr with
      | Some cr => Ret (Ok (Some cr))
      | None => find_first names'
      end
  end.

Definition find_existing_cr (model_name : string) : prog W (RegistryResult (option ModelCacheEntry)) :=
  first_error (candidate_cr_names model_name) find_first.

(** The answer of a migration, from the phase that the new entry then has. *)
Definition adopted (scoped_name : string) : prog W (RegistryResult (option ClaimOutcome)) :=
  try! cr := get_cr scoped_name in
  let phase := ms_phase (default default_status (cr ≫= cr_status)) in
  Ret (Ok (Some (AlreadyExists (status_from_phase phase)))).

Definition adopt_legacy_cr (model_name : string) (provider : ModelProvider) (scoped_name : string)
    : prog W (RegistryResult (option ClaimOutcome)) :=
  match legacy_cr_name_for model_name with
  | Err e => Ret (Err e)
  | Ok legacy_name =>
      try! legacy := get_cr legacy_name in
      match legacy with
      | None => Ret (Ok None)
      | Some legacy_cr =>
          match provider_from_str (cr_provider legacy_cr) with
          | Err e => Ret (Err e)
          | Ok p =>
              if negb (bool_decide (p = provider)) then Ret (Ok None)
              else
                let legacy_status := default default_status (cr_status legacy_cr) in
                let finish :=
                  let! _ := request (kube_delete legacy_name) in adopted scoped_name in
                let! created := request (kube_create scoped_name (cr_model_name legacy_cr)
                                           (cr_provider legacy_cr)) in
                match created with
                | ApiOk _ =>
                    try! _ := patch_status scoped_name
                      (MkStatusPatch
                         (Some (phase_from_status (status_from_phase (ms_phase legacy_status))))
                         (ms_last_used_at legacy_status) (ms_created_at legacy_status)
                         (Some (ms_message legacy_status)) (Some (ms_claim_id legacy_status))
                         (Some (ms_lease_expires_at legacy_status))) in
                    finish
                | ApiError code => if (code =? 409)%Z then finish else Ret (Err (ApiFailed code))
                end
          end
      end
  end.

(** *** The trait *)

Definition get_status (model_name : string) : prog W (RegistryResult (option ModelStatus)) :=
  try! cr := find_existing_cr model_name in
  Ret (Ok ((fun cr => status_from_phase (ms_phase (default default_status (cr_status cr)))) <$> cr)).

Definition get_model_record (model_name : string) : prog W (RegistryResult (option ModelRecord)) :=
  try! cr := find_existing_cr model_name in
  match cr with
  | None => Ret (Ok None)
  | Some cr =>
      let! now := utc_now in
      Ret (let? r := record_from_cr now cr in Ok (Some r))
  end.

(** The name of an entry, or the digest's failure. *)
Definition scoped {A} (provider : ModelProvider) (model_name : string)
    (k : string -> prog W (RegistryResult A)) : prog W (RegistryResult A) :=
  match cr_name_for provider model_name with Ok name => k name | Err e => Ret (Err e) end.

Definition set_status (model_name : string) (provider : ModelProvider) (status : ModelStatus)
    (message : option string) : prog W (RegistryResult unit) :=
  scoped provider model_name (fun name =>
    let! now := utc_now in
    try! existing := get_cr name in
    let needs_created_at :=
      match (existing ≫= cr_status) ≫= ms_created_at with Some _ => false | None => true end in
    let patch :=
      patch_status name
        (MkStatusPatch (Some (phase_from_status status)) (Some (to_rfc3339 now))
           (if needs_created_at then Some (to_rfc3339 now) else None) (Some message)
           (if bool_decide (status = DOWNLOADING) then None else Some None)
           (if bool_decide (status = DOWNLOADING) then None else Some None)) in
    match existing with
    | Some _ => patch
    | None =>
        let! created := request (kube_create name model_name (provider_str provider)) in
        match created with
        | ApiOk _ => patch
        | ApiError code => if (code =? 409)%Z then patch else Ret (Err (ApiFailed code))
        end
    end).

Definition touch_model (model_name : string) : prog W (RegistryResult unit) :=
  try! cr := find_existing_cr model_name in
  match cr with
  | None => Ret (Ok ())
  | Some cr =>
      let! now := utc_now in
      patch_status (cr_name cr)
        (MkStatusPatch None (Some (to_rfc3339 now)) None None None None)
  end.

Fixpoint delete_all (names : list string) : prog W (RegistryResult unit) :=
  match names with
  | [] => Ret (Ok ())
  | name :: names' =>
      let! r := request (kube_delete name) in
      let next := let! _ := clear_lease_observation name in delete_all names' in
      match r with
      | ApiOk _ => next
      | ApiError code => if (code =? 404)%Z then next else Ret (Err (ApiFailed code))
      end
  end.

Definition delete_model (model_name : string) : prog W (RegistryResult unit) :=
  first_error (candidate_cr_names model_name) delete_all.

(** The decoded items of a list request: one that cannot be decoded fails it. *)
Definition list_crs : prog W (RegistryResult (list ModelCacheEntry)) :=
  let! items := request (fun k => (k, kube_list k)) in
  Ret (match mapM (fun ne : string * entry => decode_entry ne.1 ne.2) items with
       | Some crs => Ok crs
       | None => Err Undecodable
       end).

(** The loop over the items reads the clock once per item; malformed ones are
    skipped. *)
Fixpoint collect_records (crs : list ModelCacheEntry) : prog W (list ModelRecord) :=
  match crs with
  | [] => Ret []
  | cr :: crs' =>
      let! now := utc_now in
      let! rest := collect_records crs' in
      Ret (match record_from_cr now cr with Ok r => r :: rest | Err _ => rest end)
  end.

Definition get_models_by_last_used (limit : option Z) : prog W (RegistryResult (list ModelRecord)) :=
  try! crs := list_crs in
  let! records := collect_records crs in
  let records := sort_by_key mr_last_used_at records in
  Ret (Ok (match limit with Some n => take (Z.to_nat n) records | None => records end)).

Definition count_phase (acc : Z * Z * Z) (cr : ModelCacheEntry) : Z * Z * Z :=
  let '(downloading, downloaded, error) := acc in
  match status_from_phase (default "" (ms_phase <$> cr_status cr)) with
  | DOWNLOADING => (saturating_add_u32 downloading 1, downloaded, error)
  | DOWNLOADED => (downloading, saturating_add_u32 downloaded 1, error)
  | ERROR => (downloading, downloaded, saturating_add_u32 error 1)
  end.

Definition get_status_counts : prog W (RegistryResult (Z * Z * Z)) :=
  try! crs := list_crs in
  Ret (Ok (foldl count_phase (0, 0, 0)%Z crs)).

(** The part of a claim after no entry was found. *)
Definition claim_absent (name model_name : string) (provider : ModelProvider) (claim_id : string)
    (lease_duration : Z) : prog W (RegistryResult ClaimOutcome) :=
  try! adopted := adopt_legacy_cr model_name provider name in
  match adopted with
  | Some outcome => Ret (Ok outcome)
  | None =>
      let! created := request (kube_create name model_name (provider_str provider)) in
      match created with
      | ApiOk e =>
          match decode_entry name e with
          | Some cr => try_claim_existing cr claim_id lease_duration true
          | None => Ret (Err Undecodable)
          end
      | ApiError code =>
          if (code =? 409)%Z
          then
            try! existing := get_cr name in
            match existing with
            | Some cr => try_claim_existing cr claim_id lease_duration false
            | None => Ret (Err Disappeared)
            end
          else Ret (Err (ApiFailed code))
      end
  end.

Definition try_claim_for_download (model_name : string) (provider : ModelProvider)
    (claim_id : string) (lease_duration : Z) : prog W (RegistryResult ClaimOutcome) :=
  scoped provider model_name (fun name =>
    try! existing := get_cr name in
    match existing with
    | Some cr => try_claim_existing cr claim_id lease_duration false
    | None => claim_absent name model_name provider claim_id lease_duration
    end).

Definition retry_patch (claim_id now lease_expires_at : string) : list patch_op :=
  [TestField "phase" (Some ERROR_PHASE); ReplaceField "phase" (Some DOWNLOADING_PHASE);
   ReplaceField "message" (Some "Retrying download..."); ReplaceField "lastUsedAt" (Some now);
   AddField "claimId" (Some claim_id); AddField "leaseExpiresAt" (Some lease_expires_at)].

Definition try_reset_error_for_retry (model_name : string) (provider : ModelProvider)
    (claim_id : string) (lease_duration : Z) : prog W (RegistryResult bool) :=
  scoped provider model_name (fun name =>
    try! existing := get_cr name in
    match existing with
    | None => Ret (Ok false)
    | Some existing =>
        let current_phase := default "" (ms_phase <$> cr_status existing) in
        if negb (String.eqb current_phase ERROR_PHASE) then Ret (Ok false)
        else
          let! now := utc_now in
          let! deadline_now := utc_now in
          let! r := request (kube_patch_status name
                      (retry_patch claim_id (to_rfc3339 now)
                         (to_rfc3339 (Memory.lease_deadline deadline_now lease_duration)))) in
          match r with
          | ApiOk _ => let! _ := clear_lease_observation name in Ret (Ok true)
          | ApiError code =>
              if (code =? 422)%Z || (code =? 409)%Z then Ret (Ok false) else Ret (Err (ApiFailed code))
          end
    end).

Definition lost_ownership (code : Z) : bool := (code =? 404)%Z || (code =? 409)%Z || (code =? 422)%Z.

Definition refresh_patch (claim_id now lease_expires_at : string) : list patch_op :=
  [TestField "phase" (Some DOWNLOADING_PHASE); TestField "claimId" (Some claim_id);
   AddField "leaseExpiresAt" (Some lease_expires_at); AddField "lastUsedAt" (Some now)].

Definition refresh_download_claim (model_name : string) (provider : ModelProvider)
    (claim_id : string) (lease_duration : Z) : prog W (RegistryResult bool) :=
  scoped provider model_name (fun name =>
    let! now := utc_now in
    let! deadline_now := utc_now in
    let! r := request (kube_patch_status name
                (refresh_patch claim_id (to_rfc3339 now)
                   (to_rfc3339 (Memory.lease_deadline deadline_now lease_duration)))) in
    Ret (match r with
         | ApiOk _ => Ok true
         | ApiError code => if lost_ownership code then Ok false else Err (ApiFailed code)
         end)).

Definition finish_patch (claim_id now : string) (status : ModelStatus) (message : option string)
    : list patch_op :=
  [TestField "phase" (Some DOWNLOADING_PHASE); TestField "claimId" (Some claim_id);
   ReplaceField "phase" (Some (phase_from_status status)); AddField "message" message;
   AddField "lastUsedAt" (Some now); AddField "claimId" None; AddField "leaseExpiresAt" None].

Definition finish_download_claim (model_name : string) (provider : ModelProvider)
    (claim_id : string) (status : ModelStatus) (message : option string)
    : prog W (RegistryResult bool) :=
  scoped provider model_name (fun name =>
    let! now := utc_now in
    let! r := request (kube_patch_status name (finish_patch claim_id (to_rfc3339 now) status message)) in
    match r with
    | ApiOk _ => let! _ := clear_lease_observation name in Ret (Ok true)
    | ApiError code => Ret (if lost_ownership code then Ok false else Err (ApiFailed code))
    end).
End backend.
End Kube.
