(* ===== verification/RegistryKubeTheorems.v ===== *)
(** * Leases of the Kubernetes registry backend

    What a claim that succeeds may rely on while other replicas, and other tasks of
    the same replica, act between any two of its requests: the entry was new, or its
    owner had not renewed the lease for the whole lease duration. *)

From Stdlib Require Import ZArith Lia Ascii String.
From stdpp Require Import base tactics option list sorting relations gmap fin_maps strings pretty.
From S2P Require Import Prelude RustStr Models EntryKey RedisStore RedisProg KubeServer.
From S2P Require Import RegistryMemory RegistryKube.

Import Kube.

(** ** Entries *)

(** The fingerprint of an entry that counts as downloading. *)
Definition entry_fingerprint (e : entry) : option LeaseFingerprint :=
  cr ← decode_entry "" e;
  let status := default default_status (cr_status cr) in
  if bool_decide (status_from_phase (ms_phase status) = DOWNLOADING)
  then Some (MkFingerprint (ms_claim_id status) (ms_lease_expires_at status)) else None.

(** The replica that owns the download of an entry. *)
Definition entry_owner (e : entry) : option string := entry_fingerprint e ≫= lf_claim_id.

Section leases.
Context {K : Type} `{KubeApi K, !KubeApiLaws K} `{HexDigest} `{Rfc3339} `{Chrono}.
Implicit Types (w : world K) (k : K).

(** ** Other actors *)

(** What the history of renewals becomes when the entries change: a lease with an owner
    that appears has never been there before, and the time is noted. *)
Definition renewals (now : Z) (k k' : K) (old new : string -> LeaseFingerprint -> option Z) : Prop :=
  forall n fp,
    let appears := ∃ e, kube_get n k' = Some e ∧ entry_fingerprint e = Some fp ∧
                        is_Some (lf_claim_id fp) ∧
                        (kube_get n k ≫= entry_fingerprint) ≠ Some fp in
    (appears -> old n fp = None ∧ new n fp = Some now) ∧ (~ appears -> new n fp = old n fp).

(** Entries only change under versions above the revision of the store. *)
Definition new_versions (k k' : K) : Prop :=
  (kube_revision k <= kube_revision k')%Z ∧
  forall n e, kube_get n k' = Some e -> kube_get n k = Some e ∨ (kube_revision k < en_version e)%Z.

(** A step of another actor: a clock advances, the entries change, or a task of the same
    replica that read a lease notes when it saw it, or forgets it. *)
Inductive other_step w : world K -> Prop :=
| OtherClock monotonic wall :
    (w_monotonic w <= monotonic)%Z ->
    other_step w (MkWorld (w_kube w) (w_observations w) monotonic wall (w_renewed w))
| OtherWrite k renewed :
    new_versions (w_kube w) k -> renewals (w_monotonic w) (w_kube w) k (w_renewed w) renewed ->
    other_step w (MkWorld k (w_observations w) (w_monotonic w) (w_wall w) renewed)
| OtherObserve n fp t :
    (is_Some (lf_claim_id fp) -> ∃ r, w_renewed w n fp = Some r ∧ (r <= t)%Z) ->
    other_step w (with_observations (<[n := MkObservation fp t]> (w_observations w)) w)
| OtherForget n : other_step w (with_observations (delete n (w_observations w)) w).

Abbreviation others := (rtc other_step).

(** ** The invariant *)

(** A lease that is there was written at a time that has passed, and an observation was
    made after its lease was written. *)
Definition observed_after_renewal w : Prop :=
  (forall n e fp, kube_get n (w_kube w) = Some e -> entry_fingerprint e = Some fp ->
     is_Some (lf_claim_id fp) -> ∃ r, w_renewed w n fp = Some r ∧ (r <= w_monotonic w)%Z) ∧
  (forall n o, w_observations w !! n = Some o -> is_Some (lf_claim_id (lo_fingerprint o)) ->
     ∃ r, w_renewed w n (lo_fingerprint o) = Some r ∧ (r <= lo_observed_at o)%Z).

(** What one step keeps: the clock does not go back, and no renewal is forgotten. *)
Lemma other_step_history w w' :
  other_step w w' ->
  (w_monotonic w <= w_monotonic w')%Z ∧
  forall n fp r, w_renewed w n fp = Some r -> w_renewed w' n fp = Some r.
Proof.
  intros Hstep. destruct Hstep as [mono wall Hle|k renewed _ Hren|n fp t _|n]; cbn; (split; [lia|]);
    try done.
  intros n fp r Hr. destruct (Hren n fp) as [Happ Hno].
  rewrite Hno; [done|]. intros Ha. destruct (Happ Ha) as [Hnone _]. congruence.
Qed.

Lemma others_history w w' :
  others w w' ->
  (w_monotonic w <= w_monotonic w')%Z ∧
  forall n fp r, w_renewed w n fp = Some r -> w_renewed w' n fp = Some r.
Proof.
  induction 1 as [w|w1 w2 w3 Hstep _ IH]; [split; [lia|done]|].
  destruct (other_step_history _ _ Hstep) as [Hm Hr], IH as [Hm' Hr']. split; [lia|eauto].
Qed.

Lemma other_step_inv w w' :
  other_step w w' -> observed_after_renewal w -> observed_after_renewal w'.
Proof.
  intros Hstep [He Ho]. pose proof (other_step_history _ _ Hstep) as [Hm Hh].
  assert (forall n o, w_observations w !! n = Some o -> is_Some (lf_claim_id (lo_fingerprint o)) ->
    ∃ r, w_renewed w' n (lo_fingerprint o) = Some r ∧ (r <= lo_observed_at o)%Z) as Hold.
  { intros n o Hn Hc. destruct (Ho n o Hn Hc) as (r & Hr & Hle). eauto. }
  destruct Hstep as [mono wall Hle|k renewed _ Hren|n fp t Hfp|n]; cbn in *.
  - split; [|done]. intros n e fp Hn Hf Hc. destruct (He n e fp Hn Hf Hc) as (r & Hr & Hle').
    exists r. split; [done|]. cbn. lia.
  - split; [|done]. intros n e fp Hn Hf Hc. cbn in *. destruct (Hren n fp) as [Happ Hno].
    destruct (decide (kube_get n (w_kube w) ≫= entry_fingerprint = Some fp)) as [Hsame|Hdiff].
    + destruct (kube_get n (w_kube w)) as [e0|] eqn:He0; [|done]. cbn in Hsame.
      destruct (He n e0 fp He0 Hsame Hc) as (r & Hr & Hle). exists r. split; [|done]. by apply Hh.
    + destruct Happ as [_ Hnew]; [by exists e|]. exists (w_monotonic w). split; [done|lia].
  - split; [done|]. intros n' o. cbn. intros [[<- <-]|[_ Hn]]%lookup_insert_Some Hc; [by apply Hfp|].
    by apply Hold.
  - split; [done|]. intros n' o. cbn. intros [_ Hn]%lookup_delete_Some. by apply Hold.
Qed.

Lemma others_inv w w' : others w w' -> observed_after_renewal w -> observed_after_renewal w'.
Proof. induction 1; eauto using other_step_inv. Qed.

(** An entry that was read: while its version is there, it is that entry. *)
Definition seen (n : string) (e : entry) w : Prop :=
  (en_version e <= kube_revision (w_kube w))%Z ∧
  forall e', kube_get n (w_kube w) = Some e' -> en_version e' = en_version e -> e' = e.

Lemma other_step_seen n e w w' : other_step w w' -> seen n e w -> seen n e w'.
Proof.
  intros Hstep [Hb Hs]. destruct Hstep as [| k renewed [Hrev Hnew] _ | |]; try done.
  split; cbn; [lia|]. intros e' He' Hv. destruct (Hnew n e' He') as [Hold|Hlt]; [by apply Hs|lia].
Qed.

Lemma others_seen n e w w' : others w w' -> seen n e w -> seen n e w'.
Proof. induction 1; eauto using other_step_seen. Qed.

Lemma seen_now n e w : kube_get n (w_kube w) = Some e -> seen n e w.
Proof. intros He. split; [by eapply kube_version_bound|]. intros e' He' _. congruence. Qed.

(** ** Requests as steps *)

Lemma with_kube_same w : with_kube (w_kube w) w = w.
Proof. by destruct w. Qed.

Lemma runs_request {A B} env (cmd : K -> K * A) (p : A -> prog (world K) B) w b w' :
  runs env (bind (request cmd) p) w b w' ↔
  ∃ w1, env w w1 ∧ runs env (p (cmd (w_kube w1)).2) (with_kube (cmd (w_kube w1)).1 w1) b w'.
Proof.
  cbn. split; intros (w1 & Henv & Hrun); exists w1; (split; [done|]);
    by destruct (cmd (w_kube w1)).
Qed.

(** A read request. *)
Lemma runs_get {A} env n (p : result (option ModelCacheEntry) KubeError -> prog (world K) A) w a w' :
  runs env (bind (get_cr n) p) w a w' ↔
  ∃ w1, env w w1 ∧
    runs env (p (match kube_get n (w_kube w1) with
                 | None => Ok None
                 | Some e => match decode_entry n e with Some cr => Ok (Some cr) | None => Err Undecodable end
                 end)) w1 a w'.
Proof.
  cbn. split; intros (w1 & Henv & Hrun); exists w1; (split; [done|]);
    rewrite with_kube_same in *; done.
Qed.

Lemma same_write w k :
  kube_same (w_kube w) k -> (kube_revision (w_kube w) <= kube_revision k)%Z ->
  other_step w (with_kube k w).
Proof.
  intros Hs Hr. apply (OtherWrite w k (w_renewed w)).
  - split; [done|]. intros n e. rewrite Hs. by left.
  - intros n fp. cbn. split; [|done]. intros (e & He & Hf & _ & Hno). rewrite Hs in He.
    rewrite He in Hno. cbn in Hno. done.
Qed.

(** A created entry has no owner. *)
Lemma create_write w n m p e :
  (kube_create n m p (w_kube w)).2 = ApiOk e ->
  let k := (kube_create n m p (w_kube w)).1 in
  other_step w (with_kube k w) ∧ kube_get n k = Some e ∧ en_status e = None.
Proof.
  pose proof (kube_create_spec n m p (w_kube w)) as Hspec.
  destruct (kube_create n m p (w_kube w)) as [k r]. cbn. intros ->.
  destruct Hspec as [Hrev Hspec]. destruct (kube_get n (w_kube w)) eqn:Hn; [by destruct Hspec|].
  destruct (valid_name n); [|by destruct Hspec].
  destruct Hspec as (e' & Hput & [= <-] & Hv & _ & _ & Hst).
  split; [|split; [by rewrite Hput, decide_True|done]].
  apply (OtherWrite w k (w_renewed w)).
  - split; [done|]. intros n' e'. rewrite Hput. case_decide; [|by left]. intros [= <-]. by right.
  - intros n' fp. split; [|done]. intros (e' & He' & Hf & Hc & Hno). rewrite Hput in He'.
    case_decide as Hd; [|by rewrite He' in Hno].
    injection He' as <-. unfold entry_fingerprint, decode_entry in Hf. rewrite Hst in Hf. cbn in Hf.
    injection Hf as <-. by destruct Hc.
Qed.

Lemma create_conflict w n m p code :
  (kube_create n m p (w_kube w)).2 = ApiError code ->
  other_step w (with_kube (kube_create n m p (w_kube w)).1 w).
Proof.
  pose proof (kube_create_spec n m p (w_kube w)) as Hspec.
  destruct (kube_create n m p (w_kube w)) as [k r]. cbn. intros ->.
  destruct Hspec as [Hrev Hspec]. apply same_write; [|done].
  destruct (kube_get n (w_kube w)); [apply Hspec|]. destruct (valid_name n); [|apply Hspec].
  by destruct Hspec as (e' & _ & ? & _).
Qed.

(** ** Claims *)

Lemma claim_patch_accepted v version missing c now dl status status' :
  json_patch v (claim_patch version missing c now dl) status = Some status' ->
  v = version ∧ ∃ raw, status' = Some raw ∧ raw !! "phase" = Some (Some DOWNLOADING_PHASE) ∧
    raw !! "claimId" = Some (Some c).
Proof.
  unfold claim_patch. cbn. destruct (Z.eqb_spec version v) as [->|]; [|done]. cbn.
  destruct missing; cbn.
  - intros [= <-]. split; [done|]. eexists. split; [done|]. by vm_compute.
  - destruct status as [raw|]; cbn; [|done].
    case_bool_decide as Hp; cbn; [|done]. intros [= <-]. split; [done|]. eexists. split; [done|].
    rewrite !lookup_insert_ne by done. split; [done|]. by rewrite lookup_insert_eq.
Qed.

Lemma downloading_owner e raw c :
  en_status e = Some raw -> raw !! "phase" = Some (Some DOWNLOADING_PHASE) ->
  raw !! "claimId" = Some (Some c) -> entry_owner e = Some c.
Proof.
  intros He Hp Hc. unfold entry_owner, entry_fingerprint, decode_entry, decode_status.
  rewrite He, Hp, Hc. done.
Qed.

(** The moment of a claim: the world just before the patch that is accepted, with the
    entry then, and the world after. *)
Definition claimed_at (n c : string) (version : Z) (e : entry) w w' : Prop :=
  ∃ wp k e', others w wp ∧ kube_get n (w_kube wp) = Some e ∧ en_version e = version ∧
    kube_get n k = Some e' ∧ entry_owner e' = Some c ∧ others (with_kube k wp) w'.

Lemma write_claim_runs cr missing fresh c dur w o w' :
  runs others (write_claim cr missing fresh c dur) w (Ok o) w' -> owns_download o = true ->
  o = (if fresh then Claimed else TookOver) ∧
  ∃ wp k e e', others w wp ∧ kube_get (cr_name cr) (w_kube wp) = Some e ∧
    en_version e = cr_version cr ∧ kube_get (cr_name cr) k = Some e' ∧ entry_owner e' = Some c ∧
    others (with_kube k wp) w'.
Proof.
  unfold write_claim, utc_now, Read. cbn [bind runs].
  intros (w1 & H1' & w2 & H2' & Hrun) Ho. cbn [fst snd] in Hrun.
  apply runs_request in Hrun as (wp & H3' & Hrun).
  assert (others w wp) as Hw by (by etrans; [|etrans]).
  set (ops := claim_patch _ _ _ _ _) in Hrun.
  pose proof (kube_patch_spec (cr_name cr) ops (w_kube wp)) as Hspec.
  destruct (kube_patch_status (cr_name cr) ops (w_kube wp)) as [k r]. cbn [fst snd] in Hrun.
  destruct Hspec as [_ Hspec]. destruct r as [[]|code].
  - cbn [bind runs] in Hrun. destruct Hrun as (w4 & H4' & [= ->] & ->).
    split; [done|]. destruct (kube_get (cr_name cr) (w_kube wp)) as [e|] eqn:He; [|by destruct Hspec].
    destruct (json_patch (en_version e) ops (en_status e)) as [status|] eqn:Hp; [|by destruct Hspec].
    destruct Hspec as [(version & Hput & _) _].
    apply claim_patch_accepted in Hp as (Hv & raw & -> & Hph & Hc).
    exists wp, k, e, (MkEntry version (en_model_name e) (en_provider e) (Some raw)).
    split; [done|]. split; [done|]. split; [done|].
    split; [by rewrite Hput, decide_True|]. split; [by eapply downloading_owner|].
    eapply rtc_r; [exact H4'|]. cbn. apply OtherForget.
  - exfalso. destruct ((code =? 409)%Z || (code =? 422)%Z); [|by destruct Hrun].
    apply runs_get in Hrun as (w4 & _ & Hrun).
    destruct (kube_get _ _) as [e|]; [destruct (decode_entry _ e)|]; cbn in Hrun;
      destruct Hrun as [Hrun _]; by simplify_eq.
Qed.

(** The record that was decoded from an entry. *)
Lemma decode_entry_fields n e cr :
  decode_entry n e = Some cr -> cr_name cr = n ∧ cr_version cr = en_version e ∧
  (cr_status cr = None <-> en_status e = None).
Proof.
  unfold decode_entry. destruct (en_status e) as [raw|]; [|by intros [= <-]].
  destruct (decode_status raw); cbn; [|done]. by intros [= <-].
Qed.

Lemma decode_entry_fingerprint n e cr :
  decode_entry n e = Some cr ->
  let status := default default_status (cr_status cr) in
  status_from_phase (ms_phase status) = DOWNLOADING ->
  entry_fingerprint e = Some (MkFingerprint (ms_claim_id status) (ms_lease_expires_at status)).
Proof.
  unfold entry_fingerprint, decode_entry. intros Hd. destruct (en_status e) as [raw|].
  - destruct (decode_status raw) as [st|]; cbn in *; [|done]. injection Hd as <-. cbn.
    intros Hp. by rewrite bool_decide_true.
  - injection Hd as <-. cbn. done.
Qed.

(** What is known when an observation says that a lease has expired. *)
Lemma observed_expired obs n fp now dur obs' :
  lease_observation_expired obs n fp now dur = (obs', true) ->
  (∃ t, obs !! n = Some (MkObservation fp t) ∧ (dur <= Z.max 0 (now - t))%Z) ∨ dur = 0%Z.
Proof.
  unfold lease_observation_expired. destruct (obs !! n) as [[fp' t]|]; cbn.
  - case_bool_decide as Hfp; intros [= <- Hd].
    + left. exists t. subst. split; [done|lia].
    + right. lia.
  - intros [= <- Hd]. right. lia.
Qed.

(** The lock is an observation that the invariant allows. *)
Lemma lock_step w n fp now dur r :
  (is_Some (lf_claim_id fp) -> w_renewed w n fp = Some r ∧ (r <= now)%Z) ->
  others w (with_observations (lease_observation_expired (w_observations w) n fp now dur).1 w).
Proof.
  intros Hfp.
  assert (other_step w (with_observations (<[n := MkObservation fp now]> (w_observations w)) w)) as Hobs.
  { apply OtherObserve. intros Hc. exists r. by apply Hfp. }
  unfold lease_observation_expired. destruct (w_observations w !! n) as [[fp' t]|]; cbn.
  - case_bool_decide; cbn; [by destruct w|by apply rtc_once].
  - by apply rtc_once.
Qed.

(** The owner, if there is one, had been silent for the lease duration. *)
Definition silent (n : string) (e : entry) (dur : Z) w : Prop :=
  forall fp, entry_fingerprint e = Some fp -> is_Some (lf_claim_id fp) ->
    ∃ t, w_renewed w n fp = Some t ∧ (t + dur <= w_monotonic w)%Z.

Lemma lease_expired_runs w w' n cr e dur :
  observed_after_renewal w -> kube_get n (w_kube w) = Some e -> decode_entry n e = Some cr ->
  status_from_phase (ms_phase (default default_status (cr_status cr))) = DOWNLOADING ->
  (0 <= dur)%Z ->
  runs others (lease_has_expired n (default default_status (cr_status cr)) dur) w true w' ->
  others w w' ∧ silent n e dur w'.
Proof.
  intros Hinv Hget Hdec Hst Hdur. unfold lease_has_expired, instant_now, Read. cbn [bind runs].
  intros (w1 & H1' & w2 & H2' & Hres & ->). cbn [fst snd] in *.
  pose proof (decode_entry_fingerprint n e cr Hdec Hst) as Hfp.
  set (fp := MkFingerprint _ _) in *.
  destruct (lease_observation_expired (w_observations w2) n fp (w_monotonic w1) dur) as [obs b] eqn:Hobs.
  cbn in Hres. subst b.
  destruct (others_history _ _ H1') as [Hm1 Hh1]. destruct (others_history _ _ H2') as [Hm2 Hh2].
  assert (is_Some (lf_claim_id fp) -> ∃ r, w_renewed w n fp = Some r ∧ (r <= w_monotonic w)%Z) as Hren
    by (intros Hc; by eapply (proj1 Hinv)).
  assert (others w2 (with_observations obs w2)) as Hlock.
  { destruct (decide (is_Some (lf_claim_id fp))) as [Hc|Hc].
    - destruct (Hren Hc) as (r & Hr & Hle).
      pose proof (lock_step w2 n fp (w_monotonic w1) dur r) as Hl. rewrite Hobs in Hl. apply Hl.
      intros _. split; [by eauto|lia].
    - pose proof (lock_step w2 n fp (w_monotonic w1) dur 0) as Hl. rewrite Hobs in Hl. by apply Hl. }
  split; [by etrans; [|etrans]|].
  intros fp' Hfp' Hc. rewrite Hfp in Hfp'. injection Hfp' as <-.
  destruct (Hren Hc) as (r & Hr & Hle). exists r. cbn. split; [by eauto|].
  destruct (observed_expired _ _ _ _ _ _ Hobs) as [(t & Ht & Hd)|Hd]; [|lia].
  assert (observed_after_renewal w2) as [_ Ho] by (eapply others_inv; [|exact Hinv]; by etrans).
  destruct (Ho n _ Ht Hc) as (r' & Hr' & Hle'). cbn in Hr', Hle'.
  assert (r' = r) as -> by (specialize (Hh2 n fp r (Hh1 n fp r Hr)); congruence). lia.
Qed.

Lemma silent_later n e dur w w' : others w w' -> silent n e dur w -> silent n e dur w'.
Proof.
  intros Ho Hs fp Hfp Hc. destruct (Hs fp Hfp Hc) as (t & Ht & Hle).
  destruct (others_history _ _ Ho) as [Hm Hh]. exists t. split; [by apply Hh|lia].
Qed.

(** What an acquired download was before. *)
Definition acquired (n c : string) (dur : Z) (o : ClaimOutcome) w w' : Prop :=
  ∃ wp k e e', others w wp ∧ kube_get n (w_kube wp) = Some e ∧
    (if bool_decide (o = Claimed) then en_status e = None else silent n e dur wp) ∧
    kube_get n k = Some e' ∧ entry_owner e' = Some c ∧ others (with_kube k wp) w'.

Lemma acquired_after n c dur o w w1 w' : others w w1 -> acquired n c dur o w1 w' -> acquired n c dur o w w'.
Proof.
  intros Hw (wp & k & e & e' & Ho & Hrest). exists wp, k, e, e'. split; [by etrans|done].
Qed.

Lemma try_claim_existing_runs n e cr c dur b w o w' :
  observed_after_renewal w -> (0 <= dur)%Z ->
  kube_get n (w_kube w) = Some e -> decode_entry n e = Some cr ->
  runs others (try_claim_existing cr c dur b) w (Ok o) w' -> owns_download o = true ->
  acquired n c dur o w w'.
Proof.
  intros Hinv Hdur Hget Hdec Hrun Ho.
  destruct (decode_entry_fields _ _ _ Hdec) as (Hname & Hver & Hnone).
  assert (forall w1 fresh, others w w1 -> (fresh = true -> en_status e = None) ->
    (fresh = false -> silent n e dur w1) ->
    runs others (write_claim cr (bool_decide (cr_status cr = None)) fresh c dur) w1 (Ok o) w' ->
    acquired n c dur o w w') as Hwrite.
  { intros w1 fresh Hw1 Hf Hs Hr.
    destruct (write_claim_runs _ _ _ _ _ _ _ _ Hr Ho) as (-> & wp & k & ec & e' & Hwp & Hec & Hv & Hk & Hown & Hend).
    rewrite Hname in *.
    assert (seen n e wp) as Hseen by (eapply others_seen; [|by apply seen_now]; by etrans).
    assert (ec = e) as -> by (apply Hseen; [done|congruence]).
    exists wp, k, e, e'. split; [by etrans|]. split; [done|]. split; [|done].
    destruct fresh; cbn; [by apply Hf|]. by eapply silent_later, Hs. }
  unfold try_claim_existing in Hrun.
  destruct (bool_decide (status_from_phase _ = DOWNLOADING)) eqn:Hcur; cbn [negb] in Hrun;
    [apply bool_decide_eq_true in Hcur|].
  2:{ cbn in Hrun. destruct Hrun as (w1 & _ & [= ->] & _). done. }
  destruct (bool_decide (cr_status cr = None) && b) eqn:Hfresh.
  - eapply (Hwrite w true); [done| |done|exact Hrun]. intros _. apply andb_true_iff in Hfresh as [Hf _].
    apply bool_decide_eq_true in Hf. by apply Hnone.
  - apply runs_bind in Hrun as (expired & w1 & Hexp & Hrun).
    destruct expired; [|cbn in Hrun; destruct Hrun as [[= ->] _]; done].
    rewrite Hname in Hexp.
    destruct (lease_expired_runs w w1 n cr e dur) as [Hw1 Hsil]; [done..|].
    by eapply (Hwrite w1 false).
Qed.

(** A migration never acquires; when it finds nothing to do it has changed nothing. *)
Lemma adopt_runs m p n w o w' :
  runs others (adopt_legacy_cr m p n) w (Ok o) w' ->
  match o with Some outcome => owns_download outcome = false | None => others w w' end.
Proof.
  unfold adopt_legacy_cr. destruct (legacy_cr_name_for m) as [legacy|e]; [|by intros [? _]].
  intros Hrun. apply runs_get in Hrun as (w1 & H1' & Hrun).
  destruct (kube_get legacy (w_kube w1)) as [e|]; [destruct (decode_entry legacy e) as [cr|]|];
    [| |by destruct Hrun as [[= ->] ->]].
  2:{ by destruct Hrun. }
  destruct (provider_from_str (cr_provider cr)) as [p'|]; [|by destruct Hrun].
  destruct (negb (bool_decide (p' = p))); [by destruct Hrun as [[= ->] ->]|].
  assert (forall w1, runs others (let! _ := request (kube_delete legacy) in adopted n) w1 (Ok o) w' ->
    match o with Some outcome => owns_download outcome = false | None => others w w' end) as Hfinish.
  { intros w2 Hr. apply runs_request in Hr as (w3 & _ & Hr). unfold adopted in Hr.
    apply runs_get in Hr as (w4 & _ & Hr).
    destruct (kube_get n _) as [e'|]; [destruct (decode_entry n e')|]; cbn in Hr;
      by destruct Hr as [[= ->] _]. }
  apply runs_request in Hrun as (w2 & _ & Hrun).
  destruct (kube_create _ _ _ (w_kube w2)).2 as [e'|code].
  - apply runs_bind in Hrun as (r & w3 & _ & Hrun). destruct r; [by eapply Hfinish|by destruct Hrun].
  - destruct (code =? 409)%Z; [by eapply Hfinish|by destruct Hrun].
Qed.

Lemma claim_absent_runs n m p c dur w o w' :
  observed_after_renewal w -> (0 <= dur)%Z ->
  runs others (claim_absent n m p c dur) w (Ok o) w' -> owns_download o = true ->
  acquired n c dur o w w'.
Proof.
  intros Hinv Hdur Hrun Ho. unfold claim_absent in Hrun.
  apply runs_bind in Hrun as (adopted & w1 & Hadopt & Hrun).
  destruct adopted as [adopted|]; [|by destruct Hrun].
  apply adopt_runs in Hadopt. destruct adopted as [outcome|].
  { destruct Hrun as [[= <-] _]. congruence. }
  apply runs_request in Hrun as (w2 & H2' & Hrun).
  destruct (kube_create n m (provider_str p) (w_kube w2)).2 as [e|code] eqn:Hcreate.
  - destruct (create_write _ _ _ _ _ Hcreate) as (Hstep & Hget & Hst).
    assert (others w (with_kube (kube_create n m (provider_str p) (w_kube w2)).1 w2)) as Hw
      by (etrans; [exact Hadopt|]; etrans; [exact H2'|by apply rtc_once]).
    unfold decode_entry in Hrun. rewrite Hst in Hrun.
    eapply acquired_after; [exact Hw|].
    eapply (try_claim_existing_runs n e); [by eapply others_inv|done|done| |exact Hrun|done].
    unfold decode_entry. by rewrite Hst.
  - pose proof (create_conflict _ _ _ _ _ Hcreate) as Hstep.
    assert (others w (with_kube (kube_create n m (provider_str p) (w_kube w2)).1 w2)) as Hw
      by (etrans; [exact Hadopt|]; etrans; [exact H2'|by apply rtc_once]).
    destruct (code =? 409)%Z; [|by destruct Hrun].
    apply runs_get in Hrun as (w3 & H3' & Hrun).
    destruct (kube_get n (w_kube w3)) as [e|] eqn:Hget; [|by destruct Hrun].
    destruct (decode_entry n e) as [cr|] eqn:Hdec; [|by destruct Hrun].
    eapply acquired_after; [etrans; [exact Hw|exact H3']|].
    eapply try_claim_existing_runs; [eapply others_inv; [|exact Hinv]; by etrans|done|done|done|exact Hrun|done].
Qed.

(** C6: A claim of a download on Kubernetes that succeeds, however other replicas and
    other tasks of this one act between its requests, was made on an entry that
    nobody had claimed, or it took the download over after the owner had not renewed
    its lease for the whole lease duration, measured by the claiming replica's own
    clock; from then on the entry names the claimer as its owner. *)
Theorem takeover_after_silence m p c dur n w o w' :
  observed_after_renewal w -> (0 <= dur)%Z -> cr_name_for p m = Ok n ->
  runs others (try_claim_for_download m p c dur) w (Ok o) w' -> owns_download o = true ->
  ∃ wp k e e', others w wp ∧ kube_get n (w_kube wp) = Some e ∧
    match o with
    | Claimed => en_status e = None
    | _ => forall fp, entry_fingerprint e = Some fp -> is_Some (lf_claim_id fp) ->
             ∃ t, w_renewed wp n fp = Some t ∧ (t + dur <= w_monotonic wp)%Z
    end ∧
    kube_get n k = Some e' ∧ entry_owner e' = Some c ∧ others (with_kube k wp) w'.
Proof.
  intros Hinv Hdur Hname Hrun Ho. unfold try_claim_for_download, scoped in Hrun. rewrite Hname in Hrun.
  apply runs_get in Hrun as (w1 & H1' & Hrun).
  assert (observed_after_renewal w1) as Hinv1 by (by eapply others_inv).
  assert (acquired n c dur o w w') as (wp & k & e & e' & Hwp & Hget & Hcase & Hrest).
  { eapply acquired_after; [exact H1'|].
    destruct (kube_get n (w_kube w1)) as [e|] eqn:Hget.
    - destruct (decode_entry n e) as [cr|] eqn:Hdec; [|by destruct Hrun].
      by eapply try_claim_existing_runs.
    - by eapply claim_absent_runs. }
  exists wp, k, e, e'. split; [done|]. split; [done|]. split; [|done].
  destruct o as [| |st]; [done|exact Hcase|done].
Qed.

(** ** Writes of an owner *)

(** The tests that a refresh and a completion make on the stored status. *)
Definition owned_by (c : string) (e : entry) : Prop :=
  ∃ raw, en_status e = Some raw ∧ raw !! "phase" = Some (Some DOWNLOADING_PHASE) ∧
    raw !! "claimId" = Some (Some c).

Lemma owned_by_owner c e : owned_by c e -> entry_owner e = Some c.
Proof. intros (raw & He & Hp & Hc). by eapply downloading_owner. Qed.

Lemma owner_tests v c ops status status' :
  json_patch v (TestField "phase" (Some DOWNLOADING_PHASE) :: TestField "claimId" (Some c) :: ops) status =
    Some status' ->
  ∃ raw, status = Some raw ∧ raw !! "phase" = Some (Some DOWNLOADING_PHASE) ∧
    raw !! "claimId" = Some (Some c) ∧ json_patch v ops (Some raw) = Some status'.
Proof.
  cbn. destruct status as [raw|]; cbn; [|done]. case_bool_decide as Hp; cbn; [|done].
  case_bool_decide as Hc; cbn; [|done]. intros Hj. by exists raw.
Qed.

(** The request of an owner: accepted, it applies to an entry that the claim owns and
    leaves the patched status; refused, it changes nothing. *)
Definition owner_write (n c : string) (b : bool) (after : raw_status -> raw_status) w w' : Prop :=
  ∃ wp k, others w wp ∧ others (with_kube k wp) w' ∧
    if b
    then ∃ e raw version, kube_get n (w_kube wp) = Some e ∧ en_status e = Some raw ∧ owned_by c e ∧
           kube_put n (Some (MkEntry version (en_model_name e) (en_provider e) (Some (after raw))))
             (w_kube wp) k
    else kube_same (w_kube wp) k.

Lemma owner_patch n c ops (after : raw_status -> raw_status) w :
  (forall v raw, raw !! "phase" = Some (Some DOWNLOADING_PHASE) ->
     json_patch v ops (Some raw) = Some (Some (after raw))) ->
  let '(k, r) := kube_patch_status n
    (TestField "phase" (Some DOWNLOADING_PHASE) :: TestField "claimId" (Some c) :: ops) (w_kube w) in
  match r with
  | ApiOk _ => ∃ e raw version, kube_get n (w_kube w) = Some e ∧ en_status e = Some raw ∧ owned_by c e ∧
      kube_put n (Some (MkEntry version (en_model_name e) (en_provider e) (Some (after raw)))) (w_kube w) k
  | ApiError code => lost_ownership code = true ∧ kube_same (w_kube w) k
  end.
Proof.
  intros Hops. set (all := _ :: _).
  pose proof (kube_patch_spec n all (w_kube w)) as Hspec.
  destruct (kube_patch_status n all (w_kube w)) as [k r]. destruct Hspec as [_ Hspec].
  destruct (kube_get n (w_kube w)) as [e|] eqn:He; [|by destruct Hspec as [Hs ->]].
  destruct (json_patch (en_version e) all (en_status e)) as [status|] eqn:Hj; [|by destruct Hspec as [Hs ->]].
  destruct Hspec as [(version & Hput & _) ->].
  apply owner_tests in Hj as (raw & Hst & Hp & Hc & Hj). rewrite Hops in Hj by done. injection Hj as <-.
  exists e, raw, version. split; [done|]. split; [done|]. split; [by exists raw|done].
Qed.

(** C7: On Kubernetes only the owner of a download renews its lease or publishes its
    result. A refresh or a completion that answers true found the entry downloading
    under the caller's own claim, and wrote exactly the new deadline, or the terminal
    status without a claim; one that answers false changed no entry. *)
Theorem only_owner_writes m p c dur st msg n w b w' :
  cr_name_for p m = Ok n ->
  (runs others (refresh_download_claim m p c dur) w (Ok b) w' ->
   ∃ now deadline, owner_write n c b (fun raw =>
     <["lastUsedAt" := Some (to_rfc3339 now)]> (<["leaseExpiresAt" := Some (to_rfc3339 deadline)]> raw)) w w') ∧
  (runs others (finish_download_claim m p c st msg) w (Ok b) w' ->
   ∃ now, owner_write n c b (fun raw =>
     <["leaseExpiresAt" := None]> (<["claimId" := None]> (<["lastUsedAt" := Some (to_rfc3339 now)]>
       (<["message" := msg]> (<["phase" := Some (phase_from_status st)]> raw))))) w w').
Proof.
  intros Hn. split; intros Hrun.
  - unfold refresh_download_claim, scoped, utc_now, Read in Hrun. rewrite Hn in Hrun. cbn [bind runs fst snd] in Hrun.
    destruct Hrun as (w1 & H1' & w2 & H2' & Hrun). apply runs_request in Hrun as (wp & H3' & Hrun).
    exists (w_wall w1), (Memory.lease_deadline (w_wall w2) dur).
    pose proof (owner_patch n c
      [AddField "leaseExpiresAt" (Some (to_rfc3339 (Memory.lease_deadline (w_wall w2) dur)));
       AddField "lastUsedAt" (Some (to_rfc3339 (w_wall w1)))]
      (fun raw => <["lastUsedAt" := Some (to_rfc3339 (w_wall w1))]>
         (<["leaseExpiresAt" := Some (to_rfc3339 (Memory.lease_deadline (w_wall w2) dur))]> raw))
      wp ltac:(done)) as Hp.
    unfold refresh_patch in Hrun. destruct (kube_patch_status n _ (w_kube wp)) as [k r].
    exists wp, k. split; [by etrans; [|etrans]|]. cbn [fst snd runs] in Hrun. destruct Hrun as [Hres ->].
    split; [done|]. destruct r as [[]|code]; [by injection Hres as ->|].
    destruct Hp as [Hlost Hsame]. rewrite Hlost in Hres. by injection Hres as ->.
  - unfold finish_download_claim, scoped, utc_now, Read in Hrun. rewrite Hn in Hrun. cbn [bind runs fst snd] in Hrun.
    destruct Hrun as (w1 & H1' & Hrun). apply runs_request in Hrun as (wp & H3' & Hrun).
    exists (w_wall w1).
    pose proof (owner_patch n c
      [ReplaceField "phase" (Some (phase_from_status st)); AddField "message" msg;
       AddField "lastUsedAt" (Some (to_rfc3339 (w_wall w1))); AddField "claimId" None;
       AddField "leaseExpiresAt" None]
      (fun raw => <["leaseExpiresAt" := None]> (<["claimId" := None]>
        (<["lastUsedAt" := Some (to_rfc3339 (w_wall w1))]> (<["message" := msg]>
          (<["phase" := Some (phase_from_status st)]> raw)))))
      wp) as Hp.
    unfold finish_patch in Hrun. destruct (kube_patch_status n _ (w_kube wp)) as [k r].
    exists wp, k. split; [by etrans|]. cbn [fst snd] in Hrun.
    destruct r as [[]|code].
    + cbn in Hrun. destruct Hrun as (w4 & H4' & [= ->] & ->).
      split; [eapply rtc_r; [exact H4'|apply OtherForget]|]. apply Hp.
      intros v raw Hph. cbn. by rewrite Hph, bool_decide_true.
    + destruct Hrun as [Hres ->]. split; [done|]. destruct Hp as [Hlost Hsame].
      { intros v raw Hph. cbn. by rewrite Hph, bool_decide_true. }
      rewrite Hlost in Hres. by injection Hres as ->.
Qed.
End leases.
