(* ===== verification/RegistryKubeNames.v ===== *)
(** * Names of the Kubernetes registry entries

    [metadata.name] of an entry is built from a model's name: how long it gets, when
    it is a DNS-1123 subdomain, and when two models can share it. *)

From Stdlib Require Import ZArith Lia Ascii String.
From stdpp Require Import base tactics option list strings.
From S2P Require Import Prelude RustStr Models EntryKey KubeServer RegistryKube.

Import Kube.

(** ** Subdomains, byte by byte *)

Definition dns_byte (c : ascii) : bool :=
  is_ascii_lowercase c || is_ascii_digit c || Ascii.eqb c "-".

(** Every dot of a text stands between alphanumeric characters, or at its end. *)
Fixpoint dots_inside (prev : ascii) (s : string) : bool :=
  match s with
  | EmptyString => true
  | String c s' =>
      implb (Ascii.eqb c ".") (is_ascii_alphanumeric prev) &&
      implb (Ascii.eqb prev ".") (is_ascii_alphanumeric c) && dots_inside c s'
  end.

Definition last_or (prev : ascii) (s : string) : ascii := default prev (str_last s).

Abbreviation name_byte := (fun c => dns_byte c || Ascii.eqb c ".").

Lemma str_last_cons c s : str_last (String c s) = Some (last_or c s).
Proof.
  revert c. induction s as [|d s IH]; intros c; [done|].
  change (str_last (String c (String d s))) with (str_last (String d s)).
  unfold last_or. by rewrite IH.
Qed.

Lemma last_or_cons prev c s : last_or prev (String c s) = last_or c s.
Proof. unfold last_or at 1. by rewrite str_last_cons. Qed.

Lemma last_or_app prev a b : last_or prev (a +:+ b) = last_or (last_or prev a) b.
Proof.
  revert prev. induction a as [|c a IH]; intros prev; [done|].
  by rewrite str_app_cons, !last_or_cons.
Qed.

Lemma dots_inside_app prev a b :
  dots_inside prev (a +:+ b) = dots_inside prev a && dots_inside (last_or prev a) b.
Proof.
  revert prev. induction a as [|c a IH]; intros prev; [done|].
  rewrite str_app_cons, last_or_cons. cbn. by rewrite IH, !andb_assoc.
Qed.

Lemma alnum_not_dot c : is_ascii_alphanumeric c = true -> Ascii.eqb c "." = false.
Proof. intros Hc. by destruct (Ascii.eqb_spec c ".") as [->|]. Qed.

(** The labels of a text that follows the byte [prev]. *)
Lemma labels_of s :
  str_all name_byte s = true ->
  (forall prev, prev ≠ "."%char -> dots_inside prev s = true ->
     is_ascii_alphanumeric (last_or prev s) = true ->
     ∃ x xs, split "." s = x :: xs ∧ str_all dns_byte x = true ∧
       is_ascii_alphanumeric (last_or prev x) = true ∧ forallb matches_dns1123_label xs = true) ∧
  (dots_inside "." s = true -> is_ascii_alphanumeric (last_or "." s) = true ->
     forallb matches_dns1123_label (split "." s) = true).
Proof.
  induction s as [|c s IH]; cbn [str_all].
  - intros _. split; [|done]. intros prev Hp _ Hl. by exists "", [].
  - intros [Hc Hs]%andb_true_iff. destruct (IH Hs) as [IHm IHs]. split.
    + intros prev Hp Hin Hl. rewrite last_or_cons in Hl. cbn [dots_inside] in Hin.
      apply andb_true_iff in Hin as [[Hdot _]%andb_true_iff Hin]. cbn [split].
      destruct (Ascii.eqb_spec "." c) as [<-|Hne].
      * exists "", (split "." s). split; [done|]. split; [done|]. split; [exact Hdot|]. by apply IHs.
      * destruct (IHm c) as (x & xs & -> & Hx & Hlx & Hxs); [congruence|done|done|].
        exists (String c x), xs. split; [done|]. rewrite last_or_cons. split; [|done]. cbn [str_all].
        rewrite Hx, andb_true_r. destruct (Ascii.eqb_spec c "."); [congruence|].
        by rewrite orb_false_r in Hc.
    + intros Hin Hl. rewrite last_or_cons in Hl. cbn [dots_inside] in Hin.
      apply andb_true_iff in Hin as [[_ Hal]%andb_true_iff Hin]. cbn in Hal. cbn [split].
      pose proof (alnum_not_dot c Hal) as Hnd.
      destruct (Ascii.eqb_spec "." c) as [<-|Hne]; [done|].
      destruct (IHm c) as (x & xs & -> & Hx & Hlx & Hxs); [congruence|done|done|].
      cbn [forallb]. rewrite Hxs, andb_true_r. unfold matches_dns1123_label. cbn [str_all str_first].
      fold (str_all dns_byte x). rewrite Hal, andb_true_r. apply andb_true_iff. split.
      * apply andb_true_iff. split; [|exact Hx]. by rewrite Hnd, orb_false_r in Hc.
      * by rewrite str_last_cons.
Qed.

(** ** The readable part *)

Lemma alnum_lowercase c :
  is_ascii_alphanumeric c = true ->
  is_ascii_alphanumeric (to_ascii_lowercase c) && dns_byte (to_ascii_lowercase c) = true.
Proof. destruct c as [[] [] [] [] [] [] [] []]; (done || (intros H; vm_compute in H; discriminate)). Qed.

Lemma name_byte_alnum c : name_byte c = true -> is_dash_dot c = false -> is_ascii_alphanumeric c = true.
Proof.
  unfold dns_byte, is_dash_dot, is_ascii_alphanumeric. intros Hc [Hd Hp]%orb_false_iff.
  rewrite Hd, Hp, !orb_false_r in Hc. apply orb_true_iff in Hc as [Hc|Hc]; rewrite Hc; [|done].
  by rewrite ?orb_true_r.
Qed.

Lemma sanitize_char_bytes c : str_all name_byte (sanitize_char c) = true.
Proof.
  unfold sanitize_char. destruct (Ascii.eqb c "/"); [done|].
  destruct (is_ascii_alphanumeric c) eqn:Ha.
  { pose proof (alnum_lowercase c Ha) as [_ Hl]%andb_true_iff. cbn. by rewrite Hl. }
  destruct (Ascii.eqb_spec c "-") as [->|]; [done|]. destruct (Ascii.eqb_spec c ".") as [->|]; [done|].
  cbn. by destruct (is_continuation c).
Qed.

Lemma sanitize_chars_bytes s : str_all name_byte (sanitize_chars s) = true.
Proof.
  induction s as [|c s IH]; [done|]. cbn [sanitize_chars].
  by rewrite str_all_app, sanitize_char_bytes, IH.
Qed.

Lemma sanitize_chars_app a b : sanitize_chars (a +:+ b) = sanitize_chars a +:+ sanitize_chars b.
Proof.
  induction a as [|c a IH]; [done|]. rewrite str_app_cons. cbn [sanitize_chars].
  by rewrite IH, str_app_assoc.
Qed.

Lemma sanitize_chars_length s : String.length (sanitize_chars s) <= 2 * String.length s.
Proof.
  induction s as [|c s IH]; [cbn; lia|]. cbn [sanitize_chars]. rewrite str_length_app.
  assert (String.length (sanitize_char c) <= 2); [|cbn [String.length]; lia].
  unfold sanitize_char. repeat case_match; cbn; lia.
Qed.

Lemma sanitize_no_dot s : contains_char "." s = false -> contains_char "." (sanitize_chars s) = false.
Proof.
  induction s as [|c s IH]; [done|]. rewrite contains_char_cons. intros [Hc Hs]%orb_false_iff.
  cbn [sanitize_chars]. rewrite contains_char_app, (IH Hs), orb_false_r. unfold sanitize_char.
  destruct (Ascii.eqb c "/"); [done|]. destruct (is_ascii_alphanumeric c) eqn:Ha.
  { pose proof (alnum_lowercase c Ha) as [Hl _]%andb_true_iff. rewrite contains_char_cons.
    apply orb_false_iff. split; [|done]. apply alnum_not_dot in Hl. by rewrite Ascii.eqb_sym. }
  destruct (Ascii.eqb_spec c "-") as [->|]; [done|]. destruct (Ascii.eqb_spec c ".") as [->|]; [done|].
  cbn. by destruct (is_continuation c).
Qed.

(** Sanitising keeps the neighbours of every dot alphanumeric. *)
Lemma sanitize_inside s : forall prev out,
  (is_ascii_alphanumeric prev = true -> is_ascii_alphanumeric out = true) ->
  (out = "."%char -> prev = "."%char) ->
  dots_inside prev s = true -> dots_inside out (sanitize_chars s) = true.
Proof.
  induction s as [|c s IH]; intros prev out Hal Hdot; [done|]. cbn [dots_inside sanitize_chars].
  intros [[H1 H2]%andb_true_iff H3]%andb_true_iff.
  assert (forall d, (Ascii.eqb d "." = true -> c = "."%char) ->
    (is_ascii_alphanumeric c = true -> is_ascii_alphanumeric d = true) ->
    dots_inside out (String d (sanitize_chars s)) = true) as Hone.
  { intros d Hd Hcd. cbn [dots_inside]. apply andb_true_iff. split; [apply andb_true_iff; split|].
    - destruct (Ascii.eqb d ".") eqn:E; [|done]. specialize (Hd eq_refl). subst c. by apply Hal.
    - destruct (Ascii.eqb_spec out ".") as [->|]; [|done]. rewrite (Hdot eq_refl) in H2. by apply Hcd.
    - apply (IH c d); [done|intros ->; by apply Hd|done]. }
  unfold sanitize_char. destruct (Ascii.eqb_spec c "/") as [->|].
  { cbn [dots_inside append]. rewrite str_app_cons, str_app_cons, str_app_nil_l.
    assert (dots_inside out (String "-" (sanitize_chars s)) = true) as Hd by (by apply Hone).
    cbn [dots_inside] in Hd |- *. apply andb_true_iff in Hd as [-> ->]. done. }
  destruct (is_ascii_alphanumeric c) eqn:Ha.
  { rewrite str_app_cons, str_app_nil_l. pose proof (alnum_lowercase c Ha) as [Hl _]%andb_true_iff.
    apply Hone; [|done]. rewrite alnum_not_dot; done. }
  destruct (Ascii.eqb_spec c "-") as [->|]; [by apply Hone|].
  destruct (Ascii.eqb_spec c ".") as [->|]; [by apply Hone|]. cbn [orb].
  destruct (is_continuation c); [|by apply Hone]. rewrite str_app_nil_l.
  apply (IH c out); [congruence| |done]. intros Ho. rewrite (Hdot Ho) in H2. cbn in H2. congruence.
Qed.

Lemma no_dot_inside prev s :
  prev ≠ "."%char -> contains_char "." s = false -> dots_inside prev s = true.
Proof.
  revert prev. induction s as [|c s IH]; intros prev Hp; [done|]. rewrite contains_char_cons.
  intros [Hc Hs]%orb_false_iff. cbn. destruct (Ascii.eqb_spec prev "."); [done|].
  destruct (Ascii.eqb_spec c ".") as [->|Hne]; [done|]. cbn. by apply IH.
Qed.

(** ** Trimming and cutting *)

Lemma trim_right_spec s :
  (∃ rest, s = trim_right s +:+ rest) ∧
  (trim_right s = "" ∨ ∃ c, str_last (trim_right s) = Some c ∧ is_dash_dot c = false).
Proof.
  induction s as [|c s [[rest IH] Hl]]; [split; [by exists ""|by left]|]. cbn [trim_right].
  destruct (trim_right s) as [|d t] eqn:Ht.
  - destruct (is_dash_dot c) eqn:Hc.
    + split; [by exists (String c s)|by left].
    + split; [by exists s|]. right. by exists c.
  - split; [exists rest; by rewrite str_app_cons, <- IH|]. right. destruct Hl as [|(e & He & Hd)]; [done|].
    exists e. split; [|done]. by rewrite str_last_cons, last_or_cons, <- str_last_cons.
Qed.

Lemma substring_prefix n s : ∃ rest, s = substring 0 n s +:+ rest.
Proof.
  revert n. induction s as [|c s IH]; intros n; [by exists ""; destruct n|].
  destruct n as [|n]; [by exists (String c s)|]. cbn. destruct (IH n) as [rest Hr].
  exists rest. by rewrite str_app_cons, <- Hr.
Qed.

Lemma substring_length n s : n <= String.length s -> String.length (substring 0 n s) = n.
Proof.
  revert n. induction s as [|c s IH]; intros [|n] Hn; cbn in *; [done|lia|done|]. rewrite IH; lia.
Qed.

Lemma substring_whole s : substring 0 (String.length s) s = s.
Proof. induction s as [|c s IH]; [done|]. cbn. by rewrite IH. Qed.

Lemma str_last_or prev s c : str_last s = Some c -> last_or prev s = c.
Proof. unfold last_or. by intros ->. Qed.

Lemma last_or_no_dot prev s :
  prev ≠ "."%char -> contains_char "." s = false -> last_or prev s ≠ "."%char.
Proof.
  revert prev. induction s as [|c s IH]; intros prev Hp; [done|]. rewrite last_or_cons, contains_char_cons.
  intros [Hc Hs]%orb_false_iff. apply IH; [|done]. by destruct (Ascii.eqb_spec "." c); [|congruence].
Qed.

(** A digest in hex is made of bytes of a label that are not dashes. *)
Lemma hex_alnum h :
  str_all (fun b => is_ascii_digit b || byte_in 97 102 b) h = true ->
  str_all (fun c => dns_byte c && is_ascii_alphanumeric c) h = true.
Proof.
  apply str_all_impl. intros c. destruct c as [[] [] [] [] [] [] [] []];
    (done || (intros H; vm_compute in H; discriminate)).
Qed.

Lemma str_all_last_or (P : ascii -> bool) prev s : P prev = true -> str_all P s = true -> P (last_or prev s) = true.
Proof.
  revert prev. induction s as [|c s IH]; intros prev Hp; [done|]. rewrite last_or_cons. cbn.
  intros [Hc Hs]%andb_true_iff. by apply IH.
Qed.

(** A name with a readable part whose last byte is not a dot. *)
Lemma subdomain_name pre h :
  str_all name_byte pre = true -> dots_inside "-" pre = true -> last_or "-" pre ≠ "."%char ->
  str_all (fun c => dns_byte c && is_ascii_alphanumeric c) h = true -> h ≠ "" ->
  forallb matches_dns1123_label (split "." (CR_NAME_PREFIX +:+ pre +:+ "-" +:+ h)) = true.
Proof.
  intros Hb Hin Hl Hh Hne.
  assert (contains_char "." h = false) as Hnd.
  { eapply (str_all_not_contains (fun c => dns_byte c && is_ascii_alphanumeric c)); [|exact Hh]. done. }
  apply labels_of.
  - rewrite !str_all_app, Hb. cbn [str_all andb]. eapply str_all_impl; [|exact Hh].
    intros c [-> _]%andb_true_iff. done.
  - rewrite !dots_inside_app. change (last_or "." CR_NAME_PREFIX) with "-"%char. rewrite Hin.
    change (dots_inside "." CR_NAME_PREFIX) with true. cbn [andb]. apply andb_true_iff. split.
    + cbn. by destruct (Ascii.eqb_spec (last_or "-" pre) ".").
    + rewrite last_or_cons. by apply no_dot_inside.
  - rewrite !last_or_app. destruct h as [|c h]; [done|]. rewrite last_or_cons. cbn [str_all] in Hh.
    apply andb_true_iff in Hh as [[_ Hc]%andb_true_iff Hh].
    apply (str_all_last_or is_ascii_alphanumeric); [done|]. eapply str_all_impl; [|exact Hh].
    by intros d [_ Hd]%andb_true_iff.
Qed.

(** ** The names of entries *)

(** The readable text starts with the provider, so the front is not trimmed. *)
Lemma readable_start p m :
  ∃ c r, trim_dashes (sanitize_chars (provider_str p +:+ "/" +:+ m)) = String c r ∧
    ∃ rest, sanitize_chars (provider_str p +:+ "/" +:+ m) = String c r +:+ rest ∧
    ∃ d, str_last (String c r) = Some d ∧ is_dash_dot d = false.
Proof.
  assert (∃ c r, sanitize_chars (provider_str p +:+ "/" +:+ m) = String c r ∧ is_dash_dot c = false)
    as (c & r & -> & Hc) by (destruct p; by eexists _, _).
  unfold trim_dashes. cbn [trim_left]. rewrite Hc.
  destruct (trim_right_spec (String c r)) as [[rest Hr] Hl].
  destruct (trim_right (String c r)) as [|c' r'] eqn:Ht.
  - exfalso. cbn in Ht. rewrite Hc in Ht. by destruct (trim_right r).
  - exists c', r'. split; [done|]. exists rest. split; [done|]. by destruct Hl.
Qed.

Section digest.
Context `{HexDigest, !HexDigestLaws}.

(** The parts of a name: some of the trimmed readable text, and 12 digits of the digest. *)
Lemma cr_name_parts p m n :
  cr_name_for p m = Ok n ->
  let full := provider_str p +:+ "/" +:+ m in
  let t := trim_dashes (sanitize_chars full) in
  ∃ h, hex_sha256 full = Ok h ∧
    n = CR_NAME_PREFIX +:+ substring 0 (Nat.min (String.length t) 231) t +:+ "-" +:+ substring 0 12 h ∧
    String.length (substring 0 12 h) = 12 ∧
    str_all (fun c => dns_byte c && is_ascii_alphanumeric c) (substring 0 12 h) = true.
Proof.
  intros Hn full t. unfold cr_name_for, sanitize_registry_name in Hn. fold full in Hn. fold t in Hn.
  destruct (hex_sha256 full) as [h|] eqn:Hh; [|done]. cbn in Hn.
  destruct (hex_sha256_hex _ _ Hh) as [Hlen Hhex]. exists h. split; [done|].
  assert (str_is_empty t = false) as Ht.
  { unfold t, full. by destruct (readable_start p m) as (c & r & -> & _). }
  rewrite Ht in Hn. injection Hn as <-. split; [done|].
  split; [apply substring_length; lia|]. apply hex_alnum.
  destruct (substring_prefix 12 h) as [rest Hr]. rewrite Hr, str_all_app in Hhex.
  by apply andb_true_iff in Hhex as [Hhex _].
Qed.

(** The bytes of the readable text, and what remains of the rules for dots. *)
Lemma readable_bytes p m :
  str_all name_byte (trim_dashes (sanitize_chars (provider_str p +:+ "/" +:+ m))) = true.
Proof.
  destruct (readable_start p m) as (c & r & -> & rest & Hs & _).
  pose proof (sanitize_chars_bytes (provider_str p +:+ "/" +:+ m)) as Hb.
  rewrite Hs, str_all_app in Hb. by apply andb_true_iff in Hb as [? _].
Qed.

Lemma readable_inside p m :
  dots_inside "/" m = true ->
  dots_inside "-" (trim_dashes (sanitize_chars (provider_str p +:+ "/" +:+ m))) = true.
Proof.
  intros Hm. destruct (readable_start p m) as (c & r & -> & rest & Hs & _).
  assert (dots_inside "-" (sanitize_chars (provider_str p +:+ "/" +:+ m)) = true) as Hin.
  { apply (sanitize_inside _ "-"); [done|done|]. by destruct p. }
  rewrite Hs, dots_inside_app in Hin. by apply andb_true_iff in Hin as [? _].
Qed.

Lemma readable_length p m :
  String.length (trim_dashes (sanitize_chars (provider_str p +:+ "/" +:+ m))) <= 13 + 2 * String.length m.
Proof.
  destruct (readable_start p m) as (c & r & -> & rest & Hs & _).
  pose proof (f_equal String.length Hs) as Hlen. rewrite str_length_app in Hlen.
  assert (String.length (sanitize_chars (provider_str p +:+ "/" +:+ m)) <= 13 + 2 * String.length m); [|lia].
  rewrite !sanitize_chars_app, !str_length_app. pose proof (sanitize_chars_length m).
  assert (String.length (sanitize_chars (provider_str p)) <= 11) by (destruct p; vm_compute; lia).
  change (String.length (sanitize_chars "/")) with 2. lia.
Qed.

Lemma readable_no_dot p m :
  contains_char "." m = false ->
  contains_char "." (trim_dashes (sanitize_chars (provider_str p +:+ "/" +:+ m))) = false.
Proof.
  intros Hm. destruct (readable_start p m) as (c & r & -> & rest & Hs & _).
  assert (contains_char "." (sanitize_chars (provider_str p +:+ "/" +:+ m)) = false) as Hc.
  { apply sanitize_no_dot. rewrite !contains_char_app, Hm. by destruct p. }
  rewrite Hs, contains_char_app in Hc. by apply orb_false_iff in Hc as [? _].
Qed.

Lemma str_app_inj_length (a b c d : string) :
  String.length b = String.length d -> a +:+ b = c +:+ d -> b = d.
Proof.
  revert c. induction a as [|x a IH]; intros [|y c] Hl Heq.
  - done.
  - rewrite str_app_nil_l in Heq. subst b. rewrite str_app_cons in Hl. cbn in Hl.
    rewrite str_length_app in Hl. lia.
  - rewrite str_app_nil_l in Heq. subst d. rewrite str_app_cons in Hl. cbn in Hl.
    rewrite str_length_app in Hl. lia.
  - rewrite !str_app_cons in Heq. injection Heq as _ Heq. by apply (IH c).
Qed.

Lemma last_or_dot prev s :
  last_or prev s = "."%char -> prev ≠ "."%char -> ∃ r, s = r +:+ ".".
Proof.
  revert prev. induction s as [|c s IH]; intros prev Hl Hp; [done|]. rewrite last_or_cons in Hl.
  destruct (decide (c = "."%char)) as [->|Hc].
  - destruct s as [|d s]; [by exists ""|]. rewrite last_or_cons in Hl.
    destruct (decide (d = "."%char)) as [->|Hd].
    + destruct (IH "-"%char) as [r ->]; [by rewrite last_or_cons|done|]. by exists (String "." r).
    + destruct (IH "-"%char) as [r ->]; [by rewrite last_or_cons|done|]. by exists (String "." r).
  - destruct (IH c Hl Hc) as [r ->]. by exists (String c r).
Qed.

(** C8: The name of a model's entry is never longer than Kubernetes allows. It is a
    DNS-1123 subdomain whenever the model's name has no dot, and whenever every dot
    stands between alphanumeric characters and the name has at most 109 bytes. A longer
    name with such dots gives a DNS-1123 subdomain too, unless the cut at 231 bytes falls
    right after a dot, which then stands before the dash of the digest; and a name with
    a dot beside something else may be refused by the API server ([dotted_names_refused]
    of RegistryKubeRun). Two models that share a name have digests that agree in their
    first 12 digits. *)
Theorem cr_name_valid p m n :
  cr_name_for p m = Ok n ->
  String.length n <= K8S_NAME_MAX ∧
  (contains_char "." m = false ∨ (dots_inside "/" m = true ∧ String.length m <= 109) ->
   valid_name n = true) ∧
  (dots_inside "/" m = true -> valid_name n = true ∨
   (109 < String.length m ∧ ∃ front digest, n = front +:+ ".-" +:+ digest ∧ String.length digest = 12)) ∧
  (forall p' m', cr_name_for p' m' = Ok n ->
   ∃ h h', hex_sha256 (provider_str p +:+ "/" +:+ m) = Ok h ∧
     hex_sha256 (provider_str p' +:+ "/" +:+ m') = Ok h' ∧ substring 0 12 h = substring 0 12 h').
Proof.
  intros Hn. destruct (cr_name_parts p m n Hn) as (h & Hh & -> & Hl12 & Hhex).
  set (t := trim_dashes _) in *. set (pre := substring 0 _ t) in *.
  assert (String.length pre = Nat.min (String.length t) 231) as Hpre by (apply substring_length; lia).
  assert (String.length (CR_NAME_PREFIX +:+ pre +:+ "-" +:+ substring 0 12 h) <= K8S_NAME_MAX) as Hlen.
  { rewrite !str_length_app, Hl12, Hpre. cbn [String.length CR_NAME_PREFIX]. unfold K8S_NAME_MAX. lia. }
  assert (dots_inside "/" m = true -> last_or "-" pre ≠ "."%char ->
    valid_name (CR_NAME_PREFIX +:+ pre +:+ "-" +:+ substring 0 12 h) = true) as Hvalid.
  { intros Hdots Hl. unfold valid_name. apply andb_true_iff. split; [by apply Nat.leb_le|].
    destruct (substring_prefix (Nat.min (String.length t) 231) t) as [rest Hrest]. fold pre in Hrest.
    pose proof (readable_bytes p m) as Hb. fold t in Hb.
    pose proof (readable_inside p m Hdots) as Hin. fold t in Hin.
    apply subdomain_name; [| |done|done|by intros E; rewrite E in Hl12].
    + rewrite Hrest, str_all_app in Hb. by apply andb_true_iff in Hb as [? _].
    + rewrite Hrest, dots_inside_app in Hin. by apply andb_true_iff in Hin as [? _]. }
  assert (String.length m <= 109 -> last_or "-" pre ≠ "."%char) as Hshort.
  { intros Hm. pose proof (readable_length p m) as Hlt. fold t in Hlt.
    assert (pre = t) as -> by (unfold pre; rewrite Nat.min_l by lia; apply substring_whole).
    destruct (readable_start p m) as (c & r & Ht & _ & _ & d & Hd & Hdd). fold t in Ht.
    rewrite Ht, (str_last_or _ _ _ Hd). intros ->. done. }
  split_and!; [done| | |].
  - intros [Hm|[Hdots Hm]]; [|by apply Hvalid; auto]. apply Hvalid; [by apply no_dot_inside|].
    destruct (substring_prefix (Nat.min (String.length t) 231) t) as [rest Hrest]. fold pre in Hrest.
    pose proof (readable_no_dot p m Hm) as Hnd. fold t in Hnd. rewrite Hrest, contains_char_app in Hnd.
    apply orb_false_iff in Hnd as [Hnd _]. by apply last_or_no_dot.
  - intros Hdots. destruct (decide (last_or "-" pre = "."%char)) as [Hl|Hl]; [right|left; by apply Hvalid].
    split; [destruct (decide (String.length m <= 109)); [by destruct Hshort|lia]|].
    destruct (last_or_dot _ _ Hl) as [r Hr]; [done|].
    exists (CR_NAME_PREFIX +:+ r), (substring 0 12 h). split; [|done].
    rewrite Hr, !str_app_assoc. done.
  - intros p' m' (h' & Hh' & Heq & Hl12' & _)%cr_name_parts. exists h, h'. split; [done|]. split; [done|].
    apply (str_app_inj_length (CR_NAME_PREFIX +:+ pre +:+ "-")
      _ (CR_NAME_PREFIX +:+ substring 0 (Nat.min (String.length (trim_dashes (sanitize_chars (provider_str p' +:+ "/" +:+ m')))) 231) (trim_dashes (sanitize_chars (provider_str p' +:+ "/" +:+ m'))) +:+ "-")); [congruence|].
    rewrite !str_app_assoc. exact Heq.
Qed.
End digest.
