(* ===== verification/RegistryKubeRun.v ===== *)
(** * Runs of the Kubernetes registry backend

    A digest in hex, a server with one download that its owner no longer renews, the
    takeover by another replica, and two behaviours that the comments do not have. *)

From Stdlib Require Import ZArith Lia Ascii String.
From stdpp Require Import base tactics option list relations gmap fin_maps strings.
From S2P Require Import Prelude RustStr Models EntryKey RedisStore RedisProg RegistryMemory.
From S2P Require Import KubeServer RegistryKube RegistryKubeTheorems RegistryKubeNames.

Import Kube.

(** ** A digest *)

Definition hex_digit (n : N) : ascii :=
  (if n <? 10 then ascii_of_N (48 + n) else ascii_of_N (87 + n))%N.

Fixpoint hex_digits (k : nat) (n : N) : string :=
  match k with
  | O => ""
  | S k => String (hex_digit (n mod 16)) (hex_digits k (n / 16))
  end.

Fixpoint checksum (s : string) (acc : N) : N :=
  match s with
  | EmptyString => acc
  | String c s => checksum s ((acc * 257 + N_of_ascii c) mod 2 ^ 256)%N
  end.

#[export] Instance checksum_digest : HexDigest | 100 :=
  {| hex_sha256 s := Ok (hex_digits 64 (checksum s 0)) |}.

Lemma hex_digit_hex n :
  (n < 16)%N -> is_ascii_digit (hex_digit n) || byte_in 97 102 (hex_digit n) = true.
Proof.
  intros Hn. destruct n as [|p]; [reflexivity|].
  do 4 (destruct p as [p|p|]; try reflexivity); lia.
Qed.

Lemma hex_digits_hex k n :
  String.length (hex_digits k n) = k ∧
  str_all (fun b => is_ascii_digit b || byte_in 97 102 b) (hex_digits k n) = true.
Proof.
  revert n. induction k as [|k IH]; intros n; [done|]. cbn [hex_digits String.length str_all].
  destruct (IH (n / 16)%N) as [-> ->]. rewrite hex_digit_hex; [done|]. by apply N.mod_lt.
Qed.

#[export] Instance checksum_digest_laws : HexDigestLaws | 100.
Proof. split. intros s h Hs. injection Hs as <-. exact (hex_digits_hex 64 (checksum s 0)). Qed.

(** ** A download whose owner is gone *)

Definition demo_name : string :=
  match cr_name_for HuggingFace "org/model" with Ok n => n | Err _ => "" end.

Definition demo_fingerprint : LeaseFingerprint := MkFingerprint (Some "first") (Some "30").

Definition demo_entry : entry :=
  MkEntry 0 "org/model" "HuggingFace"
    (Some (list_to_map [("phase", Some DOWNLOADING_PHASE); ("claimId", Some "first");
                        ("leaseExpiresAt", Some "30"); ("message", Some "Starting download...")])).

(** Replica "second" saw the lease at time 5, the clock stands at 35. *)
Definition demo_world : world kube_db :=
  MkWorld (kube_commit demo_name (Some demo_entry) kube_empty)
    {[demo_name := MkObservation demo_fingerprint 5]} 35 100
    (fun n fp => if bool_decide (n = demo_name) && bool_decide (fp = demo_fingerprint) then Some 0%Z else None).

Lemma demo_observed : observed_after_renewal demo_world.
Proof.
  split; cbn.
  - intros n e fp [[<- <-]|[_ He]]%lookup_insert_Some Hf _; [|by rewrite lookup_empty in He].
    vm_compute in Hf. injection Hf as <-. exists 0%Z. split; [|lia]. by rewrite !bool_decide_true.
  - intros n o [<- <-]%lookup_singleton_Some _. exists 0%Z. cbn. split; [|lia].
    by rewrite !bool_decide_true.
Qed.

Lemma exec_answer {A} (p : prog (world kube_db) A) w a :
  (exec p w).2 = a -> runs (rtc other_step) p w a (exec p w).1.
Proof. intros <-. apply exec_runs. intros w'. apply rtc_refl. Qed.

Lemma takeover_after_silence_witness :
  ∃ w', runs (rtc other_step) (try_claim_for_download "org/model" HuggingFace "second" 30)
          demo_world (Ok TookOver) w' ∧
  ∃ wp k e e', rtc other_step demo_world wp ∧ kube_get demo_name (w_kube wp) = Some e ∧
    (forall fp, entry_fingerprint e = Some fp -> is_Some (lf_claim_id fp) ->
       ∃ t, w_renewed wp demo_name fp = Some t ∧ (t + 30 <= w_monotonic wp)%Z) ∧
    kube_get demo_name k = Some e' ∧ entry_owner e' = Some "second" ∧
    rtc other_step (with_kube k wp) w'.
Proof.
  set (p := try_claim_for_download (K := kube_db) "org/model" HuggingFace "second" 30).
  assert (runs (rtc other_step) p demo_world (Ok TookOver) (exec p demo_world).1) as Hrun
    by (apply exec_answer; vm_compute; reflexivity).
  exists (exec p demo_world).1. split; [exact Hrun|].
  refine (takeover_after_silence "org/model" HuggingFace "second" 30 demo_name demo_world TookOver _
            demo_observed _ _ Hrun _); [lia|reflexivity|reflexivity].
Defined.

Lemma only_owner_writes_witness :
  (exec (refresh_download_claim "org/model" HuggingFace "first" 30) demo_world).2 = Ok true ∧
  (exec (finish_download_claim "org/model" HuggingFace "second" DOWNLOADED None) demo_world).2 = Ok false ∧
  (∃ w' now deadline, owner_write demo_name "first" true (fun raw =>
     <["lastUsedAt" := Some (to_rfc3339 now)]> (<["leaseExpiresAt" := Some (to_rfc3339 deadline)]> raw))
     demo_world w') ∧
  (∃ w' now, owner_write demo_name "second" false (fun raw =>
     <["leaseExpiresAt" := None]> (<["claimId" := None]> (<["lastUsedAt" := Some (to_rfc3339 now)]>
       (<["message" := None]> (<["phase" := Some (phase_from_status DOWNLOADED)]> raw))))) demo_world w').
Proof.
  assert (cr_name_for HuggingFace "org/model" = Ok demo_name) as Hn by reflexivity.
  split; [vm_compute; reflexivity|]. split; [vm_compute; reflexivity|]. split.
  - eexists. eapply (proj1 (only_owner_writes "org/model" HuggingFace "first" 30 DOWNLOADED None demo_name
      demo_world true _ Hn)). apply exec_answer. vm_compute. reflexivity.
  - eexists. eapply (proj2 (only_owner_writes "org/model" HuggingFace "second" 30 DOWNLOADED None demo_name
      demo_world false _ Hn)). apply exec_answer. vm_compute. reflexivity.
Defined.

Lemma cr_name_valid_witness :
  ∃ n, cr_name_for HuggingFace "Qwen/Qwen2.5-0.5B" = Ok n ∧ String.length n <= K8S_NAME_MAX ∧
    valid_name n = true.
Proof.
  eexists. split; [reflexivity|].
  pose proof (cr_name_valid HuggingFace "Qwen/Qwen2.5-0.5B" _ eq_refl) as (Hlen & Hvalid & _).
  split; [exact Hlen|]. apply Hvalid. right. split; [reflexivity|cbn; lia].
Defined.

(** ** Behaviours that the comments do not have *)

(** A dot next to a dash, underscore or slash stays beside a dash in the name, which the
    server then refuses: the download can never be claimed. *)
Lemma dotted_names_refused :
  (exec (try_claim_for_download "org/model_.v2" HuggingFace "c" 30)
     (MkWorld kube_empty ∅ 0 0 (fun _ _ => None))).2 = Err (ApiFailed 422).
Proof. vm_compute. reflexivity. Qed.

(** An error that is recorded without a message cannot be retried: the merge patch
    removes the field, and the retry replaces a field that is not there. *)
Lemma error_without_message_stuck :
  let w := MkWorld kube_empty ∅ 0 0 (fun _ _ => None) in
  let w1 := (exec (set_status "org/model" HuggingFace ERROR None) w).1 in
  (exec (get_status "org/model") w1).2 = Ok (Some ERROR) ∧
  (exec (try_reset_error_for_retry "org/model" HuggingFace "c" 30) w1).2 = Ok false.
Proof. split; vm_compute; reflexivity. Qed.
