(* ===== verification/ArtifactManifest.v ===== *)
(** * Manifests of file-backed artifacts (common artifact_manifest.rs)

    The manifest of a directory: its regular files in the order of their paths, and
    their chunks with checksums.  The file system is that of [Fs]; it does not change
    while a manifest is made.  CRC-32C, SHA-256 and the JSON text are parameters, and so
    is how [read] divides a file.  The second half shows which files and chunks a manifest
    has, with a run on the directory of the unit test. *)

From Stdlib Require Import ZArith Lia Ascii String.
From stdpp Require Import base tactics option list gmap fin_maps strings sorting.
From S2P Require Import Prelude RustStr RustPath P2pTypes SourceIdentityHash Fs Json.
From S2P Require Import RegistryKube.

(** The crc32c crate: the checksum of bytes appended to bytes with a given checksum. *)
Class Crc32c := { crc32c_append : Z -> bytes -> Z }.

Class Crc32cLaws `{Crc32c} : Prop := {
  crc32c_append_app : forall c a b, crc32c_append (crc32c_append c a) b = crc32c_append c (a ++ b);
  crc32c_append_nil : forall c, crc32c_append c [] = c
}.

(** What the calls of [read] on a file answer until they answer nothing. *)
Class FileReads := { file_reads : bytes -> list bytes }.

Class FileReadsLaws `{FileReads} : Prop := {
  concat_file_reads : forall data, concat (file_reads data) = data;
  file_reads_nonempty : forall data, Forall (fun r => r ≠ []) (file_reads data)
}.

Module Manifest.

Definition ARTIFACT_MANIFEST_VERSION : Z := 1.
Definition MAX_ARTIFACT_TRANSFER_CHUNK_SIZE : Z := 4 * 1024 * 1024 * 1024.

Record ArtifactManifestFile : Type := MkFile {
  mf_file_index : Z;
  mf_path : string;
  mf_size : Z;
  mf_checksum : string
}.

Record ArtifactManifestChunk : Type := MkChunk {
  mc_chunk_index : Z;
  mc_file_index : Z;
  mc_file_offset : Z;
  mc_length : Z;
  mc_checksum : string
}.

Record ArtifactManifest : Type := MkManifest {
  am_manifest_version : Z;
  am_mx_source_type : Z;
  am_chunk_size : Z;
  am_files : list ArtifactManifestFile;
  am_chunks : list ArtifactManifestChunk
}.

Record SealedArtifactManifest : Type := MkSealed {
  sm_artifact_id : string;
  sm_manifest : ArtifactManifest
}.

(** [Unfinished] is a bound of the model, which is never reached. *)
Inductive manifest_error : Type :=
| ZeroChunkSize
| ChunkSizeTooLarge (chunk_size : Z)
| Io (e : io_error)
| NotADirectory (p : path)
| ResolvesOutside (p : path)
| NotAbsolute (p : path)
| UnsafePath (p : path)
| NotUtf8 (p : path)
| EmptyPath
| UnexpectedEof
| FileIndexExceeds
| ChunkIndexOverflow
| ChunkIndexExceeds
| OffsetOverflow
| TotalSizeOverflow
| CountExceeds
| BadDigest (e : string)
| Unfinished.

(** [{:08x}] of a u32. *)
Definition hex_digit (z : Z) : ascii :=
  ascii_of_nat (Z.to_nat (if (z <? 10)%Z then 48 + z else 87 + z)).

Definition hex8 (z : Z) : string :=
  string_of_list_ascii
    (map (fun i => hex_digit (Z.land (Z.shiftr z (4 * i)) 15)) [7; 6; 5; 4; 3; 2; 1; 0]%Z).

(** An I/O failure with its context. *)
Definition io {A} (r : result A io_error) : result A manifest_error :=
  match r with Ok a => Ok a | Err e => Err (Io e) end.

Section manifest.
Context (cwd : path) (s : fs).

(** [fs::read_dir], every entry with its type. *)
Definition entry_in (dir : path) (e : path * node) : option (string * node) :=
  match path_strip_prefix dir e.1 with Some [Normal n] => Some (n, e.2) | _ => None end.

Definition read_dir (p : path) : result (list (string * node)) io_error :=
  let? dir := canonicalize cwd s p in
  if is_dir_at s dir then Ok (omap (entry_in dir) (map_to_list s)) else Err ENOTDIR.

(** [fs::metadata] of a regular file, and its content. *)
Definition read_file (p : path) : result bytes io_error :=
  let? q := canonicalize cwd s p in
  match s !! q with
  | Some (FileNode data) => Ok data
  | Some DirNode => Err EISDIR
  | _ => Err ENOENT
  end.

(** Paths of one directory compare as their last names do. *)
Definition by_name (a b : string * node) : bool := String.leb a.1 b.1.

Fixpoint collect_regular_files (fuel : nat) (root dir : path) : result (list path) manifest_error :=
  match fuel with
  | O => Err Unfinished
  | S fuel =>
      let? entries := io (read_dir dir) in
      let? found :=
        try_map
          (fun '(name, file_type) =>
             let path := path_join dir [Normal name] in
             match file_type with
             | SymlinkNode _ => Ok []
             | DirNode => collect_regular_files fuel root path
             | FileNode _ =>
                 let? canonical := io (canonicalize cwd s path) in
                 if negb (path_starts_with canonical root) then Err (ResolvesOutside path)
                 else Ok [canonical]
             | OtherNode => Ok []
             end)
          (sort_by by_name entries) in
      Ok (concat found)
  end.

(** One component; a name must be UTF-8. *)
Definition manifest_part (whole : path) (c : component) : result (list string) manifest_error :=
  match c with
  | RootDir => Ok []
  | Normal part => match to_str part with Some part => Ok [part] | None => Err (NotUtf8 whole) end
  | _ => Err (UnsafePath whole)
  end.

Definition manifest_path (p : path) : result string manifest_error :=
  if negb (is_absolute p) then Err (NotAbsolute p)
  else
    let? parts := try_map (manifest_part p) p in
    match concat parts with
    | [] => Err EmptyPath
    | parts => Ok ("/" +:+ join "/" parts)
    end.

Context `{Crc32c} `{FileReads}.

Definition crc32c (data : bytes) : Z := crc32c_append 0 data.

(** [read_exact]. *)
Definition read_exact (n : nat) (reader : bytes) : result (bytes * bytes) manifest_error :=
  if (length reader <? n)%nat then Err UnexpectedEof else Ok (take n reader, drop n reader).

(** The loop of [chunks_for_file]; [first] is [first_chunk_index + chunks.len()]. *)
Fixpoint chunk_loop (fuel : nat) (file_index first chunk_size size offset : Z) (reader : bytes)
    : result (list ArtifactManifestChunk) manifest_error :=
  if (size <=? offset)%Z then Ok []
  else match fuel with
  | O => Err Unfinished
  | S fuel =>
      let remaining := (size - offset)%Z in
      let chunk_len := Z.min remaining chunk_size in
      let? read := read_exact (Z.to_nat chunk_len) reader in
      let '(buffer, reader) := read in
      if (u64_max <? first)%Z then Err ChunkIndexOverflow
      else if (u32_max <? first)%Z then Err ChunkIndexExceeds
      else
        let chunk := MkChunk first file_index offset chunk_len (hex8 (crc32c buffer)) in
        match u64_checked_add offset chunk_len with
        | None => Err OffsetOverflow
        | Some offset =>
            let? chunks := chunk_loop fuel file_index (first + 1) chunk_size size offset reader in
            Ok (chunk :: chunks)
        end
  end.

Definition chunks_for_file (p : path) (file_index first_chunk_index chunk_size : Z)
    : result (list ArtifactManifestChunk) manifest_error :=
  let? data := io (read_file p) in
  let size := Z.of_nat (length data) in
  if (size =? 0)%Z then Ok []
  else chunk_loop (length data) file_index first_chunk_index chunk_size size 0 data.

(** The loop of [file_checksum]. *)
Fixpoint checksum_loop (checksum : Z) (reads : list bytes) : Z :=
  match reads with
  | [] | [] :: _ => checksum
  | read :: reads => checksum_loop (crc32c_append checksum read) reads
  end.

Definition file_checksum (p : path) : result string manifest_error :=
  let? data := io (read_file p) in
  Ok (hex8 (checksum_loop 0 (file_reads data))).

(** The files in order, with the number of files and of chunks before them. *)
Fixpoint add_files (chunk_size : Z) (l : list (string * path)) (nfiles nchunks : Z)
    : result (list ArtifactManifestFile * list ArtifactManifestChunk) manifest_error :=
  match l with
  | [] => Ok ([], [])
  | (manifest_path, p) :: l =>
      let? data := io (read_file p) in
      if (u32_max <? nfiles)%Z then Err FileIndexExceeds
      else
        let? checksum := file_checksum p in
        let file := MkFile nfiles manifest_path (Z.of_nat (length data)) checksum in
        let? here := chunks_for_file p nfiles nchunks chunk_size in
        let? rest := add_files chunk_size l (nfiles + 1) (nchunks + Z.of_nat (length here)) in
        let '(files, chunks) := rest in
        Ok (file :: files, here ++ chunks)
  end.

Definition by_path (a b : string * path) : bool := String.leb a.1 b.1.

(** More nested directories than the store has entries there are not. *)
Definition from_directory (root : path) (chunk_size mx_source_type : Z)
    : result ArtifactManifest manifest_error :=
  if (chunk_size =? 0)%Z then Err ZeroChunkSize
  else if (MAX_ARTIFACT_TRANSFER_CHUNK_SIZE <? chunk_size)%Z then Err (ChunkSizeTooLarge chunk_size)
  else
    let? root := io (canonicalize cwd s root) in
    if negb (is_dir_at s root) then Err (NotADirectory root)
    else
      let? paths := collect_regular_files (S (size s)) root root in
      let? manifest_files :=
        try_map (fun p => let? manifest_path := manifest_path p in Ok (manifest_path, p)) paths in
      let? added := add_files chunk_size (sort_by by_path manifest_files) 0 0 in
      let '(files, chunks) := added in
      Ok (MkManifest ARTIFACT_MANIFEST_VERSION mx_source_type chunk_size files chunks).

End manifest.

Definition total_size (m : ArtifactManifest) : result Z manifest_error :=
  foldl (fun total file =>
           let? total := total in
           match u64_checked_add total (mf_size file) with
           | Some total => Ok total
           | None => Err TotalSizeOverflow
           end) (Ok 0%Z) (am_files m).

Definition chunk_count (m : ArtifactManifest) : result Z manifest_error :=
  let n := Z.of_nat (length (am_chunks m)) in
  if (u32_max <? n)%Z then Err CountExceeds else Ok n.

(** The serde form, with the fields in order. *)
Definition ser_file (f : ArtifactManifestFile) : json :=
  JObj [("file_index", JInt (mf_file_index f)); ("path", JStr (mf_path f));
        ("size", JInt (mf_size f)); ("checksum", JStr (mf_checksum f))].

Definition ser_chunk (c : ArtifactManifestChunk) : json :=
  JObj [("chunk_index", JInt (mc_chunk_index c)); ("file_index", JInt (mc_file_index c));
        ("file_offset", JInt (mc_file_offset c)); ("length", JInt (mc_length c));
        ("checksum", JStr (mc_checksum c))].

Definition ser_manifest (m : ArtifactManifest) : json :=
  JObj [("manifest_version", JInt (am_manifest_version m));
        ("mx_source_type", JInt (am_mx_source_type m)); ("chunk_size", JInt (am_chunk_size m));
        ("files", JArr (map ser_file (am_files m))); ("chunks", JArr (map ser_chunk (am_chunks m)))].

Definition seal `{JsonText} `{HexDigest} (m : ArtifactManifest)
    : result SealedArtifactManifest manifest_error :=
  match hex_sha256 (json_print (ser_manifest m)) with
  | Ok artifact_id => Ok (MkSealed artifact_id m)
  | Err e => Err (BadDigest e)
  end.

Definition source_metadata (m : SealedArtifactManifest)
    : result ArtifactSourceMetadata manifest_error :=
  let? total := total_size (sm_manifest m) in
  let n := Z.of_nat (length (am_files (sm_manifest m))) in
  if (u32_max <? n)%Z then Err CountExceeds
  else
    let? chunks := chunk_count (sm_manifest m) in
    Ok (MkArtifactSourceMetadata (sm_artifact_id m) total n chunks 0).

End Manifest.

(** ** Which files and chunks a manifest has *)

Import Manifest.

(** ** Stores *)

(** A store as a kernel keeps it: plain names below the root, every entry in a
    directory, sizes that fit. *)
Record fs_wf (s : fs) : Prop := {
  wf_key : forall p x, s !! p = Some x -> ∃ names, p = abs names ∧ Forall file_name_ok names;
  wf_parent : forall names n x, s !! abs (names ++ [n]) = Some x -> s !! abs names = Some DirNode;
  wf_size : forall p data, s !! p = Some (FileNode data) -> (Z.of_nat (length data) <= u64_max)%Z
}.

Section walk.
Context (cwd : path) (s : fs) (Hwf : fs_wf s).

Lemma wf_ancestors a b x : b ≠ [] -> s !! abs (a ++ b) = Some x -> s !! abs a = Some DirNode.
Proof.
  revert x. induction b as [|n b IH] using rev_ind; intros x Hb Hx; [done|].
  rewrite app_assoc in Hx. apply (wf_parent s Hwf) in Hx.
  destruct b as [|m b]; [by rewrite app_nil_r in Hx|]. by eapply IH.
Qed.

Lemma wf_dirs names : s !! abs names = Some DirNode -> dirs_to s (abs names).
Proof.
  intros Hd q Hq [r Hr]. destruct q as [|c q]; [done|].
  injection Hr as <- Hr.
  apply map_eq_app in Hr as (a & b & -> & <- & <-).
  destruct b as [|n b]; [by rewrite app_nil_r in Hd|]. by apply (wf_ancestors a (n :: b) DirNode).
Qed.

Lemma walk_entry links d n x :
  s !! d = Some DirNode -> s !! (d ++ [Normal n]) = Some x -> (forall t, x ≠ SymlinkNode t) ->
  walk s links d [Normal n] = Ok (d ++ [Normal n]).
Proof.
  intros Hd Hx Hl. destruct links; cbn; unfold is_dir_at; rewrite bool_decide_eq_true_2, Hx by done;
    destruct x; try done; by destruct (Hl target).
Qed.

(** A path without links resolves to itself. *)
Lemma canonicalize_entry names x :
  s !! abs names = Some x -> (forall t, x ≠ SymlinkNode t) ->
  canonicalize cwd s (abs names) = Ok (abs names).
Proof.
  destruct names as [|n names _] using rev_ind; intros Hx Hl.
  { rewrite canonicalize_abs. by rewrite walk_nil. }
  pose proof (wf_parent s Hwf _ _ _ Hx) as Hp. pose proof (wf_dirs _ Hp) as Hd.
  rewrite canonicalize_abs, map_app. change (map Normal [n]) with [Normal n].
  assert (forall a b, dirs_to s (abs (a ++ b)) -> s !! abs (a ++ b) = Some DirNode ->
            walk s MAX_SYMLINKS (abs a) (map Normal b ++ [Normal n]) =
            walk s MAX_SYMLINKS (abs (a ++ b)) [Normal n]) as Hstep.
  { intros a b. revert a. induction b as [|m b IH]; intros a Hab Hb; [by rewrite app_nil_r|].
    cbn [map]. rewrite (cons_middle m a b), app_assoc in *.
    assert (abs (a ++ [m]) `prefix_of` abs ((a ++ [m]) ++ b)) as Hpre.
    { unfold abs. rewrite (map_app Normal (a ++ [m])). by eexists. }
    rewrite <- app_comm_cons, walk_dir, <- abs_snoc; [by apply IH| |].
    - apply Hab; [done|]. etrans; [|exact Hpre]. rewrite abs_snoc. by eexists.
    - rewrite <- abs_snoc. by apply Hab. }
  rewrite (Hstep [] names Hd Hp). cbn [app]. rewrite abs_snoc in Hx |- *.
  by apply (walk_entry _ _ _ x).
Qed.

Lemma path_strip_prefix_Some (base p q : path) :
  path_strip_prefix base p = Some q ↔ p = base ++ q.
Proof.
  split; [|intros ->; apply path_strip_prefix_app].
  revert p. induction base as [|c base IH]; intros [|d p]; cbn; try congruence.
  destruct (decide (c = d)) as [->|]; [|done]. intros ->%IH. done.
Qed.

Lemma entry_in_Some (dir p : path) y n x :
  entry_in dir (p, y) = Some (n, x) ↔ p = dir ++ [Normal n] ∧ x = y.
Proof.
  unfold entry_in. cbn [fst snd].
  pose proof (path_strip_prefix_Some dir p) as Hs. split.
  - destruct (path_strip_prefix dir p) as [q|]; [|done].
    rewrite (proj1 (Hs q) eq_refl). by destruct q as [|[] [|]]; intros [= <- <-].
  - intros [-> ->]. by rewrite path_strip_prefix_app.
Qed.

(** The entries of a directory. *)
Lemma read_dir_entries names :
  s !! abs names = Some DirNode ->
  ∃ entries, read_dir cwd s (abs names) = Ok entries ∧
    (forall n x, (n, x) ∈ entries ↔ s !! abs (names ++ [n]) = Some x) ∧ NoDup entries.*1.
Proof.
  intros Hd. eexists. unfold read_dir.
  rewrite (canonicalize_entry _ _ Hd) by done. unfold is_dir_at.
  rewrite bool_decide_eq_true_2 by done. split; [done|]. split.
  - intros n x. rewrite list_elem_of_omap, abs_snoc. split.
    + intros ([p y] & Hp & [-> ->]%entry_in_Some). by apply elem_of_map_to_list.
    + intros Hx. eexists (_, x). rewrite entry_in_Some. by split; [apply elem_of_map_to_list|].
  - pose proof (NoDup_fst_map_to_list s) as Hnd. revert Hnd. clear.
    induction (map_to_list s) as [|[p x] l IH]; cbn; [constructor|].
    intros [Hp Hnd]%NoDup_cons. specialize (IH Hnd).
    destruct (entry_in (abs names) (p, x)) as [[n y]|] eqn:He; [|done]. cbn.
    apply entry_in_Some in He as [-> ->].
    apply NoDup_cons. split; [|done]. intros ([n' y'] & Hn & Hin)%list_elem_of_fmap.
    cbn in Hn. subst n'. apply list_elem_of_omap in Hin as ([p' x'] & Hin & [-> ->]%entry_in_Some).
    apply Hp. apply list_elem_of_fmap. by eexists (_, x').
Qed.
(** ** Collecting *)

(** The regular files at or below an entry of a directory. *)
Definition found_at (names : list string) (n : string) (p : path) : Prop :=
  ∃ rest data, p = abs (names ++ n :: rest) ∧ s !! p = Some (FileNode data).

Lemma concat_found names (es : list (string * node)) (ys : list (list path)) :
  Forall2 (fun e y => NoDup y ∧ forall p, p ∈ y ↔ found_at names e.1 p) es ys -> NoDup es.*1 ->
  NoDup (concat ys) ∧ forall p, p ∈ concat ys ↔ ∃ e, e ∈ es ∧ found_at names e.1 p.
Proof.
  induction 1 as [|e y es ys [Hnd Hy] _ IH]; cbn.
  { intros _. split; [constructor|]. intros p. split; [by intros []%elem_of_nil|].
    by intros (? & []%elem_of_nil & _). }
  intros [He Hes]%NoDup_cons. destruct (IH Hes) as [Hnd' Hp]. split.
  - apply NoDup_app. split_and!; [done| |done]. intros p Hpy Hpc.
    apply Hy in Hpy as (rest & data & -> & _). apply Hp in Hpc as (e' & He' & rest' & data' & Heq & _).
    injection Heq as Heq. apply map_Normal_inj, app_inv_head in Heq. injection Heq as Heq _.
    apply He. rewrite Heq. apply list_elem_of_fmap. by exists e'.
  - intros p. rewrite elem_of_app, Hy, Hp. setoid_rewrite elem_of_cons. naive_solver.
Qed.

Lemma only_directories_hold names n rest x y :
  s !! abs (names ++ [n]) = Some x -> x ≠ DirNode ->
  s !! abs (names ++ n :: rest) = Some y -> rest = [].
Proof.
  intros Hx Hne Hy. destruct rest as [|m rest]; [done|].
  rewrite cons_middle, app_assoc in Hy. apply (wf_ancestors (names ++ [n])) in Hy; [|done]. congruence.
Qed.

Lemma collect_exact fuel : forall root names,
  root `prefix_of` abs names -> s !! abs names = Some DirNode ->
  (forall p x, s !! p = Some x -> abs names `prefix_of` p -> length p < length (abs names) + fuel) ->
  ∃ l, collect_regular_files cwd s fuel root (abs names) = Ok l ∧ NoDup l ∧
    forall p, p ∈ l ↔ ∃ n, found_at names n p.
Proof.
  induction fuel as [|fuel IH]; intros root names Hroot Hd Hdeep.
  { specialize (Hdeep _ _ Hd ltac:(done)). lia. }
  cbn [collect_regular_files].
  destruct (read_dir_entries names Hd) as (entries & -> & Hin & Hnd). cbn [io].
  destruct (try_map_Forall2 (E := manifest_error)
    (fun '(name, file_type) =>
       let path := path_join (abs names) [Normal name] in
       match file_type with
       | SymlinkNode _ => Ok []
       | DirNode => collect_regular_files cwd s fuel root path
       | FileNode _ =>
           let? canonical := io (canonicalize cwd s path) in
           if negb (path_starts_with canonical root) then Err (ResolvesOutside path)
           else Ok [canonical]
       | OtherNode => Ok []
       end)
    (fun e y => NoDup y ∧ forall p, p ∈ y ↔ found_at names e.1 p)
    (sort_by by_name entries)) as (found & Hfound & Hall).
  - intros [n x] Hx%elem_of_sort_by%Hin. rewrite path_join_name, <- abs_snoc. cbv zeta.
    destruct (decide (x = DirNode)) as [->|Hne].
    + destruct (IH root (names ++ [n])) as (l & Hl & Hnl & Hp).
      * etrans; [exact Hroot|]. rewrite abs_snoc. by eexists.
      * done.
      * intros p x Hpx Hpre. assert (abs names `prefix_of` p) as Hpre'.
        { etrans; [|exact Hpre]. rewrite abs_snoc. by eexists. }
        specialize (Hdeep p x Hpx Hpre'). rewrite abs_snoc, length_app. cbn [length]. lia.
      * exists l. split_and!; [done|done|]. intros p. rewrite Hp. unfold found_at. cbn. split.
        -- intros (m & rest & data & -> & Hf). exists (m :: rest), data.
           by rewrite <- app_assoc in Hf |- *.
        -- intros ([|m rest] & data & -> & Hf); [congruence|]. exists m, rest, data.
           by rewrite <- app_assoc.
    + assert (forall y, (y = [] ∧ forall data, x ≠ FileNode data) ∨
                        (y = [abs (names ++ [n])] ∧ ∃ data, x = FileNode data) ->
                NoDup y ∧ forall p, p ∈ y ↔ found_at names n p) as Hleaf.
      { intros y Hy. split; [destruct Hy as [[-> _]|[-> _]]; [constructor|apply NoDup_singleton]|].
        intros p. split.
        - destruct Hy as [[-> _]|[-> [data ->]]]; [by intros []%elem_of_nil|].
          intros ->%list_elem_of_singleton. by exists [], data.
        - intros (rest & data & -> & Hf).
          pose proof (only_directories_hold _ _ _ _ _ Hx Hne Hf) as ->.
          destruct Hy as [[-> Hno]|[-> _]]; [|by left]. rewrite Hx in Hf.
          injection Hf as ->. by destruct (Hno data). }
      destruct x as [data| | |]; try done.
      * rewrite (canonicalize_entry _ _ Hx) by done. cbn [io].
        assert (path_starts_with (abs (names ++ [n])) root = true) as ->.
        { apply bool_decide_eq_true. etrans; [exact Hroot|]. rewrite abs_snoc. by eexists. }
        eexists. split; [done|]. apply Hleaf. right. split; [done|]. by exists data.
      * eexists. split; [done|]. apply Hleaf. by left.
      * eexists. split; [done|]. apply Hleaf. by left.
  - setoid_rewrite Hfound. exists (concat found). split; [done|].
    apply concat_found in Hall as [Hn Hp].
    + split; [done|]. intros p. rewrite Hp. split.
      * intros ([n x] & _ & Hf). by exists n.
      * intros (n & Hf). destruct Hf as (rest & data & -> & Hf).
        assert (∃ x, s !! abs (names ++ [n]) = Some x) as [x Hx].
        { destruct rest as [|m rest]; [by eexists|].
          exists DirNode. eapply (wf_ancestors (names ++ [n]) (m :: rest)); [done|].
          rewrite <- app_assoc. exact Hf. }
        exists (n, x). rewrite elem_of_sort_by, Hin. split; [done|]. by exists rest, data.
    + rewrite (sort_by_perm by_name entries). done.
Qed.
End walk.

(** ** Names *)

Section names.
Context (s : fs) (Hwf : fs_wf s).

(** Every directory on the way to a file is an entry of the store. *)
Lemma depth_bound names rest x :
  s !! abs (names ++ rest) = Some x -> length (abs (names ++ rest)) < length (abs names) + S (size s).
Proof.
  intros Hx. unfold abs at 1 2. cbn [length]. rewrite !length_map, length_app.
  enough (S (length rest) <= size s) by lia.
  set (ways := map (fun k => abs (names ++ take k rest)) (seq 0 (S (length rest)))).
  replace (S (length rest)) with (length ways) by (unfold ways; by rewrite length_map, length_seq).
  rewrite <- length_map_to_list, <- (length_map fst (map_to_list s)).
  apply submseteq_length, NoDup_submseteq.
  - unfold ways. apply NoDup_fmap_2_strong; [|apply NoDup_seq].
    intros a b Ha%elem_of_seq Hb%elem_of_seq Heq. apply (f_equal length) in Heq.
    unfold abs in Heq. cbn [length] in Heq. rewrite !length_map, !length_app, !length_take in Heq. lia.
  - intros p (k & -> & Hk%elem_of_seq)%list_elem_of_fmap. rewrite <- (take_drop k rest) in Hx.
    destruct (drop k rest) as [|m after] eqn:Hdrop.
    + rewrite app_nil_r in Hx. apply list_elem_of_fmap. eexists (_, x). split; [done|].
      by apply elem_of_map_to_list.
    + rewrite app_assoc in Hx. apply (wf_ancestors s Hwf) in Hx; [|done].
      apply list_elem_of_fmap. eexists (_, DirNode). split; [done|]. by apply elem_of_map_to_list.
Qed.

Definition path_text (names : list string) : string := "/" +:+ join "/" names.

Lemma manifest_path_abs names :
  names ≠ [] ->
  manifest_path (abs names) =
  if forallb is_utf8 names then Ok (path_text names) else Err (NotUtf8 (abs names)).
Proof.
  intros Hne. unfold manifest_path. change (is_absolute (abs names)) with true. cbn [negb].
  generalize (abs names) at 1 3. intros whole. unfold abs. cbn [try_map manifest_part].
  assert (try_map (manifest_part whole) (map Normal names) =
    if forallb is_utf8 names then Ok (map (fun n => [n]) names) else Err (NotUtf8 whole)) as ->.
  { clear Hne. induction names as [|n names IH]; [done|].
    cbn [map try_map manifest_part forallb]. rewrite IH. unfold to_str.
    destruct (is_utf8 n); [|done]. by destruct (forallb is_utf8 names). }
  destruct (forallb is_utf8 names); [|done].
  cbn [concat app]. assert (concat (map (fun n => [n]) names) = names) as ->.
  { clear Hne. induction names as [|n names IH]; [done|]. cbn. by rewrite IH. }
  by destruct names.
Qed.

Lemma path_text_inj a b :
  a ≠ [] -> b ≠ [] -> Forall file_name_ok a -> Forall file_name_ok b ->
  path_text a = path_text b -> a = b.
Proof.
  intros Ha Hb Hoka Hokb. unfold path_text. cbn. intros [= Heq].
  assert (forall l, l ≠ [] -> Forall file_name_ok l -> split "/" (join "/" l) = l) as Hs.
  { intros l Hl Hok. apply (split_join "/"); [done|]. eapply Forall_impl; [exact Hok|].
    by intros ? (_ & _ & _ & ?). }
  rewrite <- (Hs a Ha Hoka), <- (Hs b Hb Hokb). by f_equal.
Qed.
End names.

(** ** Chunks *)

Section chunks.
Context `{Crc32c} (cs : Z) (Hcs : (0 < cs)%Z).

(** [chunks] are, in order, the pieces of [data] from [offset] on, every piece of the
    chunk size except the last, numbered from [first]. *)
Inductive tiles (file_index : Z) : Z -> Z -> bytes -> list ArtifactManifestChunk -> Prop :=
| tiles_nil first offset : tiles file_index first offset [] []
| tiles_cons first offset piece rest chunks :
    piece ≠ [] -> (Z.of_nat (length piece) <= cs)%Z ->
    (rest ≠ [] -> Z.of_nat (length piece) = cs) ->
    tiles file_index (first + 1) (offset + Z.of_nat (length piece)) rest chunks ->
    tiles file_index first offset (piece ++ rest)
      (MkChunk first file_index offset (Z.of_nat (length piece)) (hex8 (crc32c piece)) :: chunks).

Lemma tiles_exist file_index n : forall data first offset,
  length data <= n -> ∃ chunks, tiles file_index first offset data chunks.
Proof.
  induction n as [|n IH]; intros data first offset Hn.
  { destruct data; [|simpl in Hn; lia]. exists []. constructor. }
  destruct (decide (data = [])) as [->|Hne]; [exists []; constructor|].
  assert (0 < length data) as Hlen by (destruct data; [done|simpl; lia]).
  set (k := Z.to_nat (Z.min (Z.of_nat (length data)) cs)).
  destruct (IH (drop k data) (first + 1)%Z (offset + Z.of_nat (length (take k data)))%Z)
    as (chunks & Hch); [rewrite length_drop; lia|].
  eexists. pose proof (tiles_cons file_index first offset (take k data) (drop k data) chunks) as Ht.
  rewrite take_drop in Ht. apply Ht; [| | |exact Hch].
  - intros Heq. apply (f_equal length) in Heq. rewrite length_take in Heq. simpl in Heq. lia.
  - rewrite length_take. lia.
  - intros Hd. assert (length (drop k data) ≠ 0) as Hd' by (by destruct (drop k data)).
    rewrite length_drop in Hd'. rewrite length_take. lia.
Qed.

Definition chunk_exceeds (c : ArtifactManifestChunk) : bool := (u32_max <? mc_chunk_index c)%Z.

Lemma chunk_loop_exact file_index first offset data chunks :
  tiles file_index first offset data chunks -> forall fuel,
  length data <= fuel -> (offset + Z.of_nat (length data) <= u64_max)%Z -> (first <= u32_max + 1)%Z ->
  chunk_loop fuel file_index first cs (offset + Z.of_nat (length data)) offset data =
  if existsb chunk_exceeds chunks then Err ChunkIndexExceeds else Ok chunks.
Proof.
  induction 1 as [first offset|first offset piece rest chunks Hp Hle Hfull _ IH];
    intros fuel Hfuel Hsize Hfirst.
  { destruct fuel; cbn [chunk_loop]; simpl; by rewrite (proj2 (Z.leb_le _ _)) by lia. }
  rewrite length_app in *.
  assert (0 < length piece) as Hlen by (destruct piece; [done|simpl; lia]).
  destruct fuel as [|fuel]; [lia|]. cbn [chunk_loop]. rewrite (proj2 (Z.leb_gt _ _)) by lia.
  replace (Z.min _ cs) with (Z.of_nat (length piece)).
  2:{ destruct (decide (rest = [])) as [->|Hr]; [simpl; lia|]. specialize (Hfull Hr). lia. }
  unfold read_exact. rewrite length_app, Nat2Z.id, (proj2 (Nat.ltb_ge _ _)) by lia.
  rewrite take_app_length, drop_app_length.
  rewrite (proj2 (Z.ltb_ge u64_max first)) by (unfold u64_max, u32_max in *; lia).
  cbn [existsb]. unfold chunk_exceeds at 1. cbn [mc_chunk_index].
  destruct (u32_max <? first)%Z eqn:Hbig; [done|]. apply Z.ltb_ge in Hbig. cbn [orb].
  unfold u64_checked_add. rewrite (proj2 (Z.leb_le _ _)) by lia.
  replace (offset + Z.of_nat (length piece + length rest))%Z
    with (offset + Z.of_nat (length piece) + Z.of_nat (length rest))%Z by lia.
  rewrite IH by lia. by destruct (existsb chunk_exceeds chunks).
Qed.

(** The files of a manifest, numbered from [nfiles], with all their chunks. *)
Inductive listed : Z -> Z -> list (string * bytes) -> list ArtifactManifestFile ->
    list ArtifactManifestChunk -> Prop :=
| listed_nil nfiles nchunks : listed nfiles nchunks [] [] []
| listed_cons nfiles nchunks text data here l files chunks :
    tiles nfiles nchunks 0 data here ->
    listed (nfiles + 1) (nchunks + Z.of_nat (length here)) l files chunks ->
    listed nfiles nchunks ((text, data) :: l)
      (MkFile nfiles text (Z.of_nat (length data)) (hex8 (crc32c data)) :: files) (here ++ chunks).

Lemma listed_exist l : forall nfiles nchunks, ∃ files chunks, listed nfiles nchunks l files chunks.
Proof.
  induction l as [|[text data] l IH]; intros nfiles nchunks; [exists [], []; constructor|].
  destruct (tiles_exist nfiles (length data) data nchunks 0) as (here & Hh); [done|].
  destruct (IH (nfiles + 1)%Z (nchunks + Z.of_nat (length here))%Z) as (files & chunks & Hl).
  eexists _, _. by econstructor.
Qed.

Definition file_exceeds (f : ArtifactManifestFile) : bool := (u32_max <? mf_file_index f)%Z.

Context `{!Crc32cLaws} `{FileReadsLaws}.

Lemma checksum_loop_exact reads : forall c,
  Forall (fun r => r ≠ []) reads -> checksum_loop c reads = crc32c_append c (concat reads).
Proof.
  induction reads as [|r reads IH]; intros c Hr; cbn; [by rewrite crc32c_append_nil|].
  apply Forall_cons in Hr as [Hne Hr]. rewrite <- crc32c_append_app, <- IH by done.
  by destruct r.
Qed.

Lemma tiles_bound file_index first offset data chunks :
  tiles file_index first offset data chunks -> (first <= u32_max + 1)%Z ->
  existsb chunk_exceeds chunks = false -> (first + Z.of_nat (length chunks) <= u32_max + 1)%Z.
Proof.
  induction 1 as [|first offset piece rest chunks _ _ _ _ IH]; intros Hf He; [simpl; lia|].
  cbn [existsb length] in *. apply orb_false_iff in He as [He Hes].
  unfold chunk_exceeds in He. apply Z.ltb_ge in He. simpl in He. specialize (IH ltac:(lia) Hes). lia.
Qed.

(** What [add_files] is given: paths and what their files hold. *)
Definition holds (cwd : path) (s : fs) (a : string * path) (b : string * bytes) : Prop :=
  a.1 = b.1 ∧ read_file cwd s a.2 = Ok b.2 ∧ (Z.of_nat (length b.2) <= u64_max)%Z.

Definition exceeds (files : list ArtifactManifestFile) (chunks : list ArtifactManifestChunk) : bool :=
  existsb file_exceeds files || existsb chunk_exceeds chunks.

Definition counted {A} (files : list ArtifactManifestFile) (chunks : list ArtifactManifestChunk)
    (r : result A manifest_error) (a : A) : Prop :=
  if exceeds files chunks then r = Err FileIndexExceeds ∨ r = Err ChunkIndexExceeds else r = Ok a.

Lemma chunks_for_file_exact cwd s p data i first here :
  read_file cwd s p = Ok data -> (Z.of_nat (length data) <= u64_max)%Z -> (first <= u32_max + 1)%Z ->
  tiles i first 0 data here ->
  chunks_for_file cwd s p i first cs =
  if existsb chunk_exceeds here then Err ChunkIndexExceeds else Ok here.
Proof.
  intros Hr Hsize Hfirst Ht. unfold chunks_for_file. rewrite Hr. cbn [io].
  destruct data as [|b data].
  - inversion Ht as [|? ? piece rest ? Hp]; [done|]. by destruct piece.
  - rewrite (proj2 (Z.eqb_neq _ _)) by (cbn [length]; lia).
    by apply (chunk_loop_exact i first 0 (b :: data) here Ht).
Qed.

Lemma add_files_exact cwd s nfiles nchunks ld files chunks :
  listed nfiles nchunks ld files chunks -> forall l, Forall2 (holds cwd s) l ld ->
  (nchunks <= u32_max + 1)%Z ->
  counted files chunks (add_files cwd s cs l nfiles nchunks) (files, chunks).
Proof.
  unfold counted, exceeds.
  induction 1 as [|nfiles nchunks text data here ld files chunks Ht _ IH]; intros l Hl Hn.
  { by apply Forall2_nil_inv_r in Hl as ->. }
  apply Forall2_cons_inv_r in Hl as ([t p] & l' & (Htext & Hread & Hsize) & Hl & ->).
  cbn in Htext, Hread, Hsize. subst t. cbn [add_files]. rewrite Hread. cbn [io existsb].
  unfold file_exceeds at 1. cbn [mf_file_index].
  destruct (u32_max <? nfiles)%Z; [by left|]. cbn [orb].
  unfold file_checksum. rewrite Hread. cbn [io].
  rewrite checksum_loop_exact, concat_file_reads by apply file_reads_nonempty.
  rewrite (chunks_for_file_exact _ _ _ _ _ _ _ Hread Hsize Hn Ht), existsb_app.
  destruct (existsb chunk_exceeds here) eqn:He.
  { rewrite orb_true_r. by right. }
  cbn [orb]. specialize (IH l' Hl (tiles_bound _ _ _ _ _ Ht Hn He)).
  destruct (existsb file_exceeds files || existsb chunk_exceeds chunks).
  - destruct IH as [-> | ->]; [by left|by right].
  - by rewrite IH.
Qed.
End chunks.

(** ** The manifest of a directory *)

(** The regular files below a directory, by the text of their paths. *)
Definition content (s : fs) (p : path) : bytes :=
  match s !! p with Some (FileNode data) => data | _ => [] end.

Section found.
Context (cwd : path) (s : fs) (Hwf : fs_wf s) (names : list string).
Context (Hdir : s !! abs names = Some DirNode).

(** A file with its path text. *)
Definition entry_of_file (y : string * path) : Prop :=
  ∃ rest data, rest ≠ [] ∧ y = (path_text (names ++ rest), abs (names ++ rest)) ∧
    s !! abs (names ++ rest) = Some (FileNode data).

Lemma abs_names_prefix m : abs names `prefix_of` abs m -> ∃ rest, m = names ++ rest.
Proof.
  intros [q Hq]. injection Hq as Hq. apply map_eq_app in Hq as (a & b & -> & Ha & _).
  apply map_Normal_inj in Ha as ->. by exists b.
Qed.

Lemma paths_found :
  ∃ paths, collect_regular_files cwd s (S (size s)) (abs names) (abs names) = Ok paths ∧
    NoDup paths ∧ forall p, p ∈ paths ↔
      ∃ rest data, rest ≠ [] ∧ p = abs (names ++ rest) ∧ s !! p = Some (FileNode data).
Proof.
  destruct (collect_exact cwd s Hwf (S (size s)) (abs names) names) as (paths & Hc & Hnd & Hp);
    [done|done| |].
  { intros p x Hx Hpre. destruct (wf_key s Hwf p x Hx) as (m & -> & _).
    destruct (abs_names_prefix m Hpre) as [rest ->]. by eapply depth_bound. }
  exists paths. split_and!; [done|done|]. intros p. rewrite Hp. split.
  - intros (n & rest & data & -> & Hf). by exists (n :: rest), data.
  - intros ([|n rest] & data & Hne & -> & Hf); [done|]. by exists n, rest, data.
Qed.

Definition with_text (p : path) : result (string * path) manifest_error :=
  let? manifest_path := manifest_path p in Ok (manifest_path, p).

Lemma files_found paths :
  NoDup paths ->
  (forall p, p ∈ paths ↔
     ∃ rest data, rest ≠ [] ∧ p = abs (names ++ rest) ∧ s !! p = Some (FileNode data)) ->
  (∃ rest data, rest ≠ [] ∧ s !! abs (names ++ rest) = Some (FileNode data) ∧
     forallb is_utf8 (names ++ rest) = false ∧
     try_map with_text paths = Err (NotUtf8 (abs (names ++ rest)))) ∨
  (∃ ys, try_map with_text paths = Ok ys ∧ NoDup ys ∧ (forall y, y ∈ ys ↔ entry_of_file y) ∧
     forall rest data, rest ≠ [] -> s !! abs (names ++ rest) = Some (FileNode data) ->
       forallb is_utf8 (names ++ rest) = true).
Proof.
  intros Hnd Hp.
  assert (forall p, p ∈ paths -> ∃ rest data, rest ≠ [] ∧ p = abs (names ++ rest) ∧
    s !! p = Some (FileNode data) ∧ with_text p =
    if forallb is_utf8 (names ++ rest) then Ok (path_text (names ++ rest), p)
    else Err (NotUtf8 p)) as Hwith.
  { intros p (rest & data & Hne & -> & Hf)%Hp. exists rest, data. split_and!; [done..|].
    unfold with_text. rewrite manifest_path_abs by by destruct names, rest.
    by destruct (forallb is_utf8 (names ++ rest)). }
  destruct (try_map with_text paths) as [ys|e] eqn:Hys.
  - right. exists ys. apply try_map_ok in Hys.
    assert (Forall2 (fun p y => y.2 = p ∧ entry_of_file y ∧
      forall rest, p = abs (names ++ rest) -> forallb is_utf8 (names ++ rest) = true) paths ys) as Hall.
    { apply Forall2_same_length_lookup. split; [by eapply Forall2_length|]. intros i p y Hpi Hyi.
      pose proof (Forall2_lookup_lr _ _ _ _ _ _ Hys Hpi Hyi) as Hy. cbv beta in Hy.
      destruct (Hwith p) as (rest & data & Hne & -> & Hf & Hw); [by eapply list_elem_of_lookup_2|].
      rewrite Hw in Hy. destruct (forallb is_utf8 (names ++ rest)) eqn:Hu; [|done].
      injection Hy as <-. split_and!; [done|by exists rest, data|].
      intros rest' [= Hr]. by apply map_Normal_inj, app_inv_head in Hr as <-. }
    assert (ys.*2 = paths) as Hsnd.
    { clear -Hall. induction Hall as [|p y paths ys [Hy _] _ IH]; [done|]. cbn. by rewrite Hy, IH. }
    assert (forall y, y ∈ ys -> entry_of_file y) as Hentry.
    { intros y [i Hy]%list_elem_of_lookup.
      by destruct (Forall2_lookup_r _ _ _ _ _ Hall Hy) as (p & _ & _ & ? & _). }
    split_and!; [done|apply (NoDup_fmap_1 snd); by rewrite Hsnd|intros y; split; [apply Hentry|]|].
    + intros (rest & data & Hne & -> & Hf).
      assert (abs (names ++ rest) ∈ ys.*2) as Hin by (rewrite Hsnd; apply Hp; eauto).
      apply list_elem_of_fmap in Hin as ([t p] & Heq & Hin). cbn in Heq. subst p.
      destruct (Hentry _ Hin) as (rest' & data' & _ & [= -> Hr] & _).
      by apply map_Normal_inj, app_inv_head in Hr as ->.
    + intros rest data Hne Hf. assert (abs (names ++ rest) ∈ paths) as Hin by (apply Hp; eauto).
      apply list_elem_of_lookup in Hin as [i Hi].
      destruct (Forall2_lookup_l _ _ _ _ _ Hall Hi) as (y & _ & _ & _ & Hu). by apply Hu.
  - left. apply try_map_err in Hys as (p & Hin & Hw').
    destruct (Hwith p Hin) as (rest & data & Hne & -> & Hf & Hw). exists rest, data.
    rewrite Hw in Hw'. destruct (forallb is_utf8 (names ++ rest)); [done|]. injection Hw' as <-. done.
Qed.

Lemma entry_names_ok rest data :
  s !! abs (names ++ rest) = Some (FileNode data) -> Forall file_name_ok (names ++ rest).
Proof.
  intros Hf. destruct (wf_key s Hwf _ _ Hf) as (m & Hm & Hok).
  injection Hm as Hm. by apply map_Normal_inj in Hm as ->.
Qed.

Lemma texts_distinct ys : NoDup ys -> (forall y, y ∈ ys ↔ entry_of_file y) -> NoDup ys.*1.
Proof.
  intros Hnd Hys. apply NoDup_fmap_2_strong; [|done].
  intros y1 y2 (r1 & d1 & Hn1 & -> & Hf1)%Hys (r2 & d2 & Hn2 & -> & Hf2)%Hys Heq. cbn in Heq.
  apply path_text_inj in Heq as ->; [done|..].
  - by destruct names, r1.
  - by destruct names, r2.
  - by eapply entry_names_ok.
  - by eapply entry_names_ok.
Qed.

Lemma entry_holds y : entry_of_file y -> holds cwd s y (y.1, content s y.2).
Proof.
  intros (rest & data & _ & -> & Hf). unfold holds, content. cbn. rewrite Hf. split; [done|].
  split; [|by eapply wf_size]. unfold read_file. by rewrite (canonicalize_entry cwd s Hwf _ _ Hf), Hf.
Qed.
End found.

Lemma sorted_texts (ys : list (string * path)) (f : path -> bytes) :
  StronglySorted (fun a b => by_path a b = true) ys ->
  StronglySorted (fun a b => String.leb a b = true) (map (fun y => (y.1, f y.2)) ys).*1.
Proof.
  induction 1 as [|y ys _ IH Hall]; cbn; constructor; [done|].
  rewrite Forall_fmap, Forall_map. exact Hall.
Qed.

Section manifest.
Context `{Crc32cLaws} `{FileReadsLaws}.

(** C38: the manifest of a directory has exactly the regular files below it that are
    reached without links, each once, in the order of their path texts, with their sizes
    and checksums; its chunks are, file by file, the pieces of the files in order, every
    piece of the chunk size except the last of a file, numbered through, with their
    offsets and checksums.  The other outcomes are exactly these errors: a chunk size of
    zero, one above the maximum, a file whose canonical path is not UTF-8 (which the error
    names), and a file or chunk that would get a number beyond u32. *)
Theorem from_directory_exact cwd s root names chunk_size mx_source_type :
  fs_wf s ->
  canonicalize cwd s root = Ok (abs names) -> s !! abs names = Some DirNode ->
  let answer := from_directory cwd s root chunk_size mx_source_type in
  let file rest data := rest ≠ [] ∧ s !! abs (names ++ rest) = Some (FileNode data) in
  (chunk_size = 0%Z -> answer = Err ZeroChunkSize) ∧
  ((MAX_ARTIFACT_TRANSFER_CHUNK_SIZE < chunk_size)%Z -> answer = Err (ChunkSizeTooLarge chunk_size)) ∧
  ((0 < chunk_size <= MAX_ARTIFACT_TRANSFER_CHUNK_SIZE)%Z ->
   (∃ rest data, file rest data ∧ forallb is_utf8 (names ++ rest) = false ∧
      answer = Err (NotUtf8 (abs (names ++ rest)))) ∨
   ((forall rest data, file rest data -> forallb is_utf8 (names ++ rest) = true) ∧
    ∃ contents files chunks,
      (forall text data, (text, data) ∈ contents ↔
         ∃ rest, file rest data ∧ text = path_text (names ++ rest)) ∧
      NoDup contents.*1 ∧ StronglySorted (fun a b => String.leb a b = true) contents.*1 ∧
      listed chunk_size 0 0 contents files chunks ∧
      counted files chunks answer (MkManifest 1 mx_source_type chunk_size files chunks))).
Proof.
  intros Hwf Hroot Hdir answer file. split_and!.
  { by intros ->. }
  { intros Hbig. unfold answer, from_directory. rewrite (proj2 (Z.ltb_lt _ chunk_size)) by done.
    rewrite (proj2 (Z.eqb_neq chunk_size 0)); [done|]. unfold MAX_ARTIFACT_TRANSFER_CHUNK_SIZE in *. lia. }
  intros Hcs. destruct (paths_found cwd s Hwf names Hdir) as (paths & Hc & Hndp & Hp).
  assert (answer = let? manifest_files := try_map with_text paths in
    let? added := add_files cwd s chunk_size (sort_by by_path manifest_files) 0 0 in
    let '(files, chunks) := added in
    Ok (MkManifest 1 mx_source_type chunk_size files chunks)) as Hans.
  { unfold answer, from_directory. unfold MAX_ARTIFACT_TRANSFER_CHUNK_SIZE in *.
    rewrite (proj2 (Z.eqb_neq chunk_size 0)), (proj2 (Z.ltb_ge _ chunk_size)) by lia.
    rewrite Hroot. cbn [io]. unfold is_dir_at. rewrite bool_decide_eq_true_2 by done. cbn [negb].
    by rewrite Hc. }
  destruct (files_found s names Hdir paths Hndp Hp)
    as [(rest & data & Hne & Hf & Hu & Herr)|(ys & Hys & Hnd & Hin & Hutf)].
  { left. exists rest, data. rewrite Hans, Herr. by split_and!. }
  right. split; [by intros rest data [Hne Hf]; eapply Hutf|].
  set (sorted := sort_by by_path ys) in *.
  assert (forall y, y ∈ sorted ↔ entry_of_file s names y) as Hs.
  { intros y. unfold sorted. by rewrite elem_of_sort_by. }
  set (contents := map (fun y => (y.1, content s y.2)) sorted).
  destruct (listed_exist chunk_size ltac:(lia) contents 0 0) as (files & chunks & Hl).
  exists contents, files, chunks. split_and!.
  - intros text data. unfold contents, file. rewrite list_elem_of_fmap. split.
    + intros (y & [= -> ->] & (rest & data' & Hne & -> & Hf)%Hs). exists rest.
      cbn. unfold content. rewrite Hf. by split_and!.
    + intros (rest & [Hne Hf] & ->). eexists (_, abs (names ++ rest)).
      split; [|apply Hs; by exists rest, data]. cbn. unfold content. by rewrite Hf.
  - unfold contents. rewrite map_map. change (NoDup sorted.*1).
    apply (texts_distinct s Hwf names); [done|unfold sorted; by rewrite sort_by_perm|exact Hs].
  - unfold contents. apply sorted_texts, sort_by_sorted;
      [intros ??; apply String.leb_total|intros ???; apply string_leb_trans].
  - done.
  - rewrite Hans, Hys. fold sorted. unfold counted.
    assert (Forall2 (holds cwd s) sorted contents) as Hholds.
    { unfold contents. apply Forall2_fmap_r, Forall_Forall2_diag, Forall_forall.
      intros y Hy%Hs. by apply entry_holds with names. }
    pose proof (add_files_exact chunk_size cwd s _ _ _ _ _ Hl sorted Hholds) as Hadd.
    unfold counted in Hadd. specialize (Hadd ltac:(unfold u32_max; lia)).
    destruct (exceeds files chunks); [destruct Hadd as [-> | ->]; [by left|by right]|by rewrite Hadd].
Qed.
End manifest.

(** ** A run: the directory of the unit test *)

(** CRC-32C, bit by bit. *)
Definition crc_shift (crc : Z) : Z :=
  if Z.testbit crc 0 then Z.lxor (Z.shiftr crc 1) 2197175160 else Z.shiftr crc 1.

Definition crc_byte (crc : Z) (b : Byte.byte) : Z :=
  Nat.iter 8 crc_shift (Z.lxor crc (Z.of_N (Byte.to_N b))).

#[export] Instance crc32c_bits : Crc32c :=
  {| crc32c_append c data := Z.lxor (fold_left crc_byte data (Z.lxor c u32_max)) u32_max |}.

#[export] Instance crc32c_bits_laws : Crc32cLaws.
Proof.
  split.
  - intros c a b. cbn. rewrite fold_left_app. do 2 f_equal.
    by rewrite Z.lxor_assoc, Z.lxor_nilpotent, Z.lxor_0_r.
  - intros c. cbn. by rewrite Z.lxor_assoc, Z.lxor_nilpotent, Z.lxor_0_r.
Qed.

#[export] Instance whole_reads : FileReads :=
  {| file_reads data := match data with [] => [] | _ => [data] end |}.

#[export] Instance whole_reads_laws : FileReadsLaws.
Proof.
  split; intros [|b data]; cbn; [done|by rewrite app_nil_r|constructor|by repeat constructor].
Qed.

Definition sample_store : fs :=
  <[abs [] := DirNode]> (<[abs ["tmp"] := DirNode]> (<[abs ["tmp"; "nested"] := DirNode]>
  (<[abs ["tmp"; "nested"; "b.bin"] := FileNode (list_byte_of_string "abcdef")]>
  (<[abs ["tmp"; "a.txt"] := FileNode (list_byte_of_string "xyz")]>
  (<[abs ["tmp"; "link"] := SymlinkNode (abs [])]> ∅))))).

Lemma parent_names names n l : abs (names ++ [n]) = abs l -> names = removelast l ∧ l ≠ [].
Proof.
  intros [= H%map_Normal_inj]. subst l. rewrite removelast_last. split; [done|]. by destruct names.
Qed.

Lemma sample_wf : fs_wf sample_store.
Proof.
  split; unfold sample_store.
  - intros p x Hp.
    repeat (apply lookup_insert_Some in Hp as [[<- _]|[_ Hp]];
      [eexists; split; [reflexivity|]; repeat (apply Forall_cons; split); try apply Forall_nil_2;
       (split_and!; [discriminate..|vm_compute; reflexivity])|]).
    by rewrite lookup_empty in Hp.
  - intros names n x Hp.
    repeat (apply lookup_insert_Some in Hp as [[Heq _]|[_ Hp]];
      [symmetry in Heq; apply parent_names in Heq as [-> Hne]; vm_compute; (reflexivity || done)|]).
    by rewrite lookup_empty in Hp.
  - intros p data Hp.
    repeat (apply lookup_insert_Some in Hp as [[_ Heq]|[_ Hp]];
      [first [discriminate Heq | injection Heq as <-; vm_compute; discriminate]|]).
    by rewrite lookup_empty in Hp.
Qed.

Lemma sample_manifest :
  from_directory [] sample_store (abs ["tmp"]) 4 2 =
  Ok (MkManifest 1 2 4
        [MkFile 0 "/tmp/a.txt" 3 "25236885"; MkFile 1 "/tmp/nested/b.bin" 6 "53bceff1"]
        [MkChunk 0 0 0 3 "25236885"; MkChunk 1 1 0 4 "92c80a31"; MkChunk 2 1 4 2 "6bb2dff5"]).
Proof. vm_compute. reflexivity. Qed.

Lemma from_directory_exact_witness :
  ∃ contents files chunks,
    (forall text data, (text, data) ∈ contents ↔
       ∃ rest, (rest ≠ [] ∧ sample_store !! abs (["tmp"] ++ rest) = Some (FileNode data)) ∧
         text = path_text (["tmp"] ++ rest)) ∧
    listed 4 0 0 contents files chunks ∧
    counted files chunks (from_directory [] sample_store (abs ["tmp"]) 4 2)
      (MkManifest 1 2 4 files chunks).
Proof.
  destruct (from_directory_exact [] sample_store (abs ["tmp"]) ["tmp"] 4 2 sample_wf)
    as (_ & _ & Hall).
  - vm_compute. reflexivity.
  - vm_compute. reflexivity.
  - destruct Hall as [(rest & data & _ & _ & Herr)|(_ & contents & files & chunks & Hc & _ & _ & Hl & Hm)].
    + vm_compute. split; [reflexivity|discriminate].
    + rewrite sample_manifest in Herr. discriminate Herr.
    + exists contents, files, chunks. exact (conj Hc (conj Hl Hm)).
Defined.
