(* ===== verification/MetaServer.v ===== *)
(** * The Kubernetes API server as the P2P backend uses it

    Two kinds of objects, the ModelMetadata resources with their status and the config
    maps of tensor descriptors.  As in KubeServer the server is not part of the program:
    [MetaApi] names the requests, [MetaApiLaws] states what they promise, [meta_db] is a
    concrete server.  A write is refused when the object is missing (404), exists (409)
    or has another version (409), and for reasons of the server's own under other codes. *)

From Stdlib Require Import ZArith Lia Ascii String.
From stdpp Require Import base tactics option list gmap fin_maps strings.
From S2P Require Import Prelude RustStr RedisStore P2pTypes Json KubeServer.

Record owner_ref : Type := MkOwnerRef {
  or_api_version : string; or_kind : string; or_name : string; or_uid : string;
  or_controller : option bool; or_block_owner_deletion : option bool
}.

#[export] Instance owner_ref_eq_dec : EqDecision owner_ref.
Proof. solve_decision. Defined.

Record meta_object : Type := MkMeta {
  mo_version : Z;
  mo_uid : string;
  mo_generation : Z;
  mo_labels : gmap string string;
  mo_owners : list owner_ref;
  mo_model_name : string;
  mo_source_type : string;
  mo_status : option json
}.

Record config_map : Type := MkConfigMap {
  cm_labels : gmap string string;
  cm_owners : option (list owner_ref);
  cm_data : gmap string string
}.

(** No object of the value repeats a key. *)
Fixpoint json_unique (v : json) : bool :=
  match v with
  | JArr l => forallb json_unique l
  | JObj fields => bool_decide (NoDup fields.*1) && forallb (fun kv => json_unique kv.2) fields
  | _ => true
  end.

Definition set_version (v : Z) (o : meta_object) : meta_object :=
  MkMeta v (mo_uid o) (mo_generation o) (mo_labels o) (mo_owners o) (mo_model_name o)
    (mo_source_type o) (mo_status o).

Definition set_label (k v : string) (o : meta_object) : meta_object :=
  MkMeta (mo_version o) (mo_uid o) (mo_generation o) (<[k := v]> (mo_labels o)) (mo_owners o)
    (mo_model_name o) (mo_source_type o) (mo_status o).

Definition set_owners (owners : list owner_ref) (o : meta_object) : meta_object :=
  MkMeta (mo_version o) (mo_uid o) (mo_generation o) (mo_labels o) owners (mo_model_name o)
    (mo_source_type o) (mo_status o).

Definition set_status_of (status : json) (o : meta_object) : meta_object :=
  MkMeta (mo_version o) (mo_uid o) (mo_generation o) (mo_labels o) (mo_owners o) (mo_model_name o)
    (mo_source_type o) (Some status).

(** A merge patch of the status. *)
Definition merge_status (patch : json) (o : meta_object) : meta_object :=
  set_status_of (merge_json patch (default JNull (mo_status o))) o.

(** A merge patch of a config map: fields that are left out stay. *)
Definition merge_config_map (patch old : config_map) : config_map :=
  MkConfigMap (cm_labels patch ∪ cm_labels old)
    (match cm_owners patch with Some l => Some l | None => cm_owners old end)
    (cm_data patch ∪ cm_data old).

Class MetaApi (K : Type) := {
  meta_get : string -> K -> option meta_object;
  (** A listing under a label selector. *)
  meta_list : string -> K -> list (string * meta_object);
  meta_create : string -> gmap string string -> list owner_ref -> string -> string -> K ->
    K * api_result unit;
  meta_patch_label : string -> string -> string -> K -> K * api_result unit;
  meta_patch_owners : string -> list owner_ref -> K -> K * api_result unit;
  meta_patch_status : string -> Z -> json -> K -> K * api_result unit;
  meta_delete : string -> K -> K * api_result unit;
  cm_get : string -> K -> option config_map;
  cm_list : string -> K -> list string;
  cm_create : string -> config_map -> K -> K * api_result unit;
  cm_merge : string -> config_map -> K -> K * api_result unit;
  cm_delete : string -> K -> K * api_result unit;
  meta_revision : K -> Z
}.

Section views.
Context {K : Type} `{MetaApi K}.

Definition meta_put (name : string) (o : option meta_object) (k k' : K) : Prop :=
  forall n, meta_get n k' = if decide (n = name) then o else meta_get n k.
Definition cm_put (name : string) (o : option config_map) (k k' : K) : Prop :=
  forall n, cm_get n k' = if decide (n = name) then o else cm_get n k.
Definition meta_same (k k' : K) : Prop := forall n, meta_get n k' = meta_get n k.
Definition cm_same (k k' : K) : Prop := forall n, cm_get n k' = cm_get n k.

(** An object is changed: it gets a new version unless nothing changes. *)
Definition meta_update (name : string) (o o' : meta_object) (k k' : K) : Prop :=
  ∃ version, meta_put name (Some (set_version version o')) k k' ∧ cm_same k k' ∧
    ((meta_revision k < version)%Z ∨ set_version version o' = o).

(** A refused request, with another code than the ones given. *)
Definition refused (codes : list Z) (k k' : K) (r : api_result unit) : Prop :=
  meta_same k k' ∧ cm_same k k' ∧ ∃ code, r = ApiError code ∧ code ∉ codes.

(** The outcome of a change of one object. *)
Definition patch_outcome (name : string) (f : meta_object -> meta_object) (k k' : K)
    (r : api_result unit) : Prop :=
  match meta_get name k with
  | None => meta_same k k' ∧ cm_same k k' ∧ r = ApiError 404
  | Some o => (meta_update name o (f o) k k' ∧ r = ApiOk ()) ∨ refused [404%Z; 409%Z] k k' r
  end.
End views.

Class MetaApiLaws (K : Type) `{MetaApi K} : Prop := {
  meta_version_bound : forall n o (k : K),
    meta_get n k = Some o -> (mo_version o <= meta_revision k)%Z;
  meta_generation_i64 : forall n o (k : K),
    meta_get n k = Some o -> (i64_min <= mo_generation o <= i64_max)%Z;
  meta_status_unique : forall n o st (k : K),
    meta_get n k = Some o -> mo_status o = Some st -> json_unique st = true;
  elem_of_meta_list_all : forall n o (k : K), (n, o) ∈ meta_list "" k ↔ meta_get n k = Some o;
  meta_list_NoDup : forall selector (k : K), NoDup (meta_list selector k).*1;
  meta_create_spec : forall n labels owners m ty (k : K),
    let '(k', r) := meta_create n labels owners m ty k in
    (meta_revision k <= meta_revision k')%Z ∧
    match meta_get n k with
    | Some _ => meta_same k k' ∧ cm_same k k' ∧ r = ApiError 409
    | None =>
        (∃ version uid generation,
           meta_put n (Some (MkMeta version uid generation labels owners m ty None)) k k' ∧
           cm_same k k' ∧ (meta_revision k < version)%Z ∧ r = ApiOk ()) ∨
        refused [404%Z; 409%Z] k k' r
    end;
  meta_patch_label_spec : forall n l v (k : K),
    let '(k', r) := meta_patch_label n l v k in
    (meta_revision k <= meta_revision k')%Z ∧ patch_outcome n (set_label l v) k k' r;
  meta_patch_owners_spec : forall n owners (k : K),
    let '(k', r) := meta_patch_owners n owners k in
    (meta_revision k <= meta_revision k')%Z ∧ patch_outcome n (set_owners owners) k k' r;
  meta_patch_status_spec : forall n version patch (k : K),
    let '(k', r) := meta_patch_status n version patch k in
    (meta_revision k <= meta_revision k')%Z ∧
    match meta_get n k with
    | Some o =>
        if (mo_version o =? version)%Z then patch_outcome n (merge_status patch) k k' r
        else meta_same k k' ∧ cm_same k k' ∧ r = ApiError 409
    | None => meta_same k k' ∧ cm_same k k' ∧ r = ApiError 404
    end;
  meta_delete_spec : forall n (k : K),
    let '(k', r) := meta_delete n k in
    (meta_revision k <= meta_revision k')%Z ∧
    match r with
    | ApiOk _ => is_Some (meta_get n k) ∧ meta_put n None k k'
    | ApiError code => meta_same k k' ∧ (meta_get n k = None ↔ code = 404%Z)
    end;
  cm_create_spec : forall n cm (k : K),
    let '(k', r) := cm_create n cm k in
    (meta_revision k <= meta_revision k')%Z ∧ meta_same k k' ∧
    match r with
    | ApiOk _ => cm_get n k = None ∧ cm_put n (Some cm) k k'
    | ApiError code => cm_same k k' ∧ (is_Some (cm_get n k) ↔ code = 409%Z)
    end;
  cm_merge_spec : forall n cm (k : K),
    let '(k', r) := cm_merge n cm k in
    (meta_revision k <= meta_revision k')%Z ∧ meta_same k k' ∧
    match r with
    | ApiOk _ => ∃ old, cm_get n k = Some old ∧ cm_put n (Some (merge_config_map cm old)) k k'
    | ApiError _ => cm_same k k'
    end;
  cm_delete_spec : forall n (k : K),
    let '(k', _) := cm_delete n k in
    (meta_revision k <= meta_revision k')%Z ∧ meta_same k k'
}.

(** ** A concrete server *)

Definition status_ok (o : meta_object) : bool :=
  match mo_status o with Some st => json_unique st | None => true end
  && (i64_min <=? mo_generation o)%Z && (mo_generation o <=? i64_max)%Z.

Definition objects_ok (revision : Z) (objects : gmap string meta_object) : Prop :=
  map_Forall (fun _ o => (mo_version o <= revision)%Z ∧ status_ok o = true) objects.

Record meta_db : Type := MkMetaDb {
  md_objects : gmap string meta_object;
  md_maps : gmap string config_map;
  md_revision : Z;
  md_ok : bool_decide (objects_ok md_revision md_objects) = true
}.

Lemma meta_db_ok (d : meta_db) n o :
  md_objects d !! n = Some o -> (mo_version o <= md_revision d)%Z ∧ status_ok o = true.
Proof. destruct d as [m c r Hb]. cbn. pose proof (proj1 (bool_decide_eq_true _) Hb) as Hall. apply Hall. Qed.

(** One object under the next revision; a status that is not admitted changes nothing. *)
Program Definition md_put (n : string) (o : meta_object) (d : meta_db) : meta_db :=
  MkMetaDb (if status_ok o then <[n := set_version (md_revision d + 1) o]> (md_objects d) else md_objects d)
    (md_maps d) (md_revision d + 1) _.
Next Obligation.
  intros n o d. apply bool_decide_eq_true. intros n' o' Ho'.
  assert (forall n o, md_objects d !! n = Some o -> (mo_version o <= md_revision d + 1)%Z ∧ status_ok o = true)
    as Hold.
  { intros n0 o0 H0. destruct (meta_db_ok d n0 o0 H0). split; [lia|done]. }
  destruct (status_ok o) eqn:Hok; [|by apply (Hold n')].
  apply lookup_insert_Some in Ho' as [[_ <-]|[_ Ho']]; [|by apply (Hold n')].
  split; [cbn; lia|done].
Qed.

Program Definition md_remove (n : string) (d : meta_db) : meta_db :=
  MkMetaDb (delete n (md_objects d)) (md_maps d) (md_revision d + 1) _.
Next Obligation.
  intros n d. apply bool_decide_eq_true. intros n' o' [_ Ho']%lookup_delete_Some.
  destruct (meta_db_ok d n' o' Ho'). split; [lia|done].
Qed.

Definition md_with_maps (maps : gmap string config_map) (d : meta_db) : meta_db :=
  MkMetaDb (md_objects d) maps (md_revision d) (md_ok d).

Program Definition meta_empty : meta_db := MkMetaDb ∅ ∅ 0 _.
Next Obligation. apply bool_decide_eq_true, map_Forall_empty. Qed.

(** A change of an object that the server admits. *)
Definition md_patch (n : string) (f : meta_object -> meta_object) (d : meta_db) : meta_db * api_result unit :=
  match md_objects d !! n with
  | None => (d, ApiError 404)
  | Some o => if status_ok (f o) then (md_put n (f o) d, ApiOk ()) else (d, ApiError 422)
  end.

Definition selects (selector : string) (labels : gmap string string) : bool :=
  match split_once "=" selector with
  | Some (key, value) => bool_decide (labels !! key = Some value)
  | None => true
  end.

#[export] Instance meta_db_api : MetaApi meta_db | 100 := {|
  meta_get n d := md_objects d !! n;
  meta_list selector d :=
    filter (fun no : string * meta_object => selects selector (mo_labels no.2) = true) (map_to_list (md_objects d));
  meta_create n labels owners m ty d :=
    match md_objects d !! n with
    | Some _ => (d, ApiError 409)
    | None => (md_put n (MkMeta 0 ("uid-" +:+ n) 1 labels owners m ty None) d, ApiOk ())
    end;
  meta_patch_label n l v := md_patch n (set_label l v);
  meta_patch_owners n owners := md_patch n (set_owners owners);
  meta_patch_status n version patch d :=
    match md_objects d !! n with
    | Some o => if (mo_version o =? version)%Z then md_patch n (merge_status patch) d else (d, ApiError 409)
    | None => (d, ApiError 404)
    end;
  meta_delete n d :=
    match md_objects d !! n with Some _ => (md_remove n d, ApiOk ()) | None => (d, ApiError 404) end;
  cm_get n d := md_maps d !! n;
  cm_list selector d :=
    (filter (fun nc : string * config_map => selects selector (cm_labels nc.2) = true) (map_to_list (md_maps d))).*1;
  cm_create n cm d :=
    match md_maps d !! n with
    | Some _ => (d, ApiError 409)
    | None => (md_with_maps (<[n := cm]> (md_maps d)) d, ApiOk ())
    end;
  cm_merge n cm d :=
    match md_maps d !! n with
    | Some old => (md_with_maps (<[n := merge_config_map cm old]> (md_maps d)) d, ApiOk ())
    | None => (d, ApiError 404)
    end;
  cm_delete n d :=
    match md_maps d !! n with
    | Some _ => (md_with_maps (delete n (md_maps d)) d, ApiOk ())
    | None => (d, ApiError 404)
    end;
  meta_revision := md_revision
|}.

Lemma md_put_get n o (d : meta_db) :
  status_ok o = true -> meta_put n (Some (set_version (md_revision d + 1) o)) d (md_put n o d).
Proof. intros Hok n'. cbn. rewrite Hok. case_decide; subst; by rewrite ?lookup_insert_eq, ?lookup_insert_ne. Qed.

Lemma md_patch_outcome n f (d : meta_db) :
  let '(d', r) := md_patch n f d in
  (md_revision d <= md_revision d')%Z ∧ patch_outcome n f d d' r.
Proof.
  unfold md_patch, patch_outcome. cbn [meta_get meta_db_api].
  destruct (md_objects d !! n) as [o|]; [|split; [lia|done]].
  destruct (status_ok (f o)) eqn:Hok.
  - split; [cbn; lia|]. left. split; [|done]. exists (md_revision d + 1)%Z.
    split; [by apply md_put_get|]. split; [done|]. left. cbn. lia.
  - split; [lia|]. right. split; [done|]. split; [done|]. exists 422%Z. split; [done|]. set_solver.
Qed.

Lemma meta_db_list_NoDup selector (d : meta_db) : NoDup (meta_list selector d).*1.
Proof.
  cbn. eapply sublist_NoDup; [apply (NoDup_fst_map_to_list (md_objects d))|].
  apply fmap_sublist, sublist_filter.
Qed.

#[export] Instance meta_db_laws : MetaApiLaws meta_db | 100.
Proof.
  split.
  - intros n o d Ho. by apply (meta_db_ok d n o).
  - intros n o d Ho. destruct (meta_db_ok d n o Ho) as [_ Hok]. unfold status_ok in Hok. lia.
  - intros n o st d Ho Hst. destruct (meta_db_ok d n o Ho) as [_ Hok]. unfold status_ok in Hok.
    rewrite Hst in Hok. by apply andb_true_iff in Hok as [[? _]%andb_true_iff _].
  - intros n o d. cbn. rewrite list_elem_of_filter, elem_of_map_to_list. naive_solver.
  - apply meta_db_list_NoDup.
  - intros n labels owners m ty d. cbn. destruct (md_objects d !! n) eqn:Ho; [split; [lia|done]|].
    cbn. split; [lia|]. left. exists (md_revision d + 1)%Z, ("uid-" +:+ n), 1%Z.
    split; [|split; [done|split; [lia|done]]].
    apply (md_put_get n (MkMeta 0 ("uid-" +:+ n) 1 labels owners m ty None)). done.
  - intros n l v d. apply md_patch_outcome.
  - intros n owners d. apply md_patch_outcome.
  - intros n version patch d. cbn. destruct (md_objects d !! n) as [o|] eqn:Ho; [|split; [lia|done]].
    destruct (mo_version o =? version)%Z; [apply md_patch_outcome|split; [lia|done]].
  - intros n d. cbn. destruct (md_objects d !! n) as [o|] eqn:Ho; cbn; (split; [lia|]).
    + split; [done|]. intros n'. cbn. case_decide; subst; by rewrite ?lookup_delete_eq, ?lookup_delete_ne.
    + done.
  - intros n cm d. cbn. destruct (md_maps d !! n) as [old|] eqn:Ho; cbn; (split; [lia|]); (split; [done|]).
    + split; [done|]. split; [by intros _|by eexists].
    + split; [done|]. intros n'. cbn. case_decide; subst; by rewrite ?lookup_insert_eq, ?lookup_insert_ne.
  - intros n cm d. cbn. destruct (md_maps d !! n) as [old|] eqn:Ho; cbn; (split; [lia|]); (split; [done|]).
    + exists old. split; [done|]. intros n'. cbn. case_decide; subst; by rewrite ?lookup_insert_eq, ?lookup_insert_ne.
    + done.
  - intros n d. cbn. by destruct (md_maps d !! n).
Qed.
