(* ===== verification/P2pKube.v ===== *)
(** * Kubernetes backend of the P2P metadata (p2p/backend/kubernetes.rs, p2p/k8s_types.rs)

    One ModelMetadata resource per source and worker, whose status is JSON that the
    derived serde forms write and read, and one config map with the tensors.  Every
    method is a program of requests to the API server and readings of the clock.
    Status writes go out as merge patches under the version that was read, with at
    most five attempts. *)

From Stdlib Require Import ZArith Lia Ascii String QArith.
From stdpp Require Import base tactics option list sorting gmap fin_maps strings pretty.
From S2P Require Import Prelude RustStr RedisStore RedisProg P2pTypes SourceIdentityHash P2pBackend.
From S2P Require Import Json KubeServer MetaServer.

(** [base64::STANDARD]. *)
Class Base64 := {
  b64_encode : list Byte.byte -> string;
  b64_decode : string -> option (list Byte.byte)
}.

Class Base64Laws `{Base64} : Prop := {
  b64_decode_encode : forall l, b64_decode (b64_encode l) = Some l;
  b64_encode_empty : forall l, b64_encode l = "" ↔ l = []
}.

(** [serde_json::to_string_pretty]. *)
Class JsonPretty := { json_pretty : json -> string }.

Class JsonPrettyLaws `{JsonText} `{JsonPretty} : Prop := {
  json_parse_pretty : forall v, json_ok v = true -> json_parse (json_pretty v) = Some v
}.

(** [DateTime::from_timestamp_millis], on nanoseconds. *)
Class ChronoMillis := { from_timestamp_millis : Z -> option Z }.

Class ChronoMillisLaws `{ChronoMillis} : Prop := {
  from_timestamp_millis_exact : forall ms t, from_timestamp_millis ms = Some t -> t = (ms * 1000000)%Z
}.

Definition timestamp_millis (t : Z) : Z := t / 1000000.
Definition timestamp (t : Z) : Z := t / 1000000000.

(** [as i32] and [as u32]. *)
Definition as_i32 (z : Z) : Z :=
  let m := (z mod 2 ^ 32)%Z in if (m <? 2 ^ 31)%Z then m else (m - 2 ^ 32)%Z.
Definition as_u32 (z : Z) : Z := (z mod 2 ^ 32)%Z.

Module KubeMeta.

Inductive KubeMetaError : Type :=
| ApiFailed (code : Z)
| Undecodable
| Identity (message : string)
| BelongsTo (namespace : string)
| NixlUndecodable
| ArtifactSize (total_size : Z)
| NoStatus
| NoWorker
| OutOfRetries
| MissingTensors
| InvalidTensor (text name : string).

Abbreviation MetadataResult A := (result A KubeMetaError).

Definition OWNER_NAMESPACE_LABEL : string := "modelexpress.nvidia.com/owner-namespace".
Definition SOURCE_ID_LABEL : string := "modelexpress.nvidia.com/mx-source-id".
Definition WORKER_ID_LABEL : string := "modelexpress.nvidia.com/mx-worker-id".
Definition WORKER_LABEL : string := "modelexpress.nvidia.com/worker".

(** ** The resource *)

Definition source_type_name_from_proto (mx_source_type : Z) : string :=
  match mx_source_type with
  | 0 => "weights" | 1 => "lora" | 2 => "cuda_graph" | 3 => "torch_compile_cache"
  | 4 => "triton_cache" | 5 => "deep_gemm_cache" | 6 => "tilelang_cache" | 7 => "cute_dsl_cache"
  | 8 => "flashinfer_cache" | 9 => "tvm_ffi_cache" | _ => "unknown"
  end%Z.

Record ArtifactSourceStatus : Type := MkArtifactStatus {
  as_artifact_id : string; as_total_size : Z; as_file_count : Z; as_chunk_count : Z; as_node_rank : Z
}.

Record WorkerStatus : Type := MkWorkerStatus {
  ws_worker_rank : Z;
  ws_backend_type : option string;
  ws_nixl_metadata : string;
  ws_transfer_engine_session_id : option string;
  ws_tensor_count : Z;
  ws_tensor_config_map : option string;
  ws_status : string;
  ws_updated_at : option string;
  ws_metadata_endpoint : string;
  ws_agent_name : string;
  ws_worker_grpc_endpoint : string;
  ws_accelerator : string;
  ws_source_load : option f32;
  ws_topology : gmap string string;
  ws_artifact_source : option ArtifactSourceStatus
}.

Record Condition : Type := MkCondition {
  co_type : string; co_status : string; co_reason : option string; co_message : option string;
  co_last_transition_time : option string
}.

Record ModelMetadataStatus : Type := MkMetadataStatus {
  st_worker : option WorkerStatus;
  st_conditions : list Condition;
  st_observed_generation : Z;
  st_published_at : option string
}.

Definition default_metadata_status : ModelMetadataStatus := MkMetadataStatus None [] 0 None.

Record TensorDescriptorJson : Type := MkTensorDescriptorJson {
  tdj_name : string; tdj_addr : string; tdj_size : string; tdj_device_id : Z; tdj_dtype : string
}.

Definition status_name_from_proto (status : Z) : string :=
  match status with 0 => "Unknown" | 1 => "Initializing" | 2 => "Ready" | 3 => "Stale" | _ => "Unknown" end%Z.

Definition status_proto_from_name (name : string) : Z :=
  if String.eqb name "Initializing" then 1
  else if String.eqb name "Ready" then 2
  else if String.eqb name "Stale" then 3
  else 0.

(** ** JSON forms *)

Section json_forms.
Context `{JsonText} `{HashIter}.

Definition artifact_fields (a : ArtifactSourceStatus) : list (string * json) :=
  [("artifactId", JStr (as_artifact_id a)); ("totalSize", JInt (as_total_size a));
   ("fileCount", JInt (as_file_count a)); ("chunkCount", JInt (as_chunk_count a));
   ("nodeRank", JInt (as_node_rank a))].

Definition ser_artifact (a : ArtifactSourceStatus) : json := JObj (artifact_fields a).

Definition de_artifact : json -> option ArtifactSourceStatus := de_struct (fun fs =>
  artifact_id ← de_required de_string fs "artifactId";
  total_size ← de_required de_i64 fs "totalSize";
  file_count ← de_required de_u32 fs "fileCount";
  chunk_count ← de_required de_u32 fs "chunkCount";
  node_rank ← de_default de_u32 0%Z fs "nodeRank";
  Some (MkArtifactStatus artifact_id total_size file_count chunk_count node_rank)).

Definition worker_fields (w : WorkerStatus) : list (string * json) :=
  [("workerRank", JInt (ws_worker_rank w)); ("backendType", ser_option JStr (ws_backend_type w));
   ("nixlMetadata", JStr (ws_nixl_metadata w));
   ("transferEngineSessionId", ser_option JStr (ws_transfer_engine_session_id w));
   ("tensorCount", JInt (ws_tensor_count w));
   ("tensorConfigMap", ser_option JStr (ws_tensor_config_map w)); ("status", JStr (ws_status w));
   ("updatedAt", ser_option JStr (ws_updated_at w));
   ("metadataEndpoint", JStr (ws_metadata_endpoint w)); ("agentName", JStr (ws_agent_name w));
   ("workerGrpcEndpoint", JStr (ws_worker_grpc_endpoint w)); ("accelerator", JStr (ws_accelerator w));
   ("sourceLoad", ser_option ser_f32 (ws_source_load w)); ("topology", ser_map (ws_topology w));
   ("artifactSource", ser_option ser_artifact (ws_artifact_source w))].

Definition ser_worker (w : WorkerStatus) : json := JObj (worker_fields w).

Definition de_worker : json -> option WorkerStatus := de_struct (fun fs =>
  worker_rank ← de_required de_i32 fs "workerRank";
  backend_type ← de_default (de_option de_string) None fs "backendType";
  nixl_metadata ← de_default de_string "" fs "nixlMetadata";
  session_id ← de_default (de_option de_string) None fs "transferEngineSessionId";
  tensor_count ← de_default de_i32 0%Z fs "tensorCount";
  tensor_config_map ← de_default (de_option de_string) None fs "tensorConfigMap";
  status ← de_default de_string "Unknown" fs "status";
  updated_at ← de_default (de_option de_string) None fs "updatedAt";
  metadata_endpoint ← de_default de_string "" fs "metadataEndpoint";
  agent_name ← de_default de_string "" fs "agentName";
  worker_grpc_endpoint ← de_default de_string "" fs "workerGrpcEndpoint";
  accelerator ← de_default de_string "" fs "accelerator";
  source_load ← de_default (de_option de_f32) None fs "sourceLoad";
  topology ← de_default de_map ∅ fs "topology";
  artifact_source ← de_default (de_option de_artifact) None fs "artifactSource";
  Some (MkWorkerStatus worker_rank backend_type nixl_metadata session_id tensor_count
    tensor_config_map status updated_at metadata_endpoint agent_name worker_grpc_endpoint
    accelerator source_load topology artifact_source)).

Definition ser_condition (c : Condition) : json :=
  JObj [("type", JStr (co_type c)); ("status", JStr (co_status c));
    ("reason", ser_option JStr (co_reason c)); ("message", ser_option JStr (co_message c));
    ("lastTransitionTime", ser_option JStr (co_last_transition_time c))].

Definition de_condition : json -> option Condition := de_struct (fun fs =>
  type_ ← de_required de_string fs "type";
  status ← de_required de_string fs "status";
  reason ← de_default (de_option de_string) None fs "reason";
  message ← de_default (de_option de_string) None fs "message";
  last_transition_time ← de_default (de_option de_string) None fs "lastTransitionTime";
  Some (MkCondition type_ status reason message last_transition_time)).

Definition de_status : json -> option ModelMetadataStatus := de_struct (fun fs =>
  worker ← de_default (de_option de_worker) None fs "worker";
  conditions ← de_default (de_list de_condition) [] fs "conditions";
  observed_generation ← de_default de_i64 0%Z fs "observedGeneration";
  published_at ← de_default (de_option de_string) None fs "publishedAt";
  Some (MkMetadataStatus worker conditions observed_generation published_at)).

Definition ser_tensor (t : TensorDescriptorJson) : json :=
  JObj [("name", JStr (tdj_name t)); ("addr", JStr (tdj_addr t)); ("size", JStr (tdj_size t));
    ("device_id", JInt (tdj_device_id t)); ("dtype", JStr (tdj_dtype t))].

Definition de_tensor : json -> option TensorDescriptorJson := de_struct (fun fs =>
  name ← de_required de_string fs "name";
  addr ← de_required de_string fs "addr";
  size ← de_required de_string fs "size";
  device_id ← de_required de_u32 fs "device_id";
  dtype ← de_required de_string fs "dtype";
  Some (MkTensorDescriptorJson name addr size device_id dtype)).

(** A ModelMetadata as the client library hands it out. *)
Record ModelMetadata : Type := MkModelMetadata {
  cr_name : string;
  cr_object : meta_object;
  cr_status : option ModelMetadataStatus
}.

Definition decode_meta (name : string) (o : meta_object) : option ModelMetadata :=
  match mo_status o with
  | None => Some (MkModelMetadata name o None)
  | Some JNull => Some (MkModelMetadata name o None)
  | Some st => s ← de_status st; Some (MkModelMetadata name o (Some s))
  end.
End json_forms.

Definition owner_namespace_of (cr : ModelMetadata) : option string :=
  mo_labels (cr_object cr) !! OWNER_NAMESPACE_LABEL.

(** ** Conditions *)

(** The first condition of a type is updated in place; the transition time only when
    the status changes. *)
Fixpoint update_condition (now : string) (type_ status reason message : string) (l : list Condition)
    : option (list Condition) :=
  match l with
  | [] => None
  | c :: l' =>
      if String.eqb (co_type c) type_
      then Some (MkCondition (co_type c) status (Some reason) (Some message)
                   (if String.eqb (co_status c) status then co_last_transition_time c else Some now) :: l')
      else (fun l' => c :: l') <$> update_condition now type_ status reason message l'
  end.

Definition set_condition (now : string) (type_ status reason message : string) (l : list Condition)
    : list Condition :=
  match update_condition now type_ status reason message l with
  | Some l' => l'
  | None => l ++ [MkCondition type_ status (Some reason) (Some message) (Some now)]
  end.

Definition update_ready_condition (now : string) (worker_proto_status : Z) (l : list Condition)
    : list Condition :=
  if (worker_proto_status =? 2)%Z
  then set_condition now "Ready" "True" "WorkerReady" "Worker is ready" l
  else set_condition now "Ready" "False"
         ("Worker" +:+ status_name_from_proto worker_proto_status) "Worker is not ready" l.

(** ** Conversions *)

Definition artifact_status_from (r : ArtifactSourceMetadataRecord) : MetadataResult ArtifactSourceStatus :=
  if (ar_total_size r <=? i64_max)%Z
  then Ok (MkArtifactStatus (ar_artifact_id r) (ar_total_size r) (ar_file_count r) (ar_chunk_count r)
             (ar_node_rank r))
  else Err (ArtifactSize (ar_total_size r)).

Definition artifact_record_from (s : ArtifactSourceStatus) : MetadataResult ArtifactSourceMetadataRecord :=
  if (0 <=? as_total_size s)%Z
  then Ok (MkArtifactSourceMetadataRecord (as_artifact_id s) (as_total_size s) (as_file_count s)
             (as_chunk_count s) (as_node_rank s))
  else Err (ArtifactSize (as_total_size s)).

(** [map(try_from).transpose()]. *)
Definition transpose {A B E} (f : A -> result B E) (o : option A) : result (option B) E :=
  match o with Some a => let? b := f a in Ok (Some b) | None => Ok None end.

Definition tensor_json_from (t : TensorRecord) : TensorDescriptorJson :=
  MkTensorDescriptorJson (tr_name t) (decimal (tr_addr t)) (decimal (tr_size t)) (tr_device_id t)
    (tr_dtype t).

Definition tensor_record_from (t : TensorDescriptorJson) : MetadataResult TensorRecord :=
  match parse_unsigned u64_max (tdj_addr t) with
  | None => Err (InvalidTensor (tdj_addr t) (tdj_name t))
  | Some addr =>
      match parse_unsigned u64_max (tdj_size t) with
      | None => Err (InvalidTensor (tdj_size t) (tdj_name t))
      | Some size => Ok (MkTensorRecord (tdj_name t) addr size (tdj_device_id t) (tdj_dtype t))
      end
  end.

Fixpoint tensor_records (l : list TensorDescriptorJson) : MetadataResult (list TensorRecord) :=
  match l with
  | [] => Ok []
  | t :: l => let? r := tensor_record_from t in let? rs := tensor_records l in Ok (r :: rs)
  end.

(** ** The world of a method *)

Record world (K : Type) : Type := MkWorld { w_kube : K; w_wall : Z }.
Arguments MkWorld {K} _ _.
Arguments w_kube {K} _.
Arguments w_wall {K} _.

Definition source_cr_name (source_id worker_id : string) : string :=
  "mx-source-" +:+ source_id +:+ "-" +:+ worker_id.

Definition tensor_cm_name (cr_name : string) (worker_rank : Z) : string :=
  cr_name +:+ "-tensors-worker-" +:+ decimal worker_rank.

Definition pod_owner_references (pod_name pod_uid pod_namespace metadata_namespace : string)
    : option (list owner_ref) :=
  if str_is_empty pod_name || str_is_empty pod_uid || str_is_empty pod_namespace
     || negb (String.eqb pod_namespace metadata_namespace)
  then None
  else Some [MkOwnerRef "v1" "Pod" pod_name pod_uid (Some false) (Some false)].

Section methods.
Context {K : Type} `{MetaApi K} `{JsonText} `{JsonPretty} `{HashIter} `{Base64} `{Rfc3339}.
Context `{ChronoMillis} `{ToLowercase} `{IdDigest}.

Abbreviation W := (world K).

Definition request {A} (cmd : K -> K * A) : prog W A :=
  Call (fun w => let '(k, a) := cmd (w_kube w) in (MkWorld k (w_wall w), a)) Ret.

Definition utc_now : prog W Z := Read w_wall Ret.

(** A request whose only answer is whether it succeeded. *)
Definition request_ok (cmd : K -> K * api_result unit) : prog W (MetadataResult unit) :=
  let! r := request cmd in
  Ret (match r with ApiOk _ => Ok () | ApiError code => Err (ApiFailed code) end).

Definition get_opt (name : string) : prog W (MetadataResult (option ModelMetadata)) :=
  let! o := request (fun k => (k, meta_get name k)) in
  Ret (match o with
       | None => Ok None
       | Some o => match decode_meta name o with Some cr => Ok (Some cr) | None => Err Undecodable end
       end).

Definition get (name : string) : prog W (MetadataResult ModelMetadata) :=
  try! o := get_opt name in
  Ret (match o with Some cr => Ok cr | None => Err (ApiFailed 404) end).

(** A listing: one object that cannot be decoded fails it. *)
Definition list_crs (selector : string) : prog W (MetadataResult (list ModelMetadata)) :=
  let! items := request (fun k => (k, meta_list selector k)) in
  Ret (match mapM (fun no : string * meta_object => decode_meta no.1 no.2) items with
       | Some crs => Ok crs
       | None => Err Undecodable
       end).

Definition source_selector (source_id : string) : string := SOURCE_ID_LABEL +:+ "=" +:+ source_id.

(** ** Tensor config maps *)

Definition tensor_config_map (source_id : string) (worker_rank : Z) (tensors : list TensorRecord)
    (owner_name owner_uid : string) : config_map :=
  MkConfigMap
    (<[WORKER_LABEL := decimal worker_rank]> {[SOURCE_ID_LABEL := source_id]})
    (Some [MkOwnerRef "modelexpress.nvidia.com/v1alpha1" "ModelMetadata" owner_name owner_uid
             (Some true) (Some true)])
    {["tensors.json" := json_pretty (JArr (ser_tensor <$> (tensor_json_from <$> tensors)))]}.

Definition upsert_tensor_configmap (source_id worker_id : string) (worker_rank : Z)
    (tensors : list TensorRecord) (owner_name owner_uid : string) : prog W (MetadataResult string) :=
  let cm_name := tensor_cm_name (source_cr_name source_id worker_id) worker_rank in
  let cm := tensor_config_map source_id worker_rank tensors owner_name owner_uid in
  let! r := request (cm_create cm_name cm) in
  match r with
  | ApiOk _ => Ret (Ok cm_name)
  | ApiError code =>
      if (code =? 409)%Z
      then try! _ := request_ok (cm_merge cm_name cm) in Ret (Ok cm_name)
      else Ret (Err (ApiFailed code))
  end.

Definition read_tensors (cm : option config_map) : MetadataResult (list TensorRecord) :=
  match cm with
  | None => Err (ApiFailed 404)
  | Some cm =>
      match cm_data cm !! "tensors.json" with
      | None => Err MissingTensors
      | Some text =>
          match from_str (de_list de_tensor) text with
          | None => Err Undecodable
          | Some l => tensor_records l
          end
      end
  end.

Definition read_tensor_configmap (cm_name : string) : prog W (MetadataResult (list TensorRecord)) :=
  let! cm := request (fun k => (k, cm_get cm_name k)) in Ret (read_tensors cm).

(** ** Publication *)

(** The first requests: the resource exists afterwards. *)
Definition ensure_cr (name source_id worker_id : string) (owner : option string)
    (owner_references : option (list owner_ref)) (identity : SourceIdentity)
    : prog W (MetadataResult unit) :=
  try! existing := get_opt name in
  match existing with
  | Some _ => Ret (Ok ())
  | None =>
      let labels :=
        <[WORKER_ID_LABEL := worker_id]> {[SOURCE_ID_LABEL := source_id]} in
      let labels := match owner with Some o => <[OWNER_NAMESPACE_LABEL := o]> labels | None => labels end in
      let! r := request (meta_create name labels (default [] owner_references) (si_model_name identity)
                           (source_type_name_from_proto (si_mx_source_type identity))) in
      Ret (match r with
           | ApiOk _ => Ok ()
           | ApiError code => if (code =? 409)%Z then Ok () else Err (ApiFailed code)
           end)
  end.

(** The check of the namespace that owns the resource; one without an owner is taken. *)
Definition check_owner (name : string) (owner : option string) (cr : ModelMetadata)
    : prog W (MetadataResult unit) :=
  match owner with
  | None => Ret (Ok ())
  | Some owner =>
      match owner_namespace_of cr with
      | Some existing => Ret (if String.eqb existing owner then Ok () else Err (BelongsTo existing))
      | None => request_ok (meta_patch_label name OWNER_NAMESPACE_LABEL owner)
      end
  end.

Definition set_pod_owner (name : string) (owner_references : option (list owner_ref))
    (cr : ModelMetadata) : prog W (MetadataResult unit) :=
  match owner_references with
  | Some refs =>
      if bool_decide (mo_owners (cr_object cr) = refs) then Ret (Ok ())
      else request_ok (meta_patch_owners name refs)
  | None => Ret (Ok ())
  end.

Definition worker_status_from (r : WorkerRecord) (cm_name now : string) : MetadataResult WorkerStatus :=
  let? artifact := transpose artifact_status_from (wr_artifact_source r) in
  Ok (MkWorkerStatus (as_i32 (wr_worker_rank r)) (Some (backend_type_str (wr_backend_metadata r)))
        (match wr_backend_metadata r with BNixl data => b64_encode data | _ => "" end)
        (match wr_backend_metadata r with BTransferEngine sid => Some sid | _ => None end)
        (as_i32 (Z.of_nat (length (wr_tensors r)))) (Some cm_name)
        (status_name_from_proto (wr_status r)) (Some now) (wr_metadata_endpoint r)
        (wr_agent_name r) (wr_worker_grpc_endpoint r) (wr_accelerator r) (wr_source_load r)
        (wr_topology r) artifact).

Definition MAX_RETRIES : nat := 5.

(** The status of a publication, as a merge patch. *)
Definition publish_patch (worker : WorkerStatus) (now : string) (conditions : list Condition)
    (generation : Z) : json :=
  JObj [("worker", ser_worker worker); ("publishedAt", JStr now);
    ("conditions", JArr (ser_condition <$> conditions)); ("observedGeneration", JInt generation)].

Fixpoint publish_attempts (attempts : nat) (name : string) (worker : WorkerStatus) (now : string)
    (proto_status : Z) : prog W (MetadataResult unit) :=
  match attempts with
  | O => Ret (Err OutOfRetries)
  | S attempts =>
      try! current := get name in
      let! now_condition := utc_now in
      let status := default default_metadata_status (cr_status current) in
      let conditions :=
        update_ready_condition (to_rfc3339 now_condition) proto_status (st_conditions status) in
      let! r := request (meta_patch_status name (mo_version (cr_object current))
                  (publish_patch worker now conditions (mo_generation (cr_object current)))) in
      match r with
      | ApiOk _ => Ret (Ok ())
      | ApiError code =>
          if (code =? 409)%Z then publish_attempts attempts name worker now proto_status
          else Ret (Err (ApiFailed code))
      end
  end.

Definition publish_metadata (namespace : string) (identity : SourceIdentity) (worker_id : string)
    (worker : WorkerMetadata) (pod_name pod_uid pod_namespace : string)
    (owner_namespace : option string) : prog W (MetadataResult unit) :=
  match compute_mx_source_id identity with
  | Err e => Ret (Err (Identity e))
  | Ok source_id =>
      let name := source_cr_name source_id worker_id in
      let! now := utc_now in
      let record := WorkerRecord_from worker in
      let owner_references := pod_owner_references pod_name pod_uid pod_namespace namespace in
      try! _ := ensure_cr name source_id worker_id owner_namespace owner_references identity in
      try! cr := get name in
      try! _ := check_owner name owner_namespace cr in
      try! _ := set_pod_owner name owner_references cr in
      try! cm_name := upsert_tensor_configmap source_id worker_id (wr_worker_rank record)
                        (wr_tensors record) (cr_name cr) (mo_uid (cr_object cr)) in
      match worker_status_from record cm_name (to_rfc3339 now) with
      | Err e => Ret (Err e)
      | Ok status => publish_attempts MAX_RETRIES name status (to_rfc3339 now) (wr_status record)
      end
  end.

(** ** Reading *)

(** A stored time in milliseconds, 0 when there is none. *)
Definition stored_millis (text : option string) : Z :=
  match text ≫= parse_from_rfc3339 with Some t => timestamp_millis t | None => 0 end.

Definition decode_nixl (w : WorkerStatus) : MetadataResult (list Byte.byte) :=
  if str_is_empty (ws_nixl_metadata w) then Ok []
  else match b64_decode (ws_nixl_metadata w) with Some l => Ok l | None => Err NixlUndecodable end.

Definition worker_record_from (w : WorkerStatus) (nixl_bytes : list Byte.byte)
    (tensors : list TensorRecord) : MetadataResult WorkerRecord :=
  let? artifact := transpose artifact_record_from (ws_artifact_source w) in
  Ok (MkWorkerRecord (as_u32 (ws_worker_rank w))
        (from_flat nixl_bytes (ws_transfer_engine_session_id w) (ws_backend_type w)) tensors
        (status_proto_from_name (ws_status w)) (stored_millis (ws_updated_at w))
        (ws_metadata_endpoint w) (ws_agent_name w) (ws_worker_grpc_endpoint w) (ws_accelerator w)
        (ws_source_load w) (ws_topology w) artifact).

(** The tensors of a worker: none when the config map cannot be read. *)
Definition worker_tensors (w : WorkerStatus) : prog W (list TensorRecord) :=
  match ws_tensor_config_map w with
  | None => Ret []
  | Some cm_name =>
      let! r := read_tensor_configmap cm_name in
      Ret (match r with Ok tensors => tensors | Err _ => [] end)
  end.

Definition get_metadata (source_id worker_id : string)
    : prog W (MetadataResult (option ModelMetadataRecord)) :=
  try! cr := get_opt (source_cr_name source_id worker_id) in
  match cr with
  | None => Ret (Ok None)
  | Some cr =>
      match cr_status cr with
      | None => Ret (Ok None)
      | Some status =>
          let record workers :=
            MkModelMetadataRecord source_id worker_id (mo_model_name (cr_object cr)) workers
              (match st_published_at status ≫= parse_from_rfc3339 with
               | Some t => timestamp t | None => 0%Z end)
              (owner_namespace_of cr) None in
          match st_worker status with
          | None => Ret (Ok (Some (record [])))
          | Some w =>
              match decode_nixl w with
              | Err e => Ret (Err e)
              | Ok nixl_bytes =>
                  let! tensors := worker_tensors w in
                  Ret (let? r := worker_record_from w nixl_bytes tensors in Ok (Some (record [r])))
              end
          end
      end
  end.

Definition label_of (l : string) (cr : ModelMetadata) : string :=
  default "" (mo_labels (cr_object cr) !! l).

Definition worker_of (cr : ModelMetadata) : option WorkerStatus := cr_status cr ≫= st_worker.

(** One resource of a listing. *)
Definition listed_worker (status_filter : option SourceStatus) (cr : ModelMetadata)
    : option SourceInstanceInfo :=
  let worker := worker_of cr in
  let matches :=
    match status_filter with
    | None => true
    | Some required =>
        match worker with
        | Some w => String.eqb (ws_status w) (status_name_from_proto (SourceStatus_i32 required))
        | None => false
        end
    end in
  if matches
  then Some (MkSourceInstanceInfo (label_of SOURCE_ID_LABEL cr) (label_of WORKER_ID_LABEL cr)
               (mo_model_name (cr_object cr))
               (match worker with Some w => as_u32 (ws_worker_rank w) | None => 0%Z end)
               (match worker with Some w => status_proto_from_name (ws_status w) | None => 0%Z end)
               (match worker with Some w => stored_millis (ws_updated_at w) | None => 0%Z end)
               (match worker with Some w => ws_accelerator w | None => "" end)
               (worker ≫= ws_source_load)
               (match worker with Some w => ws_topology w | None => ∅ end)
               None None (owner_namespace_of cr))
  else None.

Definition list_workers (source_id : option string) (status_filter : option SourceStatus)
    : prog W (MetadataResult (list SourceInstanceInfo)) :=
  let selector := match source_id with Some sid => source_selector sid | None => "" end in
  try! crs := list_crs selector in
  Ret (Ok (omap (listed_worker status_filter) crs)).

(** The first resource of a source names its model; the answer is in order of the ids. *)
Definition seen_sources (crs : list ModelMetadata) : gmap string string :=
  foldl (fun seen cr =>
    match mo_labels (cr_object cr) !! SOURCE_ID_LABEL with
    | Some sid => match seen !! sid with Some _ => seen | None => <[sid := mo_model_name (cr_object cr)]> seen end
    | None => seen
    end) ∅ crs.

Definition list_sources : prog W (MetadataResult (list (string * string))) :=
  try! crs := list_crs "" in
  Ret (Ok (sort_by_fst (map_to_list (seen_sources crs)))).

(** ** Removal *)

Definition remove_worker (source_id worker_id : string) : prog W (MetadataResult unit) :=
  let! r := request (meta_delete (source_cr_name source_id worker_id)) in
  Ret (match r with
       | ApiOk _ => Ok ()
       | ApiError code => if (code =? 404)%Z then Ok () else Err (ApiFailed code)
       end).

Fixpoint delete_crs (names : list string) : prog W (MetadataResult unit) :=
  match names with
  | [] => Ret (Ok ())
  | name :: names =>
      let! r := request (meta_delete name) in
      match r with
      | ApiOk _ => delete_crs names
      | ApiError code => if (code =? 404)%Z then delete_crs names else Ret (Err (ApiFailed code))
      end
  end.

(** The sweep of the config maps ignores what it cannot delete. *)
Fixpoint delete_config_maps (names : list string) : prog W (MetadataResult unit) :=
  match names with
  | [] => Ret (Ok ())
  | name :: names => let! _ := request (cm_delete name) in delete_config_maps names
  end.

Definition remove_metadata (source_id : string) : prog W (MetadataResult unit) :=
  try! crs := list_crs (source_selector source_id) in
  try! _ := delete_crs (cr_name <$> crs) in
  let! cms := request (fun k => (k, cm_list (source_selector source_id) k)) in
  delete_config_maps cms.

(** ** Status updates *)

Definition with_heartbeat (name : string) (updated_at : string) (load : option f32) (w : WorkerStatus)
    : WorkerStatus :=
  MkWorkerStatus (ws_worker_rank w) (ws_backend_type w) (ws_nixl_metadata w)
    (ws_transfer_engine_session_id w) (ws_tensor_count w) (ws_tensor_config_map w) name
    (Some updated_at) (ws_metadata_endpoint w) (ws_agent_name w) (ws_worker_grpc_endpoint w)
    (ws_accelerator w) load (ws_topology w) (ws_artifact_source w).

Definition update_patch (worker : WorkerStatus) (conditions : list Condition) (generation : Z) : json :=
  JObj [("worker", ser_worker worker); ("conditions", JArr (ser_condition <$> conditions));
    ("observedGeneration", JInt generation)].

Fixpoint update_attempts (attempts : nat) (name : string) (status : SourceStatus) (updated_at : string)
    (load : option f32) : prog W (MetadataResult unit) :=
  match attempts with
  | O => Ret (Err OutOfRetries)
  | S attempts =>
      try! current := get name in
      match cr_status current with
      | None => Ret (Err NoStatus)
      | Some crd_status =>
          match st_worker crd_status with
          | None => Ret (Err NoWorker)
          | Some worker =>
              let proto := SourceStatus_i32 status in
              let worker := with_heartbeat (status_name_from_proto proto) updated_at load worker in
              let! now_condition := utc_now in
              let conditions :=
                update_ready_condition (to_rfc3339 now_condition) proto (st_conditions crd_status) in
              let! r := request (meta_patch_status name (mo_version (cr_object current))
                          (update_patch worker conditions (mo_generation (cr_object current)))) in
              match r with
              | ApiOk _ => Ret (Ok ())
              | ApiError code =>
                  if (code =? 409)%Z then update_attempts attempts name status updated_at load
                  else Ret (Err (ApiFailed code))
              end
          end
      end
  end.

(** The rank only appears in messages. *)
Definition update_status (source_id worker_id : string) (worker_rank : Z) (status : SourceStatus) (updated_at : Z)
    (source_load : option f32) : prog W (MetadataResult unit) :=
  let name := source_cr_name source_id worker_id in
  match from_timestamp_millis updated_at with
  | Some t => update_attempts MAX_RETRIES name status (to_rfc3339 t) source_load
  | None =>
      let! now := utc_now in
      update_attempts MAX_RETRIES name status (to_rfc3339 now) source_load
  end.
End methods.
End KubeMeta.
