(* ===== verification/P2pKubeFacts.v ===== *)
(** * Stored statuses of the Kubernetes P2P backend

    What the API server makes of the backend's merge patches, read back through the
    derived deserialisers: every field of a worker is replaced, except for the topology,
    whose levels are merged with those that were stored. *)

From Stdlib Require Import ZArith Lia Ascii String QArith.
From stdpp Require Import base tactics option list sorting gmap fin_maps strings pretty.
From S2P Require Import Prelude RustStr RedisStore RedisProg P2pTypes SourceIdentityHash P2pBackend.
From S2P Require Import Json KubeServer MetaServer P2pKube.

Import KubeMeta.

(** ** Fields of a merged object *)

Section fields.
Context `{JsonText}.

Lemma merged_field fields target k v :
  NoDup fields.*1 -> (k, v) ∈ fields ->
  json_field (map_to_list (merge_fields fields (object_map target))) k =
  Some (patched (Some v) (object_map target !! k)).
Proof.
  intros Hnd Hin. rewrite json_field_map, merge_fields_lookup by done.
  by rewrite (elem_of_list_to_map_1 fields k v).
Qed.

Lemma merged_required {A} (de : json -> option A) fields target k v :
  NoDup fields.*1 -> (k, v) ∈ fields -> json_leaf v -> v ≠ JNull ->
  de_required de (map_to_list (merge_fields fields (object_map target))) k = de v.
Proof.
  intros Hnd Hin Hleaf Hnull. unfold de_required. rewrite (merged_field _ _ k v) by done.
  unfold patched. rewrite merge_json_leaf by done. by destruct v.
Qed.

Lemma merged_default {A} (de : json -> option A) d fields target k v :
  NoDup fields.*1 -> (k, v) ∈ fields -> json_leaf v -> v ≠ JNull ->
  de_default de d (map_to_list (merge_fields fields (object_map target))) k = de v.
Proof.
  intros Hnd Hin Hleaf Hnull. unfold de_default. rewrite (merged_field _ _ k v) by done.
  unfold patched. rewrite merge_json_leaf by done. by destruct v.
Qed.

(** Null removes a field, which then reads as absent. *)
Lemma merged_option {A} (de : json -> option A) fields target k v :
  NoDup fields.*1 -> (k, v) ∈ fields -> json_leaf v ->
  de_default (de_option de) None (map_to_list (merge_fields fields (object_map target))) k =
  de_option de v.
Proof.
  intros Hnd Hin Hleaf. unfold de_default. rewrite (merged_field _ _ k v) by done.
  unfold patched. rewrite merge_json_leaf by done. by destruct v.
Qed.

Lemma merged_struct {A} (de : json -> option A) fields target k sub a :
  NoDup fields.*1 -> (k, JObj sub) ∈ fields ->
  de (merge_json (JObj sub) (default JNull (object_map target !! k))) = Some a ->
  de_default (de_option de) None (map_to_list (merge_fields fields (object_map target))) k =
  Some (Some a).
Proof.
  intros Hnd Hin Hde. unfold de_default. rewrite (merged_field _ _ k (JObj sub)) by done.
  unfold patched. rewrite merge_json_object in *. unfold de_option. by rewrite Hde.
Qed.

Lemma patched_object sub old : patched (Some (JObj sub)) old = Some (merge_json (JObj sub) (default JNull old)).
Proof. done. Qed.

Lemma merged_map `{HashIter, !HashIterLaws} fields target k (m old : gmap string string) :
  NoDup fields.*1 -> (k, ser_map m) ∈ fields ->
  object_map (default JNull (object_map target !! k)) = string_fields old ->
  de_default de_map ∅ (map_to_list (merge_fields fields (object_map target))) k = Some (m ∪ old).
Proof.
  intros Hnd Hin Hold. unfold de_default. rewrite (merged_field _ _ k (ser_map m)) by done.
  unfold ser_map at 1. rewrite patched_object. by apply merge_map.
Qed.

Lemma merged_untouched fields target k :
  NoDup fields.*1 -> k ∉ fields.*1 ->
  json_field (map_to_list (merge_fields fields (object_map target))) k = Some (object_map target !! k).
Proof.
  intros Hnd Hk. rewrite json_field_map, merge_fields_lookup by done.
  by rewrite not_elem_of_list_to_map_1.
Qed.
End fields.

(** A concrete list of field names has no repetition, and a field is in it. *)
Ltac field_names :=
  cbn; match goal with |- ?P => refine (bool_decide_unpack P _) end; vm_compute; exact I.
Ltac field_in := cbn; repeat (first [left; reflexivity | right]).

Lemma bind_step {A B} (o : option A) (f : A -> option B) a r :
  o = Some a -> f a = r -> (o ≫= f) = r.
Proof. by intros ->. Qed.

Section leaves.
Context `{JsonText}.

Lemma option_str_leaf (o : option string) : json_leaf (ser_option JStr o).
Proof. by destruct o. Qed.

Lemma de_option_str (o : option string) : de_option de_string (ser_option JStr o) = Some o.
Proof. by destruct o. Qed.

Lemma load_leaf o : json_leaf (ser_option ser_f32 o).
Proof. by destruct o as [[]|]. Qed.
End leaves.

(** One field of a struct: the lemma says how it reads. *)
Ltac field_value :=
  first [ reflexivity | apply de_option_str | by apply de_ser_load | by apply de_int_in ].
Ltac field_step lem nodup :=
  refine (bind_step _ _ _ _ (eq_trans (lem nodup _ _ _) _) _) ||
  refine (bind_step _ _ _ _ (eq_trans (lem nodup _ _) _) _);
  [field_in | try (apply option_str_leaf || apply load_leaf || done).. | field_value | cbv beta].

(** ** Workers *)

Definition artifact_typed (a : ArtifactSourceStatus) : Prop :=
  (i64_min <= as_total_size a <= i64_max)%Z ∧ (0 <= as_file_count a <= u32_max)%Z ∧
  (0 <= as_chunk_count a <= u32_max)%Z ∧ (0 <= as_node_rank a <= u32_max)%Z.

(** The integers of a worker are in the ranges of their types. *)
Definition worker_typed (w : WorkerStatus) : Prop :=
  (- 2 ^ 31 <= ws_worker_rank w <= 2 ^ 31 - 1)%Z ∧ (- 2 ^ 31 <= ws_tensor_count w <= 2 ^ 31 - 1)%Z ∧
  load_typed (ws_source_load w) ∧ (forall a, ws_artifact_source w = Some a -> artifact_typed a).

(** A worker as it reads after a write over one with the topology [old]. *)
Definition over_topology (old : gmap string string) (w : WorkerStatus) : WorkerStatus :=
  MkWorkerStatus (ws_worker_rank w) (ws_backend_type w) (ws_nixl_metadata w)
    (ws_transfer_engine_session_id w) (ws_tensor_count w) (ws_tensor_config_map w) (ws_status w)
    (ws_updated_at w) (ws_metadata_endpoint w) (ws_agent_name w) (ws_worker_grpc_endpoint w)
    (ws_accelerator w) (stored_load (ws_source_load w)) (ws_topology w ∪ old) (ws_artifact_source w).

(** The topology of a stored worker, null or missing included. *)
Definition stored_topology (worker : json) (m : gmap string string) : Prop :=
  object_map (default JNull (object_map worker !! "topology")) = string_fields m.

Section workers.
Context `{JsonTextLaws} `{HashIter, !HashIterLaws}.

Lemma merge_artifact a target :
  artifact_typed a -> de_artifact (merge_json (ser_artifact a) target) = Some a.
Proof.
  intros (Ht & Hf & Hc & Hn). unfold ser_artifact. rewrite merge_json_object. unfold de_artifact, de_struct.
  assert (NoDup (artifact_fields a).*1) as Hnd by field_names.
  field_step (merged_required de_string (artifact_fields a) target "artifactId" (JStr (as_artifact_id a))) Hnd.
  field_step (merged_required de_i64 (artifact_fields a) target "totalSize" (JInt (as_total_size a))) Hnd.
  field_step (merged_required de_u32 (artifact_fields a) target "fileCount" (JInt (as_file_count a))) Hnd.
  field_step (merged_required de_u32 (artifact_fields a) target "chunkCount" (JInt (as_chunk_count a))) Hnd.
  field_step (merged_default de_u32 0%Z (artifact_fields a) target "nodeRank" (JInt (as_node_rank a))) Hnd.
  by destruct a.
Qed.

Lemma merge_worker w target old :
  worker_typed w -> stored_topology target old ->
  de_worker (merge_json (ser_worker w) target) = Some (over_topology old w).
Proof.
  intros (Hrank & Hcount & Hload & Hart) Htop. unfold ser_worker. rewrite merge_json_object.
  unfold de_worker, de_struct.
  assert (NoDup (worker_fields w).*1) as Hnd by field_names.
  field_step (merged_required de_i32 (worker_fields w) target "workerRank" (JInt (ws_worker_rank w))) Hnd.
  field_step (merged_option de_string (worker_fields w) target "backendType" (ser_option JStr (ws_backend_type w))) Hnd.
  field_step (merged_default de_string "" (worker_fields w) target "nixlMetadata" (JStr (ws_nixl_metadata w))) Hnd.
  field_step (merged_option de_string (worker_fields w) target "transferEngineSessionId"
                (ser_option JStr (ws_transfer_engine_session_id w))) Hnd.
  field_step (merged_default de_i32 0%Z (worker_fields w) target "tensorCount" (JInt (ws_tensor_count w))) Hnd.
  field_step (merged_option de_string (worker_fields w) target "tensorConfigMap" (ser_option JStr (ws_tensor_config_map w))) Hnd.
  field_step (merged_default de_string "Unknown" (worker_fields w) target "status" (JStr (ws_status w))) Hnd.
  field_step (merged_option de_string (worker_fields w) target "updatedAt" (ser_option JStr (ws_updated_at w))) Hnd.
  field_step (merged_default de_string "" (worker_fields w) target "metadataEndpoint" (JStr (ws_metadata_endpoint w))) Hnd.
  field_step (merged_default de_string "" (worker_fields w) target "agentName" (JStr (ws_agent_name w))) Hnd.
  field_step (merged_default de_string "" (worker_fields w) target "workerGrpcEndpoint" (JStr (ws_worker_grpc_endpoint w))) Hnd.
  field_step (merged_default de_string "" (worker_fields w) target "accelerator" (JStr (ws_accelerator w))) Hnd.
  field_step (merged_option de_f32 (worker_fields w) target "sourceLoad" (ser_option ser_f32 (ws_source_load w))) Hnd.
  refine (bind_step _ _ _ _ (merged_map (worker_fields w) target "topology" (ws_topology w) old Hnd _ Htop) _); [field_in|].
  refine (bind_step _ _ (ws_artifact_source w) _ _ _); [|by destruct w].
  destruct (ws_artifact_source w) as [a|] eqn:Ha.
  - apply (merged_struct _ _ _ _ (artifact_fields a)); [done| |apply merge_artifact; by apply Hart].
    unfold worker_fields. rewrite Ha. field_in.
  - apply (merged_option de_artifact (worker_fields w) target "artifactSource" JNull); [done| |done].
    unfold worker_fields. rewrite Ha. field_in.
Qed.
End workers.

(** ** Statuses *)

(** The topology that a stored status has for its worker. *)
Definition status_topology (s : ModelMetadataStatus) : gmap string string :=
  match st_worker s with Some w => ws_topology w | None => ∅ end.

Lemma unique_fields fields :
  json_unique (JObj fields) = true -> NoDup fields.*1 ∧ forall k v, (k, v) ∈ fields -> json_unique v = true.
Proof.
  cbn. intros [Hnd Hall]%andb_true_iff. apply bool_decide_eq_true in Hnd. split; [done|].
  intros k v Hin. rewrite forallb_forall in Hall. apply (Hall (k, v)). by apply list_elem_of_In.
Qed.

(** A value in the map of the fields is one of the fields. *)
Lemma object_map_unique target k v :
  json_unique target = true -> object_map target !! k = Some v -> json_unique v = true.
Proof.
  intros Hu Hk. destruct target as [| | | | | |fields]; try (cbn in Hk; by rewrite lookup_empty in Hk).
  apply unique_fields in Hu as [_ Hall]. apply (Hall k). by apply elem_of_list_to_map_2.
Qed.

Lemma no_stored_topology : stored_topology JNull ∅.
Proof. unfold stored_topology. cbn [object_map]. rewrite lookup_empty. symmetry. apply fmap_empty. Qed.

Section statuses.
Context `{JsonTextLaws} `{HashIter, !HashIterLaws}.

Lemma decoded_map_fields fields k m :
  json_unique (JObj fields) = true -> de_default de_map ∅ fields k = Some m ->
  object_map (default JNull (object_map (JObj fields) !! k)) = string_fields m.
Proof.
  intros Hu Hd. unfold de_default in Hd. destruct (json_field fields k) as [o|] eqn:Hf; [|done].
  apply json_field_lookup in Hf. cbn [object_map]. rewrite Hf. destruct o as [v|]; cbn [default from_option id].
  - destruct v as [| | | | | |sub]; try done. cbn [object_map]. apply de_map_fields; [|done].
    apply (object_map_unique _ k (JObj sub)) in Hu; [|done]. by apply unique_fields in Hu as [? _].
  - injection Hd as <-. symmetry. apply fmap_empty.
Qed.

Lemma decoded_worker_topology j w :
  json_unique j = true -> de_worker j = Some w -> stored_topology j (ws_topology w).
Proof.
  intros Hu Hd. destruct j as [| | | | | |fields]; try done. unfold de_worker, de_struct in Hd.
  repeat (apply bind_Some in Hd as (? & ? & Hd)). injection Hd as <-. cbn [ws_topology].
  by eapply decoded_map_fields.
Qed.

Lemma decoded_topology target s :
  json_unique target = true -> de_status target = Some s ->
  stored_topology (default JNull (object_map target !! "worker")) (status_topology s).
Proof.
  intros Hu Hd. destruct target as [| | | | | |fields]; try done. unfold de_status, de_struct in Hd.
  apply bind_Some in Hd as (wo & Hw & Hd). repeat (apply bind_Some in Hd as (? & ? & Hd)).
  injection Hd as <-. unfold status_topology. cbn [st_worker]. unfold de_default in Hw.
  destruct (json_field fields "worker") as [o|] eqn:Hf; [|done]. apply json_field_lookup in Hf.
  cbn [object_map]. destruct o as [v|]; rewrite Hf; cbn [default from_option id].
  - destruct v as [| | | | | |sub]; cbn [de_option] in Hw; try (by apply fmap_Some in Hw as (? & ? & _)).
    + injection Hw as <-. apply no_stored_topology.
    + apply fmap_Some in Hw as (w & Hw & ->). apply decoded_worker_topology; [|done].
      apply (object_map_unique _ "worker" (JObj sub)) in Hu; done.
  - injection Hw as <-. apply no_stored_topology.
Qed.

(** *** Ranges of what was decoded *)

Lemma de_int_range lo hi v z : de_int lo hi v = Some z -> (lo <= z <= hi)%Z.
Proof.
  destruct v; cbn; try done.
  destruct (lo <=? z0)%Z eqn:Hlo; cbn; [|done]. destruct (z0 <=? hi)%Z eqn:Hhi; [|done].
  intros [= <-]. lia.
Qed.

Lemma de_required_range {A} (de : json -> option A) (P : A -> Prop) fs k a :
  (forall v a, de v = Some a -> P a) -> de_required de fs k = Some a -> P a.
Proof. unfold de_required. intros HP. destruct (json_field fs k) as [[v|]|]; try done. apply HP. Qed.

Lemma de_default_range {A} (de : json -> option A) (P : A -> Prop) d fs k a :
  (forall v a, de v = Some a -> P a) -> P d -> de_default de d fs k = Some a -> P a.
Proof.
  unfold de_default. intros HP Hd. destruct (json_field fs k) as [[v|]|]; try done; [apply HP|].
  by intros [= <-].
Qed.

Lemma de_artifact_typed j a : de_artifact j = Some a -> artifact_typed a.
Proof.
  destruct j as [| | | | | |fields]; try done. unfold de_artifact, de_struct. intros Hd.
  apply bind_Some in Hd as (id & _ & Hd). apply bind_Some in Hd as (total & Ht & Hd).
  apply bind_Some in Hd as (files & Hf & Hd). apply bind_Some in Hd as (chunks & Hc & Hd).
  apply bind_Some in Hd as (node & Hn & [= <-]). unfold artifact_typed. cbn.
  split; [eapply (de_required_range de_i64 (fun z => i64_min <= z <= i64_max)%Z); [apply de_int_range|exact Ht]|].
  split; [eapply (de_required_range de_u32 (fun z => 0 <= z <= u32_max)%Z); [apply de_int_range|exact Hf]|].
  split; [eapply (de_required_range de_u32 (fun z => 0 <= z <= u32_max)%Z); [apply de_int_range|exact Hc]|].
  eapply (de_default_range de_u32 (fun z => 0 <= z <= u32_max)%Z 0%Z); [apply de_int_range|done|exact Hn].
Qed.

(** What is typed in a decoded worker, apart from its load. *)
Lemma de_worker_typed j w load at_ name :
  de_worker j = Some w -> load_typed load -> worker_typed (with_heartbeat name at_ load w).
Proof.
  destruct j as [| | | | | |fields]; try done. unfold de_worker, de_struct. intros Hd Hload.
  apply bind_Some in Hd as (rank & Hr & Hd). do 3 apply bind_Some in Hd as (? & _ & Hd).
  apply bind_Some in Hd as (count & Hc & Hd). do 9 apply bind_Some in Hd as (? & _ & Hd).
  apply bind_Some in Hd as (art & Ha & [= <-]). unfold worker_typed. cbn.
  split; [eapply (de_required_range de_i32 (fun z => - 2 ^ 31 <= z <= 2 ^ 31 - 1)%Z); [apply de_int_range|exact Hr]|].
  split; [eapply (de_default_range de_i32 (fun z => - 2 ^ 31 <= z <= 2 ^ 31 - 1)%Z 0%Z); [apply de_int_range|done|exact Hc]|].
  split; [done|].
  eapply (de_default_range (de_option de_artifact) (fun o => forall a, o = Some a -> artifact_typed a) None);
    [|done|exact Ha].
  intros v o Hv a ->. unfold de_option in Hv.
  destruct v as [| | | | | |sub]; [done|by apply fmap_Some in Hv as (? & ? & _)..|].
  apply fmap_Some in Hv as (a' & Ha' & [= <-]). by eapply de_artifact_typed.
Qed.

(** The worker of a decoded status was decoded itself. *)
Lemma decoded_worker j s w :
  de_status j = Some s -> st_worker s = Some w -> ∃ jw, de_worker jw = Some w.
Proof.
  intros Hjs Hw. destruct j as [| | | | | |fields]; try done. unfold de_status, de_struct in Hjs.
  apply bind_Some in Hjs as (wo & Hwo & Hjs). repeat (apply bind_Some in Hjs as (? & _ & Hjs)).
  injection Hjs as <-. cbn in Hw. subst wo. unfold de_default in Hwo.
  destruct (json_field fields "worker") as [[v|]|]; try done. unfold de_option in Hwo.
  destruct v; try done; apply fmap_Some in Hwo as (? & Hwo & [= <-]); by eexists.
Qed.

(** *** Merged statuses *)

Lemma de_ser_condition c : de_condition (ser_condition c) = Some c.
Proof. destruct c as [t s [r|] [m|] [l|]]; reflexivity. Qed.

Lemma de_ser_conditions l : de_list de_condition (JArr (ser_condition <$> l)) = Some l.
Proof. apply de_ser_list. intros c _. apply de_ser_condition. Qed.

Lemma merge_publication w now conditions generation target old :
  worker_typed w -> (i64_min <= generation <= i64_max)%Z ->
  stored_topology (default JNull (object_map target !! "worker")) old ->
  de_status (merge_json (publish_patch w now conditions generation) target) =
  Some (MkMetadataStatus (Some (over_topology old w)) conditions generation (Some now)).
Proof.
  intros Hw Hg Hold. unfold publish_patch. rewrite merge_json_object. unfold de_status, de_struct.
  set (fields := [_; _; _; _]). assert (NoDup fields.*1) as Hnd by (unfold fields; field_names).
  refine (bind_step _ _ (Some (over_topology old w)) _ _ _).
  { apply (merged_struct _ _ _ _ (worker_fields w)); [done|unfold fields; field_in|by apply merge_worker]. }
  cbv beta.
  refine (bind_step _ _ conditions _ (eq_trans (merged_default (de_list de_condition) [] fields target
    "conditions" (JArr (ser_condition <$> conditions)) Hnd _ _ _) (de_ser_conditions _)) _);
    [unfold fields; field_in|done|done|cbv beta].
  refine (bind_step _ _ generation _ (eq_trans (merged_default de_i64 0%Z fields target
    "observedGeneration" (JInt generation) Hnd _ _ _) (de_int_in _ _ _ Hg)) _);
    [unfold fields; field_in|done|done|cbv beta].
  refine (bind_step _ _ (Some now) _ (merged_option de_string fields target "publishedAt" (JStr now) Hnd _ _) _);
    [unfold fields; field_in|done|done].
Qed.

Lemma merge_update w conditions generation target s old :
  worker_typed w -> (i64_min <= generation <= i64_max)%Z -> de_status target = Some s ->
  stored_topology (default JNull (object_map target !! "worker")) old ->
  de_status (merge_json (update_patch w conditions generation) target) =
  Some (MkMetadataStatus (Some (over_topology old w)) conditions generation (st_published_at s)).
Proof.
  intros Hw Hg Hs Hold. unfold update_patch. rewrite merge_json_object.
  assert (de_default (de_option de_string) None
    (map_to_list (merge_fields [("worker", ser_worker w); ("conditions", JArr (ser_condition <$> conditions));
       ("observedGeneration", JInt generation)] (object_map target))) "publishedAt" = Some (st_published_at s))
    as Hpub.
  { destruct target as [| | | | | |fields]; try done. unfold de_status, de_struct in Hs.
    do 3 apply bind_Some in Hs as (? & _ & Hs). apply bind_Some in Hs as (pub & Hpub & [= <-]). cbn [st_published_at].
    unfold de_default in *. rewrite merged_untouched; [|field_names|cbn; set_solver].
    destruct (json_field fields "publishedAt") as [o|] eqn:Hf; [|done]. apply json_field_lookup in Hf.
    cbn [object_map]. rewrite Hf. by destruct o. }
  unfold de_status, de_struct. revert Hpub.
  set (fields := [_; _; _]). intros Hpub. assert (NoDup fields.*1) as Hnd by (unfold fields; field_names).
  refine (bind_step _ _ (Some (over_topology old w)) _ _ _).
  { apply (merged_struct _ _ _ _ (worker_fields w)); [done|unfold fields; field_in|by apply merge_worker]. }
  cbv beta.
  refine (bind_step _ _ conditions _ (eq_trans (merged_default (de_list de_condition) [] fields target
    "conditions" (JArr (ser_condition <$> conditions)) Hnd _ _ _) (de_ser_conditions _)) _);
    [unfold fields; field_in|done|done|cbv beta].
  refine (bind_step _ _ generation _ (eq_trans (merged_default de_i64 0%Z fields target
    "observedGeneration" (JInt generation) Hnd _ _ _) (de_int_in _ _ _ Hg)) _);
    [unfold fields; field_in|done|done|cbv beta].
  by refine (bind_step _ _ _ _ Hpub _).
Qed.

(** A heartbeat written over its own worker keeps the topology. *)
Lemma heartbeat_over_topology w name at_ load :
  over_topology (ws_topology w) (with_heartbeat name at_ load w) =
  with_heartbeat name at_ (stored_load load) w.
Proof. unfold over_topology, with_heartbeat. cbn. by rewrite map_union_idemp. Qed.
End statuses.
