(* ===== verification/P2pKubeTheorems.v ===== *)
(** * Concurrent writers of the Kubernetes P2P backend

    A heartbeat is one atomic change of the resource however other replicas interleave
    with it, and a publication for a resource that another namespace owns is refused
    without a write. *)

From Stdlib Require Import ZArith Lia Ascii String QArith.
From stdpp Require Import base tactics option list relations sorting gmap fin_maps strings pretty.
From S2P Require Import Prelude RustStr RedisStore RedisProg P2pTypes SourceIdentityHash P2pBackend.
From S2P Require Import Json KubeServer MetaServer P2pKube P2pKubeFacts.

Import KubeMeta.

Section theorems.
Context {K : Type} `{MetaApi K, !MetaApiLaws K} `{JsonText} `{LuaNumbers, !JsonTextLaws} `{JsonPretty}.
Context `{HashIter, !HashIterLaws} `{Base64} `{Rfc3339} `{ChronoMillis} `{ToLowercase} `{IdDigest}.
Implicit Types (w : world K) (k : K).

(** ** Requests *)

Lemma meta_runs_request {A B} (env : world K -> world K -> Prop) (cmd : K -> K * A) (p : A -> prog (world K) B) w b w' :
  runs env (bind (request cmd) p) w b w' ↔
  ∃ w1, env w w1 ∧ runs env (p (cmd (w_kube w1)).2) (MkWorld (cmd (w_kube w1)).1 (w_wall w1)) b w'.
Proof.
  cbn. split; intros (w1 & Henv & Hrun); exists w1; (split; [done|]); by destruct (cmd (w_kube w1)).
Qed.

Lemma runs_request_ok {B} (env : world K -> world K -> Prop) cmd (p : result unit KubeMetaError -> prog (world K) B) w b w' :
  runs env (bind (request_ok cmd) p) w b w' ↔
  ∃ w1, env w w1 ∧
    runs env (p (match (cmd (w_kube w1)).2 with ApiOk _ => Ok () | ApiError code => Err (ApiFailed code) end))
      (MkWorld (cmd (w_kube w1)).1 (w_wall w1)) b w'.
Proof.
  cbn. split; intros (w1 & Henv & Hrun); exists w1; (split; [done|]); by destruct (cmd (w_kube w1)).
Qed.

Lemma world_eta w : MkWorld (w_kube w) (w_wall w) = w.
Proof. by destruct w. Qed.

(** What a read request answers. *)
Definition read_cr (n : string) w : result (option ModelMetadata) KubeMetaError :=
  match meta_get n (w_kube w) with
  | None => Ok None
  | Some o => match decode_meta n o with Some cr => Ok (Some cr) | None => Err Undecodable end
  end.

Lemma runs_get_opt {B} (env : world K -> world K -> Prop) n (p : _ -> prog (world K) B) w b w' :
  runs env (bind (get_opt n) p) w b w' ↔ ∃ w1, env w w1 ∧ runs env (p (read_cr n w1)) w1 b w'.
Proof.
  cbn. split; intros (w1 & Henv & Hrun); exists w1; (split; [done|]); rewrite world_eta in *; done.
Qed.

Lemma meta_runs_get {B} (env : world K -> world K -> Prop) n (p : _ -> prog (world K) B) w b w' :
  runs env (bind (get n) p) w b w' ↔
  ∃ w1, env w w1 ∧
    runs env (p (match read_cr n w1 with
                 | Ok (Some cr) => Ok cr | Ok None => Err (ApiFailed 404) | Err e => Err e end)) w1 b w'.
Proof.
  unfold get. cbn. split; intros (w1 & Henv & Hrun); exists w1; (split; [done|]); rewrite world_eta in *;
    unfold read_cr in *; by destruct (meta_get n (w_kube w1)) as [o|]; [destruct (decode_meta n o)|].
Qed.

Lemma runs_now {B} (env : world K -> world K -> Prop) (p : Z -> prog (world K) B) w b w' :
  runs env (bind utc_now p) w b w' -> ∃ w1, env w w1 ∧ runs env (p (w_wall w1)) w1 b w'.
Proof. done. Qed.

Lemma decode_meta_inv n o cr :
  decode_meta n o = Some cr -> cr_name cr = n ∧ cr_object cr = o ∧
  match cr_status cr with
  | Some s => ∃ j, mo_status o = Some j ∧ de_status j = Some s
  | None => mo_status o = None ∨ mo_status o = Some JNull
  end.
Proof.
  unfold decode_meta. destruct (mo_status o) as [j|]; [|intros [= <-]; cbn; by auto].
  assert (j = JNull ∨ j ≠ JNull) as [->|Hj] by (destruct j; by auto); [intros [= <-]; cbn; by auto|].
  intros Hd. assert (∃ s, de_status j = Some s ∧ cr = MkModelMetadata n o (Some s)) as (s & Hs & ->).
  { destruct j; try done; destruct (de_status _) as [s|]; try done; injection Hd as <-; by exists s. }
  cbn. by eauto.
Qed.

(** ** Other actors *)

(** Anything may happen, except that an object's version is used again for another one. *)
Definition others w w' : Prop :=
  (meta_revision (w_kube w) <= meta_revision (w_kube w'))%Z ∧
  forall n o, meta_get n (w_kube w') = Some o ->
    meta_get n (w_kube w) = Some o ∨ (meta_revision (w_kube w) < mo_version o)%Z.

#[export] Instance others_preorder : PreOrder others.
Proof.
  split.
  - intros w. split; [lia|by left].
  - intros w1 w2 w3 [Hr1 H1'] [Hr2 H2']. split; [lia|]. intros n o Ho.
    destruct (H2' n o Ho) as [Hold|Hnew]; [by apply H1'|right; lia].
Qed.

(** An object whose version is still there is the object that was read. *)
Lemma meta_others_seen w w' n o o' :
  others w w' -> meta_get n (w_kube w) = Some o -> meta_get n (w_kube w') = Some o' ->
  mo_version o' = mo_version o -> o' = o.
Proof.
  intros [_ Hnew] Ho Ho' Hv. destruct (Hnew n o' Ho') as [Hold|Hlt]; [congruence|].
  apply meta_version_bound in Ho. lia.
Qed.

Lemma same_others w k :
  (meta_revision (w_kube w) <= meta_revision k)%Z -> meta_same (w_kube w) k ->
  others w (MkWorld k (w_wall w)).
Proof. intros Hr Hs. split; [done|]. intros n o. cbn. rewrite Hs. by left. Qed.

(** The status patch: accepted, it applied to the version it names. *)
Lemma status_patch w n version patch :
  let '(k, r) := meta_patch_status n version patch (w_kube w) in
  match r with
  | ApiOk _ => ∃ o, meta_get n (w_kube w) = Some o ∧ mo_version o = version ∧
      meta_update n o (merge_status patch o) (w_kube w) k
  | ApiError _ => others w (MkWorld k (w_wall w)) ∧ meta_same (w_kube w) k ∧ cm_same (w_kube w) k
  end ∧ (meta_revision (w_kube w) <= meta_revision k)%Z.
Proof.
  pose proof (meta_patch_status_spec n version patch (w_kube w)) as Hspec.
  destruct (meta_patch_status n version patch (w_kube w)) as [k r]. destruct Hspec as [Hr Hspec].
  assert (meta_same (w_kube w) k -> others w (MkWorld k (w_wall w))) as Hsame.
  { intros Hs. by apply same_others. }
  split; [|done]. unfold patch_outcome in Hspec.
  destruct (meta_get n (w_kube w)) as [o|] eqn:Ho; [|destruct Hspec as (Hs & Hc & ->); by split; [apply Hsame|]].
  destruct (Z.eqb_spec (mo_version o) version) as [Hv|_];
    [|destruct Hspec as (Hs & Hc & ->); by split; [apply Hsame|]].
  destruct Hspec as [[Hup ->]|(Hs & Hc & code & -> & _)]; [by exists o|by split; [apply Hsame|]].
Qed.

Lemma merged_status_of version patch o j :
  mo_status o = Some j -> mo_status (set_version version (merge_status patch o)) = Some (merge_json patch j).
Proof. intros Hj. unfold merge_status. rewrite Hj. reflexivity. Qed.

(** ** Heartbeats *)

(** The parts of a worker that a heartbeat leaves alone. *)
Definition worker_identity (w : WorkerStatus) :=
  (ws_worker_rank w, ws_backend_type w, ws_nixl_metadata w, ws_transfer_engine_session_id w,
   ws_tensor_count w, ws_tensor_config_map w, ws_metadata_endpoint w, ws_agent_name w,
   ws_worker_grpc_endpoint w, ws_accelerator w, ws_topology w, ws_artifact_source w).

(** One heartbeat as an atomic change: the world before, the object and the status it
    had, the server after. *)
Definition heartbeat_step (n : string) (st : SourceStatus) (at_ : string) (load : option f32) w w' : Prop :=
  ∃ wp k now o j s worker o' j' worker', others w wp ∧ others (MkWorld k (w_wall wp)) w' ∧
    meta_get n (w_kube wp) = Some o ∧ mo_status o = Some j ∧ de_status j = Some s ∧
    st_worker s = Some worker ∧
    meta_put n (Some o') (w_kube wp) k ∧ cm_same (w_kube wp) k ∧
    mo_labels o' = mo_labels o ∧ mo_owners o' = mo_owners o ∧ mo_model_name o' = mo_model_name o ∧
    mo_status o' = Some j' ∧
    worker_identity worker' = worker_identity worker ∧
    ws_status worker' = status_name_from_proto (SourceStatus_i32 st) ∧
    ws_updated_at worker' = Some at_ ∧ ws_source_load worker' = stored_load load ∧
    de_status j' = Some (MkMetadataStatus (Some worker')
      (update_ready_condition now (SourceStatus_i32 st) (st_conditions s)) (mo_generation o)
      (st_published_at s)).

Lemma heartbeat_after n st at_ load w w1 w' :
  others w w1 -> heartbeat_step n st at_ load w1 w' -> heartbeat_step n st at_ load w w'.
Proof.
  intros Hw (wp & k & now & o & j & s & worker & o' & j' & worker' & Hwp & Hrest).
  exists wp, k, now, o, j, s, worker, o', j', worker'. split; [by etrans|done].
Qed.

Lemma update_attempts_runs attempts n st at_ load w w' :
  load_typed load ->
  runs others (update_attempts attempts n st at_ load) w (Ok ()) w' ->
  heartbeat_step n st at_ load w w'.
Proof.
  intros Hload. revert w. induction attempts as [|attempts IH]; intros w Hrun; [by destruct Hrun|].
  cbn [update_attempts] in Hrun. apply meta_runs_get in Hrun as (w1 & H1' & Hrun).
  unfold read_cr in Hrun. destruct (meta_get n (w_kube w1)) as [o|] eqn:Ho; [|by destruct Hrun].
  destruct (decode_meta n o) as [cr|] eqn:Hdec; [|by destruct Hrun].
  destruct (decode_meta_inv _ _ _ Hdec) as (_ & Hobj & Hst).
  destruct (cr_status cr) as [s|] eqn:Hs; [|by destruct Hrun]. destruct Hst as (j & Hj & Hjs).
  destruct (st_worker s) as [worker|] eqn:Hworker; [|by destruct Hrun].
  apply runs_now in Hrun as (w2 & H2' & Hrun). apply meta_runs_request in Hrun as (wp & H3' & Hrun).
  set (patch := update_patch _ _ _) in Hrun. rewrite Hobj in Hrun.
  assert (others w1 wp) as Hseen by (by etrans).
  pose proof (status_patch wp n (mo_version o) patch) as Hpatch.
  destruct (meta_patch_status n (mo_version o) patch (w_kube wp)) as [k r]. cbn [fst snd] in Hrun.
  destruct Hpatch as [Hpatch Hrev]. destruct r as [[]|code].
  - destruct Hrun as [_ ->]. destruct Hpatch as (o1 & Ho1 & Hv & version & Hput & Hcm & _).
    assert (o1 = o) as -> by (exact (meta_others_seen _ _ _ _ _ Hseen Ho Ho1 Hv)).
    exists wp, k, (to_rfc3339 (w_wall w2)), o, j, s, worker.
    exists (set_version version (merge_status patch o)), (merge_json patch j),
      (with_heartbeat (status_name_from_proto (SourceStatus_i32 st)) at_ (stored_load load) worker).
    split; [by etrans|]. split; [reflexivity|]. do 4 (split; [done|]). split; [exact Hput|]. split; [done|].
    do 3 (split; [reflexivity|]). split; [by apply merged_status_of|].
    do 4 (split; [reflexivity|]).
    pose proof (decoded_topology _ _ (meta_status_unique _ _ _ _ Ho Hj) Hjs) as Htop.
    unfold status_topology in Htop. rewrite Hworker in Htop.
    destruct (decoded_worker _ _ _ Hjs Hworker) as [jw Hjw]. unfold patch. rewrite Hobj.
    erewrite (merge_update _ _ _ _ s);
      [|by eapply de_worker_typed|by eapply meta_generation_i64|done|exact Htop].
    rewrite heartbeat_over_topology. reflexivity.
  - destruct Hpatch as (Hsame & _). destruct (code =? 409)%Z; [|by destruct Hrun].
    eapply heartbeat_after; [|by apply IH]. etrans; [exact H1'|]. by etrans.
Qed.

(** C26: However other replicas interleave with the requests of a heartbeat on Kubernetes,
    one that answers success is a single atomic change: there was a moment at which the
    resource had a worker, and the write replaced exactly the worker's status, its time
    and its load and updated the ready condition; everything else of the resource, with
    what other writers had stored until then, is kept. *)
Theorem heartbeat_atomic sid wid rank st t load w w' :
  load_typed load ->
  runs others (update_status sid wid rank st t load) w (Ok ()) w' ->
  ∃ at_, heartbeat_step (source_cr_name sid wid) st at_ load w w' ∧
    forall d, from_timestamp_millis t = Some d -> at_ = to_rfc3339 d.
Proof.
  intros Hload Hrun. unfold update_status in Hrun. destruct (from_timestamp_millis t) as [d|].
  - exists (to_rfc3339 d). split; [by eapply update_attempts_runs|]. by intros ? [= <-].
  - apply runs_now in Hrun as (w1 & H1' & Hrun). exists (to_rfc3339 (w_wall w1)). split; [|done].
    eapply heartbeat_after; [exact H1'|]. by eapply update_attempts_runs.
Qed.

(** ** Tenants *)

Definition label_owner (n : string) w : option string :=
  o ← meta_get n (w_kube w); mo_labels o !! OWNER_NAMESPACE_LABEL.

(** C27: With a namespace as the owner, a publication for a worker whose resource another
    namespace owns is refused and makes no change of its own: as long as the other actors
    leave that ownership in place, the server ends in a state that they alone reached. *)
Theorem foreign_publish_refused (env : world K -> world K -> Prop) `{!PreOrder env}
    namespace identity wid wm pod uid pod_ns owner sid other w r w' :
  (forall w1 w2, env w1 w2 -> label_owner (source_cr_name sid wid) w1 = Some other ->
     label_owner (source_cr_name sid wid) w2 = Some other) ->
  compute_mx_source_id identity = Ok sid -> other ≠ owner ->
  label_owner (source_cr_name sid wid) w = Some other ->
  runs env (publish_metadata namespace identity wid wm pod uid pod_ns (Some owner)) w r w' ->
  (∃ e, r = Err e) ∧ env w w'.
Proof.
  intros Hkeep Hid Hne Hw Hrun. unfold publish_metadata in Hrun. rewrite Hid in Hrun.
  cbv zeta in Hrun. set (n := source_cr_name sid wid) in *.
  apply runs_now in Hrun as (w1 & H1' & Hrun). pose proof (Hkeep _ _ H1' Hw) as Hw1.
  apply runs_bind in Hrun as (r1 & w2 & Hensure & Hrun).
  unfold ensure_cr in Hensure. apply runs_get_opt in Hensure as (w3 & H3' & Hensure).
  pose proof (Hkeep _ _ H3' Hw1) as Hw3. unfold read_cr in Hensure.
  assert (env w w3) as Hw_w3 by (by etrans).
  pose proof Hw3 as Hlabel. unfold label_owner in Hw3.
  destruct (meta_get n (w_kube w3)) as [o|] eqn:Ho; [|done].
  destruct (decode_meta n o) as [cr|].
  2:{ destruct Hensure as [-> ->]. destruct Hrun as [-> ->]. by split; [eexists|]. }
  destruct Hensure as [-> ->].
  apply meta_runs_get in Hrun as (w4 & H4' & Hrun). pose proof (Hkeep _ _ H4' Hlabel) as Hw4.
  assert (env w w4) as Hw_w4 by (by etrans). unfold label_owner in Hw4. unfold read_cr in Hrun.
  destruct (meta_get n (w_kube w4)) as [o4|] eqn:Ho4; [|done].
  destruct (decode_meta n o4) as [cr4|] eqn:Hdec.
  2:{ destruct Hrun as [-> ->]. by split; [eexists|]. }
  destruct (decode_meta_inv _ _ _ Hdec) as (_ & Hobj & _).
  unfold check_owner, owner_namespace_of in Hrun. rewrite Hobj in Hrun. cbn in Hw4. rewrite Hw4 in Hrun.
  destruct (String.eqb_spec other owner) as [->|_]; [done|].
  cbn in Hrun. destruct Hrun as [-> ->]. by split; [eexists|].
Qed.
End theorems.
