(* ===== verification/P2pKubeReads.v ===== *)
(** * Reading back what was published on Kubernetes

    A publication that succeeds is what a lookup of the worker answers afterwards, with
    two qualifications that the merge patch brings: the levels of an older topology that
    the new one does not name stay, and so does the owner of the resource. *)

From Stdlib Require Import ZArith Lia Ascii String QArith.
From stdpp Require Import base tactics option list relations sorting gmap fin_maps strings pretty.
From S2P Require Import Prelude RustStr RedisStore RedisProg P2pTypes SourceIdentityHash P2pBackend.
From S2P Require Import Json KubeServer MetaServer P2pKube P2pKubeFacts P2pKubeTheorems.

Import KubeMeta.

(** ** Values that the wire can carry *)

Definition tensor_typed (t : TensorRecord) : Prop :=
  (0 <= tr_addr t <= u64_max)%Z ∧ (0 <= tr_size t <= u64_max)%Z ∧ (0 <= tr_device_id t <= u32_max)%Z.

Definition record_typed (r : WorkerRecord) : Prop :=
  (0 <= wr_worker_rank r <= u32_max)%Z ∧ Forall tensor_typed (wr_tensors r) ∧
  (0 <= wr_status r <= 3)%Z ∧ wr_source_load r = None ∧
  forall a, wr_artifact_source r = Some a ->
    (0 <= ar_total_size a)%Z ∧ (0 <= ar_file_count a <= u32_max)%Z ∧
    (0 <= ar_chunk_count a <= u32_max)%Z ∧ (0 <= ar_node_rank a <= u32_max)%Z.

(** The record that a publication at the time [now] leaves over an older topology. *)
Definition published_record (r : WorkerRecord) (now : Z) (old : gmap string string) : WorkerRecord :=
  MkWorkerRecord (wr_worker_rank r) (wr_backend_metadata r) (wr_tensors r) (wr_status r)
    (timestamp_millis now) (wr_metadata_endpoint r) (wr_agent_name r) (wr_worker_grpc_endpoint r)
    (wr_accelerator r) None (wr_topology r ∪ old) (wr_artifact_source r).

Lemma as_i32_range z : (- 2 ^ 31 <= as_i32 z <= 2 ^ 31 - 1)%Z.
Proof.
  unfold as_i32. pose proof (Z.mod_pos_bound z (2 ^ 32) ltac:(lia)).
  destruct (Z.ltb_spec (z mod 2 ^ 32) (2 ^ 31)); lia.
Qed.

Lemma as_u32_i32 z : (0 <= z <= u32_max)%Z -> as_u32 (as_i32 z) = z.
Proof.
  unfold as_u32, as_i32, u32_max. intros Hz. rewrite (Z.mod_small z) by lia.
  destruct (Z.ltb_spec z (2 ^ 31)); [rewrite Z.mod_small; lia|].
  rewrite <- (Z.mod_small z (2 ^ 32)) at 2 by lia.
  replace (z - 2 ^ 32)%Z with (z + (-1) * 2 ^ 32)%Z by lia. by rewrite Z.mod_add by lia.
Qed.

Section reads.
Context {K : Type} `{MetaApi K, !MetaApiLaws K} `{JsonText} `{LuaNumbers, !JsonTextLaws}.
Context `{JsonPretty, !JsonPrettyLaws} `{HashIter, !HashIterLaws} `{Base64, !Base64Laws}.
Context `{Rfc3339, !Rfc3339Laws} `{ChronoMillis} `{ToLowercase} `{IdDigest}.
Implicit Types (w : world K) (k : K).

(** ** The stored forms of a record *)

Lemma tensor_records_json l :
  Forall tensor_typed l -> tensor_records (tensor_json_from <$> l) = Ok l.
Proof.
  induction 1 as [|t l (Ha & Hs & Hdev) _ IH]; [done|]. cbn [fmap list_fmap tensor_records].
  unfold tensor_record_from. cbn [tensor_json_from tdj_addr tdj_size].
  rewrite !parse_unsigned_decimal by done. cbn. cbn in IH. rewrite IH. by destruct t.
Qed.

Lemma decode_tensors l cm :
  Forall tensor_typed l ->
  cm_data cm !! "tensors.json" = Some (json_pretty (JArr (ser_tensor <$> (tensor_json_from <$> l)))) ->
  read_tensors (Some cm) = Ok l.
Proof.
  intros Hl Hd. unfold read_tensors. rewrite Hd. unfold from_str.
  assert (forall t, t ∈ l -> (0 <= tr_device_id t <= u32_max)%Z) as Hdev.
  { intros t Hin. rewrite Forall_forall in Hl. apply (Hl t Hin). }
  rewrite json_parse_pretty.
  2:{ cbn. rewrite forallb_forall. intros v Hin. apply list_elem_of_In in Hin.
      apply list_elem_of_fmap in Hin as (tj & -> & Hin). apply list_elem_of_fmap in Hin as (t & -> & Hin).
      specialize (Hdev t Hin). cbn. unfold i64_min, u64_max, u32_max in *. lia. }
  cbn [mbind option_bind]. rewrite de_ser_list; [by apply tensor_records_json|].
  intros tj Hin. apply list_elem_of_fmap in Hin as (t & -> & Hin). specialize (Hdev t Hin).
  unfold de_tensor, ser_tensor, de_struct. cbn -[de_u32]. unfold de_required. cbn -[de_u32].
  unfold de_u32. rewrite de_int_in by done. by destruct t.
Qed.

Lemma artifact_roundtrip o art :
  (forall a, o = Some a ->
    (0 <= ar_total_size a)%Z ∧ (0 <= ar_file_count a <= u32_max)%Z ∧
    (0 <= ar_chunk_count a <= u32_max)%Z ∧ (0 <= ar_node_rank a <= u32_max)%Z) ->
  transpose artifact_status_from o = Ok art ->
  transpose artifact_record_from art = Ok o ∧ forall a, art = Some a -> artifact_typed a.
Proof.
  intros Ho Ht. destruct o as [a|]; cbn in Ht; [|injection Ht as <-; done].
  destruct (Ho a eq_refl) as (Hz & Hf & Hc & Hn). unfold artifact_status_from in Ht.
  destruct (Z.leb_spec (ar_total_size a) i64_max); [|done]. cbn in Ht. injection Ht as <-. split.
  - cbn. unfold artifact_record_from. cbn. destruct (Z.leb_spec 0 (ar_total_size a)); [|lia]. by destruct a.
  - intros a' [= <-]. unfold artifact_typed, i64_min. cbn. lia.
Qed.

(** The stored form of a record is typed and reads back as the published record. *)
Lemma stored_record_reads r cm_name now ws old :
  record_typed r -> (0 <= now <= rfc3339_max)%Z ->
  worker_status_from r cm_name (to_rfc3339 now) = Ok ws ->
  worker_typed ws ∧ ws_tensor_config_map ws = Some cm_name ∧
  decode_nixl (over_topology old ws) = Ok (flat_nixl (wr_backend_metadata r)) ∧
  worker_record_from (over_topology old ws) (flat_nixl (wr_backend_metadata r)) (wr_tensors r) =
  Ok (published_record r now old).
Proof.
  intros (Hrank & _ & Hstatus & Hload & Hart) Hnow Hws. unfold worker_status_from in Hws.
  destruct (transpose artifact_status_from (wr_artifact_source r)) as [art|] eqn:Hta; [|done].
  cbn in Hws. injection Hws as <-. destruct (artifact_roundtrip _ _ Hart Hta) as [Hra Htyped].
  split; [|split; [done|split]].
  - unfold worker_typed. cbn. rewrite Hload. do 2 (split; [apply as_i32_range|]). by split.
  - unfold decode_nixl. cbn. destruct (wr_backend_metadata r) as [data| |]; [|done..]. cbn [flat_nixl].
    rewrite b64_decode_encode. destruct (str_is_empty (b64_encode data)) eqn:He; [|done].
    destruct (b64_encode data) eqn:Hb; [|done]. apply b64_encode_empty in Hb. by subst.
  - unfold worker_record_from. cbn. rewrite Hra. cbn. unfold published_record, stored_millis.
    cbn [mbind option_bind]. rewrite parse_to_rfc3339 by done. rewrite as_u32_i32 by done. rewrite Hload.
    pose proof (proj1 (from_flat_roundtrip (wr_backend_metadata r))) as Hflat.
    assert (status_proto_from_name (status_name_from_proto (wr_status r)) = wr_status r) as ->.
    { assert (wr_status r = 0 ∨ wr_status r = 1 ∨ wr_status r = 2 ∨ wr_status r = 3)%Z as [->|[->|[->| ->]]]
        by lia; reflexivity. }
    do 2 f_equal. destruct (wr_backend_metadata r); exact Hflat.
Qed.

(** ** The steps of a publication *)

(** The other actors leave one resource and one config map alone, and the clock is in
    the range of the texts. *)
Definition elsewhere (n c : string) w w' : Prop :=
  meta_get n (w_kube w') = meta_get n (w_kube w) ∧ cm_get c (w_kube w') = cm_get c (w_kube w) ∧
  (0 <= w_wall w' <= rfc3339_max)%Z.

(** What is followed of a resource: its model, its owner and its status. *)
Definition tracks (n : string) (model : string) (owner : option string) (status : option json) w : Prop :=
  ∃ o, meta_get n (w_kube w) = Some o ∧ mo_model_name o = model ∧
    mo_labels o !! OWNER_NAMESPACE_LABEL = owner ∧ mo_status o = status.

Lemma tracks_env n c model owner status w w' :
  elsewhere n c w w' -> tracks n model owner status w -> tracks n model owner status w'.
Proof. intros (Hn & _) (o & Ho & Hrest). exists o. by rewrite Hn. Qed.

Lemma tracks_same n model owner status w k :
  meta_same (w_kube w) k -> tracks n model owner status w -> tracks n model owner status (MkWorld k (w_wall w)).
Proof. intros Hs (o & Ho & Hrest). exists o. cbn. by rewrite Hs. Qed.

(** A patch that is accepted, and that keeps model and status. *)
Lemma tracks_patch n f owner' model owner status w k r :
  patch_outcome n f (w_kube w) k r -> r = ApiOk () -> tracks n model owner status w ->
  (forall o, mo_labels o !! OWNER_NAMESPACE_LABEL = owner ->
     mo_labels (f o) !! OWNER_NAMESPACE_LABEL = owner' ∧ mo_model_name (f o) = mo_model_name o ∧
     mo_status (f o) = mo_status o) ->
  tracks n model owner' status (MkWorld k (w_wall w)).
Proof.
  intros Hp -> (o & Ho & Hm & Hl & Hs) Hf. unfold patch_outcome in Hp. rewrite Ho in Hp.
  destruct Hp as [[(version & Hput & _) _]|(_ & _ & code & ? & _)]; [|done].
  destruct (Hf o Hl) as (Hl' & Hm' & Hs'). exists (set_version version (f o)). cbn.
  rewrite Hput, decide_True by done. split; [done|]. split; [by rewrite Hm'|]. split; [done|]. by rewrite Hs'.
Qed.

(** The resource of a publication once it exists. *)
Definition first_model (identity : SourceIdentity) (o : option meta_object) : string :=
  match o with Some o => mo_model_name o | None => si_model_name identity end.
Definition first_owner (owner : option string) (o : option meta_object) : option string :=
  match o with Some o => mo_labels o !! OWNER_NAMESPACE_LABEL | None => owner end.

Lemma ensure_runs n c sid wid owner refs identity w w' :
  runs (elsewhere n c) (ensure_cr n sid wid owner refs identity) w (Ok ()) w' ->
  tracks n (first_model identity (meta_get n (w_kube w))) (first_owner owner (meta_get n (w_kube w)))
    (meta_get n (w_kube w) ≫= mo_status) w'.
Proof.
  intros Hrun. unfold ensure_cr in Hrun. apply runs_get_opt in Hrun as (w1 & (Hn & _) & Hrun).
  unfold read_cr in Hrun. rewrite Hn in Hrun. destruct (meta_get n (w_kube w)) as [o|] eqn:Ho.
  - destruct (decode_meta n o); [|by destruct Hrun]. destruct Hrun as [_ ->]. by exists o.
  - apply meta_runs_request in Hrun as (w2 & (Hn2 & _) & Hrun). rewrite Hn in Hn2.
    set (labels := match owner with Some _ => _ | None => _ end) in Hrun.
    pose proof (meta_create_spec n labels (default [] refs) (si_model_name identity)
      (source_type_name_from_proto (si_mx_source_type identity)) (w_kube w2)) as Hspec.
    destruct (meta_create n labels _ _ _ (w_kube w2)) as [k r]. destruct Hspec as [_ Hspec].
    rewrite Hn2 in Hspec. cbn in Hrun. destruct Hrun as [Hr ->].
    destruct Hspec as [(version & uid & generation & Hput & _ & _ & ->)|(_ & _ & code & -> & Hcode)].
    + eexists. cbn. rewrite Hput, decide_True by done. split; [done|]. cbn. split; [done|]. split; [|done].
      unfold labels. by destruct owner.
    + exfalso. cbn in Hr. destruct (Z.eqb_spec code 409) as [Hc|]; [|done]. apply Hcode. subst. set_solver.
Qed.

Lemma check_owner_runs n c owner cr model label status w w' :
  runs (elsewhere n c) (check_owner n owner cr) w (Ok ()) w' -> owner_namespace_of cr = label ->
  tracks n model label status w ->
  tracks n model (match owner with Some o => Some o | None => label end) status w'.
Proof.
  intros Hrun Hlabel Htracks. unfold check_owner in Hrun. destruct owner as [owner|]; [|by destruct Hrun as [_ ->]].
  rewrite Hlabel in Hrun. destruct label as [existing|].
  - destruct Hrun as [Hr ->]. destruct (String.eqb_spec existing owner) as [->|]; [done|done].
  - cbn in Hrun. destruct Hrun as (w1 & Henv & Hrun).
    pose proof (meta_patch_label_spec n OWNER_NAMESPACE_LABEL owner (w_kube w1)) as Hspec.
    destruct (meta_patch_label n OWNER_NAMESPACE_LABEL owner (w_kube w1)) as [k r]. cbn in Hrun.
    destruct Hrun as [Hr ->]. destruct Hspec as [_ Hspec].
    eapply tracks_patch; [exact Hspec|by destruct r as [[]|]|by eapply tracks_env|].
    intros o _. cbn. by rewrite lookup_insert_eq.
Qed.

Lemma set_pod_owner_runs n c refs cr model label status w w' :
  runs (elsewhere n c) (set_pod_owner n refs cr) w (Ok ()) w' ->
  tracks n model label status w -> tracks n model label status w'.
Proof.
  intros Hrun Htracks. unfold set_pod_owner in Hrun. destruct refs as [refs|]; [|by destruct Hrun as [_ ->]].
  destruct (bool_decide _); [by destruct Hrun as [_ ->]|]. cbn in Hrun. destruct Hrun as (w1 & Henv & Hrun).
  pose proof (meta_patch_owners_spec n refs (w_kube w1)) as Hspec.
  destruct (meta_patch_owners n refs (w_kube w1)) as [k r]. cbn in Hrun.
  destruct Hrun as [Hr ->]. destruct Hspec as [_ Hspec].
  eapply tracks_patch; [exact Hspec|by destruct r as [[]|]|by eapply tracks_env|done].
Qed.

(** The config map holds the tensors. *)
Definition holds_tensors (c : string) (tensors : list TensorRecord) w : Prop :=
  ∃ cm, cm_get c (w_kube w) = Some cm ∧
    cm_data cm !! "tensors.json" = Some (json_pretty (JArr (ser_tensor <$> (tensor_json_from <$> tensors)))).

Lemma upsert_runs n sid wid rank tensors owner_name owner_uid model label status cm_name w w' :
  n = source_cr_name sid wid ->
  runs (elsewhere n (tensor_cm_name n rank))
    (upsert_tensor_configmap sid wid rank tensors owner_name owner_uid) w (Ok cm_name) w' ->
  tracks n model label status w ->
  cm_name = tensor_cm_name n rank ∧ tracks n model label status w' ∧
  holds_tensors (tensor_cm_name n rank) tensors w'.
Proof.
  intros -> Hrun Htracks. unfold upsert_tensor_configmap in Hrun.
  set (n := source_cr_name sid wid) in *. set (c := tensor_cm_name n rank) in *.
  set (cm := tensor_config_map sid rank tensors owner_name owner_uid) in *.
  apply meta_runs_request in Hrun as (w1 & Henv & Hrun). pose proof (tracks_env _ _ _ _ _ _ _ Henv Htracks) as Ht1.
  pose proof (cm_create_spec c cm (w_kube w1)) as Hspec.
  destruct (cm_create c cm (w_kube w1)) as [k r]. cbn [fst snd] in Hrun.
  destruct Hspec as (_ & Hsame & Hspec). pose proof (tracks_same _ _ _ _ _ _ Hsame Ht1) as Ht2.
  destruct r as [[]|code].
  - destruct Hrun as [[= ->] ->]. split; [done|]. split; [done|]. exists cm. destruct Hspec as [_ Hput].
    cbn. rewrite Hput, decide_True by done. split; [done|]. apply lookup_singleton_eq.
  - destruct (code =? 409)%Z; [|by destruct Hrun]. apply runs_request_ok in Hrun as (w3 & Henv3 & Hrun).
    pose proof (tracks_env _ _ _ _ _ _ _ Henv3 Ht2) as Ht3.
    pose proof (cm_merge_spec c cm (w_kube w3)) as Hmerge.
    destruct (cm_merge c cm (w_kube w3)) as [k3 r3]. cbn [fst snd] in Hrun.
    destruct Hmerge as (_ & Hsame3 & Hmerge). destruct r3 as [[]|]; [|by destruct Hrun].
    destruct Hrun as [[= ->] ->]. split; [done|]. split; [by apply tracks_same|].
    destruct Hmerge as (old & _ & Hput). eexists. cbn. rewrite Hput, decide_True by done. split; [done|].
    cbn. apply lookup_union_Some_l. apply lookup_singleton_eq.
Qed.

Definition stored_levels (status : option json) : gmap string string :=
  match status ≫= de_status with Some s => status_topology s | None => ∅ end.

Lemma publish_attempts_runs attempts n c ws now proto model label status tensors w w' :
  worker_typed ws -> tracks n model label status w -> holds_tensors c tensors w ->
  runs (elsewhere n c) (publish_attempts attempts n ws now proto) w (Ok ()) w' ->
  holds_tensors c tensors w' ∧ ∃ j conditions generation, tracks n model label (Some j) w' ∧
    de_status j = Some (MkMetadataStatus (Some (over_topology (stored_levels status) ws)) conditions
                          generation (Some now)).
Proof.
  intros Htyped. revert w. induction attempts as [|attempts IH]; intros w Ht Hc Hrun; [by destruct Hrun|].
  assert (forall w1 w2, elsewhere n c w1 w2 -> holds_tensors c tensors w1 -> holds_tensors c tensors w2) as Hcm_env.
  { intros w1 w2 (_ & Hcm & _) (cm & Hcm1 & Hd). exists cm. by rewrite Hcm. }
  cbn [publish_attempts] in Hrun. apply meta_runs_get in Hrun as (w1 & Henv1 & Hrun).
  pose proof (tracks_env _ _ _ _ _ _ _ Henv1 Ht) as (o & Ho & Hm & Hl & Hs). unfold read_cr in Hrun. rewrite Ho in Hrun.
  destruct (decode_meta n o) as [cr|] eqn:Hdec; [|by destruct Hrun].
  destruct (decode_meta_inv _ _ _ Hdec) as (_ & Hobj & Hstatus).
  apply runs_now in Hrun as (w2 & Henv2 & Hrun). apply meta_runs_request in Hrun as (w3 & Henv3 & Hrun).
  assert (meta_get n (w_kube w3) = Some o) as Ho3.
  { destruct Henv2 as (H2' & _), Henv3 as (H3' & _). congruence. }
  pose proof (Hcm_env _ _ Henv3 (Hcm_env _ _ Henv2 (Hcm_env _ _ Henv1 Hc))) as Hc3.
  set (patch := publish_patch _ _ _ _) in Hrun. rewrite Hobj in Hrun.
  pose proof (status_patch w3 n (mo_version o) patch) as Hpatch.
  destruct (meta_patch_status n (mo_version o) patch (w_kube w3)) as [k r]. cbn [fst snd] in Hrun.
  destruct Hpatch as [Hpatch _]. destruct r as [[]|code].
  - destruct Hrun as [_ ->]. destruct Hpatch as (o1 & Ho1 & _ & version & Hput & Hcm & _).
    assert (o1 = o) as -> by congruence. split.
    { destruct Hc3 as (cm & Hcm3 & Hd). exists cm. cbn. by rewrite Hcm. }
    eexists _, _, _. split.
    + exists (set_version version (merge_status patch o)). cbn [w_kube]. rewrite Hput, decide_True by done.
      split; [reflexivity|]. split; [exact Hm|]. split; [exact Hl|reflexivity].
    + unfold patch. rewrite Hobj. apply merge_publication; [done|by eapply meta_generation_i64|].
      rewrite Hs. unfold stored_levels.
      destruct (cr_status cr) as [s|]; [|rewrite Hs in Hstatus].
      * destruct Hstatus as (j & Hj & Hjs). rewrite Hs in Hj. rewrite Hj. cbn. rewrite Hjs.
        apply decoded_topology; [|done]. by eapply meta_status_unique; [exact Ho|congruence].
      * destruct Hstatus as [->| ->]; cbn [default from_option id mbind option_bind object_map];
          rewrite ?lookup_empty; apply no_stored_topology.
  - destruct Hpatch as (_ & Hsame & Hcm). destruct (code =? 409)%Z; [|by destruct Hrun].
    apply IH in Hrun; [done| |].
    + apply tracks_same; [done|]. by exists o.
    + destruct Hc3 as (cm & Hcm3 & Hd). exists cm. cbn. by rewrite Hcm.
Qed.

Lemma get_metadata_runs sid wid c model label j s ws tensors r w w' :
  let n := source_cr_name sid wid in
  tracks n model label (Some j) w -> holds_tensors c tensors w -> Forall tensor_typed tensors ->
  de_status j = Some s -> st_worker s = Some ws -> ws_tensor_config_map ws = Some c ->
  runs (elsewhere n c) (get_metadata sid wid) w r w' ->
  r = match decode_nixl ws with
      | Err e => Err e
      | Ok nixl =>
          let? record := worker_record_from ws nixl tensors in
          Ok (Some (MkModelMetadataRecord sid wid model [record]
            (match st_published_at s ≫= parse_from_rfc3339 with Some t => timestamp t | None => 0%Z end)
            label None))
      end.
Proof.
  intros n Ht Hc Htensors Hj Hws Hcm Hrun. unfold get_metadata in Hrun. fold n in Hrun.
  apply runs_get_opt in Hrun as (w1 & Henv1 & Hrun).
  pose proof (tracks_env _ _ _ _ _ _ _ Henv1 Ht) as (o & Ho & Hm & Hl & Hs). unfold read_cr in Hrun. rewrite Ho in Hrun.
  assert (decode_meta n o = Some (MkModelMetadata n o (Some s))) as Hdec.
  { unfold decode_meta. rewrite Hs. destruct j; try done; by rewrite Hj. }
  rewrite Hdec in Hrun. cbn [cr_status cr_object] in Hrun. rewrite Hws in Hrun.
  destruct (decode_nixl ws) as [nixl|e]; [|by destruct Hrun].
  unfold worker_tensors in Hrun. rewrite Hcm in Hrun. cbn in Hrun. destruct Hrun as (w2 & Henv2 & Hrun & _).
  assert (read_tensors (cm_get c (w_kube w2)) = Ok tensors) as Hread.
  { destruct Hc as (cm & Hcm0 & Hd). destruct Henv1 as (_ & Hc1 & _), Henv2 as (_ & Hc2 & _).
    rewrite Hc2, Hc1, Hcm0. by apply decode_tensors. }
  rewrite Hread in Hrun. rewrite <- Hm, <- Hl. exact Hrun.
Qed.

(** C25: A lookup of a worker on Kubernetes after a publication that succeeded, while the
    other actors leave its resource and its config map alone, answers the record that was
    published, with the time of the publication; the topology is the published one, plus
    the levels of a topology stored before that the new one does not name, and the owner
    is the publisher's, or for a publication without a namespace the one there was. *)
Theorem publish_readback namespace identity sid wid wm pod uid pod_ns owner w w1 r w2 :
  let n := source_cr_name sid wid in
  let record := WorkerRecord_from wm in
  let env := elsewhere n (tensor_cm_name n (wr_worker_rank record)) in
  let before := meta_get n (w_kube w) in
  compute_mx_source_id identity = Ok sid -> record_typed record ->
  runs env (publish_metadata namespace identity wid wm pod uid pod_ns owner) w (Ok ()) w1 ->
  runs env (get_metadata sid wid) w1 r w2 ->
  ∃ now, (0 <= now <= rfc3339_max)%Z ∧
  r = Ok (Some (MkModelMetadataRecord sid wid (first_model identity before)
    [published_record record now (stored_levels (before ≫= mo_status))] (timestamp now)
    (match owner with Some o => Some o | None => first_owner owner before end) None)).
Proof.
  intros n record env before Hid Htyped Hpub Hget. unfold publish_metadata in Hpub. rewrite Hid in Hpub.
  cbv zeta in Hpub. fold n in Hpub. fold record in Hpub. apply runs_now in Hpub as (wa & Henva & Hpub).
  assert (meta_get n (w_kube wa) = before) as Hba by apply Henva.
  apply runs_bind in Hpub as ([[]|] & wb & Hensure & Hpub); [|by destruct Hpub].
  apply ensure_runs in Hensure. rewrite Hba in Hensure.
  apply meta_runs_get in Hpub as (wc & Henvc & Hpub).
  pose proof (tracks_env _ _ _ _ _ _ _ Henvc Hensure) as Htc. pose proof Htc as (o & Ho & Hm & Hl & Hs).
  unfold read_cr in Hpub. rewrite Ho in Hpub.
  destruct (decode_meta n o) as [cr|] eqn:Hdec; [|by destruct Hpub].
  destruct (decode_meta_inv _ _ _ Hdec) as (Hname & Hobj & _).
  apply runs_bind in Hpub as ([[]|] & wd & Hcheck & Hpub); [|by destruct Hpub].
  eapply check_owner_runs in Hcheck; [|by unfold owner_namespace_of; rewrite Hobj|exact Htc].
  apply runs_bind in Hpub as ([[]|] & we & Hpod & Hpub); [|by destruct Hpub].
  eapply set_pod_owner_runs in Hpod; [|exact Hcheck].
  apply runs_bind in Hpub as ([cm_name|] & wf & Hupsert & Hpub); [|by destruct Hpub].
  eapply upsert_runs in Hupsert as (-> & Htf & Hcf); [|done|exact Hpod].
  destruct (worker_status_from record _ _) as [ws|] eqn:Hws; [|by destruct Hpub].
  exists (w_wall wa). destruct Henva as (_ & _ & Hclock). split; [done|].
  destruct (stored_record_reads _ _ _ _ (stored_levels (before ≫= mo_status)) Htyped Hclock Hws)
    as (Hwt & Hwc & Hnixl & Hrec).
  eapply publish_attempts_runs in Hpub as (Hc1 & j & conditions & generation & Ht1 & Hj); [|done..].
  eapply get_metadata_runs in Hget; [|exact Ht1|exact Hc1|by apply Htyped|exact Hj|done|exact Hwc].
  rewrite Hget, Hnixl, Hrec. cbn. by rewrite parse_to_rfc3339.
Qed.
End reads.
