(* ===== verification/P2pKubeRun.v ===== *)
(** * Runs of the Kubernetes P2P backend

    Lawful texts, a publication with its lookup and heartbeat, a refused publication, and
    behaviours in which the backend differs from the other two. *)

From Stdlib Require Import ZArith Lia Ascii String QArith.
From stdpp Require Import base tactics countable option list relations sorting gmap fin_maps strings pretty.
From S2P Require Import Prelude RustStr RedisStore RedisProg P2pTypes SourceIdentityHash P2pBackend.
From S2P Require Import Json KubeServer MetaServer P2pRedisRun P2pKube P2pKubeFacts.
From S2P Require Import P2pKubeTheorems P2pKubeReads.

Import KubeMeta.

(** ** Texts *)

#[export] Instance coded_base64 : Base64 | 100 := {|
  b64_encode l := match l with [] => "" | _ => code (Byte.to_N <$> l) end;
  b64_decode s := if str_is_empty s then Some [] else uncode s ≫= mapM Byte.of_N
|}.

#[export] Instance coded_base64_laws : Base64Laws | 100.
Proof.
  assert (forall l : list N, str_is_empty (code l) = false) as Hne
    by (intros l; unfold code; by destruct (encode l)).
  assert (forall l, mapM Byte.of_N (Byte.to_N <$> l) = Some l) as Hbytes.
  { induction l as [|b l IH]; [done|]. cbn. rewrite Byte.of_to_N. cbn. cbn in IH. by rewrite IH. }
  split.
  - intros [|b l]; [done|]. cbn [b64_encode b64_decode coded_base64]. rewrite Hne, uncode_code. apply Hbytes.
  - intros [|b l]; cbn; [done|]. split; [|done]. intros Hc.
    pose proof (Hne (Byte.to_N <$> b :: l)) as Hf. cbn in Hf. by rewrite Hc in Hf.
Qed.

#[export] Instance coded_pretty : JsonPretty | 100 := {| json_pretty := json_print |}.

#[export] Instance coded_pretty_laws : JsonPrettyLaws | 100.
Proof. split. intros v Hv. by apply json_parse_print. Qed.

#[export] Instance chrono_millis : ChronoMillis | 100 := {|
  from_timestamp_millis ms :=
    if (-8334601228800000 <=? ms)%Z && (ms <=? 8210266876799999)%Z then Some (ms * 1000000)%Z else None
|}.

#[export] Instance chrono_millis_laws : ChronoMillisLaws | 100.
Proof. split. intros ms t. cbn. by destruct (_ && _); [intros [= <-]|]. Qed.

#[local] Instance run_digest : IdDigest := {| id_digest _ := Ok run_sid |}.

(** ** A publication and its lookup *)

Abbreviation W := (world meta_db).

Definition start : W := MkWorld meta_empty 5000000000.

Definition kube_worker (topology : gmap string string) : WorkerMetadata :=
  MkWorkerMetadata 3000000000 (Some (TransferEngineSessionId "h:1")) 2 0 "e" "a" "g" "cuda" topology
    [MkTensorDescriptor "w" (2 ^ 60) 20 0 "bf16"] None.

Definition publish (owner : option string) (topology : gmap string string) : prog W (result unit KubeMetaError) :=
  publish_metadata "mx" (run_identity "m") "w1" (kube_worker topology) "pod" "u" "mx" owner.

Definition published_world (owner : option string) (topology : gmap string string) (w : W) : W :=
  (exec (publish owner topology) w).1.

(** Alone, a method runs elsewhere than itself. *)
Lemma path_elsewhere {A} n c (p : prog W A) w a :
  forallb (fun d : W => (0 <=? w_wall d)%Z && (w_wall d <=? rfc3339_max)%Z) (path p w) = true ->
  (exec p w).2 = a -> runs (elsewhere n c) p w a (exec p w).1.
Proof.
  intros Hclock <-. apply path_runs. apply Forall_forall. intros d Hd.
  rewrite forallb_forall in Hclock. apply list_elem_of_In, Hclock in Hd.
  split; [done|]. split; [done|]. lia.
Qed.

Lemma kube_worker_typed topology : record_typed (WorkerRecord_from (kube_worker topology)).
Proof.
  unfold record_typed. cbn. split; [unfold u32_max; lia|]. split; [|split; [lia|done]].
  apply Forall_singleton. unfold tensor_typed. cbn. unfold u64_max, u32_max. lia.
Qed.

Lemma publish_readback_witness :
  ∃ now, (exec (get_metadata run_sid "w1") (published_world (Some "team") {["rack" := "r1"]} start)).2 =
    Ok (Some (MkModelMetadataRecord run_sid "w1" "m"
      [published_record (WorkerRecord_from (kube_worker {["rack" := "r1"]})) now ∅]
      (timestamp now) (Some "team") None)).
Proof.
  set (p := publish (Some "team") {["rack" := "r1"]}). set (w1 := published_world (Some "team") {["rack" := "r1"]} start).
  set (n := source_cr_name run_sid "w1"). set (c := tensor_cm_name n 3000000000).
  assert (runs (elsewhere n c) p start (Ok ()) w1) as Hp
    by (apply path_elsewhere; vm_compute; reflexivity).
  assert (runs (elsewhere n c) (get_metadata run_sid "w1") w1 (exec (get_metadata run_sid "w1") w1).2
            (exec (get_metadata run_sid "w1") w1).1) as Hg.
  { apply path_elsewhere; [vm_compute; reflexivity|reflexivity]. }
  assert (compute_mx_source_id (run_identity "m") = Ok run_sid) as Hid by (vm_compute; reflexivity).
  destruct (publish_readback "mx" (run_identity "m") run_sid "w1" (kube_worker {["rack" := "r1"]}) "pod" "u" "mx"
    (Some "team") start w1 _ _ Hid (kube_worker_typed _) Hp Hg) as (now & _ & Hr).
  exists now. exact Hr.
Defined.

Lemma heartbeat_atomic_witness :
  let w := published_world None ∅ start in
  ∃ at_ w', heartbeat_step (source_cr_name run_sid "w1") Stale at_ None w w' ∧
    at_ = to_rfc3339 9000000000.
Proof.
  intros w. set (p := update_status (K := meta_db) run_sid "w1" 0 Stale 9000 None).
  assert (runs others p w (Ok ()) (exec p w).1) as Hrun.
  { assert ((exec p w).2 = Ok ()) as <- by (vm_compute; reflexivity). apply exec_runs. reflexivity. }
  destruct (heartbeat_atomic run_sid "w1" 0 Stale 9000 None w _ I Hrun) as (at_ & Hstep & Hat).
  exists at_, (exec p w).1. split; [exact Hstep|]. by apply Hat.
Defined.

Lemma foreign_publish_refused_witness :
  let w := published_world (Some "team") ∅ start in
  let p := publish (Some "intruder") ∅ in
  (∃ e, (exec p w).2 = Err e) ∧ w = (exec p w).1.
Proof.
  intros w p.
  refine (foreign_publish_refused eq "mx" (run_identity "m") "w1" (kube_worker ∅) "pod" "u" "mx" "intruder"
    run_sid "team" w _ _ _ eq_refl _ _ (exec_runs eq p w (fun _ => eq_refl))).
  - by intros w1 w2 ->.
  - discriminate.
  - vm_compute. reflexivity.
Defined.

(** ** Behaviours of this backend alone *)

(** A level of the topology that a later publication does not name stays. *)
Lemma old_levels_stay :
  let w := published_world None {["rack" := "r2"]} (published_world None (<["zone" := "z1"]> {["rack" := "r1"]}) start) in
  match (exec (get_metadata run_sid "w1") w).2 with
  | Ok (Some r) => map (fun x => map_to_list (wr_topology x)) (mm_workers r)
  | _ => []
  end = [map_to_list (<["zone" := "z1"]> ({["rack" := "r2"]} : gmap string string))].
Proof. vm_compute. reflexivity. Qed.

(** A heartbeat for a rank that was not published is taken for the one that was. *)
Lemma rank_ignored :
  let w := published_world None ∅ start in
  (exec (update_status run_sid "w1" 7 Stale 9000 None) w).2 = Ok ().
Proof. vm_compute. reflexivity. Qed.
