(* ===== verification/Regex.v ===== *)
(** * Regular expressions of admission rules

    The CEL rules on the custom resource match strings against anchored patterns.
    [re_match] decides a pattern by derivatives, [lang] is its language; the two patterns
    for Kubernetes names accept what the server's own checks accept. *)

From Stdlib Require Import ZArith Lia Ascii String.
From stdpp Require Import base tactics option list strings.
From S2P Require Import Prelude RustStr EntryKey RegistryMemory ServerConfig.

Module Regex.

Inductive re : Type :=
| Never
| Eps
| Chars (P : ascii -> bool)
| Seq (r1 r2 : re)
| Alt (r1 r2 : re)
| Star (r : re).

Definition Opt (r : re) : re := Alt Eps r.
Definition Plus (r : re) : re := Seq r (Star r).
Definition Char (c : ascii) : re := Chars (Ascii.eqb c).

Fixpoint Str (s : string) : re :=
  match s with EmptyString => Eps | String c s => Seq (Char c) (Str s) end.

Fixpoint nullable (r : re) : bool :=
  match r with
  | Never | Chars _ => false
  | Eps | Star _ => true
  | Seq r1 r2 => nullable r1 && nullable r2
  | Alt r1 r2 => nullable r1 || nullable r2
  end.

Fixpoint deriv (c : ascii) (r : re) : re :=
  match r with
  | Never | Eps => Never
  | Chars P => if P c then Eps else Never
  | Seq r1 r2 =>
      if nullable r1 then Alt (Seq (deriv c r1) r2) (deriv c r2) else Seq (deriv c r1) r2
  | Alt r1 r2 => Alt (deriv c r1) (deriv c r2)
  | Star r => Seq (deriv c r) (Star r)
  end.

Fixpoint re_match (r : re) (s : string) : bool :=
  match s with
  | EmptyString => nullable r
  | String c s => re_match (deriv c r) s
  end.

Inductive lang : re -> string -> Prop :=
| lang_eps : lang Eps ""
| lang_chars P c : P c = true -> lang (Chars P) (String c "")
| lang_seq r1 r2 a b : lang r1 a -> lang r2 b -> lang (Seq r1 r2) (a +:+ b)
| lang_alt_l r1 r2 a : lang r1 a -> lang (Alt r1 r2) a
| lang_alt_r r1 r2 a : lang r2 a -> lang (Alt r1 r2) a
| lang_star_nil r : lang (Star r) ""
| lang_star_app r a b : lang r a -> lang (Star r) b -> lang (Star r) (a +:+ b).

Lemma nullable_lang r : nullable r = true ↔ lang r "".
Proof.
  split.
  - induction r as [| |P|r1 IH1 r2 IH2|r1 IH1 r2 IH2|r IH]; simpl; try done; try by constructor.
    + rewrite andb_true_iff. intros [H1 H2]. apply (lang_seq r1 r2 "" ""); auto.
    + rewrite orb_true_iff. intros [H|H]; [apply lang_alt_l|apply lang_alt_r]; auto.
  - remember ("") as e eqn:He. intros H.
    induction H as [|P c HP|r1 r2 a b _ IH1 _ IH2|r1 r2 a _ IH|r1 r2 a _ IH|r|r a b _ _ _ _];
      simpl; try done.
    + destruct a; [|done]. destruct b; [|done]. by rewrite IH1, IH2.
    + by rewrite IH.
    + rewrite IH by done. apply orb_true_r.
Qed.

Lemma deriv_lang c r s : lang (deriv c r) s ↔ lang r (String c s).
Proof.
  split.
  - revert s. induction r as [| |P|r1 IH1 r2 IH2|r1 IH1 r2 IH2|r IH]; intros s; simpl.
    + by inversion 1.
    + by inversion 1.
    + destruct (P c) eqn:HP; inversion 1. by constructor.
    + assert (lang (Seq (deriv c r1) r2) s -> lang (Seq r1 r2) (String c s)) as Hseq.
      { inversion 1; subst. rewrite <- str_app_cons. constructor; auto. }
      destruct (nullable r1) eqn:Hn; [|done]. inversion 1; subst; [by apply Hseq|].
      apply (lang_seq r1 r2 ""); [by apply nullable_lang|auto].
    + inversion 1; subst; [apply lang_alt_l|apply lang_alt_r]; auto.
    + inversion 1; subst. rewrite <- str_app_cons. apply lang_star_app; auto.
  - remember (String c s) as t eqn:Ht. intros H. revert s Ht.
    induction H as [|P d HP|r1 r2 a b H1 IH1 H2 IH2|r1 r2 a _ IH|r1 r2 a _ IH|r|r a b H1 IH1 H2 IH2];
      intros s Ht; simpl; try done.
    + injection Ht as -> <-. rewrite HP. constructor.
    + destruct a as [|d a].
      * simpl in Ht. subst. apply nullable_lang in H1. rewrite H1. apply lang_alt_r. auto.
      * rewrite str_app_cons in Ht. injection Ht as -> <-.
        destruct (nullable r1); [apply lang_alt_l|]; by constructor; auto.
    + apply lang_alt_l. auto.
    + apply lang_alt_r. auto.
    + destruct a as [|d a]; [by apply IH2|].
      rewrite str_app_cons in Ht. injection Ht as -> <-. constructor; auto.
Qed.

Lemma re_match_lang r s : re_match r s = true ↔ lang r s.
Proof.
  revert r. induction s as [|c s IH]; intros r; simpl; [apply nullable_lang|].
  rewrite IH. apply deriv_lang.
Qed.

(** ** Kubernetes names *)

Definition lower_alnum (c : ascii) : bool := is_ascii_lowercase c || is_ascii_digit c.

(** [a-z0-9]([-a-z0-9]*[a-z0-9])? *)
Definition label_pattern : re :=
  Seq (Chars lower_alnum)
    (Opt (Seq (Star (Chars (fun c => lower_alnum c || Ascii.eqb c "-"))) (Chars lower_alnum))).

(** label([.]label)* *)
Definition subdomain_pattern : re := Seq label_pattern (Star (Seq (Char ".") label_pattern)).

Lemma lang_seq_inv r1 r2 s : lang (Seq r1 r2) s -> ∃ a b, s = a +:+ b ∧ lang r1 a ∧ lang r2 b.
Proof. inversion 1; subst; eauto. Qed.

Lemma lang_star_chars P s : lang (Star (Chars P)) s ↔ str_all P s = true.
Proof.
  split.
  - remember (Star (Chars P)) as r eqn:Hr. intros H. revert P Hr.
    induction H as [| | | | |r|r a b H1 _ H2 IH2]; intros P' Hr; try done.
    injection Hr as ->. inversion H1 as [|P0 c HP| | | | |]; subst.
    change (P' c && str_all P' b = true). by rewrite HP, (IH2 P').
  - induction s as [|c s IH]; [constructor|]. cbn [str_all]. rewrite andb_true_iff. intros [Hc Hs].
    change (String c s) with (String c "" +:+ s). apply lang_star_app; [by constructor|auto].
Qed.

Lemma str_last_app a c : str_last (a +:+ String c "") = Some c.
Proof.
  induction a as [|d a IH]; [done|]. rewrite str_app_cons. simpl.
  destruct (a +:+ String c "") eqn:E; [by destruct a|done].
Qed.

Lemma str_last_split s c : str_last s = Some c -> ∃ a, s = a +:+ String c "".
Proof.
  induction s as [|d s IH]; [done|]. simpl. destruct s as [|e s].
  - intros [= ->]. by exists "".
  - intros H. destruct (IH H) as [a Ha]. exists (String d a). by rewrite Ha, str_app_cons.
Qed.

Definition label_byte (c : ascii) : bool := lower_alnum c || Ascii.eqb c "-".

Lemma lower_alnum_spec c : lower_alnum c = label_byte c && is_ascii_alphanumeric c.
Proof. destruct c as [[] [] [] [] [] [] [] []]; reflexivity. Qed.

Lemma label_shape s :
  matches_dns1123_label s = true ↔
    ∃ c t, s = String c t ∧ lower_alnum c = true ∧
      (t = "" ∨ ∃ u d, t = u +:+ String d "" ∧ str_all label_byte u = true ∧ lower_alnum d = true).
Proof.
  unfold matches_dns1123_label. fold lower_alnum. rewrite !andb_true_iff. split.
  - intros [[Hall Hf] Hl]. destruct s as [|c t]; [done|]. simpl in Hf.
    assert (str_all label_byte (String c t) = true) as Hall' by exact Hall. clear Hall.
    cbn [str_all] in Hall'. apply andb_true_iff in Hall' as [Hc Ht].
    exists c, t. split; [done|]. split; [by rewrite lower_alnum_spec, Hc|].
    destruct t as [|e t]; [by left|right].
    destruct (str_last (String c (String e t))) as [d|] eqn:Hd; [|done].
    change (str_last (String e t) = Some d) in Hd.
    apply str_last_split in Hd as [u Hu]. rewrite Hu, str_all_app in Ht. cbn [str_all] in Ht.
    apply andb_true_iff in Ht as [Hu' Hd']. rewrite andb_true_r in Hd'.
    exists u, d. split_and!; [done..|]. by rewrite lower_alnum_spec, Hd'.
  - intros (c & t & -> & Hc & Ht). rewrite lower_alnum_spec in Hc.
    apply andb_true_iff in Hc as [Hc1 Hc2]. cbn [str_all str_first].
    destruct Ht as [->|(u & d & -> & Hu & Hd)].
    + split; [split; [|done]|exact Hc2]. rewrite andb_true_r. exact Hc1.
    + rewrite lower_alnum_spec in Hd. apply andb_true_iff in Hd as [Hd1 Hd2].
      rewrite <- str_app_cons, str_last_app. split; [split; [|done]|exact Hd2].
      rewrite str_all_app. cbn [str_all]. rewrite andb_true_r, !andb_true_iff.
      split; [exact Hc1|]. split; [exact Hu|exact Hd1].
Qed.

Lemma label_pattern_matches s : re_match label_pattern s = matches_dns1123_label s.
Proof.
  apply eq_true_iff_eq. rewrite re_match_lang, label_shape. split.
  - intros (a & b & -> & Ha & Hb)%lang_seq_inv. inversion Ha as [|P c Hc| | | | |]; subst.
    exists c, b. rewrite str_app_cons, str_app_nil_l. split; [done|]. split; [done|].
    inversion Hb as [| | |r1 r2 x He|r1 r2 x Hx| |]; subst; [left; by inversion He|right].
    apply lang_seq_inv in Hx as (u & v & -> & Hu & Hv). inversion Hv as [|P d Hd| | | | |]; subst.
    apply lang_star_chars in Hu. by exists u, d.
  - intros (c & t & -> & Hc & Ht). change (String c t) with (String c "" +:+ t).
    constructor; [by constructor|]. destruct Ht as [->|(u & d & -> & Hu & Hd)].
    + apply lang_alt_l. constructor.
    + apply lang_alt_r. constructor; [by apply lang_star_chars|by constructor].
Qed.

Lemma label_no_dot s : matches_dns1123_label s = true -> contains_char "." s = false.
Proof.
  unfold matches_dns1123_label. rewrite !andb_true_iff. intros [[H _] _].
  by eapply str_all_not_contains; [|exact H].
Qed.

(** The pattern of a subdomain, on the pieces between the dots. *)
Lemma subdomain_lang s : lang subdomain_pattern s ↔ forallb matches_dns1123_label (split "." s) = true.
Proof.
  rewrite forallb_forall. split.
  - intros (a & b & -> & Ha & Hb)%lang_seq_inv.
    apply re_match_lang in Ha. rewrite label_pattern_matches in Ha.
    remember (Star (Seq (Char ".") label_pattern)) as r eqn:Hr. revert a Ha.
    induction Hb as [| | | | |r|r x y Hx _ _ IH]; intros z Ha; try done.
    + rewrite str_app_nil_r, split_no_sep by by apply label_no_dot.
      intros ? [<-|[]]. done.
    + injection Hr as ->. apply lang_seq_inv in Hx as (p & l & -> & Hp & Hl).
      inversion Hp as [|P c Hc| | | | |]; subst. apply Ascii.eqb_eq in Hc as <-.
      apply re_match_lang in Hl. rewrite label_pattern_matches in Hl.
      rewrite !str_app_cons, str_app_nil_l, split_app_sep by by apply label_no_dot.
      intros ? [<-|Hz]; [done|]. by apply (IH eq_refl l Hl).
  - intros Hall. rewrite <- (join_split "." s).
    assert (Forall (fun x => lang label_pattern x) (split "." s)) as Hl.
    { apply Forall_forall. intros x Hx%list_elem_of_In. apply re_match_lang.
      rewrite label_pattern_matches. auto. }
    clear Hall. pose proof (split_ne_nil "." s) as Hne.
    destruct (split "." s) as [|x l]; [done|]. clear Hne s.
    apply Forall_cons in Hl as [Hx Hl]. unfold subdomain_pattern.
    assert (forall x, lang label_pattern x -> lang subdomain_pattern (join (String "." "") (x :: l))) as H;
      [|by apply H]. clear x Hx. unfold subdomain_pattern. induction Hl as [|y l Hy Hl IH]; intros x Hx.
    + rewrite <- (str_app_nil_r (join _ [x])). constructor; [done|constructor].
    + change (join (String "." "") (x :: y :: l)) with
        (x +:+ (String "." "" +:+ join (String "." "") (y :: l))).
      constructor; [done|]. destruct (lang_seq_inv _ _ _ (IH y Hy)) as (u & v & Huv & Hu & Hv).
      rewrite Huv, <- str_app_assoc. apply lang_star_app; [|done].
      constructor; [by constructor|done].
Qed.

Lemma subdomain_pattern_matches s :
  re_match subdomain_pattern s = forallb matches_dns1123_label (split "." s).
Proof. apply eq_true_iff_eq. by rewrite re_match_lang, subdomain_lang. Qed.
End Regex.
