(* ===== verification/OperatorSpec.v ===== *)
(** * The operator's custom resource (operator/src/crd.rs, labels.rs, tls.rs)

    The spec and status of a ModelExpressServer, and [admitted], the CEL rules and
    length bounds that the derive puts on the schema and the API server enforces on
    every write.  [spec_typed] are the ranges of the field types.  First the API objects
    that the operator applies: the fields that it reads or sets; a field that it only
    passes on is the JSON value that the user wrote.  These types belong to the API, not
    to the program. *)

From Stdlib Require Import ZArith Lia Ascii String.
From stdpp Require Import base tactics option list gmap fin_maps strings.
From S2P Require Import Prelude RustStr Json Regex.

(** ** Kubernetes API objects *)

Abbreviation labels := (gmap string string).

(** ** Metadata *)

Record OwnerReference : Type := MkOwnerReference {
  or_kind : string;
  or_name : string;
  or_uid : string;
  or_controller : option bool;
  or_block_owner_deletion : option bool
}.

Record ObjectMeta : Type := MkObjectMeta {
  om_name : option string;
  om_namespace : option string;
  om_labels : option labels;
  om_annotations : option labels;
  om_owner_references : option (list OwnerReference)
}.

(** ** Parts of a pod *)

Record LabelSelectorRequirement : Type := MkRequirement {
  lr_key : string;
  lr_operator : string;
  lr_values : option (list string)
}.

Record LabelSelector : Type := MkLabelSelector {
  ls_match_labels : option labels;
  ls_match_expressions : option (list LabelSelectorRequirement)
}.

Inductive IntOrString : Type :=
| PortInt (z : Z)
| PortString (s : string).

Record ResourceRequirements : Type := MkResourceRequirements {
  rr_requests : option labels;
  rr_limits : option labels;
  rr_claims : option json
}.

Record SeccompProfile : Type := MkSeccompProfile {
  sp_type : string;
  sp_localhost_profile : option string
}.

(** [psc_rest]: the other fields. *)
Record PodSecurityContext : Type := MkPodSecurityContext {
  psc_run_as_non_root : option bool;
  psc_seccomp_profile : option SeccompProfile;
  psc_rest : json
}.

Record SecurityContext : Type := MkSecurityContext {
  sctx_allow_privilege_escalation : option bool;
  sctx_run_as_non_root : option bool;
  sctx_drop : list string
}.

Inductive ProbeAction : Type :=
| TcpSocket (port : Z)
| Grpc (port : Z).

Record Probe : Type := MkProbe {
  pr_action : ProbeAction;
  pr_initial_delay_seconds : option Z;
  pr_period_seconds : option Z;
  pr_failure_threshold : option Z
}.

Inductive EnvSource : Type :=
| SecretKey (name key : string) (optional : bool)
| FieldRef (field_path : string).

Record EnvVar : Type := MkEnvVar {
  ev_name : string;
  ev_value : option string;
  ev_value_from : option EnvSource
}.

Inductive VolumeSource : Type :=
| EmptyDirSource (size_limit : option string)
| ClaimSource (claim_name : string)
| SecretSource (secret_name : string).

Record Volume : Type := MkVolume { vo_name : string; vo_source : VolumeSource }.

Record VolumeMount : Type := MkVolumeMount {
  vm_name : string;
  vm_mount_path : string;
  vm_read_only : option bool
}.

Record ContainerPort : Type := MkContainerPort { cp_name : option string; cp_container_port : Z }.

Record Container : Type := MkContainer {
  ct_name : string;
  ct_image : option string;
  ct_ports : list ContainerPort;
  ct_env : list EnvVar;
  ct_volume_mounts : list VolumeMount;
  ct_startup_probe : Probe;
  ct_readiness_probe : Probe;
  ct_liveness_probe : Probe;
  ct_security_context : SecurityContext;
  ct_resources : ResourceRequirements
}.

Record PodSpec : Type := MkPodSpec {
  ps_containers : list Container;
  ps_security_context : PodSecurityContext;
  ps_volumes : list Volume;
  ps_service_account_name : option string;
  ps_image_pull_secrets : option (list string);
  ps_node_selector : option labels;
  ps_tolerations : option json;
  ps_affinity : option json
}.

(** ** Objects *)

Record Deployment : Type := MkDeployment {
  dp_metadata : ObjectMeta;
  dp_replicas : Z;
  dp_strategy : string;
  dp_selector : LabelSelector;
  dp_template_labels : option labels;
  dp_template_annotations : option labels;
  dp_pod : PodSpec
}.

Record ServicePort : Type := MkServicePort {
  sp_name : option string;
  sp_port : Z;
  sp_target_port : IntOrString
}.

Record Service : Type := MkService {
  sv_metadata : ObjectMeta;
  sv_selector : labels;
  sv_ports : list ServicePort
}.

(** [pcs_rest]: the other fields of a claim. *)
Record PersistentVolumeClaimSpec : Type := MkClaimSpec {
  pcs_access_modes : option (list string);
  pcs_requests : option (option labels);
  pcs_rest : json
}.

Record PersistentVolumeClaim : Type := MkClaim {
  pvc_metadata : ObjectMeta;
  pvc_spec : option PersistentVolumeClaimSpec
}.

Record NetworkPolicyPeer : Type := MkPeer {
  np_namespace_selector : option LabelSelector;
  np_pod_selector : option LabelSelector;
  np_ip_block : option json
}.

Record NetworkPolicyPort : Type := MkPolicyPort {
  npp_port : option IntOrString;
  npp_protocol : option string
}.

Record IngressRule : Type := MkIngressRule {
  ir_from : option (list NetworkPolicyPeer);
  ir_ports : option (list NetworkPolicyPort)
}.

(** [np_egress_rules]: the number of rules without restriction. *)
Record NetworkPolicy : Type := MkNetworkPolicy {
  np_metadata : ObjectMeta;
  np_pod_match_labels : labels;
  np_policy_types : list string;
  np_ingress : list IngressRule;
  np_egress_rules : nat
}.

Record PolicyRule : Type := MkPolicyRule {
  pr_api_groups : list string;
  pr_resources : list string;
  pr_verbs : list string
}.

Record Subject : Type := MkSubject {
  su_kind : string;
  su_name : string;
  su_namespace : option string
}.

Record RoleRef : Type := MkRoleRef {
  ref_api_group : string;
  ref_kind : string;
  ref_name : string
}.

Record ServiceAccount : Type := MkServiceAccount { acc_metadata : ObjectMeta }.

Record Role : Type := MkRole { ro_metadata : ObjectMeta; ro_rules : list PolicyRule }.

Record RoleBinding : Type := MkRoleBinding {
  rb_metadata : ObjectMeta;
  rb_role_ref : RoleRef;
  rb_subjects : list Subject
}.

Record Condition : Type := MkCondition {
  cn_type : string;
  cn_status : string;
  cn_reason : string;
  cn_message : string;
  cn_observed_generation : option Z;
  cn_last_transition_time : Z
}.

Definition no_meta : ObjectMeta := MkObjectMeta None None None None None.

Import Regex.

Module Crd.

(** ** Data *)

Record SecretKeyRef : Type := MkSecretKeyRef { sk_name : string; sk_key : string }.

Record RedisBackend : Type := MkRedisBackend {
  rb_url : option string;
  rb_url_secret : option SecretKeyRef
}.

Inductive MetadataBackend : Type :=
| RedisStore (r : RedisBackend)
| KubernetesStore.

Inductive LogLevel : Type := Trace | Debug | Info | Warn | Error.
Inductive LogFormat : Type := Json | Pretty | Compact.

Definition level_as_env_value (l : LogLevel) : string :=
  match l with
  | Trace => "trace" | Debug => "debug" | Info => "info" | Warn => "warn" | Error => "error"
  end.

Definition format_as_env_value (f : LogFormat) : string :=
  match f with Json => "json" | Pretty => "pretty" | Compact => "compact" end.

Record LogConfig : Type := MkLogConfig {
  lg_level : option LogLevel;
  lg_format : option LogFormat
}.

Record MetadataOverrides : Type := MkMetadataOverrides {
  mo_labels : option labels;
  mo_annotations : option labels
}.

Record ManagedPvcStorage : Type := MkManagedPvc {
  mp_metadata : option MetadataOverrides;
  mp_spec : PersistentVolumeClaimSpec
}.

Inductive CacheStorage : Type :=
| EmptyDir (size_limit : option string)
| ExistingClaim (claim_name : string)
| Pvc (managed : ManagedPvcStorage).

Record CacheConfig : Type := MkCacheConfig {
  ca_directory : option string;
  ca_eviction_enabled : option bool;
  ca_storage : option CacheStorage
}.

Inductive AuthMode : Type := Disabled | Enforce.

#[export] Instance AuthMode_eq_dec : EqDecision AuthMode.
Proof. solve_decision. Defined.

Definition auth_as_env_value (m : AuthMode) : string :=
  match m with Disabled => "off" | Enforce => "enforce" end.

Record ServiceAccountRef : Type := MkAccountRef { ar_namespace : string; ar_service_account : string }.

Record SecurityConfig : Type := MkSecurity {
  se_mode : AuthMode;
  se_tenant_isolation : AuthMode;
  se_token_audiences : list string;
  se_allowed_service_accounts : list ServiceAccountRef;
  se_cache_ttl_secs : option Z
}.

Record TlsConfig : Type := MkTls {
  tl_secret_name : string;
  tl_min_version : option string;
  tl_cipher_suites : list string;
  tl_groups : list string
}.

Record ReaperConfig : Type := MkReaper {
  re_scan_interval_secs : option Z;
  re_heartbeat_timeout_secs : option Z;
  re_gc_timeout_secs : option Z
}.

Record ProbeTimingOverrides : Type := MkProbeTiming {
  pt_initial_delay_seconds : option Z;
  pt_period_seconds : option Z;
  pt_failure_threshold : option Z
}.

Record ProbeConfig : Type := MkProbes {
  pb_startup : option ProbeTimingOverrides;
  pb_readiness : option ProbeTimingOverrides;
  pb_liveness : option ProbeTimingOverrides
}.

Record CredentialsConfig : Type := MkCredentials {
  cr_hf_token_secret : option SecretKeyRef;
  cr_ngc_api_key_secret : option SecretKeyRef
}.

Record NetworkPolicyConfig : Type := MkPolicyConfig {
  nc_allow_from : list NetworkPolicyPeer;
  nc_monitoring_from : list NetworkPolicyPeer
}.

Record ModelExpressServerSpec : Type := MkSpec {
  sp_image : option string;
  sp_image_pull_secrets : option (list string);
  sp_replicas : Z;
  sp_metadata_backend : MetadataBackend;
  sp_port : Z;
  sp_log : option LogConfig;
  sp_cache : option CacheConfig;
  sp_security : option SecurityConfig;
  sp_tls : option TlsConfig;
  sp_reaper : option ReaperConfig;
  sp_probes : option ProbeConfig;
  sp_credentials : option CredentialsConfig;
  sp_pod_metadata : option MetadataOverrides;
  sp_service_metadata : option MetadataOverrides;
  sp_resources : option ResourceRequirements;
  sp_node_selector : option labels;
  sp_tolerations : option json;
  sp_affinity : option json;
  sp_network_policy : option NetworkPolicyConfig;
  sp_pod_security_context : option PodSecurityContext;
  sp_service_account_name : option string
}.

Record ModelExpressServerStatus : Type := MkServerStatus {
  st_observed_generation : option Z;
  st_conditions : list Condition;
  st_endpoint : option string
}.

(** ** Admission *)

(** [maxLength] counts characters. *)
Fixpoint char_count (s : string) : nat :=
  match s with
  | EmptyString => 0
  | String c s => if is_continuation c then char_count s else S (char_count s)
  end.

Definition max_length (n : nat) (s : string) : bool := (char_count s <=? n)%nat.

Definition opt_all {A} (P : A -> bool) (o : option A) : bool :=
  match o with Some a => P a | None => true end.

Definition secret_ref_ok (r : SecretKeyRef) : bool :=
  negb (String.eqb (sk_name r) "") && negb (String.eqb (sk_key r) "").

Definition redis_ok (r : RedisBackend) : bool :=
  negb (Bool.eqb (bool_decide (is_Some (rb_url r))) (bool_decide (is_Some (rb_url_secret r)))) &&
  opt_all (fun u => starts_with "redis://" u || starts_with "rediss://" u) (rb_url r) &&
  opt_all secret_ref_ok (rb_url_secret r).

Definition backend_ok (b : MetadataBackend) : bool :=
  match b with RedisStore r => redis_ok r | KubernetesStore => true end.

Definition digit_pattern : re := Chars is_ascii_digit.

(** ^[0-9]+([.][0-9]+)?(Ki|Mi|Gi|Ti|Pi|Ei|k|M|G|T|P|E|m)?$ *)
Definition quantity_pattern : re :=
  Seq (Plus digit_pattern)
    (Seq (Opt (Seq (Char ".") (Plus digit_pattern)))
       (Opt (foldr (fun s r => Alt (Str s) r) Never
               ["Ki"; "Mi"; "Gi"; "Ti"; "Pi"; "Ei"; "k"; "M"; "G"; "T"; "P"; "E"; "m"]))).

Definition many_mode (m : string) : bool :=
  String.eqb m "ReadWriteMany" || String.eqb m "ReadOnlyMany".

(** The bounds that [generate_crd] adds to the schema. *)
Definition access_modes_bounded (managed : ManagedPvcStorage) : bool :=
  opt_all (fun modes => (length modes <=? 8)%nat && forallb (max_length 32) modes)
    (pcs_access_modes (mp_spec managed)).

Definition storage_ok (s : CacheStorage) : bool :=
  match s with
  | EmptyDir size_limit =>
      opt_all (fun l => max_length 24 l && re_match quantity_pattern l) size_limit
  | ExistingClaim claim_name => negb (String.eqb claim_name "")
  | Pvc managed =>
      match pcs_requests (mp_spec managed) with
      | Some (Some requests) => bool_decide (is_Some (requests !! "storage"))
      | _ => false
      end && access_modes_bounded managed
  end.

(** More than one replica needs a claim that many nodes can mount. *)
Definition replicas_ok (replicas : Z) (cache : option CacheConfig) : bool :=
  (replicas <=? 1)%Z ||
  match cache ≫= ca_storage with
  | Some (Pvc managed) =>
      match pcs_access_modes (mp_spec managed) with
      | Some modes => existsb many_mode modes
      | None => false
      end
  | _ => true
  end.

Definition account_ok (r : ServiceAccountRef) : bool :=
  max_length 63 (ar_namespace r) && re_match label_pattern (ar_namespace r) &&
  max_length 253 (ar_service_account r) &&
  (String.eqb (ar_service_account r) "*" || re_match subdomain_pattern (ar_service_account r)).

Definition security_ok (s : SecurityConfig) : bool :=
  (negb (bool_decide (se_mode s = Enforce)) ||
     negb (bool_decide (se_token_audiences s = [])) &&
     match se_allowed_service_accounts s with [] => false | _ => true end) &&
  (negb (bool_decide (se_tenant_isolation s = Enforce)) || bool_decide (se_mode s = Enforce)) &&
  (length (se_token_audiences s) <=? 32)%nat &&
  (length (se_allowed_service_accounts s) <=? 256)%nat &&
  forallb account_ok (se_allowed_service_accounts s).

(** ^(VersionTLS1[0-3]|TLS1[.][0-3])$ *)
Definition tls_version_pattern : re :=
  let minor := Chars (byte_in 48 51) in
  Alt (Seq (Str "VersionTLS1") minor) (Seq (Str "TLS1.") minor).

Definition tls_ok (t : TlsConfig) : bool :=
  negb (String.eqb (tl_secret_name t) "") && max_length 253 (tl_secret_name t) &&
  opt_all (fun v => max_length 16 v && re_match tls_version_pattern v) (tl_min_version t) &&
  (length (tl_cipher_suites t) <=? 64)%nat && (length (tl_groups t) <=? 16)%nat.

Definition positive (o : option Z) : bool := opt_all (fun z => (0 <? z)%Z) o.

Definition reaper_ok (r : ReaperConfig) : bool :=
  match re_scan_interval_secs r, re_heartbeat_timeout_secs r with
  | Some scan, Some heartbeat => (scan <? heartbeat)%Z
  | _, _ => true
  end &&
  match re_heartbeat_timeout_secs r, re_gc_timeout_secs r with
  | Some heartbeat, Some gc => (heartbeat <=? gc)%Z
  | _, _ => true
  end &&
  positive (re_scan_interval_secs r) && positive (re_heartbeat_timeout_secs r) &&
  positive (re_gc_timeout_secs r).

Definition timing_ok (t : ProbeTimingOverrides) : bool :=
  opt_all (fun z => (0 <=? z)%Z) (pt_initial_delay_seconds t) && positive (pt_period_seconds t) &&
  positive (pt_failure_threshold t).

Definition probes_ok (p : ProbeConfig) : bool :=
  opt_all timing_ok (pb_startup p) && opt_all timing_ok (pb_readiness p) &&
  opt_all timing_ok (pb_liveness p).

Definition credentials_ok (c : CredentialsConfig) : bool :=
  opt_all secret_ref_ok (cr_hf_token_secret c) && opt_all secret_ref_ok (cr_ngc_api_key_secret c).

Definition policy_ok (p : NetworkPolicyConfig) : bool :=
  (length (nc_allow_from p) <=? 32)%nat && (length (nc_monitoring_from p) <=? 32)%nat.

Definition admitted (s : ModelExpressServerSpec) : bool :=
  opt_all (fun i => negb (String.eqb i "")) (sp_image s) &&
  opt_all (forallb (fun n => negb (String.eqb n ""))) (sp_image_pull_secrets s) &&
  (0 <=? sp_replicas s)%Z && replicas_ok (sp_replicas s) (sp_cache s) &&
  backend_ok (sp_metadata_backend s) &&
  ((0 <? sp_port s)%Z && (sp_port s <? 65536)%Z) &&
  opt_all storage_ok (sp_cache s ≫= ca_storage) &&
  opt_all security_ok (sp_security s) && opt_all tls_ok (sp_tls s) &&
  opt_all reaper_ok (sp_reaper s) && opt_all probes_ok (sp_probes s) &&
  opt_all credentials_ok (sp_credentials s) && opt_all policy_ok (sp_network_policy s) &&
  opt_all (max_length 253) (sp_service_account_name s).

Definition in_u32 (o : option Z) : Prop := forall z, o = Some z -> (0 <= z <= u32_max)%Z.

Definition spec_typed (s : ModelExpressServerSpec) : Prop :=
  in_u32 (sp_security s ≫= se_cache_ttl_secs) ∧
  in_u32 (sp_reaper s ≫= re_scan_interval_secs) ∧
  in_u32 (sp_reaper s ≫= re_heartbeat_timeout_secs) ∧
  in_u32 (sp_reaper s ≫= re_gc_timeout_secs).

(** ** labels.rs *)

Definition NAME_LABEL : string := "app.kubernetes.io/name".
Definition INSTANCE_LABEL : string := "app.kubernetes.io/instance".
Definition MANAGED_BY_LABEL : string := "app.kubernetes.io/managed-by".
Definition SERVER_NAME : string := "modelexpress-server".
Definition MANAGED_BY : string := "modelexpress-operator".

Definition selector_labels (cr_name : string) : labels :=
  list_to_map [(NAME_LABEL, SERVER_NAME); (INSTANCE_LABEL, cr_name)].

Definition managed_labels (cr_name : string) : labels :=
  <[MANAGED_BY_LABEL := MANAGED_BY]> (selector_labels cr_name).

(** ** tls.rs *)

Definition MOUNT_PATH : string := "/etc/modelexpress/tls".

Record TlsSettings : Type := MkTlsSettings {
  ts_min_version : option string;
  ts_ciphers : list string;
  ts_groups : list string
}.

Definition TlsSettings_default : TlsSettings := MkTlsSettings None [] [].

Record ResolvedTls : Type := MkResolvedTls { rt_secret_name : string; rt_settings : TlsSettings }.

Definition resolve (config : TlsConfig) (defaults : TlsSettings) : ResolvedTls :=
  MkResolvedTls (tl_secret_name config)
    (MkTlsSettings
       (match tl_min_version config with Some v => Some v | None => ts_min_version defaults end)
       (if bool_decide (tl_cipher_suites config = []) then ts_ciphers defaults
        else tl_cipher_suites config)
       (if bool_decide (tl_groups config = []) then ts_groups defaults else tl_groups config)).

Definition needs_defaults (config : TlsConfig) : bool :=
  negb (bool_decide (is_Some (tl_min_version config))) ||
  bool_decide (tl_cipher_suites config = []) || bool_decide (tl_groups config = []).

End Crd.
