(* ===== verification/OperatorRender.v ===== *)
(** * What the operator renders (operator/src/volume.rs, env.rs, deployment.rs, rbac.rs)

    The desired objects of one custom resource, as pure functions of its name, its spec
    and the defaults. *)

From Stdlib Require Import ZArith Lia Ascii String.
From stdpp Require Import base tactics option list gmap fin_maps strings.
From S2P Require Import Prelude RustStr RedisStore Json RegistryKube OperatorSpec.
Import Crd.

Module Render.

(** [BTreeMap::extend]: the second map wins. *)
Definition extend (base extra : labels) : labels := extra ∪ base.

(** ** volume.rs *)

Definition VOLUME_NAME : string := "model-cache".
Definition DEFAULT_MOUNT_PATH : string := "/var/cache/modelexpress".
Definition PVC_NAME_SUFFIX : string := "model-cache".

Record CacheVolume : Type := MkCacheVolume {
  cv_volume : Volume;
  cv_mount : VolumeMount;
  cv_pvc : option PersistentVolumeClaim
}.

Definition managed_pvc_name (cr_name : string) : string := cr_name +:+ "-" +:+ PVC_NAME_SUFFIX.

Definition mount_path (spec : ModelExpressServerSpec) : string :=
  default DEFAULT_MOUNT_PATH (sp_cache spec ≫= ca_directory).

Definition empty_dir_volume (size_limit : option string) : Volume :=
  MkVolume VOLUME_NAME (EmptyDirSource size_limit).

Definition claim_volume (claim_name : string) : Volume := MkVolume VOLUME_NAME (ClaimSource claim_name).

Definition default_access_modes (s : PersistentVolumeClaimSpec) : PersistentVolumeClaimSpec :=
  match pcs_access_modes s with
  | Some _ => s
  | None => MkClaimSpec (Some ["ReadWriteOnce"]) (pcs_requests s) (pcs_rest s)
  end.

Definition render_cache_volume (cr_name : string) (spec : ModelExpressServerSpec) : CacheVolume :=
  let mount := MkVolumeMount VOLUME_NAME (mount_path spec) None in
  match sp_cache spec ≫= ca_storage with
  | None => MkCacheVolume (empty_dir_volume None) mount None
  | Some (EmptyDir size_limit) => MkCacheVolume (empty_dir_volume size_limit) mount None
  | Some (ExistingClaim claim_name) => MkCacheVolume (claim_volume claim_name) mount None
  | Some (Pvc managed) =>
      let claim_name := managed_pvc_name cr_name in
      let user_labels := default ∅ (mp_metadata managed ≫= mo_labels) in
      let pvc :=
        MkClaim
          (MkObjectMeta (Some claim_name) None (Some (extend user_labels (managed_labels cr_name)))
             (mp_metadata managed ≫= mo_annotations) None)
          (Some (default_access_modes (mp_spec managed))) in
      MkCacheVolume (claim_volume claim_name) mount (Some pvc)
  end.

(** ** env.rs *)

Definition literal (name value : string) : EnvVar := MkEnvVar name (Some value) None.

Definition from_secret (name : string) (secret : SecretKeyRef) : EnvVar :=
  MkEnvVar name None (Some (SecretKey (sk_name secret) (sk_key secret) false)).

Definition downward_namespace (name : string) : EnvVar :=
  MkEnvVar name None (Some (FieldRef "metadata.namespace")).

(** [if let Some(a) = o { env.push(f(a)) }]. *)
Definition push_opt {A} (f : A -> EnvVar) (o : option A) : list EnvVar :=
  match o with Some a => [f a] | None => [] end.

Definition push_list {A} (name : string) (show : A -> string) (l : list A) : list EnvVar :=
  match l with [] => [] | _ => [literal name (join "," (map show l))] end.

Definition bool_text (b : bool) : string := if b then "true" else "false".

Definition backend_env (b : MetadataBackend) : list EnvVar :=
  match b with
  | RedisStore redis =>
      literal "MX_METADATA_BACKEND" "redis" ::
      match rb_url_secret redis with
      | Some secret => [from_secret "REDIS_URL" secret]
      | None => push_opt (literal "REDIS_URL") (rb_url redis)
      end
  | KubernetesStore =>
      [literal "MX_METADATA_BACKEND" "kubernetes"; downward_namespace "POD_NAMESPACE"]
  end.

Definition log_env (log : LogConfig) : list EnvVar :=
  push_opt (fun l => literal "MODEL_EXPRESS_LOG_LEVEL" (level_as_env_value l)) (lg_level log) ++
  push_opt (fun f => literal "MODEL_EXPRESS_LOG_FORMAT" (format_as_env_value f)) (lg_format log).

Definition account_text (sa : ServiceAccountRef) : string :=
  ar_namespace sa +:+ ":" +:+ ar_service_account sa.

Definition security_env (s : SecurityConfig) : list EnvVar :=
  [literal "MODEL_EXPRESS_SECURITY_MODE" (auth_as_env_value (se_mode s));
   literal "MODEL_EXPRESS_SECURITY_TENANT_ISOLATION" (auth_as_env_value (se_tenant_isolation s))] ++
  push_list "MODEL_EXPRESS_SECURITY_TOKEN_AUDIENCES" id (se_token_audiences s) ++
  push_list "MODEL_EXPRESS_SECURITY_ALLOWED_SERVICE_ACCOUNTS" account_text
    (se_allowed_service_accounts s) ++
  push_opt (fun ttl => literal "MODEL_EXPRESS_SECURITY_CACHE_TTL_SECS" (decimal ttl))
    (se_cache_ttl_secs s).

Definition tls_env (tls : ResolvedTls) : list EnvVar :=
  [literal "MODEL_EXPRESS_TLS_CERT_FILE" (MOUNT_PATH +:+ "/tls.crt");
   literal "MODEL_EXPRESS_TLS_KEY_FILE" (MOUNT_PATH +:+ "/tls.key")] ++
  push_opt (literal "MODEL_EXPRESS_TLS_MIN_VERSION") (ts_min_version (rt_settings tls)) ++
  push_list "MODEL_EXPRESS_TLS_CIPHER_SUITES" id (ts_ciphers (rt_settings tls)) ++
  push_list "MODEL_EXPRESS_TLS_GROUPS" id (ts_groups (rt_settings tls)).

Definition reaper_env (r : ReaperConfig) : list EnvVar :=
  push_opt (fun z => literal "MX_REAPER_SCAN_INTERVAL_SECS" (decimal z)) (re_scan_interval_secs r) ++
  push_opt (fun z => literal "MX_HEARTBEAT_TIMEOUT_SECS" (decimal z)) (re_heartbeat_timeout_secs r) ++
  push_opt (fun z => literal "MX_GC_TIMEOUT_SECS" (decimal z)) (re_gc_timeout_secs r).

Definition credentials_env (c : CredentialsConfig) : list EnvVar :=
  push_opt (from_secret "HF_TOKEN") (cr_hf_token_secret c) ++
  push_opt (from_secret "NGC_API_KEY") (cr_ngc_api_key_secret c).

Definition section {A} (f : A -> list EnvVar) (o : option A) : list EnvVar :=
  match o with Some a => f a | None => [] end.

Definition render_env (spec : ModelExpressServerSpec) (tls : option ResolvedTls) : list EnvVar :=
  backend_env (sp_metadata_backend spec) ++
  [literal "MODEL_EXPRESS_SERVER_PORT" (decimal (sp_port spec))] ++
  section log_env (sp_log spec) ++
  [literal "MODEL_EXPRESS_CACHE_DIRECTORY" (mount_path spec)] ++
  push_opt (fun b => literal "MODEL_EXPRESS_CACHE_EVICTION_ENABLED" (bool_text b))
    (sp_cache spec ≫= ca_eviction_enabled) ++
  section security_env (sp_security spec) ++
  section tls_env tls ++
  section reaper_env (sp_reaper spec) ++
  section credentials_env (sp_credentials spec).

(** ** rbac.rs *)

Definition UPSTREAM_API_GROUP : string := "modelexpress.nvidia.com".
Definition AUTH_DELEGATOR_CLUSTER_ROLE : string := "system:auth-delegator".

Definition service_account_name (cr_name : string) (spec : ModelExpressServerSpec) : string :=
  default (cr_name +:+ "-server") (sp_service_account_name spec).

Definition role_name (cr_name : string) : string := cr_name +:+ "-metadata".

(** The names are ASCII, so bytes are characters. *)
Definition auth_delegator_binding_name `{HexDigest} (cr_name ns : string) : result string string :=
  let? digest := hex_sha256 (ns +:+ "/" +:+ cr_name) in
  let readable := substring 0 100 ("modelexpress-" +:+ ns +:+ "-" +:+ cr_name) in
  Ok (trim_end_matches "-" readable +:+ "-auth-delegator-" +:+ substring 0 16 digest).

Definition named_meta (name cr_name : string) : ObjectMeta :=
  MkObjectMeta (Some name) None (Some (managed_labels cr_name)) None None.

Definition render_auth_delegator_binding `{HexDigest} (cr_name ns : string)
    (spec : ModelExpressServerSpec) : result (option RoleBinding) string :=
  if negb (bool_decide (se_mode <$> sp_security spec = Some Enforce)) then Ok None
  else
    let? name := auth_delegator_binding_name cr_name ns in
    Ok (Some (MkRoleBinding (named_meta name cr_name)
                (MkRoleRef "rbac.authorization.k8s.io" "ClusterRole" AUTH_DELEGATOR_CLUSTER_ROLE)
                [MkSubject "ServiceAccount" (service_account_name cr_name spec) (Some ns)])).

Record ServerRbac : Type := MkServerRbac {
  sb_service_account : option ServiceAccount;
  sb_role : option Role;
  sb_role_binding : option RoleBinding
}.

Definition server_policy_rules : list PolicyRule :=
  let crud := ["get"; "list"; "watch"; "create"; "update"; "patch"; "delete"] in
  [MkPolicyRule [UPSTREAM_API_GROUP] ["modelmetadatas"; "modelcacheentries"] crud;
   MkPolicyRule [UPSTREAM_API_GROUP] ["modelmetadatas/status"; "modelcacheentries/status"]
     ["get"; "update"; "patch"];
   MkPolicyRule [UPSTREAM_API_GROUP] ["modelmetadatas/finalizers"; "modelcacheentries/finalizers"]
     ["update"];
   MkPolicyRule [""] ["configmaps"] crud].

Definition render_rbac (cr_name : string) (spec : ModelExpressServerSpec) : ServerRbac :=
  match sp_service_account_name spec with
  | Some _ => MkServerRbac None None None
  | None =>
      let sa_name := service_account_name cr_name spec in
      let service_account := Some (MkServiceAccount (named_meta sa_name cr_name)) in
      match sp_metadata_backend spec with
      | RedisStore _ => MkServerRbac service_account None None
      | KubernetesStore =>
          MkServerRbac service_account
            (Some (MkRole (named_meta (role_name cr_name) cr_name) server_policy_rules))
            (Some (MkRoleBinding (named_meta (role_name cr_name) cr_name)
                     (MkRoleRef "rbac.authorization.k8s.io" "Role" (role_name cr_name))
                     [MkSubject "ServiceAccount" sa_name None]))
      end
  end.

(** ** deployment.rs *)

Definition CONTAINER_NAME : string := "server".
Definition PORT_NAME : string := "grpc".
Definition TLS_VOLUME_NAME : string := "tls".
Definition METRICS_PORT : Z := 9401.
Definition HBONE_PORT : Z := 15008.
Definition DEFAULT_MONITORING_NAMESPACES : list string :=
  ["openshift-monitoring"; "openshift-user-workload-monitoring"; "redhat-ods-monitoring"].

Record DesiredState : Type := MkDesired {
  ds_deployment : Deployment;
  ds_service : Service;
  ds_pvc : option PersistentVolumeClaim;
  ds_network_policy : NetworkPolicy
}.

Definition tcp_port (port : Z) : NetworkPolicyPort := MkPolicyPort (Some (PortInt port)) (Some "TCP").

Definition default_monitoring_peers : list NetworkPolicyPeer :=
  [MkPeer (Some (MkLabelSelector None
                   (Some [MkRequirement "kubernetes.io/metadata.name" "In"
                            (Some DEFAULT_MONITORING_NAMESPACES)])))
     None None].

Definition pod_labels (cr_name : string) (spec : ModelExpressServerSpec) : labels :=
  extend (default ∅ (sp_pod_metadata spec ≫= mo_labels)) (managed_labels cr_name).

Definition service_labels (cr_name : string) (spec : ModelExpressServerSpec) : labels :=
  let base := pod_labels cr_name spec in
  let base := match sp_service_metadata spec ≫= mo_labels with
              | Some extra => extend base extra
              | None => base
              end in
  extend base (managed_labels cr_name).

Definition build_network_policy (cr_name : string) (spec : ModelExpressServerSpec) : NetworkPolicy :=
  let restricted :=
    match sp_network_policy spec with
    | Some np => match nc_allow_from np with [] => None | _ => Some np end
    | None => None
    end in
  let ingress :=
    match restricted with
    | Some np =>
        let monitoring_from :=
          match nc_monitoring_from np with [] => default_monitoring_peers | peers => peers end in
        [MkIngressRule (Some (nc_allow_from np)) (Some [tcp_port (sp_port spec); tcp_port HBONE_PORT]);
         MkIngressRule (Some monitoring_from) (Some [tcp_port METRICS_PORT])]
    | None =>
        [MkIngressRule None
           (Some [tcp_port (sp_port spec); tcp_port HBONE_PORT; tcp_port METRICS_PORT])]
    end in
  MkNetworkPolicy (MkObjectMeta (Some cr_name) None (Some (pod_labels cr_name spec)) None None)
    (selector_labels cr_name) ["Ingress"; "Egress"] ingress 1.

Definition pod_security_context (spec : ModelExpressServerSpec) : PodSecurityContext :=
  let context := default (MkPodSecurityContext None None (JObj [])) (sp_pod_security_context spec) in
  MkPodSecurityContext
    (match psc_run_as_non_root context with Some b => Some b | None => Some true end)
    (match psc_seccomp_profile context with
     | Some p => Some p
     | None => Some (MkSeccompProfile "RuntimeDefault" None)
     end)
    (psc_rest context).

Definition container_security_context : SecurityContext :=
  MkSecurityContext (Some false) (Some true) ["ALL"].

Definition rollout_strategy (volume : Volume) : string :=
  match vo_source volume with ClaimSource _ => "Recreate" | _ => "RollingUpdate" end.

Definition default_resources : ResourceRequirements :=
  MkResourceRequirements (Some (list_to_map [("cpu", "100m"); ("memory", "256Mi")])) None None.

Record RenderedProbes : Type := MkRenderedProbes {
  rp_startup : Probe;
  rp_readiness : Probe;
  rp_liveness : Probe
}.

Definition DEFAULT_STARTUP : Z * Z * option Z := (5, 10, Some 30)%Z.
Definition DEFAULT_READINESS : Z * Z * option Z := (5%Z, 10%Z, None).
Definition DEFAULT_LIVENESS : Z * Z * option Z := (15%Z, 30%Z, None).

Definition build_probe (spec : ModelExpressServerSpec) (tls : bool) (defaults : Z * Z * option Z)
    (timing : option ProbeTimingOverrides) : Probe :=
  let '(delay, period, threshold) := defaults in
  MkProbe (if tls then TcpSocket (sp_port spec) else Grpc (sp_port spec))
    (Some (default delay (timing ≫= pt_initial_delay_seconds)))
    (Some (default period (timing ≫= pt_period_seconds)))
    (match timing ≫= pt_failure_threshold with Some n => Some n | None => threshold end).

Definition render_probes (spec : ModelExpressServerSpec) (tls : bool) : RenderedProbes :=
  MkRenderedProbes
    (build_probe spec tls DEFAULT_STARTUP (sp_probes spec ≫= pb_startup))
    (build_probe spec tls DEFAULT_READINESS (sp_probes spec ≫= pb_readiness))
    (build_probe spec tls DEFAULT_LIVENESS (sp_probes spec ≫= pb_liveness)).

Definition render (cr_name : string) (spec : ModelExpressServerSpec) (image : string)
    (tls_defaults : TlsSettings) : DesiredState :=
  let cache := render_cache_volume cr_name spec in
  let pod_labels := pod_labels cr_name spec in
  let tls := (fun config => resolve config tls_defaults) <$> sp_tls spec in
  let probes := render_probes spec (bool_decide (is_Some tls)) in
  let tls_mounts := match tls with
                    | Some _ => [MkVolumeMount TLS_VOLUME_NAME MOUNT_PATH (Some true)]
                    | None => []
                    end in
  let tls_volumes := match tls with
                     | Some t => [MkVolume TLS_VOLUME_NAME (SecretSource (rt_secret_name t))]
                     | None => []
                     end in
  let container :=
    MkContainer CONTAINER_NAME (Some image) [MkContainerPort (Some PORT_NAME) (sp_port spec)]
      (render_env spec tls) (cv_mount cache :: tls_mounts)
      (rp_startup probes) (rp_readiness probes) (rp_liveness probes)
      container_security_context (default default_resources (sp_resources spec)) in
  let deployment :=
    MkDeployment (MkObjectMeta (Some cr_name) None (Some pod_labels) None None)
      (sp_replicas spec) (rollout_strategy (cv_volume cache))
      (MkLabelSelector (Some (selector_labels cr_name)) None)
      (Some pod_labels) (sp_pod_metadata spec ≫= mo_annotations)
      (MkPodSpec [container] (pod_security_context spec) (cv_volume cache :: tls_volumes)
         (Some (service_account_name cr_name spec)) (sp_image_pull_secrets spec)
         (sp_node_selector spec) (sp_tolerations spec) (sp_affinity spec)) in
  let service :=
    MkService
      (MkObjectMeta (Some cr_name) None (Some (service_labels cr_name spec))
         (sp_service_metadata spec ≫= mo_annotations) None)
      (selector_labels cr_name)
      [MkServicePort (Some PORT_NAME) (sp_port spec) (PortString PORT_NAME)] in
  MkDesired deployment service (cv_pvc cache) (build_network_policy cr_name spec).

End Render.
