(* ===== verification/Operator.v ===== *)
(** * The operator's controller (operator/src/controller.rs)

    A reconcile is a program of requests to the API server, of the clock and of the
    source of TLS defaults.  The server is not modelled: [run] lets every request have
    any answer, and lets the operator stop before any request, so that what is proved of
    runs holds for every server, every concurrent change and every crash.  Metrics and
    logging are left out, and so is the wiring of the watches ([run] of the source). *)

From Stdlib Require Import ZArith Lia Ascii String.
From stdpp Require Import base tactics option list gmap fin_maps strings.
From S2P Require Import Prelude RustStr RedisStore Json RegistryKube OperatorSpec.
From S2P Require Import OperatorRender.
Import Crd Render.

Module Operator.

(** ** Requests *)

(** A failed request: the status code, when the server answered, and the text. *)
Record KubeFailure : Type := MkKubeFailure { kf_code : option Z; kf_message : string }.

Inductive kind : Type :=
| KServiceAccount | KRole | KRoleBinding | KClusterRoleBinding | KNetworkPolicy.

#[export] Instance kind_eq_dec : EqDecision kind.
Proof. solve_decision. Defined.

Inductive object : Type :=
| OServiceAccount (o : ServiceAccount)
| ORole (o : Role)
| ORoleBinding (o : RoleBinding)
| OClusterRoleBinding (o : RoleBinding)
| OClaim (o : PersistentVolumeClaim)
| ODeployment (o : Deployment)
| OService (o : Service)
| ONetworkPolicy (o : NetworkPolicy).

(** [Apply] is a forced server-side apply under the operator's field manager. *)
Inductive req : Type -> Type :=
| GetClaim (ns name : string) : req (result (option PersistentVolumeClaim) KubeFailure)
| GetMeta (k : kind) (ns : option string) (name : string) : req (result (option ObjectMeta) KubeFailure)
| Apply (ns : option string) (name : string) (o : object) : req (result unit KubeFailure)
| Delete (k : kind) (ns : option string) (name : string) : req (result unit KubeFailure)
| ApplyFinalizers (ns name : string) (finalizers : list string) : req (result unit KubeFailure)
| ApplyStatus (ns name : string) (status : ModelExpressServerStatus) : req (result unit KubeFailure)
| CurrentTlsDefaults : req (result TlsSettings string)
| Now : req Z.

Inductive prog (A : Type) : Type :=
| Ret (a : A)
| Do {R} (r : req R) (k : R -> prog A).
Arguments Ret {A} _.
Arguments Do {A R} _ _.

Fixpoint bind {A B} (p : prog A) (f : A -> prog B) : prog B :=
  match p with
  | Ret a => f a
  | Do r k => Do r (fun x => bind (k x) f)
  end.

Definition ask {R} (r : req R) : prog R := Do r Ret.

(** A program that may fail; [?] propagates the error. *)
Definition bind_ok {A B E} (p : prog (result A E)) (f : A -> prog (result B E))
    : prog (result B E) :=
  bind p (fun r => match r with Ok a => f a | Err e => Ret (Err e) end).

Notation "'let*' x ':=' p 'in' k" := (bind p (fun x => k))
  (at level 10, x name, p at level 100, k at level 200) : mx_scope.
Notation "'try*' x ':=' p 'in' k" := (bind_ok p (fun x => k))
  (at level 10, x name, p at level 100, k at level 200) : mx_scope.

(** A request with its answer, if the operator got one. *)
Inductive event : Type :=
| Ev {R} (r : req R) (x : option R).

(** The requests of a run, the latest first, up to its end or to a stop of the operator:
    before a request, or before the answer of one. *)
Inductive run {A} : list event -> prog A -> list event -> option A -> Prop :=
| run_stop h p : run h p h None
| run_lost h R (r : req R) k : run h (Do r k) (Ev r None :: h) None
| run_ret h a : run h (Ret a) h (Some a)
| run_do h R (r : req R) k x h' o :
    run (Ev r (Some x) :: h) (k x) h' o -> run h (Do r k) h' o.

(** ** The custom resource *)

Record ModelExpressServer : Type := MkCr {
  cr_name : option string;
  cr_namespace : option string;
  cr_uid : option string;
  cr_generation : option Z;
  cr_deleted : bool;
  cr_finalizers : list string;
  cr_spec : ModelExpressServerSpec;
  cr_status : option ModelExpressServerStatus
}.

Inductive Error : Type :=
| Kube (e : KubeFailure)
| TlsDefaultsError (e : string)
| ServerImageUnset
| MissingNamespace
| MissingUid
| MissingClaim (claim : string)
| SingleNodeClaim (claim : string) (modes : list string) (replicas : Z)
| Digest (e : string).

Inductive Action : Type := AwaitChange | Requeue (secs : Z).

Definition FIELD_MANAGER : string := "modelexpress-operator".
Definition AUTH_DELEGATOR_FINALIZER : string := "modelexpress.opendatahub.io/auth-delegator".

(** [ResourceExt::name_any] of an object that the API server knows. *)
Definition name_any (cr : ModelExpressServer) : string := default "" (cr_name cr).

(** kube's [controller_owner_ref]. *)
Definition controller_owner_ref (cr : ModelExpressServer) : option OwnerReference :=
  name ← cr_name cr; uid ← cr_uid cr;
  Some (MkOwnerReference "ModelExpressServer" name uid (Some true) None).

Definition endpoint (name ns : string) (port : Z) (tls : bool) : string :=
  (if tls then "https" else "http") +:+ "://" +:+ name +:+ "." +:+ ns +:+
  ".svc.cluster.local:" +:+ signed_decimal port.

Definition server_image (spec : ModelExpressServerSpec) (dflt : option string) : result string Error :=
  match sp_image spec with
  | Some i => Ok i
  | None => match dflt with Some i => Ok i | None => Err ServerImageUnset end
  end.

Inductive NetworkPolicyOutcome : Type := Applied | NotOwned.

Definition stamp (ns : string) (owner : option OwnerReference) (meta : ObjectMeta) : ObjectMeta :=
  MkObjectMeta (om_name meta) (Some ns) (om_labels meta) (om_annotations meta)
    ((fun o => [o]) <$> owner).

(** [stamp(&mut o.metadata, ns, owner)] for each kind of object. *)
Definition stamp_account ns owner (o : ServiceAccount) : ServiceAccount :=
  MkServiceAccount (stamp ns owner (acc_metadata o)).
Definition stamp_role ns owner (o : Role) : Role :=
  MkRole (stamp ns owner (ro_metadata o)) (ro_rules o).
Definition stamp_binding ns owner (o : RoleBinding) : RoleBinding :=
  MkRoleBinding (stamp ns owner (rb_metadata o)) (rb_role_ref o) (rb_subjects o).
Definition stamp_claim ns owner (o : PersistentVolumeClaim) : PersistentVolumeClaim :=
  MkClaim (stamp ns owner (pvc_metadata o)) (pvc_spec o).
Definition stamp_deployment ns owner (o : Deployment) : Deployment :=
  MkDeployment (stamp ns owner (dp_metadata o)) (dp_replicas o) (dp_strategy o) (dp_selector o)
    (dp_template_labels o) (dp_template_annotations o) (dp_pod o).
Definition stamp_service ns owner (o : Service) : Service :=
  MkService (stamp ns owner (sv_metadata o)) (sv_selector o) (sv_ports o).
Definition stamp_policy ns owner (o : NetworkPolicy) : NetworkPolicy :=
  MkNetworkPolicy (stamp ns owner (np_metadata o)) (np_pod_match_labels o) (np_policy_types o)
    (np_ingress o) (np_egress_rules o).

Definition is_owned_by (meta : ObjectMeta) (owner_uid : string) : bool :=
  existsb (fun o => String.eqb (or_uid o) owner_uid) (default [] (om_owner_references meta)).

Definition may_apply (existing : option ObjectMeta) (owner_uid : string) : bool :=
  match existing with
  | None => true
  | Some meta =>
      existsb (fun o => bool_decide (or_controller o = Some true) && String.eqb (or_uid o) owner_uid)
        (default [] (om_owner_references meta))
  end.

Definition is_managed (meta : ObjectMeta) (cr_name : string) : bool :=
  let labels := default ∅ (om_labels meta) in
  bool_decide (labels !! MANAGED_BY_LABEL = Some MANAGED_BY) &&
  bool_decide (labels !! INSTANCE_LABEL = Some cr_name).

(** A request whose failure is the error of the reconcile. *)
Definition kube {A} (r : req (result A KubeFailure)) : prog (result A Error) :=
  let* x := ask r in
  Ret (match x with Ok a => Ok a | Err e => Err (Kube e) end).

(** A request that takes 404 for success. *)
Definition kube_or_gone (r : req (result unit KubeFailure)) : prog (result unit Error) :=
  let* x := ask r in
  Ret (match x with
       | Ok _ => Ok ()
       | Err e => if bool_decide (kf_code e = Some 404%Z) then Ok () else Err (Kube e)
       end).

Definition lift {A E} (f : E -> Error) (r : result A E) : prog (result A Error) :=
  Ret (match r with Ok a => Ok a | Err e => Err (f e) end).

(** ** Steps of a reconcile *)

Definition delete_if_owned (k : kind) (ns name owner_uid : string) : prog (result unit Error) :=
  try* existing := kube (GetMeta k (Some ns) name) in
  match existing with
  | None => Ret (Ok ())
  | Some meta =>
      if negb (is_owned_by meta owner_uid) then Ret (Ok ())
      else kube_or_gone (Delete k (Some ns) name)
  end.

Definition delete_if_managed (name cr_name : string) : prog (result unit Error) :=
  try* existing := kube (GetMeta KClusterRoleBinding None name) in
  match existing with
  | None => Ret (Ok ())
  | Some meta =>
      if negb (is_managed meta cr_name) then Ret (Ok ())
      else kube_or_gone (Delete KClusterRoleBinding None name)
  end.

Definition has_finalizer (cr : ModelExpressServer) : bool :=
  existsb (String.eqb AUTH_DELEGATOR_FINALIZER) (cr_finalizers cr).

Definition set_finalizer (cr : ModelExpressServer) (ns name : string) (present : bool)
    : prog (result unit Error) :=
  if Bool.eqb (has_finalizer cr) present then Ret (Ok ())
  else kube_or_gone (ApplyFinalizers ns name (if present then [AUTH_DELEGATOR_FINALIZER] else [])).

Definition check_existing_claim (cr : ModelExpressServer) (ns : string) : prog (result unit Error) :=
  match sp_cache (cr_spec cr) ≫= ca_storage with
  | Some (ExistingClaim claim_name) =>
      if (sp_replicas (cr_spec cr) <=? 1)%Z then Ret (Ok ())
      else
        try* claim := kube (GetClaim ns claim_name) in
        match claim with
        | None => Ret (Err (MissingClaim claim_name))
        | Some claim =>
            let modes := default [] (pvc_spec claim ≫= pcs_access_modes) in
            if negb (existsb many_mode modes)
            then Ret (Err (SingleNodeClaim claim_name modes (sp_replicas (cr_spec cr))))
            else Ret (Ok ())
        end
  | _ => Ret (Ok ())
  end.

Section reconcile.
Context `{HexDigest}.
(** [Debug] of a list of strings, and [Ctx::default_server_image]. *)
Context (debug_strs : list string -> string) (default_server_image : option string).

Definition apply_auth_delegator (cr : ModelExpressServer) (ns name : string)
    : prog (result unit Error) :=
  try* binding_name := lift Digest (auth_delegator_binding_name name ns) in
  try* rendered := lift Digest (render_auth_delegator_binding name ns (cr_spec cr)) in
  match rendered with
  | Some binding =>
      try* _u := set_finalizer cr ns name true in
      kube (Apply None binding_name (OClusterRoleBinding binding))
  | None =>
      try* _u := delete_if_managed binding_name name in
      set_finalizer cr ns name false
  end.

Definition release_auth_delegator (cr : ModelExpressServer) (ns name : string)
    : prog (result unit Error) :=
  try* binding_name := lift Digest (auth_delegator_binding_name name ns) in
  try* _u := delete_if_managed binding_name name in
  set_finalizer cr ns name false.

Definition apply_rbac (cr : ModelExpressServer) (ns uid : string) : prog (result unit Error) :=
  let name := name_any cr in
  let rbac := render_rbac name (cr_spec cr) in
  let owner := controller_owner_ref cr in
  try* _u :=
    match sb_service_account rbac with
    | Some sa =>
        kube (Apply (Some ns) (service_account_name name (cr_spec cr))
                (OServiceAccount (stamp_account ns owner sa)))
    | None => delete_if_owned KServiceAccount ns (name +:+ "-server") uid
    end in
  let rname := role_name name in
  try* _v :=
    match sb_role rbac, sb_role_binding rbac with
    | Some role, Some binding =>
        try* _r := kube (Apply (Some ns) rname (ORole (stamp_role ns owner role))) in
        kube (Apply (Some ns) rname (ORoleBinding (stamp_binding ns owner binding)))
    | _, _ =>
        try* _b := delete_if_owned KRoleBinding ns rname uid in
        delete_if_owned KRole ns rname uid
    end in
  apply_auth_delegator cr ns name.

Definition apply (cr : ModelExpressServer) (ns name : string)
    : prog (result NetworkPolicyOutcome Error) :=
  try* _c := check_existing_claim cr ns in
  match cr_uid cr with
  | None => Ret (Err MissingUid)
  | Some uid =>
      try* tls_defaults :=
        match sp_tls (cr_spec cr) with
        | Some config =>
            if needs_defaults config then
              let* d := ask CurrentTlsDefaults in lift TlsDefaultsError d
            else Ret (Ok TlsSettings_default)
        | None => Ret (Ok TlsSettings_default)
        end in
      match server_image (cr_spec cr) default_server_image with
      | Err e => Ret (Err e)
      | Ok image =>
          let desired := render name (cr_spec cr) image tls_defaults in
          let owner := controller_owner_ref cr in
          let deployment := stamp_deployment ns owner (ds_deployment desired) in
          let service := stamp_service ns owner (ds_service desired) in
          try* _r := apply_rbac cr ns uid in
          try* _p :=
            match ds_pvc desired with
            | Some pvc =>
                kube (Apply (Some ns) (default "" (om_name (pvc_metadata pvc)))
                        (OClaim (stamp_claim ns owner pvc)))
            | None => Ret (Ok ())
            end in
          try* _d := kube (Apply (Some ns) name (ODeployment deployment)) in
          try* _s := kube (Apply (Some ns) name (OService service)) in
          try* existing := kube (GetMeta KNetworkPolicy (Some ns) name) in
          if may_apply existing uid then
            let policy := stamp_policy ns owner (ds_network_policy desired) in
            try* _n := kube (Apply (Some ns) name (ONetworkPolicy policy)) in
            Ret (Ok Applied)
          else Ret (Ok NotOwned)
      end
  end.

(** ** The status *)

Definition reason (e : Error) : string :=
  match e with
  | Kube _ => "ApplyFailed"
  | TlsDefaultsError _ => "TlsDefaultsUnavailable"
  | ServerImageUnset => "ServerImageUnset"
  | MissingNamespace => "MissingNamespace"
  | MissingUid => "MissingUid"
  | MissingClaim _ => "CacheClaimMissing"
  | SingleNodeClaim _ _ _ => "CacheClaimSingleNode"
  | Digest _ => "DigestFailed"
  end.

Definition error_text (e : Error) : string :=
  match e with
  | Kube f => "kube api: " +:+ kf_message f
  | TlsDefaultsError m => "TLS defaults: " +:+ m
  | ServerImageUnset => "spec.image is unset and the operator has no default server image"
  | MissingNamespace => "CR has no namespace"
  | MissingUid => "CR has no uid"
  | MissingClaim claim => "existingClaim " +:+ claim +:+ " not found"
  | SingleNodeClaim claim modes replicas =>
      "existingClaim " +:+ claim +:+ " is single-node (" +:+ debug_strs modes +:+
      ") but replicas is " +:+ signed_decimal replicas +:+ "; scheduling would deadlock"
  | Digest m => "SHA-256 failed: " +:+ m
  end.

Definition READY_CONDITION : string := "Ready".
Definition NETWORK_POLICY_CONDITION : string := "NetworkPolicyReady".

Definition condition (cr : ModelExpressServer) (type_ status reason message : string)
    : prog Condition :=
  let previous :=
    s ← cr_status cr; List.find (fun c => String.eqb (cn_type c) type_) (st_conditions s) in
  let* last_transition_time :=
    match previous with
    | Some prev =>
        if String.eqb (cn_status prev) status && String.eqb (cn_reason prev) reason &&
           String.eqb (cn_message prev) message
        then Ret (cn_last_transition_time prev) else ask Now
    | None => ask Now
    end in
  Ret (MkCondition type_ status reason message (cr_generation cr) last_transition_time).

Definition status_for (cr : ModelExpressServer) (ns name : string)
    (r : result NetworkPolicyOutcome Error) : prog ModelExpressServerStatus :=
  match r with
  | Ok outcome =>
      let* network_policy :=
        match outcome with
        | Applied =>
            condition cr NETWORK_POLICY_CONDITION "True" "Applied"
              ("NetworkPolicy " +:+ name +:+ " applied")
        | NotOwned =>
            condition cr NETWORK_POLICY_CONDITION "False" "NotOwned"
              ("NetworkPolicy " +:+ name +:+
               " is not controlled by this ModelExpressServer; left in place")
        end in
      let* ready := condition cr READY_CONDITION "True" "Applied" "resources applied" in
      Ret (MkServerStatus (cr_generation cr) [ready; network_policy]
             (Some (endpoint name ns (sp_port (cr_spec cr)) (bool_decide (is_Some (sp_tls (cr_spec cr)))))))
  | Err e =>
      let* ready := condition cr READY_CONDITION "False" (reason e) (error_text e) in
      Ret (MkServerStatus (cr_status cr ≫= st_observed_generation) [ready] None)
  end.

Definition write_status (ns name : string) (status : ModelExpressServerStatus)
    : prog (result unit Error) :=
  kube (ApplyStatus ns name status).

Definition reconcile_inner (cr : ModelExpressServer) : prog (result Action Error) :=
  match cr_namespace cr with
  | None => Ret (Err MissingNamespace)
  | Some ns =>
      let name := name_any cr in
      if cr_deleted cr then
        try* _u := release_auth_delegator cr ns name in
        Ret (Ok AwaitChange)
      else
        let* r := apply cr ns name in
        let* status := status_for cr ns name r in
        try* _w := write_status ns name status in
        Ret (match r with Ok _ => Ok (Requeue 300) | Err e => Err e end)
  end.

Definition error_policy (e : Error) : Action :=
  match e with
  | MissingClaim _ | SingleNodeClaim _ _ _ | ServerImageUnset => Requeue 120
  | _ => Requeue 15
  end.
End reconcile.

End Operator.
