(* ===== verification/OperatorTheorems.v ===== *)
(** * What every reconcile does

    [wp] is a program logic for the operator's programs: a guard that every request must
    meet with the history before it, and a condition on the result.  With it: the
    finalizer brackets the cluster-scoped binding, nothing foreign is deleted or
    overwritten, a reconcile that succeeds has applied what the spec asks for, and the
    loop of status writes and watch events comes to rest. *)

From Stdlib Require Import ZArith Lia Ascii String.
From stdpp Require Import base tactics option list relations gmap fin_maps strings.
From S2P Require Import Prelude RustStr RedisStore Json RegistryKube OperatorSpec.
From S2P Require Import OperatorRender Operator.
Import Crd Render Operator.

(** ** The logic *)

Section logic.
Context (G : list event -> forall R, req R -> Prop).

Fixpoint wp {A} (h : list event) (p : prog A) (Q : list event -> A -> Prop) : Prop :=
  match p with
  | Ret a => Q h a
  | Do r k => G h _ r ∧ forall x, wp (Ev r (Some x) :: h) (k x) Q
  end.

Lemma wp_mono {A} h (p : prog A) (Q Q' : list event -> A -> Prop) :
  wp h p Q -> (forall h a, Q h a -> Q' h a) -> wp h p Q'.
Proof. intros Hp HQ. revert h Hp. induction p as [a|R r k IH]; simpl; naive_solver. Qed.

Lemma wp_bind {A B} h (p : prog A) (f : A -> prog B) Q :
  wp h p (fun h a => wp h (f a) Q) -> wp h (bind p f) Q.
Proof. revert h. induction p as [a|R r k IH]; simpl; naive_solver. Qed.

Lemma wp_bind_ok {A B E} h (p : prog (result A E)) (f : A -> prog (result B E)) Q :
  wp h p (fun h r => match r with Ok a => wp h (f a) Q | Err e => Q h (Err e) end) ->
  wp h (bind_ok p f) Q.
Proof. intros Hp. apply wp_bind. eapply wp_mono; [exact Hp|]. by intros h' [a|e]. Qed.

Lemma wp_ask {R} h (r : req R) Q : G h _ r -> (forall x, Q (Ev r (Some x) :: h) x) -> wp h (ask r) Q.
Proof. done. Qed.

Lemma wp_kube {A} h (r : req (result A KubeFailure)) Q :
  G h _ r ->
  (forall x, Q (Ev r (Some x) :: h) (match x with Ok a => Ok a | Err e => Err (Kube e) end)) ->
  wp h (kube r) Q.
Proof. done. Qed.

Lemma wp_ret {A} h (a : A) (Q : list event -> A -> Prop) : Q h a -> wp h (Ret a) Q.
Proof. done. Qed.

Lemma wp_lift {A E} h (f : E -> Error) (r : result A E) Q :
  Q h (match r with Ok a => Ok a | Err e => Err (f e) end) -> wp h (lift f r) Q.
Proof. done. Qed.

(** The guard holds at every request of a run, with the requests before it. *)
Lemma wp_run {A} h (p : prog A) Q h' o :
  wp h p Q -> run h p h' o ->
  (forall a, o = Some a -> Q h' a) ∧
  ∃ tr, h' = tr ++ h ∧
    forall tr1 R (r : req R) x tr2, tr = tr1 ++ Ev r x :: tr2 -> G (tr2 ++ h) R r.
Proof.
  intros Hp Hr. revert Hp. induction Hr as [h p|h R r k|h a|h R r k x h' o Hr IH]; simpl; intros Hp.
  - split; [done|]. exists []. split; [done|]. by intros [].
  - split; [done|]. exists [Ev r None]. split; [done|]. intros [|e tr1] R' r' x tr2 Heq.
    + pose proof (f_equal (hd (Ev r' x)) Heq) as He. pose proof (f_equal tail Heq) as Htr.
      simpl in He, Htr. subst tr2. simpl. destruct Hp as [Hg _].
      change (match Ev r' x with @Ev R0 r0 _ => G h R0 r0 end). by rewrite <- He.
    + apply (f_equal tail) in Heq. by destruct tr1.
  - split; [by intros ? [= <-]|]. exists []. split; [done|]. by intros [].
  - destruct Hp as [Hg Hk]. destruct (IH (Hk x)) as (HQ & tr & -> & Htr). split; [done|].
    exists (tr ++ [Ev r (Some x)]). split; [by rewrite <- app_assoc|].
    intros tr1 R' r' y tr2 Heq. induction tr2 as [|e tr2 _] using rev_ind.
    + apply app_inj_tail in Heq as [_ He].
      change (match Ev r' y with @Ev R0 r0 _ => G h R0 r0 end). by rewrite <- He.
    + rewrite app_comm_cons, app_assoc in Heq. apply app_inj_tail in Heq as [Heq <-].
      rewrite <- app_assoc. by apply (Htr tr1 _ _ y).
Qed.
End logic.

#[local] Arguments wp : simpl never.

(** ** The guard of a reconcile *)

(** The answers that a deletion or a change of finalizers takes for success. *)
Definition settled (x : result unit KubeFailure) : Prop :=
  match x with Ok _ => True | Err e => kf_code e = Some 404%Z end.

(** Who an object belongs to. *)
Definition owned_by (meta : ObjectMeta) (uid : string) : Prop :=
  ∃ o, o ∈ default [] (om_owner_references meta) ∧ or_uid o = uid.

Definition controlled_by (meta : ObjectMeta) (uid : string) : Prop :=
  ∃ o, o ∈ default [] (om_owner_references meta) ∧ or_controller o = Some true ∧ or_uid o = uid.

Definition marked_for (meta : ObjectMeta) (name : string) : Prop :=
  ∃ labels, om_labels meta = Some labels ∧
    labels !! MANAGED_BY_LABEL = Some MANAGED_BY ∧ labels !! INSTANCE_LABEL = Some name.

Lemma is_owned_by_iff meta uid : is_owned_by meta uid = true ↔ owned_by meta uid.
Proof.
  unfold is_owned_by, owned_by. rewrite existsb_exists. setoid_rewrite <- list_elem_of_In.
  by setoid_rewrite String.eqb_eq.
Qed.

Lemma may_apply_iff existing uid :
  may_apply existing uid = true ↔ forall meta, existing = Some meta -> controlled_by meta uid.
Proof.
  destruct existing as [meta|]; simpl; [|split; [by intros _ ?|done]].
  rewrite existsb_exists. setoid_rewrite <- list_elem_of_In.
  setoid_rewrite andb_true_iff. setoid_rewrite bool_decide_eq_true. setoid_rewrite String.eqb_eq.
  split; [by intros Ho ? [= <-]|by intros Ho; apply Ho].
Qed.

Lemma is_managed_iff meta name : is_managed meta name = true ↔ marked_for meta name.
Proof.
  unfold is_managed, marked_for. rewrite andb_true_iff, !bool_decide_eq_true.
  destruct (om_labels meta) as [labels|]; simpl; [naive_solver|].
  rewrite !lookup_empty. naive_solver.
Qed.

Lemma has_finalizer_iff cr :
  has_finalizer cr = true ↔ AUTH_DELEGATOR_FINALIZER ∈ cr_finalizers cr.
Proof.
  unfold has_finalizer. rewrite existsb_exists. setoid_rewrite <- list_elem_of_In.
  setoid_rewrite String.eqb_eq. naive_solver.
Qed.

Section guarded.
Context `{HexDigest} (debug_strs : list string -> string) (default_image : option string).
Context (cr : ModelExpressServer) (ns : string).
Abbreviation name := (name_any cr).
Abbreviation spec := (cr_spec cr).
Abbreviation owner := (controller_owner_ref cr).

(** The custom resource holds the finalizer, as far as the operator can know. *)
Definition finalizer_on (h : list event) : Prop :=
  AUTH_DELEGATOR_FINALIZER ∈ cr_finalizers cr ∨
  ∃ x, Ev (ApplyFinalizers ns name [AUTH_DELEGATOR_FINALIZER]) (Some x) ∈ h ∧ settled x.

(** The binding of this resource does not exist, is not the operator's, or was deleted. *)
Definition binding_gone (h : list event) : Prop :=
  ∃ bname, auth_delegator_binding_name name ns = Ok bname ∧
    (Ev (GetMeta KClusterRoleBinding None bname) (Some (Ok None)) ∈ h ∨
     (∃ meta, Ev (GetMeta KClusterRoleBinding None bname) (Some (Ok (Some meta))) ∈ h ∧
        ¬ marked_for meta name) ∨
     (∃ x, Ev (Delete KClusterRoleBinding None bname) (Some x) ∈ h ∧ settled x)).

Definition applied (h : list event) (n : option string) (nm : string) (o : object) : Prop :=
  Ev (Apply n nm o) (Some (Ok ())) ∈ h.

(** The namespaced access rules of the spec are in place. *)
Definition rbac_applied (h : list event) : Prop :=
  let rbac := render_rbac name spec in
  (forall sa, sb_service_account rbac = Some sa ->
     applied h (Some ns) (service_account_name name spec)
       (OServiceAccount (stamp_account ns owner sa))) ∧
  (forall role binding, sb_role rbac = Some role -> sb_role_binding rbac = Some binding ->
     applied h (Some ns) (role_name name) (ORole (stamp_role ns owner role)) ∧
     applied h (Some ns) (role_name name) (ORoleBinding (stamp_binding ns owner binding))).

Definition auth_applied (h : list event) : Prop :=
  forall b, render_auth_delegator_binding name ns spec = Ok (Some b) ->
    ∃ bname, auth_delegator_binding_name name ns = Ok bname ∧
      applied h None bname (OClusterRoleBinding b).

(** The latest request looked at this very object. *)
Definition just_read (h : list event) (k : kind) (n : option string) (nm : string)
    (P : option ObjectMeta -> Prop) : Prop :=
  ∃ existing h', h = Ev (GetMeta k n nm) (Some (Ok existing)) :: h' ∧ P existing.

Definition guard (h : list event) (R : Type) (r : req R) : Prop :=
  match r with
  | Apply n nm (OClusterRoleBinding b) =>
      n = None ∧ auth_delegator_binding_name name ns = Ok nm ∧
      render_auth_delegator_binding name ns spec = Ok (Some b) ∧ finalizer_on h
  | Apply n nm (ONetworkPolicy _) =>
      n = Some ns ∧
      just_read h KNetworkPolicy n nm (fun existing =>
        ∃ uid, cr_uid cr = Some uid ∧ forall meta, existing = Some meta -> controlled_by meta uid)
  | Apply n nm (ODeployment _) => n = Some ns ∧ nm = name ∧ rbac_applied h ∧ auth_applied h
  | Apply n _ _ => n = Some ns
  | Delete KClusterRoleBinding n nm =>
      n = None ∧ auth_delegator_binding_name name ns = Ok nm ∧
      just_read h KClusterRoleBinding n nm (fun existing =>
        ∃ meta, existing = Some meta ∧ marked_for meta name)
  | Delete k n nm =>
      n = Some ns ∧
      just_read h k n nm (fun existing =>
        ∃ meta uid, existing = Some meta ∧ cr_uid cr = Some uid ∧ owned_by meta uid)
  | ApplyFinalizers n nm l =>
      n = ns ∧ nm = name ∧ (l = [AUTH_DELEGATOR_FINALIZER] ∨ l = [] ∧ binding_gone h)
  | _ => True
  end.

Abbreviation wpg := (wp guard).

Lemma applied_suffix h h' n nm o : h `suffix_of` h' -> applied h n nm o -> applied h' n nm o.
Proof. intros [tr ->] Ha. apply elem_of_app. by right. Qed.

Lemma rbac_suffix h h' : h `suffix_of` h' -> rbac_applied h -> rbac_applied h'.
Proof.
  intros Hs [H1 H2]. split.
  - intros sa Hsa. eapply applied_suffix; [done|]. by apply H1.
  - intros role binding Hr Hb. destruct (H2 role binding Hr Hb). split; by eapply applied_suffix.
Qed.

Lemma auth_suffix h h' : h `suffix_of` h' -> auth_applied h -> auth_applied h'.
Proof.
  intros Hs Ha b Hb. destruct (Ha b Hb) as (bname & Hn & Happ). exists bname.
  split; [done|]. by eapply applied_suffix.
Qed.

(** Histories only grow. *)
Ltac chain :=
  cbv beta in *;
  lazymatch goal with
  | |- ?a `suffix_of` (_ :: _) => first [done | apply suffix_cons_r; chain]
  | |- ?a `suffix_of` ?b =>
      first [done | match goal with H : ?c `suffix_of` b |- _ => transitivity c; [chain|exact H] end]
  end.

Ltac grows :=
  lazymatch goal with |- wp _ _ _ _ => apply wp_ret | _ => idtac end; cbv beta; chain.

(** ** The steps *)

Lemma wp_check h : wpg h (check_existing_claim cr ns) (fun h' _ => h `suffix_of` h').
Proof.
  unfold check_existing_claim.
  destruct (sp_cache spec ≫= ca_storage) as [[]|]; try grows.
  destruct (sp_replicas spec <=? 1)%Z; [grows|].
  apply wp_bind_ok, wp_kube; [done|]. intros [[claim|]|e]; [|grows..].
  destruct (negb _); grows.
Qed.

Lemma wp_gone h (r : req (result unit KubeFailure)) (Q : list event -> result unit Error -> Prop) :
  guard h _ r ->
  (forall x, settled x -> Q (Ev r (Some x) :: h) (Ok ())) ->
  (forall x e, Q (Ev r (Some x) :: h) (Err e)) ->
  wpg h (kube_or_gone r) Q.
Proof.
  intros Hg Hok Herr. apply wp_bind, wp_ask; [done|]. intros [u|e]; simpl; [by apply Hok|].
  case_bool_decide; [by apply Hok|apply Herr].
Qed.

Lemma wp_delete_owned k nm uid h :
  cr_uid cr = Some uid -> k ≠ KClusterRoleBinding ->
  wpg h (delete_if_owned k ns nm uid) (fun h' _ => h `suffix_of` h').
Proof.
  intros Huid Hk. unfold delete_if_owned. apply wp_bind_ok, wp_kube; [done|].
  intros [[meta|]|e]; [|grows..].
  destruct (is_owned_by meta uid) eqn:Ho; simpl; [apply is_owned_by_iff in Ho|grows].
  apply wp_gone; [|intros; grows..].
  assert (guard (Ev (GetMeta k (Some ns) nm) (Some (Ok (Some meta))) :: h) _ (Delete k (Some ns) nm));
    [|done].
  destruct k; simpl; try done; (split; [done|]); (eexists _, _; split; [done|]; eauto).
Qed.

Lemma wp_delete_managed bname h :
  auth_delegator_binding_name name ns = Ok bname ->
  wpg h (delete_if_managed bname name)
    (fun h' r => h `suffix_of` h' ∧ (r = Ok () -> binding_gone h')).
Proof.
  intros Hb. unfold delete_if_managed. apply wp_bind_ok, wp_kube; [done|].
  intros [[meta|]|e]; [| |by split; [grows|]].
  - destruct (is_managed meta name) eqn:Hm; simpl.
    + apply is_managed_iff in Hm. apply wp_gone.
      * simpl. split; [done|]. split; [done|]. eexists _, _. split; [done|]. eauto.
      * intros x Hx. split; [grows|]. intros _. exists bname. split; [done|]. right; right.
        exists x. split; [by left|done].
      * intros x e. split; [grows|done].
    + split; [grows|]. intros _. exists bname. split; [done|]. right; left.
      exists meta. split; [by left|]. by rewrite <- is_managed_iff, Hm.
  - split; [grows|]. intros _. exists bname. split; [done|]. left. by left.
Qed.

Lemma wp_finalizer_set h :
  wpg h (set_finalizer cr ns name true)
    (fun h' r => h `suffix_of` h' ∧ (r = Ok () -> finalizer_on h')).
Proof.
  unfold set_finalizer. destruct (has_finalizer cr) eqn:Hf; simpl.
  { split; [done|]. intros _. left. by apply has_finalizer_iff. }
  apply wp_gone.
  - simpl. auto.
  - intros x Hx. split; [grows|]. intros _. right. exists x. split; [by left|done].
  - intros x e. split; [grows|done].
Qed.

Lemma wp_finalizer_clear h :
  binding_gone h -> wpg h (set_finalizer cr ns name false) (fun h' _ => h `suffix_of` h').
Proof.
  intros Hg. unfold set_finalizer. destruct (has_finalizer cr) eqn:Hf; simpl; [|grows].
  apply wp_gone; [|intros; grows..]. simpl. auto.
Qed.

Lemma wp_auth h :
  wpg h (apply_auth_delegator cr ns name)
    (fun h' r => h `suffix_of` h' ∧ (r = Ok () -> auth_applied h')).
Proof.
  unfold apply_auth_delegator. apply wp_bind_ok, wp_lift.
  destruct (auth_delegator_binding_name name ns) as [bname|e] eqn:Hb; [|by split].
  apply wp_bind_ok, wp_lift.
  destruct (render_auth_delegator_binding name ns spec) as [[b|]|e] eqn:Hr; [| |by split].
  - apply wp_bind_ok. eapply wp_mono; [apply wp_finalizer_set|].
    intros h1 [[]|e] [Hs Hf]; [|by split]. apply wp_kube.
    + simpl. rewrite Hb, Hr. auto.
    + intros [[]|e]; (split; [grows|]); [|done].
      intros _ b' Hb'. rewrite Hr in Hb'. injection Hb' as <-. exists bname.
      split; [done|]. by left.
  - apply wp_bind_ok. eapply wp_mono; [by apply wp_delete_managed|].
    intros h1 [[]|e] [Hs Hg]; [|by split]. eapply wp_mono; [by apply wp_finalizer_clear, Hg|].
    intros h2 r Hs2. split; [chain|]. intros _ b Hb'. by rewrite Hr in Hb'.
Qed.

Lemma wp_rbac uid h :
  cr_uid cr = Some uid ->
  wpg h (apply_rbac cr ns uid)
    (fun h' r => h `suffix_of` h' ∧ (r = Ok () -> rbac_applied h' ∧ auth_applied h')).
Proof.
  intros Huid. unfold apply_rbac. apply wp_bind_ok.
  pose (sa_done := fun h' => forall sa, sb_service_account (render_rbac name spec) = Some sa ->
     applied h' (Some ns) (service_account_name name spec) (OServiceAccount (stamp_account ns owner sa))).
  eapply (wp_mono _ _ _ (fun h' r => h `suffix_of` h' ∧ (r = Ok () -> sa_done h'))).
  { unfold sa_done. destruct (sb_service_account (render_rbac name spec)) as [sa|].
    - apply wp_kube; [done|]. intros [[]|e]; (split; [grows|]); [|done]. intros _ ? [= <-]. by left.
    - eapply wp_mono; [by apply wp_delete_owned|]. by intros h' r Hs. }
  intros h1 [[]|e] [Hs1 Hsa]; [|by split]. specialize (Hsa eq_refl). apply wp_bind_ok.
  eapply (wp_mono _ _ _ (fun h' r => h1 `suffix_of` h' ∧ (r = Ok () -> rbac_applied h'))).
  { unfold rbac_applied. fold (sa_done).
    destruct (sb_role (render_rbac name spec)) as [role|] eqn:Hrole;
      [destruct (sb_role_binding (render_rbac name spec)) as [binding|] eqn:Hbinding|].
    - apply wp_bind_ok, wp_kube; [done|]. intros [[]|e]; [|by split; [grows|]].
      apply wp_kube; [done|]. intros [[]|e]; (split; [grows|]); [|done]. intros _. split.
      + intros sa Hs. eapply applied_suffix; [|by apply Hsa]. grows.
      + intros ? ? [= <-] [= <-]. split; [right; by left|by left].
    - apply wp_bind_ok. eapply wp_mono; [by apply wp_delete_owned|].
      intros h2 [[]|e] Hs2; [|by split]. eapply wp_mono; [by apply wp_delete_owned|].
      intros h3 r Hs3. split; [chain|]. intros _. split; [|done].
      intros sa Hs. eapply applied_suffix; [|by apply Hsa]. chain.
    - apply wp_bind_ok. eapply wp_mono; [by apply wp_delete_owned|].
      intros h2 [[]|e] Hs2; [|by split]. eapply wp_mono; [by apply wp_delete_owned|].
      intros h3 r Hs3. split; [chain|]. intros _. split; [|done].
      intros sa Hs. eapply applied_suffix; [|by apply Hsa]. chain. }
  intros h2 [[]|e] [Hs2 Hr]; [|split; [chain|done]]. specialize (Hr eq_refl).
  eapply wp_mono; [apply wp_auth|]. intros h3 r [Hs3 Ha]. split; [chain|].
  intros ->. split; [by eapply rbac_suffix|by apply Ha].
Qed.

(** What an apply that succeeds has done: every object that the spec asks for is applied
    as it is rendered, from the defaults that the source gave. *)
Definition complete (h : list event) (outcome : NetworkPolicyOutcome) : Prop :=
  ∃ image defaults,
    server_image spec default_image = Ok image ∧
    (Ev CurrentTlsDefaults (Some (Ok defaults)) ∈ h ∨
     defaults = TlsSettings_default ∧ forall config, sp_tls spec = Some config -> needs_defaults config = false) ∧
    let desired := render name spec image defaults in
    rbac_applied h ∧ auth_applied h ∧
    (forall pvc, ds_pvc desired = Some pvc ->
       applied h (Some ns) (default "" (om_name (pvc_metadata pvc))) (OClaim (stamp_claim ns owner pvc))) ∧
    applied h (Some ns) name (ODeployment (stamp_deployment ns owner (ds_deployment desired))) ∧
    applied h (Some ns) name (OService (stamp_service ns owner (ds_service desired))) ∧
    match outcome with
    | Applied =>
        applied h (Some ns) name (ONetworkPolicy (stamp_policy ns owner (ds_network_policy desired)))
    | NotOwned =>
        ∃ meta uid, Ev (GetMeta KNetworkPolicy (Some ns) name) (Some (Ok (Some meta))) ∈ h ∧
          cr_uid cr = Some uid ∧ ¬ controlled_by meta uid
    end.

Lemma complete_suffix h h' outcome : h `suffix_of` h' -> complete h outcome -> complete h' outcome.
Proof.
  intros Hs (image & d & Hi & Hd & Hr & Ha & Hp & Hdep & Hsvc & Ho).
  assert (forall e : event, e ∈ h -> e ∈ h') as Hin.
  { destruct Hs as [tr ->]. intros e He. apply elem_of_app. by right. }
  exists image, d. split; [done|]. split; [destruct Hd as [Hd|Hd]; [left; by apply Hin|by right]|].
  split; [by eapply rbac_suffix|]. split; [by eapply auth_suffix|].
  split; [intros pvc Hpvc; by apply Hin, Hp|]. split; [by apply Hin|]. split; [by apply Hin|].
  destruct outcome; [by apply Hin|]. destruct Ho as (ex & uid & He & ?). exists ex, uid. auto.
Qed.

(** The source of TLS defaults, when the spec leaves something to it. *)
Definition read_defaults : prog (result TlsSettings Error) :=
  match sp_tls spec with
  | Some config =>
      if needs_defaults config then bind (ask CurrentTlsDefaults) (lift TlsDefaultsError)
      else Ret (Ok TlsSettings_default)
  | None => Ret (Ok TlsSettings_default)
  end.

Lemma wp_defaults h :
  wpg h read_defaults
    (fun h' r => h `suffix_of` h' ∧ forall d, r = Ok d ->
       Ev CurrentTlsDefaults (Some (Ok d)) ∈ h' ∨
       d = TlsSettings_default ∧ forall config, sp_tls spec = Some config -> needs_defaults config = false).
Proof.
  unfold read_defaults. destruct (sp_tls spec) as [config|].
  - destruct (needs_defaults config) eqn:Hn.
    + apply wp_bind, wp_ask; [done|]. intros [d|e]; (split; [grows|]); [|done].
      intros ? [= <-]. left. by left.
    + apply wp_ret. split; [done|]. intros ? [= <-]. right. split; [done|]. by intros ? [= <-].
  - apply wp_ret. split; [done|]. intros ? [= <-]. by right.
Qed.

Lemma wp_apply h :
  wpg h (apply default_image cr ns name)
    (fun h' r => h `suffix_of` h' ∧ forall outcome, r = Ok outcome -> complete h' outcome).
Proof.
  unfold apply. apply wp_bind_ok. eapply wp_mono; [apply wp_check|].
  intros h1 [[]|e] Hs1; [|by split].
  destruct (cr_uid cr) as [uid|] eqn:Huid; [|apply wp_ret; by split].
  fold read_defaults. apply wp_bind_ok. eapply wp_mono; [apply wp_defaults|].
  intros h2 [defaults|e] [Hs2 Hd]; [|split; [chain|done]]. specialize (Hd _ eq_refl).
  destruct (server_image spec default_image) as [image|e] eqn:Himage;
    [|apply wp_ret; split; [chain|done]].
  cbv zeta. apply wp_bind_ok. eapply wp_mono; [by apply wp_rbac|].
  intros h3 [[]|e] [Hs3 Hr]; [|split; [chain|done]].
  destruct (Hr eq_refl) as [Hrbac Hauth]. clear Hr.
  assert (h `suffix_of` h3) as Hs by chain.
  set (desired := render name spec image defaults). apply wp_bind_ok.
  pose (claimed := fun h' => forall pvc, ds_pvc desired = Some pvc ->
    applied h' (Some ns) (default "" (om_name (pvc_metadata pvc))) (OClaim (stamp_claim ns owner pvc))).
  eapply (wp_mono _ _ _ (fun h' r => h3 `suffix_of` h' ∧ (r = Ok () -> claimed h'))).
  { unfold claimed. destruct (ds_pvc desired) as [pvc|]; [|apply wp_ret; by split].
    apply wp_kube; [done|]. intros [[]|e]; (split; [grows|]); [|done]. intros _ ? [= <-]. by left. }
  intros h4 [[]|e] [Hs4 Hclaim]; [|split; [chain|done]]. specialize (Hclaim eq_refl).
  assert (h `suffix_of` h4) as Hs' by chain.
  apply wp_bind_ok, wp_kube.
  { split; [done|]. split; [done|]. split; [by apply (rbac_suffix h3)|by apply (auth_suffix h3)]. }
  intros [[]|e]; [|split; [grows|done]].
  apply wp_bind_ok, wp_kube; [done|]. intros [[]|e]; [|split; [grows|done]].
  apply wp_bind_ok, wp_kube; [done|]. intros [existing|e]; [|split; [grows|done]].
  match goal with |- wp _ ?H5 _ _ => set (h5 := H5) end.
  assert (h4 `suffix_of` h5) as Hs5 by (unfold h5; grows).
  assert (forall outcome h', h5 `suffix_of` h' ->
    match outcome with
    | Applied => applied h' (Some ns) name (ONetworkPolicy (stamp_policy ns owner (ds_network_policy desired)))
    | NotOwned => may_apply existing uid = false
    end -> h `suffix_of` h' ∧ complete h' outcome) as Hdone.
  { intros outcome h' Hs6 Ho. split; [chain|].
    assert (forall e : event, e ∈ h5 -> e ∈ h') as Hin.
    { destruct Hs6 as [tr ->]. intros e He. apply elem_of_app. by right. }
    assert (forall e : event, e ∈ h4 -> e ∈ h') as Hin4.
    { intros e He. apply Hin. unfold h5. by do 3 right. }
    assert (h3 `suffix_of` h') as Hs36 by chain.
    assert (h2 `suffix_of` h') as [tr Htr] by chain.
    exists image, defaults. split; [done|]. split.
    { destruct Hd as [Hd|Hd]; [left|by right]. rewrite Htr. apply elem_of_app. by right. }
    split; [by apply (rbac_suffix h3)|]. split; [by apply (auth_suffix h3)|].
    split; [intros pvc Hpvc; by apply Hin4, Hclaim|].
    split; [apply Hin; unfold h5; do 2 right; by left|].
    split; [apply Hin; unfold h5; right; by left|].
    destruct outcome; [done|]. destruct existing as [meta|]; [|done]. exists meta, uid.
    split; [apply Hin; unfold h5; by left|]. split; [done|]. intros Hc.
    enough (may_apply (Some meta) uid = true) by congruence.
    apply may_apply_iff. by intros ? [= <-]. }
  destruct (may_apply existing uid) eqn:Hmay.
  - apply wp_bind_ok, wp_kube.
    { split; [done|]. eexists existing, _. split; [reflexivity|]. exists uid.
      split; [done|]. by apply may_apply_iff. }
    intros [[]|e]; [|split; [unfold h5; grows|done]]. apply wp_ret.
    split; [unfold h5; grows|]. intros ? [= <-]. apply Hdone; [grows|by left].
  - apply wp_ret. split; [unfold h5; grows|]. intros ? [= <-]. by apply Hdone.
Qed.

(** ** The status and the whole reconcile *)

Lemma wp_condition t st r m h :
  wpg h (condition cr t st r m)
    (fun h' c => h `suffix_of` h' ∧ cn_type c = t ∧ cn_status c = st ∧ cn_reason c = r ∧
       cn_message c = m ∧ cn_observed_generation c = cr_generation cr).
Proof.
  unfold condition. apply wp_bind.
  destruct (s ← cr_status cr; _) as [prev|]; [destruct (_ && _)|].
  1: apply wp_ret, wp_ret; by split_and!.
  all: apply wp_ask; [done|]; intros x; apply wp_ret; split_and!; [grows|done..].
Qed.

(** The status that is written after an apply. *)
Definition reported (r : result NetworkPolicyOutcome Error) (s : ModelExpressServerStatus) : Prop :=
  ∃ ready rest, st_conditions s = ready :: rest ∧ cn_type ready = READY_CONDITION ∧
    match r with
    | Ok _ =>
        cn_status ready = "True" ∧ st_observed_generation s = cr_generation cr ∧
        st_endpoint s = Some (endpoint name ns (sp_port spec) (bool_decide (is_Some (sp_tls spec))))
    | Err e =>
        cn_status ready = "False" ∧ cn_reason ready = reason e ∧
        cn_message ready = error_text debug_strs e ∧
        st_observed_generation s = (cr_status cr ≫= st_observed_generation) ∧ st_endpoint s = None
    end.

Lemma wp_status r h :
  wpg h (status_for debug_strs cr ns name r) (fun h' s => h `suffix_of` h' ∧ reported r s).
Proof.
  unfold status_for. destruct r as [outcome|e].
  - apply wp_bind. eapply (wp_mono _ _ _ (fun h' _ => h `suffix_of` h')).
    { destruct outcome; (eapply wp_mono; [apply wp_condition|]; by intros ? ? [? _]). }
    intros h1 np Hs1. apply wp_bind. eapply wp_mono; [apply wp_condition|].
    intros h2 ready (Hs2 & Ht & Hst & _). apply wp_ret. split; [chain|]. by exists ready, [np].
  - apply wp_bind. eapply wp_mono; [apply wp_condition|].
    intros h2 ready (Hs2 & Ht & Hst & Hr & Hm & _). apply wp_ret. split; [chain|].
    by exists ready, [].
Qed.

(** The result of a reconcile and what it has done. *)
Definition outcome_ok (h : list event) (r : result Action Error) : Prop :=
  match r with
  | Ok AwaitChange => cr_deleted cr = true
  | Ok (Requeue _) =>
      cr_deleted cr = false ∧
      ∃ outcome status, complete h outcome ∧ reported (Ok outcome) status ∧
        Ev (ApplyStatus ns name status) (Some (Ok ())) ∈ h
  | Err _ => True
  end.

Lemma wp_reconcile h :
  cr_namespace cr = Some ns ->
  wpg h (reconcile_inner debug_strs default_image cr) (fun h' r => outcome_ok h' r).
Proof.
  intros Hns. unfold reconcile_inner. rewrite Hns. cbv zeta.
  destruct (cr_deleted cr) eqn:Hd.
  - apply wp_bind_ok. unfold release_auth_delegator. apply wp_bind_ok, wp_lift.
    destruct (auth_delegator_binding_name name ns) as [bname|e] eqn:Hb; [|done].
    apply wp_bind_ok. eapply wp_mono; [by apply wp_delete_managed|].
    intros h1 [[]|e] [_ Hg]; [|done]. eapply wp_mono; [by apply wp_finalizer_clear, Hg|].
    intros h2 [[]|e] _; [|done]. by apply wp_ret.
  - apply wp_bind. eapply wp_mono; [apply wp_apply|]. intros h1 r [Hs1 Hc].
    apply wp_bind. eapply wp_mono; [apply wp_status|]. intros h2 status [Hs2 Hrep].
    apply wp_bind_ok, wp_kube; [done|]. intros [[]|e]; [|done].
    apply wp_ret. destruct r as [outcome|e]; [|done]. split; [done|].
    exists outcome, status. split; [|split; [done|by left]].
    eapply complete_suffix; [|by apply Hc]. grows.
Qed.
End guarded.

(** ** Properties of every run *)

Section properties.
Context `{HexDigest} (debug_strs : list string -> string) (default_image : option string).

Lemma reconcile_guarded cr ns h o :
  cr_namespace cr = Some ns ->
  run [] (reconcile_inner debug_strs default_image cr) h o ->
  (forall a, o = Some a -> outcome_ok debug_strs default_image cr ns h a) ∧
  forall later R (r : req R) x earlier, h = later ++ Ev r x :: earlier -> guard cr ns earlier R r.
Proof.
  intros Hns Hr. destruct (wp_run _ _ _ _ _ _ (wp_reconcile debug_strs default_image cr ns [] Hns) Hr)
    as (Hq & tr & Htr & Hg). rewrite app_nil_r in Htr. subst tr. split; [exact Hq|].
  intros later R r x earlier Heq. specialize (Hg later R r x earlier Heq).
  by rewrite app_nil_r in Hg.
Qed.

(** C33: in every run of a reconcile, whatever the API server answers and wherever the
    operator stops, the cluster-scoped binding is applied only when the finalizer is held
    as far as the operator knows (the resource as it was read had it, or applying it was
    answered with success or with 404, which the code takes for success although the
    resource is then gone), and the finalizer is only given up when the binding of this
    resource was seen to be absent or not the operator's, or was deleted. *)
Theorem finalizer_brackets_binding cr ns h o :
  cr_namespace cr = Some ns ->
  run [] (reconcile_inner debug_strs default_image cr) h o ->
  (forall later n bname b x earlier,
     h = later ++ Ev (Apply n bname (OClusterRoleBinding b)) x :: earlier ->
     auth_delegator_binding_name (name_any cr) ns = Ok bname ∧ finalizer_on cr ns earlier) ∧
  (forall later n nm x earlier,
     h = later ++ Ev (ApplyFinalizers n nm []) x :: earlier -> binding_gone cr ns earlier).
Proof.
  intros Hns Hr. destruct (reconcile_guarded cr ns h o Hns Hr) as [_ Hg]. split.
  - intros later n bname b x earlier Heq. by destruct (Hg _ _ _ _ _ Heq) as (_ & ? & _ & ?).
  - intros later n nm x earlier Heq. by destruct (Hg _ _ _ _ _ Heq) as (_ & _ & [?|[_ ?]]).
Qed.

(** C34: a reconcile deletes an object only when the request just before it read that
    very object and found the custom resource among its owners, or, for the cluster-scoped
    binding, the operator's labels for this resource on it; and it applies the network
    policy only over no policy or over one that this resource controls. *)
Theorem foreign_objects_kept cr ns h o :
  cr_namespace cr = Some ns ->
  run [] (reconcile_inner debug_strs default_image cr) h o ->
  (forall later k n nm x earlier,
     h = later ++ Ev (Delete k n nm) x :: earlier ->
     just_read earlier k n nm (fun existing => ∃ meta, existing = Some meta ∧
       (k = KClusterRoleBinding ∧ marked_for meta (name_any cr) ∨
        ∃ uid, cr_uid cr = Some uid ∧ owned_by meta uid))) ∧
  (forall later n nm p x earlier,
     h = later ++ Ev (Apply n nm (ONetworkPolicy p)) x :: earlier ->
     just_read earlier KNetworkPolicy n nm (fun existing =>
       ∃ uid, cr_uid cr = Some uid ∧ forall meta, existing = Some meta -> controlled_by meta uid)).
Proof.
  intros Hns Hr. destruct (reconcile_guarded cr ns h o Hns Hr) as [_ Hg]. split.
  - intros later k n nm x earlier Heq. specialize (Hg _ _ _ _ _ Heq).
    assert (k = KClusterRoleBinding ∨ k ≠ KClusterRoleBinding) as [->|Hk]
      by (destruct (decide (k = KClusterRoleBinding)); auto).
    + destruct Hg as (_ & _ & existing & h' & -> & meta & -> & Hm).
      eexists _, _. split; [done|]. exists meta. auto.
    + assert (just_read earlier k n nm (fun existing => ∃ meta uid,
        existing = Some meta ∧ cr_uid cr = Some uid ∧ owned_by meta uid))
        as (existing & h' & -> & meta & uid & -> & Hu & Hm) by (by destruct k; destruct Hg).
      eexists _, _. split; [done|]. exists meta. split; [done|]. right. by exists uid.
  - intros later n nm p x earlier Heq. by destruct (Hg _ _ _ _ _ Heq) as [_ ?].
Qed.

(** C35: a reconcile that succeeds on a resource that is not going away has applied,
    successfully, all the objects that the spec renders to, but for the network policy
    when somebody else controls the one that exists (the status then says so beside
    Ready); the namespaced objects are stamped with the resource as their owner, the
    cluster-scoped binding has none; the access rules come before the Deployment whose
    pods need them; and it has written a status that says Ready for the generation it
    acted on. *)
Theorem reconcile_complete cr ns h secs :
  cr_namespace cr = Some ns ->
  run [] (reconcile_inner debug_strs default_image cr) h (Some (Ok (Requeue secs))) ->
  (∃ outcome status, complete default_image cr ns h outcome ∧
     reported debug_strs cr ns (Ok outcome) status ∧
     Ev (ApplyStatus ns (name_any cr) status) (Some (Ok ())) ∈ h) ∧
  (forall later n nm d x earlier,
     h = later ++ Ev (Apply n nm (ODeployment d)) x :: earlier ->
     rbac_applied cr ns earlier ∧ auth_applied cr ns earlier).
Proof.
  intros Hns Hr. destruct (reconcile_guarded cr ns h _ Hns Hr) as [Hq Hg]. split.
  - by destruct (Hq _ eq_refl) as [_ ?].
  - intros later n nm d x earlier Heq. by destruct (Hg _ _ _ _ _ Heq) as (_ & _ & ? & ?).
Qed.
End properties.

(** ** The loop of status writes *)

Section status_loop.
Context (debug_strs : list string -> string) (ns name : string).

(** The value of a program whose only requests read the clock. *)
Fixpoint at_time {A} (now : Z) (p : prog A) (fallback : A) : A :=
  match p with
  | Ret a => a
  | Do r k =>
      match r in req R return (R -> prog A) -> (R -> A) -> A with
      | Now => fun _ ih => ih now
      | _ => fun _ _ => fallback
      end k (fun x => at_time now (k x) fallback)
  end.

Definition no_status : ModelExpressServerStatus := MkServerStatus None [] None.

Definition status_at (now : Z) (cr : ModelExpressServer) (r : result NetworkPolicyOutcome Error)
    : ModelExpressServerStatus :=
  at_time now (status_for debug_strs cr ns name r) no_status.

Definition with_status (cr : ModelExpressServer) (s : ModelExpressServerStatus) : ModelExpressServer :=
  MkCr (cr_name cr) (cr_namespace cr) (cr_uid cr) (cr_generation cr) (cr_deleted cr)
    (cr_finalizers cr) (cr_spec cr) (Some s).

(** One turn of the loop: a reconcile with result [r] writes a status that differs from
    the stored one, and the watch schedules the next reconcile. *)
Definition rewrites (r : result NetworkPolicyOutcome Error) (cr' cr : ModelExpressServer) : Prop :=
  ∃ now, cr_status cr ≠ Some (status_at now cr r) ∧ cr' = with_status cr (status_at now cr r).

(** A condition with its clock reading. *)
Definition condition_at (now : Z) (cr : ModelExpressServer) (t st r m : string) : Condition :=
  MkCondition t st r m (cr_generation cr)
    (match s ← cr_status cr; List.find (fun c => String.eqb (cn_type c) t) (st_conditions s) with
     | Some prev =>
         if String.eqb (cn_status prev) st && String.eqb (cn_reason prev) r &&
            String.eqb (cn_message prev) m
         then cn_last_transition_time prev else now
     | None => now
     end).

Lemma at_time_condition {A} now cr t st r m (f : Condition -> prog A) d :
  at_time now (bind (condition cr t st r m) f) d = at_time now (f (condition_at now cr t st r m)) d.
Proof.
  unfold condition, condition_at.
  destruct (s ← cr_status cr; _) as [prev|]; [destruct (_ && _)|]; done.
Qed.

Lemma status_at_Ok now cr outcome :
  status_at now cr (Ok outcome) =
  MkServerStatus (cr_generation cr)
    [condition_at now cr READY_CONDITION "True" "Applied" "resources applied";
     match outcome with
     | Applied => condition_at now cr NETWORK_POLICY_CONDITION "True" "Applied"
                    ("NetworkPolicy " +:+ name +:+ " applied")
     | NotOwned => condition_at now cr NETWORK_POLICY_CONDITION "False" "NotOwned"
                     ("NetworkPolicy " +:+ name +:+
                      " is not controlled by this ModelExpressServer; left in place")
     end]
    (Some (endpoint name ns (sp_port (cr_spec cr)) (bool_decide (is_Some (sp_tls (cr_spec cr)))))).
Proof.
  unfold status_at, status_for. destruct outcome; by rewrite !at_time_condition.
Qed.

Lemma status_at_Err now cr e :
  status_at now cr (Err e) =
  MkServerStatus (cr_status cr ≫= st_observed_generation)
    [condition_at now cr READY_CONDITION "False" (reason e) (error_text debug_strs e)] None.
Proof. unfold status_at, status_for. by rewrite at_time_condition. Qed.

(** A stored condition with the same content keeps its time. *)
Lemma condition_kept now cr s t st r m c :
  List.find (fun c => String.eqb (cn_type c) t) (st_conditions s) = Some c ->
  cn_status c = st -> cn_reason c = r -> cn_message c = m ->
  condition_at now (with_status cr s) t st r m =
  MkCondition t st r m (cr_generation cr) (cn_last_transition_time c).
Proof.
  intros Hf Hs Hr Hm. unfold condition_at. simpl. rewrite Hf, <- Hs, <- Hr, <- Hm.
  by rewrite !String.eqb_refl.
Qed.

Lemma status_stable t1 t2 cr r :
  status_at t2 (with_status cr (status_at t1 cr r)) r = status_at t1 cr r.
Proof.
  destruct r as [outcome|e].
  - rewrite (status_at_Ok t2), (status_at_Ok t1).
    destruct outcome; by repeat (erewrite condition_kept by reflexivity).
  - rewrite (status_at_Err t2), (status_at_Err t1).
    by erewrite condition_kept by reflexivity.
Qed.

(** C36: as long as a reconcile comes to the same result, the loop in which a status write
    wakes the controller through its own watch terminates: after one write a later
    reconcile, at any time, writes the status that is stored. *)
Theorem status_loop_terminates r : well_founded (rewrites r).
Proof.
  assert (forall t1 cr, Acc (rewrites r) (with_status cr (status_at t1 cr r))) as Hone.
  { intros t1 cr. constructor. intros cr' (t2 & Hne & _). destruct Hne. by rewrite status_stable. }
  intros cr. constructor. intros cr' (now & _ & ->). apply Hone.
Qed.
End status_loop.
