(* ===== verification/OperatorServer.v ===== *)
(** * From the custom resource to the server

    The operator renders a spec into the environment of the server's container; the
    server reads its arguments and its backend from that environment.  Here the two meet:
    what a resource that the API server admitted asks for is what the server runs with.
    [environment] is what the kubelet makes of the rendered variables: literals,
    keys of Secrets, the pod's namespace; of two variables of one name the later wins. *)

From Stdlib Require Import ZArith Lia Ascii String.
From stdpp Require Import base tactics option list gmap fin_maps strings.
From S2P Require Import Prelude RustStr RustPath EntryKey RedisStore RegistryMemory Eviction.
From S2P Require Import SourceIdentityHash ServerConfig ServerConfigFacts Regex Json.
From S2P Require Import OperatorSpec OperatorRender.
Import Regex Render.

(** ** The container's environment *)

Section environment.
Context (secrets : string -> string -> option string) (ns : string).

Definition var_value (v : EnvVar) : option string :=
  match ev_value v, ev_value_from v with
  | Some s, _ => Some s
  | None, Some (SecretKey name key _) => secrets name key
  | None, Some (FieldRef field_path) =>
      if String.eqb field_path "metadata.namespace" then Some ns else None
  | None, None => None
  end.

Fixpoint environment (l : list EnvVar) (name : string) : option string :=
  match l with
  | [] => None
  | v :: l =>
      match environment l name with
      | Some s => Some s
      | None => if String.eqb (ev_name v) name then var_value v else None
      end
  end.

Lemma environment_app a b name :
  environment (a ++ b) name =
  match environment b name with Some s => Some s | None => environment a name end.
Proof.
  induction a as [|v a IH]; simpl; [by destruct (environment b name)|]. rewrite IH.
  by destruct (environment b name).
Qed.

(** The variables of a part of the rendered list have names of a fixed set. *)
Definition named (names : list string) (l : list EnvVar) : Prop :=
  Forall (fun v => existsb (String.eqb (ev_name v)) names = true) l.

Lemma environment_named names l name :
  named names l -> existsb (fun n => String.eqb n name) names = false -> environment l name = None.
Proof.
  intros Hl Hn. induction Hl as [|v l Hv Hl IH]; [done|]. simpl. rewrite IH.
  destruct (String.eqb (ev_name v) name) eqn:E; [|done]. apply String.eqb_eq in E as <-.
  apply existsb_exists in Hv as (n & Hin & He). apply String.eqb_eq in He as <-.
  assert (existsb (fun m => String.eqb m (ev_name v)) names = true) as Ht; [|congruence].
  apply existsb_exists. exists (ev_name v). split; [done|]. apply String.eqb_refl.
Qed.
End environment.

Ltac named_section :=
  unfold named; repeat match goal with
  | |- Forall _ (push_opt _ ?o) => destruct o; simpl
  | |- Forall _ (push_list _ _ ?l) => destruct l; simpl
  | |- Forall _ (_ ++ _) => apply Forall_app; split
  | |- Forall _ (_ :: _) => constructor; [reflexivity|]
  | |- Forall _ [] => constructor
  end.

Definition BACKEND_VARS : list string := ["MX_METADATA_BACKEND"; "REDIS_URL"; "POD_NAMESPACE"].
Definition LOG_VARS : list string := ["MODEL_EXPRESS_LOG_LEVEL"; "MODEL_EXPRESS_LOG_FORMAT"].
Definition SECURITY_VARS : list string :=
  ["MODEL_EXPRESS_SECURITY_MODE"; "MODEL_EXPRESS_SECURITY_TENANT_ISOLATION";
   "MODEL_EXPRESS_SECURITY_TOKEN_AUDIENCES"; "MODEL_EXPRESS_SECURITY_ALLOWED_SERVICE_ACCOUNTS";
   "MODEL_EXPRESS_SECURITY_CACHE_TTL_SECS"].
Definition TLS_VARS : list string :=
  ["MODEL_EXPRESS_TLS_CERT_FILE"; "MODEL_EXPRESS_TLS_KEY_FILE"; "MODEL_EXPRESS_TLS_MIN_VERSION";
   "MODEL_EXPRESS_TLS_CIPHER_SUITES"; "MODEL_EXPRESS_TLS_GROUPS"].
Definition REAPER_VARS : list string :=
  ["MX_REAPER_SCAN_INTERVAL_SECS"; "MX_HEARTBEAT_TIMEOUT_SECS"; "MX_GC_TIMEOUT_SECS"].
Definition CREDENTIAL_VARS : list string := ["HF_TOKEN"; "NGC_API_KEY"].

Lemma backend_named b : named BACKEND_VARS (backend_env b).
Proof. destruct b as [[url [secret|]]|]; unfold backend_env; simpl; named_section. Qed.

Lemma log_named o : named LOG_VARS (section log_env o).
Proof. destruct o; simpl; unfold log_env; named_section. Qed.

Lemma security_named o : named SECURITY_VARS (section security_env o).
Proof. destruct o; simpl; unfold security_env; named_section. Qed.

Lemma tls_named o : named TLS_VARS (section tls_env o).
Proof. destruct o; simpl; unfold tls_env; named_section. Qed.

Lemma reaper_named o : named REAPER_VARS (section reaper_env o).
Proof. destruct o; simpl; unfold reaper_env; named_section. Qed.

Lemma credentials_named o : named CREDENTIAL_VARS (section credentials_env o).
Proof. destruct o; simpl; unfold credentials_env; named_section. Qed.

(** Leave out the parts that cannot name a variable. *)
Ltac skip_sections :=
  unfold render_env; rewrite !environment_app;
  repeat match goal with
  | |- context [environment ?s ?n (backend_env ?o) ?N] =>
      rewrite (environment_named s n _ _ N (backend_named o) eq_refl)
  | |- context [environment ?s ?n (section log_env ?o) ?N] =>
      rewrite (environment_named s n _ _ N (log_named o) eq_refl)
  | |- context [environment ?s ?n (section security_env ?o) ?N] =>
      rewrite (environment_named s n _ _ N (security_named o) eq_refl)
  | |- context [environment ?s ?n (section tls_env ?o) ?N] =>
      rewrite (environment_named s n _ _ N (tls_named o) eq_refl)
  | |- context [environment ?s ?n (section reaper_env ?o) ?N] =>
      rewrite (environment_named s n _ _ N (reaper_named o) eq_refl)
  | |- context [environment ?s ?n (section credentials_env ?o) ?N] =>
      rewrite (environment_named s n _ _ N (credentials_named o) eq_refl)
  end.

Section lookups.
Context (secrets : string -> string -> option string) (ns : string).
Context (spec : Crd.ModelExpressServerSpec) (tls : option Crd.ResolvedTls).
Abbreviation env := (environment secrets ns (render_env spec tls)).

Lemma env_push_opt {A} (f : A -> EnvVar) o name :
  environment secrets ns (push_opt f o) name =
  (a ← o; if String.eqb (ev_name (f a)) name then var_value secrets ns (f a) else None).
Proof. by destruct o. Qed.

Lemma env_push_list {A} n (show : A -> string) l name :
  environment secrets ns (push_list n show l) name =
  match l with [] => None | _ => if String.eqb n name then Some (join "," (map show l)) else None end.
Proof. by destruct l. Qed.

Ltac lookup :=
  skip_sections; rewrite ?env_push_opt, ?env_push_list; cbn.

Lemma env_port : env "MODEL_EXPRESS_SERVER_PORT" = Some (decimal (Crd.sp_port spec)).
Proof. lookup. by destruct (Crd.sp_cache spec ≫= Crd.ca_eviction_enabled). Qed.

Lemma env_directory : env "MODEL_EXPRESS_CACHE_DIRECTORY" = Some (mount_path spec).
Proof. lookup. by destruct (Crd.sp_cache spec ≫= Crd.ca_eviction_enabled). Qed.

Lemma env_eviction :
  env "MODEL_EXPRESS_CACHE_EVICTION_ENABLED" =
  bool_text <$> (Crd.sp_cache spec ≫= Crd.ca_eviction_enabled).
Proof. lookup. by destruct (Crd.sp_cache spec ≫= Crd.ca_eviction_enabled). Qed.

(** The one literal of another part that stands between. *)
Ltac no_eviction := destruct (Crd.sp_cache spec ≫= Crd.ca_eviction_enabled).

Lemma env_level :
  env "MODEL_EXPRESS_LOG_LEVEL" = Crd.level_as_env_value <$> (Crd.sp_log spec ≫= Crd.lg_level).
Proof.
  skip_sections. rewrite !env_push_opt. no_eviction;
  destruct (Crd.sp_log spec) as [[[l|] [f|]]|]; reflexivity.
Qed.

Lemma env_format :
  env "MODEL_EXPRESS_LOG_FORMAT" = Crd.format_as_env_value <$> (Crd.sp_log spec ≫= Crd.lg_format).
Proof.
  skip_sections. rewrite !env_push_opt. no_eviction;
  destruct (Crd.sp_log spec) as [[[l|] [f|]]|]; reflexivity.
Qed.

Ltac from_part :=
  repeat (apply Forall_cons; split; [|]); try apply Forall_nil; try done;
  skip_sections; rewrite ?env_push_opt; no_eviction; cbn;
  match goal with |- _ = ?value => by destruct value end.

Lemma env_security :
  Forall (fun n => env n = environment secrets ns (section security_env (Crd.sp_security spec)) n)
    SECURITY_VARS.
Proof. from_part. Qed.

Lemma env_tls : Forall (fun n => env n = environment secrets ns (section tls_env tls) n) TLS_VARS.
Proof. from_part. Qed.

Lemma env_reaper :
  Forall (fun n => env n = environment secrets ns (section reaper_env (Crd.sp_reaper spec)) n)
    REAPER_VARS.
Proof. from_part. Qed.

Lemma env_backend :
  Forall (fun n => env n = environment secrets ns (backend_env (Crd.sp_metadata_backend spec)) n)
    BACKEND_VARS.
Proof. from_part. Qed.

(** Variables of the server that the operator never sets. *)
Lemma env_unset :
  Forall (fun n => env n = None)
    ["MODEL_EXPRESS_SERVER_HOST"; "MODEL_EXPRESS_SERVER_METRICS_PORT"; "MX_REDIS_URL";
     "MX_METADATA_NAMESPACE"].
Proof. from_part. Qed.
End lookups.

(** ** Values on both sides *)

Definition level_of (l : Crd.LogLevel) : Conf.LogLevel :=
  match l with
  | Crd.Trace => Conf.Trace | Crd.Debug => Conf.Debug | Crd.Info => Conf.Info
  | Crd.Warn => Conf.Warn | Crd.Error => Conf.Error
  end.

Definition format_of (f : Crd.LogFormat) : Conf.LogFormat :=
  match f with
  | Crd.Json => Conf.Json | Crd.Pretty => Conf.Pretty | Crd.Compact => Conf.Compact
  end.

Definition mode_of (m : Crd.AuthMode) : Conf.AuthMode :=
  match m with Crd.Disabled => Conf.Off | Crd.Enforce => Conf.Enforce end.

Definition account_of (r : Crd.ServiceAccountRef) : Conf.ServiceAccountRef :=
  Conf.MkServiceAccountRef (Crd.ar_namespace r)
    (if String.eqb (Crd.ar_service_account r) "*" then Conf.Any
     else Conf.Named (Crd.ar_service_account r)).

Lemma char_count_graphic s : str_all graphic s = true -> Crd.char_count s = String.length s.
Proof.
  induction s as [|c s IH]; [done|]. cbn [str_all]. rewrite andb_true_iff. intros [Hc Hs].
  simpl. rewrite IH by done. replace (is_continuation c) with false; [done|]. symmetry.
  revert Hc. destruct c as [[] [] [] [] [] [] [] []]; vm_compute; congruence.
Qed.

(** The schema admits exactly the entries that the server's parser accepts. *)
Lemma account_admitted r : Crd.account_ok r = true -> ref_wf (account_of r).
Proof.
  destruct r as [ns acc]. unfold Crd.account_ok, Crd.max_length. simpl.
  rewrite !andb_true_iff, label_pattern_matches, subdomain_pattern_matches, orb_true_iff.
  intros [[[Hlen Hlabel] Hlen2] Hacc]. unfold ref_wf, account_of. simpl. split.
  - unfold is_dns1123_label. rewrite Hlabel, andb_true_r. apply label_chars in Hlabel.
    rewrite char_count_graphic in Hlen; [done|].
    eapply str_all_impl; [|exact Hlabel]. apply label_char_graphic.
  - destruct (String.eqb acc "*"); [done|]. destruct Hacc as [?|Hacc]; [done|].
    unfold Conf.is_dns1123_subdomain.
    assert (str_all graphic acc = true) as Hg.
    { eapply (name_item_graphic acc). apply subdomain_chars_of. exact Hacc. }
    rewrite char_count_graphic in Hlen2 by done. by rewrite Hlen2.
Qed.

Lemma account_prints r : Conf.ref_display (account_of r) = account_text r.
Proof.
  destruct r as [ns acc]. unfold Conf.ref_display, account_of, account_text. simpl.
  destruct (String.eqb acc "*") eqn:E; [|done]. by apply String.eqb_eq in E as ->.
Qed.

Lemma char_count_le s : Crd.char_count s <= String.length s.
Proof. induction s as [|c s IH]; simpl; [done|]. case_match; lia. Qed.

(** The CEL rules of the custom resource admit an allowlist entry exactly when the
    server's own check accepts its two fields, and then as the same entry: no admitted
    entry stops the server from starting, and none that the server would take is refused. *)
Lemma allowlist_rules_agree r :
  Crd.account_ok r = true ↔
  Conf.ServiceAccountRef_new (Crd.ar_namespace r) (Crd.ar_service_account r) = Ok (account_of r).
Proof.
  split.
  - intros Hr%account_admitted. destruct Hr as [Hns Hacc]. destruct r as [ns acc]. simpl in *.
    unfold Conf.ServiceAccountRef_new, Conf.match_try_from. rewrite Hns. simpl.
    unfold account_of. simpl in *. destruct (String.eqb acc "*"); [done|]. by rewrite Hacc.
  - destruct r as [ns acc]. unfold Conf.ServiceAccountRef_new, Conf.match_try_from. simpl.
    unfold Crd.account_ok, Crd.max_length. simpl.
    rewrite label_pattern_matches, subdomain_pattern_matches.
    destruct (is_dns1123_label ns) eqn:Hns; [|done]. unfold is_dns1123_label in Hns.
    apply andb_true_iff in Hns as [Hlen Hl]. simpl. rewrite Hl. apply Nat.leb_le in Hlen.
    pose proof (char_count_le ns). pose proof (char_count_le acc).
    replace (Crd.char_count ns <=? 63)%nat with true by (symmetry; apply Nat.leb_le; lia).
    destruct (String.eqb acc "*") eqn:E; [apply String.eqb_eq in E as ->; done|].
    destruct (Conf.is_dns1123_subdomain acc) eqn:Hs; [|done]. intros _.
    unfold Conf.is_dns1123_subdomain in Hs. apply andb_true_iff in Hs as [Hl2 Hs].
    apply Nat.leb_le in Hl2. rewrite Hs.
    by replace (Crd.char_count acc <=? 253)%nat with true by (symmetry; apply Nat.leb_le; lia).
Qed.

(** ** Parsing what is rendered *)

Lemma parse_number_decimal max z :
  (0 <= z <= max)%Z -> Conf.parse_number max (decimal z) = Ok z.
Proof. intros Hz. unfold Conf.parse_number. by rewrite parse_unsigned_decimal. Qed.

Lemma auth_mode_text m : Conf.parse_auth_mode (Crd.auth_as_env_value m) = Ok (mode_of m).
Proof. by destruct m. Qed.

Lemma level_text l : Conf.parse_log_level (Crd.level_as_env_value l) = Ok (level_of l).
Proof. by destruct l. Qed.

Lemma format_text f : Conf.parse_log_format (Crd.format_as_env_value f) = Ok (format_of f).
Proof. by destruct f. Qed.

Lemma bool_text_parses b : Conf.parse_bool (bool_text b) = Ok b.
Proof. by destruct b. Qed.

Lemma allowlist_text l :
  Forall (fun r => Crd.account_ok r = true) l ->
  Conf.comma_list Conf.ref_from_str (join "," (map account_text l)) = Ok (map account_of l).
Proof.
  intros Hl.
  assert (map account_text l = map Conf.ref_display (map account_of l)) as ->.
  { rewrite map_map. apply map_ext. intros r. by rewrite account_prints. }
  assert (Forall ref_wf (map account_of l)) as Hwf.
  { rewrite Forall_map. eapply Forall_impl; [exact Hl|]. apply account_admitted. }
  rewrite comma_list_join.
  - apply try_map_map. eapply Forall_impl; [exact Hwf|]. apply ref_roundtrip.
  - rewrite Forall_map. eapply Forall_impl; [exact Hwf|]. apply ref_item.
Qed.

Lemma strings_text l :
  Forall plain_item l -> Conf.comma_list Ok (join "," (map id l)) = Ok l.
Proof. intros Hl. rewrite map_id, comma_list_join by done. apply try_map_Ok. Qed.

Lemma lang_str s x : lang (Str s) x -> x = s.
Proof.
  revert x. induction s as [|c s IH]; intros x; simpl; [by inversion 1|].
  intros (a & b & -> & Ha & Hb)%lang_seq_inv. inversion Ha as [|P d Hd| | | | |]; subst.
  apply Ascii.eqb_eq in Hd as <-. by rewrite str_app_cons, str_app_nil_l, (IH b).
Qed.

Lemma lang_alt_inv r1 r2 s : lang (Alt r1 r2) s -> lang r1 s ∨ lang r2 s.
Proof. inversion 1; subst; auto. Qed.

Lemma lang_str_chars s P x :
  lang (Seq (Str s) (Chars P)) x -> ∃ c, x = s +:+ String c "" ∧ P c = true.
Proof.
  intros (a & b & -> & ->%lang_str & Hb)%lang_seq_inv.
  inversion Hb as [|Q c Hc| | | | |]; subst. by exists c.
Qed.

(** Every version that the schema admits is one that the server knows. *)
Lemma tls_version_admitted v :
  re_match Crd.tls_version_pattern v = true -> ∃ w, Conf.TlsVersion_from_str v = Ok w.
Proof.
  rewrite re_match_lang. unfold Crd.tls_version_pattern. intros H.
  assert (∃ p c, (p = "VersionTLS1" ∨ p = "TLS1.") ∧ v = p +:+ String c "" ∧ byte_in 48 51 c = true)
    as (p & c & Hp & -> & Hc).
  { apply lang_alt_inv in H as [H|H]; apply lang_str_chars in H as (c & -> & Hc).
    - exists "VersionTLS1", c. auto.
    - exists "TLS1.", c. auto. }
  assert (c = "0" ∨ c = "1" ∨ c = "2" ∨ c = "3")%char as Hcases.
  { revert Hc. destruct c as [[] [] [] [] [] [] [] []]; vm_compute; naive_solver. }
  destruct Hp as [->| ->], Hcases as [->|[->|[->| ->]]]; by eexists; vm_compute.
Qed.

(** ** The server's arguments *)

Section reaches.
Context (secrets : string -> string -> option string) (ns : string).
Context (spec : Crd.ModelExpressServerSpec) (defaults : Crd.TlsSettings).
Abbreviation tls := ((fun config => Crd.resolve config defaults) <$> Crd.sp_tls spec).
Abbreviation env := (environment secrets ns (render_env spec tls)).

(** The texts that the schema does not restrict: items without commas or outer blanks. *)
Definition texts_plain : Prop :=
  (forall s, Crd.sp_security spec = Some s -> Forall plain_item (Crd.se_token_audiences s)) ∧
  (forall t, Crd.sp_tls spec = Some t ->
     Forall plain_item (Crd.tl_cipher_suites t) ∧ Forall plain_item (Crd.tl_groups t)) ∧
  mount_path spec ≠ "".

(** The platform's defaults are in the spelling of the server's flags. *)
Definition defaults_plain : Prop :=
  (forall v, Crd.ts_min_version defaults = Some v -> ∃ w, Conf.TlsVersion_from_str v = Ok w) ∧
  Forall plain_item (Crd.ts_ciphers defaults) ∧ Forall plain_item (Crd.ts_groups defaults).

Definition list_arg {A} (l : list A) : option (list A) := match l with [] => None | _ => Some l end.

Definition expected_security : Conf.SecurityArgs :=
  match Crd.sp_security spec with
  | None => Conf.MkSecurityArgs None None None None None
  | Some s =>
      Conf.MkSecurityArgs (Some (mode_of (Crd.se_mode s))) (list_arg (Crd.se_token_audiences s))
        (list_arg (map account_of (Crd.se_allowed_service_accounts s))) (Crd.se_cache_ttl_secs s)
        (Some (mode_of (Crd.se_tenant_isolation s)))
  end.

Lemma Forall_at {A} (P : A -> Prop) l i x : Forall P l -> l !! i = Some x -> P x.
Proof. intros Hl Hi. by eapply Forall_lookup_1. Qed.

Lemma security_reaches :
  (forall s, Crd.sp_security spec = Some s -> Crd.security_ok s = true) ->
  Crd.in_u32 (Crd.sp_security spec ≫= Crd.se_cache_ttl_secs) -> texts_plain ->
  Conf.security_args env = Ok expected_security.
Proof.
  intros Hok Httl [Haud _]. pose proof (env_security secrets ns spec tls) as Hs.
  unfold Conf.security_args, Conf.env_arg, expected_security.
  rewrite (Forall_at _ _ 0 _ Hs eq_refl), (Forall_at _ _ 1 _ Hs eq_refl),
    (Forall_at _ _ 2 _ Hs eq_refl), (Forall_at _ _ 3 _ Hs eq_refl), (Forall_at _ _ 4 _ Hs eq_refl).
  destruct (Crd.sp_security spec) as [s|]; [|done]. specialize (Hok s eq_refl).
  specialize (Haud s eq_refl). simpl in Httl. clear Hs.
  assert (Forall (fun r => Crd.account_ok r = true) (Crd.se_allowed_service_accounts s)) as Hacc.
  { unfold Crd.security_ok in Hok. apply andb_true_iff in Hok as [_ Hok].
    rewrite forallb_forall in Hok. apply Forall_forall. intros r Hr%list_elem_of_In. auto. }
  cbn [section]. unfold security_env. rewrite !environment_app, !env_push_list, !env_push_opt.
  destruct s as [mode isolation audiences accounts ttl].
  cbn -[join map decimal u64_max Conf.comma_list Conf.parse_number] in *.
  assert (match ttl with
          | Some z => Conf.parse_number u64_max (decimal z) = Ok z
          | None => True end) as Ht.
  { destruct ttl as [z|]; [|done]. apply parse_number_decimal.
    specialize (Httl z eq_refl). unfold u32_max, u64_max in *. lia. }
  pose proof (strings_text audiences Haud) as Ha. pose proof (allowlist_text accounts Hacc) as Hl.
  destruct audiences as [|a audiences], accounts as [|r accounts], ttl as [z|];
    cbn -[join map decimal u64_max Conf.comma_list Conf.parse_number] in *;
    rewrite ?auth_mode_text, ?Ha, ?Hl, ?Ht; by destruct mode, isolation.
Qed.

Definition version_of (v : string) : option Conf.TlsVersion := result_ok (Conf.TlsVersion_from_str v).

Definition expected_tls : Conf.TlsArgs :=
  match tls with
  | None => Conf.MkTlsArgs None None None None None
  | Some t =>
      Conf.MkTlsArgs (Some (components "/etc/modelexpress/tls/tls.crt"))
        (Some (components "/etc/modelexpress/tls/tls.key"))
        (Crd.ts_min_version (Crd.rt_settings t) ≫= version_of)
        (list_arg (Crd.ts_ciphers (Crd.rt_settings t))) (list_arg (Crd.ts_groups (Crd.rt_settings t)))
  end.

Lemma tls_reaches :
  (forall t, Crd.sp_tls spec = Some t -> Crd.tls_ok t = true) ->
  texts_plain -> defaults_plain -> Conf.tls_args env = Ok expected_tls.
Proof.
  intros Hok (_ & Htexts & _) (Hdv & Hdc & Hdg). pose proof (env_tls secrets ns spec tls) as Hs.
  unfold Conf.tls_args, Conf.env_arg, expected_tls.
  rewrite (Forall_at _ _ 0 _ Hs eq_refl), (Forall_at _ _ 1 _ Hs eq_refl),
    (Forall_at _ _ 2 _ Hs eq_refl), (Forall_at _ _ 3 _ Hs eq_refl), (Forall_at _ _ 4 _ Hs eq_refl).
  clear Hs. destruct (Crd.sp_tls spec) as [t|]; [|done]. specialize (Hok t eq_refl).
  destruct (Htexts t eq_refl) as [Htc Htg]. cbn [fmap option_fmap option_map].
  assert (forall v, Crd.ts_min_version (Crd.rt_settings (Crd.resolve t defaults)) = Some v ->
    ∃ w, Conf.TlsVersion_from_str v = Ok w) as Hv.
  { simpl. unfold Crd.tls_ok in Hok. rewrite !andb_true_iff in Hok. destruct Hok as (((_ & Hm) & _) & _).
    destruct (Crd.tl_min_version t) as [v|]; [|exact Hdv]. intros ? [= <-].
    simpl in Hm. apply andb_true_iff in Hm as [_ Hm]. by apply tls_version_admitted. }
  assert (Forall plain_item (Crd.ts_ciphers (Crd.rt_settings (Crd.resolve t defaults)))) as Hc
    by (simpl; by case_bool_decide).
  assert (Forall plain_item (Crd.ts_groups (Crd.rt_settings (Crd.resolve t defaults)))) as Hg
    by (simpl; by case_bool_decide).
  destruct (Crd.resolve t defaults) as [secret [version ciphers groups]]. simpl in Hv, Hc, Hg.
  cbn [section]. unfold tls_env. rewrite !environment_app, !env_push_list, !env_push_opt.
  pose proof (strings_text ciphers Hc) as Ha. pose proof (strings_text groups Hg) as Hb.
  destruct version as [v|]; [destruct (Hv v eq_refl) as [w Hw]|];
    destruct ciphers as [|c ciphers], groups as [|g groups];
    cbn -[join map components Conf.comma_list Conf.TlsVersion_from_str version_of] in *;
    rewrite ?Ha, ?Hb; unfold version_of; rewrite ?Hw; reflexivity.
Qed.

(** The reaper's timings, with the server's defaults. *)
Lemma reaper_reaches :
  Crd.in_u32 (Crd.sp_reaper spec ≫= Crd.re_scan_interval_secs) ->
  Crd.in_u32 (Crd.sp_reaper spec ≫= Crd.re_heartbeat_timeout_secs) ->
  Crd.in_u32 (Crd.sp_reaper spec ≫= Crd.re_gc_timeout_secs) ->
  Env.reaper_scan_interval_secs env = default 30%Z (Crd.sp_reaper spec ≫= Crd.re_scan_interval_secs) ∧
  Env.heartbeat_timeout_secs env = default 90%Z (Crd.sp_reaper spec ≫= Crd.re_heartbeat_timeout_secs) ∧
  Env.gc_timeout_secs env = default 3600%Z (Crd.sp_reaper spec ≫= Crd.re_gc_timeout_secs).
Proof.
  intros H1 H2 H3. pose proof (env_reaper secrets ns spec tls) as Hs.
  unfold Env.reaper_scan_interval_secs, Env.heartbeat_timeout_secs, Env.gc_timeout_secs, Env.env_u64.
  rewrite (Forall_at _ _ 0 _ Hs eq_refl), (Forall_at _ _ 1 _ Hs eq_refl), (Forall_at _ _ 2 _ Hs eq_refl).
  clear Hs. destruct (Crd.sp_reaper spec) as [[scan heartbeat gc]|]; [|done]. simpl in H1, H2, H3.
  assert (forall o, Crd.in_u32 o -> forall d, default d ((decimal <$> o) ≫= parse_unsigned u64_max) = default d o) as Hnum.
  { intros [z|] Hz d; [|done]. specialize (Hz z eq_refl). simpl. rewrite parse_unsigned_decimal; [done|].
    unfold u32_max, u64_max in *. lia. }
  pose proof (Hnum scan H1 30%Z) as E1. pose proof (Hnum heartbeat H2 90%Z) as E2.
  pose proof (Hnum gc H3 3600%Z) as E3. clear Hnum H1 H2 H3.
  cbn [section]. unfold reaper_env. rewrite !environment_app, !env_push_opt.
  destruct scan, heartbeat, gc; cbn -[decimal parse_unsigned u64_max] in *; auto.
Qed.

(** The metadata backend, where the Secret that the spec names has the URL. *)
Definition expected_backend : option Env.BackendConfig :=
  match Crd.sp_metadata_backend spec with
  | Crd.RedisStore r =>
      Env.Redis <$> match Crd.rb_url_secret r with
                    | Some k => secrets (Crd.sk_name k) (Crd.sk_key k)
                    | None => Crd.rb_url r
                    end
  | Crd.KubernetesStore => Some (Env.Kubernetes ns)
  end.

Lemma backend_reaches `{ToLowercase} memory_backend b :
  (forall s, str_all is_ascii_lowercase s = true -> to_lowercase s = s) ->
  expected_backend = Some b -> Env.from_env env memory_backend = Ok b.
Proof.
  intros Hlow Hb. pose proof (env_backend secrets ns spec tls) as Hs.
  pose proof (env_unset secrets ns spec tls) as Hu.
  unfold Env.from_env, Env.metadata_backend, Env.redis_url_from_env, Env.redis_url,
    Env.k8s_namespace_from_env, Env.metadata_namespace, Env.first_of.
  rewrite (Forall_at _ _ 0 _ Hs eq_refl), (Forall_at _ _ 1 _ Hs eq_refl), (Forall_at _ _ 2 _ Hs eq_refl),
    (Forall_at _ _ 2 _ Hu eq_refl), (Forall_at _ _ 3 _ Hu eq_refl).
  clear Hs Hu. unfold expected_backend in Hb.
  destruct (Crd.sp_metadata_backend spec) as [[url [secret|]]|]; cbn in *.
  - rewrite Hlow by reflexivity. cbn. destruct (secrets _ _) as [u|]; [|done]. cbn in *. congruence.
  - destruct url as [u|]; [|done]. cbn in *. rewrite Hlow by reflexivity. cbn. congruence.
  - rewrite Hlow by reflexivity. cbn. congruence.
Qed.
End reaches.

(** ** The whole way *)

Lemma list_arg_default {A} (l : list A) : default [] (list_arg l) = l.
Proof. by destruct l. Qed.

(** The TLS section: the files of the mounted Secret, and what the spec sets or else the
    platform. *)
Definition tls_of (config : option Crd.TlsConfig) (defaults : Crd.TlsSettings) : Conf.TlsConfig :=
  match config with
  | None => Conf.MkTlsConfig None None None [] []
  | Some t =>
      let st := Crd.rt_settings (Crd.resolve t defaults) in
      Conf.MkTlsConfig (Some (components "/etc/modelexpress/tls/tls.crt"))
        (Some (components "/etc/modelexpress/tls/tls.key"))
        (Crd.ts_min_version st ≫= version_of) (Crd.ts_ciphers st) (Crd.ts_groups st)
  end.

Lemma applied_tls spec defaults :
  Conf.apply_tls (expected_tls spec defaults) Conf.TlsConfig_default = tls_of (Crd.sp_tls spec) defaults.
Proof.
  unfold expected_tls, tls_of, Conf.apply_tls. destruct (Crd.sp_tls spec) as [t|]; [|done].
  cbn -[components version_of Crd.resolve]. unfold Conf.or_else. rewrite !list_arg_default.
  by destruct (_ ≫= version_of).
Qed.

(** The server's configuration is what the spec asks for, with the server's defaults
    where the spec is silent. *)
Definition runs_as (spec : Crd.ModelExpressServerSpec) (defaults : Crd.TlsSettings)
    (c : Conf.ServerConfig) : Prop :=
  let sec := Conf.sc_security c in
  Conf.ss_port (Conf.sc_server c) = Crd.sp_port spec ∧
  Conf.cc_directory (Conf.sc_cache c) = components (mount_path spec) ∧
  Conf.ce_enabled (Conf.cc_eviction (Conf.sc_cache c)) =
    default true (Crd.sp_cache spec ≫= Crd.ca_eviction_enabled) ∧
  Conf.lc_level (Conf.sc_logging c) = default Conf.Info (level_of <$> (Crd.sp_log spec ≫= Crd.lg_level)) ∧
  Conf.lc_format (Conf.sc_logging c) =
    default Conf.Pretty (format_of <$> (Crd.sp_log spec ≫= Crd.lg_format)) ∧
  Conf.resolve_mode sec = default Conf.Off (mode_of ∘ Crd.se_mode <$> Crd.sp_security spec) ∧
  Conf.resolve_tenant_isolation sec =
    default Conf.Off (mode_of ∘ Crd.se_tenant_isolation <$> Crd.sp_security spec) ∧
  Conf.sec_token_audiences sec = default [] (Crd.se_token_audiences <$> Crd.sp_security spec) ∧
  Conf.sec_allowed_service_accounts sec =
    default [] (map account_of ∘ Crd.se_allowed_service_accounts <$> Crd.sp_security spec) ∧
  Conf.sec_cache_ttl_secs sec = default 60%Z (Crd.sp_security spec ≫= Crd.se_cache_ttl_secs) ∧
  Conf.sc_tls c = tls_of (Crd.sp_tls spec) defaults.

Lemma port_text port : (0 < port < 65536)%Z -> Conf.parse_non_zero_u16 (decimal port) = Ok port.
Proof.
  intros Hp. unfold Conf.parse_non_zero_u16. rewrite parse_number_decimal by lia.
  by replace (port =? 0)%Z with false by lia.
Qed.

Lemma directory_text s : s ≠ "" -> Conf.parse_path s = Ok (components s).
Proof. unfold Conf.parse_path. by destruct s. Qed.

(** The arguments, read back variable by variable. *)
Lemma args_reach secrets ns spec defaults :
  let tls := (fun config => Crd.resolve config defaults) <$> Crd.sp_tls spec in
  Crd.admitted spec = true -> Crd.spec_typed spec -> texts_plain spec -> defaults_plain defaults ->
  Conf.args_from_env (environment secrets ns (render_env spec tls)) =
  Ok (Conf.MkServerArgs None (Some (Crd.sp_port spec)) None None
        (level_of <$> (Crd.sp_log spec ≫= Crd.lg_level))
        (format_of <$> (Crd.sp_log spec ≫= Crd.lg_format))
        (Some (components (mount_path spec))) (Crd.sp_cache spec ≫= Crd.ca_eviction_enabled)
        (expected_security spec) (expected_tls spec defaults)).
Proof.
  intros tls Hadm (Httl & _) Htexts Hdef. subst tls. unfold Crd.admitted in Hadm.
  rewrite !andb_true_iff in Hadm.
  destruct Hadm as [[[[[[[[[_ [Hp1 Hp2]] _] Hsec] Htls] _] _] _] _] _].
  pose proof (env_unset secrets ns spec ((fun config => Crd.resolve config defaults) <$> Crd.sp_tls spec)) as Hu.
  unfold Conf.args_from_env, Conf.env_arg. rewrite env_port, env_directory, env_eviction, env_level,
    env_format, (Forall_at _ _ 0 _ Hu eq_refl), (Forall_at _ _ 1 _ Hu eq_refl).
  rewrite port_text by lia. rewrite directory_text by apply Htexts.
  rewrite security_reaches; [|by intros s Hs; rewrite Hs in Hsec|done..].
  rewrite tls_reaches; [|by intros t Ht; rewrite Ht in Htls|done..].
  destruct (Crd.sp_log spec ≫= Crd.lg_level) as [l|], (Crd.sp_log spec ≫= Crd.lg_format) as [f|],
    (Crd.sp_cache spec ≫= Crd.ca_eviction_enabled) as [b|];
    cbn; rewrite ?level_text, ?format_text, ?bool_text_parses; reflexivity.
Qed.

(** C37: what an admitted custom resource asks for is what the server runs with: the
    environment that the operator renders for its container is read back by the server as
    the spec's port, cache directory, eviction and logging settings, security mode,
    isolation, audiences, allowlist, cache lifetime, TLS, reaper timings and metadata
    backend, and the security section passes the server's own validation.  The texts that
    the schema does not restrict must be plain ([texts_plain]: audiences and TLS lists
    without commas and outer white space, a cache directory that is not empty), and so
    must the platform's TLS defaults ([defaults_plain]); an admitted audience with a comma
    is read as two ([audience_with_comma] of OperatorRun). *)
Theorem spec_reaches_server `{ToLowercase} secrets ns spec defaults :
  (forall s, str_all is_ascii_lowercase s = true -> to_lowercase s = s) ->
  Crd.admitted spec = true -> Crd.spec_typed spec -> texts_plain spec -> defaults_plain defaults ->
  let env := environment secrets ns
    (render_env spec ((fun config => Crd.resolve config defaults) <$> Crd.sp_tls spec)) in
  (∃ args, Conf.args_from_env env = Ok args ∧
     let c := Conf.apply_args args Conf.ServerConfig_default in
     runs_as spec defaults c ∧
     Conf.validate_resolved (Conf.sc_security c) (Conf.resolve_mode (Conf.sc_security c)) = Ok ()) ∧
  Env.reaper_scan_interval_secs env = default 30%Z (Crd.sp_reaper spec ≫= Crd.re_scan_interval_secs) ∧
  Env.heartbeat_timeout_secs env = default 90%Z (Crd.sp_reaper spec ≫= Crd.re_heartbeat_timeout_secs) ∧
  Env.gc_timeout_secs env = default 3600%Z (Crd.sp_reaper spec ≫= Crd.re_gc_timeout_secs) ∧
  forall b, expected_backend secrets ns spec = Some b -> Env.from_env env false = Ok b.
Proof.
  intros Hlow Hadm Htyped Htexts Hdef env. split.
  - eexists. split; [by apply args_reach|]. cbv zeta. unfold Crd.admitted in Hadm.
    rewrite !andb_true_iff in Hadm. destruct Hadm as [[[[[[[_ Hsec] _] _] _] _] _] _].
    unfold runs_as, expected_security, expected_tls, Conf.apply_args, Conf.apply_security, Conf.apply_tls.
    cbn -[components]. destruct (Crd.sp_security spec) as [s|]; cbn -[components].
    + rewrite !list_arg_default. split.
      * split_and!; try done. by apply applied_tls.
      * cbn in Hsec. unfold Crd.security_ok in Hsec. rewrite !andb_true_iff in Hsec.
        destruct Hsec as [[[[Henf Hiso] _] _] _]. unfold Conf.validate_resolved,
          Conf.resolve_mode, Conf.resolve_tenant_isolation. cbn.
        destruct s as [[] [] [|a l] [|r k] ttl]; done.
    + split; [|done]. split_and!; try done. by apply applied_tls.
  - destruct Htyped as (_ & H1 & H2 & H3).
    destruct (reaper_reaches secrets ns spec defaults H1 H2 H3) as (E1 & E2 & E3).
    split_and!; [exact E1|exact E2|exact E3|]. intros b Hb. by apply backend_reaches.
Qed.
