(* ===== verification/OperatorRun.v ===== *)
(** * Rendered objects and runs of the operator

    The objects of one resource fit together whatever the user's labels are; concrete
    reconciles; and three behaviours that the comments do not have. *)

From Stdlib Require Import ZArith Lia Ascii String.
From stdpp Require Import base tactics option list relations gmap fin_maps strings.
From S2P Require Import Prelude RustStr RustPath EntryKey RedisStore RegistryMemory Json.
From S2P Require Import SourceIdentityHash RegistryKube RegistryKubeRun.
From S2P Require Import ServerConfig ServerConfigFacts OperatorSpec.
From S2P Require Import OperatorRender Operator OperatorTheorems OperatorServer.
Import Crd Render Operator.

(** ** Objects that fit together *)

Definition probe_port (p : Probe) : Z := match pr_action p with TcpSocket n | Grpc n => n end.

(** A rule that lets traffic to a port in. *)
Definition admits_port (r : IngressRule) (port : Z) : Prop :=
  match ir_ports r with
  | None => True
  | Some ports => MkPolicyPort (Some (PortInt port)) (Some "TCP") ∈ ports
  end.

(** The labels by which the operator's watches and its selectors find an object. *)
Definition carries_labels (cr_name : string) (l : option labels) : Prop :=
  ∃ m, l = Some m ∧ managed_labels cr_name ⊆ m.

Lemma extend_keeps (base extra : labels) : extra ⊆ extend base extra.
Proof. apply map_union_subseteq_l. Qed.

Lemma selector_managed cr_name : selector_labels cr_name ⊆ managed_labels cr_name.
Proof. apply insert_subseteq. reflexivity. Qed.

Lemma selector_pod cr_name spec : selector_labels cr_name ⊆ pod_labels cr_name spec.
Proof. etrans; [apply selector_managed|apply extend_keeps]. Qed.

Lemma named_labels name cr_name : carries_labels cr_name (om_labels (named_meta name cr_name)).
Proof. eexists. split; [reflexivity|done]. Qed.

(** C39: for every name, spec and image, whatever labels and annotations the user adds,
    the rendered objects fit together: the Deployment, the Service and the NetworkPolicy
    select the pods of the template, every volume that is mounted exists and volume names
    are distinct, the Service forwards to the port on which the container listens, on
    which it is probed and that the NetworkPolicy lets in, the RoleBinding grants the
    rendered Role, and it and the ClusterRoleBinding to the account that the pod runs as,
    and every object that is rendered (Deployment, Service, NetworkPolicy, claim,
    ServiceAccount, Role, RoleBinding, ClusterRoleBinding) carries the managed labels,
    among them the one that the operator's watches select. *)
Theorem rendered_objects_fit `{HexDigest} cr_name spec image defaults :
  let d := render cr_name spec image defaults in
  let dep := ds_deployment d in
  let svc := ds_service d in
  let np := ds_network_policy d in
  (∃ pod sel, dp_template_labels dep = Some pod ∧ ls_match_labels (dp_selector dep) = Some sel ∧
     sel ⊆ pod ∧ sv_selector svc ⊆ pod ∧ np_pod_match_labels np ⊆ pod) ∧
  (∃ c, ps_containers (dp_pod dep) = [c] ∧
     Forall (fun m => vm_name m ∈ map vo_name (ps_volumes (dp_pod dep))) (ct_volume_mounts c) ∧
     NoDup (map vo_name (ps_volumes (dp_pod dep))) ∧
     ∃ port n, sv_ports svc = [MkServicePort (Some n) port (PortString n)] ∧
       ct_ports c = [MkContainerPort (Some n) port] ∧
       probe_port (ct_startup_probe c) = port ∧ probe_port (ct_readiness_probe c) = port ∧
       probe_port (ct_liveness_probe c) = port ∧
       (∃ rule, rule ∈ np_ingress np ∧ admits_port rule port)) ∧
  carries_labels cr_name (om_labels (dp_metadata dep)) ∧
  carries_labels cr_name (om_labels (sv_metadata svc)) ∧
  carries_labels cr_name (om_labels (np_metadata np)) ∧
  (forall pvc, ds_pvc d = Some pvc ->
     carries_labels cr_name (om_labels (pvc_metadata pvc)) ∧
     MkVolume VOLUME_NAME (ClaimSource (default "" (om_name (pvc_metadata pvc)))) ∈
       ps_volumes (dp_pod dep)) ∧
  (forall sa, sb_service_account (render_rbac cr_name spec) = Some sa ->
     carries_labels cr_name (om_labels (acc_metadata sa)) ∧
     om_name (acc_metadata sa) = ps_service_account_name (dp_pod dep)) ∧
  (forall role, sb_role (render_rbac cr_name spec) = Some role ->
     carries_labels cr_name (om_labels (ro_metadata role))) ∧
  (forall b, sb_role_binding (render_rbac cr_name spec) = Some b ->
     carries_labels cr_name (om_labels (rb_metadata b)) ∧
     (∃ role, sb_role (render_rbac cr_name spec) = Some role ∧
        om_name (ro_metadata role) = Some (ref_name (rb_role_ref b))) ∧
     map (Some ∘ su_name) (rb_subjects b) = [ps_service_account_name (dp_pod dep)]) ∧
  (forall ns b, render_auth_delegator_binding cr_name ns spec = Ok (Some b) ->
     carries_labels cr_name (om_labels (rb_metadata b)) ∧
     map (fun s => (Some (su_name s), su_namespace s)) (rb_subjects b) =
       [(ps_service_account_name (dp_pod dep), Some ns)]).
Proof.
  intros d dep svc np. split.
  { eexists _, _. split; [reflexivity|]. split; [reflexivity|]. split_and!; apply selector_pod. }
  split.
  { eexists. split; [reflexivity|].
    assert (vo_name (cv_volume (render_cache_volume cr_name spec)) = VOLUME_NAME ∧
            vm_name (cv_mount (render_cache_volume cr_name spec)) = VOLUME_NAME) as [Hv Hm].
    { unfold render_cache_volume. by destruct (sp_cache spec ≫= ca_storage) as [[]|]. }
    split_and!.
    - subst d dep. simpl. rewrite Hv. destruct (sp_tls spec); simpl;
        (apply Forall_cons; split; [rewrite Hm; by left|]); [|by apply Forall_nil].
      apply Forall_cons. split; [right; by left|by apply Forall_nil].
    - subst d dep. simpl. rewrite Hv. destruct (sp_tls spec); simpl;
        (apply NoDup_cons; split; [|try apply NoDup_singleton; apply NoDup_nil_2]).
      + by intros [?|[]%elem_of_nil]%elem_of_cons.
      + by intros []%elem_of_nil.
    - exists (sp_port spec), PORT_NAME. split; [reflexivity|]. split; [reflexivity|].
      split_and!; try (subst d dep; simpl; by destruct (sp_tls spec)).
      subst d np. simpl. unfold build_network_policy. cbn [np_ingress].
      destruct (sp_network_policy spec) as [[[|p l] peers]|]; cbn [nc_allow_from].
      all: eexists; split; [by left|]; unfold admits_port; by left. }
  split_and!.
  - eexists. split; [reflexivity|]. apply extend_keeps.
  - eexists. split; [reflexivity|]. apply extend_keeps.
  - eexists. split; [reflexivity|]. apply extend_keeps.
  - intros pvc Hp. subst d dep. simpl in *. unfold render_cache_volume in *.
    destruct (sp_cache spec ≫= ca_storage) as [[|claim|managed]|]; try done.
    injection Hp as <-. split; [|by left]. eexists. split; [reflexivity|]. apply extend_keeps.
  - intros sa. unfold render_rbac. destruct (sp_service_account_name spec); [done|].
    intros Hsa. assert (sa = MkServiceAccount (named_meta (service_account_name cr_name spec) cr_name))
      as -> by (destruct (sp_metadata_backend spec); by injection Hsa as <-).
    split; [apply named_labels|done].
  - intros role. unfold render_rbac. destruct (sp_service_account_name spec); [done|].
    destruct (sp_metadata_backend spec); intros [= <-]. apply named_labels.
  - intros b. unfold render_rbac. destruct (sp_service_account_name spec); [done|].
    destruct (sp_metadata_backend spec); intros [= <-]. split_and!; [apply named_labels| |done].
    by eexists.
  - intros ns b. unfold render_auth_delegator_binding. destruct (negb _); [done|].
    destruct (auth_delegator_binding_name cr_name ns); intros [= <-]. split; [apply named_labels|done].
Qed.

(** ** Runs *)

(** A run in which every request gets the answer of [f]. *)
Fixpoint simulate {A} (f : forall R, req R -> R) (h : list event) (p : prog A) : list event * A :=
  match p with
  | Ret a => (h, a)
  | Do r k => simulate f (Ev r (Some (f _ r)) :: h) (k (f _ r))
  end.

Lemma simulate_run {A} f h (p : prog A) : run h p (simulate f h p).1 (Some (simulate f h p).2).
Proof.
  revert h. induction p as [a|R r k IH]; intros h; simpl; [constructor|].
  eapply run_do. apply IH.
Qed.

(** A server that has the objects [existing] and accepts every change but that of the
    finalizers, which it answers with [finalizers]. *)
Definition answers (existing : option ObjectMeta) (finalizers : result unit KubeFailure)
    (R : Type) (r : req R) : R :=
  match r with
  | GetClaim _ _ => Ok None
  | GetMeta _ _ _ => Ok existing
  | Apply _ _ _ => Ok ()
  | Delete _ _ _ => Ok ()
  | ApplyFinalizers _ _ _ => finalizers
  | ApplyStatus _ _ _ => Ok ()
  | CurrentTlsDefaults => Ok TlsSettings_default
  | Now => 100%Z
  end.

Definition sample_security : SecurityConfig :=
  MkSecurity Enforce Enforce ["mx"; "mx-internal"]
    [MkAccountRef "team-a" "trainer.v1"; MkAccountRef "ops" "*"] (Some 30%Z).

Definition sample_spec (security : option SecurityConfig) (account : option string)
    : ModelExpressServerSpec :=
  MkSpec (Some "registry/mx:1") None 2 KubernetesStore 8001 (Some (MkLogConfig (Some Debug) None))
    (Some (MkCacheConfig None (Some false) (Some (EmptyDir (Some "1.5Gi"))))) security
    (Some (MkTls "mx-tls" (Some "VersionTLS13") ["TLS_AES_128_GCM_SHA256"] []))
    (Some (MkReaper (Some 10%Z) (Some 60%Z) None)) None None
    (Some (MkMetadataOverrides (Some {["app.kubernetes.io/instance" := "other"]}) None))
    None None None None None None None account.

Definition sample_cr (spec : ModelExpressServerSpec) : ModelExpressServer :=
  MkCr (Some "mx") (Some "team-a") (Some "uid-1") (Some 3%Z) false [] spec None.

Definition show_modes (l : list string) : string := join ", " l.

Abbreviation sample_reconcile cr := (reconcile_inner show_modes None cr).

Definition owned_meta : ObjectMeta :=
  MkObjectMeta (Some "mx") (Some "team-a") None None
    (Some [MkOwnerReference "ModelExpressServer" "mx" "uid-1" (Some true) None]).

Abbreviation enforced := (sample_cr (sample_spec (Some sample_security) None)).
Abbreviation enforced_run := (simulate (answers None (Ok ())) [] (sample_reconcile enforced)).
Abbreviation cleanup := (sample_cr (sample_spec None (Some "byo"))).
Abbreviation cleanup_run := (simulate (answers (Some owned_meta) (Ok ())) [] (sample_reconcile cleanup)).

Lemma finalizer_brackets_binding_witness :
  enforced_run.2 = Ok (Requeue 300) ∧
  (forall later n bname b x earlier,
     enforced_run.1 = later ++ Ev (Apply n bname (OClusterRoleBinding b)) x :: earlier ->
     auth_delegator_binding_name (name_any enforced) "team-a" = Ok bname ∧
     finalizer_on enforced "team-a" earlier) ∧
  (forall later n nm x earlier,
     enforced_run.1 = later ++ Ev (ApplyFinalizers n nm []) x :: earlier ->
     binding_gone enforced "team-a" earlier).
Proof.
  assert (enforced_run.2 = Ok (Requeue 300)) as E by (vm_compute; reflexivity).
  exact (conj E (finalizer_brackets_binding show_modes None enforced "team-a" _ _ eq_refl
                   (simulate_run (answers None (Ok ())) [] (sample_reconcile enforced)))).
Defined.

Lemma foreign_objects_kept_witness :
  cleanup_run.2 = Ok (Requeue 300) ∧
  (forall later k n nm x earlier,
     cleanup_run.1 = later ++ Ev (Delete k n nm) x :: earlier ->
     just_read earlier k n nm (fun existing => ∃ meta, existing = Some meta ∧
       (k = KClusterRoleBinding ∧ marked_for meta (name_any cleanup) ∨
        ∃ uid, cr_uid cleanup = Some uid ∧ owned_by meta uid))) ∧
  (forall later n nm p x earlier,
     cleanup_run.1 = later ++ Ev (Apply n nm (ONetworkPolicy p)) x :: earlier ->
     just_read earlier KNetworkPolicy n nm (fun existing =>
       ∃ uid, cr_uid cleanup = Some uid ∧ forall meta, existing = Some meta -> controlled_by meta uid)).
Proof.
  assert (cleanup_run.2 = Ok (Requeue 300)) as E by (vm_compute; reflexivity).
  exact (conj E (foreign_objects_kept show_modes None cleanup "team-a" _ _ eq_refl
                   (simulate_run (answers (Some owned_meta) (Ok ())) [] (sample_reconcile cleanup)))).
Defined.

Lemma reconcile_complete_witness :
  (∃ outcome status, complete None enforced "team-a" enforced_run.1 outcome ∧
     reported show_modes enforced "team-a" (Ok outcome) status ∧
     Ev (ApplyStatus "team-a" (name_any enforced) status) (Some (Ok ())) ∈ enforced_run.1) ∧
  (forall later n nm d x earlier,
     enforced_run.1 = later ++ Ev (Apply n nm (ODeployment d)) x :: earlier ->
     rbac_applied enforced "team-a" earlier ∧ auth_applied enforced "team-a" earlier).
Proof.
  assert (enforced_run.2 = Ok (Requeue 300)) as E by (vm_compute; reflexivity).
  pose proof (simulate_run (answers None (Ok ())) [] (sample_reconcile enforced)) as R.
  rewrite E in R.
  exact (reconcile_complete show_modes None enforced "team-a" _ 300 eq_refl R).
Defined.

(** ** Behaviours that the comments do not have *)

(** A finalizer whose application is answered with 404 counts as held: the operator goes
    on and creates the cluster-scoped binding of a resource that is gone, which nothing
    deletes afterwards. *)
Lemma binding_of_gone_resource cr ns name bname b (gone := MkKubeFailure (Some 404%Z) "not found") :
  has_finalizer cr = false ->
  auth_delegator_binding_name name ns = Ok bname ->
  render_auth_delegator_binding name ns (cr_spec cr) = Ok (Some b) ->
  simulate (answers None (Err gone)) [] (apply_auth_delegator cr ns name) =
  ([Ev (Apply None bname (OClusterRoleBinding b)) (Some (Ok ()));
    Ev (ApplyFinalizers ns name [AUTH_DELEGATOR_FINALIZER]) (Some (Err gone))], Ok ()).
Proof.
  intros Hf Hn Hr. unfold apply_auth_delegator, bind_ok, lift. rewrite Hn. cbn [bind]. rewrite Hr.
  cbn [bind]. unfold set_finalizer. rewrite Hf. reflexivity.
Qed.

(** An account that the user names like the generated one is deleted as the generated
    one, and it is the account that the pods run as. *)
Lemma named_account_deleted cr ns uid :
  sp_service_account_name (cr_spec cr) = Some (name_any cr +:+ "-server") ->
  service_account_name (name_any cr) (cr_spec cr) = name_any cr +:+ "-server" ∧
  forall meta, is_owned_by meta uid = true ->
    Ev (Delete KServiceAccount (Some ns) (name_any cr +:+ "-server")) (Some (Ok ())) ∈
      (simulate (answers (Some meta) (Ok ())) []
         (delete_if_owned KServiceAccount ns (name_any cr +:+ "-server") uid)).1 ∧
    sb_service_account (render_rbac (name_any cr) (cr_spec cr)) = None.
Proof.
  intros Ha. split; [unfold service_account_name; by rewrite Ha|]. intros meta Hm.
  unfold delete_if_owned, bind_ok, kube, ask. simpl. rewrite Hm. simpl. split; [by left|].
  unfold render_rbac. by rewrite Ha.
Qed.

(** An audience with a comma is admitted, and the server reads it as two. *)
Lemma audience_with_comma :
  let security := MkSecurity Enforce Disabled ["https://kubernetes.default.svc,internal"]
                    [MkAccountRef "ops" "*"] None in
  let spec := sample_spec (Some security) None in
  admitted spec = true ∧
  ∃ args, Conf.args_from_env (environment (fun _ _ => None) "team-a" (render_env spec None)) = Ok args ∧
    Conf.sa_token_audiences (Conf.ar_security args) = Some ["https://kubernetes.default.svc"; "internal"].
Proof.
  split; [vm_compute; reflexivity|]. eexists. split; [vm_compute; reflexivity|]. reflexivity.
Qed.

Lemma spec_reaches_server_witness :
  admitted (sample_spec (Some sample_security) None) = true ∧
  let env := environment (fun _ _ => None) "team-a"
    (render_env (sample_spec (Some sample_security) None)
       ((fun config => resolve config TlsSettings_default) <$>
        sp_tls (sample_spec (Some sample_security) None))) in
  (∃ args, Conf.args_from_env env = Ok args ∧
     let c := Conf.apply_args args Conf.ServerConfig_default in
     runs_as (sample_spec (Some sample_security) None) TlsSettings_default c ∧
     Conf.validate_resolved (Conf.sc_security c) (Conf.resolve_mode (Conf.sc_security c)) = Ok ()).
Proof.
  assert (admitted (sample_spec (Some sample_security) None) = true) as Hadm by (vm_compute; reflexivity).
  assert (spec_typed (sample_spec (Some sample_security) None)) as Htyped.
  { split_and!; intros z [= <-]; vm_compute; split; discriminate. }
  assert (texts_plain (sample_spec (Some sample_security) None)) as Htexts.
  { split_and!.
    - intros s [= <-]. repeat (apply Forall_cons; split; [|]); try apply Forall_nil; try done;
        (split_and!; [discriminate|vm_compute; reflexivity..]).
    - intros t [= <-]. split; repeat (apply Forall_cons; split; [|]); try apply Forall_nil; try done;
        (split_and!; [discriminate|vm_compute; reflexivity..]).
    - discriminate. }
  assert (defaults_plain TlsSettings_default) as Hdef by (split_and!; [discriminate|apply Forall_nil_2..]).
  assert (forall s, str_all is_ascii_lowercase s = true -> to_lowercase s = s) as Hlow.
  { intros s Hs. induction s as [|c s IH]; [reflexivity|]. cbn [str_all] in Hs.
    apply andb_true_iff in Hs as [Hc Hs]. cbn. f_equal; [|exact (IH Hs)].
    revert Hc. destruct c as [[] [] [] [] [] [] [] []]; vm_compute; congruence. }
  exact (conj Hadm (proj1 (spec_reaches_server (fun _ _ => None) "team-a"
           (sample_spec (Some sample_security) None) TlsSettings_default Hlow Hadm Htyped Htexts Hdef))).
Defined.
