(* ===== verification/OpenshiftTls.v ===== *)
(** * The cluster's TLS profile (operator-openshift/src/apiserver.rs)

    What the operator on OpenShift takes for the TLS defaults: the profile of the
    cluster's APIServer object when the cluster asks every component to follow it, the
    Intermediate profile otherwise; and what a server then runs with. *)

From Stdlib Require Import ZArith Lia Ascii String.
From stdpp Require Import base tactics option list gmap fin_maps strings.
From S2P Require Import Prelude RustStr RustPath Json ServerConfig ServerConfigFacts.
From S2P Require Import OperatorSpec OperatorRender Operator OperatorServer.

Module Profile.
Import Crd.

Definition PROFILE_GROUPS : list string := ["X25519MLKEM768"; "X25519"; "secp256r1"; "secp384r1"].

Definition TLS13_SUITES : list string :=
  ["TLS_AES_128_GCM_SHA256"; "TLS_AES_256_GCM_SHA384"; "TLS_CHACHA20_POLY1305_SHA256"].

Definition INTERMEDIATE_TLS12_CIPHERS : list string :=
  ["ECDHE-ECDSA-AES128-GCM-SHA256"; "ECDHE-RSA-AES128-GCM-SHA256";
   "ECDHE-ECDSA-AES256-GCM-SHA384"; "ECDHE-RSA-AES256-GCM-SHA384";
   "ECDHE-ECDSA-CHACHA20-POLY1305"; "ECDHE-RSA-CHACHA20-POLY1305"].

Definition OLD_EXTRA_CIPHERS : list string :=
  ["ECDHE-ECDSA-AES128-SHA256"; "ECDHE-RSA-AES128-SHA256"; "ECDHE-ECDSA-AES128-SHA";
   "ECDHE-RSA-AES128-SHA"; "ECDHE-ECDSA-AES256-SHA384"; "ECDHE-RSA-AES256-SHA384";
   "ECDHE-ECDSA-AES256-SHA"; "ECDHE-RSA-AES256-SHA"; "AES128-GCM-SHA256"; "AES256-GCM-SHA384";
   "AES128-SHA256"; "AES256-SHA256"; "AES128-SHA"; "AES256-SHA"; "DES-CBC3-SHA"].

Definition old : TlsSettings :=
  MkTlsSettings (Some "VersionTLS10")
    (TLS13_SUITES ++ INTERMEDIATE_TLS12_CIPHERS ++ OLD_EXTRA_CIPHERS) PROFILE_GROUPS.

Definition intermediate : TlsSettings :=
  MkTlsSettings (Some "VersionTLS12") (TLS13_SUITES ++ INTERMEDIATE_TLS12_CIPHERS) PROFILE_GROUPS.

Definition modern : TlsSettings := MkTlsSettings (Some "VersionTLS13") TLS13_SUITES PROFILE_GROUPS.

Record CustomProfile : Type := MkCustom {
  cp_ciphers : option (list string);
  cp_groups : option (list string);
  cp_min_tls_version : option string
}.

Record SecurityProfile : Type := MkProfile {
  pr_kind : option string;
  pr_custom : option CustomProfile
}.

(** The serde forms: an object, or an array of all the fields in order. *)
Definition de_custom (v : json) : option CustomProfile :=
  let strings := de_option (de_list de_string) in
  match v with
  | JObj fields =>
      ciphers ← de_default strings None fields "ciphers";
      groups ← de_default strings None fields "groups";
      version ← de_default (de_option de_string) None fields "minTLSVersion";
      Some (MkCustom ciphers groups version)
  | JArr [ciphers; groups; version] =>
      ciphers ← strings ciphers; groups ← strings groups; version ← de_option de_string version;
      Some (MkCustom ciphers groups version)
  | _ => None
  end.

Definition de_profile (v : json) : option SecurityProfile :=
  match v with
  | JObj fields =>
      kind ← de_default (de_option de_string) None fields "type";
      custom ← de_default (de_option de_custom) None fields "custom";
      Some (MkProfile kind custom)
  | JArr [kind; custom] =>
      kind ← de_option de_string kind; custom ← de_option de_custom custom;
      Some (MkProfile kind custom)
  | _ => None
  end.

Inductive ProfileError : Type := CustomMissing.

Definition from_security_profile (value : json) : result TlsSettings ProfileError :=
  let profile := default (MkProfile None None) (de_profile value) in
  let kind := default "" (pr_kind profile) in
  if String.eqb kind "Old" then Ok old
  else if String.eqb kind "Modern" then Ok modern
  else if String.eqb kind "Custom" then
    match pr_custom profile with
    | None => Err CustomMissing
    | Some custom =>
        Ok (MkTlsSettings
              (v ← cp_min_tls_version custom; if str_is_empty v then None else Some v)
              (default [] (cp_ciphers custom)) (default [] (cp_groups custom)))
    end
  else Ok intermediate.

Inductive TlsAdherence : Type :=
| NoOpinion
| LegacyAdheringComponentsOnly
| StrictAllComponents
| UnknownAdherence (value : string).

Definition from_spec (value : option string) : TlsAdherence :=
  match value with
  | None | Some "" => NoOpinion
  | Some "LegacyAdheringComponentsOnly" => LegacyAdheringComponentsOnly
  | Some "StrictAllComponents" => StrictAllComponents
  | Some other => UnknownAdherence other
  end.

Definition honors_cluster_profile (a : TlsAdherence) : bool :=
  match a with
  | NoOpinion | LegacyAdheringComponentsOnly => false
  | StrictAllComponents | UnknownAdherence _ => true
  end.

(** [value["key"]] of serde_json: null where there is none. *)
Definition index (v : json) (k : string) : json :=
  match v with
  | JObj fields => match List.find (fun kv => String.eqb kv.1 k) fields with
                   | Some kv => kv.2
                   | None => JNull
                   end
  | _ => JNull
  end.

Definition from_apiserver_spec (spec : json) : result TlsSettings ProfileError :=
  let adherence := from_spec (de_string (index spec "tlsAdherence")) in
  if negb (honors_cluster_profile adherence) then Ok intermediate
  else from_security_profile (index spec "tlsSecurityProfile").

Inductive FetchError : Type :=
| KubeError (e : Operator.KubeFailure)
| BadProfile (e : ProfileError).

(** A failed discovery, or an answer of the API server, or neither. *)
Inductive discovery_failure : Type :=
| DiscoveryError (message : string)
| Failure (e : Operator.KubeFailure).

Definition absent (e : discovery_failure) : bool :=
  match e with
  | DiscoveryError _ => true
  | Failure e => bool_decide (Operator.kf_code e = Some 404%Z)
  end.

Inductive Served : Type := Yes | No | Unknown (e : discovery_failure).

Definition served (pinned : result unit discovery_failure) : Served :=
  match pinned with
  | Ok _ => Yes
  | Err e => if absent e then No else Unknown e
  end.

(** [read] on the answer to [get_opt], an object's data. *)
Definition read (answer : result (option json) Operator.KubeFailure)
    : result TlsSettings FetchError :=
  match answer with
  | Err e => Err (KubeError e)
  | Ok None => Ok intermediate
  | Ok (Some data) =>
      match from_apiserver_spec (index data "spec") with
      | Ok st => Ok st
      | Err e => Err (BadProfile e)
      end
  end.

Definition fetch (pinned : result unit discovery_failure)
    (answer : result (option json) Operator.KubeFailure) : result TlsSettings FetchError :=
  match served pinned with
  | No => Ok intermediate
  | _ => read answer
  end.

End Profile.
Import Profile.

(** ** The profiles and the server's flags *)

(** A custom profile in the spelling of the flags. *)
Definition custom_plain (c : CustomProfile) : Prop :=
  (forall v, cp_min_tls_version c = Some v -> v = "" ∨ ∃ w, Conf.TlsVersion_from_str v = Ok w) ∧
  Forall plain_item (default [] (cp_ciphers c)) ∧ Forall plain_item (default [] (cp_groups c)).

Ltac plain_texts :=
  repeat (apply Forall_cons; split; [split_and!; [discriminate|vm_compute; reflexivity..]|]);
  apply Forall_nil_2.

Lemma old_plain : defaults_plain old.
Proof. split; [intros v [= <-]; eexists; vm_compute; reflexivity|]. split; plain_texts. Qed.

Lemma intermediate_plain : defaults_plain intermediate.
Proof. split; [intros v [= <-]; eexists; vm_compute; reflexivity|]. split; plain_texts. Qed.

Lemma modern_plain : defaults_plain modern.
Proof. split; [intros v [= <-]; eexists; vm_compute; reflexivity|]. split; plain_texts. Qed.

Lemma profile_plain value st :
  (forall p c, de_profile value = Some p -> pr_custom p = Some c -> custom_plain c) ->
  from_security_profile value = Ok st -> defaults_plain st.
Proof.
  intros Hc. unfold from_security_profile.
  destruct (String.eqb _ "Old"); [intros [= <-]; apply old_plain|].
  destruct (String.eqb _ "Modern"); [intros [= <-]; apply modern_plain|].
  destruct (String.eqb _ "Custom"); [|intros [= <-]; apply intermediate_plain].
  destruct (de_profile value) as [p|] eqn:Hp; [|done]. simpl.
  destruct (pr_custom p) as [c|] eqn:Hcp; [|done]. intros [= <-].
  destruct (Hc p c eq_refl Hcp) as (Hv & Hci & Hg). split; [|done]. simpl. intros v.
  destruct (cp_min_tls_version c) as [w|]; [|done]. simpl.
  destruct (str_is_empty w) eqn:He; [done|]. intros [= <-]. by destruct (Hv w eq_refl) as [->|?].
Qed.

(** What the cluster's object says is what a server runs with when its resource leaves
    its TLS settings to the platform: the settings are fetched, rendered into the
    environment of the container and read back by the server without a change. *)
Lemma cluster_profile_reaches_server secrets ns spec pinned answer st secret :
  fetch pinned answer = Ok st ->
  (forall data p c, answer = Ok (Some data) ->
     de_profile (index (index data "spec") "tlsSecurityProfile") = Some p -> pr_custom p = Some c ->
     custom_plain c) ->
  Crd.admitted spec = true -> Crd.spec_typed spec -> texts_plain spec ->
  Crd.sp_tls spec = Some (Crd.MkTls secret None [] []) ->
  ∃ args, Conf.args_from_env
            (environment secrets ns
               (Render.render_env spec ((fun config => Crd.resolve config st) <$> Crd.sp_tls spec))) = Ok args ∧
    Conf.sc_tls (Conf.apply_args args Conf.ServerConfig_default) =
    Conf.MkTlsConfig (Some (components "/etc/modelexpress/tls/tls.crt"))
      (Some (components "/etc/modelexpress/tls/tls.key"))
      (Crd.ts_min_version st ≫= version_of) (Crd.ts_ciphers st) (Crd.ts_groups st).
Proof.
  intros Hf Hcustom Hadm Htyped Htexts Htls.
  assert (defaults_plain st) as Hplain.
  { unfold fetch in Hf. assert (read answer = Ok st -> defaults_plain st) as Hread.
    { unfold read. destruct answer as [[data|]|e]; [|intros [= <-]; apply intermediate_plain|done].
      unfold from_apiserver_spec. destruct (negb _); [intros [= <-]; apply intermediate_plain|].
      destruct (from_security_profile _) as [st'|] eqn:Hp; [|done]. intros [= <-].
      eapply profile_plain; [|exact Hp]. intros p c. by apply Hcustom. }
    destruct (served pinned); [by apply Hread| |by apply Hread].
    injection Hf as <-. apply intermediate_plain. }
  eexists. split; [by apply args_reach|].
  change (Conf.apply_tls (expected_tls spec st) Conf.TlsConfig_default =
          tls_of (Some (Crd.MkTls secret None [] [])) st). by rewrite applied_tls, Htls.
Qed.

(** A value of [tlsAdherence] that this operator does not know makes it follow the
    cluster, so a Custom profile without a body is then an error and not a default. *)
Example unknown_adherence_fails_closed :
  from_apiserver_spec (JObj [("tlsAdherence", JStr "Newer");
                             ("tlsSecurityProfile", JObj [("type", JStr "Custom")])]) = Err CustomMissing.
Proof. reflexivity. Qed.
