(* ===== verification/CollectiveScripts.v ===== *)
(** * The collective-group scripts (refit_collective/backend/redis.rs and its Lua files)

    The key layout of collective groups and the Lua scripts that change them:
    one atomic function on the Redis server per script, the helpers of common.lua
    included.  A script takes its KEYS and ARGV and returns its reply string.
    What a script wrote before an early return stays written.  The second half
    has the effect of each building block on the views of the server. *)

From Stdlib Require Import ZArith Lia Ascii String.
From stdpp Require Import base tactics option list gmap fin_maps fin_map_dom fin_sets strings.
From S2P Require Import Prelude RustStr RedisStore RedisServer.

(** ** Keys *)

Definition group_key (group_id : string) : string := "mx:refitc:group:" +:+ group_id.
Definition participants_key (group_id : string) : string :=
  "mx:refitc:group:" +:+ group_id +:+ ":participants".
Definition digests_key (group_id : string) : string :=
  "mx:refitc:group:" +:+ group_id +:+ ":digests".
Definition active_ops_key (group_id : string) : string :=
  "mx:refitc:group:" +:+ group_id +:+ ":ops".
Definition lane_key (group_id : string) (lane_id : Z) : string :=
  "mx:refitc:group:" +:+ group_id +:+ ":lane:" +:+ decimal lane_id.

Definition OPERATION_KEY_PREFIX : string := "mx:refitc:op:".
Definition operation_key (operation_id : string) : string :=
  OPERATION_KEY_PREFIX +:+ operation_id.
Definition reported_key (operation_id : string) : string :=
  "mx:refitc:op:" +:+ operation_id +:+ ":reported".
Definition operation_idempotency_key (model_name request_key : string) : string :=
  "mx:refitc:op-request:" +:+ decimal (Z.of_nat (String.length model_name)) +:+ ":"
  +:+ model_name +:+ request_key.
Definition worker_key (worker_id : string) : string := "mx:refit:worker:" +:+ worker_id.

(** ** common.lua *)

(** The [string.match] of exactly four fields separated by bars: worker, role,
    index, joined epoch. *)
Definition parse_participant (record : string) : option (string * string * string * string) :=
  match split "|" record with
  | [worker_id; role; index; joined_epoch] => Some (worker_id, role, index, joined_epoch)
  | _ => None
  end.

Definition ABORT_MESSAGE : string := "group epoch advanced before the transfer completed".

Definition is_active (state : option string) : bool :=
  bool_decide (state = Some "PENDING") || bool_decide (state = Some "RUNNING").

Section scripts.
Context {DB : Type} `{RedisServer DB} `{LuaNumbers} `{LuaConcat}.
Implicit Types db : DB.

(** [model_name] is the reply of an [HGET], so it may be absent. *)
Definition registration_matches (worker_id role : string) (model_name : option string)
    (key : string) db : bool :=
  redis_exists key db &&
  bool_decide (hget key "worker_id" db = Some worker_id) &&
  bool_decide (hget key "role" db = Some (if String.eqb role "TRAINER" then "1" else "2")) &&
  bool_decide (hget key "model_name" db = model_name).

Definition abort_op (ops_set_key op_key_prefix : string) db (op_id : string) : DB :=
  let op_key := op_key_prefix +:+ op_id in
  let db :=
    if is_active (hget op_key "state" db)
    then hset_all op_key [("state", "ABORTED"); ("failure_message", ABORT_MESSAGE)] db
    else db in
  srem ops_set_key op_id db.

Definition abort_stale_ops (ops_set_key op_key_prefix : string) db : DB :=
  foldl (abort_op ops_set_key op_key_prefix) db (smembers ops_set_key db).

(** The epoch stamped on a lane. *)
Definition lane_stamp (lane_key : string) db : option Z :=
  v ← hget lane_key "bootstrap_epoch" db; lua_tonumber v.

Definition any_lane_bootstrapped (lane_keys : list string) (epoch : Z) db : bool :=
  existsb (fun k => bool_decide (lane_stamp k db = Some epoch)) lane_keys.

Definition needs_epoch_bump (group_key : string) (lane_keys : list string) (epoch : Z) db : bool :=
  bool_decide (hget group_key "state" db = Some "READY") ||
  any_lane_bootstrapped lane_keys epoch db.

(** [model_name = None] skips the registration check. *)
Definition participant_ready (epoch : Z) (model_name : option (option string)) db
    (record : string) : bool :=
  match parse_participant record with
  | None => false
  | Some (worker_id, role, _, joined_epoch) =>
      bool_decide (lua_tonumber joined_epoch = Some epoch) &&
      match model_name with
      | None => true
      | Some m => registration_matches worker_id role m (worker_key worker_id) db
      end
  end.

Definition evaluate_readiness (group_key participants_key digests_key : string)
    (lane_keys : list string) (expected : option Z) (epoch : Z)
    (model_name : option (option string)) db : bool :=
  match expected with
  | None => false
  | Some expected =>
      (Z.of_nat (hlen participants_key db) =? expected)%Z &&
      forallb (participant_ready epoch model_name db) (hvals participants_key db) &&
      forallb (fun k => bool_decide (lane_stamp k db = Some epoch)) lane_keys &&
      (Z.of_nat (length (hvals digests_key db)) =? expected)%Z &&
      forallb (fun d => bool_decide (Some d = hget group_key "plan_digest" db))
        (hvals digests_key db)
  end.

(** ** Blocks that several scripts repeat *)

Definition no_plan_source : list (string * string) :=
  [("plan_source_worker_id", ""); ("plan_source_endpoint", ""); ("plan_source_digest", "")].

(** The sweep of lapsed registrations in join_collective_group.lua and
    refresh_collective_group.lua, one record of the [HGETALL]. *)
Definition sweep_record (group_key participants_key digests_key : string)
    (model_name : option string) (requires_bump : bool) (acc : DB * bool)
    (entry : string * string) : DB * bool :=
  let '(db, changed) := acc in
  let '(slot_id, record) := entry in
  let p := parse_participant record in
  let live :=
    match p with
    | Some (worker_id, role, _, _) =>
        registration_matches worker_id role model_name (worker_key worker_id) db
    | None => false
    end in
  if live then (db, changed)
  else
    let db := hdel digests_key slot_id (hdel participants_key slot_id db) in
    let db :=
      match p with
      | Some (worker_id, _, _, _) =>
          if bool_decide (hget group_key "plan_source_worker_id" db = Some worker_id)
          then hset_all group_key no_plan_source db else db
      | None => db
      end in
    (db, changed || requires_bump).

Definition sweep (group_key participants_key digests_key : string)
    (model_name : option string) (requires_bump : bool) db : DB * bool :=
  foldl (sweep_record group_key participants_key digests_key model_name requires_bump)
    (db, false) (hgetall participants_key db).

Definition state_text (ready : bool) : string := if ready then "READY" else "FORMING".

(** [redis.call('HSET', group, 'state', state)] and the reply. *)
Definition put_state (group_key : string) (epoch : Z) (ready : bool) db : DB * string :=
  (hset group_key "state" (state_text ready) db,
   "OK:" +:+ lua_concat epoch +:+ ":" +:+ state_text ready).

(** ** join_collective_group.lua *)

Record join_keys : Type := MkJoinKeys {
  jk_group : string;
  jk_participants : string;
  jk_digests : string;
  jk_registration : string;
  jk_ops : string;
  jk_lanes : list string
}.

Record join_args : Type := MkJoinArgs {
  ja_group_id : string;
  ja_model_name : string;
  ja_lanes : string;
  ja_expected_total : string;
  ja_slot_id : string;
  ja_worker_id : string;
  ja_role : string;
  ja_index : string;
  ja_plan_digest : string;
  ja_source_worker_id : string;
  ja_source_endpoint : string;
  ja_source_digest : string;
  ja_trainer_slots : string;
  ja_generator_slots : string;
  ja_created_at : string;
  ja_op_prefix : string
}.

Definition newline : ascii := "010".

(** The [string.gmatch] over the lines of the list. *)
Definition contains_slot (slots target : string) : bool :=
  bool_decide (target ∈ split newline slots).

(** The branch for a group without an epoch. *)
Definition join_create (K : join_keys) (A : join_args) db : DB :=
  let db := redis_del (jk_digests K) (redis_del (jk_participants K) db) in
  let db := del_all (jk_lanes K) db in
  let db := abort_stale_ops (jk_ops K) (ja_op_prefix A) db in
  hset_all (jk_group K)
    [("group_id", ja_group_id A); ("model_name", ja_model_name A); ("lanes", ja_lanes A);
     ("expected_total", ja_expected_total A);
     ("expected_trainer_slots", ja_trainer_slots A);
     ("expected_generator_slots", ja_generator_slots A);
     ("plan_digest", ja_plan_digest A); ("epoch", lua_arg 1); ("state", "FORMING");
     ("plan_source_worker_id", ""); ("plan_source_endpoint", ""); ("plan_source_digest", "");
     ("created_at_unix_ms", ja_created_at A)] db.

(** The slot's own record: an error, or whether the worker is replaced. *)
Definition join_slot (A : join_args) (existing : option string) : result (option string) string :=
  match existing with
  | None => Ok None
  | Some record =>
      match parse_participant record with
      | None => Err "CORRUPT_PARTICIPANT"
      | Some (worker_id, role, index, _) =>
          if negb (String.eqb role (ja_role A)) || negb (String.eqb index (ja_index A))
          then Err "CONFLICTING_ASSIGNMENT"
          else if String.eqb worker_id (ja_worker_id A) then Ok None
          else Ok (Some worker_id)
      end
  end.

(** The records of the other slots. *)
Fixpoint join_others (A : join_args) (records : list (string * string)) : option string :=
  match records with
  | [] => None
  | (slot_id, record) :: records' =>
      if String.eqb slot_id (ja_slot_id A) then join_others A records'
      else
        match parse_participant record with
        | None => Some "CORRUPT_PARTICIPANT"
        | Some (worker_id, role, index, _) =>
            if String.eqb role (ja_role A) && String.eqb index (ja_index A)
            then Some "DUPLICATE_RANK"
            else if String.eqb worker_id (ja_worker_id A) then Some "DUPLICATE_WORKER"
            else join_others A records'
        end
  end.

(** The branch for a group with an epoch: the state after it, with [changed] or
    the reply of an early return. *)
Definition join_existing (K : join_keys) (A : join_args) (epoch : Z) db
    : DB * result bool string :=
  let requires_bump := needs_epoch_bump (jk_group K) (jk_lanes K) epoch db in
  let '(db, changed) := sweep (jk_group K) (jk_participants K) (jk_digests K)
                          (Some (ja_model_name A)) requires_bump db in
  match join_slot A (hget (jk_participants K) (ja_slot_id A) db) with
  | Err e => (db, Err e)
  | Ok replaced =>
      let '(db, changed) :=
        match replaced with
        | None => (db, changed)
        | Some worker_id =>
            (if bool_decide (hget (jk_group K) "plan_source_worker_id" db = Some worker_id)
             then hset_all (jk_group K) no_plan_source db else db,
             changed || requires_bump)
        end in
      match join_others A (hgetall (jk_participants K) db) with
      | Some e => (db, Err e)
      | None =>
          (db, Ok (changed ||
                   bool_decide (hget (jk_group K) "plan_digest" db ≠ Some (ja_plan_digest A))))
      end
  end.

(** The epoch bump of a join. *)
Definition join_bump (K : join_keys) (A : join_args) (epoch : Z) db : DB :=
  let db := hset_all (jk_group K)
    ([("epoch", lua_arg epoch); ("plan_digest", ja_plan_digest A); ("state", "FORMING")]
       ++ no_plan_source) db in
  abort_stale_ops (jk_ops K) (ja_op_prefix A) (del_all (jk_lanes K) db).

(** The admission itself and the readiness of the result. *)
Definition join_admit (K : join_keys) (A : join_args) (epoch : Z) db : DB * string :=
  let db := hset (jk_participants K) (ja_slot_id A)
    (ja_worker_id A +:+ "|" +:+ ja_role A +:+ "|" +:+ ja_index A +:+ "|" +:+ lua_concat epoch) db in
  let db := hset (jk_digests K) (ja_slot_id A) (ja_plan_digest A) db in
  let db :=
    if String.eqb (ja_source_worker_id A) "" then db
    else hset_all (jk_group K)
           [("plan_source_worker_id", ja_source_worker_id A);
            ("plan_source_endpoint", ja_source_endpoint A);
            ("plan_source_digest", ja_source_digest A)] db in
  put_state (jk_group K) epoch
    (evaluate_readiness (jk_group K) (jk_participants K) (jk_digests K) (jk_lanes K)
       (lua_tonumber (ja_expected_total A)) epoch (Some (Some (ja_model_name A))) db) db.

Definition JOIN_GROUP_LUA (K : join_keys) (A : join_args) db : DB * string :=
  let expected_slots :=
    if String.eqb (ja_role A) "TRAINER" then ja_trainer_slots A else ja_generator_slots A in
  if negb (contains_slot expected_slots (ja_slot_id A)) then (db, "UNEXPECTED_SLOT")
  else if negb (registration_matches (ja_worker_id A) (ja_role A) (Some (ja_model_name A))
                  (jk_registration K) db)
  then (db, "UNREGISTERED")
  else if negb (String.eqb (ja_source_worker_id A) "") &&
          (negb (String.eqb (ja_role A) "TRAINER") || negb (String.eqb (ja_index A) "0") ||
           negb (String.eqb (ja_source_worker_id A) (ja_worker_id A)))
  then (db, "INVALID_PLAN_SOURCE")
  else
    match v ← hget (jk_group K) "epoch" db; lua_tonumber v with
    | None => join_admit K A 1 (join_create K A db)
    | Some epoch =>
        match join_existing K A epoch db with
        | (db, Err e) => (db, e)
        | (db, Ok false) => join_admit K A epoch db
        | (db, Ok true) => join_admit K A (epoch + 1) (join_bump K A (epoch + 1) db)
        end
    end.

(** ** publish_group_bootstrap.lua *)

Definition PUBLISH_BOOTSTRAP_LUA (group participants digests lane : string)
    (lane_keys : list string) (epoch_arg worker_id nccl_unique_id leader_slot : string) db
    : DB * string :=
  match v ← hget group "epoch" db; lua_tonumber v with
  | None => (db, "NOTFOUND")
  | Some epoch =>
      if negb (bool_decide (lua_tonumber epoch_arg = Some epoch))
      then (db, "STALE:" +:+ lua_concat epoch)
      else
        let model_name := hget group "model_name" db in
        let is_leader :=
          match r ← hget participants leader_slot db; parse_participant r with
          | None => false
          | Some (leader_worker, leader_role, _, joined_epoch) =>
              String.eqb leader_worker worker_id &&
              bool_decide (lua_tonumber joined_epoch = Some epoch) &&
              registration_matches leader_worker leader_role model_name
                (worker_key leader_worker) db
          end in
        if negb is_leader then (db, "NOTLEADER")
        else
          let stamped := bool_decide (lane_stamp lane db = Some epoch) in
          if stamped &&
             negb (bool_decide (hget lane "published_by" db = Some worker_id) &&
                   bool_decide (hget lane "nccl_unique_id" db = Some nccl_unique_id))
          then (db, "CONFLICT")
          else
            let db :=
              if stamped then db
              else hset_all lane [("nccl_unique_id", nccl_unique_id);
                                  ("bootstrap_epoch", lua_arg epoch);
                                  ("published_by", worker_id)] db in
            put_state group epoch
              (evaluate_readiness group participants digests lane_keys
                 (v ← hget group "expected_total" db; lua_tonumber v) epoch
                 (Some model_name) db) db
  end.

(** ** refresh_collective_group.lua *)

(** The epoch bump of a refresh; the plan digest stays. *)
Definition refresh_bump (group ops : string) (lane_keys : list string) (op_prefix : string)
    (epoch : Z) db : DB :=
  let db := hset_all group
    ([("epoch", lua_arg epoch); ("state", "FORMING")] ++ no_plan_source) db in
  abort_stale_ops ops op_prefix (del_all lane_keys db).

Definition REFRESH_GROUP_LUA (group participants digests ops : string)
    (lane_keys : list string) (op_prefix : string) db : DB * string :=
  match v ← hget group "epoch" db; lua_tonumber v with
  | None => (db, "NOTFOUND")
  | Some epoch =>
      let model_name := hget group "model_name" db in
      let requires_bump := needs_epoch_bump group lane_keys epoch db in
      let '(db, changed) := sweep group participants digests model_name requires_bump db in
      let '(db, epoch) :=
        if changed then (refresh_bump group ops lane_keys op_prefix (epoch + 1) db, (epoch + 1)%Z)
        else (db, epoch) in
      put_state group epoch
        (evaluate_readiness group participants digests lane_keys
           (v ← hget group "expected_total" db; lua_tonumber v) epoch None db) db
  end.

(** ** create_collective_transfer.lua *)

Record create_args : Type := MkCreateArgs {
  ca_operation_id : string;
  ca_group_id : string;
  ca_version_id : string;
  ca_model_name : string;
  ca_idempotency_key : string;
  ca_state : string;
  ca_created_at : string;
  ca_op_prefix : string;
  ca_ttl_secs : string;
  ca_expected_epoch : string
}.

(** The first active operation of this epoch. *)
Definition busy_op (op_prefix : string) (epoch : string) (active : list string) db : option string :=
  find_map (fun op_id =>
    let key := op_prefix +:+ op_id in
    if is_active (hget key "state" db) &&
       bool_decide ((v ← hget key "epoch" db; lua_tonumber v) = lua_tonumber epoch)
    then Some op_id else None) active.

(** The part after the reservation check. *)
Definition create_open (op_key request_key group ops : string) (A : create_args) db
    : DB * string :=
  if redis_exists op_key db then (db, "COLLISION")
  else
    match hget group "epoch" db with
    | None => (db, "NOGROUP")
    | Some epoch =>
        let group_state := default "" (hget group "state" db) in
        if negb (String.eqb group_state "READY") ||
           negb (bool_decide (lua_tonumber epoch = lua_tonumber (ca_expected_epoch A)))
        then (db, "NOTREADY:" +:+ epoch +:+ ":" +:+ group_state)
        else
          match busy_op (ca_op_prefix A) epoch (smembers ops db) db with
          | Some op_id => (db, "BUSY:" +:+ op_id)
          | None =>
              let db := hset_all op_key
                [("operation_id", ca_operation_id A); ("group_id", ca_group_id A);
                 ("epoch", epoch); ("version_id", ca_version_id A);
                 ("model_name", ca_model_name A);
                 ("idempotency_key", ca_idempotency_key A); ("state", ca_state A);
                 ("failure_message", ""); ("created_at_unix_ms", ca_created_at A)] db in
              let db := str_set request_key (ca_operation_id A) db in
              (sadd ops (ca_operation_id A) db, "CREATED")
          end
    end.

Definition CREATE_TRANSFER_LUA (op_key request_key group ops : string) (A : create_args) db
    : DB * string :=
  match str_get request_key db with
  | Some existing =>
      if redis_exists (ca_op_prefix A +:+ existing) db
      then (db, "EXISTING:" +:+ existing)
      else create_open op_key request_key group ops A (redis_del request_key db)
  | None => create_open op_key request_key group ops A db
  end.

(** ** report_collective_transfer.lua *)

Definition is_terminal (state : string) : bool :=
  String.eqb state "COMPLETE" || String.eqb state "FAILED" || String.eqb state "ABORTED".

(** The scan of the participants: [None] answers NOTREADY, otherwise whether the
    reporter is admitted. *)
Fixpoint report_scan (epoch : option Z) (worker_id : string) (admitted : bool)
    (participants : list string) db : option bool :=
  match participants with
  | [] => Some admitted
  | record :: participants' =>
      match parse_participant record with
      | None => None
      | Some (w, _, _, joined_epoch) =>
          if negb (bool_decide (lua_tonumber joined_epoch = epoch)) ||
             negb (redis_exists (worker_key w) db)
          then None
          else report_scan epoch worker_id (admitted || String.eqb w worker_id) participants' db
      end
  end.

Definition REPORT_TRANSFER_LUA (op_key reported group participants ops : string)
    (lane_keys : list string)
    (operation_id group_id epoch_arg worker_id succeeded message : string) db : DB * string :=
  match hget op_key "state" db with
  | None => (db, "NOTFOUND")
  | Some state =>
      if negb (bool_decide (hget op_key "group_id" db = Some group_id)) then (db, "WRONGGROUP")
      else if negb (match hget op_key "epoch" db with
                    | Some e => bool_decide (lua_tonumber e = lua_tonumber epoch_arg)
                    | None => false end)
      then (db, "OPSTALE:" +:+ default "0" (hget op_key "epoch" db))
      else if is_terminal state then (db, "OK:" +:+ state)
      else if negb (match hget group "epoch" db with
                    | Some e => bool_decide (lua_tonumber e = lua_tonumber epoch_arg)
                    | None => false end)
      then (db, "STALE:" +:+ default "0" (hget group "epoch" db))
      else if negb (bool_decide (hget group "state" db = Some "READY")) then (db, "NOTREADY")
      else
        match report_scan (lua_tonumber epoch_arg) worker_id false (hvals participants db) db with
        | None => (db, "NOTREADY")
        | Some false => (db, "NOTADMITTED")
        | Some true =>
            let current_epoch := v ← hget group "epoch" db; lua_tonumber v in
            let db := sadd reported worker_id db in
            if String.eqb succeeded "0" then
              let db := hset_all op_key [("state", "FAILED"); ("failure_message", message)] db in
              let db := srem ops operation_id db in
              let next_epoch := (default 0 current_epoch + 1)%Z in
              let db := hset_all group
                ([("epoch", lua_arg next_epoch); ("state", "FORMING")] ++ no_plan_source) db in
              (del_all lane_keys db, "OK:FAILED")
            else if bool_decide ((v ← hget group "expected_total" db; lua_tonumber v) =
                                 Some (Z.of_nat (scard reported db)))
            then (srem ops operation_id (hset op_key "state" "COMPLETE" db), "OK:COMPLETE")
            else (hset op_key "state" "RUNNING" db, "OK:RUNNING")
        end
  end.

(** ** delete_collective_transfer.lua *)

Definition DELETE_TRANSFER_LUA (op_key reported request_key ops operation_id : string) db
    : DB * string :=
  match hget op_key "state" db with
  | None => (db, "NOTFOUND")
  | Some state =>
      if negb (is_terminal state) then (db, "NOTTERMINAL")
      else
        let db := redis_del reported (redis_del op_key db) in
        let db := if bool_decide (str_get request_key db = Some operation_id)
                  then redis_del request_key db else db in
        (srem ops operation_id db, "DELETED")
  end.
End scripts.
