(* ===== verification/CollectiveEffects.v ===== *)
(** * What the collective-group scripts change

    Keys of different groups and kinds are different; footprints of commands
    ([changes_only]) compose; the effect of the blocks that the scripts share
    (aborting operations, sweeping lapsed participants, testing readiness) on the
    views of the server. *)

From Stdlib Require Import ZArith Lia Ascii String.
From stdpp Require Import base tactics option list gmap fin_maps fin_map_dom fin_sets strings pretty.
From S2P Require Import Prelude RustStr RedisStore RedisServer CollectiveScripts.

(** ** Keys *)

(** Identifiers of groups and operations are hexadecimal, so they have no colon. *)
Definition plain_id (id : string) : Prop := contains_char ":" id = false.

(** The parts of a group key. *)
Definition key_parts (key : string) : option (list string) :=
  split ":" <$> strip_prefix "mx:refitc:group:" key.

Section key_parts.
Context (G : string) (HG : plain_id G).

Lemma parts_group : key_parts (group_key G) = Some [G].
Proof. unfold key_parts, group_key. rewrite strip_prefix_app. simpl. by rewrite split_no_sep. Qed.

Lemma parts_suffix s : contains_char ":" s = false ->
  key_parts ("mx:refitc:group:" +:+ G +:+ String ":" s) = Some [G; s].
Proof.
  intros Hs. unfold key_parts. rewrite strip_prefix_app. simpl.
  by rewrite split_app_sep, split_no_sep.
Qed.

Lemma parts_participants : key_parts (participants_key G) = Some [G; "participants"].
Proof. by apply parts_suffix. Qed.
Lemma parts_digests : key_parts (digests_key G) = Some [G; "digests"].
Proof. by apply parts_suffix. Qed.
Lemma parts_active_ops : key_parts (active_ops_key G) = Some [G; "ops"].
Proof. by apply parts_suffix. Qed.
Lemma parts_lane i : key_parts (lane_key G i) = Some [G; "lane"; decimal i].
Proof.
  unfold key_parts, lane_key. rewrite strip_prefix_app. cbn [fmap option_fmap option_map].
  change (G +:+ ":lane:" +:+ decimal i) with (G +:+ String ":" ("lane:" +:+ decimal i)).
  rewrite split_app_sep by done. f_equal. f_equal.
  change (split ":" ("lane" +:+ String ":" (decimal i)) = ["lane"; decimal i]).
  by rewrite split_app_sep, split_no_sep by (done || by apply decimal_no).
Qed.
End key_parts.

Lemma parts_operation o : key_parts (operation_key o) = None.
Proof. done. Qed.
Lemma parts_reported o : key_parts (reported_key o) = None.
Proof. done. Qed.
Lemma parts_worker w : key_parts (worker_key w) = None.
Proof. done. Qed.
Lemma parts_request m k : key_parts (operation_idempotency_key m k) = None.
Proof. done. Qed.

(** Distinct keys: compare their parts. *)
Ltac key_ne :=
  let Heq := fresh "Heq" in
  intros Heq; apply (f_equal key_parts) in Heq;
  rewrite ?parts_operation, ?parts_reported, ?parts_worker, ?parts_request in Heq;
  rewrite ?parts_group, ?parts_participants, ?parts_digests, ?parts_active_ops, ?parts_lane
    in Heq by assumption;
  congruence.

Lemma lane_key_inj G i j : (0 <= i)%Z -> (0 <= j)%Z -> lane_key G i = lane_key G j -> i = j.
Proof.
  unfold lane_key. intros Hi Hj Heq. apply decimal_inj; [done..|].
  apply (inj (String.append "mx:refitc:group:")), (inj (String.append G)),
    (inj (String.append ":lane:")) in Heq. done.
Qed.

Lemma operation_key_inj o o' : operation_key o = operation_key o' -> o = o'.
Proof. apply (inj (String.append OPERATION_KEY_PREFIX)). Qed.

Lemma reported_key_inj o o' : plain_id o -> plain_id o' -> reported_key o = reported_key o' -> o = o'.
Proof.
  intros Ho Ho' Heq. apply (inj (String.append "mx:refitc:op:")) in Heq.
  assert (split_once ":" (o +:+ ":reported") = split_once ":" (o' +:+ ":reported")) as Hs
    by by rewrite Heq.
  change ":reported" with (String ":" "reported") in Hs.
  rewrite !split_once_app in Hs by done. congruence.
Qed.

Lemma reported_operation_ne o o' : plain_id o' -> operation_key o' ≠ reported_key o.
Proof.
  intros Ho' Heq. apply (inj (String.append "mx:refitc:op:")) in Heq. subst.
  unfold plain_id in Ho'. rewrite contains_char_app in Ho'. apply orb_false_iff in Ho' as [_ ?]. done.
Qed.

(** ** Footprints *)

Section footprint.
Context {DB : Type} `{RedisServer DB, !RedisStoreLaws DB, !RedisServerLaws DB}.
Implicit Types db : DB.

(** Hashes outside [HP] and sets outside [SP] are the same. *)
Definition changes_only (HP SP : string -> Prop) db db' : Prop :=
  (forall k f, ~ HP k -> hget k f db' = hget k f db) ∧
  (forall k, ~ SP k -> set_at k db' = set_at k db).

Context (HP SP : string -> Prop).

Lemma changes_refl db : changes_only HP SP db db.
Proof. done. Qed.

Lemma changes_trans db1 db2 db3 :
  changes_only HP SP db1 db2 -> changes_only HP SP db2 db3 -> changes_only HP SP db1 db3.
Proof.
  intros [H1 S1] [H2 S2]. split; intros.
  - rewrite H2, H1 by done. done.
  - rewrite S2, S1 by done. done.
Qed.

Lemma changes_hset k f v db db' :
  HP k -> changes_only HP SP db db' -> changes_only HP SP db (hset k f v db').
Proof.
  intros Hk Hc. eapply changes_trans; [exact Hc|]. split; intros k'; intros.
  - rewrite hget_hset, decide_False; [done|]. intros [-> ->]. done.
  - apply set_at_hset.
Qed.

Lemma changes_hset_all k fvs db db' :
  HP k -> changes_only HP SP db db' -> changes_only HP SP db (hset_all k fvs db').
Proof.
  intros Hk Hc. eapply changes_trans; [exact Hc|]. split; intros k'; intros.
  - apply hget_hset_all_ne. by intros ->.
  - apply set_at_hset_all.
Qed.

Lemma changes_hdel k f db db' :
  HP k -> changes_only HP SP db db' -> changes_only HP SP db (hdel k f db').
Proof.
  intros Hk Hc. eapply changes_trans; [exact Hc|]. split; intros k'; intros.
  - rewrite hget_hdel, decide_False; [done|]. intros [-> ->]. done.
  - apply set_at_hdel.
Qed.

Lemma changes_del k db db' :
  HP k -> SP k -> changes_only HP SP db db' -> changes_only HP SP db (redis_del k db').
Proof.
  intros Hk Sk Hc. eapply changes_trans; [exact Hc|]. split; intros k'; intros.
  - rewrite hget_del, decide_False; [done|]. by intros ->.
  - rewrite set_at_del, decide_False; [done|]. by intros ->.
Qed.

Lemma changes_del_all ks db db' :
  (forall k, k ∈ ks -> HP k ∧ SP k) ->
  changes_only HP SP db db' -> changes_only HP SP db (del_all ks db').
Proof.
  intros Hks. unfold del_all. revert db'.
  induction ks as [|k ks IH]; intros db' Hc; cbn [foldl]; [done|].
  apply IH; [set_solver|]. apply changes_del; [apply Hks; set_solver..|done].
Qed.

Lemma changes_sadd k m db db' :
  SP k -> changes_only HP SP db db' -> changes_only HP SP db (sadd k m db').
Proof.
  intros Sk Hc. eapply changes_trans; [exact Hc|]. split; intros k'; intros.
  - apply hget_sadd.
  - rewrite set_at_sadd, decide_False; [done|]. by intros ->.
Qed.

Lemma changes_srem k m db db' :
  SP k -> changes_only HP SP db db' -> changes_only HP SP db (srem k m db').
Proof.
  intros Sk Hc. eapply changes_trans; [exact Hc|]. split; intros k'; intros.
  - apply hget_srem.
  - rewrite set_at_srem, decide_False; [done|]. by intros ->.
Qed.

Lemma changes_str_set k v db db' :
  changes_only HP SP db db' -> changes_only HP SP db (str_set k v db').
Proof.
  intros Hc. eapply changes_trans; [exact Hc|]. split; intros.
  - apply hget_str_set.
  - apply set_at_str_set.
Qed.
End footprint.

#[export] Hint Resolve changes_refl changes_hset changes_hset_all changes_hdel changes_sadd
  changes_srem changes_str_set : mx.

(** ** Effects of the shared blocks *)

Section effects.
Context {DB : Type} `{RedisServer DB, !RedisStoreLaws DB, !RedisServerLaws DB}.
Context `{LuaNumbers} `{LuaConcat}.
Implicit Types db : DB.

(** *** Aborting operations *)

Definition abort_fields : list string := ["state"; "failure_message"].

(** The state that [abort_op] leaves. *)
Definition aborted (state : option string) : option string :=
  if is_active state then Some "ABORTED" else state.

Lemma aborted_idem s : aborted (aborted s) = aborted s.
Proof. unfold aborted. destruct (is_active s) eqn:E; [done|]. by rewrite E. Qed.

Lemma aborted_inactive s : is_active (aborted s) = false.
Proof. unfold aborted. by destruct (is_active s) eqn:E. Qed.

Lemma hget_abort_op ops db o k f :
  hget k f (abort_op ops OPERATION_KEY_PREFIX db o) =
  if decide (k = operation_key o ∧ f ∈ abort_fields ∧ is_active (hget k "state" db) = true)
  then Some (if decide (f = "state") then "ABORTED" else ABORT_MESSAGE)
  else hget k f db.
Proof.
  unfold abort_op. rewrite hget_srem. fold (operation_key o).
  destruct (is_active (hget (operation_key o) "state" db)) eqn:Ea.
  - rewrite hget_hset_all_if. destruct (decide (k = operation_key o)) as [->|Hk].
    + unfold assoc_last, abort_fields. simpl.
      destruct (String.eqb_spec f "failure_message") as [->|Hf1]; simpl.
      { rewrite decide_True; [done|]. split_and!; [done|set_solver|done]. }
      destruct (String.eqb_spec f "state") as [->|Hf2]; simpl.
      { rewrite decide_True; [done|]. split_and!; [done|set_solver|done]. }
      rewrite decide_False; [done|]. intros (_ & Hf & _). set_solver.
    + by rewrite decide_False by naive_solver.
  - rewrite decide_False; [done|]. intros (-> & _ & Ht). congruence.
Qed.

Lemma abort_ops_fold ops l : forall db,
  let db' := foldl (abort_op ops OPERATION_KEY_PREFIX) db l in
  (forall k f, (forall o, o ∈ l -> k ≠ operation_key o) -> hget k f db' = hget k f db) ∧
  (forall k f, f ∉ abort_fields -> hget k f db' = hget k f db) ∧
  (forall o, hget (operation_key o) "state" db' =
     if decide (o ∈ l) then aborted (hget (operation_key o) "state" db)
     else hget (operation_key o) "state" db) ∧
  (forall k, set_at k db' =
     if decide (k = ops) then set_at k db ∖ list_to_set l else set_at k db).
Proof.
  induction l as [|o l IH]; intros db; cbn [foldl].
  { split_and!; [done..| |]; intros k; case_decide; set_solver. }
  destruct (IH (abort_op ops OPERATION_KEY_PREFIX db o)) as (I1 & I2 & I3 & I4).
  split_and!.
  - intros k f Hk. rewrite I1 by set_solver. rewrite hget_abort_op, decide_False; [done|].
    intros (-> & _). apply (Hk o); set_solver.
  - intros k f Hf. rewrite I2 by done. rewrite hget_abort_op, decide_False; naive_solver.
  - intros o'. rewrite I3, hget_abort_op.
    destruct (decide (o' = o)) as [->|Hne].
    + rewrite (decide_True (P := o ∈ o :: l)) by set_solver.
      assert (hget (operation_key o) "state" (abort_op ops OPERATION_KEY_PREFIX db o) =
              aborted (hget (operation_key o) "state" db)) as Hs.
      { rewrite hget_abort_op. unfold aborted.
        destruct (is_active (hget (operation_key o) "state" db)) eqn:Ea.
        - rewrite decide_True by (split_and!; [done|set_solver|done]). done.
        - by rewrite decide_False by naive_solver. }
      rewrite <- hget_abort_op with (ops := ops), Hs. case_decide; [apply aborted_idem|done].
    + assert (operation_key o' ≠ operation_key o) as Hkne by (intros ?%operation_key_inj; done).
      rewrite (decide_False (P := _ ∧ _)) by naive_solver.
      repeat case_decide; try done; set_solver.
  - intros k. rewrite I4. unfold abort_op. rewrite !set_at_srem.
    case_decide; [subst|].
    + rewrite list_to_set_cons. case_match; rewrite ?set_at_hset_all; set_solver.
    + case_match; by rewrite ?set_at_hset_all.
Qed.

Lemma abort_stale_ops_effect ops db :
  let db' := abort_stale_ops ops OPERATION_KEY_PREFIX db in
  (forall k f, (forall o, o ∈ set_at ops db -> k ≠ operation_key o) ->
     hget k f db' = hget k f db) ∧
  (forall k f, f ∉ abort_fields -> hget k f db' = hget k f db) ∧
  (forall o, hget (operation_key o) "state" db' =
     if decide (o ∈ set_at ops db) then aborted (hget (operation_key o) "state" db)
     else hget (operation_key o) "state" db) ∧
  (forall k, set_at k db' = if decide (k = ops) then ∅ else set_at k db).
Proof.
  intros db'. subst db'. unfold abort_stale_ops.
  destruct (abort_ops_fold ops (smembers ops db) db) as (I1 & I2 & I3 & I4). split_and!.
  - intros k f Hk. apply I1. intros o Ho%elem_of_smembers. by apply Hk.
  - done.
  - intros o. rewrite I3. pose proof (elem_of_smembers ops o db) as Hm.
    repeat case_decide; naive_solver.
  - intros k. rewrite I4. case_decide; [subst|done].
    fold (set_at ops db). set_solver.
Qed.

(** *** Sweeping lapsed participants *)

Definition plan_source_fields : list string :=
  ["plan_source_worker_id"; "plan_source_endpoint"; "plan_source_digest"].

Lemma hget_no_plan_source k k' f db :
  f ∉ plan_source_fields -> hget k' f (hset_all k no_plan_source db) = hget k' f db.
Proof.
  intros Hf. rewrite hget_hset_all_if. case_decide; [|done].
  unfold assoc_last, no_plan_source, plan_source_fields in *. simpl.
  rewrite !not_elem_of_cons in Hf. destruct Hf as (Hf1 & Hf2 & Hf3 & _).
  apply String.eqb_neq in Hf1, Hf2, Hf3. by rewrite Hf1, Hf2, Hf3.
Qed.

Definition record_live (model_name : option string) db (record : string) : bool :=
  match parse_participant record with
  | Some (worker_id, role, _, _) =>
      registration_matches worker_id role model_name (worker_key worker_id) db
  | None => false
  end.

Lemma registration_matches_ext w role m k db db' :
  (forall f, hget k f db' = hget k f db) ->
  registration_matches w role m k db' = registration_matches w role m k db.
Proof.
  intros Heq. unfold registration_matches. rewrite !Heq. do 3 f_equal.
  destruct (redis_exists k db) eqn:E.
  - apply redis_exists_true in E as (f & v & Hf). eapply hget_redis_exists. by rewrite Heq.
  - rewrite redis_exists_false in *. intros f. by rewrite Heq.
Qed.

Section sweep.
Context (g p d : string) (m : option string) (rb : bool).
Context (Hgp : g ≠ p) (Hgd : g ≠ d) (Hpd : p ≠ d).
Context (Hw : forall w, worker_key w ≠ g ∧ worker_key w ≠ p ∧ worker_key w ≠ d).

Definition sweep_keys (k : string) : Prop := k = g ∨ k = p ∨ k = d.

Lemma sweep_record_eq db ch s r :
  sweep_record g p d m rb (db, ch) (s, r) =
  if record_live m db r then (db, ch)
  else
    let db1 := hdel d s (hdel p s db) in
    ((match parse_participant r with
      | Some (w, _, _, _) =>
          if bool_decide (hget g "plan_source_worker_id" db1 = Some w)
          then hset_all g no_plan_source db1 else db1
      | None => db1 end), ch || rb).
Proof. unfold sweep_record, record_live. by destruct (parse_participant r) as [[[[]]]|]. Qed.

(** The effect of the sweep of the records [l]. *)
Record sweep_spec (l : list (string * string)) db (ch : bool) db' (ch' : bool) : Prop := {
  sw_frame : changes_only sweep_keys (fun _ => False) db db';
  sw_root : forall f, f ∉ plan_source_fields -> hget g f db' = hget g f db;
  sw_parts : forall s, hget p s db' = hget p s db ∨ hget p s db' = None;
  sw_digests : forall s, hget d s db' = hget d s db ∨ hget d s db' = None;
  sw_live : forall s r, (s, r) ∈ l -> hget p s db' = Some r -> record_live m db r = true;
  sw_either : (forall k f, hget k f db' = hget k f db) ∨
    ∃ s r, (s, r) ∈ l ∧ hget p s db' = None;
  sw_changed : ch' = true -> ch = true ∨ rb = true;
  sw_unchanged : ch' = false -> rb = true ->
    ch = false ∧ forall k f, hget k f db' = hget k f db
}.

Lemma sweep_step db ch s r :
  sweep_spec [(s, r)] db ch (sweep_record g p d m rb (db, ch) (s, r)).1
    (sweep_record g p d m rb (db, ch) (s, r)).2.
Proof.
  rewrite sweep_record_eq. destruct (record_live m db r) eqn:El.
  { split; simpl; try done; eauto.
    intros s' r' [= -> ->]%list_elem_of_singleton _. done. }
  set (db1 := hdel d s (hdel p s db)).
  assert (forall k f, f ∉ plan_source_fields ->
    hget k f (match parse_participant r with
      | Some (w, _, _, _) =>
          if bool_decide (hget g "plan_source_worker_id" db1 = Some w)
          then hset_all g no_plan_source db1 else db1
      | None => db1 end) = hget k f db1) as Hplan.
  { intros k f Hf. destruct (parse_participant r) as [[[[]]]|]; [|done].
    case_bool_decide; [by apply hget_no_plan_source|done]. }
  assert (forall k f, k ≠ g ->
    hget k f (match parse_participant r with
      | Some (w, _, _, _) =>
          if bool_decide (hget g "plan_source_worker_id" db1 = Some w)
          then hset_all g no_plan_source db1 else db1
      | None => db1 end) = hget k f db1) as Hother.
  { intros k f Hk. destruct (parse_participant r) as [[[[]]]|]; [|done].
    case_bool_decide; [by apply hget_hset_all_ne|done]. }
  assert (forall k f, hget k f db1 =
    if decide ((k = p ∨ k = d) ∧ f = s) then None else hget k f db) as Hdb1.
  { intros k f. subst db1. rewrite !hget_hdel. repeat case_decide; naive_solver. }
  split; cbn [fst snd].
  - split.
    + intros k f Hk. unfold sweep_keys in Hk.
      rewrite Hother by naive_solver. rewrite Hdb1, decide_False by naive_solver. done.
    + intros k _. destruct (parse_participant r) as [[[[]]]|]; [case_bool_decide|];
        subst db1; by rewrite ?set_at_hset_all, !set_at_hdel.
  - intros f Hf. rewrite Hplan by done. rewrite Hdb1, decide_False by naive_solver. done.
  - intros s'. rewrite Hother by done. rewrite Hdb1. case_decide; auto.
  - intros s'. rewrite Hother by done. rewrite Hdb1. case_decide; auto.
  - intros s' r' [= -> ->]%list_elem_of_singleton Hs.
    rewrite Hother in Hs by done. rewrite Hdb1, decide_True in Hs by auto. done.
  - right. exists s, r. rewrite Hother, Hdb1, decide_True by auto.
    split; [by apply list_elem_of_singleton|done].
  - intros [?|?]%orb_true_iff; auto.
  - intros [-> ->]%orb_false_iff. done.
Qed.

Lemma record_live_frame db db' r :
  changes_only sweep_keys (fun _ => False) db db' -> record_live m db' r = record_live m db r.
Proof.
  intros [Hc _]. unfold record_live. destruct (parse_participant r) as [[[[w ro] ix] je]|]; [|done].
  apply registration_matches_ext. intros f. apply Hc.
  destruct (Hw w) as (? & ? & ?). unfold sweep_keys. naive_solver.
Qed.

Lemma sweep_fold l : forall db ch,
  sweep_spec l db ch (foldl (sweep_record g p d m rb) (db, ch) l).1
    (foldl (sweep_record g p d m rb) (db, ch) l).2.
Proof.
  induction l as [|[s r] l IH]; intros db ch; cbn [foldl].
  { split; simpl; try done; eauto. set_solver. }
  pose proof (sweep_step db ch s r) as S1.
  destruct (sweep_record g p d m rb (db, ch) (s, r)) as [db1 ch1]. cbn [fst snd] in S1.
  pose proof (IH db1 ch1) as S2. destruct S1, S2.
  split.
  - eapply changes_trans; eauto.
  - intros f Hf. rewrite sw_root1, sw_root0 by done. done.
  - intros x. destruct (sw_parts1 x) as [->| ->], (sw_parts0 x); auto.
  - intros x. destruct (sw_digests1 x) as [->| ->], (sw_digests0 x); auto.
  - intros x y [[= -> ->]|Hin]%elem_of_cons Hx.
    + destruct (sw_parts1 s) as [Hs|Hs]; [|congruence].
      apply (sw_live0 s); [by apply list_elem_of_singleton|]. congruence.
    + rewrite <- (record_live_frame db db1) by done. eauto.
  - destruct sw_either1 as [Heq1|(x & y & Hin & Hx)]; [|right; set_solver].
    destruct sw_either0 as [Heq0|(x & y & Hin & Hx)].
    + left. intros k f. by rewrite Heq1, Heq0.
    + right. exists x, y. rewrite Heq1. split; [set_solver|done].
  - intros Hc. destruct (sw_changed1 Hc) as [Hc1|]; eauto.
  - intros Hc Hrb. destruct (sw_unchanged1 Hc Hrb) as [Hc1 Heq1].
    destruct (sw_unchanged0 Hc1 Hrb) as [Hc0 Heq0]. split; [done|].
    intros k f. by rewrite Heq1, Heq0.
Qed.

Lemma sweep_effect db :
  sweep_spec (hgetall p db) db false (sweep g p d m rb db).1 (sweep g p d m rb db).2.
Proof. apply sweep_fold. Qed.

(** After the sweep every remaining participant is registered. *)
Lemma sweep_all_live db s r :
  hget p s (sweep g p d m rb db).1 = Some r ->
  record_live m (sweep g p d m rb db).1 r = true.
Proof.
  intros Hr. pose proof (sweep_effect db) as S. rewrite (record_live_frame db) by apply S.
  eapply sw_live; [exact S| |exact Hr]. apply elem_of_hgetall.
  destruct (sw_parts _ _ _ _ _ S s) as [<-|]; congruence.
Qed.

(** If all participants are registered the sweep does nothing. *)
Lemma sweep_none db :
  (forall s r, hget p s db = Some r -> record_live m db r = true) ->
  sweep g p d m rb db = (db, false).
Proof.
  intros Hall. unfold sweep.
  assert (forall l, (forall s r, (s, r) ∈ l -> record_live m db r = true) ->
    foldl (sweep_record g p d m rb) (db, false) l = (db, false)) as Hgen.
  { induction l as [|[s r] l IH]; intros Hl; cbn [foldl]; [done|].
    rewrite sweep_record_eq, (Hl s r) by set_solver. apply IH. set_solver. }
  apply Hgen. intros s r Hin%elem_of_hgetall. eauto.
Qed.
End sweep.

(** *** Readiness *)

(** What [evaluate_readiness] establishes. *)
Record readiness (g p d : string) (lks : list string) (n epoch : Z)
    (mn : option (option string)) db : Prop := {
  rd_admitted : Z.of_nat (size (hfields p db)) = n;
  rd_acked : forall s r, hget p s db = Some r -> participant_ready epoch mn db r = true;
  rd_lanes : forall k, k ∈ lks -> lane_stamp k db = Some epoch;
  rd_reported : Z.of_nat (size (hfields d db)) = n;
  rd_agree : forall s v, hget d s db = Some v -> hget g "plan_digest" db = Some v
}.

Lemma evaluate_readiness_spec g p d lks n epoch mn db :
  evaluate_readiness g p d lks (Some n) epoch mn db = true ↔ readiness g p d lks n epoch mn db.
Proof.
  unfold evaluate_readiness. rewrite !andb_true_iff, !Z.eqb_eq, !forallb_forall, hlen_size,
    length_hvals. setoid_rewrite bool_decide_eq_true. setoid_rewrite <- list_elem_of_In.
  split.
  - intros ((((R1 & R2) & R3) & R4) & R5). split; try done.
    + intros s r Hr. apply R2, elem_of_hvals. eauto.
    + intros s v Hv. symmetry. apply R5, elem_of_hvals. eauto.
  - intros []. split_and!; try done.
    + intros r (s & Hs)%elem_of_hvals. eauto.
    + intros v (s & Hs)%elem_of_hvals. symmetry. eauto.
Qed.

Lemma evaluate_readiness_inv g p d lks expected epoch mn db :
  evaluate_readiness g p d lks expected epoch mn db = true ->
  ∃ n, expected = Some n ∧ readiness g p d lks n epoch mn db.
Proof.
  destruct expected as [n|]; [|done]. intros He. exists n. split; [done|].
  by apply evaluate_readiness_spec.
Qed.

Lemma any_lane_bootstrapped_true lks e db :
  any_lane_bootstrapped lks e db = true ↔ ∃ k, k ∈ lks ∧ lane_stamp k db = Some e.
Proof.
  unfold any_lane_bootstrapped. rewrite existsb_exists.
  setoid_rewrite bool_decide_eq_true. by setoid_rewrite <- list_elem_of_In.
Qed.
End effects.
