(* ===== verification/CollectiveMachine.v ===== *)
(** * Collective groups as a state machine

    Every script of CollectiveScripts is one atomic step of the Redis server, and
    any number of service replicas interleave them.  [step] has one rule per
    script with the keys and arguments that the service passes, a rule for
    everything else that happens on the server (registrations appear, change and
    expire; reservations expire; other applications), and a rule for the eviction
    of a group's root record.  The declaration that a group identifier stands for
    is fixed: its slots, its lanes and their stored text.  Every answer of a script
    is a step, refusals included; one of them loses members without a new epoch
    ([lossy_join]), and [reach] records in which epochs that happened.  [group_inv]
    is the invariant that every step preserves. *)

From Stdlib Require Import ZArith Lia Ascii String.
From stdpp Require Import base tactics option list gmap fin_maps fin_map_dom fin_sets strings.
From S2P Require Import Prelude RustStr RedisStore RedisServer CollectiveScripts.
From S2P Require Import CollectiveEffects.

(** What the members of a group declare. *)
Record declaration : Type := MkDeclaration {
  dc_slots : gset string;
  dc_lanes : list Z;
  dc_text : string
}.

Section machine.
Context {DB : Type} `{RedisServer DB} `{LuaNumbers} `{LuaConcat}.
Context (decl : string -> declaration).
Implicit Types db : DB.

Definition lane_keys (G : string) : list string := map (lane_key G) (dc_lanes (decl G)).

Definition expected (G : string) : Z := Z.of_nat (size (dc_slots (decl G))).

Definition join_keys_of (G worker_id : string) : join_keys :=
  MkJoinKeys (group_key G) (participants_key G) (digests_key G) (worker_key worker_id)
    (active_ops_key G) (lane_keys G).

(** The arguments that [join_group] passes for the group [G]. *)
Record join_args_ok (G : string) (A : join_args) : Prop := {
  jo_total : ja_expected_total A = decimal (expected G);
  jo_lanes : ja_lanes A = dc_text (decl G);
  jo_slots : forall s, s ∈ split newline (ja_trainer_slots A) ∨
                       s ∈ split newline (ja_generator_slots A) -> s ∈ dc_slots (decl G);
  jo_worker : contains_char "|" (ja_worker_id A) = false;
  jo_role : contains_char "|" (ja_role A) = false;
  jo_index : contains_char "|" (ja_index A) = false;
  jo_prefix : ja_op_prefix A = OPERATION_KEY_PREFIX
}.

Definition join_run (G : string) (A : join_args) db : DB * string :=
  JOIN_GROUP_LUA (join_keys_of G (ja_worker_id A)) A db.
Definition publish_run (G : string) (lane epoch : Z) (worker_id nccl_id leader : string) db
    : DB * string :=
  PUBLISH_BOOTSTRAP_LUA (group_key G) (participants_key G) (digests_key G) (lane_key G lane)
    (lane_keys G) (decimal epoch) worker_id nccl_id leader db.
Definition refresh_run (G : string) db : DB * string :=
  REFRESH_GROUP_LUA (group_key G) (participants_key G) (digests_key G) (active_ops_key G)
    (lane_keys G) OPERATION_KEY_PREFIX db.
Definition create_run (G request_key : string) (A : create_args) db : DB * string :=
  CREATE_TRANSFER_LUA (operation_key (ca_operation_id A)) request_key (group_key G)
    (active_ops_key G) A db.
Definition report_run (G o : string) (epoch : Z) (worker_id succeeded message : string) db
    : DB * string :=
  REPORT_TRANSFER_LUA (operation_key o) (reported_key o) (group_key G) (participants_key G)
    (active_ops_key G) (lane_keys G) o G (decimal epoch) worker_id succeeded message db.
Definition delete_run (G o request_key : string) db : DB * string :=
  DELETE_TRANSFER_LUA (operation_key o) (reported_key o) request_key (active_ops_key G) o db.

(** The arguments that [create_transfer] passes. *)
Record create_args_ok (G : string) (A : create_args) : Prop := {
  co_id : plain_id (ca_operation_id A);
  co_group : ca_group_id A = G;
  co_state : ca_state A = "PENDING";
  co_prefix : ca_op_prefix A = OPERATION_KEY_PREFIX
}.

(** A key of the collective control plane that holds a hash or a set. *)
Definition collective_key (k : string) : Prop :=
  is_Some (key_parts k) ∨ (∃ o, plain_id o ∧ (k = operation_key o ∨ k = reported_key o)).

(** A key that is not one of those. *)
Definition request_like (k : string) : Prop := ~ collective_key k.

Inductive step : DB -> DB -> Prop :=
| step_join G A db :
    plain_id G -> join_args_ok G A -> step db (join_run G A db).1
| step_publish G lane epoch worker_id nccl_id leader db :
    plain_id G -> lane ∈ dc_lanes (decl G) ->
    step db (publish_run G lane epoch worker_id nccl_id leader db).1
| step_refresh G db : plain_id G -> step db (refresh_run G db).1
| step_create G request_key A db :
    plain_id G -> request_like request_key -> create_args_ok G A ->
    step db (create_run G request_key A db).1
| step_report G o epoch worker_id succeeded message db :
    plain_id G -> plain_id o ->
    step db (report_run G o epoch worker_id succeeded message db).1
| step_delete G o request_key db :
    plain_id G -> plain_id o -> request_like request_key ->
    (forall G', hget (operation_key o) "group_id" db = Some G' -> G' = G) ->
    step db (delete_run G o request_key db).1
| step_evict G db : plain_id G -> step db (redis_del (group_key G) db)
| step_env db db' :
    (forall k f, collective_key k -> hget k f db' = hget k f db) ->
    (forall k, collective_key k -> set_at k db' = set_at k db) ->
    step db db'.

(** The epoch of a group. *)
Definition epoch_of (G : string) db : option Z :=
  v ← hget (group_key G) "epoch" db; lua_tonumber v.

(** A refused join that lost a member: the sweep of lapsed participants runs before the
    checks that refuse, and a refusal returns before the epoch is advanced, so an epoch
    that is READY or has a published communicator goes on without the member. *)
Definition lossy_join (G : string) db db' : Prop :=
  ∃ A e s, join_args_ok G A ∧ db' = (join_run G A db).1 ∧
    starts_with "OK:" (join_run G A db).2 = false ∧
    epoch_of G db = Some e ∧ needs_epoch_bump (group_key G) (lane_keys G) e db = true ∧
    is_Some (hget (participants_key G) s db) ∧ hget (participants_key G) s db' = None.

(** The epochs, per group, in which a refused join lost a member. *)
Definition losses : Type := string -> Z -> Prop.
Definition no_losses : losses := fun _ _ => False.

(** The losses after a step; an evicted group starts again without any. *)
Definition note_losses (D : losses) db db' : losses := fun G e =>
  (D G e ∧ is_Some (epoch_of G db')) ∨ (lossy_join G db db' ∧ epoch_of G db = Some e).

(** [n] steps from a server without collective groups, with the losses on the way. *)
Inductive reach : nat -> losses -> DB -> Prop :=
| reach_init db :
    (forall k f, collective_key k -> hget k f db = None) ->
    (forall k, collective_key k -> set_at k db = ∅) -> reach 0 no_losses db
| reach_step n D db db' :
    reach n D db -> step db db' -> reach (S n) (note_losses D db db') db'.

(** ** The invariant *)

(** The participant acknowledged the epoch. *)
Definition acked (epoch : Z) (record : string) : Prop :=
  ∃ w role index je, parse_participant record = Some (w, role, index, je) ∧
    lua_tonumber je = Some epoch.

(** Everybody who holds a slot acknowledged the epoch, and every lane is stamped with it. *)
Record anchored (G : string) (epoch : Z) db : Prop := {
  an_acked : forall s r, hget (participants_key G) s db = Some r -> acked epoch r;
  an_lanes : forall i, i ∈ dc_lanes (decl G) -> lane_stamp (lane_key G i) db = Some epoch
}.

(** Every slot acknowledged the epoch and every lane is stamped with it. *)
Record formed (G : string) (epoch : Z) db : Prop := {
  fm_full : Z.of_nat (size (hfields (participants_key G) db)) = expected G;
  fm_acked : forall s r, hget (participants_key G) s db = Some r -> acked epoch r;
  fm_lanes : forall i, i ∈ dc_lanes (decl G) -> lane_stamp (lane_key G i) db = Some epoch
}.

(** The worker holds a slot. *)
Definition admitted (G : string) db (w : string) : Prop :=
  ∃ s r role index je, hget (participants_key G) s db = Some r ∧
    parse_participant r = Some (w, role, index, je).

Definition op_of (G o : string) db : Prop := hget (operation_key o) "group_id" db = Some G.
Definition op_active (o : string) db : Prop :=
  is_active (hget (operation_key o) "state" db) = true.

Record group_base (n : Z) (G : string) db : Prop := {
  gb_epoch : forall v, hget (group_key G) "epoch" db = Some v ->
    ∃ e, v = decimal e ∧ (1 <= e <= n)%Z;
  gb_root : is_Some (hget (group_key G) "epoch" db) ->
    hget (group_key G) "expected_total" db = Some (decimal (expected G)) ∧
    hget (group_key G) "lanes" db = Some (dc_text (decl G));
  gb_slots : is_Some (hget (group_key G) "epoch" db) ->
    forall s r, hget (participants_key G) s db = Some r -> s ∈ dc_slots (decl G);
  gb_lanes : forall e, epoch_of G db = Some e -> forall i f v, i ∈ dc_lanes (decl G) ->
    hget (lane_key G i) f db = Some v -> lane_stamp (lane_key G i) db = Some e;
  gb_ops : forall o, plain_id o -> op_of G o db -> op_active o db ->
    o ∈ set_at (active_ops_key G) db;
  gb_active : forall o, o ∈ set_at (active_ops_key G) db -> plain_id o ∧ op_of G o db;
  gb_single : forall o o', plain_id o -> plain_id o' -> op_of G o db -> op_of G o' db ->
    op_active o db -> op_active o' db -> o = o'
}.

(** An active operation rides the current epoch, whose members and lanes are anchored;
    without losses the group is formed and only its members reported. *)
Definition ops_current (D : losses) (G : string) db : Prop :=
  forall e o, epoch_of G db = Some e -> plain_id o -> op_of G o db -> op_active o db ->
    anchored G e db ∧ hget (operation_key o) "epoch" db = Some (decimal e) ∧
    (~ D G e -> formed G e db ∧ forall w, w ∈ set_at (reported_key o) db -> admitted G db w).

(** The digests that are reported are the group's. *)
Definition digests_agree (G : string) db : Prop :=
  forall s v, hget (digests_key G) s db = Some v -> hget (group_key G) "plan_digest" db = Some v.

(** A READY group is anchored and its members agree on the plan; without losses every
    slot is filled. *)
Definition ready_sound (D : losses) (G : string) db : Prop :=
  forall e, epoch_of G db = Some e -> hget (group_key G) "state" db = Some "READY" ->
    anchored G e db ∧ digests_agree G db ∧
    (~ D G e -> readiness (group_key G) (participants_key G) (digests_key G) (lane_keys G)
       (expected G) e None db).

Record group_inv (D : losses) (n : Z) (G : string) db : Prop := {
  gi_base : group_base n G db;
  gi_current : ops_current D G db;
  gi_ready : ready_sound D G db
}.

(** A deleted operation leaves no reports behind. *)
Definition reports_clean db : Prop :=
  forall o, plain_id o -> (forall f, hget (operation_key o) f db = None) ->
    set_at (reported_key o) db = ∅.

(** Every operation is in one of the states of the protocol. *)
Definition states_known db : Prop :=
  forall o s, plain_id o -> hget (operation_key o) "state" db = Some s ->
    is_active (Some s) = true ∨ is_terminal s = true.

Definition db_inv (D : losses) (n : Z) db : Prop :=
  (forall G, plain_id G -> group_inv D n G db) ∧ reports_clean db ∧ states_known db.
End machine.

Arguments step {DB _ _ _ _} decl _ _.

(** What the validation of a declaration guarantees: a lane, and a number of
    slots that a script can count. *)
Class DeclOk (decl : string -> declaration) : Prop := {
  decl_lanes : forall G, dc_lanes (decl G) ≠ [];
  decl_small : forall G, (expected decl G <= lua_int_max)%Z
}.
