(* ===== verification/CollectiveInvariant.v ===== *)
(** * The invariant of collective groups is preserved

    First the framing: what a script of one group leaves alone for every other
    group.  Then the moves that the scripts make on their own group (a new epoch,
    an admission, a bootstrap, the life of an operation), and last the
    preservation by every rule of [step]. *)

From Stdlib Require Import ZArith Lia Ascii String.
From stdpp Require Import base tactics option list gmap fin_maps fin_map_dom fin_sets strings.
From S2P Require Import Prelude RustStr RedisStore RedisServer CollectiveScripts.
From S2P Require Import CollectiveEffects CollectiveMachine.

Section invariant.
Context {DB : Type} `{RedisServer DB, !RedisStoreLaws DB, !RedisServerLaws DB}.
Context `{LuaNumbers, !LuaNumbersLaws} `{LuaConcat, !LuaConcatLaws}.
Context (decl : string -> declaration) `{!DeclOk decl} (D : losses).
Implicit Types db : DB.

(** ** Framing *)

(** The keys that a script of the group [G] may write, with the operations [S]. *)
Definition hash_touch (G : string) (S : string -> Prop) (k : string) : Prop :=
  (∃ l, key_parts k = Some (G :: l)) ∨
  (key_parts k = None ∧ forall o, plain_id o -> k = operation_key o -> S o).
Definition set_touch (G : string) (S : string -> Prop) (k : string) : Prop :=
  (∃ l, key_parts k = Some (G :: l)) ∨
  (key_parts k = None ∧ forall o, plain_id o -> k = reported_key o -> S o).

(** Nothing that the invariant of [G] reads is different; the plan source may be. *)
Definition group_frame (G : string) db db' : Prop :=
  (forall f, f ∉ plan_source_fields -> hget (group_key G) f db' = hget (group_key G) f db) ∧
  (forall f, hget (participants_key G) f db' = hget (participants_key G) f db) ∧
  (forall f, hget (digests_key G) f db' = hget (digests_key G) f db) ∧
  (forall i f, hget (lane_key G i) f db' = hget (lane_key G i) f db) ∧
  set_at (active_ops_key G) db' = set_at (active_ops_key G) db ∧
  (forall o, plain_id o -> op_of G o db ∨ op_of G o db' ->
     (forall f, hget (operation_key o) f db' = hget (operation_key o) f db) ∧
     set_at (reported_key o) db' = set_at (reported_key o) db).

Lemma other_group_frame G G' S db db' :
  plain_id G' -> G' ≠ G ->
  changes_only (hash_touch G S) (set_touch G S) db db' ->
  (forall o, plain_id o -> S o -> ~ op_of G' o db ∧ ~ op_of G' o db') ->
  group_frame G' db db'.
Proof.
  intros HG' Hne [Hh Hs] HS.
  assert (forall k l, key_parts k = Some (G' :: l) -> ~ hash_touch G S k) as Hk.
  { intros k l Hl [[l' Hl']|[Hn _]]; congruence. }
  split_and!; intros.
  - eapply Hh, Hk, parts_group; done.
  - eapply Hh, Hk, parts_participants; done.
  - eapply Hh, Hk, parts_digests; done.
  - eapply Hh, Hk, parts_lane; done.
  - apply Hs. intros [[l' Hl']|[Hn _]]; rewrite parts_active_ops in * by done; congruence.
  - assert (~ S o) as HnS by (intros HSo; destruct (HS o); naive_solver).
    split; [intros f; apply Hh|apply Hs]; intros [[l' Hl']|[_ Hn]]; try done; eauto.
Qed.

Lemma lane_stamp_ext k db db' :
  (forall f, hget k f db' = hget k f db) -> lane_stamp k db' = lane_stamp k db.
Proof. intros Heq. unfold lane_stamp. by rewrite Heq. Qed.

Lemma lane_key_in G i : i ∈ dc_lanes (decl G) -> lane_key G i ∈ lane_keys decl G.
Proof. intros Hi. unfold lane_keys. apply list_elem_of_fmap. eauto. Qed.

Lemma lane_keys_inv G k : k ∈ lane_keys decl G -> ∃ i, k = lane_key G i ∧ i ∈ dc_lanes (decl G).
Proof. unfold lane_keys. rewrite list_elem_of_fmap. naive_solver. Qed.

Lemma formed_ext G e db db' :
  (forall f, hget (participants_key G) f db' = hget (participants_key G) f db) ->
  (forall i f, i ∈ dc_lanes (decl G) -> hget (lane_key G i) f db' = hget (lane_key G i) f db) ->
  formed decl G e db -> formed decl G e db'.
Proof.
  intros Hp Hl []. split.
  - by rewrite (hfields_ext _ _ _ _ Hp).
  - intros s r. rewrite Hp. eauto.
  - intros i Hi. rewrite (lane_stamp_ext _ db) by eauto. eauto.
Qed.

Lemma anchored_ext G e db db' :
  (forall f, hget (participants_key G) f db' = hget (participants_key G) f db) ->
  (forall i f, i ∈ dc_lanes (decl G) -> hget (lane_key G i) f db' = hget (lane_key G i) f db) ->
  anchored decl G e db -> anchored decl G e db'.
Proof.
  intros Hp Hl []. split.
  - intros s r. rewrite Hp. eauto.
  - intros i Hi. rewrite (lane_stamp_ext _ db) by eauto. eauto.
Qed.

Lemma formed_anchored G e db : formed decl G e db -> anchored decl G e db.
Proof. intros []. by split. Qed.

Lemma admitted_ext G db db' w :
  (forall f, hget (participants_key G) f db' = hget (participants_key G) f db) ->
  admitted G db w -> admitted G db' w.
Proof.
  intros Hp (s & r & ro & ix & je & Hs & Hr). exists s, r, ro, ix, je. by rewrite Hp.
Qed.

Lemma readiness_ext g p d lks n e db db' :
  hget g "plan_digest" db' = hget g "plan_digest" db ->
  (forall k f, k = p ∨ k = d ∨ k ∈ lks -> hget k f db' = hget k f db) ->
  readiness g p d lks n e None db -> readiness g p d lks n e None db'.
Proof.
  intros Hpd Heq []. split.
  - rewrite (hfields_ext p p db db'); [done|]. intros. apply Heq. auto.
  - intros s r. rewrite Heq by auto. intros Hr. specialize (rd_acked _ _ Hr).
    unfold participant_ready in *. done.
  - intros k Hk. rewrite (lane_stamp_ext _ db); [auto|]. intros. apply Heq. auto.
  - rewrite (hfields_ext d d db db'); [done|]. intros. apply Heq. auto.
  - intros s v. rewrite Heq, Hpd by auto. eauto.
Qed.

Lemma group_base_frame n G db db' :
  group_frame G db db' -> group_base decl n G db -> group_base decl n G db'.
Proof.
  intros (Hg & Hp & Hd & Hl & Hs & Ho) [].
  assert (forall o, plain_id o -> op_of G o db' -> op_of G o db ∧
    forall f, hget (operation_key o) f db' = hget (operation_key o) f db) as Hop.
  { intros o Hpo Hoo. destruct (Ho o Hpo (or_intror Hoo)) as [Heq _].
    split; [|done]. unfold op_of in *. by rewrite <- Heq. }
  split.
  - intros v. rewrite Hg by set_solver. eauto.
  - rewrite !Hg by set_solver. eauto.
  - rewrite Hg by set_solver. intros He s r. rewrite Hp. eauto.
  - intros e. unfold epoch_of. rewrite Hg by set_solver. intros He i f v Hi. rewrite Hl.
    rewrite (lane_stamp_ext _ db) by auto. eauto.
  - intros o Hpo Hoo Ha. destruct (Hop o Hpo Hoo) as [Hoo' Heq]. rewrite Hs.
    apply gb_ops; [done..|]. unfold op_active in *. by rewrite <- Heq.
  - intros o. rewrite Hs. intros [Hpo Hoo]%gb_active. split; [done|].
    destruct (Ho o Hpo (or_introl Hoo)) as [Heq _]. unfold op_of in *. by rewrite Heq.
  - intros o o' Hpo Hpo' Hoo Hoo' Ha Ha'.
    destruct (Hop o Hpo Hoo) as [Hx Heq], (Hop o' Hpo' Hoo') as [Hx' Heq'].
    unfold op_active in *. rewrite Heq in Ha. rewrite Heq' in Ha'. by apply gb_single.
Qed.

Lemma ops_current_frame G db db' :
  group_frame G db db' -> ops_current decl D G db -> ops_current decl D G db'.
Proof.
  intros (Hg & Hp & Hd & Hl & Hs & Ho) Hc e o He Hpo Hoo Ha.
  destruct (Ho o Hpo (or_intror Hoo)) as [Heq Hrep].
  unfold epoch_of in He. rewrite Hg in He by set_solver. unfold op_of, op_active in *.
  rewrite Heq in Hoo, Ha. rewrite Heq, Hrep.
  destruct (Hc e o He Hpo Hoo Ha) as (Han & Hep & Hfull). split_and!; [|done|].
  - eapply anchored_ext; [..|exact Han]; eauto.
  - intros [Hfm Hw]%Hfull. split; [eapply formed_ext; [..|exact Hfm]; eauto|].
    intros w Hin. eapply admitted_ext; [|by apply Hw]. done.
Qed.

Lemma group_inv_frame n G db db' :
  group_frame G db db' -> group_inv decl D n G db -> group_inv decl D n G db'.
Proof.
  intros Hf [Hb Hc Hr]. split.
  - by eapply group_base_frame.
  - by eapply ops_current_frame.
  - destruct Hf as (Hg & Hp & Hd & Hl & _). intros e He Hst.
    unfold epoch_of in He. rewrite Hg in He, Hst by set_solver.
    destruct (Hr e He Hst) as (Han & Hag & Hfull). split_and!.
    + eapply anchored_ext; [..|exact Han]; eauto.
    + intros s v. rewrite Hd, Hg by set_solver. apply Hag.
    + intros Hx%Hfull. eapply readiness_ext; [apply Hg; set_solver| |exact Hx].
      intros k f [->|[->|(i & -> & _)%lane_keys_inv]]; auto.
Qed.

Lemma group_inv_mono n n' G db : (n <= n')%Z -> group_inv decl D n G db -> group_inv decl D n' G db.
Proof.
  intros Hn [[] Hc Hr]. split; [|done..]. split; try done.
  intros v Hv. destruct (gb_epoch v Hv) as (e & -> & He). exists e. split; [done|lia].
Qed.

(** The epoch as a number. *)
Lemma epoch_of_Some n G db e :
  (n <= lua_int_max)%Z -> group_base decl n G db -> epoch_of G db = Some e ->
  hget (group_key G) "epoch" db = Some (decimal e) ∧ (1 <= e <= n)%Z.
Proof.
  intros Hn Hb. unfold epoch_of. destruct (hget (group_key G) "epoch" db) as [v|] eqn:Hv; [|done].
  destruct (gb_epoch _ _ _ _ Hb v Hv) as (e' & -> & He'). simpl.
  rewrite tonumber_decimal by lia. intros [= ->]. done.
Qed.

Lemma epoch_of_decimal G db e :
  (0 <= e <= lua_int_max)%Z -> hget (group_key G) "epoch" db = Some (decimal e) ->
  epoch_of G db = Some e.
Proof. intros He Hv. unfold epoch_of. rewrite Hv. simpl. by apply tonumber_decimal. Qed.

(** ** A new epoch *)

Lemma touch_group G S k : (∃ l, key_parts k = Some (G :: l)) -> hash_touch G S k ∧ set_touch G S k.
Proof. intros Hl. split; by left. Qed.

Lemma touch_root G S : plain_id G -> hash_touch G S (group_key G) ∧ set_touch G S (group_key G).
Proof. intros HG. apply touch_group. eexists. by apply parts_group. Qed.
Lemma touch_parts G S :
  plain_id G -> hash_touch G S (participants_key G) ∧ set_touch G S (participants_key G).
Proof. intros HG. apply touch_group. eexists. by apply parts_participants. Qed.
Lemma touch_digests G S : plain_id G -> hash_touch G S (digests_key G) ∧ set_touch G S (digests_key G).
Proof. intros HG. apply touch_group. eexists. by apply parts_digests. Qed.
Lemma touch_ops G S :
  plain_id G -> hash_touch G S (active_ops_key G) ∧ set_touch G S (active_ops_key G).
Proof. intros HG. apply touch_group. eexists. by apply parts_active_ops. Qed.
Lemma touch_lane G S i : plain_id G -> hash_touch G S (lane_key G i) ∧ set_touch G S (lane_key G i).
Proof. intros HG. apply touch_group. eexists. by apply parts_lane. Qed.
Lemma touch_lanes G S k :
  plain_id G -> k ∈ lane_keys decl G -> hash_touch G S k ∧ set_touch G S k.
Proof. intros HG (i & -> & _)%lane_keys_inv. by apply touch_lane. Qed.

Lemma touch_op G (S : string -> Prop) o : S o -> hash_touch G S (operation_key o).
Proof. intros HS. right. split; [done|]. intros o' _ ->%operation_key_inj. done. Qed.

Lemma abort_touch G (S : string -> Prop) db db' :
  plain_id G -> (forall o, o ∈ set_at (active_ops_key G) db' -> S o) ->
  changes_only (hash_touch G S) (set_touch G S) db db' ->
  changes_only (hash_touch G S) (set_touch G S) db
    (abort_stale_ops (active_ops_key G) OPERATION_KEY_PREFIX db').
Proof.
  intros HG HS Hc. eapply changes_trans; [exact Hc|].
  destruct (abort_stale_ops_effect (active_ops_key G) db') as (I1 & _ & _ & I4). split.
  - intros k f Hk. apply I1. intros o Ho ->. apply Hk. by apply touch_op, HS.
  - intros k Hk. rewrite I4, decide_False; [done|]. intros ->. apply Hk. by apply touch_ops.
Qed.

(** A group without active operations, lanes or readiness satisfies the invariant. *)
Lemma fresh_epoch_inv n G e db :
  hget (group_key G) "epoch" db = Some (decimal e) -> (1 <= e <= n)%Z -> (n <= lua_int_max)%Z ->
  hget (group_key G) "expected_total" db = Some (decimal (expected decl G)) ->
  hget (group_key G) "lanes" db = Some (dc_text (decl G)) ->
  hget (group_key G) "state" db = Some "FORMING" ->
  (forall s r, hget (participants_key G) s db = Some r -> s ∈ dc_slots (decl G)) ->
  (forall i f, i ∈ dc_lanes (decl G) -> hget (lane_key G i) f db = None) ->
  (forall o, plain_id o -> op_of G o db -> ~ op_active o db) ->
  (forall o, o ∈ set_at (active_ops_key G) db -> plain_id o ∧ op_of G o db) ->
  group_inv decl D n G db.
Proof.
  intros He Hen Hn Ht Hl Hst Hs Hlanes Hops Hact. split.
  - split; try done.
    + intros v Hv. exists e. split; [congruence|done].
    + intros e' _ i f v Hi. by rewrite Hlanes.
    + intros o Hpo Hoo Ha. by destruct (Hops o Hpo Hoo).
    + intros o o' Hpo _ Hoo _ Ha. by destruct (Hops o Hpo Hoo).
  - intros e' o _ Hpo Hoo Ha. by destruct (Hops o Hpo Hoo).
  - intros e' _ Hr. congruence.
Qed.

(** The common shape of the two epoch bumps. *)
Definition new_epoch (G : string) (fvs : list (string * string)) db : DB :=
  abort_stale_ops (active_ops_key G) OPERATION_KEY_PREFIX
    (del_all (lane_keys decl G) (hset_all (group_key G) fvs db)).

Lemma not_lane_key G k : (forall i, k ≠ lane_key G i) -> k ∉ lane_keys decl G.
Proof. intros Hk (i & -> & _)%lane_keys_inv. by apply (Hk i). Qed.

Lemma set_at_before_abort G fvs k db :
  plain_id G -> (forall i, k ≠ lane_key G i) ->
  set_at k (del_all (lane_keys decl G) (hset_all (group_key G) fvs db)) = set_at k db.
Proof.
  intros HG Hk. rewrite set_at_del_all, decide_False by by apply not_lane_key.
  apply set_at_hset_all.
Qed.

Lemma hget_before_abort G fvs k f db :
  plain_id G -> (forall i, k ≠ lane_key G i) -> k ≠ group_key G ->
  hget k f (del_all (lane_keys decl G) (hset_all (group_key G) fvs db)) = hget k f db.
Proof.
  intros HG Hk Hg. rewrite hget_del_all, decide_False by by apply not_lane_key.
  by apply hget_hset_all_ne.
Qed.

Lemma new_epoch_root G fvs f db :
  plain_id G ->
  hget (group_key G) f (new_epoch G fvs db) =
  from_option Some (hget (group_key G) f db) (assoc_last f fvs).
Proof.
  intros HG. unfold new_epoch.
  destruct (abort_stale_ops_effect (active_ops_key G)
    (del_all (lane_keys decl G) (hset_all (group_key G) fvs db))) as (I1 & _).
  rewrite I1 by (intros o _; key_ne).
  rewrite hget_del_all, decide_False by (apply not_lane_key; intros i; key_ne).
  by rewrite hget_hset_all_if, decide_True.
Qed.

Lemma new_epoch_parts G fvs f db :
  plain_id G -> hget (participants_key G) f (new_epoch G fvs db) = hget (participants_key G) f db.
Proof.
  intros HG. unfold new_epoch.
  destruct (abort_stale_ops_effect (active_ops_key G)
    (del_all (lane_keys decl G) (hset_all (group_key G) fvs db))) as (I1 & _).
  rewrite I1 by (intros o _; key_ne). apply hget_before_abort; [done|intros i; key_ne|key_ne].
Qed.

Lemma new_epoch_lane G fvs i f db :
  plain_id G -> i ∈ dc_lanes (decl G) -> hget (lane_key G i) f (new_epoch G fvs db) = None.
Proof.
  intros HG Hi. unfold new_epoch.
  destruct (abort_stale_ops_effect (active_ops_key G)
    (del_all (lane_keys decl G) (hset_all (group_key G) fvs db))) as (I1 & _).
  rewrite I1 by (intros o _; key_ne).
  by rewrite hget_del_all, decide_True by by apply lane_key_in.
Qed.

Lemma new_epoch_ops G fvs o f db :
  plain_id G -> f ∉ abort_fields ->
  hget (operation_key o) f (new_epoch G fvs db) = hget (operation_key o) f db.
Proof.
  intros HG Hf. unfold new_epoch.
  destruct (abort_stale_ops_effect (active_ops_key G)
    (del_all (lane_keys decl G) (hset_all (group_key G) fvs db))) as (_ & I2 & _).
  rewrite I2 by done. apply hget_before_abort; [done|intros i; key_ne|key_ne].
Qed.

Lemma new_epoch_active G fvs db : plain_id G -> set_at (active_ops_key G) (new_epoch G fvs db) = ∅.
Proof.
  intros HG. unfold new_epoch.
  destruct (abort_stale_ops_effect (active_ops_key G)
    (del_all (lane_keys decl G) (hset_all (group_key G) fvs db))) as (_ & _ & _ & I4).
  by rewrite I4, decide_True.
Qed.

(** No operation of the group stays active. *)
Lemma new_epoch_inactive n G fvs o db :
  plain_id G -> group_base decl n G db -> plain_id o ->
  op_of G o (new_epoch G fvs db) -> ~ op_active o (new_epoch G fvs db).
Proof.
  intros HG Hb Ho Hof Hact. unfold op_of in Hof. rewrite new_epoch_ops in Hof by (done || set_solver).
  unfold op_active, new_epoch in Hact.
  destruct (abort_stale_ops_effect (active_ops_key G)
    (del_all (lane_keys decl G) (hset_all (group_key G) fvs db))) as (_ & _ & I3 & _).
  rewrite I3, set_at_before_abort, hget_before_abort in Hact by (done || (intros i; key_ne) || key_ne).
  case_decide as Hin; [by rewrite aborted_inactive in Hact|].
  apply Hin, (gb_ops _ _ _ _ Hb); done.
Qed.

Lemma new_epoch_touch n G fvs db :
  plain_id G -> group_base decl n G db ->
  changes_only (hash_touch G (fun o => op_of G o db)) (set_touch G (fun o => op_of G o db)) db
    (new_epoch G fvs db).
Proof.
  intros HG Hb. unfold new_epoch. apply abort_touch; [done| |].
  - intros o. rewrite set_at_before_abort by (done || (intros i; key_ne)).
    intros Hin. by apply (gb_active _ _ _ _ Hb).
  - apply changes_del_all; [intros k Hk; by apply touch_lanes|].
    apply changes_hset_all; [by apply touch_root|]. done.
Qed.

Lemma new_epoch_inv n G fvs e db :
  plain_id G -> group_base decl n G db -> is_Some (hget (group_key G) "epoch" db) ->
  (1 <= e <= n + 1)%Z -> (n < lua_int_max)%Z ->
  assoc_last "epoch" fvs = Some (decimal e) -> assoc_last "state" fvs = Some "FORMING" ->
  assoc_last "expected_total" fvs = None -> assoc_last "lanes" fvs = None ->
  group_inv decl D (n + 1) G (new_epoch G fvs db).
Proof.
  intros HG Hb Hroot He Hn Hfe Hfs Hft Hfl.
  destruct (gb_root _ _ _ _ Hb Hroot) as [Ht Hl].
  apply (fresh_epoch_inv _ _ e); rewrite ?new_epoch_root, ?Hfe, ?Hfs, ?Hft, ?Hfl by done; try done.
  - lia.
  - intros s r. rewrite new_epoch_parts by done. by apply (gb_slots _ _ _ _ Hb).
  - intros i f Hi. by apply new_epoch_lane.
  - intros o. by apply (new_epoch_inactive n).
  - intros o. rewrite new_epoch_active by done. set_solver.
Qed.

(** ** Readiness *)

Lemma readiness_weaken g p d lks k e mn db :
  readiness g p d lks k e mn db -> readiness g p d lks k e None db.
Proof.
  intros []. split; try done. intros s r Hr. specialize (rd_acked s r Hr).
  unfold participant_ready in *. destruct (parse_participant r) as [[[[]]]|]; [|done].
  apply andb_true_iff in rd_acked as [-> _]. done.
Qed.

Lemma participant_ready_acked e mn db r : participant_ready e mn db r = true -> acked e r.
Proof.
  unfold participant_ready, acked. destruct (parse_participant r) as [[[[w ro] ix] je]|]; [|done].
  intros [Hje _]%andb_true_iff. apply bool_decide_eq_true in Hje. eauto 10.
Qed.

Lemma readiness_formed G e mn db :
  readiness (group_key G) (participants_key G) (digests_key G) (lane_keys decl G)
    (expected decl G) e mn db -> formed decl G e db.
Proof.
  intros []. split; try done.
  - intros s r Hr. eapply participant_ready_acked. eauto.
  - intros i Hi. by apply rd_lanes, lane_key_in.
Qed.

(** A group found ready is sound whatever was lost. *)
Lemma readiness_sound G e mn db :
  readiness (group_key G) (participants_key G) (digests_key G) (lane_keys decl G)
    (expected decl G) e mn db ->
  anchored decl G e db ∧ digests_agree G db ∧
  readiness (group_key G) (participants_key G) (digests_key G) (lane_keys decl G)
    (expected decl G) e None db.
Proof.
  intros Hr. split_and!; [by eapply formed_anchored, readiness_formed|intros s v; apply Hr|].
  by eapply readiness_weaken.
Qed.

(** The state field is not read by the base invariant. *)
Lemma put_state_inv n G e mn expd db :
  plain_id G -> (n <= lua_int_max)%Z ->
  group_base decl n G db -> ops_current decl D G db -> epoch_of G db = Some e ->
  expd = lua_tonumber (decimal (expected decl G)) ->
  group_inv decl D n G
    (put_state (group_key G) e
       (evaluate_readiness (group_key G) (participants_key G) (digests_key G) (lane_keys decl G)
          expd e mn db) db).1.
Proof.
  intros HG Hn Hb Hc He ->. rewrite tonumber_decimal by (split; [unfold expected; lia|apply decl_small]).
  set (ready := evaluate_readiness _ _ _ _ _ _ _ _). cbn [put_state fst].
  set (db' := hset (group_key G) "state" (state_text ready) db).
  assert (forall k f, k ≠ group_key G ∨ f ≠ "state" -> hget k f db' = hget k f db) as Hsame.
  { intros k f Hne. subst db'. rewrite hget_hset, decide_False; naive_solver. }
  assert (forall k, set_at k db' = set_at k db) as Hsets by (intros k; apply set_at_hset).
  assert (forall f, hget (participants_key G) f db' = hget (participants_key G) f db) as Hp.
  { intros f. apply Hsame. left. key_ne. }
  assert (forall f, hget (digests_key G) f db' = hget (digests_key G) f db) as Hd.
  { intros f. apply Hsame. left. key_ne. }
  assert (forall i f, hget (lane_key G i) f db' = hget (lane_key G i) f db) as Hl.
  { intros i f. apply Hsame. left. key_ne. }
  assert (forall o f, hget (operation_key o) f db' = hget (operation_key o) f db) as Ho.
  { intros o f. apply Hsame. left. key_ne. }
  assert (epoch_of G db' = epoch_of G db) as Hep by (unfold epoch_of; by rewrite Hsame by auto).
  split.
  - destruct Hb. split.
    + intros v. rewrite Hsame by auto. eauto.
    + rewrite !Hsame by auto. eauto.
    + rewrite Hsame by auto. intros Hr s r. rewrite Hp. eauto.
    + rewrite Hep. intros e' He' i f v Hi. rewrite Hl, (lane_stamp_ext _ db) by auto. eauto.
    + unfold op_of, op_active. intros o. rewrite !Ho, Hsets. eauto.
    + unfold op_of. intros o. rewrite !Ho, Hsets. eauto.
    + unfold op_of, op_active in *. intros o o'. rewrite !Ho. eauto.
  - intros e' o. rewrite Hep. unfold op_of, op_active. rewrite !Ho, Hsets. intros He' Hpo Hoo Ha.
    destruct (Hc e' o He' Hpo Hoo Ha) as (Han & Hoe & Hfull). split_and!; [|done|].
    + eapply anchored_ext; [..|exact Han]; auto.
    + intros [Hfm Hw]%Hfull. split; [eapply formed_ext; [..|exact Hfm]; auto|].
      intros w Hin. eapply admitted_ext; [|by apply Hw]. done.
  - intros e'. rewrite Hep, He. intros [= <-] Hst. subst db'.
    rewrite hget_hset, decide_True in Hst by done.
    destruct ready eqn:Er; [|done]. subst ready. apply evaluate_readiness_spec in Er.
    assert (readiness (group_key G) (participants_key G) (digests_key G) (lane_keys decl G)
      (expected decl G) e None (hset (group_key G) "state" (state_text true) db)) as Hready.
    { eapply readiness_ext; [apply Hsame; by right| |eapply readiness_weaken, Er].
      intros k f [->|[->|(i & -> & _)%lane_keys_inv]]; auto. }
    destruct (readiness_sound G e None _ Hready) as (? & ? & _). by split_and!.
Qed.

(** ** The sweep *)

Lemma sweep_distinct G :
  plain_id G ->
  group_key G ≠ participants_key G ∧ group_key G ≠ digests_key G ∧
  participants_key G ≠ digests_key G ∧
  forall w, worker_key w ≠ group_key G ∧ worker_key w ≠ participants_key G ∧
            worker_key w ≠ digests_key G.
Proof. intros HG. split_and!; [key_ne..|]. intros w. split_and!; key_ne. Qed.

Definition group_sweep (G : string) (m : option string) (rb : bool) db : DB * bool :=
  sweep (group_key G) (participants_key G) (digests_key G) m rb db.

Lemma group_sweep_effect G m rb db :
  plain_id G ->
  sweep_spec (group_key G) (participants_key G) (digests_key G) m rb
    (hgetall (participants_key G) db) db false (group_sweep G m rb db).1 (group_sweep G m rb db).2.
Proof. intros HG. destruct (sweep_distinct G HG) as (? & ? & ? & ?). by apply sweep_effect. Qed.

Lemma group_sweep_other G m rb db k f :
  plain_id G -> k ≠ group_key G -> k ≠ participants_key G -> k ≠ digests_key G ->
  hget k f (group_sweep G m rb db).1 = hget k f db.
Proof.
  intros HG H1' H2' H3'. pose proof (group_sweep_effect G m rb db HG) as S.
  apply (sw_frame _ _ _ _ _ _ _ _ _ _ S). unfold sweep_keys. naive_solver.
Qed.

Lemma group_sweep_sets G m rb db k : plain_id G -> set_at k (group_sweep G m rb db).1 = set_at k db.
Proof.
  intros HG. pose proof (group_sweep_effect G m rb db HG) as S.
  apply (sw_frame _ _ _ _ _ _ _ _ _ _ S). by intros [].
Qed.

Lemma group_sweep_touch G (S : string -> Prop) m rb db :
  plain_id G -> changes_only (hash_touch G S) (set_touch G S) db (group_sweep G m rb db).1.
Proof.
  intros HG. split.
  - intros k f Hk. apply group_sweep_other; [done|..]; intros ->; apply Hk;
      [apply touch_root|apply touch_parts|apply touch_digests]; done.
  - intros k _. by apply group_sweep_sets.
Qed.

Lemma group_sweep_epoch G m rb db :
  plain_id G -> epoch_of G (group_sweep G m rb db).1 = epoch_of G db.
Proof.
  intros HG. pose proof (group_sweep_effect G m rb db HG) as S. unfold epoch_of.
  by rewrite (sw_root _ _ _ _ _ _ _ _ _ _ S) by set_solver.
Qed.

Lemma group_sweep_base n G m rb db :
  plain_id G -> group_base decl n G db -> group_base decl n G (group_sweep G m rb db).1.
Proof.
  intros HG []. pose proof (group_sweep_effect G m rb db HG) as S.
  pose proof (sw_root _ _ _ _ _ _ _ _ _ _ S) as Hr.
  assert (forall o f, hget (operation_key o) f (group_sweep G m rb db).1 =
    hget (operation_key o) f db) as Ho by (intros; apply group_sweep_other; [done|key_ne..]).
  assert (forall i f, hget (lane_key G i) f (group_sweep G m rb db).1 =
    hget (lane_key G i) f db) as Hl by (intros; apply group_sweep_other; [done|key_ne..]).
  split.
  - intros v. rewrite Hr by set_solver. eauto.
  - rewrite !Hr by set_solver. eauto.
  - rewrite Hr by set_solver. intros He s r Hs.
    destruct (sw_parts _ _ _ _ _ _ _ _ _ _ S s) as [Heq|Heq]; [|congruence].
    rewrite Heq in Hs. eauto.
  - rewrite group_sweep_epoch by done. intros e He i f v Hi. rewrite Hl.
    rewrite (lane_stamp_ext _ db) by auto. eauto.
  - unfold op_of, op_active. intros o. rewrite !Ho, group_sweep_sets by done. eauto.
  - unfold op_of. intros o. rewrite !Ho, group_sweep_sets by done. eauto.
  - unfold op_of, op_active in *. intros o o'. rewrite !Ho. eauto.
Qed.

(** Without a need for a new epoch the group is not anchored. *)
Lemma needs_bump_anchored G e db :
  anchored decl G e db -> needs_epoch_bump (group_key G) (lane_keys decl G) e db = true.
Proof.
  intros []. unfold needs_epoch_bump. apply orb_true_iff. right.
  apply any_lane_bootstrapped_true. destruct (dc_lanes (decl G)) as [|i l] eqn:E.
  { by destruct (decl_lanes G). }
  exists (lane_key G i). split; [apply lane_key_in; rewrite E; set_solver|].
  apply an_lanes. set_solver.
Qed.

Lemma needs_bump_formed G e db :
  formed decl G e db -> needs_epoch_bump (group_key G) (lane_keys decl G) e db = true.
Proof. intros Hf. by apply needs_bump_anchored, formed_anchored. Qed.

(** A sweep that changes nothing is a frame. *)
Lemma group_sweep_frame G m rb db :
  plain_id G -> (forall k f, hget k f (group_sweep G m rb db).1 = hget k f db) ->
  group_frame G db (group_sweep G m rb db).1.
Proof.
  intros HG Heq. split_and!; intros; auto; [by apply group_sweep_sets|].
  split; [auto|by apply group_sweep_sets].
Qed.

Lemma group_sweep_anchored G m rb e db :
  plain_id G -> anchored decl G e db -> anchored decl G e (group_sweep G m rb db).1.
Proof.
  intros HG []. pose proof (group_sweep_effect G m rb db HG) as S. split.
  - intros s r Hr. destruct (sw_parts _ _ _ _ _ _ _ _ _ _ S s) as [Heq|Heq]; [|congruence].
    rewrite Heq in Hr. eauto.
  - intros i Hi. rewrite (lane_stamp_ext _ db); [auto|].
    intros. apply group_sweep_other; [done|key_ne..].
Qed.

(** A sweep whose result stays, without a new epoch: it removed nobody from an epoch with
    a communicator, or the loss is on record. *)
Lemma group_sweep_noted n G m e db :
  plain_id G -> epoch_of G db = Some e ->
  let rb := needs_epoch_bump (group_key G) (lane_keys decl G) e db in
  let db' := (group_sweep G m rb db).1 in
  (rb = true -> forall s, is_Some (hget (participants_key G) s db) ->
     hget (participants_key G) s db' = None -> D G e) ->
  group_inv decl D n G db -> group_inv decl D n G db'.
Proof.
  intros HG He rb db' Hnote Hinv. pose proof (group_sweep_effect G m rb db HG) as S.
  destruct rb eqn:Erb.
  - destruct (sw_either _ _ _ _ _ _ _ _ _ _ S) as [Heq|(s & r & Hin%elem_of_hgetall & Hx)].
    { eapply group_inv_frame; [|exact Hinv]. by apply group_sweep_frame. }
    assert (D G e) as HD by (eapply Hnote; eauto). destruct Hinv as [Hb Hc Hr]. split.
    + by apply group_sweep_base.
    + intros e' o. unfold db'. rewrite group_sweep_epoch, He by done. intros [= <-].
      assert (forall f, hget (operation_key o) f (group_sweep G m true db).1 =
        hget (operation_key o) f db) as Ho by (intros; apply group_sweep_other; [done|key_ne..]).
      unfold op_of, op_active. rewrite !Ho. intros Hpo Hoo Ha.
      destruct (Hc e o He Hpo Hoo Ha) as (Han & Hep & _).
      split_and!; [by apply group_sweep_anchored|done|by intros []].
    + intros e'. unfold db'. rewrite group_sweep_epoch, He by done. intros [= <-].
      rewrite (sw_root _ _ _ _ _ _ _ _ _ _ S) by set_solver. intros Hst.
      destruct (Hr e He Hst) as (Han & Hag & _).
      split_and!; [by apply group_sweep_anchored| |by intros []].
      intros s' v Hv. rewrite (sw_root _ _ _ _ _ _ _ _ _ _ S) by set_solver.
      destruct (sw_digests _ _ _ _ _ _ _ _ _ _ S s') as [Heq|Heq]; [|congruence].
      rewrite Heq in Hv. by eapply Hag.
  - destruct Hinv as [Hb Hc Hr].
    assert (~ anchored decl G e db) as Hno.
    { intros Han%needs_bump_anchored. unfold rb in Erb. congruence. }
    split; [by apply group_sweep_base|intros e' o|intros e']; unfold db';
      rewrite group_sweep_epoch, He by done; intros [= <-].
    + assert (forall f, hget (operation_key o) f (group_sweep G m false db).1 =
        hget (operation_key o) f db) as Ho by (intros; apply group_sweep_other; [done|key_ne..]).
      unfold op_of, op_active. rewrite !Ho. intros Hpo Hoo Ha.
      by destruct (Hc e o He Hpo Hoo Ha) as (? & _).
    + rewrite (sw_root _ _ _ _ _ _ _ _ _ _ S) by set_solver. intros Hst.
      by destruct (Hr e He Hst) as (? & _).
Qed.

(** An unchanged sweep keeps the operations current. *)
Lemma group_sweep_current n G m e db :
  plain_id G -> group_base decl n G db -> ops_current decl D G db -> epoch_of G db = Some e ->
  let r := group_sweep G m (needs_epoch_bump (group_key G) (lane_keys decl G) e db) db in
  r.2 = false -> ops_current decl D G r.1.
Proof.
  intros HG Hb Hc He r Hr. subst r.
  set (rb := needs_epoch_bump (group_key G) (lane_keys decl G) e db) in *.
  pose proof (group_sweep_effect G m rb db HG) as S.
  assert (forall o f, hget (operation_key o) f (group_sweep G m rb db).1 =
    hget (operation_key o) f db) as Ho by (intros; apply group_sweep_other; [done|key_ne..]).
  destruct rb eqn:Erb.
  - destruct (sw_unchanged _ _ _ _ _ _ _ _ _ _ S Hr eq_refl) as [_ Heq].
    eapply ops_current_frame; [by apply group_sweep_frame|exact Hc].
  - intros e' o. rewrite group_sweep_epoch, He by done. intros [= <-].
    unfold op_of, op_active. rewrite !Ho. intros Hpo Hoo Ha.
    destruct (Hc e o He Hpo Hoo Ha) as (Han & _). apply needs_bump_anchored in Han. subst rb. congruence.
Qed.

(** ** Admission *)

Definition member_record (A : join_args) (e : Z) : string :=
  ja_worker_id A +:+ "|" +:+ ja_role A +:+ "|" +:+ ja_index A +:+ "|" +:+ lua_concat e.

Lemma member_record_parse G A e :
  join_args_ok decl G A -> (0 <= e < lua_concat_max)%Z ->
  parse_participant (member_record A e) = Some (ja_worker_id A, ja_role A, ja_index A, decimal e).
Proof.
  intros [] He. unfold parse_participant, member_record.
  rewrite lua_concat_decimal by done.
  change (ja_worker_id A +:+ "|" +:+ ja_role A +:+ "|" +:+ ja_index A +:+ "|" +:+ decimal e)
    with (ja_worker_id A +:+ String "|" (ja_role A +:+ String "|"
            (ja_index A +:+ String "|" (decimal e)))).
  rewrite (split_app_sep "|" (ja_worker_id A)) by done.
  rewrite (split_app_sep "|" (ja_role A)) by done.
  rewrite (split_app_sep "|" (ja_index A)) by done.
  by rewrite split_no_sep by by apply decimal_no.
Qed.

Definition admit_writes (G : string) (A : join_args) (e : Z) db : DB :=
  let db := hset (participants_key G) (ja_slot_id A) (member_record A e) db in
  let db := hset (digests_key G) (ja_slot_id A) (ja_plan_digest A) db in
  if String.eqb (ja_source_worker_id A) "" then db
  else hset_all (group_key G)
         [("plan_source_worker_id", ja_source_worker_id A);
          ("plan_source_endpoint", ja_source_endpoint A);
          ("plan_source_digest", ja_source_digest A)] db.

Lemma join_admit_writes G A e db :
  join_admit (join_keys_of decl G (ja_worker_id A)) A e db =
  put_state (group_key G) e
    (evaluate_readiness (group_key G) (participants_key G) (digests_key G) (lane_keys decl G)
       (lua_tonumber (ja_expected_total A)) e (Some (Some (ja_model_name A)))
       (admit_writes G A e db)) (admit_writes G A e db).
Proof. done. Qed.

Lemma hget_admit G A e k f db :
  plain_id G -> k ≠ group_key G ∨ f ∉ plan_source_fields ->
  hget k f (admit_writes G A e db) =
  if decide (k = participants_key G ∧ f = ja_slot_id A) then Some (member_record A e)
  else if decide (k = digests_key G ∧ f = ja_slot_id A) then Some (ja_plan_digest A)
  else hget k f db.
Proof.
  intros HG Hk. unfold admit_writes. destruct (sweep_distinct G HG) as (Hgp & Hgd & Hpd & _).
  assert (forall db, hget k f
    (if String.eqb (ja_source_worker_id A) "" then db
     else hset_all (group_key G)
         [("plan_source_worker_id", ja_source_worker_id A);
          ("plan_source_endpoint", ja_source_endpoint A);
          ("plan_source_digest", ja_source_digest A)] db) = hget k f db) as ->.
  { intros db0. case_match; [done|]. rewrite hget_hset_all_if. case_decide; [|done].
    destruct Hk as [?|Hf]; [done|]. unfold assoc_last, plan_source_fields in *. simpl.
    rewrite !not_elem_of_cons in Hf. destruct Hf as (Hf1 & Hf2 & Hf3 & _).
    apply String.eqb_neq in Hf1, Hf2, Hf3. by rewrite Hf1, Hf2, Hf3. }
  rewrite !hget_hset. repeat case_decide; naive_solver.
Qed.

Lemma set_at_admit G A e k db : set_at k (admit_writes G A e db) = set_at k db.
Proof. unfold admit_writes. case_match; by rewrite ?set_at_hset_all, !set_at_hset. Qed.

Lemma admit_touch G A e (S : string -> Prop) db :
  plain_id G ->
  changes_only (hash_touch G S) (set_touch G S) db
    (join_admit (join_keys_of decl G (ja_worker_id A)) A e db).1.
Proof.
  intros HG. rewrite join_admit_writes. cbn [put_state fst].
  apply changes_hset; [by apply touch_root|]. unfold admit_writes.
  destruct (touch_root G S HG), (touch_parts G S HG), (touch_digests G S HG).
  case_match; eauto 10 with mx.
Qed.

(** A formed group has every slot. *)
Lemma formed_slot n G e db s :
  group_base decl n G db -> is_Some (hget (group_key G) "epoch" db) -> formed decl G e db ->
  s ∈ dc_slots (decl G) -> is_Some (hget (participants_key G) s db).
Proof.
  intros Hb Hr [Hfull _ _] Hs. rewrite <- hfields_lookup. apply elem_of_dom.
  assert (dom (hfields (participants_key G) db) = dc_slots (decl G)) as ->; [|done].
  apply set_subseteq_size_eq.
  - intros x [r Hx]%elem_of_dom. rewrite hfields_lookup in Hx. by apply (gb_slots _ _ _ _ Hb Hr x r).
  - rewrite size_dom. unfold expected in Hfull. lia.
Qed.

(** The slot is taken by the same worker if the group is already formed. *)
Definition same_member (G : string) (A : join_args) (e : Z) db : Prop :=
  formed decl G e db -> ∃ r role index je,
    hget (participants_key G) (ja_slot_id A) db = Some r ∧
    parse_participant r = Some (ja_worker_id A, role, index, je).

Lemma admit_anchored G A e db :
  plain_id G -> join_args_ok decl G A -> (1 <= e < lua_concat_max)%Z ->
  anchored decl G e db -> anchored decl G e (admit_writes G A e db).
Proof.
  intros HG HA He []. split.
  - intros s r'. rewrite hget_admit by (done || left; key_ne).
    case_decide; [intros [= <-]|].
    + do 4 eexists. split; [by apply (member_record_parse G); [|lia]|].
      apply tonumber_decimal. unfold lua_concat_max, lua_int_max in *. lia.
    + rewrite decide_False; [eauto|]. intros [Hk _]. revert Hk. key_ne.
  - intros i Hi. rewrite (lane_stamp_ext _ db); [auto|]. intros f.
    rewrite hget_admit by (done || left; key_ne).
    rewrite !decide_False; [done|..]; intros [Hk _]; revert Hk; key_ne.
Qed.

Lemma admit_formed G A e db :
  plain_id G -> join_args_ok decl G A -> (1 <= e < lua_concat_max)%Z ->
  same_member G A e db -> formed decl G e db -> formed decl G e (admit_writes G A e db).
Proof.
  intros HG HA He Hsame Hfm. destruct (Hsame Hfm) as (r & ro & ix & je & Hr & Hp).
  destruct (admit_anchored G A e db HG HA He (formed_anchored _ _ _ Hfm)) as [Hack Hlanes].
  split; [|done..]. rewrite <- (fm_full _ _ _ _ Hfm).
  assert (hfields (participants_key G) (admit_writes G A e db) =
    <[ja_slot_id A := member_record A e]> (hfields (participants_key G) db)) as ->.
  { apply map_eq. intros f. rewrite hfields_lookup, hget_admit by (done || left; key_ne).
    destruct (decide (f = ja_slot_id A)) as [->|Hne].
    - by rewrite decide_True, lookup_insert_eq.
    - rewrite !decide_False by naive_solver. by rewrite lookup_insert_ne, hfields_lookup. }
  rewrite map_size_insert_Some; [done|rewrite hfields_lookup; eauto].
Qed.

Lemma admit_admitted G A e db w :
  plain_id G -> join_args_ok decl G A -> (1 <= e < lua_concat_max)%Z ->
  same_member G A e db -> formed decl G e db -> admitted G db w ->
  admitted G (admit_writes G A e db) w.
Proof.
  intros HG HA He Hsame Hfm (s & r & ro & ix & je & Hs & Hp).
  destruct (decide (s = ja_slot_id A)) as [->|Hne].
  - destruct (Hsame Hfm) as (r' & ro' & ix' & je' & Hr' & Hp'). simplify_eq.
    exists (ja_slot_id A), (member_record A e), (ja_role A), (ja_index A), (decimal e).
    rewrite hget_admit, decide_True by (done || left; key_ne).
    split; [done|]. apply (member_record_parse G); [done|lia].
  - exists s, r, ro, ix, je. rewrite hget_admit by (done || left; key_ne).
    rewrite !decide_False; [done|naive_solver..].
Qed.

Lemma admit_base n G A e db :
  plain_id G -> group_base decl n G db -> ja_slot_id A ∈ dc_slots (decl G) ->
  group_base decl n G (admit_writes G A e db).
Proof.
  intros HG [] Hslot.
  assert (forall f, f ∉ plan_source_fields ->
    hget (group_key G) f (admit_writes G A e db) = hget (group_key G) f db) as Hr.
  { intros f Hf. rewrite hget_admit by auto.
    rewrite !decide_False; [done|..]; intros [Hk _]; revert Hk; key_ne. }
  assert (forall o f, hget (operation_key o) f (admit_writes G A e db) =
    hget (operation_key o) f db) as Ho.
  { intros o f. rewrite hget_admit by (done || left; key_ne).
    rewrite !decide_False; [done|..]; intros [Hk _]; revert Hk; key_ne. }
  assert (forall i f, hget (lane_key G i) f (admit_writes G A e db) =
    hget (lane_key G i) f db) as Hl.
  { intros i f. rewrite hget_admit by (done || left; key_ne).
    rewrite !decide_False; [done|..]; intros [Hk _]; revert Hk; key_ne. }
  split.
  - intros v. rewrite Hr by set_solver. eauto.
  - rewrite !Hr by set_solver. eauto.
  - rewrite Hr by set_solver. intros Hroot s r. rewrite hget_admit by (done || left; key_ne).
    case_decide as Hd; [by destruct Hd as [_ ->]|].
    rewrite decide_False by (intros [Hk _]; revert Hk; key_ne). eauto.
  - intros e'. unfold epoch_of. rewrite Hr by set_solver. intros He i f v Hi. rewrite Hl.
    rewrite (lane_stamp_ext _ db) by auto. eauto.
  - unfold op_of, op_active. intros o. rewrite !Ho, set_at_admit. eauto.
  - unfold op_of. intros o. rewrite !Ho, set_at_admit. eauto.
  - unfold op_of, op_active in *. intros o o'. rewrite !Ho. eauto.
Qed.

Lemma admit_inv n G A e db :
  plain_id G -> join_args_ok decl G A -> (n < lua_concat_max)%Z ->
  group_base decl n G db -> ops_current decl D G db -> epoch_of G db = Some e ->
  ja_slot_id A ∈ dc_slots (decl G) -> same_member G A e db ->
  group_inv decl D n G (join_admit (join_keys_of decl G (ja_worker_id A)) A e db).1.
Proof.
  intros HG HA Hn Hb Hc He Hslot Hsame. rewrite join_admit_writes.
  assert (n <= lua_int_max)%Z as Hn' by (unfold lua_concat_max, lua_int_max in *; lia).
  destruct (epoch_of_Some _ _ _ _ Hn' Hb He) as [Hev Hen].
  assert (epoch_of G (admit_writes G A e db) = Some e) as He'.
  { unfold epoch_of. rewrite hget_admit by (done || right; set_solver).
    rewrite !decide_False; [done|..]; intros [Hk _]; revert Hk; key_ne. }
  apply put_state_inv; [done|lia|by apply admit_base| |done|].
  - intros e'' o. rewrite He'. intros [= <-]. unfold op_of, op_active.
    rewrite !hget_admit, set_at_admit by (done || left; key_ne).
    repeat rewrite (decide_False (P := _ ∧ _)) by (intros [Hk _]; revert Hk; key_ne).
    intros Hpo Hoo Ha. destruct (Hc e o He Hpo Hoo Ha) as (Han & Hoe & Hfull). split_and!.
    + apply admit_anchored; auto. lia.
    + done.
    + intros [Hfm Hw]%Hfull. split; [apply admit_formed; auto; lia|].
      intros w Hin. apply admit_admitted; auto. lia.
  - by rewrite (jo_total _ _ _ HA).
Qed.

(** ** The life of operations under a script of the group *)

(** Operations keep everything but their state and message; none is created,
    revived or removed, and no report is lost. *)
Record ops_kept db db' : Prop := {
  ok_fields : forall o f, f ∉ abort_fields ->
    hget (operation_key o) f db' = hget (operation_key o) f db;
  ok_state : forall o, hget (operation_key o) "state" db' = hget (operation_key o) "state" db ∨
    hget (operation_key o) "state" db' = aborted (hget (operation_key o) "state" db);
  ok_message : forall o, hget (operation_key o) "failure_message" db' = None ->
    hget (operation_key o) "failure_message" db = None;
  ok_final : forall o f, is_active (hget (operation_key o) "state" db) = false ->
    hget (operation_key o) f db' = hget (operation_key o) f db;
  ok_reports : forall o, plain_id o -> set_at (reported_key o) db' = set_at (reported_key o) db
}.

Lemma ops_kept_trans db1 db2 db3 : ops_kept db1 db2 -> ops_kept db2 db3 -> ops_kept db1 db3.
Proof.
  intros [F1 S1 M1 L1 R1] [F2 S2 M2 L2 R2]. split.
  - intros o f Hf. by rewrite F2, F1.
  - intros o. destruct (S2 o) as [->| ->], (S1 o) as [->| ->]; auto using aborted_idem.
  - eauto.
  - intros o f Hi. rewrite L2, L1; [done..|]. by rewrite L1.
  - intros o Ho. by rewrite R2, R1.
Qed.

Lemma ops_kept_same db db' :
  (forall o f, hget (operation_key o) f db' = hget (operation_key o) f db) ->
  (forall o, plain_id o -> set_at (reported_key o) db' = set_at (reported_key o) db) ->
  ops_kept db db'.
Proof. intros Ho Hr. split; auto. intros o. by rewrite Ho. Qed.

Lemma ops_kept_abort G db :
  plain_id G -> ops_kept db (abort_stale_ops (active_ops_key G) OPERATION_KEY_PREFIX db).
Proof.
  intros HG. destruct (abort_ops_fold (active_ops_key G) (smembers (active_ops_key G) db) db)
    as (_ & I2 & I3 & I4). split.
  - intros o f Hf. by apply I2.
  - intros o. unfold abort_stale_ops. rewrite I3. case_decide; auto.
  - intros o. unfold abort_stale_ops. generalize (smembers (active_ops_key G) db). intros l.
    clear I2 I3 I4. revert db. induction l as [|o' l IH]; intros db; cbn [foldl]; [done|].
    intros Hm%IH. rewrite hget_abort_op in Hm. by case_decide.
  - intros o f. unfold abort_stale_ops. generalize (smembers (active_ops_key G) db). intros l.
    clear I2 I3 I4. revert db. induction l as [|o' l IH]; intros db Hi; cbn [foldl]; [done|].
    assert (forall f', hget (operation_key o) f' (abort_op (active_ops_key G) OPERATION_KEY_PREFIX
      db o') = hget (operation_key o) f' db) as Hsame.
    { intros f'. rewrite hget_abort_op, decide_False; [done|]. intros (_ & _ & ?). congruence. }
    rewrite IH by by rewrite Hsame. apply Hsame.
  - intros o Ho. unfold abort_stale_ops. rewrite I4, decide_False by key_ne. done.
Qed.

Lemma ops_kept_reports db db' : ops_kept db db' -> reports_clean db -> reports_clean db'.
Proof.
  intros [F S M L R] Hc o Ho Hnone. rewrite R by done. apply Hc; [done|]. intros f.
  destruct (decide (f = "state")) as [->|H1'].
  { destruct (S o) as [Heq|Heq]; rewrite Hnone in Heq; [done|].
    unfold aborted in Heq. by destruct (is_active _). }
  destruct (decide (f = "failure_message")) as [->|H2']; [by apply M|].
  rewrite <- F by set_solver. done.
Qed.

Lemma aborted_known s t :
  aborted s = Some t -> (forall u, s = Some u -> is_active (Some u) = true ∨ is_terminal u = true) ->
  is_active (Some t) = true ∨ is_terminal t = true.
Proof.
  unfold aborted. destruct (is_active s) eqn:E; [intros [= <-] _; by right|]. intros Hs Hk. eauto.
Qed.

Lemma ops_kept_states db db' : ops_kept db db' -> states_known db -> states_known db'.
Proof.
  intros [F S M L R] Hk o s Ho Hs. destruct (S o) as [Heq|Heq]; rewrite Heq in Hs.
  - by apply (Hk o).
  - eapply aborted_known; [exact Hs|]. intros u. by apply Hk.
Qed.

(** The frame of the other groups, for a script that only touches operations of its own. *)
Lemma own_ops_frame G G' db db' :
  plain_id G' -> G' ≠ G ->
  changes_only (hash_touch G (fun o => op_of G o db)) (set_touch G (fun o => op_of G o db)) db db' ->
  (forall o, plain_id o -> op_of G o db -> ~ op_of G' o db') ->
  group_frame G' db db'.
Proof.
  intros HG' Hne Hc Hop. eapply other_group_frame; [done..|exact Hc|].
  intros o Ho HS. split; [|by apply Hop]. unfold op_of in *. congruence.
Qed.

(** What a rule of the machine has to show for its group. *)
Lemma own_step_inv n G db db' :
  (0 <= n)%Z -> db_inv decl D n db ->
  group_inv decl D (n + 1) G db' ->
  changes_only (hash_touch G (fun o => op_of G o db)) (set_touch G (fun o => op_of G o db)) db db' ->
  ops_kept db db' -> db_inv decl D (n + 1) db'.
Proof.
  intros Hn (Hinv & Hrep & Hst) HG' Hc Hk.
  split_and!; [|by eapply ops_kept_reports|by eapply ops_kept_states].
  intros G' Hp'. destruct (decide (G' = G)) as [->|Hne]; [done|].
  eapply group_inv_mono with (n := n); [lia|]. eapply group_inv_frame; [|by apply Hinv].
  apply own_ops_frame with (G := G); try done.
  intros o Ho Hof. unfold op_of in *. rewrite (ok_fields _ _ Hk) by set_solver. congruence.
Qed.

(** ** Joining *)

Lemma new_epoch_kept G fvs db : plain_id G -> ops_kept db (new_epoch G fvs db).
Proof.
  intros HG. unfold new_epoch. eapply ops_kept_trans; [|by apply ops_kept_abort].
  apply ops_kept_same.
  - intros o f. apply hget_before_abort; [done|intros i; key_ne|key_ne].
  - intros o Ho. apply set_at_before_abort; [done|]. intros i. key_ne.
Qed.

Lemma group_sweep_kept G m rb db : plain_id G -> ops_kept db (group_sweep G m rb db).1.
Proof.
  intros HG. apply ops_kept_same.
  - intros. apply group_sweep_other; [done|key_ne..].
  - intros. by apply group_sweep_sets.
Qed.

Lemma join_admit_kept G A e db :
  plain_id G -> ops_kept db (join_admit (join_keys_of decl G (ja_worker_id A)) A e db).1.
Proof.
  intros HG. rewrite join_admit_writes. cbn [put_state fst]. apply ops_kept_same.
  - intros o f. rewrite hget_hset, decide_False by (intros [Hk _]; revert Hk; key_ne).
    rewrite hget_admit by (done || left; key_ne).
    rewrite !decide_False; [done|..]; intros [Hk _]; revert Hk; key_ne.
  - intros o _. rewrite set_at_hset. apply set_at_admit.
Qed.

Section create.
Context (n : Z) (G : string) (A : join_args) (db : DB).
Context (HG : plain_id G) (HA : join_args_ok decl G A) (Hb : group_base decl n G db).

Definition wiped : DB :=
  del_all (lane_keys decl G) (redis_del (digests_key G) (redis_del (participants_key G) db)).

Lemma join_create_wiped :
  join_create (join_keys_of decl G (ja_worker_id A)) A db =
  hset_all (group_key G)
    [("group_id", ja_group_id A); ("model_name", ja_model_name A); ("lanes", ja_lanes A);
     ("expected_total", ja_expected_total A);
     ("expected_trainer_slots", ja_trainer_slots A);
     ("expected_generator_slots", ja_generator_slots A);
     ("plan_digest", ja_plan_digest A); ("epoch", lua_arg 1); ("state", "FORMING");
     ("plan_source_worker_id", ""); ("plan_source_endpoint", ""); ("plan_source_digest", "");
     ("created_at_unix_ms", ja_created_at A)]
    (abort_stale_ops (active_ops_key G) OPERATION_KEY_PREFIX wiped).
Proof. unfold join_create. by rewrite (jo_prefix _ _ _ HA). Qed.

Lemma wiped_op o f : hget (operation_key o) f wiped = hget (operation_key o) f db.
Proof.
  unfold wiped. rewrite hget_del_all, decide_False by (apply not_lane_key; intros i; key_ne).
  rewrite !hget_del, !decide_False by key_ne. done.
Qed.

Lemma wiped_set k :
  key_parts k = None ∨ k = active_ops_key G -> set_at k wiped = set_at k db.
Proof.
  intros Hk.
  assert (forall l, key_parts k = Some (G :: l) -> l = ["ops"]) as Hl.
  { intros l Hl. destruct Hk as [Hn| ->]; [congruence|].
    rewrite parts_active_ops in Hl by done. congruence. }
  unfold wiped. rewrite set_at_del_all, decide_False.
  2:{ intros (i & -> & _)%lane_keys_inv. specialize (Hl _ (parts_lane G HG i)). done. }
  rewrite !set_at_del, !decide_False; [done|..].
  - intros ->. specialize (Hl _ (parts_participants G HG)). done.
  - intros ->. specialize (Hl _ (parts_digests G HG)). done.
Qed.

Lemma join_create_inv :
  (0 <= n < lua_int_max)%Z ->
  group_inv decl D (n + 1) G (join_create (join_keys_of decl G (ja_worker_id A)) A db).
Proof.
  intros Hn. rewrite join_create_wiped. set (fvs := [_; _; _; _; _; _; _; _; _; _; _; _; _]).
  destruct (abort_stale_ops_effect (active_ops_key G) wiped) as (I1 & I2 & I3 & I4).
  assert (forall f v, assoc_last f fvs = Some v -> hget (group_key G) f
    (hset_all (group_key G) fvs (abort_stale_ops (active_ops_key G) OPERATION_KEY_PREFIX wiped)) =
    Some v) as Hroot.
  { intros f v Hf. rewrite hget_hset_all_if, decide_True by done. by rewrite Hf. }
  assert (forall k f, k ≠ group_key G -> (forall o, k ≠ operation_key o) -> hget k f
    (hset_all (group_key G) fvs (abort_stale_ops (active_ops_key G) OPERATION_KEY_PREFIX wiped)) =
    hget k f wiped) as Hoth.
  { intros k f Hk Hko. rewrite hget_hset_all_ne by done. apply I1. auto. }
  apply (fresh_epoch_inv _ _ 1).
  - rewrite (Hroot _ (lua_arg 1)) by done. f_equal. apply lua_arg_decimal. unfold lua_int_max. lia.
  - lia.
  - lia.
  - rewrite (Hroot _ (ja_expected_total A)) by done. by rewrite (jo_total _ _ _ HA).
  - rewrite (Hroot _ (ja_lanes A)) by done. by rewrite (jo_lanes _ _ _ HA).
  - by apply Hroot.
  - intros s r. rewrite Hoth by first [key_ne | intros o; key_ne]. unfold wiped.
    rewrite hget_del_all, decide_False by (apply not_lane_key; intros i; key_ne).
    rewrite !hget_del. by repeat case_decide.
  - intros i f Hi. rewrite Hoth by first [key_ne | intros o; key_ne]. unfold wiped.
    by rewrite hget_del_all, decide_True by by apply lane_key_in.
  - intros o Ho. unfold op_of, op_active. rewrite !hget_hset_all_ne by key_ne.
    rewrite I2, I3, !wiped_op by set_solver. intros Hof Hact.
    rewrite wiped_set in Hact by auto. case_decide as Hin; [by rewrite aborted_inactive in Hact|].
    by apply Hin, (gb_ops _ _ _ _ Hb).
  - intros o. rewrite set_at_hset_all, I4, decide_True by done. set_solver.
Qed.

Lemma join_create_touch :
  changes_only (hash_touch G (fun o => op_of G o db)) (set_touch G (fun o => op_of G o db)) db
    (join_create (join_keys_of decl G (ja_worker_id A)) A db).
Proof.
  rewrite join_create_wiped. apply changes_hset_all; [by apply touch_root|].
  apply abort_touch; [done| |].
  - intros o. rewrite wiped_set by auto. intros Hin. by apply (gb_active _ _ _ _ Hb).
  - unfold wiped. apply changes_del_all; [intros k Hk; by apply touch_lanes|].
    apply changes_del; [by apply touch_digests..|]. apply changes_del; [by apply touch_parts..|]. done.
Qed.

Lemma join_create_kept : ops_kept db (join_create (join_keys_of decl G (ja_worker_id A)) A db).
Proof.
  rewrite join_create_wiped. eapply ops_kept_trans; [|apply ops_kept_same].
  - eapply ops_kept_trans; [|by apply (ops_kept_abort G)]. apply ops_kept_same; [apply wiped_op|].
    intros. apply wiped_set. by left.
  - intros. apply hget_hset_all_ne. key_ne.
  - intros. apply set_at_hset_all.
Qed.

Lemma join_create_empty s :
  hget (participants_key G) s (join_create (join_keys_of decl G (ja_worker_id A)) A db) = None.
Proof.
  rewrite join_create_wiped, hget_hset_all_ne by key_ne.
  destruct (abort_stale_ops_effect (active_ops_key G) wiped) as (I1 & _).
  rewrite I1 by (intros o _; key_ne). unfold wiped.
  rewrite hget_del_all, decide_False by (apply not_lane_key; intros i; key_ne).
  rewrite !hget_del. by repeat case_decide.
Qed.

Lemma join_create_epoch :
  epoch_of G (join_create (join_keys_of decl G (ja_worker_id A)) A db) = Some 1%Z.
Proof.
  rewrite join_create_wiped. apply epoch_of_decimal; [unfold lua_int_max; lia|].
  rewrite hget_hset_all_if, decide_True by done. simpl. f_equal.
  apply lua_arg_decimal. unfold lua_int_max. lia.
Qed.
End create.

Lemma db_inv_mono n n' db : (n <= n')%Z -> db_inv decl D n db -> db_inv decl D n' db.
Proof. intros Hn (Hi & ? & ?). split_and!; [|done..]. intros G HG. eapply group_inv_mono; eauto. Qed.

(** More losses on record, for the epochs that groups are in. *)
Lemma db_inv_losses (D' : losses) n db :
  (forall G e, epoch_of G db = Some e -> D G e -> D' G e) ->
  db_inv decl D n db -> db_inv decl D' n db.
Proof.
  intros HD (Hi & ? & ?). split_and!; [|done..]. intros G HG. destruct (Hi G HG) as [Hb Hc Hr].
  split; [done|intros e o He Hpo Hoo Ha|intros e He Hst].
  - destruct (Hc e o He Hpo Hoo Ha) as (? & ? & Hfull). split_and!; [done..|].
    intros HD'. apply Hfull. eauto.
  - destruct (Hr e He Hst) as (? & ? & Hfull). split_and!; [done..|].
    intros HD'. apply Hfull. eauto.
Qed.

(** A formed group has a lane with fields. *)
Lemma formed_lane G e db :
  formed decl G e db -> ∃ i v, i ∈ dc_lanes (decl G) ∧ hget (lane_key G i) "bootstrap_epoch" db = Some v.
Proof.
  intros []. destruct (dc_lanes (decl G)) as [|i l] eqn:E; [by destruct (decl_lanes G)|].
  specialize (fm_lanes i ltac:(set_solver)). unfold lane_stamp in fm_lanes.
  destruct (hget (lane_key G i) "bootstrap_epoch" db) as [v|] eqn:Ev; [|done].
  exists i, v. split; [set_solver|done].
Qed.

Lemma join_slot_error A o e : join_slot A o = Err e -> starts_with "OK:" e = false.
Proof.
  unfold join_slot. destruct o as [r|]; [|done].
  destruct (parse_participant r) as [[[[]]]|]; [|by intros [= <-]].
  case_match; [by intros [= <-]|]. by case_match.
Qed.

Lemma join_others_error A l e : join_others A l = Some e -> starts_with "OK:" e = false.
Proof.
  induction l as [|[s r] l IH]; simpl; [done|]. case_match; [done|].
  destruct (parse_participant r) as [[[[]]]|]; [|by intros [= <-]].
  repeat (case_match; [by intros [= <-]|]). done.
Qed.

(** Clearing the plan source changes nothing that matters. *)
Lemma plan_clear_frame G db : plain_id G -> group_frame G db (hset_all (group_key G) no_plan_source db).
Proof.
  intros HG. split_and!; intros; try (apply hget_hset_all_ne; key_ne).
  - by apply hget_no_plan_source.
  - apply set_at_hset_all.
  - split; [intros f; apply hget_hset_all_ne; key_ne|apply set_at_hset_all].
Qed.

(** The state after the sweep and the clearing of a replaced worker's plan source. *)
Definition join_swept (G : string) (A : join_args) (e : Z) db : DB * bool :=
  group_sweep G (Some (ja_model_name A))
    (needs_epoch_bump (group_key G) (lane_keys decl G) e db) db.

Definition join_cleared (G : string) (replaced : option string) db : DB :=
  match replaced with
  | None => db
  | Some w =>
      if bool_decide (hget (group_key G) "plan_source_worker_id" db = Some w)
      then hset_all (group_key G) no_plan_source db else db
  end.

Lemma join_cleared_frame G r db : plain_id G -> group_frame G db (join_cleared G r db).
Proof.
  intros HG. unfold join_cleared. destruct r as [w|]; [case_bool_decide|].
  - by apply plan_clear_frame.
  - by split_and!.
  - by split_and!.
Qed.

Lemma join_cleared_parts G r s db :
  plain_id G -> hget (participants_key G) s (join_cleared G r db) = hget (participants_key G) s db.
Proof. intros HG. by apply (join_cleared_frame G r db). Qed.

Lemma join_cleared_touch G r (S : string -> Prop) db db' :
  plain_id G -> changes_only (hash_touch G S) (set_touch G S) db db' ->
  changes_only (hash_touch G S) (set_touch G S) db (join_cleared G r db').
Proof.
  intros HG Hc. unfold join_cleared. destruct r as [w|]; [case_bool_decide|]; try done.
  apply changes_hset_all; [by apply touch_root|done].
Qed.

Lemma join_cleared_kept G r db : plain_id G -> ops_kept db (join_cleared G r db).
Proof.
  intros HG. unfold join_cleared. destruct r as [w|]; [case_bool_decide|];
    (apply ops_kept_same; intros; [|rewrite ?set_at_hset_all; done]);
    [apply hget_hset_all_ne; key_ne|done|done].
Qed.

(** The branch for a group with an epoch, by its result. *)
Lemma join_existing_cases G A e db :
  let r := join_existing (join_keys_of decl G (ja_worker_id A)) A e db in
  let sw := join_swept G A e db in
  (∃ err, r = (sw.1, Err err) ∧ starts_with "OK:" err = false) ∨
  (∃ rep, join_slot A (hget (participants_key G) (ja_slot_id A) sw.1) = Ok rep ∧
     let db2 := join_cleared G rep sw.1 in
     (∃ err, r = (db2, Err err) ∧ starts_with "OK:" err = false) ∨
     r = (db2, Ok ((if rep is Some _ then sw.2 || needs_epoch_bump (group_key G) (lane_keys decl G) e db
                    else sw.2) ||
                   bool_decide (hget (group_key G) "plan_digest" db2 ≠ Some (ja_plan_digest A))))).
Proof.
  intros r sw. subst r. unfold join_existing. cbn [join_keys_of jk_group jk_lanes jk_participants jk_digests].
  fold (group_sweep G (Some (ja_model_name A))
    (needs_epoch_bump (group_key G) (lane_keys decl G) e db) db).
  fold (join_swept G A e db). fold sw. destruct sw as [db1 ch]. cbn [fst snd].
  destruct (join_slot A (hget (participants_key G) (ja_slot_id A) db1)) as [rep|err] eqn:Es.
  - right. exists rep. split; [done|]. unfold join_cleared.
    destruct rep as [w|]; (destruct (join_others A _) as [err|] eqn:Eo;
      [left; exists err; split; [done|by eapply join_others_error]|right; done]).
  - left. exists err. split; [done|]. by eapply join_slot_error.
Qed.

(** After the checks of a join without a new epoch, the slot's member is the same
    worker if the group is formed. *)
Lemma join_same_member n G A e rep db :
  plain_id G -> group_base decl n G db -> epoch_of G db = Some e ->
  ja_slot_id A ∈ dc_slots (decl G) ->
  let sw := join_swept G A e db in
  join_slot A (hget (participants_key G) (ja_slot_id A) sw.1) = Ok rep ->
  (if rep is Some _ then sw.2 || needs_epoch_bump (group_key G) (lane_keys decl G) e db
   else sw.2) = false ->
  same_member G A e (join_cleared G rep sw.1).
Proof.
  intros HG Hb He Hslot sw Hjs Hch Hfm.
  assert (group_base decl n G (join_cleared G rep sw.1)) as Hb2.
  { eapply group_base_frame; [by apply join_cleared_frame|]. by apply group_sweep_base. }
  assert (is_Some (hget (group_key G) "epoch" (join_cleared G rep sw.1))) as Hroot.
  { destruct (join_cleared_frame G rep sw.1 HG) as (Hr & _). rewrite Hr by set_solver.
    unfold sw, join_swept. set (rb := needs_epoch_bump _ _ _ _).
    pose proof (group_sweep_effect G (Some (ja_model_name A)) rb db HG) as S.
    rewrite (sw_root _ _ _ _ _ _ _ _ _ _ S) by set_solver.
    unfold epoch_of in He. by destruct (hget (group_key G) "epoch" db). }
  destruct (formed_slot _ _ _ _ _ Hb2 Hroot Hfm Hslot) as [r Hr].
  rewrite join_cleared_parts in Hr by done. rewrite join_cleared_parts by done.
  destruct rep as [w|].
  - apply orb_false_iff in Hch as [_ Hnb].
    assert (formed decl G e db) as Hfm0%needs_bump_formed; [|congruence].
    destruct Hfm as [Hfull Hack Hlanes]. exfalso.
    destruct (dc_lanes (decl G)) as [|i l] eqn:E; [by destruct (decl_lanes G)|].
    unfold needs_epoch_bump in Hnb. apply orb_false_iff in Hnb as [_ Hnb].
    apply not_true_iff_false in Hnb. apply Hnb, any_lane_bootstrapped_true.
    exists (lane_key G i). split; [apply lane_key_in; rewrite E; set_solver|].
    rewrite <- (Hlanes i) by set_solver. symmetry. apply lane_stamp_ext. intros f.
    destruct (join_cleared_frame G (Some w) sw.1 HG) as (_ & _ & _ & Hl & _). rewrite Hl.
    apply group_sweep_other; [done|key_ne..].
  - unfold join_slot in Hjs. rewrite Hr in Hjs.
    destruct (parse_participant r) as [[[[w ro] ix] je]|] eqn:Ep; [|done].
    case_match; [done|]. destruct (String.eqb_spec w (ja_worker_id A)) as [->|]; [|done]. eauto 10.
Qed.

Lemma join_slot_known G A :
  join_args_ok decl G A ->
  contains_slot (if String.eqb (ja_role A) "TRAINER" then ja_trainer_slots A
                 else ja_generator_slots A) (ja_slot_id A) = true ->
  ja_slot_id A ∈ dc_slots (decl G).
Proof.
  intros HA Hin%bool_decide_eq_true. apply (jo_slots _ _ _ HA). case_match; auto.
Qed.

Lemma epoch_of_root G db e : epoch_of G db = Some e -> is_Some (hget (group_key G) "epoch" db).
Proof. unfold epoch_of. by destruct (hget (group_key G) "epoch" db). Qed.

Lemma group_frame_epoch G db db' : group_frame G db db' -> epoch_of G db' = epoch_of G db.
Proof. intros (Hr & _). unfold epoch_of. by rewrite Hr by set_solver. Qed.

(** The new epoch of a join. *)
Lemma join_bump_new_epoch G A e db :
  join_args_ok decl G A ->
  join_bump (join_keys_of decl G (ja_worker_id A)) A e db =
  new_epoch G ([("epoch", lua_arg e); ("plan_digest", ja_plan_digest A); ("state", "FORMING")]
                 ++ no_plan_source) db.
Proof. intros HA. unfold join_bump, new_epoch. by rewrite (jo_prefix _ _ _ HA). Qed.

Lemma new_epoch_epoch G fvs e db :
  plain_id G -> assoc_last "epoch" fvs = Some (decimal e) -> (0 <= e <= lua_int_max)%Z ->
  epoch_of G (new_epoch G fvs db) = Some e.
Proof.
  intros HG Hf He. apply epoch_of_decimal; [done|]. rewrite new_epoch_root by done. by rewrite Hf.
Qed.

Lemma new_epoch_not_formed G fvs e db :
  plain_id G -> ~ formed decl G e (new_epoch G fvs db).
Proof.
  intros HG (i & v & Hi & Hv)%formed_lane. by rewrite new_epoch_lane in Hv.
Qed.

Lemma touch_weaken G (S S' : string -> Prop) db db' :
  (forall o, S o -> S' o) ->
  changes_only (hash_touch G S) (set_touch G S) db db' ->
  changes_only (hash_touch G S') (set_touch G S') db db'.
Proof.
  intros HS [Hh Hs]. split.
  - intros k f Hk. apply Hh. intros [?|[? Ho]]; apply Hk; [by left|right]. split; [done|]. eauto.
  - intros k Hk. apply Hs. intros [?|[? Ho]]; apply Hk; [by left|right]. split; [done|]. eauto.
Qed.

Lemma kept_op_of db db' G o : ops_kept db db' -> op_of G o db' -> op_of G o db.
Proof. intros Hk. unfold op_of. by rewrite (ok_fields _ _ Hk) by set_solver. Qed.

(** What a join leaves: nothing, or one of its four ends. *)
Inductive join_result (G : string) (A : join_args) db : DB * string -> Prop :=
| jr_nothing reply : join_result G A db (db, reply)
| jr_refused e rep err :
    epoch_of G db = Some e -> starts_with "OK:" err = false ->
    join_result G A db (join_cleared G rep (join_swept G A e db).1, err)
| jr_bumped e rep :
    epoch_of G db = Some e -> ja_slot_id A ∈ dc_slots (decl G) ->
    join_result G A db
      (join_admit (join_keys_of decl G (ja_worker_id A)) A (e + 1)
         (join_bump (join_keys_of decl G (ja_worker_id A)) A (e + 1)
            (join_cleared G rep (join_swept G A e db).1)))
| jr_kept e rep :
    epoch_of G db = Some e -> ja_slot_id A ∈ dc_slots (decl G) ->
    join_slot A (hget (participants_key G) (ja_slot_id A) (join_swept G A e db).1) = Ok rep ->
    (if rep is Some _
     then (join_swept G A e db).2 || needs_epoch_bump (group_key G) (lane_keys decl G) e db
     else (join_swept G A e db).2) = false ->
    join_result G A db
      (join_admit (join_keys_of decl G (ja_worker_id A)) A e
         (join_cleared G rep (join_swept G A e db).1))
| jr_created :
    epoch_of G db = None -> ja_slot_id A ∈ dc_slots (decl G) ->
    join_result G A db
      (join_admit (join_keys_of decl G (ja_worker_id A)) A 1
         (join_create (join_keys_of decl G (ja_worker_id A)) A db)).

Lemma join_run_result G A db : join_args_ok decl G A -> join_result G A db (join_run decl G A db).
Proof.
  intros HA. unfold join_run, JOIN_GROUP_LUA. cbn [jk_group join_keys_of jk_registration].
  destruct (contains_slot _ _) eqn:Eslot; [|constructor].
  apply (join_slot_known G) in Eslot; [|done].
  destruct (registration_matches _ _ _ _ _); [|constructor].
  cbn [negb]. destruct (andb _ _) eqn:Eps; [constructor|]. clear Eps.
  fold (epoch_of G db). destruct (epoch_of G db) as [e|] eqn:He; [|by apply jr_created].
  destruct (join_existing_cases G A e db) as [(err & -> & Herr)|(rep & Hslot & Hcases)].
  { by apply (jr_refused G A db e None). }
  destruct Hcases as [(err & -> & Herr)| ->]; [by apply (jr_refused G A db e rep)|].
  destruct (orb _ _) eqn:Ech; [by apply jr_bumped|].
  apply orb_false_iff in Ech as [Ech _]. by apply jr_kept.
Qed.

(** Up to the decision: the sweep and the cleared plan source. *)
Definition join_prepared (G : string) (A : join_args) (e : Z) (rep : option string) db : DB :=
  join_cleared G rep (join_swept G A e db).1.

Lemma join_prepared_kept G A e rep db : plain_id G -> ops_kept db (join_prepared G A e rep db).
Proof.
  intros HG. eapply ops_kept_trans; [|by apply join_cleared_kept]. by apply group_sweep_kept.
Qed.

Lemma join_prepared_touch G A e rep (S : string -> Prop) db :
  plain_id G -> changes_only (hash_touch G S) (set_touch G S) db (join_prepared G A e rep db).
Proof. intros HG. apply join_cleared_touch; [done|]. by apply group_sweep_touch. Qed.

Lemma join_prepared_base n G A e rep db :
  plain_id G -> group_base decl n G db -> group_base decl n G (join_prepared G A e rep db).
Proof.
  intros HG Hb. eapply group_base_frame; [by apply join_cleared_frame|]. by apply group_sweep_base.
Qed.

Lemma join_prepared_epoch G A e rep db :
  plain_id G -> epoch_of G (join_prepared G A e rep db) = epoch_of G db.
Proof.
  intros HG. unfold join_prepared. rewrite (group_frame_epoch G (join_swept G A e db).1)
    by by apply join_cleared_frame. by apply group_sweep_epoch.
Qed.

Definition bump_fields (A : join_args) (e : Z) : list (string * string) :=
  [("epoch", lua_arg e); ("plan_digest", ja_plan_digest A); ("state", "FORMING")]
    ++ no_plan_source.

Lemma bump_fields_epoch A e :
  (0 <= e <= lua_int_max)%Z -> assoc_last "epoch" (bump_fields A e) = Some (decimal e).
Proof.
  intros He. change (Some (lua_arg e) = Some (decimal e)). f_equal. by apply lua_arg_decimal.
Qed.

Lemma join_run_kept G A db :
  plain_id G -> join_args_ok decl G A -> ops_kept db (join_run decl G A db).1.
Proof.
  intros HG HA. destruct (join_run_result G A db HA) as [reply|e rep err He Herr|e rep He Hs|
    e rep He Hs Hslot Hch|He Hs]; cbn [fst].
  - by apply ops_kept_same.
  - by apply join_prepared_kept.
  - rewrite join_bump_new_epoch by done. eapply ops_kept_trans; [by apply join_prepared_kept|].
    eapply ops_kept_trans; [|by apply join_admit_kept]. by apply new_epoch_kept.
  - eapply ops_kept_trans; [by apply join_prepared_kept|]. by apply join_admit_kept.
  - eapply ops_kept_trans; [by eapply join_create_kept|]. by apply join_admit_kept.
Qed.

Lemma join_created_not_formed G A e db :
  plain_id G -> join_args_ok decl G A ->
  ~ formed decl G e (join_create (join_keys_of decl G (ja_worker_id A)) A db).
Proof.
  intros HG HA (i & v & Hi & Hv)%formed_lane. revert Hv.
  rewrite (join_create_wiped G A db HA), hget_hset_all_ne by key_ne.
  destruct (abort_stale_ops_effect (active_ops_key G) (wiped G db)) as (I1 & _).
  rewrite I1 by (intros o _; key_ne). unfold wiped.
  by rewrite hget_del_all, decide_True by by apply lane_key_in.
Qed.

Section join_step.
Context (n : Z) (G : string) (A : join_args) (db : DB).
Context (HG : plain_id G) (HA : join_args_ok decl G A).
Context (Hn0 : (0 <= n)%Z) (Hn : (n + 1 < lua_concat_max)%Z) (Hinv : db_inv decl D n db).

Lemma join_max : (lua_concat_max <= lua_int_max)%Z.
Proof. unfold lua_concat_max, lua_int_max. lia. Qed.

Lemma join_refused_inv e rep :
  epoch_of G db = Some e ->
  (needs_epoch_bump (group_key G) (lane_keys decl G) e db = true -> forall s,
     is_Some (hget (participants_key G) s db) ->
     hget (participants_key G) s (join_prepared G A e rep db) = None -> D G e) ->
  group_inv decl D (n + 1) G (join_prepared G A e rep db).
Proof.
  intros He Hnote. eapply group_inv_frame; [by apply join_cleared_frame|].
  apply group_sweep_noted; [done..| |eapply (group_inv_mono n); [lia|by apply Hinv]].
  intros Hrb s Hs Hno. apply (Hnote Hrb s Hs). unfold join_prepared. by rewrite join_cleared_parts.
Qed.

Lemma join_bumped_inv e rep :
  epoch_of G db = Some e -> ja_slot_id A ∈ dc_slots (decl G) ->
  let db' := (join_admit (join_keys_of decl G (ja_worker_id A)) A (e + 1)
                (new_epoch G (bump_fields A (e + 1)) (join_prepared G A e rep db))).1 in
  group_inv decl D (n + 1) G db' ∧
  changes_only (hash_touch G (fun o => op_of G o db)) (set_touch G (fun o => op_of G o db)) db db'.
Proof.
  intros He Hs. pose proof join_max as Hmax. destruct Hinv as [Hgi _]. destruct (Hgi G HG) as [Hb _ _].
  destruct (epoch_of_Some n G db e ltac:(lia) Hb He) as [Hev Hen].
  pose proof (join_prepared_base n G A e rep db HG Hb) as Hb2.
  pose proof (join_prepared_epoch G A e rep db HG) as He2. rewrite He in He2.
  pose proof (bump_fields_epoch A (e + 1) ltac:(lia)) as Hfe.
  assert (group_inv decl D (n + 1) G (new_epoch G (bump_fields A (e + 1))
    (join_prepared G A e rep db))) as [Hb3 Hc3 _].
  { apply (new_epoch_inv n G _ (e + 1)); try done; [by eapply epoch_of_root|lia|lia]. }
  split.
  - apply admit_inv; try done.
    + apply new_epoch_epoch; [done..|lia].
    + intros Hfm. by apply new_epoch_not_formed in Hfm.
  - eapply changes_trans; [by apply (join_prepared_touch G A e rep)|].
    eapply changes_trans; [|by apply admit_touch].
    eapply touch_weaken; [|by eapply new_epoch_touch].
    intros o. apply kept_op_of. by apply join_prepared_kept.
Qed.

Lemma join_kept_inv e rep :
  epoch_of G db = Some e -> ja_slot_id A ∈ dc_slots (decl G) ->
  join_slot A (hget (participants_key G) (ja_slot_id A) (join_swept G A e db).1) = Ok rep ->
  (if rep is Some _
   then (join_swept G A e db).2 || needs_epoch_bump (group_key G) (lane_keys decl G) e db
   else (join_swept G A e db).2) = false ->
  group_inv decl D (n + 1) G
    (join_admit (join_keys_of decl G (ja_worker_id A)) A e (join_prepared G A e rep db)).1.
Proof.
  intros He Hs Hslot Hch. destruct Hinv as [Hgi _]. destruct (Hgi G HG) as [Hb Hc _].
  apply (group_inv_mono n); [lia|]. apply admit_inv; try done; try lia.
  - by apply join_prepared_base.
  - eapply ops_current_frame; [by apply join_cleared_frame|].
    eapply group_sweep_current; try done. unfold join_swept in Hch.
    by destruct rep; [apply orb_false_iff in Hch as [Hch _]|].
  - by rewrite join_prepared_epoch.
  - by eapply join_same_member.
Qed.

Lemma join_step :
  (lossy_join decl G db (join_run decl G A db).1 -> forall e, epoch_of G db = Some e -> D G e) ->
  db_inv decl D (n + 1) (join_run decl G A db).1.
Proof.
  pose proof join_max as Hmax. pose proof (join_run_kept G A db HG HA) as Hkept. revert Hkept.
  pose proof (join_run_result G A db HA) as Hresult.
  remember (join_run decl G A db) as r eqn:Er.
  destruct Hresult as [reply|e rep err He Herr|e rep He Hs|
    e rep He Hs Hslot Hch|He Hs]; cbn [fst]; intros Hkept Hnote.
  - eapply db_inv_mono; [|done]. lia.
  - apply (own_step_inv n G db); try done; [|by apply join_prepared_touch].
    apply join_refused_inv; [done|]. intros Hrb s Hs Hno. apply Hnote; [|done].
    exists A, e, s. rewrite <- Er. by split_and!.
  - rewrite join_bump_new_epoch in Hkept |- * by done.
    destruct (join_bumped_inv e rep He Hs). by apply (own_step_inv n G db).
  - apply (own_step_inv n G db); try done; [by apply join_kept_inv|].
    eapply changes_trans; [by apply (join_prepared_touch G A e rep)|]. by apply admit_touch.
  - destruct Hinv as [Hgi _]. destruct (Hgi G HG) as [Hb _ _].
    pose proof (join_create_inv n G A db HG HA Hb ltac:(lia)) as [Hb3 Hc3 _].
    apply (own_step_inv n G db); try done.
    + apply admit_inv; try done; [by apply join_create_epoch|].
      intros Hfm. by apply join_created_not_formed in Hfm.
    + eapply changes_trans; [by eapply join_create_touch|]. by apply admit_touch.
Qed.
End join_step.

(** ** Refreshing *)

Lemma put_state_touch G (S : string -> Prop) e ready db db' :
  plain_id G -> changes_only (hash_touch G S) (set_touch G S) db db' ->
  changes_only (hash_touch G S) (set_touch G S) db (put_state (group_key G) e ready db').1.
Proof. intros HG Hc. apply changes_hset; [by apply touch_root|done]. Qed.

Lemma put_state_kept G e ready db : plain_id G -> ops_kept db (put_state (group_key G) e ready db).1.
Proof.
  intros HG. apply ops_kept_same; intros; cbn [put_state fst]; [|apply set_at_hset].
  rewrite hget_hset, decide_False; [done|]. intros [Hk _]. revert Hk. key_ne.
Qed.

Lemma expected_field n G db :
  group_base decl n G db -> is_Some (hget (group_key G) "epoch" db) ->
  (v ← hget (group_key G) "expected_total" db; lua_tonumber v) =
  lua_tonumber (decimal (expected decl G)).
Proof. intros Hb Hr. by destruct (gb_root _ _ _ _ Hb Hr) as [-> _]. Qed.

Lemma refresh_step n G db :
  plain_id G -> (0 <= n)%Z -> (n + 1 < lua_concat_max)%Z -> db_inv decl D n db ->
  db_inv decl D (n + 1) (refresh_run decl G db).1.
Proof.
  intros HG Hn0 Hn Hinv. pose proof Hinv as (Hgi & _). destruct (Hgi G HG) as [Hb Hc Hr].
  assert (lua_concat_max <= lua_int_max)%Z as Hmax by (unfold lua_concat_max, lua_int_max; lia).
  unfold refresh_run, REFRESH_GROUP_LUA. fold (epoch_of G db).
  destruct (epoch_of G db) as [e|] eqn:He; [|by apply (db_inv_mono n); [lia|]].
  destruct (epoch_of_Some n G db e ltac:(lia) Hb He) as [Hev Hen].
  set (m := hget (group_key G) "model_name" db).
  set (rb := needs_epoch_bump (group_key G) (lane_keys decl G) e db).
  fold (group_sweep G m rb db).
  pose proof (group_sweep_base n G m rb db HG Hb) as Hb1.
  pose proof (group_sweep_touch G (fun o => op_of G o db) m rb db HG) as Ht1.
  pose proof (group_sweep_kept G m rb db HG) as Hk1.
  pose proof (group_sweep_epoch G m rb db HG) as He1. rewrite He in He1.
  pose proof (group_sweep_current n G m e db HG Hb Hc He) as Hc1. cbn zeta in Hc1. fold rb in Hc1.
  destruct (group_sweep G m rb db) as [db1 ch]. cbn [fst snd] in *. destruct ch; cbn [fst snd].
  - unfold refresh_bump. fold (new_epoch G ([("epoch", lua_arg (e + 1)); ("state", "FORMING")]
      ++ no_plan_source) db1). set (fvs := _ ++ _).
    assert (assoc_last "epoch" fvs = Some (decimal (e + 1))) as Hfe.
    { change (Some (lua_arg (e + 1)) = Some (decimal (e + 1))). f_equal. apply lua_arg_decimal. lia. }
    assert (group_inv decl D (n + 1) G (new_epoch G fvs db1)) as [Hb2 Hc2 _].
    { apply (new_epoch_inv n G fvs (e + 1)); try done; [by eapply epoch_of_root|lia|lia]. }
    assert (epoch_of G (new_epoch G fvs db1) = Some (e + 1)%Z) as He2
      by (apply new_epoch_epoch; [done..|lia]).
    apply (own_step_inv n G db); try done.
    + rewrite (expected_field (n + 1)); [|done|by eapply epoch_of_root].
      apply put_state_inv; try done. lia.
    + apply put_state_touch; [done|]. eapply changes_trans; [exact Ht1|].
      eapply touch_weaken; [|by eapply new_epoch_touch]. intros o. by apply kept_op_of.
    + eapply ops_kept_trans; [|by apply put_state_kept].
      eapply ops_kept_trans; [done|by apply new_epoch_kept].
  - apply (own_step_inv n G db); try done.
    + rewrite (expected_field n); [|done|by eapply epoch_of_root].
      apply (group_inv_mono n); [lia|]. apply put_state_inv; try done; [lia|auto].
    + by apply put_state_touch.
    + eapply ops_kept_trans; [done|]. by apply put_state_kept.
Qed.

(** ** Publishing a bootstrap *)

Lemma publish_lane_inv n G e lane fvs db :
  plain_id G -> (n <= lua_int_max)%Z -> lane ∈ dc_lanes (decl G) ->
  group_base decl n G db -> ops_current decl D G db -> epoch_of G db = Some e ->
  assoc_last "bootstrap_epoch" fvs = Some (decimal e) -> lane_stamp (lane_key G lane) db ≠ Some e ->
  let db' := hset_all (lane_key G lane) fvs db in
  group_base decl n G db' ∧ ops_current decl D G db' ∧ epoch_of G db' = Some e.
Proof.
  intros HG Hn Hlane Hb Hc He Hf Hns db'.
  destruct (epoch_of_Some n G db e Hn Hb He) as [Hev Hen].
  assert (forall k f, k ≠ lane_key G lane -> hget k f db' = hget k f db) as Hoth
    by (intros; by apply hget_hset_all_ne).
  assert (forall k, set_at k db' = set_at k db) as Hsets by (intros; apply set_at_hset_all).
  assert (epoch_of G db' = Some e) as He' by (unfold epoch_of; by rewrite Hoth by key_ne).
  assert (lane_stamp (lane_key G lane) db' = Some e) as Hst.
  { unfold lane_stamp, db'. rewrite hget_hset_all_if, decide_True by done. rewrite Hf. simpl.
    apply tonumber_decimal. lia. }
  split_and!; [|intros e' o|done].
  - destruct Hb. split.
    + intros v. rewrite Hoth by key_ne. eauto.
    + rewrite !Hoth by key_ne. eauto.
    + rewrite Hoth by key_ne. intros Hr s r. rewrite Hoth by key_ne. eauto.
    + rewrite He'. intros e' [= <-] i f v Hi.
      destruct (decide (lane_key G i = lane_key G lane)) as [->|Hne]; [done|].
      rewrite Hoth by done. rewrite (lane_stamp_ext _ db) by auto. eauto.
    + unfold op_of, op_active. intros o. rewrite !Hoth, Hsets by key_ne. eauto.
    + unfold op_of. intros o. rewrite !Hoth, Hsets by key_ne. eauto.
    + unfold op_of, op_active in *. intros o o'. rewrite !Hoth by key_ne. eauto.
  - rewrite He'. intros [= <-]. unfold op_of, op_active. rewrite !Hoth by key_ne.
    intros Hpo Hoo Ha. destruct (Hc e o He Hpo Hoo Ha) as ([_ Hlanes] & _).
    by rewrite Hlanes in Hns.
Qed.

Lemma publish_step n G lane epoch w nid leader db :
  plain_id G -> lane ∈ dc_lanes (decl G) ->
  (0 <= n)%Z -> (n + 1 < lua_concat_max)%Z -> db_inv decl D n db ->
  db_inv decl D (n + 1) (publish_run decl G lane epoch w nid leader db).1.
Proof.
  intros HG Hlane Hn0 Hn Hinv. pose proof Hinv as (Hgi & _). destruct (Hgi G HG) as [Hb Hc Hr].
  assert (lua_concat_max <= lua_int_max)%Z as Hmax by (unfold lua_concat_max, lua_int_max; lia).
  assert (db_inv decl D (n + 1) db) as Hsame by (eapply db_inv_mono; [|done]; lia).
  unfold publish_run, PUBLISH_BOOTSTRAP_LUA. fold (epoch_of G db).
  destruct (epoch_of G db) as [e|] eqn:He; [|done].
  destruct (epoch_of_Some n G db e ltac:(lia) Hb He) as [Hev Hen].
  destruct (negb (bool_decide _)); [exact Hsame|].
  match goal with |- context [if negb ?b then _ else _] => destruct b end; [|exact Hsame].
  cbn [negb]. case_bool_decide as Hst;
    [cbn [andb]; destruct (negb _); [exact Hsame|]|cbn [andb]].
  - apply (own_step_inv n G db); try done.
    + rewrite (expected_field n); [|done|by eapply epoch_of_root].
      apply (group_inv_mono n); [lia|]. apply put_state_inv; try done. lia.
    + by apply put_state_touch.
    + by apply put_state_kept.
  - set (fvs := [_; _; _]).
    assert (assoc_last "bootstrap_epoch" fvs = Some (decimal e)) as Hf.
    { change (Some (lua_arg e) = Some (decimal e)). f_equal. apply lua_arg_decimal. lia. }
    destruct (publish_lane_inv n G e lane fvs db) as (Hb1 & Hc1 & He1); try done; [lia|].
    apply (own_step_inv n G db); try done.
    + rewrite (expected_field n); [|done|by eapply epoch_of_root].
      apply (group_inv_mono n); [lia|]. apply put_state_inv; try done. lia.
    + apply put_state_touch; [done|]. apply changes_hset_all; [by apply touch_lane|done].
    + eapply ops_kept_trans; [|by apply put_state_kept]. apply ops_kept_same; intros.
      * apply hget_hset_all_ne. key_ne.
      * apply set_at_hset_all.
Qed.
End invariant.
