(* ===== verification/CollectiveTransfers.v ===== *)
(** * Transfers, the environment, and the reachable states

    The scripts that create, report and delete a transfer preserve the invariant,
    so do evictions and the environment; hence it holds in every reachable state. *)

From Stdlib Require Import ZArith Lia Ascii String.
From stdpp Require Import base tactics option list gmap fin_maps fin_map_dom fin_sets strings.
From S2P Require Import Prelude RustStr RedisStore RedisServer CollectiveScripts.
From S2P Require Import CollectiveEffects CollectiveMachine CollectiveInvariant.

Section transfers.
Context {DB : Type} `{RedisServer DB, !RedisStoreLaws DB, !RedisServerLaws DB}.
Context `{LuaNumbers, !LuaNumbersLaws} `{LuaConcat, !LuaConcatLaws}.
Context (decl : string -> declaration) `{!DeclOk decl} (D : losses).
Implicit Types db : DB.

(** ** The environment *)

Lemma collective_parts k : is_Some (key_parts k) -> collective_key k.
Proof. by left. Qed.
Lemma collective_op o : plain_id o -> collective_key (operation_key o).
Proof. right. eauto. Qed.
Lemma collective_reported o : plain_id o -> collective_key (reported_key o).
Proof. right. eauto. Qed.

Lemma env_step n db db' :
  (forall k f, collective_key k -> hget k f db' = hget k f db) ->
  (forall k, collective_key k -> set_at k db' = set_at k db) ->
  db_inv decl D n db -> db_inv decl D n db'.
Proof.
  intros Hh Hs (Hgi & Hrep & Hst). split_and!.
  - intros G HG. eapply (group_inv_frame decl D); [|by apply Hgi].
    assert (forall l k, key_parts k = Some l -> collective_key k) as Hk by (intros; left; eauto).
    split_and!; intros.
    + by eapply Hh, Hk, parts_group.
    + by eapply Hh, Hk, parts_participants.
    + by eapply Hh, Hk, parts_digests.
    + by eapply Hh, Hk, parts_lane.
    + by eapply Hs, Hk, parts_active_ops.
    + split; [intros f; by apply Hh, collective_op|by apply Hs, collective_reported].
  - intros o Ho Hn. rewrite Hs by by apply collective_reported. apply Hrep; [done|].
    intros f. by rewrite <- Hh by by apply collective_op.
  - intros o s Ho. rewrite Hh by by apply collective_op. by apply Hst.
Qed.

(** Deleting a key that is not collective. *)
Lemma del_request n k db :
  request_like k -> db_inv decl D n db -> db_inv decl D n (redis_del k db).
Proof.
  intros Hk. apply env_step.
  - intros k' f Hk'. rewrite hget_del, decide_False; [done|]. by intros ->.
  - intros k' Hk'. rewrite set_at_del, decide_False; [done|]. by intros ->.
Qed.

(** ** Scripts that work on one operation *)

(** The rest of the server, for a script on the operation [o] of the group [G]. *)
Lemma one_op_inv n G o db db' :
  (0 <= n)%Z -> db_inv decl D n db ->
  group_inv decl D (n + 1) G db' ->
  changes_only (hash_touch G (fun o' => o' = o)) (set_touch G (fun o' => o' = o)) db db' ->
  (forall G', op_of G' o db -> G' = G) -> (forall G', op_of G' o db' -> G' = G) ->
  ((forall f, hget (operation_key o) f db' = None) -> set_at (reported_key o) db' = ∅) ->
  (forall s, hget (operation_key o) "state" db' = Some s ->
     is_active (Some s) = true ∨ is_terminal s = true) ->
  db_inv decl D (n + 1) db'.
Proof.
  intros Hn (Hgi & Hrep & Hst) HG' Hc Hof Hof' Hrep' Hst'.
  assert (forall o' f, plain_id o' -> o' ≠ o ->
    hget (operation_key o') f db' = hget (operation_key o') f db) as Hops.
  { intros o' f Hpo Hne. apply Hc. intros [[l Hl]|[_ Hx]]; [done|]. by apply Hne, Hx. }
  assert (forall o', plain_id o' -> o' ≠ o ->
    set_at (reported_key o') db' = set_at (reported_key o') db) as Hreps.
  { intros o' Hpo Hne. apply Hc. intros [[l Hl]|[_ Hx]]; [done|]. by apply Hne, Hx. }
  split_and!.
  - intros G' Hp'. destruct (decide (G' = G)) as [->|Hne]; [done|].
    apply (group_inv_mono decl D n); [lia|]. eapply (group_inv_frame decl D); [|by apply Hgi].
    eapply other_group_frame; [done|done|exact Hc|]. intros o' _ ->. naive_solver.
  - intros o' Hpo Hno. destruct (decide (o' = o)) as [->|Hne]; [auto|].
    rewrite Hreps by done. apply Hrep; [done|]. intros f. by rewrite <- Hops.
  - intros o' s Hpo. destruct (decide (o' = o)) as [->|Hne]; [auto|].
    rewrite Hops by done. by apply Hst.
Qed.

(** ** Creating a transfer *)

Definition op_fields (A : create_args) (epoch : string) : list (string * string) :=
  [("operation_id", ca_operation_id A); ("group_id", ca_group_id A); ("epoch", epoch);
   ("version_id", ca_version_id A); ("model_name", ca_model_name A);
   ("idempotency_key", ca_idempotency_key A); ("state", ca_state A);
   ("failure_message", ""); ("created_at_unix_ms", ca_created_at A)].

Definition created (G rk : string) (A : create_args) (epoch : string) db : DB :=
  sadd (active_ops_key G) (ca_operation_id A)
    (str_set rk (ca_operation_id A) (hset_all (operation_key (ca_operation_id A))
                                       (op_fields A epoch) db)).

Lemma hget_created G rk A epoch k f db :
  k ≠ operation_key (ca_operation_id A) -> hget k f (created G rk A epoch db) = hget k f db.
Proof.
  intros Hk. unfold created. rewrite hget_sadd, hget_str_set. by apply hget_hset_all_ne.
Qed.

Lemma hget_created_op G rk A epoch f v db :
  assoc_last f (op_fields A epoch) = Some v ->
  hget (operation_key (ca_operation_id A)) f (created G rk A epoch db) = Some v.
Proof.
  intros Hf. unfold created. rewrite hget_sadd, hget_str_set, hget_hset_all_if, decide_True by done.
  by rewrite Hf.
Qed.

Lemma set_at_created G rk A epoch k db :
  set_at k (created G rk A epoch db) =
  if decide (k = active_ops_key G) then {[ca_operation_id A]} ∪ set_at k db else set_at k db.
Proof. unfold created. by rewrite set_at_sadd, set_at_str_set, set_at_hset_all. Qed.

Lemma busy_op_None e active db o :
  busy_op OPERATION_KEY_PREFIX e active db = None -> o ∈ active -> op_active o db ->
  hget (operation_key o) "epoch" db ≠ Some e.
Proof.
  unfold busy_op. intros Hb Hin Ha He. apply (find_map_None_inv _ _ o) in Hb; [|done].
  cbv beta in Hb. change (OPERATION_KEY_PREFIX +:+ o) with (operation_key o) in Hb.
  rewrite He in Hb. unfold op_active in Ha. rewrite Ha in Hb.
  simpl in Hb. by rewrite bool_decide_eq_true_2 in Hb.
Qed.

Lemma created_group_inv n G rk A e db :
  plain_id G -> create_args_ok G A -> (0 <= n)%Z -> (n + 1 < lua_int_max)%Z -> db_inv decl D n db ->
  epoch_of G db = Some e -> hget (group_key G) "state" db = Some "READY" ->
  redis_exists (operation_key (ca_operation_id A)) db = false ->
  busy_op OPERATION_KEY_PREFIX (decimal e) (smembers (active_ops_key G) db) db = None ->
  group_inv decl D n G (created G rk A (decimal e) db).
Proof.
  intros HG [Hid Hgrp Hst Hpre] Hn0 Hn (Hgi & Hrep & _) He Hready Hex Hbusy.
  destruct (Hgi G HG) as [Hb Hc Hr]. set (o := ca_operation_id A) in *.
  rewrite redis_exists_false in Hex.
  destruct (epoch_of_Some decl n G db e ltac:(lia) Hb He) as [Hev Hen].
  destruct (Hr e He Hready) as (Han & Hag & Hfull).
  set (db' := created G rk A (decimal e) db).
  assert (forall k f, k ≠ operation_key o -> hget k f db' = hget k f db) as Hh
    by (intros; by apply hget_created).
  assert (forall f v, assoc_last f (op_fields A (decimal e)) = Some v ->
    hget (operation_key o) f db' = Some v) as Ho by (intros; by apply hget_created_op).
  assert (epoch_of G db' = Some e) as He' by (unfold epoch_of; by rewrite Hh by key_ne).
  assert (anchored decl G e db') as Han'.
  { eapply (anchored_ext decl); [..|exact Han]; intros; apply Hh; key_ne. }
  assert (~ D G e -> readiness (group_key G) (participants_key G) (digests_key G)
    (lane_keys decl G) (expected decl G) e None db') as Hready'.
  { intros Hx%Hfull. eapply readiness_ext; [apply Hh; key_ne| |exact Hx].
    intros k f [->|[->|(i & -> & _)%lane_keys_inv]]; apply Hh; key_ne. }
  assert (forall o', plain_id o' -> op_of G o' db -> op_active o' db -> False) as Hnone.
  { intros o' Hpo Hoo Ha. destruct (Hc e o' He Hpo Hoo Ha) as (_ & Hoe & _).
    eapply busy_op_None; [exact Hbusy| |exact Ha|exact Hoe].
    apply elem_of_smembers. by apply (gb_ops _ _ _ _ Hb). }
  assert (forall o', plain_id o' -> op_of G o' db' -> op_active o' db' -> o' = o) as Honly.
  { intros o' Hpo. unfold op_of, op_active. destruct (decide (o' = o)) as [->|Hne]; [done|].
    rewrite !Hh by (intros ?%operation_key_inj; done). intros. exfalso. eauto. }
  split; [destruct Hb; split| |].
  - intros v. rewrite Hh by key_ne. eauto.
  - rewrite !Hh by key_ne. eauto.
  - rewrite Hh by key_ne. intros Hroot s r. rewrite Hh by key_ne. eauto.
  - rewrite He'. intros e' [= <-] i f v Hi. rewrite Hh by key_ne.
    rewrite (lane_stamp_ext _ db) by (intros; apply Hh; key_ne). eauto.
  - intros o' Hpo Hoo Ha. unfold db'. rewrite (Honly o' Hpo Hoo Ha), set_at_created, decide_True by done.
    set_solver.
  - intros o'. unfold db'. rewrite set_at_created, decide_True by done. fold db'.
    intros [->%elem_of_singleton|Hin]%elem_of_union.
    + split; [done|]. unfold op_of. by rewrite (Ho _ (ca_group_id A)), Hgrp.
    + destruct (gb_active o' Hin) as [Hpo Hoo]. split; [done|]. unfold op_of in *.
      rewrite Hh; [done|]. intros ->%operation_key_inj. by rewrite Hex in Hoo.
  - intros o1 o2 Hp1 Hp2 Ho1 Ho2 Ha1 Ha2. by rewrite (Honly o1), (Honly o2).
  - intros e' o'. rewrite He'. intros [= <-] Hpo Hoo Ha. rewrite (Honly o' Hpo Hoo Ha).
    split_and!; [done|by apply Ho|]. intros Hx%Hready'. split; [by eapply readiness_formed|].
    unfold db'. rewrite set_at_created, decide_False by key_ne. rewrite Hrep by done. set_solver.
  - intros e' Hx Hs. rewrite He' in Hx. injection Hx as [= <-]. split_and!; [done| |done].
    intros s v. rewrite !Hh by key_ne. apply Hag.
Qed.

Definition open_run (G rk : string) (A : create_args) db : DB * string :=
  create_open (operation_key (ca_operation_id A)) rk (group_key G) (active_ops_key G) A db.

(** The cases of the script after the reservation check. *)
Lemma open_cases G rk A db :
  (open_run G rk A db).1 = db ∨
  ∃ v, open_run G rk A db = (created G rk A v db, "CREATED") ∧
    redis_exists (operation_key (ca_operation_id A)) db = false ∧
    hget (group_key G) "epoch" db = Some v ∧ hget (group_key G) "state" db = Some "READY" ∧
    lua_tonumber v = lua_tonumber (ca_expected_epoch A) ∧
    busy_op (ca_op_prefix A) v (smembers (active_ops_key G) db) db = None.
Proof.
  unfold open_run, create_open. destruct (redis_exists _ db) eqn:Hex; [by left|].
  destruct (hget (group_key G) "epoch" db) as [v|] eqn:Hv; [|by left]. cbn zeta.
  destruct (negb (String.eqb _ "READY")) eqn:Es; [by left|]. cbn [orb].
  destruct (negb (bool_decide _)) eqn:Eep; [by left|].
  destruct (busy_op _ _ _ _) eqn:Hbusy; [by left|]. right. exists v.
  apply negb_false_iff, String.eqb_eq in Es. apply negb_false_iff, bool_decide_eq_true in Eep.
  split_and!; try done. destruct (hget (group_key G) "state" db) as [st|]; simpl in Es; congruence.
Qed.

(** The states that the create script can leave. *)
Lemma create_cases G rk A db :
  (create_run G rk A db).1 = db ∨
  ∃ db1, (db1 = db ∨ db1 = redis_del rk db) ∧ create_run G rk A db = open_run G rk A db1.
Proof.
  unfold create_run, CREATE_TRANSFER_LUA. destruct (str_get rk db); [|eauto].
  destruct (redis_exists _ db); [by left|]. eauto.
Qed.

Lemma open_step n G rk A db :
  plain_id G -> create_args_ok G A -> (0 <= n)%Z -> (n + 1 < lua_int_max)%Z -> db_inv decl D n db ->
  db_inv decl D (n + 1) (open_run G rk A db).1.
Proof.
  intros HG HA Hn0 Hn Hinv.
  destruct (open_cases G rk A db) as [->|(v & -> & Hex & Hv & Hready & _ & Hbusy)].
  { apply (db_inv_mono decl D n); [lia|done]. }
  rewrite (co_prefix _ _ HA) in Hbusy. cbn [fst].
  pose proof Hinv as (Hgi & _). destruct (Hgi G HG) as [Hb _ _].
  destruct (gb_epoch _ _ _ _ Hb v Hv) as (e & -> & He).
  assert (epoch_of G db = Some e) as Hep by (apply epoch_of_decimal; [lia|done]).
  assert (forall f, hget (operation_key (ca_operation_id A)) f db = None) as Hno
    by by apply redis_exists_false.
  apply (one_op_inv n G (ca_operation_id A) db); try done.
  - apply (group_inv_mono decl D n); [lia|]. by apply created_group_inv.
  - unfold created. apply changes_sadd; [by apply touch_ops|]. apply changes_str_set.
    apply changes_hset_all; [by apply touch_op|]. done.
  - unfold op_of. intros G'. by rewrite Hno.
  - unfold op_of. intros G'. erewrite hget_created_op by done.
    rewrite (co_group _ _ HA). congruence.
  - intros Hnone. specialize (Hnone "state"). by erewrite hget_created_op in Hnone.
  - intros s. erewrite hget_created_op by done. rewrite (co_state _ _ HA). intros [= <-]. by left.
Qed.

Lemma create_step n G rk A db :
  plain_id G -> request_like rk -> create_args_ok G A ->
  (0 <= n)%Z -> (n + 1 < lua_int_max)%Z -> db_inv decl D n db ->
  db_inv decl D (n + 1) (create_run G rk A db).1.
Proof.
  intros HG Hrk HA Hn0 Hn Hinv.
  destruct (create_cases G rk A db) as [->|(db1 & Hdb1 & ->)].
  { apply (db_inv_mono decl D n); [lia|done]. }
  apply open_step; try done. destruct Hdb1 as [->| ->]; [done|]. by apply del_request.
Qed.

(** ** Reporting *)

Lemma report_scan_admitted ep w l db : forall adm,
  report_scan ep w adm l db = Some true -> adm = true ∨
  ∃ r role index je, r ∈ l ∧ parse_participant r = Some (w, role, index, je).
Proof.
  induction l as [|r l IH]; intros adm; cbn [report_scan]; [intros [= ->]; auto|].
  destruct (parse_participant r) as [[[[w' ro] ix] je]|] eqn:Ep; [|done].
  case_match; [done|]. intros [[->|Hw]%orb_true_iff|(r' & ro' & ix' & je' & Hin & Hr')]%IH; [auto|..].
  - apply String.eqb_eq in Hw as ->. right. exists r, ro, ix, je. set_solver.
  - right. exists r', ro', ix', je'. set_solver.
Qed.

(** A report that leaves the group alone: the operation changes its state, the
    reporter is recorded, and a finished operation is not active any more. *)
Lemma report_op_inv n G o w db db' :
  plain_id G -> plain_id o -> group_inv decl D n G db -> op_of G o db -> op_active o db ->
  admitted G db w ->
  (forall k f, k ≠ operation_key o ∨ f ∉ abort_fields -> hget k f db' = hget k f db) ->
  set_at (reported_key o) db' = {[w]} ∪ set_at (reported_key o) db ->
  (forall o', plain_id o' -> o' ≠ o ->
     set_at (reported_key o') db' = set_at (reported_key o') db) ->
  (forall o', o' ∈ set_at (active_ops_key G) db' -> o' ∈ set_at (active_ops_key G) db) ->
  (forall o', o' ∈ set_at (active_ops_key G) db -> o' ≠ o ∨ op_active o db' ->
     o' ∈ set_at (active_ops_key G) db') ->
  group_inv decl D n G db'.
Proof.
  intros HG Hpo [[] Hc Hr] Hoo Ha Hw Hh Hrep Hreps Hsub Hsup.
  assert (forall o' f, o' ≠ o -> hget (operation_key o') f db' = hget (operation_key o') f db) as Hops.
  { intros o' f Hne. apply Hh. left. by intros ?%operation_key_inj. }
  assert (forall o', op_of G o' db' -> op_of G o' db) as Hof.
  { unfold op_of. intros o'. by rewrite Hh by (right; set_solver). }
  assert (forall o', op_active o' db' -> op_active o' db) as Hact.
  { intros o'. destruct (decide (o' = o)) as [->|Hne]; [done|]. unfold op_active. by rewrite Hops. }
  assert (epoch_of G db' = epoch_of G db) as Hep by (unfold epoch_of; by rewrite Hh by (left; key_ne)).
  split; [split| |].
  - intros v. rewrite Hh by (left; key_ne). eauto.
  - rewrite !Hh by (left; key_ne). eauto.
  - rewrite Hh by (left; key_ne). intros Hroot s r. rewrite Hh by (left; key_ne). eauto.
  - rewrite Hep. intros e He i f v Hi. rewrite Hh by (left; key_ne).
    rewrite (lane_stamp_ext _ db) by (intros; apply Hh; left; key_ne). eauto.
  - intros o' Hpo' Hoo' Ha'. apply Hsup; [by apply gb_ops; auto|].
    destruct (decide (o' = o)) as [->|]; auto.
  - intros o' [Hpo' Hoo']%Hsub%gb_active. split; [done|]. unfold op_of in *.
    by rewrite Hh by (right; set_solver).
  - intros o1 o2 Hp1 Hp2 Ho1 Ho2 Ha1 Ha2. apply gb_single; auto.
  - intros e o'. rewrite Hep. intros He Hpo' Hoo' Ha'.
    assert (o' = o) as -> by (apply gb_single; auto).
    destruct (Hc e o He Hpo Hoo Ha) as (Han & Hoe & Hfull). split_and!.
    + eapply (anchored_ext decl); [..|exact Han]; intros; apply Hh; left; key_ne.
    + by rewrite Hh by (right; set_solver).
    + intros [Hfm Hadm]%Hfull. split.
      { eapply (formed_ext decl); [..|exact Hfm]; intros; apply Hh; left; key_ne. }
      intros w'. rewrite Hrep. intros Hin. eapply admitted_ext.
      * intros f. apply Hh. left. key_ne.
      * set_solver.
  - intros e. rewrite Hep. intros He Hst. rewrite Hh in Hst by (left; key_ne).
    destruct (Hr e He Hst) as (Han & Hag & Hfull). split_and!.
    + eapply (anchored_ext decl); [..|exact Han]; intros; apply Hh; left; key_ne.
    + intros s v. rewrite !Hh by (left; key_ne). apply Hag.
    + intros Hx%Hfull. eapply readiness_ext; [apply Hh; left; key_ne| |exact Hx].
      intros k f [->|[->|(i & -> & _)%lane_keys_inv]]; apply Hh; left; key_ne.
Qed.

(** A failed report moves the group to the next epoch. *)
Definition failed (G o w message : string) (e : Z) db : DB :=
  del_all (lane_keys decl G)
    (hset_all (group_key G) ([("epoch", lua_arg (e + 1)); ("state", "FORMING")] ++ no_plan_source)
      (srem (active_ops_key G) o
        (hset_all (operation_key o) [("state", "FAILED"); ("failure_message", message)]
          (sadd (reported_key o) w db)))).

Lemma hget_failed G o w message e k f db :
  plain_id G -> k ≠ group_key G -> (forall i, k ≠ lane_key G i) ->
  k ≠ operation_key o ∨ f ∉ abort_fields ->
  hget k f (failed G o w message e db) = hget k f db.
Proof.
  intros HG Hg Hl Ho. unfold failed. rewrite hget_del_all, decide_False by by apply not_lane_key.
  rewrite hget_hset_all_ne, hget_srem by done. rewrite hget_hset_all_if, hget_sadd.
  case_decide; [|done]. destruct Ho as [?|Hf]; [done|]. unfold assoc_last, abort_fields in *. simpl.
  rewrite !not_elem_of_cons in Hf. destruct Hf as (Hf1 & Hf2 & _).
  apply String.eqb_neq in Hf1, Hf2. by rewrite Hf1, Hf2.
Qed.

Lemma failed_inv n G o w message e db :
  plain_id G -> plain_id o -> group_inv decl D n G db -> op_of G o db -> op_active o db ->
  epoch_of G db = Some e -> (n + 1 <= lua_int_max)%Z ->
  group_inv decl D (n + 1) G (failed G o w message e db).
Proof.
  intros HG Hpo [Hb Hc Hr] Hoo Ha He Hn.
  destruct (epoch_of_Some decl n G db e ltac:(lia) Hb He) as [Hev Hen].
  destruct (gb_root _ _ _ _ Hb (epoch_of_root _ _ _ He)) as [Ht Hl].
  set (fvs := [("epoch", lua_arg (e + 1)); ("state", "FORMING")] ++ no_plan_source).
  assert (forall f, hget (group_key G) f (failed G o w message e db) =
    from_option Some (hget (group_key G) f db) (assoc_last f fvs)) as Hroot.
  { intros f. unfold failed. rewrite hget_del_all, decide_False
      by (apply not_lane_key; intros i; key_ne).
    rewrite hget_hset_all_if, decide_True, hget_srem, hget_hset_all_ne, hget_sadd by (done || key_ne).
    done. }
  apply (fresh_epoch_inv decl D _ _ (e + 1)); rewrite ?Hroot; try done.
  - change (Some (lua_arg (e + 1)) = Some (decimal (e + 1))). f_equal. apply lua_arg_decimal. lia.
  - lia.
  - intros s r. rewrite hget_failed by first [done | key_ne | left; key_ne | intros i; key_ne].
    apply (gb_slots _ _ _ _ Hb). by eapply epoch_of_root.
  - intros i f Hi. unfold failed. by rewrite hget_del_all, decide_True by by apply lane_key_in.
  - intros o' Hpo' Hoo' Ha'.
    assert (op_of G o' db) as Hoo0.
    { unfold op_of in *. rewrite hget_failed in Hoo'; [done|done|key_ne|intros i; key_ne|right; set_solver]. }
    destruct (decide (o' = o)) as [->|Hne].
    + unfold op_active, failed in Ha'.
      rewrite hget_del_all, decide_False in Ha' by (apply not_lane_key; intros i; key_ne).
      rewrite hget_hset_all_ne, hget_srem, hget_hset_all_if, decide_True in Ha' by (done || key_ne).
      done.
    + unfold op_active in Ha'. rewrite hget_failed in Ha'; [|done|key_ne|intros i; key_ne|].
      * apply Hne. by apply (gb_single _ _ _ _ Hb).
      * left. by intros ?%operation_key_inj.
  - intros o'. unfold failed. rewrite set_at_del_all, decide_False
      by (apply not_lane_key; intros i; key_ne).
    rewrite set_at_hset_all, set_at_srem, decide_True by done.
    rewrite set_at_hset_all, set_at_sadd, decide_False by key_ne.
    intros [Hin _]%elem_of_difference. destruct (gb_active _ _ _ _ Hb o' Hin) as [Hp' Ho'].
    split; [done|]. fold (failed G o w message e db). unfold op_of in *.
    rewrite hget_failed; [done|done|key_ne|intros i; key_ne|right; set_solver].
Qed.

(** The two reports that keep the group. *)
Definition running (o w : string) db : DB :=
  hset (operation_key o) "state" "RUNNING" (sadd (reported_key o) w db).
Definition complete (G o w : string) db : DB :=
  srem (active_ops_key G) o (hset (operation_key o) "state" "COMPLETE" (sadd (reported_key o) w db)).

Lemma hget_put_op_state o s k f db :
  hget k f (hset (operation_key o) "state" s db) =
  if decide (k = operation_key o ∧ f = "state") then Some s else hget k f db.
Proof. apply hget_hset. Qed.

Lemma report_touch G o w s db :
  plain_id G -> plain_id o ->
  changes_only (hash_touch G (fun o' => o' = o)) (set_touch G (fun o' => o' = o)) db
    (hset (operation_key o) "state" s (sadd (reported_key o) w db)).
Proof.
  intros HG Ho. apply changes_hset; [by apply touch_op|]. apply changes_sadd; [|done].
  right. split; [done|]. intros o' Ho' Heq. by apply reported_key_inj.
Qed.

Lemma running_inv n G o w db :
  plain_id G -> plain_id o -> group_inv decl D n G db -> op_of G o db -> op_active o db ->
  admitted G db w -> group_inv decl D n G (running o w db).
Proof.
  intros HG Hpo Hi Hoo Ha Hw. apply (report_op_inv n G o w db); try done; unfold running.
  - intros k f Hk. rewrite hget_put_op_state, decide_False, hget_sadd; [done|].
    intros [-> ->]. destruct Hk as [?|Hf]; [done|]. apply Hf. set_solver.
  - by rewrite set_at_hset, set_at_sadd, decide_True.
  - intros o' Hp' Hne. rewrite set_at_hset, set_at_sadd, decide_False; [done|].
    by intros ?%reported_key_inj.
  - intros o'. by rewrite set_at_hset, set_at_sadd, decide_False by key_ne.
  - intros o'. by rewrite set_at_hset, set_at_sadd, decide_False by key_ne.
Qed.

Lemma complete_inv n G o w db :
  plain_id G -> plain_id o -> group_inv decl D n G db -> op_of G o db -> op_active o db ->
  admitted G db w -> group_inv decl D n G (complete G o w db).
Proof.
  intros HG Hpo Hi Hoo Ha Hw. apply (report_op_inv n G o w db); try done; unfold complete.
  - intros k f Hk. rewrite hget_srem, hget_put_op_state, decide_False, hget_sadd; [done|].
    intros [-> ->]. destruct Hk as [?|Hf]; [done|]. apply Hf. set_solver.
  - rewrite set_at_srem, decide_False by key_ne. by rewrite set_at_hset, set_at_sadd, decide_True.
  - intros o' Hp' Hne. rewrite set_at_srem, decide_False by key_ne.
    rewrite set_at_hset, set_at_sadd, decide_False; [done|]. by intros ?%reported_key_inj.
  - intros o'. rewrite set_at_srem, decide_True, set_at_hset, set_at_sadd, decide_False
      by (done || key_ne). set_solver.
  - intros o' Hin Hcase. rewrite set_at_srem, decide_True, set_at_hset, set_at_sadd, decide_False
      by (done || key_ne). destruct Hcase as [?|Hact]; [set_solver|].
    unfold op_active in Hact. rewrite hget_srem, hget_put_op_state, decide_True in Hact by done. done.
Qed.

(** The cases of the report script that write. *)
Lemma report_cases G o epoch w succ msg db :
  let r := report_run decl G o epoch w succ msg db in
  (r.1 = db ∧ (op_active o db -> starts_with "OK:" r.2 = false)) ∨
  (∃ s v, hget (operation_key o) "state" db = Some s ∧ is_terminal s = false ∧ op_of G o db ∧
     hget (group_key G) "state" db = Some "READY" ∧ admitted G db w ∧
     hget (group_key G) "epoch" db = Some v ∧
     (r = (failed G o w msg (default 0%Z (lua_tonumber v)) db, "OK:FAILED") ∨
      (r = (complete G o w db, "OK:COMPLETE") ∧
       (v ← hget (group_key G) "expected_total" db; lua_tonumber v) =
       Some (Z.of_nat (size ({[w]} ∪ set_at (reported_key o) db)))) ∨
      r = (running o w db, "OK:RUNNING"))).
Proof.
  cbn zeta. unfold report_run, REPORT_TRANSFER_LUA.
  destruct (hget (operation_key o) "state" db) as [s|] eqn:Es; [|by left].
  destruct (negb (bool_decide _)) eqn:Egrp; [by left|].
  match goal with |- context [if negb ?b then (db, "OPSTALE:" +:+ _) else _] =>
    destruct b; cbn [negb]; [|by left] end.
  destruct (is_terminal s) eqn:Et.
  { left. split; [done|]. unfold op_active, is_active. rewrite Es.
    rewrite orb_true_iff, !bool_decide_eq_true. by intros [[= ->]|[= ->]]. }
  destruct (hget (group_key G) "epoch" db) as [v|] eqn:Ev; [|by left].
  destruct (negb (bool_decide (lua_tonumber v = _))) eqn:Eep; [by left|].
  destruct (negb (bool_decide (hget _ "state" _ = _))) eqn:Er; [by left|].
  destruct (report_scan _ _ _ _ _) as [[]|] eqn:Escan; [|by left|by left].
  right. apply negb_false_iff, bool_decide_eq_true in Egrp, Eep, Er.
  exists s, v. split_and!; try done.
  { apply report_scan_admitted in Escan as [|(r & ro & ix & je & (slot & Hin)%elem_of_hvals & Hp)];
      [done|]. by exists slot, r, ro, ix, je. }
  destruct (String.eqb succ "0"); [by left|]. right.
  case_bool_decide as Hcard; [left|by right]. split; [done|].
  rewrite hget_sadd, scard_size, set_at_sadd, decide_True in Hcard by done. done.
Qed.

Lemma active_of_not_terminal o s db :
  states_known db -> plain_id o -> hget (operation_key o) "state" db = Some s ->
  is_terminal s = false -> op_active o db.
Proof.
  intros Hk Ho Hs Ht. unfold op_active. rewrite Hs. destruct (Hk o s Ho Hs); [done|congruence].
Qed.

Lemma report_step n G o epoch w succ msg db :
  plain_id G -> plain_id o -> (0 <= n)%Z -> (n + 1 <= lua_int_max)%Z -> db_inv decl D n db ->
  db_inv decl D (n + 1) (report_run decl G o epoch w succ msg db).1.
Proof.
  intros HG Hpo Hn0 Hn Hinv. pose proof Hinv as (Hgi & Hrep & Hst).
  destruct (report_cases G o epoch w succ msg db)
    as [[-> _]|(s & v & Hs & Ht & Hoo & Hready & Hw & Hv & Hres)].
  { apply (db_inv_mono decl D n); [lia|done]. }
  pose proof (active_of_not_terminal o s db Hst Hpo Hs Ht) as Ha.
  pose proof (Hgi G HG) as Hi.
  assert (forall G' db', hget (operation_key o) "group_id" db' = hget (operation_key o) "group_id" db ->
    op_of G' o db' -> G' = G) as Huniq by (unfold op_of in *; intros G' db' Heq ?; congruence).
  destruct Hres as [-> |[[-> _]| ->]]; cbn [fst].
  - destruct (gb_epoch _ _ _ _ (gi_base _ _ _ _ _ Hi) v Hv) as (e & -> & He).
    rewrite tonumber_decimal by lia. change (default 0%Z (Some e)) with e.
    assert (epoch_of G db = Some e) as Hep by (apply epoch_of_decimal; [lia|done]).
    assert (hget (operation_key o) "state" (failed G o w msg e db) = Some "FAILED") as Hfs.
    { unfold failed. rewrite hget_del_all, decide_False by (apply not_lane_key; intros i; key_ne).
      by rewrite hget_hset_all_ne, hget_srem, hget_hset_all_if, decide_True by (done || key_ne). }
    apply (one_op_inv n G o db); try done.
    + by apply failed_inv.
    + unfold failed. apply changes_del_all; [intros k Hk; by apply (touch_lanes decl)|].
      apply changes_hset_all; [by apply touch_root|]. apply changes_srem; [by apply touch_ops|].
      apply changes_hset_all; [by apply touch_op|]. apply changes_sadd; [|done].
      right. split; [done|]. intros o' Ho' Heq. by apply reported_key_inj.
    + intros G'. by apply Huniq.
    + intros G'. apply Huniq.
      rewrite hget_failed by first [done | key_ne | intros i; key_ne | right; set_solver]. done.
    + intros Hnone. by rewrite Hnone in Hfs.
    + intros t Hx. rewrite Hfs in Hx. injection Hx as <-. by right.
  - apply (one_op_inv n G o db); try done.
    + apply (group_inv_mono decl D n); [lia|]. by apply complete_inv.
    + apply changes_srem; [by apply touch_ops|by apply report_touch].
    + intros G'. by apply Huniq.
    + intros G'. apply Huniq. unfold complete. rewrite hget_srem, hget_put_op_state, decide_False, hget_sadd; naive_solver.
    + intros Hnone. specialize (Hnone "state"). unfold complete in Hnone.
      by rewrite hget_srem, hget_put_op_state, decide_True in Hnone.
    + intros t. unfold complete. rewrite hget_srem, hget_put_op_state, decide_True by done.
      intros [= <-]. by right.
  - apply (one_op_inv n G o db); try done.
    + apply (group_inv_mono decl D n); [lia|]. by apply running_inv.
    + by apply report_touch.
    + intros G'. by apply Huniq.
    + intros G'. apply Huniq. unfold running. rewrite hget_put_op_state, decide_False, hget_sadd; naive_solver.
    + intros Hnone. specialize (Hnone "state"). unfold running in Hnone.
      by rewrite hget_put_op_state, decide_True in Hnone.
    + intros t. unfold running. rewrite hget_put_op_state, decide_True by done.
      intros [= <-]. by left.
Qed.

(** ** Deleting, evicting *)

(** The operation disappears and nothing else of the group changes. *)
Lemma drop_op_inv n G o db db' :
  plain_id G -> group_inv decl D n G db ->
  (forall k f, collective_key k -> k ≠ operation_key o -> k ≠ reported_key o ->
     hget k f db' = hget k f db) ->
  (forall f, hget (operation_key o) f db' = None) ->
  set_at (active_ops_key G) db' = set_at (active_ops_key G) db ∖ {[o]} ->
  (forall o', plain_id o' -> o' ≠ o ->
     set_at (reported_key o') db' = set_at (reported_key o') db) ->
  group_inv decl D n G db'.
Proof.
  intros HG [[] Hc Hr] Hh Hno Hact Hreps.
  assert (forall k l f, key_parts k = Some l -> hget k f db' = hget k f db) as Hg.
  { intros k l f Hk. apply Hh; [left; eauto|intros ->; done..]. }
  assert (forall o', plain_id o' -> op_of G o' db' -> o' ≠ o ∧
    forall f, hget (operation_key o') f db' = hget (operation_key o') f db) as Hops.
  { intros o' Hpo' Hoo'. assert (o' ≠ o) as Hne.
    { intros ->. unfold op_of in Hoo'. by rewrite Hno in Hoo'. }
    split; [done|]. intros f. apply Hh; [by apply collective_op|by intros ?%operation_key_inj|].
    by apply reported_operation_ne. }
  assert (forall f, hget (group_key G) f db' = hget (group_key G) f db) as Hroot
    by (intros; by eapply Hg, parts_group).
  assert (forall f, hget (participants_key G) f db' = hget (participants_key G) f db) as Hp
    by (intros; by eapply Hg, parts_participants).
  assert (forall i f, hget (lane_key G i) f db' = hget (lane_key G i) f db) as Hl
    by (intros; by eapply Hg, parts_lane).
  split; [split| |].
  - intros v. rewrite Hroot. eauto.
  - rewrite !Hroot. eauto.
  - rewrite Hroot. intros Hx s r. rewrite Hp. eauto.
  - intros e. unfold epoch_of. rewrite Hroot. intros He i f v Hi. rewrite Hl.
    rewrite (lane_stamp_ext _ db) by auto. eauto.
  - intros o' Hpo' Hoo' Ha'. destruct (Hops o' Hpo' Hoo') as [Hne Heq].
    rewrite Hact. unfold op_of, op_active in *. rewrite Heq in Hoo', Ha'. set_solver.
  - intros o'. rewrite Hact. intros [[Hpo' Hoo']%gb_active Hne]%elem_of_difference.
    split; [done|]. unfold op_of in *. rewrite Hh; [done|by apply collective_op| |].
    + intros ->%operation_key_inj. set_solver.
    + by apply reported_operation_ne.
  - intros o1 o2 Hp1 Hp2 Ho1 Ho2. destruct (Hops o1 Hp1 Ho1) as [_ Heq1], (Hops o2 Hp2 Ho2) as [_ Heq2].
    unfold op_of, op_active in *. rewrite Heq1, Heq2 in *. by apply gb_single.
  - intros e o'. unfold epoch_of. rewrite Hroot. intros He Hpo' Hoo' Ha'.
    destruct (Hops o' Hpo' Hoo') as [Hne Heq]. rewrite Heq, Hreps by done.
    unfold op_of, op_active in *. rewrite Heq in Hoo', Ha'.
    destruct (Hc e o' He Hpo' Hoo' Ha') as (Han & Hoe & Hfull). split_and!; [|done|].
    + eapply (anchored_ext decl); [..|exact Han]; auto.
    + intros [Hfm Hadm]%Hfull. split; [eapply (formed_ext decl); [..|exact Hfm]; auto|].
      intros w Hin. eapply admitted_ext; [done|auto].
  - intros e. unfold epoch_of. rewrite !Hroot. intros He Hst.
    assert (forall f, hget (digests_key G) f db' = hget (digests_key G) f db) as Hd
      by (intros; by eapply Hg, parts_digests).
    destruct (Hr e He Hst) as (Han & Hag & Hfull). split_and!.
    + eapply (anchored_ext decl); [..|exact Han]; auto.
    + intros s v. rewrite Hd, Hroot. apply Hag.
    + intros Hx%Hfull. eapply readiness_ext; [apply Hroot| |exact Hx].
      intros k f [->|[->|(i & -> & _)%lane_keys_inv]]; auto.
Qed.

Lemma delete_step n G o rk db :
  plain_id G -> plain_id o -> request_like rk ->
  (forall G', hget (operation_key o) "group_id" db = Some G' -> G' = G) ->
  (0 <= n)%Z -> db_inv decl D n db -> db_inv decl D (n + 1) (delete_run G o rk db).1.
Proof.
  intros HG Hpo Hrk Hgrp Hn0 Hinv. unfold delete_run, DELETE_TRANSFER_LUA.
  assert (db_inv decl D (n + 1) db) as Hsame by (apply (db_inv_mono decl D n); [lia|done]).
  destruct (hget (operation_key o) "state" db) as [s|] eqn:Es; [|exact Hsame].
  destruct (is_terminal s) eqn:Et; [|exact Hsame]. cbn [negb fst].
  set (db1 := redis_del (reported_key o) (redis_del (operation_key o) db)).
  set (db2 := if bool_decide (str_get rk db1 = Some o) then redis_del rk db1 else db1).
  assert (db_inv decl D (n + 1) (srem (active_ops_key G) o db1)) as Hdrop.
  { assert (forall f, hget (operation_key o) f (srem (active_ops_key G) o db1) = None) as Hno.
    { intros f. unfold db1. rewrite hget_srem, !hget_del. by repeat case_decide. }
    apply (one_op_inv n G o db); try done.
    - apply (group_inv_mono decl D n); [lia|]. apply (drop_op_inv n G o db); try done.
      + by apply Hinv.
      + intros k f _ Hk1 Hk2. unfold db1. by rewrite hget_srem, !hget_del, !decide_False.
      + unfold db1. rewrite set_at_srem, decide_True, !set_at_del, !decide_False by (done || key_ne).
        done.
      + intros o' Hpo' Hne. unfold db1. rewrite set_at_srem, decide_False by key_ne.
        rewrite !set_at_del, !decide_False; [done|..].
        * intros Heq%eq_sym. revert Heq. by apply reported_operation_ne.
        * by intros ?%reported_key_inj.
    - apply changes_srem; [by apply touch_ops|]. unfold db1.
      apply changes_del; [right; split; [done|]; intros o' Ho' Heq..|].
      + exfalso. revert Heq. apply not_eq_sym. by apply reported_operation_ne.
      + by apply reported_key_inj.
      + apply changes_del; [by apply touch_op| |done]. right. split; [done|].
        intros o' Ho' Heq. exfalso. revert Heq. by apply reported_operation_ne.
    - intros G'. unfold op_of. by rewrite Hno.
    - intros _. rewrite set_at_srem, decide_False by key_ne. unfold db1.
      by rewrite set_at_del, decide_True.
    - intros t. by rewrite Hno. }
  apply (env_step _ (srem (active_ops_key G) o db1)); [| |done]; intros k; intros.
  - rewrite !hget_srem. unfold db2. case_bool_decide; [|done].
    rewrite hget_del, decide_False; [done|]. by intros ->.
  - rewrite !set_at_srem. unfold db2. case_bool_decide; [|done].
    rewrite set_at_del, (decide_False (P := k = rk)) by (by intros ->). done.
Qed.

Lemma evict_step n G db :
  plain_id G -> (0 <= n)%Z -> db_inv decl D n db -> db_inv decl D (n + 1) (redis_del (group_key G) db).
Proof.
  intros HG Hn0 Hinv. pose proof Hinv as (Hgi & _).
  assert (forall k f, k ≠ group_key G -> hget k f (redis_del (group_key G) db) = hget k f db) as Hh.
  { intros k f Hk. by rewrite hget_del, decide_False. }
  assert (forall k, k ≠ group_key G -> set_at k (redis_del (group_key G) db) = set_at k db) as Hs.
  { intros k Hk. by rewrite set_at_del, decide_False. }
  assert (forall f, hget (group_key G) f (redis_del (group_key G) db) = None) as Hno.
  { intros f. by rewrite hget_del, decide_True. }
  apply (own_step_inv decl D n G db); try done.
  - destruct (Hgi G HG) as [[] _ _]. split; [split| |].
    + intros v. by rewrite Hno.
    + rewrite Hno. by intros [].
    + rewrite Hno. by intros [].
    + intros e. unfold epoch_of. by rewrite Hno.
    + unfold op_of, op_active. intros o. rewrite !Hh, Hs by key_ne. eauto.
    + unfold op_of. intros o. rewrite Hh, Hs by key_ne. eauto.
    + unfold op_of, op_active in *. intros o o'. rewrite !Hh by key_ne. eauto.
    + intros e o. unfold epoch_of. by rewrite Hno.
    + intros e. unfold epoch_of. by rewrite Hno.
  - apply changes_del; [by apply touch_root..|done].
  - apply ops_kept_same; intros; [apply Hh|apply Hs]; key_ne.
Qed.

(** ** Reachable states *)

(** Every step, refused joins that lose members included, if the losses are on record. *)
Lemma collective_step_inv n db db' :
  step decl db db' ->
  (forall G e, lossy_join decl G db db' -> epoch_of G db = Some e -> D G e) ->
  (0 <= n)%Z -> (n + 1 < lua_concat_max)%Z -> db_inv decl D n db -> db_inv decl D (n + 1) db'.
Proof.
  assert (lua_concat_max <= lua_int_max)%Z as Hmax by (unfold lua_concat_max, lua_int_max; lia).
  intros Hstep Hnote Hn0 Hn Hinv. destruct Hstep.
  - apply join_step; try done. eauto.
  - by apply publish_step.
  - by apply refresh_step.
  - apply create_step; try done. lia.
  - apply report_step; try done. lia.
  - by apply delete_step.
  - by apply evict_step.
  - apply (db_inv_mono decl D n); [lia|]. by eapply env_step.
Qed.

Lemma init_inv db :
  (forall k f, collective_key k -> hget k f db = None) ->
  (forall k, collective_key k -> set_at k db = ∅) -> db_inv decl D 0 db.
Proof.
  intros Hh Hs.
  assert (forall G f, plain_id G -> hget (group_key G) f db = None) as Hroot.
  { intros G f HG. apply Hh. left. by rewrite parts_group. }
  split_and!.
  - intros G HG.
    assert (forall o, plain_id o -> ~ op_of G o db) as Hno.
    { intros o Ho. unfold op_of. by rewrite Hh by by apply collective_op. }
    split; [split| |].
    + intros v. by rewrite Hroot.
    + rewrite Hroot by done. by intros [].
    + rewrite Hroot by done. by intros [].
    + intros e. unfold epoch_of. by rewrite Hroot.
    + intros o Ho Hoo. by destruct (Hno o Ho).
    + intros o. rewrite Hs by (left; by rewrite parts_active_ops). set_solver.
    + intros o o' Ho _ Hoo. by destruct (Hno o Ho).
    + intros e o. unfold epoch_of. by rewrite Hroot.
    + intros e. unfold epoch_of. by rewrite Hroot.
  - intros o Ho _. by apply Hs, collective_reported.
  - intros o s Ho. by rewrite Hh by by apply collective_op.
Qed.

End transfers.

Section reachable.
Context {DB : Type} `{RedisServer DB, !RedisStoreLaws DB, !RedisServerLaws DB}.
Context `{LuaNumbers, !LuaNumbersLaws} `{LuaConcat, !LuaConcatLaws}.
Context (decl : string -> declaration) `{!DeclOk decl}.
Implicit Types db : DB.

(** The losses that a step adds are enough for the invariant to go on. *)
Lemma note_losses_inv D n db db' :
  step decl db db' -> (0 <= n)%Z -> (n + 1 < lua_concat_max)%Z -> db_inv decl D n db ->
  db_inv decl (note_losses decl D db db') (n + 1) db'.
Proof.
  intros Hstep Hn0 Hn Hinv.
  set (D1 := fun G e => D G e ∨ (lossy_join decl G db db' ∧ epoch_of G db = Some e)).
  apply (db_inv_losses decl D1).
  - intros G e He [HD|HL]; [left; split; [done|by rewrite He]|by right].
  - apply (collective_step_inv decl D1 n db db'); [done| |done..|].
    + intros G e HL He. by right.
    + eapply (db_inv_losses decl D); [|done]. intros G e _ HD. by left.
Qed.

Lemma reach_inv n D db :
  reach decl n D db -> (Z.of_nat n < lua_concat_max)%Z -> db_inv decl D (Z.of_nat n) db.
Proof.
  induction 1 as [db Hh Hs|n D db db' Hreach IH Hstep]; intros Hn; [by apply init_inv|].
  replace (Z.of_nat (S n)) with (Z.of_nat n + 1)%Z by lia.
  apply note_losses_inv; [done|lia|lia|]. apply IH. lia.
Qed.
End reachable.
