(* ===== verification/CollectiveEvolution.v ===== *)
(** * How a collective group evolves

    Along a run in which the root record of a group is not evicted, the epoch
    never decreases; while it stays the same, a published bootstrap stays what it
    is, and a formed group keeps its members unless a refused join lost one. *)

From Stdlib Require Import ZArith Lia Ascii String.
From stdpp Require Import base tactics option list gmap fin_maps fin_map_dom fin_sets strings.
From stdpp Require Import relations.
From S2P Require Import Prelude RustStr RedisStore RedisServer CollectiveScripts.
From S2P Require Import CollectiveEffects CollectiveMachine CollectiveInvariant.
From S2P Require Import CollectiveTransfers.

Section evolution.
Context {DB : Type} `{RedisServer DB, !RedisStoreLaws DB, !RedisServerLaws DB}.
Context `{LuaNumbers, !LuaNumbersLaws} `{LuaConcat, !LuaConcatLaws}.
Context (decl : string -> declaration) `{!DeclOk decl} (D : losses).
Implicit Types db : DB.

(** What is kept while the epoch stays [e]; the last two unless [L] happened. *)
Record same_epoch (L : Prop) (G : string) (e : Z) db db' : Prop := {
  se_epoch : epoch_of G db' = Some e;
  se_lanes : forall i f, i ∈ dc_lanes (decl G) -> lane_stamp (lane_key G i) db = Some e ->
    hget (lane_key G i) f db' = hget (lane_key G i) f db;
  se_anchored : anchored decl G e db -> anchored decl G e db';
  se_formed : ~ L -> formed decl G e db -> formed decl G e db';
  se_members : ~ L -> formed decl G e db -> forall w, admitted G db w -> admitted G db' w
}.

(** One step: the same epoch or the next. *)
Definition evolves (L : Prop) (G : string) db db' : Prop :=
  forall e, epoch_of G db = Some e ->
    same_epoch L G e db db' ∨ epoch_of G db' = Some (e + 1)%Z.

Lemma same_epoch_weaken (L L' : Prop) G e db db' :
  (L -> L') -> same_epoch L G e db db' -> same_epoch L' G e db db'.
Proof. intros HL [E N A F M]. split; auto. Qed.

Lemma evolves_weaken (L L' : Prop) G db db' :
  (L -> L') -> evolves L G db db' -> evolves L' G db db'.
Proof.
  intros HL Hev e He. destruct (Hev e He); [left|by right]. by eapply same_epoch_weaken.
Qed.

Section steps.
Context (L : Prop).

Lemma frame_evolves G db db' : group_frame G db db' -> evolves L G db db'.
Proof.
  intros Hf e He. left. pose proof Hf as (_ & Hp & _ & Hl & _). split.
  - by rewrite (group_frame_epoch decl G db).
  - intros. apply Hl.
  - apply (anchored_ext decl); auto.
  - intros _. apply (formed_ext decl); auto.
  - intros _ _ w. by apply admitted_ext.
Qed.

Lemma frame_same_epoch G e db db' :
  group_frame G db db' -> epoch_of G db = Some e -> same_epoch L G e db db'.
Proof.
  intros Hf He. destruct (frame_evolves G db db' Hf e He) as [?|Hx]; [done|].
  rewrite (group_frame_epoch decl G db), He in Hx by done. injection Hx. lia.
Qed.

Lemma evolves_refl G db : evolves L G db db.
Proof. intros e He. left. by split. Qed.

Lemma put_state_same_epoch G e ready db :
  plain_id G -> epoch_of G db = Some e ->
  same_epoch L G e db (put_state (group_key G) e ready db).1.
Proof.
  intros HG He. cbn [put_state fst].
  assert (forall k f, k ≠ group_key G ∨ f ≠ "state" ->
    hget k f (hset (group_key G) "state" (state_text ready) db) = hget k f db) as Hh.
  { intros k f Hk. rewrite hget_hset, decide_False; naive_solver. }
  split.
  - unfold epoch_of. by rewrite Hh by auto.
  - intros. apply Hh. left. key_ne.
  - apply (anchored_ext decl); intros; apply Hh; left; key_ne.
  - intros _. apply (formed_ext decl); intros; apply Hh; left; key_ne.
  - intros _ _ w. apply admitted_ext. intros. apply Hh. left. key_ne.
Qed.

Lemma same_epoch_trans G e db1 db2 db3 :
  same_epoch L G e db1 db2 -> same_epoch L G e db2 db3 -> same_epoch L G e db1 db3.
Proof.
  intros [E1 L1 A1 F1 M1] [E2 L2 A2 F2 M2]. split; auto.
  intros i f Hi Hst. rewrite L2, L1; [done..|]. unfold lane_stamp. by rewrite L1.
Qed.

Lemma put_state_epoch G e e' ready db :
  plain_id G -> epoch_of G db = Some e' -> epoch_of G (put_state (group_key G) e ready db).1 = Some e'.
Proof.
  intros HG He. cbn [put_state fst]. unfold epoch_of. rewrite hget_hset, decide_False; [done|].
  by intros [_ ?].
Qed.

(** ** Joining *)

Lemma admit_same_epoch G A e db :
  plain_id G -> join_args_ok decl G A -> (1 <= e < lua_concat_max)%Z ->
  epoch_of G db = Some e -> same_member decl G A e db ->
  same_epoch L G e db (join_admit (join_keys_of decl G (ja_worker_id A)) A e db).1.
Proof.
  intros HG HA He Hep Hsame. rewrite join_admit_writes.
  assert (epoch_of G (admit_writes G A e db) = Some e) as Hep'.
  { unfold epoch_of. rewrite hget_admit by (done || right; set_solver).
    rewrite !decide_False; [done|..]; intros [Hk _]; revert Hk; key_ne. }
  eapply same_epoch_trans; [|by apply put_state_same_epoch]. split; [done|..].
  - intros i f _ _. rewrite hget_admit by (done || left; key_ne).
    rewrite !decide_False; [done|..]; intros [Hk _]; revert Hk; key_ne.
  - by apply admit_anchored.
  - intros _. by apply admit_formed.
  - intros _ Hfm w. by apply (admit_admitted decl).
Qed.

Lemma admit_epoch G A e db :
  plain_id G -> epoch_of G (join_admit (join_keys_of decl G (ja_worker_id A)) A e db).1 = epoch_of G db.
Proof.
  intros HG. rewrite join_admit_writes. cbn [put_state fst]. unfold epoch_of.
  rewrite hget_hset, decide_False by (by intros [_ ?]).
  rewrite hget_admit by (done || right; set_solver).
  rewrite !decide_False; [done|..]; intros [Hk _]; revert Hk; key_ne.
Qed.

(** A sweep whose result stays without a new epoch, a loss being excepted. *)
Lemma sweep_noted_same_epoch G m e db :
  plain_id G -> epoch_of G db = Some e ->
  let rb := needs_epoch_bump (group_key G) (lane_keys decl G) e db in
  let db' := (group_sweep G m rb db).1 in
  (rb = true -> forall s, is_Some (hget (participants_key G) s db) ->
     hget (participants_key G) s db' = None -> L) ->
  same_epoch L G e db db'.
Proof.
  intros HG He rb db' Hnote. pose proof (group_sweep_effect G m rb db HG) as S. destruct rb eqn:Erb.
  - destruct (sw_either _ _ _ _ _ _ _ _ _ _ S) as [Heq|(s & r & Hin%elem_of_hgetall & Hx)].
    { apply frame_same_epoch; [by apply group_sweep_frame|done]. }
    assert L as HL by (eapply Hnote; eauto). split; try by intros [].
    + unfold db'. by rewrite (group_sweep_epoch decl).
    + intros. apply group_sweep_other; [done|key_ne..].
    + by apply group_sweep_anchored.
  - assert (~ anchored decl G e db) as Hno.
    { intros Han%(needs_bump_anchored decl). unfold rb in Erb. congruence. }
    split; try (intros; destruct Hno; first [done | by apply formed_anchored]).
    + unfold db'. by rewrite (group_sweep_epoch decl).
    + intros. apply group_sweep_other; [done|key_ne..].
Qed.

(** The sweep that leaves the epoch alone. *)
Lemma sweep_same_epoch G m e db :
  plain_id G -> epoch_of G db = Some e ->
  let r := group_sweep G m (needs_epoch_bump (group_key G) (lane_keys decl G) e db) db in
  r.2 = false -> same_epoch L G e db r.1.
Proof.
  intros HG He r Hr. subst r. apply sweep_noted_same_epoch; [done..|]. intros Hrb s [x Hs] Hno.
  rewrite Hrb in *. pose proof (group_sweep_effect G m true db HG) as S.
  destruct (sw_unchanged _ _ _ _ _ _ _ _ _ _ S Hr eq_refl) as [_ Heq]. congruence.
Qed.

Lemma join_evolves n G A db :
  plain_id G -> join_args_ok decl G A ->
  (lossy_join decl G db (join_run decl G A db).1 -> L) ->
  (0 <= n)%Z -> (n + 1 < lua_concat_max)%Z -> db_inv decl D n db ->
  evolves L G db (join_run decl G A db).1.
Proof.
  intros HG HA Hnote Hn0 Hn Hinv e He. pose proof Hinv as (Hgi & _).
  destruct (Hgi G HG) as [Hb Hc Hr].
  assert (lua_concat_max <= lua_int_max)%Z as Hmax by (unfold lua_concat_max, lua_int_max; lia).
  destruct (epoch_of_Some decl n G db e ltac:(lia) Hb He) as [Hev Hen].
  pose proof (join_run_result decl G A db HA) as Hresult. revert Hnote.
  remember (join_run decl G A db) as r eqn:Er.
  destruct Hresult as [reply|e' rep err He' Herr|e' rep He' Hs|e' rep He' Hs Hslot Hch|He' Hs];
    cbn [fst]; intros Hnote; [by apply evolves_refl| | | |congruence];
    rewrite He in He'; injection He' as <-;
    pose proof (join_prepared_epoch decl G A e rep db HG) as Hpe; rewrite He in Hpe.
  - left. eapply same_epoch_trans.
    + apply (sweep_noted_same_epoch G (Some (ja_model_name A)) e db HG He).
      intros Hrb s Hs Hno. apply Hnote. exists A, e, s. rewrite <- Er. split_and!; try done.
      cbn [fst]. by rewrite join_cleared_parts.
    + apply frame_same_epoch; [by apply join_cleared_frame|].
      unfold join_swept. by rewrite (group_sweep_epoch decl).
  - right. rewrite admit_epoch, (join_bump_new_epoch decl) by done.
    apply (new_epoch_epoch decl); [done|by apply bump_fields_epoch; lia|lia].
  - left. assert (same_epoch L G e db (join_prepared decl G A e rep db)) as Hs2.
    { eapply same_epoch_trans.
      - apply (sweep_same_epoch G (Some (ja_model_name A)) e db HG He).
        unfold join_swept in Hch. by destruct rep; [apply orb_false_iff in Hch as [Hch _]|].
      - apply frame_same_epoch; [by apply join_cleared_frame|]. by rewrite (group_sweep_epoch decl). }
    eapply same_epoch_trans; [exact Hs2|]. apply admit_same_epoch; try done; [lia|].
    by eapply (join_same_member decl).
Qed.

(** ** The other scripts *)

(** The root, the participants and the lanes decide. *)
Lemma hash_evolves G db db' :
  (forall f, hget (group_key G) f db' = hget (group_key G) f db) ->
  (forall f, hget (participants_key G) f db' = hget (participants_key G) f db) ->
  (forall i f, hget (lane_key G i) f db' = hget (lane_key G i) f db) -> evolves L G db db'.
Proof.
  intros Hr Hp Hl e He. left. split.
  - unfold epoch_of. by rewrite Hr.
  - auto.
  - apply (anchored_ext decl); auto.
  - intros _. apply (formed_ext decl); auto.
  - intros _ _ w. by apply admitted_ext.
Qed.

Lemma refresh_evolves n G db :
  plain_id G -> (n + 1 < lua_concat_max)%Z -> db_inv decl D n db ->
  evolves L G db (refresh_run decl G db).1.
Proof.
  intros HG Hn (Hgi & _) e He. destruct (Hgi G HG) as [Hb _ _].
  assert (lua_concat_max <= lua_int_max)%Z as Hmax by (unfold lua_concat_max, lua_int_max; lia).
  destruct (epoch_of_Some decl n G db e ltac:(lia) Hb He) as [Hev Hen].
  unfold refresh_run, REFRESH_GROUP_LUA. fold (epoch_of G db). rewrite He.
  set (m := hget (group_key G) "model_name" db).
  set (rb := needs_epoch_bump (group_key G) (lane_keys decl G) e db).
  fold (group_sweep G m rb db).
  pose proof (sweep_same_epoch G m e db HG He) as Hs. cbn zeta in Hs. fold rb in Hs.
  destruct (group_sweep G m rb db) as [db1 ch]. cbn [fst snd] in *. destruct ch; cbn [fst snd].
  - right. apply put_state_epoch; [done|]. apply (new_epoch_epoch decl); [done| |lia].
    change (Some (lua_arg (e + 1)) = Some (decimal (e + 1))). f_equal. apply lua_arg_decimal. lia.
  - left. specialize (Hs eq_refl). eapply same_epoch_trans; [exact Hs|].
    apply put_state_same_epoch; [done|]. apply Hs.
Qed.

Lemma publish_evolves G lane epoch w nid leader db :
  plain_id G -> evolves L G db (publish_run decl G lane epoch w nid leader db).1.
Proof.
  intros HG e He. unfold publish_run, PUBLISH_BOOTSTRAP_LUA. fold (epoch_of G db). rewrite He.
  destruct (negb (bool_decide _)); [by left|].
  match goal with |- context [if negb ?b then _ else _] => destruct b end; [|by left].
  cbn [negb]. left. case_bool_decide as Hst;
    [cbn [andb]; destruct (negb _); [by split|by apply put_state_same_epoch]|cbn [andb]].
  set (fvs := [_; _; _]). set (db1 := hset_all (lane_key G lane) fvs db).
  assert (forall k f, k ≠ lane_key G lane -> hget k f db1 = hget k f db) as Hh
    by (intros; by apply hget_hset_all_ne).
  assert (forall i f, lane_stamp (lane_key G i) db = Some e ->
    hget (lane_key G i) f db1 = hget (lane_key G i) f db) as Hl.
  { intros i f Hi. apply Hh. intros Heq. by rewrite Heq in Hi. }
  assert (same_epoch L G e db db1) as Hs.
  { split.
    - unfold epoch_of. by rewrite Hh by key_ne.
    - auto.
    - intros Han. eapply (anchored_ext decl); [..|exact Han].
      + intros. apply Hh. key_ne.
      + intros i f Hi. apply Hl. by apply Han.
    - intros _ Hfm. eapply (formed_ext decl); [..|exact Hfm].
      + intros. apply Hh. key_ne.
      + intros i f Hi. apply Hl. by apply Hfm.
    - intros _ _ x. apply admitted_ext. intros. apply Hh. key_ne. }
  eapply same_epoch_trans; [exact Hs|]. apply put_state_same_epoch; [done|]. apply Hs.
Qed.

(** Opening and deleting a transfer touch no record of a group. *)
Lemma create_run_parts G rk A k f db :
  request_like rk -> is_Some (key_parts k) -> hget k f (create_run G rk A db).1 = hget k f db.
Proof.
  intros Hrk Hk. assert (k ≠ rk) as Hk1 by (intros ->; apply Hrk; by left).
  assert (k ≠ operation_key (ca_operation_id A)) as Hk2 by (intros ->; by destruct Hk).
  destruct (create_cases G rk A db) as [->|(db1 & Hdb1 & ->)]; [done|].
  assert (hget k f db1 = hget k f db) as <-.
  { destruct Hdb1 as [-> | ->]; [done|]. by rewrite hget_del, decide_False. }
  destruct (open_cases G rk A db1) as [->|(v & -> & _)]; [done|]. by apply hget_created.
Qed.

Lemma delete_run_parts G o rk k f db :
  request_like rk -> is_Some (key_parts k) -> hget k f (delete_run G o rk db).1 = hget k f db.
Proof.
  intros Hrk Hk. assert (k ≠ rk) as Hk1 by (intros ->; apply Hrk; by left).
  assert (k ≠ operation_key o) as Hk2 by (intros ->; by destruct Hk).
  assert (k ≠ reported_key o) as Hk3 by (intros ->; by destruct Hk).
  unfold delete_run, DELETE_TRANSFER_LUA.
  destruct (hget (operation_key o) "state" db); [|done]. destruct (negb _); [done|]. cbn [fst].
  rewrite hget_srem. case_bool_decide; by rewrite !hget_del, !decide_False.
Qed.

Lemma parts_evolves G db db' :
  plain_id G -> (forall k f, is_Some (key_parts k) -> hget k f db' = hget k f db) -> evolves L G db db'.
Proof.
  intros HG Hh. apply hash_evolves; intros; apply Hh; eexists;
    [by apply parts_group|by apply parts_participants|by apply parts_lane].
Qed.

Lemma report_evolves n G o epoch w succ msg db :
  plain_id G -> (n + 1 <= lua_int_max)%Z -> db_inv decl D n db ->
  evolves L G db (report_run decl G o epoch w succ msg db).1.
Proof.
  intros HG Hn (Hgi & _). destruct (Hgi G HG) as [Hb _ _].
  destruct (report_cases decl G o epoch w succ msg db)
    as [[-> _]|(s & v & Hs & Ht & Hoo & Hready & Hw & Hv & Hres)]; [apply evolves_refl|].
  destruct Hres as [-> |[[-> _]| ->]]; cbn [fst].
  - intros e He. right. destruct (epoch_of_Some decl n G db e ltac:(lia) Hb He) as [Hev Hen].
    rewrite Hv in Hev. injection Hev as ->. rewrite tonumber_decimal by lia.
    change (default 0%Z (Some e)) with e. apply epoch_of_decimal; [lia|]. unfold failed.
    rewrite hget_del_all, decide_False by (apply not_lane_key; intros i; key_ne).
    rewrite hget_hset_all_if, decide_True by done.
    change (Some (lua_arg (e + 1)) = Some (decimal (e + 1))). f_equal. apply lua_arg_decimal. lia.
  - apply hash_evolves; intros; unfold complete; rewrite hget_srem, hget_put_op_state, decide_False,
      hget_sadd; try done; intros [Hk _]; revert Hk; key_ne.
  - apply hash_evolves; intros; unfold running; rewrite hget_put_op_state, decide_False,
      hget_sadd; try done; intros [Hk _]; revert Hk; key_ne.
Qed.

(** ** Footprints of the scripts *)

Definition any_op (_ : string) : Prop := True.

Lemma touch_any_op G o : hash_touch G any_op (operation_key o) ∧ set_touch G any_op (reported_key o).
Proof. split; right; by split. Qed.

Lemma new_epoch_any G fvs db db' :
  plain_id G -> changes_only (hash_touch G any_op) (set_touch G any_op) db db' ->
  changes_only (hash_touch G any_op) (set_touch G any_op) db (new_epoch decl G fvs db').
Proof.
  intros HG Hc. unfold new_epoch. apply abort_touch; [done..|].
  apply changes_del_all; [intros k Hk; by apply (touch_lanes decl)|].
  apply changes_hset_all; [by apply touch_root|done].
Qed.

Lemma join_run_touch G A db :
  plain_id G -> join_args_ok decl G A ->
  changes_only (hash_touch G any_op) (set_touch G any_op) db (join_run decl G A db).1.
Proof.
  intros HG HA. unfold join_run, JOIN_GROUP_LUA. cbn [jk_group join_keys_of jk_registration].
  destruct (negb (contains_slot _ _)); [done|]. destruct (negb (registration_matches _ _ _ _ _)); [done|].
  destruct (andb _ _); [done|].
  assert (forall e db', changes_only (hash_touch G any_op) (set_touch G any_op) db db' ->
    changes_only (hash_touch G any_op) (set_touch G any_op) db
      (join_admit (join_keys_of decl G (ja_worker_id A)) A e db').1) as Hadm.
  { intros e db' Hc. eapply changes_trans; [exact Hc|]. by apply admit_touch. }
  destruct (_ ≫= _) as [e|].
  - pose proof (group_sweep_touch G any_op (Some (ja_model_name A))
      (needs_epoch_bump (group_key G) (lane_keys decl G) e db) db HG) as Hsw.
    destruct (join_existing_cases decl G A e db) as [(err & -> & _)|(rep & _ & Hcases)]; [done|].
    pose proof (join_cleared_touch G rep any_op db _ HG Hsw) as Hcl.
    destruct Hcases as [(err & -> & _)| ->]; [done|]. destruct (orb _ _); [|by apply Hadm].
    apply Hadm. rewrite (join_bump_new_epoch decl) by done. by apply new_epoch_any.
  - apply Hadm. rewrite (join_create_wiped decl) by done.
    apply changes_hset_all; [by apply touch_root|]. apply abort_touch; [done..|]. unfold wiped.
    apply changes_del_all; [intros k Hk; by apply (touch_lanes decl)|].
    apply changes_del; [by apply touch_digests..|]. apply changes_del; [by apply touch_parts..|]. done.
Qed.

Lemma refresh_run_touch G db :
  plain_id G -> changes_only (hash_touch G any_op) (set_touch G any_op) db (refresh_run decl G db).1.
Proof.
  intros HG. unfold refresh_run, REFRESH_GROUP_LUA. destruct (_ ≫= _) as [e|]; [|done].
  set (m := hget _ "model_name" db). set (rb := needs_epoch_bump _ _ _ _).
  fold (group_sweep G m rb db). pose proof (group_sweep_touch G any_op m rb db HG) as Hsw.
  destruct (group_sweep G m rb db) as [db1 ch]. cbn [fst] in Hsw.
  destruct ch; apply put_state_touch; try done. by apply new_epoch_any.
Qed.

Lemma publish_run_touch G lane epoch w nid leader db :
  plain_id G ->
  changes_only (hash_touch G any_op) (set_touch G any_op) db
    (publish_run decl G lane epoch w nid leader db).1.
Proof.
  intros HG. unfold publish_run, PUBLISH_BOOTSTRAP_LUA. destruct (_ ≫= _) as [e|]; [|done].
  destruct (negb (bool_decide _)); [done|].
  match goal with |- context [if negb ?b then _ else _] => destruct b end; [|done]. cbn [negb].
  destruct (andb _ _); [done|]. apply put_state_touch; [done|]. case_bool_decide; [done|].
  apply changes_hset_all; [by apply touch_lane|done].
Qed.

Lemma report_run_touch G o epoch w succ msg db :
  plain_id G ->
  changes_only (hash_touch G any_op) (set_touch G any_op) db
    (report_run decl G o epoch w succ msg db).1.
Proof.
  intros HG. destruct (touch_any_op G o) as [Ho Hr].
  destruct (report_cases decl G o epoch w succ msg db)
    as [[-> _]|(s & v & _ & _ & _ & _ & _ & _ & Hres)]; [done|].
  destruct Hres as [-> |[[-> _]| ->]]; cbn [fst].
  - unfold failed. apply changes_del_all; [intros k Hk; by apply (touch_lanes decl)|].
    apply changes_hset_all; [by apply touch_root|]. apply changes_srem; [by apply touch_ops|].
    apply changes_hset_all; [done|]. by apply changes_sadd.
  - apply changes_srem; [by apply touch_ops|]. apply changes_hset; [done|]. by apply changes_sadd.
  - apply changes_hset; [done|]. by apply changes_sadd.
Qed.

(** A script of another group. *)
Lemma other_evolves G G' db db' :
  plain_id G' -> G' ≠ G ->
  changes_only (hash_touch G any_op) (set_touch G any_op) db db' -> evolves L G' db db'.
Proof.
  intros HG' Hne [Hh _].
  assert (forall k l f, key_parts k = Some (G' :: l) -> hget k f db' = hget k f db) as Hk.
  { intros k l f Hl. apply Hh. intros [[l' Hl']|[Hn _]]; congruence. }
  apply hash_evolves; intros; eapply Hk;
    [by apply parts_group|by apply parts_participants|by apply parts_lane].
Qed.

(** ** Runs *)

Lemma step_evolves n G db db' :
  step decl db db' -> plain_id G -> (lossy_join decl G db db' -> L) -> is_Some (epoch_of G db') ->
  (0 <= n)%Z -> (n + 1 < lua_concat_max)%Z -> db_inv decl D n db -> evolves L G db db'.
Proof.
  intros Hstep HG Hnote Hsome Hn0 Hn Hinv.
  assert (lua_concat_max <= lua_int_max)%Z as Hmax by (unfold lua_concat_max, lua_int_max; lia).
  destruct Hstep as [G0|G0|G0|G0|G0|G0|G0|].
  - destruct (decide (G = G0)) as [->|]; [by eapply join_evolves|].
    eapply other_evolves; [done..|by apply join_run_touch].
  - destruct (decide (G = G0)) as [->|]; [by apply publish_evolves|].
    eapply other_evolves; [done..|by apply publish_run_touch].
  - destruct (decide (G = G0)) as [->|]; [by eapply refresh_evolves|].
    eapply other_evolves; [done..|by apply refresh_run_touch].
  - apply parts_evolves; [done|]. intros. by apply create_run_parts.
  - destruct (decide (G = G0)) as [->|]; [eapply report_evolves; eauto; lia|].
    eapply other_evolves; [done..|by apply report_run_touch].
  - apply parts_evolves; [done|]. intros. by apply delete_run_parts.
  - destruct (decide (G = G0)) as [->|].
    + destruct Hsome as [e He]. unfold epoch_of in He. by rewrite hget_del, decide_True in He.
    + eapply other_evolves; [done..|]. apply changes_del; [by apply touch_root..|done].
  - apply hash_evolves; intros; match goal with Hx : forall k f, _ -> hget k f _ = _ |- _ => apply Hx end;
      left; [by rewrite parts_group|by rewrite parts_participants|by rewrite parts_lane].
Qed.

End steps.
End evolution.

Section runs.
Context {DB : Type} `{RedisServer DB, !RedisStoreLaws DB, !RedisServerLaws DB}.
Context `{LuaNumbers, !LuaNumbersLaws} `{LuaConcat, !LuaConcatLaws}.
Context (decl : string -> declaration) `{!DeclOk decl}.
Implicit Types db : DB.

(** [m] steps in which the group's root record is never evicted, from the losses on
    record at the start to those at the end. *)
Inductive run (G : string) : nat -> losses -> DB -> losses -> DB -> Prop :=
| run_refl D db : run G 0 D db D db
| run_step m D D1 db db1 db2 :
    run G m D db D1 db1 -> step decl db1 db2 -> is_Some (epoch_of G db2) ->
    run G (S m) D db (note_losses decl D1 db1 db2) db2.

Lemma run_reach G n m D D' db db' :
  run G m D db D' db' -> reach decl n D db -> reach decl (m + n) D' db'.
Proof. induction 1; intros Hr; [done|]. simpl. econstructor; eauto. Qed.

Lemma run_evolves G n m e D D' db db' :
  run G m D db D' db' -> reach decl n D db -> plain_id G -> (Z.of_nat (m + n) < lua_concat_max)%Z ->
  epoch_of G db = Some e ->
  ∃ e', epoch_of G db' = Some e' ∧ (e <= e')%Z ∧
    (e' = e -> same_epoch decl (D' G e) G e db db').
Proof.
  induction 1 as [D db|m D D1 db db1 db2 Hrun IH Hstep Hsome]; intros Hr HG Hn He.
  { exists e. split_and!; [done|lia|]. intros _. by split. }
  destruct IH as (e1 & He1 & Hle & Hs1); [done..|lia|done|].
  pose proof (run_reach G n m D D1 db db1 Hrun Hr) as Hr1.
  pose proof (reach_inv decl _ _ _ Hr1 ltac:(lia)) as Hinv.
  destruct (step_evolves decl D1 (note_losses decl D1 db1 db2 G e1) (Z.of_nat (m + n)) G db1 db2 Hstep
    HG ltac:(by right) Hsome ltac:(lia) ltac:(lia) Hinv e1 He1) as [Hse|Hnext].
  - exists e1. split_and!; [apply Hse|done|]. intros ->. eapply same_epoch_trans; [|exact Hse].
    eapply same_epoch_weaken; [|by apply Hs1]. by left.
  - exists (e1 + 1)%Z. split_and!; [done|lia|]. lia.
Qed.
End runs.
