(* ===== verification/CollectiveTheorems.v ===== *)
(** * What collective groups promise

    The guarantees of the control plane in every reachable state, under any
    interleaving of replicas and whatever the scripts answer: READY is sound, one
    transfer at a time, a transfer completes only when every member reported, a
    finished transfer is final, and a communicator identifier never changes within
    its epoch.  What says that nobody is missing holds for an epoch [e] of a group
    [G] without [D G e]: no refused join lost one of its members.  The rest holds
    whatever was lost.  Each is shown on a concrete run in CollectiveRun. *)

From Stdlib Require Import ZArith Lia Ascii String.
From stdpp Require Import base tactics option list gmap fin_maps fin_map_dom fin_sets strings.
From S2P Require Import Prelude RustStr RedisStore RedisServer CollectiveScripts.
From S2P Require Import CollectiveEffects CollectiveMachine CollectiveInvariant.
From S2P Require Import CollectiveTransfers CollectiveEvolution.

Section theorems.
Context {DB : Type} `{RedisServer DB, !RedisStoreLaws DB, !RedisServerLaws DB}.
Context `{LuaNumbers, !LuaNumbersLaws} `{LuaConcat, !LuaConcatLaws}.
Context (decl : string -> declaration) `{!DeclOk decl}.
Implicit Types db : DB.

(** ** READY *)

Lemma dom_slots n G db :
  group_base decl n G db -> is_Some (hget (group_key G) "epoch" db) ->
  dom (hfields (participants_key G) db) ⊆ dc_slots (decl G).
Proof.
  intros Hb Hroot s (r & Hr)%elem_of_dom. rewrite hfields_lookup in Hr.
  by eapply (gb_slots _ _ _ _ Hb).
Qed.

Lemma formed_dom n G e db :
  group_base decl n G db -> is_Some (hget (group_key G) "epoch" db) -> formed decl G e db ->
  dom (hfields (participants_key G) db) = dc_slots (decl G).
Proof.
  intros Hb Hroot [Hfull _ _]. unfold expected in Hfull.
  apply leibniz_equiv, (set_subseteq_size_equiv _ _ (dom_slots _ _ _ Hb Hroot)).
  rewrite size_dom. lia.
Qed.

(** The state of the lanes of a group at an epoch. *)
Definition lanes_at (G : string) (e : Z) db : Prop :=
  forall i, i ∈ dc_lanes (decl G) -> lane_stamp (lane_key G i) db = Some e.

(** C9: in a group that any replica can observe as READY at epoch e, everybody who holds a
    slot holds a declared one and acknowledged e, every lane carries a communicator
    identifier published for e, and every reported plan digest is the digest of the group.
    Unless a refused join lost a member of epoch e (the code then leaves the group READY,
    see the findings), every declared slot is occupied and as many digests are reported. *)
Theorem group_ready_sound n D db G e :
  reach decl n D db -> (Z.of_nat n < lua_concat_max)%Z -> plain_id G ->
  epoch_of G db = Some e -> hget (group_key G) "state" db = Some "READY" ->
  dom (hfields (participants_key G) db) ⊆ dc_slots (decl G) ∧
  (forall s r, hget (participants_key G) s db = Some r -> acked e r) ∧
  lanes_at G e db ∧
  (forall s d, hget (digests_key G) s db = Some d -> hget (group_key G) "plan_digest" db = Some d) ∧
  (~ D G e ->
     dom (hfields (participants_key G) db) = dc_slots (decl G) ∧
     size (hfields (digests_key G) db) = size (dc_slots (decl G))).
Proof.
  unfold lanes_at. intros Hr Hn HG He Hs. destruct (reach_inv decl n D db Hr Hn) as [Hgi _].
  destruct (Hgi G HG) as [Hb _ Hready]. destruct (Hready e He Hs) as ([Hack Hlanes] & Hag & Hfull).
  pose proof (epoch_of_root _ _ _ He) as Hroot.
  split_and!; [by eapply dom_slots|done..|]. intros Hx%Hfull. split.
  - eapply formed_dom; [done..|]. by eapply readiness_formed.
  - pose proof (rd_reported _ _ _ _ _ _ _ _ Hx) as Hd. unfold expected in Hd. lia.
Qed.

(** Once every slot is held by a registered worker that acknowledged the epoch, every
    lane has its identifier and the reported digests agree, the next refresh by any
    replica makes the group READY at that epoch and changes nothing else. *)
Lemma refresh_detects_ready n D db G e :
  reach decl n D db -> (Z.of_nat n < lua_concat_max)%Z -> plain_id G -> epoch_of G db = Some e ->
  readiness (group_key G) (participants_key G) (digests_key G) (lane_keys decl G)
    (expected decl G) e None db ->
  (forall s r, hget (participants_key G) s db = Some r ->
     record_live (hget (group_key G) "model_name" db) db r = true) ->
  refresh_run decl G db =
  (hset (group_key G) "state" "READY" db, "OK:" +:+ decimal e +:+ ":READY").
Proof.
  intros Hr Hn HG He Hready Hlive. destruct (reach_inv decl n D db Hr Hn) as [Hgi _].
  destruct (Hgi G HG) as [Hb _ _].
  assert (lua_concat_max <= lua_int_max)%Z as Hmax by (unfold lua_concat_max, lua_int_max; lia).
  destruct (epoch_of_Some decl (Z.of_nat n) G db e ltac:(lia) Hb He) as [Hev Hen].
  unfold refresh_run, REFRESH_GROUP_LUA. fold (epoch_of G db). rewrite He.
  destruct (sweep_distinct G HG) as (? & ? & ? & ?). rewrite sweep_none by done. pose proof (decl_small G) as Hsmall.
  rewrite (expected_field decl (Z.of_nat n)), tonumber_decimal
    by (done || (by eapply epoch_of_root) || (unfold expected in *; lia)).
  apply evaluate_readiness_spec in Hready. rewrite Hready. unfold put_state.
  by rewrite lua_concat_decimal by lia.
Qed.

(** ** Transfers *)

(** C12: a group has at most one transfer that is neither complete, failed nor aborted; it
    was opened at the current epoch, every lane still carries that epoch's identifier and
    everybody who holds a slot acknowledged that epoch.  Unless a refused join lost a member
    of the epoch, every slot is still held and only current members have reported it. *)
Theorem single_active_transfer n D db G e o o' :
  reach decl n D db -> (Z.of_nat n < lua_concat_max)%Z -> plain_id G -> epoch_of G db = Some e ->
  plain_id o -> op_of G o db -> op_active o db ->
  plain_id o' -> op_of G o' db -> op_active o' db ->
  o = o' ∧ hget (operation_key o) "epoch" db = Some (decimal e) ∧ lanes_at G e db ∧
  (forall s r, hget (participants_key G) s db = Some r -> s ∈ dc_slots (decl G) ∧ acked e r) ∧
  (~ D G e ->
     dom (hfields (participants_key G) db) = dc_slots (decl G) ∧
     forall w, w ∈ set_at (reported_key o) db -> admitted G db w).
Proof.
  unfold lanes_at. intros Hr Hn HG He Ho Hof Ha Ho' Hof' Ha'.
  destruct (reach_inv decl n D db Hr Hn) as [Hgi _].
  destruct (Hgi G HG) as [Hb Hc _]. destruct (Hc e o He Ho Hof Ha) as ([Hack Hlanes] & Hep & Hfull).
  pose proof (epoch_of_root _ _ _ He) as Hroot. split_and!; try done.
  - by eapply gb_single.
  - intros s r Hs. split; [by eapply (gb_slots _ _ _ _ Hb)|by eapply Hack].
  - intros [Hf Hrep]%Hfull. split; [by eapply formed_dom|done].
Qed.

(** The workers that hold a slot. *)
Definition workers (G : string) db : gset string :=
  list_to_set (omap (fun r => (fun '(w, _, _, _) => w) <$> parse_participant r)
                 (hvals (participants_key G) db)).

Lemma elem_of_workers G db w : w ∈ workers G db ↔ admitted G db w.
Proof.
  unfold workers, admitted. rewrite elem_of_list_to_set, list_elem_of_omap. split.
  - intros (r & (s & Hr)%elem_of_hvals & Hp). destruct (parse_participant r) as [[[[w' ?] ?] ?]|] eqn:E;
      [|done]. simplify_eq/=. naive_solver.
  - intros (s & r & role & index & je & Hr & Hp). exists r. rewrite Hp. split; [|done].
    apply elem_of_hvals. eauto.
Qed.

Lemma size_workers G db : size (workers G db) <= size (hfields (participants_key G) db).
Proof.
  unfold workers. rewrite <- length_hvals.
  assert (forall l : list string, size (list_to_set l : gset string) <= length l) as Hs.
  { induction l as [|x l IH]; simpl; [done|]. rewrite size_union_alt, size_singleton.
    assert (size ((list_to_set l : gset string) ∖ {[x]}) <= size (list_to_set l : gset string)).
    { apply subseteq_size. set_solver. }
    lia. }
  etransitivity; [apply Hs|]. generalize (hvals (participants_key G) db). intros l.
  induction l as [|r l IH]; cbn [omap list_omap length]; [done|].
  destruct (_ <$> parse_participant r); cbn [length]; unfold omap in *; lia.
Qed.

(** C13: a report that completes a transfer that was still open comes from a worker that
    holds a slot, and with it as many distinct workers have reported as the group declares
    slots.  Unless a refused join lost a member of the current epoch, every worker that
    holds a slot is one of them. *)
Theorem transfer_complete_all_reported n D db G o ep w succeeded message e :
  reach decl n D db -> (Z.of_nat n < lua_concat_max)%Z -> plain_id G -> plain_id o ->
  op_active o db -> epoch_of G db = Some e ->
  let r := report_run decl G o ep w succeeded message db in
  r.2 = "OK:COMPLETE" ->
  admitted G db w ∧ size (set_at (reported_key o) r.1) = size (dc_slots (decl G)) ∧
  (~ D G e -> forall w', admitted G db w' -> w' ∈ set_at (reported_key o) r.1).
Proof.
  intros Hr Hn HG Ho Ha He. destruct (reach_inv decl n D db Hr Hn) as [Hgi _].
  destruct (Hgi G HG) as [Hb Hc _].
  assert (lua_concat_max <= lua_int_max)%Z as Hmax by (unfold lua_concat_max, lua_int_max; lia).
  destruct (report_cases decl G o ep w succeeded message db)
    as [[_ Hno]|(s & v & Hs & Ht & Hof & Hready & Hw & Hv & Hres)].
  { cbn zeta. intros Hout. by rewrite Hout in Hno; specialize (Hno Ha). }
  cbn zeta. destruct Hres as [-> |[[-> Hsize]| ->]]; [done| |done]. intros _. cbn [fst].
  pose proof (epoch_of_root _ _ _ He) as Hroot. pose proof (decl_small G) as Hsmall.
  rewrite (expected_field decl (Z.of_nat n)), tonumber_decimal in Hsize
    by (done || (unfold expected in *; lia)).
  assert (set_at (reported_key o) (complete G o w db) = {[w]} ∪ set_at (reported_key o) db) as ->.
  { unfold complete. by rewrite set_at_srem, set_at_hset, set_at_sadd, decide_False, decide_True
      by (done || key_ne). }
  split_and!; [done|unfold expected in *; simplify_eq; lia|]. intros HD w' Hw'.
  destruct (Hc e o He Ho Hof Ha) as (_ & _ & Hfull). destruct (Hfull HD) as [Hf Hrep].
  pose proof (fm_full _ _ _ _ Hf) as Hsz.
  assert ({[w]} ∪ set_at (reported_key o) db ≡ workers G db) as Heq.
  { apply set_subseteq_size_equiv.
    - intros x Hx. apply elem_of_workers. set_solver.
    - pose proof (size_workers G db). simplify_eq. lia. }
  rewrite Heq. by apply elem_of_workers.
Qed.

(** Opening a transfer reserves its idempotency key: while the reservation and the
    operation exist, every further request under the key answers the same operation and
    changes nothing, whatever its arguments and the state of the group. *)
Lemma create_transfer_idempotent G rk A db :
  request_like rk -> create_args_ok G A -> (create_run G rk A db).2 = "CREATED" ->
  let db1 := (create_run G rk A db).1 in
  hget (operation_key (ca_operation_id A)) "state" db1 = Some "PENDING" ∧
  forall G' A' db2, ca_op_prefix A' = OPERATION_KEY_PREFIX -> str_get rk db2 = str_get rk db1 ->
    hget (operation_key (ca_operation_id A)) "state" db2 ≠ None ->
    create_run G' rk A' db2 = (db2, "EXISTING:" +:+ ca_operation_id A).
Proof.
  intros Hrk HA Hok db1.
  assert (∃ v db0, create_run G rk A db = (created G rk A v db0, "CREATED")) as (v & db0 & Hrun).
  { clear db1. revert Hok. unfold create_run, CREATE_TRANSFER_LUA.
    assert (forall d, (open_run G rk A d).2 = "CREATED" ->
      ∃ v d0, open_run G rk A d = (created G rk A v d0, "CREATED")) as Hopen.
    { intros d. unfold open_run, create_open. destruct (redis_exists _ _); [done|].
      destruct (hget (group_key G) "epoch" d) as [v|]; [|done]. destruct (orb _ _); [done|].
      destruct (busy_op _ _ _ _); [done|]. intros _. by exists v, d. }
    destruct (str_get rk db) as [x|]; [|apply Hopen]. destruct (redis_exists _ _); [done|]. apply Hopen. }
  assert (str_get rk db1 = Some (ca_operation_id A)) as Hres.
  { subst db1. rewrite Hrun. cbn [fst]. unfold created. by rewrite str_get_sadd, str_get_set, decide_True. }
  split.
  - subst db1. rewrite Hrun. cbn [fst]. erewrite hget_created_op by done. by rewrite (co_state _ _ HA).
  - intros G' A' db2 Hp Hs Hex. unfold create_run, CREATE_TRANSFER_LUA. rewrite Hs, Hres, Hp.
    fold (operation_key (ca_operation_id A)).
    destruct (hget (operation_key (ca_operation_id A)) "state" db2) as [st|] eqn:Est; [|done].
    by rewrite (hget_redis_exists _ _ _ _ Est).
Qed.

(** ** Finished transfers *)

(** Nothing about the operation is different. *)
Definition op_same (o : string) db db' : Prop :=
  (forall f, hget (operation_key o) f db' = hget (operation_key o) f db) ∧
  set_at (reported_key o) db' = set_at (reported_key o) db.

Lemma terminal_inactive s : is_terminal s = true -> is_active (Some s) = false.
Proof.
  unfold is_terminal, is_active. rewrite !orb_true_iff, !String.eqb_eq. intros [[->| ->]| ->]; done.
Qed.

Lemma kept_final o s db db' :
  ops_kept db db' -> plain_id o -> hget (operation_key o) "state" db = Some s ->
  is_terminal s = true -> op_same o db db'.
Proof.
  intros Hk Ho Hs Ht. split; [|by apply Hk]. intros f. apply (ok_final _ _ Hk). rewrite Hs.
  by apply terminal_inactive.
Qed.

Lemma refresh_run_kept G db : plain_id G -> ops_kept db (refresh_run decl G db).1.
Proof.
  intros HG. unfold refresh_run, REFRESH_GROUP_LUA. destruct (_ ≫= _) as [e|]; [|by apply ops_kept_same].
  set (m := hget _ "model_name" db). set (rb := needs_epoch_bump _ _ _ _).
  fold (group_sweep G m rb db). pose proof (group_sweep_kept G m rb db HG) as Hk.
  destruct (group_sweep G m rb db) as [db1 []]; cbn [fst] in Hk.
  - eapply ops_kept_trans; [exact Hk|]. eapply ops_kept_trans; [|by apply put_state_kept].
    by apply (new_epoch_kept decl).
  - eapply ops_kept_trans; [exact Hk|]. by apply put_state_kept.
Qed.

Lemma publish_run_kept G lane epoch w nid leader db :
  plain_id G -> ops_kept db (publish_run decl G lane epoch w nid leader db).1.
Proof.
  intros HG. assert (ops_kept db db) as Hrefl by by apply ops_kept_same.
  unfold publish_run, PUBLISH_BOOTSTRAP_LUA. destruct (_ ≫= _) as [e|]; [|done].
  destruct (negb (bool_decide _)); [done|].
  match goal with |- context [if negb ?b then _ else _] => destruct b end; [|done]. cbn [negb].
  destruct (andb _ _); [done|]. eapply ops_kept_trans; [|by apply put_state_kept].
  case_bool_decide; [done|]. apply ops_kept_same; intros.
  - apply hget_hset_all_ne. key_ne.
  - apply set_at_hset_all.
Qed.

Lemma create_final G rk A o s db :
  plain_id G -> plain_id o -> request_like rk -> hget (operation_key o) "state" db = Some s ->
  op_same o db (create_run G rk A db).1.
Proof.
  intros HG Ho Hrk Hs.
  assert (operation_key o ≠ rk ∧ reported_key o ≠ rk) as [Hk1 Hk2].
  { split; intros <-; apply Hrk; [by apply collective_op|by apply collective_reported]. }
  destruct (create_cases G rk A db) as [->|(db1 & Hdb1 & ->)]; [done|].
  assert (op_same o db db1) as [Hf1 Hr1].
  { destruct Hdb1 as [->| ->]; split; intros; rewrite ?hget_del, ?set_at_del, ?decide_False; done. }
  destruct (open_cases G rk A db1) as [->|(v & -> & Hex & _)]; [by split|]. cbn [fst].
  assert (operation_key o ≠ operation_key (ca_operation_id A)) as Hne.
  { intros Heq. rewrite <- Heq in Hex. apply (proj1 (redis_exists_false _ _)) with (f := "state") in Hex.
    by rewrite Hf1, Hs in Hex. }
  split.
  - intros f. by rewrite hget_created.
  - rewrite set_at_created, decide_False by key_ne. done.
Qed.

Lemma report_final G o' o s epoch w succeeded message db :
  plain_id G -> plain_id o -> plain_id o' -> hget (operation_key o) "state" db = Some s ->
  is_terminal s = true -> op_same o db (report_run decl G o' epoch w succeeded message db).1.
Proof.
  intros HG Ho Ho' Hs Ht.
  destruct (report_cases decl G o' epoch w succeeded message db)
    as [[-> _]|(s' & v & Hs' & Ht' & _ & _ & _ & _ & Hres)]; [done|].
  assert (o ≠ o') as Hne by (intros ->; congruence).
  assert (operation_key o ≠ operation_key o') by (by intros ?%operation_key_inj).
  assert (reported_key o ≠ reported_key o') by (by intros ?%reported_key_inj).
  destruct Hres as [-> |[[-> _]| ->]]; cbn [fst]; split; intros.
  - apply hget_failed; [done|key_ne|intros; key_ne|by left].
  - unfold failed. rewrite set_at_del_all, decide_False by
      (apply not_lane_key; intros; key_ne).
    rewrite set_at_hset_all, set_at_srem, decide_False by key_ne.
    by rewrite set_at_hset_all, set_at_sadd, decide_False.
  - unfold complete. rewrite hget_srem, hget_put_op_state, decide_False by naive_solver.
    apply hget_sadd.
  - unfold complete. rewrite set_at_srem, decide_False, set_at_hset, set_at_sadd, decide_False
      by (done || key_ne). done.
  - unfold running. rewrite hget_put_op_state, decide_False by naive_solver. apply hget_sadd.
  - unfold running. by rewrite set_at_hset, set_at_sadd, decide_False.
Qed.

Lemma delete_final G o' o rk db :
  plain_id G -> plain_id o -> plain_id o' -> request_like rk ->
  op_same o db (delete_run G o' rk db).1 ∨
  (forall f, hget (operation_key o) f (delete_run G o' rk db).1 = None).
Proof.
  intros HG Ho Ho' Hrk. unfold delete_run, DELETE_TRANSFER_LUA.
  destruct (hget (operation_key o') "state" db) as [s|]; [|by left].
  destruct (negb (is_terminal s)); [by left|]. cbn [fst].
  set (db1 := redis_del (reported_key o') (redis_del (operation_key o') db)).
  set (db2 := if bool_decide (str_get rk db1 = Some o') then redis_del rk db1 else db1).
  assert (operation_key o ≠ rk ∧ reported_key o ≠ rk) as [Hk1 Hk2].
  { split; intros <-; apply Hrk; [by apply collective_op|by apply collective_reported]. }
  assert (op_same o db1 db2) as [Hf2 Hr2].
  { unfold db2. case_bool_decide; split; intros; rewrite ?hget_del, ?set_at_del, ?decide_False; done. }
  destruct (decide (o = o')) as [<-|Hne].
  - right. intros f. rewrite hget_srem, Hf2. unfold db1. rewrite !hget_del.
    repeat case_decide; done.
  - left. split; intros.
    + rewrite hget_srem, Hf2. unfold db1. rewrite !hget_del, !decide_False; [done|..].
      * by intros ?%operation_key_inj.
      * intros Heq. revert Heq. by apply reported_operation_ne.
    + rewrite set_at_srem, decide_False by key_ne. rewrite Hr2. unfold db1.
      rewrite !set_at_del, !decide_False; [done|..].
      * intros Heq%eq_sym. revert Heq. by apply reported_operation_ne.
      * by intros ?%reported_key_inj.
Qed.

(** Whatever happens next, a transfer that completed, failed or was aborted keeps every
    field of its record and the set of workers that reported it, until it is deleted. *)
Lemma transfer_terminal_final db db' o s :
  step decl db db' -> plain_id o -> hget (operation_key o) "state" db = Some s ->
  is_terminal s = true ->
  op_same o db db' ∨ (forall f, hget (operation_key o) f db' = None).
Proof.
  intros Hstep Ho Hs Ht. destruct Hstep as [G A db|G lane epoch w nid leader db|G db|G rk A db|
    G o' epoch w succeeded message db|G o' rk db|G db|db db' Hh Hset].
  - left. eapply kept_final; [|done..]. by apply (join_run_kept decl).
  - left. eapply kept_final; [|done..]. by apply publish_run_kept.
  - left. eapply kept_final; [|done..]. by apply refresh_run_kept.
  - left. by eapply create_final.
  - left. by eapply report_final.
  - by apply delete_final.
  - left. split; intros; [rewrite hget_del|rewrite set_at_del]; rewrite decide_False by key_ne; done.
  - left. split; intros; [apply Hh; by apply collective_op|apply Hset; by apply collective_reported].
Qed.

(** ** Communicator identifiers *)

(** C11: under any interleaving in which the group's root record is not evicted, the epoch
    never goes back; while it stays the same, a lane that has an identifier keeps it, byte
    for byte, whoever publishes.  Unless a refused join lost a member of that epoch by the
    end, a group whose members all acknowledged the epoch keeps every one of them. *)
Theorem bootstrap_agreement n m D D' db db' G e :
  reach decl n D db -> run decl G m D db D' db' -> (Z.of_nat (m + n) < lua_concat_max)%Z ->
  plain_id G -> epoch_of G db = Some e ->
  ∃ e', epoch_of G db' = Some e' ∧ (e <= e')%Z ∧
    (e' = e -> forall i f, i ∈ dc_lanes (decl G) -> lane_stamp (lane_key G i) db = Some e ->
       hget (lane_key G i) f db' = hget (lane_key G i) f db) ∧
    (e' = e -> ~ D' G e -> formed decl G e db -> forall w, admitted G db w -> admitted G db' w).
Proof.
  intros Hr Hrun Hn HG He.
  destruct (run_evolves decl G n m e D D' db db' Hrun Hr HG Hn He) as (e' & He' & Hle & Hsame).
  exists e'. split_and!; try done; intros ->; destruct (Hsame eq_refl) as [_ Hl _ _ Hm]; auto.
Qed.

(** In a reachable state no lane carries anything from another epoch: whatever a
    lane record holds was published for the group's current epoch. *)
Lemma lanes_current n D db G e i f v :
  reach decl n D db -> (Z.of_nat n < lua_concat_max)%Z -> plain_id G -> epoch_of G db = Some e ->
  i ∈ dc_lanes (decl G) -> hget (lane_key G i) f db = Some v ->
  lane_stamp (lane_key G i) db = Some e.
Proof.
  intros Hr Hn HG He Hi Hv. destruct (reach_inv decl n D db Hr Hn) as [Hgi _].
  destruct (Hgi G HG) as [Hb _ _]. by eapply gb_lanes.
Qed.
End theorems.
