(* ===== verification/CollectiveBackend.v ===== *)
(** * The Redis collective backend (refit_collective/backend/redis.rs)

    The messages of refit_collective.proto, the identity of a group, the stored
    text forms (lanes, slots, participants, identifiers in hexadecimal) and one
    program per method of [CollectiveBackend], over the scripts of
    CollectiveScripts.  Errors keep their kind, not their text.  The clock and
    the random operation id are arguments; SHA-256 is a parameter. *)

From Stdlib Require Import ZArith Lia Ascii String.
From stdpp Require Import base tactics option list gmap fin_maps fin_map_dom fin_sets strings.
From S2P Require Import Prelude RustStr RedisStore RedisServer RedisProg Lanes.
From S2P Require Import CollectiveScripts.

(** ** Messages *)

Record LaneSpec : Type := MkLaneSpec {
  ls_lane_id : Z;
  ls_kind : Z;
  ls_trainer_slots : list string;
  ls_generator_slots : list string
}.

Record CollectiveGroupSpec : Type := MkGroupSpec {
  gs_model_name : string;
  gs_trainer_slots : list string;
  gs_generator_slots : list string;
  gs_lanes : list LaneSpec
}.

Record PlanSource : Type := MkPlanSource {
  ps_worker_id : string;
  ps_endpoint : string;
  ps_digest : string
}.

Inductive CollectiveRole : Type := RoleUnspecified | RoleTrainer | RoleGenerator.
Inductive CollectiveGroupState : Type := GroupForming | GroupReady.
Inductive CollectiveTransferState : Type :=
| TransferPending | TransferRunning | TransferComplete | TransferFailed | TransferAborted.

#[export] Instance CollectiveRole_eq_dec : EqDecision CollectiveRole.
Proof. solve_decision. Defined.
#[export] Instance CollectiveGroupState_eq_dec : EqDecision CollectiveGroupState.
Proof. solve_decision. Defined.
#[export] Instance CollectiveTransferState_eq_dec : EqDecision CollectiveTransferState.
Proof. solve_decision. Defined.

Record CollectiveParticipant : Type := MkParticipant {
  cp_slot_id : string;
  cp_worker_id : string;
  cp_role : CollectiveRole;
  cp_index_in_role : Z;
  cp_rank_in_lane : Z;
  cp_joined_epoch : Z
}.

Record CollectiveLane : Type := MkCollectiveLane {
  cl_lane_id : Z;
  cl_kind : LaneKind;
  cl_world_size : Z;
  cl_nccl_unique_id : string;
  cl_bootstrap_epoch : Z;
  cl_participants : list CollectiveParticipant
}.

Record CollectiveGroup : Type := MkCollectiveGroup {
  cg_group_id : string;
  cg_model_name : string;
  cg_epoch : Z;
  cg_state : CollectiveGroupState;
  cg_lanes : list CollectiveLane;
  cg_plan_source : option PlanSource;
  cg_plan_digest : string;
  cg_trainer_slots : list string;
  cg_generator_slots : list string;
  cg_created_at : Z;
  cg_disagreeing_slots : list string
}.

Record CollectiveTransfer : Type := MkCollectiveTransfer {
  ct_operation_id : string;
  ct_group_id : string;
  ct_epoch : Z;
  ct_version_id : string;
  ct_model_name : string;
  ct_idempotency_key : string;
  ct_state : CollectiveTransferState;
  ct_created_at : Z;
  ct_reported : list string;
  ct_failure_message : string
}.

Record CollectiveGroupMembership : Type := MkMembership {
  cm_group_id : string;
  cm_epoch : Z;
  cm_assignments : list Assignment;
  cm_state : CollectiveGroupState;
  cm_is_bootstrap_leader : bool
}.

Record JoinRequest : Type := MkJoinRequest {
  jr_spec : option CollectiveGroupSpec;
  jr_slot_id : string;
  jr_worker_id : string;
  jr_role : Z;
  jr_index_in_role : Z;
  jr_plan_digest : string;
  jr_plan_source : option PlanSource
}.

Record PublishRequest : Type := MkPublishRequest {
  pr_group_id : string;
  pr_epoch : Z;
  pr_lane_id : Z;
  pr_worker_id : string;
  pr_nccl_unique_id : string
}.

Record CreateTransferRequest : Type := MkCreateTransferRequest {
  cr_spec : option CollectiveGroupSpec;
  cr_version_id : string;
  cr_idempotency_key : string;
  cr_expected_epoch : Z
}.

Record ReportRequest : Type := MkReportRequest {
  rr_operation_id : string;
  rr_group_id : string;
  rr_epoch : Z;
  rr_worker_id : string;
  rr_succeeded : bool;
  rr_message : string
}.

(** [CollectiveBackendError], by kind. *)
Inductive CollectiveBackendError : Type :=
| CInvalidArgument | CNotFound | CFailedPrecondition | CAlreadyExists | CInternal | CUnavailable.

#[export] Instance CollectiveBackendError_eq_dec : EqDecision CollectiveBackendError.
Proof. solve_decision. Defined.

Definition cresult (A : Type) : Type := result A CollectiveBackendError.

(** ** Numbers and text *)

(** [kind.to_le_bytes()] of a 32-bit integer, two's complement. *)
Definition le_bytes32 (z : Z) : string :=
  let b k := ascii_of_N (Z.to_N (Z.land (Z.shiftr (z mod 2 ^ 32) k) 255)) in
  String (b 0%Z) (String (b 8%Z) (String (b 16%Z) (String (b 24%Z) ""))).

Definition hex_digit (n : N) : ascii :=
  ascii_of_N (if (n <? 10)%N then 48 + n else 87 + n)%N.

(** [write!(out, "{byte:02x}")] for every byte. *)
Fixpoint hex_encode (bytes : string) : string :=
  match bytes with
  | EmptyString => ""
  | String c rest =>
      let n := N_of_ascii c in
      String (hex_digit (n / 16)) (String (hex_digit (n mod 16)) (hex_encode rest))
  end.

(** [char::to_digit(16)]. *)
Definition hex_value (c : ascii) : option N :=
  let n := N_of_ascii c in
  if byte_in 48 57 c then Some (n - 48)%N
  else if byte_in 97 102 c then Some (n - 87)%N
  else if byte_in 65 70 c then Some (n - 55)%N
  else None.

(** [u8::from_str_radix(pair, 16)], which takes a leading plus sign. *)
Definition hex_pair (a b : ascii) : option ascii :=
  if Ascii.eqb a "+" then ascii_of_N <$> hex_value b
  else x ← hex_value a; y ← hex_value b; Some (ascii_of_N (16 * x + y)).

Fixpoint hex_decode (text : string) : cresult string :=
  match text with
  | EmptyString => Ok ""
  | String _ EmptyString => Err CInternal
  | String a (String b rest) =>
      match hex_pair a b with
      | None => Err CInternal
      | Some c => let? bytes := hex_decode rest in Ok (String c bytes)
      end
  end.

(** ** The identity of a group *)

Class Sha256 := { sha256 : string -> string }.

Definition str_sort (l : list string) : list string := sort_by String.leb l.

Definition lane_leb (a b : LaneSpec) : bool :=
  (ls_lane_id a <? ls_lane_id b)%Z ||
  ((ls_lane_id a =? ls_lane_id b)%Z && (ls_kind a <=? ls_kind b)%Z).

Definition nul : string := String "000" "".

Definition lane_bytes (lane : LaneSpec) : string :=
  le_bytes32 (ls_lane_id lane) +:+ le_bytes32 (ls_kind lane) +:+
  join "" (map (fun s => s +:+ nul) (ls_trainer_slots lane ++ ls_generator_slots lane)) +:+
  String "002" "".

Definition group_id_input (spec : CollectiveGroupSpec) : string :=
  let terminated l := join "" (map (fun s => s +:+ nul) l) in
  gs_model_name spec +:+ nul +:+
  join "" (map lane_bytes (sort_by lane_leb (gs_lanes spec))) +:+ nul +:+
  terminated (str_sort (gs_trainer_slots spec)) +:+ String "001" "" +:+
  terminated (str_sort (gs_generator_slots spec)).

Definition group_id_for `{Sha256} (spec : CollectiveGroupSpec) : string :=
  hex_encode (String.substring 0 16 (sha256 (group_id_input spec))).

(** ** Stored text forms *)

Definition field {A} (fields : gmap string A) (name : string) : cresult A :=
  match fields !! name with Some v => Ok v | None => Err CInternal end.

Definition parse_field (max : Z) (fields : gmap string string) (name : string) : cresult Z :=
  let? v := field fields name in
  match parse_unsigned max v with Some z => Ok z | None => Err CInternal end.

Definition group_state_from_str (text : string) : cresult CollectiveGroupState :=
  if String.eqb text "FORMING" then Ok GroupForming
  else if String.eqb text "READY" then Ok GroupReady
  else Err CInternal.

Definition transfer_state_from_str (text : string) : cresult CollectiveTransferState :=
  if String.eqb text "PENDING" then Ok TransferPending
  else if String.eqb text "RUNNING" then Ok TransferRunning
  else if String.eqb text "COMPLETE" then Ok TransferComplete
  else if String.eqb text "FAILED" then Ok TransferFailed
  else if String.eqb text "ABORTED" then Ok TransferAborted
  else Err CInternal.

Definition lane_kind_code (k : LaneKind) : Z :=
  match k with LaneUnspecified => 0 | LaneReshard => 1 | LaneBroadcast => 2 end.

Definition lane_kind_try_from (z : Z) : option LaneKind :=
  if (z =? 0)%Z then Some LaneUnspecified
  else if (z =? 1)%Z then Some LaneReshard
  else if (z =? 2)%Z then Some LaneBroadcast
  else None.

Definition role_try_from (z : Z) : option CollectiveRole :=
  if (z =? 0)%Z then Some RoleUnspecified
  else if (z =? 1)%Z then Some RoleTrainer
  else if (z =? 2)%Z then Some RoleGenerator
  else None.

Definition bar : ascii := "|".
Definition comma : ascii := ",".

Definition encode_lane (lane : Lane) : string :=
  join (String bar "")
    [decimal (lane_id lane); decimal (lane_kind_code (kind lane));
     join (String comma "") (trainer_slots lane); join (String comma "") (generator_slots lane)].

Definition encode_lanes (ls : list Lane) : string := join (String newline "") (map encode_lane ls).

Definition split_csv (text : string) : list string :=
  if str_is_empty text then [] else split comma text.

Definition split_slots (text : string) : list string :=
  if str_is_empty text then [] else split newline text.

(** One line of the stored lane set; a missing part reads as the empty string. *)
Definition decode_lane (line : string) : cresult Lane :=
  let parts := split bar line in
  let part i := nth i parts "" in
  match parse_unsigned u32_max (part 0), parse_i32 (part 1) with
  | Some lane_id, Some kind_code =>
      match lane_kind_try_from kind_code with
      | None => Err CInternal
      | Some kind =>
          if (4 <? length parts)%nat then Err CInternal
          else Ok (MkLane lane_id kind (split_csv (part 2)) (split_csv (part 3)))
      end
  | _, _ => Err CInternal
  end.

(** Collecting results stops at the first error. *)
Fixpoint collect {A B} (f : A -> cresult B) (l : list A) : cresult (list B) :=
  match l with
  | [] => Ok []
  | x :: l' => let? y := f x in let? ys := collect f l' in Ok (y :: ys)
  end.

Definition decode_lanes (text : string) : cresult (list Lane) :=
  if str_is_empty text then Ok [] else collect decode_lane (split newline text).

Definition lanes_from_spec (spec : CollectiveGroupSpec) : list Lane :=
  map (fun l => MkLane (ls_lane_id l) (default LaneUnspecified (lane_kind_try_from (ls_kind l)))
                  (ls_trainer_slots l) (ls_generator_slots l)) (gs_lanes spec).

(** A [worker_id|role|index_in_role|joined_epoch] record. *)
Definition participant_from_record (slot_id record : string) : cresult CollectiveParticipant :=
  let parts := split bar record in
  let part i := nth i parts "" in
  let? role :=
    (if String.eqb (part 1) "TRAINER" then Ok RoleTrainer
     else if String.eqb (part 1) "GENERATOR" then Ok RoleGenerator
     else Err CInternal) in
  match parse_unsigned u32_max (part 2), parse_unsigned u64_max (part 3) with
  | Some index, Some joined_epoch =>
      if (4 <? length parts)%nat then Err CInternal
      else Ok (MkParticipant slot_id (part 0) role index 0 joined_epoch)
  | _, _ => Err CInternal
  end.

Definition layout_for (spec : CollectiveGroupSpec) : cresult LaneLayout :=
  match LaneLayout_new (lanes_from_spec spec) (gs_trainer_slots spec) (gs_generator_slots spec) with
  | Ok l => Ok l
  | Err _ => Err CInvalidArgument
  end.

(** ** Methods *)

Section methods.
Context {DB : Type} `{RedisServer DB} `{LuaNumbers} `{LuaConcat} `{HashIter} `{Sha256}.

(** [HGETALL] collected into a map. *)
Definition read_hash {A} (key : string) (k : gmap string string -> prog DB A) : prog DB A :=
  Read (hfields key) k.

(** Place a participant on every lane that its slot is assigned to. *)
Definition place (layout : LaneLayout)
    (acc : cresult (gmap Z (list CollectiveParticipant))) (entry : string * string)
    : cresult (gmap Z (list CollectiveParticipant)) :=
  let? m := acc in
  let? p := participant_from_record entry.1 entry.2 in
  match assign layout entry.1 with
  | Err _ => Err CInternal
  | Ok assignments =>
      Ok (foldl (fun m a =>
            match m !! as_lane_id a with
            | None => m
            | Some ps =>
                <[as_lane_id a := ps ++ [MkParticipant (cp_slot_id p) (cp_worker_id p) (cp_role p)
                    (cp_index_in_role p) (as_rank_in_lane a) (cp_joined_epoch p)]]> m
            end) m assignments)
  end.

Definition place_all (layout : LaneLayout) (records : gmap string string)
    : cresult (gmap Z (list CollectiveParticipant)) :=
  let? m := foldl (place layout)
              (Ok (list_to_map (map (fun l => (lane_id l, [])) (lanes layout))))
              (hash_entries records) in
  Ok (sort_by_key cp_rank_in_lane <$> m).

Definition lane_message (placed : gmap Z (list CollectiveParticipant)) (declared : Lane)
    (fields : gmap string string) : cresult CollectiveLane :=
  let? nccl := match fields !! "nccl_unique_id" with
               | Some text => hex_decode text | None => Ok "" end in
  let bootstrap_epoch :=
    default 0%Z (v ← fields !! "bootstrap_epoch"; parse_unsigned u64_max v) in
  Ok (MkCollectiveLane (lane_id declared) (kind declared) (world_size declared) nccl
        bootstrap_epoch (default [] (placed !! lane_id declared))).

(** The pipeline of lane reads: one [HGETALL] per lane. *)
Fixpoint read_lanes {A} (group_id : string) (ls : list Lane)
    (k : list (gmap string string) -> prog DB A) : prog DB A :=
  match ls with
  | [] => k []
  | l :: ls' => read_hash (lane_key group_id (lane_id l)) (fun h =>
                  read_lanes group_id ls' (fun hs => k (h :: hs)))
  end.

(** The message built from the four reads. *)
Definition group_message (group_id : string) (fields records : gmap string string)
    (epoch : Z) (trainers generators : list string) (layout : LaneLayout)
    (placed : gmap Z (list CollectiveParticipant)) (lane_hashes : list (gmap string string))
    (reported : gmap string string) : cresult CollectiveGroup :=
  let? ls := collect (fun '(l, h) => lane_message placed l h) (zip (lanes layout) lane_hashes) in
  let? group_digest := field fields "plan_digest" in
  let disagreeing :=
    str_sort (map fst (filter (fun e => e.2 ≠ group_digest) (hash_entries reported))) in
  let? source_worker := field fields "plan_source_worker_id" in
  let? plan_source :=
    (if str_is_empty source_worker then Ok None
     else let? endpoint := field fields "plan_source_endpoint" in
          let? digest := field fields "plan_source_digest" in
          Ok (Some (MkPlanSource source_worker endpoint digest))) in
  let? model_name := field fields "model_name" in
  let? state := field fields "state" in
  let? state := group_state_from_str state in
  let? created := parse_field u64_max fields "created_at_unix_ms" in
  Ok (MkCollectiveGroup group_id model_name epoch state ls plan_source group_digest
        trainers generators created disagreeing).

(** The root record: epoch, slots and layout. *)
Definition root_layout (fields : gmap string string)
    : cresult (Z * list string * list string * LaneLayout) :=
  let? epoch := parse_field u64_max fields "epoch" in
  let? trainers := field fields "expected_trainer_slots" in
  let? generators := field fields "expected_generator_slots" in
  let? text := field fields "lanes" in
  let? ls := decode_lanes text in
  match LaneLayout_new ls (split_slots trainers) (split_slots generators) with
  | Err _ => Err CInternal
  | Ok layout => Ok (epoch, split_slots trainers, split_slots generators, layout)
  end.

Definition read_group_once (group_id : string) : prog DB (cresult CollectiveGroup) :=
  read_hash (group_key group_id) (fun fields =>
    if bool_decide (fields = ∅) then Ret (Err CNotFound)
    else match root_layout fields with
    | Err e => Ret (Err e)
    | Ok (epoch, trainers, generators, layout) =>
        read_hash (participants_key group_id) (fun records =>
          match place_all layout records with
          | Err e => Ret (Err e)
          | Ok placed =>
              read_lanes group_id (lanes layout) (fun lane_hashes =>
                read_hash (digests_key group_id) (fun reported =>
                  Ret (group_message group_id fields records epoch trainers generators layout
                         placed lane_hashes reported)))
          end)
    end).

Definition refresh_group_state (group_id : string) : prog DB (cresult unit) :=
  Read (hget (group_key group_id) "lanes") (fun stored =>
    match stored with
    | None => Ret (Err CNotFound)
    | Some text =>
        match decode_lanes text with
        | Err e => Ret (Err e)
        | Ok ls =>
            Call (REFRESH_GROUP_LUA (group_key group_id) (participants_key group_id)
                    (digests_key group_id) (active_ops_key group_id)
                    (map (fun l => lane_key group_id (lane_id l)) ls) OPERATION_KEY_PREFIX)
              (fun outcome =>
                 if String.eqb outcome "NOTFOUND" then Ret (Err CNotFound)
                 else if negb (starts_with "OK:" outcome) then Ret (Err CInternal)
                 else Ret (Ok ()))
        end
    end).

(** The root record is read again: the group is returned if its epoch and state
    did not change, otherwise the attempt is repeated. *)
Definition recheck (fields : gmap string string) (group : CollectiveGroup) : cresult bool :=
  if bool_decide (fields = ∅) then Ok false
  else
    let? epoch := parse_field u64_max fields "epoch" in
    if negb (epoch =? cg_epoch group)%Z then Ok false
    else
      let? state := field fields "state" in
      let? state := group_state_from_str state in
      Ok (bool_decide (state = cg_state group)).

Fixpoint read_group_attempts (attempts : nat) (group_id : string)
    : prog DB (cresult CollectiveGroup) :=
  match attempts with
  | O => Ret (Err CUnavailable)
  | S attempts' =>
      try! _ := refresh_group_state group_id in
      try! group := read_group_once group_id in
      read_hash (group_key group_id) (fun fields =>
        match recheck fields group with
        | Err e => Ret (Err e)
        | Ok true => Ret (Ok group)
        | Ok false => read_group_attempts attempts' group_id
        end)
  end.

Definition read_group (group_id : string) : prog DB (cresult CollectiveGroup) :=
  read_group_attempts 5 group_id.

Definition transfer_message (operation_id : string) (fields : gmap string string)
    (reported : list string) : cresult CollectiveTransfer :=
  let? group_id := field fields "group_id" in
  let? epoch := parse_field u64_max fields "epoch" in
  let? version_id := field fields "version_id" in
  let? model_name := field fields "model_name" in
  let? idempotency_key := field fields "idempotency_key" in
  let? state := field fields "state" in
  let? state := transfer_state_from_str state in
  let? created := parse_field u64_max fields "created_at_unix_ms" in
  let? message := field fields "failure_message" in
  Ok (MkCollectiveTransfer operation_id group_id epoch version_id model_name idempotency_key
        state created reported message).

Definition read_transfer (operation_id : string) : prog DB (cresult CollectiveTransfer) :=
  read_hash (operation_key operation_id) (fun fields =>
    if bool_decide (fields = ∅) then Ret (Err CNotFound)
    else Read (smembers (reported_key operation_id)) (fun reported =>
      Ret (transfer_message operation_id fields reported))).

(** The arguments of the join script. *)
Definition join_script_args (group_id : string) (spec : CollectiveGroupSpec) (layout : LaneLayout)
    (role_text : string) (request : JoinRequest) (now_ms : Z) : join_args :=
  let src := default (MkPlanSource "" "" "") (jr_plan_source request) in
  MkJoinArgs group_id (gs_model_name spec) (encode_lanes (lanes layout))
    (decimal (saturating_add_u32 (trainer_count layout) (generator_count layout)))
    (jr_slot_id request) (jr_worker_id request) role_text (decimal (jr_index_in_role request))
    (jr_plan_digest request) (ps_worker_id src) (ps_endpoint src) (ps_digest src)
    (join (String newline "") (gs_trainer_slots spec))
    (join (String newline "") (gs_generator_slots spec))
    (decimal now_ms) OPERATION_KEY_PREFIX.

Definition join_script_keys (group_id worker_id : string) (layout : LaneLayout) : join_keys :=
  MkJoinKeys (group_key group_id) (participants_key group_id) (digests_key group_id)
    (worker_key worker_id) (active_ops_key group_id)
    (map (fun l => lane_key group_id (lane_id l)) (lanes layout)).

(** The reply of the join script as a membership. *)
Definition join_outcome (group_id slot_id : string) (layout : LaneLayout)
    (assignments : list Assignment) (outcome : string) : cresult CollectiveGroupMembership :=
  if String.eqb outcome "UNEXPECTED_SLOT" then Err CInvalidArgument
  else if String.eqb outcome "UNREGISTERED" then Err CFailedPrecondition
  else if String.eqb outcome "INVALID_PLAN_SOURCE" then Err CInvalidArgument
  else if String.eqb outcome "CONFLICTING_ASSIGNMENT" then Err CAlreadyExists
  else if String.eqb outcome "DUPLICATE_RANK" then Err CAlreadyExists
  else if String.eqb outcome "DUPLICATE_WORKER" then Err CAlreadyExists
  else if String.eqb outcome "CORRUPT_PARTICIPANT" then Err CInternal
  else
    let parts := split ":" outcome in
    if negb (bool_decide (parts !! 0 = Some "OK")) then Err CInternal
    else
      match v ← parts !! 1; parse_unsigned u64_max v with
      | None => Err CInternal
      | Some epoch =>
          let? state := group_state_from_str (default "FORMING" (parts !! 2)) in
          Ok (MkMembership group_id epoch assignments state (is_bootstrap_leader layout slot_id))
      end.

Definition join_group (now_ms : Z) (request : JoinRequest)
    : prog DB (cresult CollectiveGroupMembership) :=
  match jr_spec request with
  | None => Ret (Err CInvalidArgument)
  | Some spec =>
      match layout_for spec with
      | Err e => Ret (Err e)
      | Ok layout =>
          match assign layout (jr_slot_id request) with
          | Err _ => Ret (Err CInvalidArgument)
          | Ok assignments =>
              let group_id := group_id_for spec in
              let run role_text :=
                Call (JOIN_GROUP_LUA (join_script_keys group_id (jr_worker_id request) layout)
                        (join_script_args group_id spec layout role_text request now_ms))
                  (fun outcome =>
                     Ret (join_outcome group_id (jr_slot_id request) layout assignments outcome)) in
              match default RoleUnspecified (role_try_from (jr_role request)) with
              | RoleTrainer => run "TRAINER"
              | RoleGenerator => run "GENERATOR"
              | RoleUnspecified => Ret (Err CInvalidArgument)
              end
          end
      end
  end.

Definition get_group (group_id : string) : prog DB (cresult CollectiveGroup) := read_group group_id.

Definition publish_bootstrap (request : PublishRequest) : prog DB (cresult CollectiveGroup) :=
  let G := pr_group_id request in
  try! group := read_group G in
  match list_find (fun l => cl_lane_id l = pr_lane_id request) (cg_lanes group) with
  | None => Ret (Err CInvalidArgument)
  | Some (_, lane) =>
      match list_find (fun p => cp_rank_in_lane p = 0%Z) (cl_participants lane) with
      | None => Ret (Err CFailedPrecondition)
      | Some (_, leader) =>
          Call (PUBLISH_BOOTSTRAP_LUA (group_key G) (participants_key G) (digests_key G)
                  (lane_key G (pr_lane_id request))
                  (map (fun l => lane_key G (cl_lane_id l)) (cg_lanes group))
                  (decimal (pr_epoch request)) (pr_worker_id request)
                  (hex_encode (pr_nccl_unique_id request)) (cp_slot_id leader))
            (fun outcome =>
               if String.eqb outcome "NOTFOUND" then Ret (Err CNotFound)
               else if starts_with "STALE:" outcome then Ret (Err CFailedPrecondition)
               else if String.eqb outcome "NOTLEADER" then Ret (Err CFailedPrecondition)
               else if String.eqb outcome "CONFLICT" then Ret (Err CAlreadyExists)
               else if negb (starts_with "OK:" outcome) then Ret (Err CInternal)
               else read_group G)
      end
  end.

Definition create_script_args (operation_id group_id : string) (spec : CollectiveGroupSpec)
    (request : CreateTransferRequest) (now_ms timeout_secs : Z) : create_args :=
  MkCreateArgs operation_id group_id (cr_version_id request) (gs_model_name spec)
    (cr_idempotency_key request) "PENDING" (decimal now_ms) OPERATION_KEY_PREFIX
    (decimal timeout_secs) (decimal (cr_expected_epoch request)).

(** The same request as the one that created the transfer. *)
Definition same_request (group_id : string) (spec : CollectiveGroupSpec)
    (request : CreateTransferRequest) (t : CollectiveTransfer) : bool :=
  String.eqb (ct_group_id t) group_id && String.eqb (ct_version_id t) (cr_version_id request) &&
  String.eqb (ct_model_name t) (gs_model_name spec) &&
  String.eqb (ct_idempotency_key t) (cr_idempotency_key request).

Definition create_transfer (now_ms timeout_secs : Z) (operation_id : string)
    (request : CreateTransferRequest) : prog DB (cresult CollectiveTransfer) :=
  match cr_spec request with
  | None => Ret (Err CInvalidArgument)
  | Some spec =>
      match layout_for spec with
      | Err e => Ret (Err e)
      | Ok _ =>
          if (cr_expected_epoch request =? 0)%Z then Ret (Err CInvalidArgument)
          else
            let group_id := group_id_for spec in
            let! refreshed := refresh_group_state group_id in
            match refreshed with
            | Ok _ | Err CNotFound =>
                Call (CREATE_TRANSFER_LUA (operation_key operation_id)
                        (operation_idempotency_key (gs_model_name spec) (cr_idempotency_key request))
                        (group_key group_id) (active_ops_key group_id)
                        (create_script_args operation_id group_id spec request now_ms timeout_secs))
                  (fun outcome =>
                     if String.eqb outcome "CREATED" then read_transfer operation_id
                     else if starts_with "NOTREADY:" outcome then Ret (Err CFailedPrecondition)
                     else if String.eqb outcome "COLLISION" then Ret (Err CInternal)
                     else if String.eqb outcome "NOGROUP" then Ret (Err CFailedPrecondition)
                     else if starts_with "BUSY:" outcome then Ret (Err CFailedPrecondition)
                     else
                       match strip_prefix "EXISTING:" outcome with
                       | None => Ret (Err CInternal)
                       | Some existing =>
                           try! t := read_transfer existing in
                           if same_request group_id spec request t then Ret (Ok t)
                           else Ret (Err CAlreadyExists)
                       end)
            | Err e => Ret (Err e)
            end
      end
  end.

Definition get_transfer (operation_id : string) : prog DB (cresult CollectiveTransfer) :=
  read_transfer operation_id.

Definition transfer_terminal (s : CollectiveTransferState) : bool :=
  match s with
  | TransferComplete | TransferFailed | TransferAborted => true
  | TransferPending | TransferRunning => false
  end.

Definition delete_transfer (operation_id : string) : prog DB (cresult CollectiveTransfer) :=
  try! t := read_transfer operation_id in
  if negb (transfer_terminal (ct_state t)) then Ret (Err CFailedPrecondition)
  else
    Call (DELETE_TRANSFER_LUA (operation_key operation_id) (reported_key operation_id)
            (operation_idempotency_key (ct_model_name t) (ct_idempotency_key t))
            (active_ops_key (ct_group_id t)) operation_id)
      (fun outcome =>
         if String.eqb outcome "DELETED" then Ret (Ok t)
         else if String.eqb outcome "NOTFOUND" then Ret (Err CNotFound)
         else if String.eqb outcome "NOTTERMINAL" then Ret (Err CFailedPrecondition)
         else Ret (Err CInternal)).

Definition report_transfer (request : ReportRequest) : prog DB (cresult CollectiveTransfer) :=
  let G := rr_group_id request in
  let o := rr_operation_id request in
  try! group := read_group G in
  Call (REPORT_TRANSFER_LUA (operation_key o) (reported_key o) (group_key G) (participants_key G)
          (active_ops_key G) (map (fun l => lane_key G (cl_lane_id l)) (cg_lanes group))
          o G (decimal (rr_epoch request)) (rr_worker_id request)
          (if rr_succeeded request then "1" else "0") (rr_message request))
    (fun outcome =>
       if String.eqb outcome "NOTFOUND" then Ret (Err CNotFound)
       else if String.eqb outcome "WRONGGROUP" then Ret (Err CInvalidArgument)
       else if String.eqb outcome "NOTADMITTED" then Ret (Err CFailedPrecondition)
       else if String.eqb outcome "NOTREADY" then Ret (Err CFailedPrecondition)
       else if starts_with "OPSTALE:" outcome then Ret (Err CFailedPrecondition)
       else if starts_with "STALE:" outcome then Ret (Err CFailedPrecondition)
       else if starts_with "OK:" outcome then read_transfer o
       else Ret (Err CInternal)).
End methods.
