(* ===== verification/CollectiveText.v ===== *)
(** * The stored text forms of collective groups

    What redis.rs writes into records and reads back: numbers, identifiers in
    hexadecimal, the lane set, and the identity of a group. *)

From Stdlib Require Import ZArith Lia Ascii String.
From stdpp Require Import base tactics option list sorting gmap fin_maps strings.
From S2P Require Import Prelude RustStr RedisStore RedisServer RedisProg Lanes.
From S2P Require Import SourceIdentityHash CollectiveScripts CollectiveEffects CollectiveBackend.

(** ** Numbers *)

Lemma parse_i32_decimal z : (0 <= z <= 2 ^ 31 - 1)%Z -> parse_i32 (decimal z) = Some z.
Proof.
  intros Hz. unfold parse_i32. rewrite (strip_no_prefix "-") by done. by apply parse_unsigned_decimal.
Qed.

Lemma decimal_parse_unsigned max z x :
  (0 <= z)%Z -> parse_unsigned max (decimal z) = Some x -> x = z.
Proof.
  intros Hz. unfold parse_unsigned. rewrite (strip_no_prefix "+") by done. cbn [default from_option].
  pose proof (parse_decimal z Hz) as Hp. destruct (str_is_empty (decimal z)); [done|].
  rewrite Hp. simpl. destruct (z <=? max)%Z; congruence.
Qed.

(** ** Hexadecimal *)

Lemma hex_digit_value n : (n < 16)%N -> hex_value (hex_digit n) = Some n ∧ hex_digit n ≠ "+"%char.
Proof.
  intros Hn.
  assert (n = 0 ∨ n = 1 ∨ n = 2 ∨ n = 3 ∨ n = 4 ∨ n = 5 ∨ n = 6 ∨ n = 7 ∨ n = 8 ∨ n = 9 ∨
    n = 10 ∨ n = 11 ∨ n = 12 ∨ n = 13 ∨ n = 14 ∨ n = 15)%N as Hc by lia.
  repeat destruct Hc as [->|Hc]; try (split; [by vm_compute|discriminate]). subst.
  split; [by vm_compute|discriminate].
Qed.

Lemma hex_pair_encode c :
  hex_pair (hex_digit (N_of_ascii c / 16)) (hex_digit (N_of_ascii c mod 16)) = Some c.
Proof.
  pose proof (N_ascii_bounded c) as Hb. unfold hex_pair.
  destruct (hex_digit_value (N_of_ascii c / 16)) as [H1 Hp].
  { apply N.Div0.div_lt_upper_bound; lia. }
  destruct (hex_digit_value (N_of_ascii c mod 16)) as [H2 _]; [apply N.mod_lt; lia|].
  destruct (Ascii.eqb_spec (hex_digit (N_of_ascii c / 16)) "+"); [done|].
  rewrite H1, H2. simpl. f_equal. rewrite <- N.div_mod by lia. apply ascii_N_embedding.
Qed.

(** [hex_decode] reads back exactly the bytes that [hex_encode] wrote, for every
    byte string, so a communicator identifier survives its trip through the store. *)
Lemma hex_roundtrip bytes : hex_decode (hex_encode bytes) = Ok bytes.
Proof.
  induction bytes as [|c bytes IH]; [done|]. cbn [hex_encode hex_decode].
  by rewrite hex_pair_encode, IH.
Qed.

(** ** Collecting *)

Lemma collect_ok {A B} (f : A -> cresult B) l ys :
  collect f l = Ok ys ↔ Forall2 (fun x y => f x = Ok y) l ys.
Proof.
  split.
  - revert ys. induction l as [|x l IH]; intros ys; simpl; [intros [= <-]; constructor|].
    destruct (f x) as [y|] eqn:E; [|done]. destruct (collect f l) as [ys'|]; [|done].
    intros [= <-]. constructor; auto.
  - induction 1 as [|x y l ys Hx _ IH]; simpl; [done|]. by rewrite Hx, IH.
Qed.

(** ** The lane set *)

Lemma kind_code_roundtrip k : lane_kind_try_from (lane_kind_code k) = Some k.
Proof. by destruct k. Qed.

(** A slot name that validation lets through. *)
Definition slot_plain (s : string) : Prop :=
  s ≠ "" ∧ contains_char bar s = false ∧ contains_char comma s = false ∧
  contains_char newline s = false.

Definition lane_plain (l : Lane) : Prop :=
  (0 <= lane_id l <= u32_max)%Z ∧ Forall slot_plain (trainer_slots l) ∧
  Forall slot_plain (generator_slots l).

Lemma contains_join c sep (l : list string) :
  contains_char c sep = false -> Forall (fun x => contains_char c x = false) l ->
  contains_char c (join sep l) = false.
Proof.
  intros Hs. induction 1 as [|x l Hx Hl IH]; [done|]. destruct l as [|y l]; [done|].
  change (join sep (x :: y :: l)) with (x +:+ sep +:+ join sep (y :: l)).
  by rewrite !contains_char_app, Hx, Hs, IH.
Qed.

Lemma slots_no c l :
  c = bar ∨ c = newline -> Forall slot_plain l ->
  contains_char c (join (String comma "") l) = false.
Proof.
  intros Hc Hl. apply contains_join; [by destruct Hc as [->| ->]|].
  eapply Forall_impl; [exact Hl|]. intros s (_ & Hb & _ & Hn). by destruct Hc as [->| ->].
Qed.

Lemma split_csv_join l : Forall slot_plain l -> split_csv (join (String comma "") l) = l.
Proof.
  intros Hl. destruct l as [|s l]; [done|]. unfold split_csv.
  assert (join (String comma "") (s :: l) ≠ "") as Hne.
  { apply Forall_inv in Hl as (Hs & _). destruct s; [done|]. by destruct l. }
  destruct (join (String comma "") (s :: l)) eqn:E; [done|]. cbn [str_is_empty]. rewrite <- E.
  apply split_join; [done|]. eapply Forall_impl; [exact Hl|]. by intros x (_ & _ & ? & _).
Qed.

Lemma kind_code_bounds k : (0 <= lane_kind_code k <= 2)%Z.
Proof. destruct k; simpl; lia. Qed.

Lemma encode_lane_pieces l :
  lane_plain l ->
  Forall (fun x => contains_char bar x = false ∧ contains_char newline x = false)
    [decimal (lane_id l); decimal (lane_kind_code (kind l));
     join (String comma "") (trainer_slots l); join (String comma "") (generator_slots l)].
Proof.
  intros (_ & Ht & Hg). repeat constructor;
    first [by apply decimal_no|by apply slots_no; auto].
Qed.

Lemma decode_encode_lane l : lane_plain l -> decode_lane (encode_lane l) = Ok l.
Proof.
  intros Hl. pose proof (encode_lane_pieces l Hl) as Hp. destruct Hl as (Hid & Ht & Hg).
  pose proof (kind_code_bounds (kind l)) as Hk. unfold decode_lane, encode_lane.
  rewrite split_join; [|done|by eapply Forall_impl; [exact Hp|]; intros ? []].
  cbn [nth length Nat.ltb Nat.leb].
  rewrite parse_unsigned_decimal, parse_i32_decimal, kind_code_roundtrip, !split_csv_join
    by (done || lia). by destruct l.
Qed.

Lemma encode_lane_ne l : encode_lane l ≠ "".
Proof.
  unfold encode_lane. destruct (decimal (lane_id l)) eqn:E; [|done].
  pose proof (decimal_ne_empty (lane_id l)). congruence.
Qed.

(** The lane set survives [encode_lanes] and [decode_lanes]: lane identifiers, kinds, and
    the slots of every lane in rank order. *)
Lemma lanes_decode ls : Forall lane_plain ls -> decode_lanes (encode_lanes ls) = Ok ls.
Proof.
  intros Hls. destruct ls as [|l ls]; [done|]. unfold decode_lanes.
  assert (encode_lanes (l :: ls) ≠ "") as Hne.
  { unfold encode_lanes. simpl. pose proof (encode_lane_ne l). destruct (encode_lane l); [done|].
    by destruct (map encode_lane ls). }
  destruct (encode_lanes (l :: ls)) eqn:E; [done|]. cbn [str_is_empty]. rewrite <- E.
  unfold encode_lanes. rewrite split_join; [|done|].
  - apply collect_ok. apply Forall2_fmap_l, Forall2_same_length_lookup_2; [done|].
    intros i x y Hx Hy. simplify_eq. apply decode_encode_lane. by eapply Forall_lookup in Hx.
  - apply Forall_fmap. eapply Forall_impl; [exact Hls|]. intros x Hx. simpl.
    apply contains_join; [done|]. eapply Forall_impl; [by apply encode_lane_pieces|]. by intros ? [].
Qed.

(** ** The identity of a group *)

Lemma str_sort_perm l l' : l ≡ₚ l' -> str_sort l = str_sort l'.
Proof.
  intros Hp. apply (StronglySorted_unique_strong (fun a b => String.leb a b = true)).
  - intros x y _ _. apply String.leb_antisym.
  - apply sort_by_sorted; [apply String.leb_total|intros ???; apply string_leb_trans].
  - apply sort_by_sorted; [apply String.leb_total|intros ???; apply string_leb_trans].
  - unfold str_sort. by rewrite !sort_by_perm.
Qed.

Lemma lane_leb_total a b : lane_leb a b = true ∨ lane_leb b a = true.
Proof. unfold lane_leb. rewrite !orb_true_iff, !andb_true_iff. lia. Qed.

Lemma lane_leb_trans a b c : lane_leb a b = true -> lane_leb b c = true -> lane_leb a c = true.
Proof. unfold lane_leb. rewrite !orb_true_iff, !andb_true_iff. lia. Qed.

Lemma lanes_sort_perm ls ls' :
  NoDup (map (fun l => (ls_lane_id l, ls_kind l)) ls) -> ls ≡ₚ ls' ->
  sort_by lane_leb ls = sort_by lane_leb ls'.
Proof.
  intros Hnd Hp. apply (StronglySorted_unique_strong (fun a b => lane_leb a b = true)).
  - intros x y Hx Hy Hxy Hyx. rewrite elem_of_sort_by in Hx, Hy. rewrite <- Hp in Hy.
    assert ((ls_lane_id x, ls_kind x) = (ls_lane_id y, ls_kind y)) as Hk.
    { unfold lane_leb in *. rewrite !orb_true_iff, !andb_true_iff in *. f_equal; lia. }
    apply list_elem_of_lookup in Hx as [i Hi], Hy as [j Hj].
    assert (i = j) as <-; [|congruence].
    eapply NoDup_lookup; [exact Hnd|..]; rewrite list_lookup_fmap, ?Hi, ?Hj; simpl; [done|].
    by rewrite Hk.
  - apply sort_by_sorted; [apply lane_leb_total|apply lane_leb_trans].
  - apply sort_by_sorted; [apply lane_leb_total|apply lane_leb_trans].
  - by rewrite !sort_by_perm.
Qed.

(** Two members that declare the same model, the same lanes and the same slots, in
    whatever order they list the lanes and the expected slots, derive the same group. *)
Lemma group_id_order_free `{Sha256} spec spec' :
  gs_model_name spec = gs_model_name spec' ->
  NoDup (map (fun l => (ls_lane_id l, ls_kind l)) (gs_lanes spec)) ->
  gs_lanes spec ≡ₚ gs_lanes spec' ->
  gs_trainer_slots spec ≡ₚ gs_trainer_slots spec' ->
  gs_generator_slots spec ≡ₚ gs_generator_slots spec' ->
  group_id_for spec = group_id_for spec'.
Proof.
  intros Hm Hnd Hl Ht Hg. unfold group_id_for, group_id_input.
  by rewrite Hm, (lanes_sort_perm _ _ Hnd Hl), (str_sort_perm _ _ Ht), (str_sort_perm _ _ Hg).
Qed.

Definition spec_ab : CollectiveGroupSpec :=
  MkGroupSpec "m" ["t0"; "t1"] ["g0"; "g1"]
    [MkLaneSpec 1 1 ["t0"] ["g0"]; MkLaneSpec 2 1 ["t1"] ["g1"]].
Definition spec_ba : CollectiveGroupSpec :=
  MkGroupSpec "m" ["t1"; "t0"] ["g1"; "g0"]
    [MkLaneSpec 2 1 ["t1"] ["g1"]; MkLaneSpec 1 1 ["t0"] ["g0"]].

(** A digest that keeps its input, for concrete runs. *)
Definition plain_sha : Sha256 := {| sha256 := fun s => s |}.

Lemma group_id_order_free_witness :
  group_id_for (H := plain_sha) spec_ab = group_id_for (H := plain_sha) spec_ba.
Proof.
  apply (group_id_order_free (H := plain_sha) spec_ab spec_ba).
  - reflexivity.
  - repeat constructor; simpl; set_solver.
  - simpl. apply Permutation_swap.
  - simpl. apply Permutation_swap.
  - simpl. apply Permutation_swap.
Defined.

(** ** Participants *)

Lemma record_joined slot r w role index e p :
  (0 <= e <= u64_max)%Z -> parse_participant r = Some (w, role, index, decimal e) ->
  participant_from_record slot r = Ok p -> cp_joined_epoch p = e ∧ cp_slot_id p = slot.
Proof.
  intros He Hp. unfold parse_participant in Hp. unfold participant_from_record.
  destruct (split bar r) as [|a [|b [|c [|d [|? ?]]]]] eqn:E; unfold bar in E; rewrite E in Hp; try done.
  injection Hp as -> -> -> ->. cbn [nth length Nat.ltb Nat.leb].
  rewrite parse_unsigned_decimal by done.
  destruct (if String.eqb role "TRAINER" then _ else _); [|done].
  destruct (parse_unsigned u32_max index); [|done]. by intros [= <-].
Qed.

(** ** The participants of a lane *)

Section placing.
Context `{HashIterLaws}.

(** A participant with its rank in a lane. *)
Definition ranked (p : CollectiveParticipant) (a : Assignment) : CollectiveParticipant :=
  MkParticipant (cp_slot_id p) (cp_worker_id p) (cp_role p) (cp_index_in_role p)
    (as_rank_in_lane a) (cp_joined_epoch p).

Definition on_lane (i : Z) (as_ : list Assignment) : list Assignment :=
  filter (fun a => as_lane_id a = i) as_.

Lemma place_assignments p as_ : forall (m : gmap Z (list CollectiveParticipant)) i,
  foldl (fun m a =>
    match m !! as_lane_id a with
    | None => m
    | Some ps => <[as_lane_id a := ps ++ [ranked p a]]> m
    end) m as_ !! i = (fun ps => ps ++ map (ranked p) (on_lane i as_)) <$> m !! i.
Proof.
  induction as_ as [|a as_ IH]; intros m i; cbn [foldl].
  { destruct (m !! i) as [ps|]; simpl; [|done]. by rewrite app_nil_r. }
  rewrite IH. unfold on_lane. rewrite filter_cons.
  destruct (m !! as_lane_id a) as [ps|] eqn:E.
  - destruct (decide (as_lane_id a = i)) as [<-|Hne].
    + rewrite lookup_insert_eq, E. simpl. by rewrite <- app_assoc.
    + by rewrite lookup_insert_ne.
  - destruct (decide (as_lane_id a = i)) as [<-|Hne]; [by rewrite E|done].
Qed.

(** What one record adds to lane [i]. *)
Definition contribution (layout : LaneLayout) (i : Z) (entry : string * string)
    : list CollectiveParticipant :=
  match participant_from_record entry.1 entry.2, assign layout entry.1 with
  | Ok p, Ok as_ => map (ranked p) (on_lane i as_)
  | _, _ => []
  end.

Lemma place_fold layout l : forall acc m,
  foldl (place layout) acc l = Ok m ->
  ∃ m0, acc = Ok m0 ∧
  Forall (fun en => is_Some (result_ok (participant_from_record en.1 en.2)) ∧
                    is_Some (result_ok (assign layout en.1))) l ∧
  forall i, m !! i = (fun ps => ps ++ concat (map (contribution layout i) l)) <$> m0 !! i.
Proof.
  induction l as [|en l IH]; intros acc m Hm; cbn [foldl] in Hm.
  { exists m. split_and!; [done|constructor|]. intros i. destruct (m !! i); simpl; [|done].
    by rewrite app_nil_r. }
  apply IH in Hm as (m1 & Hp & Hall & Hm). destruct acc as [m0|]; [|done]. exists m0.
  unfold place in Hp. destruct (participant_from_record en.1 en.2) as [p|] eqn:Ep; [|done].
  destruct (assign layout en.1) as [as_|] eqn:Ea; [|done]. injection Hp as <-.
  split_and!; [done|constructor; [|done]; rewrite Ep, Ea; eauto|].
  intros i. rewrite Hm. setoid_rewrite place_assignments. unfold contribution at 2. cbn [map concat].
  unfold contribution. rewrite Ep, Ea. destruct (m0 !! i); simpl; [|done]. by rewrite app_assoc.
Qed.

Lemma place_all_lane layout records m lane :
  place_all layout records = Ok m -> lane ∈ lanes layout ->
  NoDup (map lane_id (lanes layout)) ->
  m !! lane_id lane = Some (sort_by_key cp_rank_in_lane
    (concat (map (contribution layout (lane_id lane)) (hash_entries records)))) ∧
  forall s r, records !! s = Some r -> ∃ p as_,
    participant_from_record s r = Ok p ∧ assign layout s = Ok as_.
Proof.
  unfold place_all. intros Hm Hl Hnd.
  destruct (foldl _ _ _) as [m1|] eqn:E; [|done]. injection Hm as <-.
  apply place_fold in E as (m0 & [= <-] & Hall & Hm). split.
  - rewrite lookup_fmap, Hm. rewrite (elem_of_list_to_map_1 _ (lane_id lane) []); [done|..].
    + by rewrite <- list_fmap_compose.
    + apply list_elem_of_fmap. eauto.
  - intros s r Hr. apply elem_of_map_to_list in Hr. rewrite <- hash_entries_perm in Hr.
    eapply Forall_forall in Hall as [[p Hp] [as_ Ha]]; [|exact Hr]. simpl in *.
    destruct (participant_from_record s r), (assign layout s); simplify_eq/=. eauto.
Qed.

(** One assignment per lane: a slot is on a lane at its position, or not at all. *)
Lemma on_lane_declared ls lane s :
  NoDup (map lane_id ls) -> lane ∈ ls ->
  on_lane (lane_id lane) (declared ls s) =
  match position s (slots_in_rank_order lane) with
  | Some i => [assignment lane i] | None => [] end.
Proof.
  intros Hnd Hl. induction ls as [|l ls IH]; [set_solver|].
  cbn [map] in Hnd. apply NoDup_cons in Hnd as [Hnotin Hnd].
  assert (forall l', l' ∉ map lane_id ls -> on_lane l' (declared ls s) = []) as Hno.
  { intros l' Hl'. apply elem_of_nil_inv. intros a [Ha Hin]%list_elem_of_filter.
    apply elem_of_declared in Hin as (ln & i & Hln & _ & ->). simpl in Ha. subst l'. apply Hl'.
    apply list_elem_of_fmap. eauto. }
  unfold declared. cbn [omap list_omap]. fold (declared ls s).
  apply elem_of_cons in Hl as [->|Hl].
  - destruct (position s (slots_in_rank_order l)) as [i|]; cbn [fmap option_fmap option_map].
    + unfold on_lane. rewrite filter_cons, decide_True by done. f_equal. by apply Hno.
    + by apply Hno.
  - assert (lane_id l ≠ lane_id lane) as Hne.
    { intros Heq. apply Hnotin. rewrite Heq. apply list_elem_of_fmap. eauto. }
    destruct (position s (slots_in_rank_order l)) as [i|]; cbn [fmap option_fmap option_map];
      [|by apply IH].
    unfold on_lane. rewrite filter_cons, decide_False by done. by apply IH.
Qed.
End placing.

Section lane_members.
Context `{HashIterLaws}.
Context (ls : list Lane) (tr gen : list string) (layout : LaneLayout).
Context (Hnew : LaneLayout_new ls tr gen = Ok layout).
Context (lane : Lane) (Hlane : lane ∈ ls).
Context (Hlen : (Z.of_nat (length (slots_in_rank_order lane)) <= u32_max)%Z).

Lemma contribution_eq s r :
  contribution layout (lane_id lane) (s, r) =
  match participant_from_record s r, position s (slots_in_rank_order lane) with
  | Ok p, Some i => [ranked p (assignment lane i)]
  | _, _ => []
  end.
Proof.
  destruct (layout_declared ls tr gen layout Hnew) as (Hnd & _ & Hby).
  unfold contribution, assign. cbn [fst snd]. rewrite Hby.
  pose proof (on_lane_declared ls lane s Hnd Hlane) as Hon.
  destruct (participant_from_record s r) as [p|]; [|done].
  case_bool_decide as Hd.
  - rewrite Hd in Hon. by destruct (position s _).
  - rewrite Hon. by destruct (position s _).
Qed.

Lemma record_slot s r p : participant_from_record s r = Ok p -> cp_slot_id p = s.
Proof.
  unfold participant_from_record. destruct (if String.eqb _ _ then _ else _); [|done].
  destruct (parse_unsigned u32_max _); [|done]. destruct (parse_unsigned u64_max _); [|done].
  destruct (_ <? _); [done|]. by intros [= <-].
Qed.

Lemma imap_sorted (slots : list string) : forall n,
  StronglySorted (fun a b => a.2 <= b.2)%Z (imap (fun i s => (s, Z.of_nat (n + i))) slots).
Proof.
  induction slots as [|s slots IH]; intros n; cbn [imap]; constructor.
  - specialize (IH (S n)). erewrite imap_ext; [exact IH|]. intros i x _. simpl. do 2 f_equal. lia.
  - apply Forall_forall. intros x (i & y & -> & _)%elem_of_lookup_imap. simpl. lia.
Qed.

Definition placed_list (records : gmap string string) : list CollectiveParticipant :=
  concat (map (contribution layout (lane_id lane)) (hash_entries records)).

Lemma elem_of_placed records q :
  q ∈ placed_list records ↔
  ∃ s r p i, records !! s = Some r ∧ participant_from_record s r = Ok p ∧
    position s (slots_in_rank_order lane) = Some i ∧ q = ranked p (assignment lane i).
Proof.
  unfold placed_list. rewrite list_elem_of_In, in_concat. setoid_rewrite <- list_elem_of_In.
  setoid_rewrite list_elem_of_fmap. split.
  - intros (x & ([s r] & -> & Hen) & Hq). rewrite hash_entries_perm, elem_of_map_to_list in Hen.
    rewrite contribution_eq in Hq. destruct (participant_from_record s r) as [p|] eqn:Ep; [|set_solver].
    destruct (position s _) as [i|] eqn:Ei; [|set_solver]. apply list_elem_of_singleton in Hq.
    by exists s, r, p, i.
  - intros (s & r & p & i & Hr & Hp & Hi & ->). eexists. split.
    + exists (s, r). split; [done|]. by rewrite hash_entries_perm, elem_of_map_to_list.
    + rewrite contribution_eq, Hp, Hi. set_solver.
Qed.

Lemma placed_slots_NoDup records : NoDup (map cp_slot_id (placed_list records)).
Proof.
  unfold placed_list.
  assert (NoDup (hash_entries records).*1) as Hnd.
  { rewrite hash_entries_perm. apply NoDup_fst_map_to_list. }
  induction (hash_entries records) as [|[s r] l IH]; [constructor|].
  cbn [fmap list_fmap] in Hnd. apply NoDup_cons in Hnd as [Hs Hnd]. cbn [map concat].
  specialize (IH Hnd). rewrite contribution_eq.
  destruct (participant_from_record s r) as [p|] eqn:Ep; [|done].
  destruct (position s _) as [i|]; [|done]. cbn [map app ranked cp_slot_id]. rewrite (record_slot s r p Ep).
  constructor; [|done]. intros (q & Hq & Hin)%list_elem_of_fmap. apply Hs.
  rewrite list_elem_of_In, in_concat in Hin. destruct Hin as (x & Hx & Hin).
  rewrite <- list_elem_of_In in Hx. rewrite <- list_elem_of_In in Hin. apply list_elem_of_fmap in Hx as ([s' r'] & -> & Hen).
  rewrite contribution_eq in Hin. destruct (participant_from_record s' r') as [p'|] eqn:Ep'; [|set_solver].
  destruct (position s' _); [|set_solver]. apply list_elem_of_singleton in Hin as ->.
  cbn in Hq. rewrite (record_slot s' r' p' Ep') in Hq. subst s'. apply list_elem_of_fmap. by exists (s, r').
Qed.

Lemma StronglySorted_filter {A} (R : relation A) (P : A -> Prop) `{forall x, Decision (P x)} l :
  StronglySorted R l -> StronglySorted R (filter P l).
Proof.
  induction 1 as [|x l Hs IH Hall]; [constructor|]. rewrite filter_cons. case_decide; [|done].
  constructor; [done|]. apply Forall_forall. intros y [_ Hy]%list_elem_of_filter.
  by eapply Forall_forall in Hall.
Qed.

(** The sorted list is the declared rank order of the slots that are held. *)
Lemma placed_in_rank_order records :
  (forall s r, records !! s = Some r -> ∃ p, participant_from_record s r = Ok p) ->
  map (fun p => (cp_slot_id p, cp_rank_in_lane p))
    (sort_by_key cp_rank_in_lane (placed_list records)) =
  filter (fun x => is_Some (records !! x.1))
    (imap (fun i s => (s, Z.of_nat i)) (slots_in_rank_order lane)).
Proof.
  intros Hparse. destruct (layout_declared ls tr gen layout Hnew) as (_ & Hok & _).
  eapply Forall_forall in Hok as (_ & _ & Hnd & _ & _); [|exact Hlane].
  set (f := fun p : CollectiveParticipant => (cp_slot_id p, cp_rank_in_lane p)).
  set (g := fun i (s : string) => (s, Z.of_nat i)).
  assert (forall x, x ∈ imap g (slots_in_rank_order lane) ↔
    ∃ i, slots_in_rank_order lane !! i = Some x.1 ∧ x.2 = Z.of_nat i) as Hin.
  { intros [s z]. rewrite elem_of_lookup_imap. unfold g. simpl. naive_solver. }
  assert (forall i s, position s (slots_in_rank_order lane) = Some i ->
    u32_try_from_or_max i = Z.of_nat i) as Hrank.
  { intros i s Hi. apply u32_exact. apply position_lookup, lookup_lt_Some in Hi. lia. }
  apply (StronglySorted_unique_strong (fun a b => a.2 <= b.2)%Z).
  - intros x y Hx [_ Hy]%list_elem_of_filter Hle Hge. rewrite Hin in Hy. destruct Hy as (j & Hj & Hj2).
    apply list_elem_of_fmap in Hx as (q & -> & Hq). rewrite sort_by_key_perm in Hq.
    apply elem_of_placed in Hq as (s & r & p & i & Hr & Hp & Hi & ->). cbn in *.
    rewrite (Hrank i s Hi) in *. assert (i = j) as <- by lia.
    apply position_lookup in Hi. rewrite Hi in Hj. destruct y as [s' z]. simplify_eq/=.
    unfold f. cbn. rewrite (record_slot s' r p Hp). f_equal. by eapply Hrank, position_NoDup.
  - pose proof (sort_by_key_sorted cp_rank_in_lane (placed_list records)) as Hs.
    induction Hs as [|q l Hs IH Hall]; cbn [map]; constructor; [done|].
    apply Forall_fmap. eapply Forall_impl; [exact Hall|]. done.
  - apply StronglySorted_filter, (imap_sorted (slots_in_rank_order lane) 0).
  - apply NoDup_Permutation.
    + apply NoDup_fmap_1 with (f := fst). rewrite <- list_fmap_compose.
      change (fst ∘ f) with cp_slot_id. rewrite sort_by_key_perm. apply placed_slots_NoDup.
    + apply NoDup_filter. apply NoDup_fmap_1 with (f := fst). rewrite fmap_imap.
      change (compose fst ∘ g) with (fun _ : nat => @id string).
      rewrite (imap_const id), list_fmap_id. done.
    + intros [s z]. rewrite list_elem_of_filter, Hin, list_elem_of_fmap. setoid_rewrite sort_by_key_perm.
      setoid_rewrite elem_of_placed. cbn. split.
      * intros (q & Hq & (s' & r & p & i & Hr & Hp & Hi & ->)). unfold f in Hq. cbn in Hq.
        rewrite (Hrank i s' Hi), (record_slot s' r p Hp) in Hq. simplify_eq.
        split; [eauto|]. exists i. split; [by apply position_lookup|done].
      * intros ([r Hr] & i & Hi & ->). destruct (Hparse s r Hr) as [p Hp].
        pose proof (position_NoDup s _ i Hnd Hi) as Hpos.
        exists (ranked p (assignment lane i)). split; [|by exists s, r, p, i].
        unfold f. cbn. by rewrite (Hrank i s Hpos), (record_slot s r p Hp).
Qed.
End lane_members.
