(* ===== verification/CollectiveRead.v ===== *)
(** * Reading a group while others change it

    [read_group] makes four reads that are not atomic and checks the root record
    again at the end.  This file shows that the numbers the scripts store are in
    the canonical decimal form that the service parses, and that a READY group is
    never assembled from two epochs. *)

From Stdlib Require Import ZArith Lia Ascii String.
From stdpp Require Import base tactics option list relations gmap fin_maps fin_map_dom fin_sets strings.
From S2P Require Import Prelude RustStr RedisStore RedisServer RedisProg Lanes.
From S2P Require Import CollectiveScripts CollectiveEffects CollectiveMachine.
From S2P Require Import CollectiveInvariant CollectiveTransfers CollectiveEvolution.
From S2P Require Import CollectiveBackend CollectiveText.

Section texts.
Context {DB : Type} `{RedisServer DB, !RedisStoreLaws DB, !RedisServerLaws DB}.
Context `{LuaNumbers, !LuaNumbersLaws} `{LuaConcat, !LuaConcatLaws}.
Context (decl : string -> declaration) `{!DeclOk decl}.
Implicit Types db : DB.

(** ** Stored numbers are canonical *)

Definition record_text (n : Z) (r : string) : Prop :=
  ∃ w role index z, parse_participant r = Some (w, role, index, decimal z) ∧ (0 <= z <= n)%Z.
Definition stamp_text (n : Z) (v : string) : Prop := ∃ z, v = decimal z ∧ (0 <= z <= n)%Z.

(** Every participant record and stamp of [db'] is one of [db] or canonical. *)
Definition texts_from (n : Z) (G : string) db db' : Prop :=
  (forall s r, hget (participants_key G) s db' = Some r ->
     hget (participants_key G) s db = Some r ∨ record_text n r) ∧
  (forall i v, hget (lane_key G i) "bootstrap_epoch" db' = Some v ->
     hget (lane_key G i) "bootstrap_epoch" db = Some v ∨ stamp_text n v).

Definition texts_ok (n : Z) (G : string) db : Prop :=
  (forall s r, hget (participants_key G) s db = Some r -> record_text n r) ∧
  (forall i v, hget (lane_key G i) "bootstrap_epoch" db = Some v -> stamp_text n v).

Lemma texts_from_trans n G db1 db2 db3 :
  texts_from n G db1 db2 -> texts_from n G db2 db3 -> texts_from n G db1 db3.
Proof. intros [P1 L1] [P2 L2]. split; [intros s r Hr|intros i v Hv]; naive_solver. Qed.

Lemma texts_from_same n G db db' :
  (forall f, hget (participants_key G) f db' = hget (participants_key G) f db) ->
  (forall i f, hget (lane_key G i) f db' = hget (lane_key G i) f db) -> texts_from n G db db'.
Proof. intros Hp Hl. split; intros ??; rewrite ?Hp, ?Hl; auto. Qed.

Lemma texts_from_refl n G db : texts_from n G db db.
Proof. by apply texts_from_same. Qed.

Lemma texts_ok_from n G db db' :
  texts_ok n G db -> texts_from (n + 1) G db db' -> texts_ok (n + 1) G db'.
Proof.
  intros [Hp Hl] [Fp Fl]. split.
  - intros s r [Hr|Hr]%Fp; [|done]. destruct (Hp s r Hr) as (w & ro & ix & z & Hz & ?).
    exists w, ro, ix, z. split; [done|lia].
  - intros i v [Hv|Hv]%Fl; [|done]. destruct (Hl i v Hv) as (z & -> & ?). exists z. split; [done|lia].
Qed.

Lemma frame_texts n G db db' : group_frame G db db' -> texts_from n G db db'.
Proof. intros (_ & Hp & _ & Hl & _). by apply texts_from_same. Qed.

Lemma sweep_texts n G m rb db : plain_id G -> texts_from n G db (group_sweep G m rb db).1.
Proof.
  intros HG. pose proof (group_sweep_effect G m rb db HG) as S. split.
  - intros s r Hr. destruct (sw_parts _ _ _ _ _ _ _ _ _ _ S s) as [Heq|Heq]; rewrite Heq in Hr; auto.
    done.
  - intros i v. rewrite group_sweep_other by (done || key_ne). auto.
Qed.

Lemma new_epoch_texts n G fvs db : plain_id G -> texts_from n G db (new_epoch decl G fvs db).
Proof.
  intros HG. split.
  - intros s r. rewrite new_epoch_parts by done. auto.
  - intros i v. unfold new_epoch.
    destruct (abort_stale_ops_effect (active_ops_key G)
      (del_all (lane_keys decl G) (hset_all (group_key G) fvs db))) as (I1 & _).
    rewrite I1 by (intros o _; key_ne). rewrite hget_del_all. case_decide; [done|].
    rewrite hget_hset_all_ne by key_ne. auto.
Qed.

Lemma put_state_texts n G e ready db :
  plain_id G -> texts_from n G db (put_state (group_key G) e ready db).1.
Proof.
  intros HG. apply texts_from_same; intros; cbn [put_state fst];
    rewrite hget_hset, decide_False; try done; intros [Hk _]; revert Hk; key_ne.
Qed.

Lemma admit_texts n G A e db :
  plain_id G -> join_args_ok decl G A -> (0 <= e <= n)%Z -> (n < lua_concat_max)%Z ->
  texts_from n G db (join_admit (join_keys_of decl G (ja_worker_id A)) A e db).1.
Proof.
  intros HG HA He Hn. rewrite join_admit_writes.
  eapply texts_from_trans; [|by apply put_state_texts]. split.
  - intros s r. rewrite hget_admit by (done || left; key_ne). case_decide as Hk.
    + intros [= <-]. right. do 4 eexists. split; [by apply (member_record_parse decl G); [|lia]|done].
    + rewrite decide_False; [auto|]. intros [Hk' _]. revert Hk'. key_ne.
  - intros i v. rewrite hget_admit by (done || left; key_ne).
    rewrite !decide_False; [auto|..]; intros [Hk' _]; revert Hk'; key_ne.
Qed.

Lemma create_texts n G A db :
  plain_id G -> join_args_ok decl G A ->
  texts_from n G db (join_create (join_keys_of decl G (ja_worker_id A)) A db).
Proof.
  intros HG HA. split.
  - intros s r. by rewrite (join_create_empty decl G A db).
  - intros i v. rewrite (join_create_wiped decl G A db HA), hget_hset_all_ne by key_ne.
    destruct (abort_stale_ops_effect (active_ops_key G) (wiped decl G db)) as (I1 & _).
    rewrite I1 by (intros o _; key_ne). unfold wiped. rewrite hget_del_all. case_decide; [done|].
    rewrite !hget_del, !decide_False by key_ne. auto.
Qed.

Lemma join_texts D n G A db :
  plain_id G -> join_args_ok decl G A -> (0 <= n)%Z -> (n + 1 < lua_concat_max)%Z ->
  db_inv decl D n db -> texts_from (n + 1) G db (join_run decl G A db).1.
Proof.
  intros HG HA Hn0 Hn [Hgi _]. destruct (Hgi G HG) as [Hb _ _].
  assert (forall e, epoch_of G db = Some e -> (0 <= e <= n)%Z) as Hen.
  { intros e He. destruct (epoch_of_Some decl n G db e) as [_ ?]; [|done..|lia].
    unfold lua_concat_max, lua_int_max in *. lia. }
  assert (forall e rep, texts_from (n + 1) G db (join_prepared decl G A e rep db)) as Hprep.
  { intros e rep. eapply texts_from_trans; [by apply sweep_texts|].
    apply frame_texts. by apply join_cleared_frame. }
  destruct (join_run_result decl G A db HA) as [reply|e rep err He Herr|e rep He Hs|
    e rep He Hs Hslot Hch|He Hs]; cbn [fst].
  - apply texts_from_refl.
  - apply Hprep.
  - specialize (Hen e He). rewrite join_bump_new_epoch by done.
    eapply texts_from_trans; [apply (Hprep e rep)|].
    eapply texts_from_trans; [|apply admit_texts; [done..|lia|lia]]. by apply new_epoch_texts.
  - specialize (Hen e He). eapply texts_from_trans; [apply (Hprep e rep)|].
    apply admit_texts; [done..|lia|lia].
  - eapply texts_from_trans; [by apply create_texts|]. apply admit_texts; [done..|lia|lia].
Qed.

Lemma refresh_texts n G db : plain_id G -> texts_from n G db (refresh_run decl G db).1.
Proof.
  intros HG. unfold refresh_run, REFRESH_GROUP_LUA.
  destruct (_ ≫= _) as [e|]; [|apply texts_from_refl].
  set (m := hget _ "model_name" db). set (rb := needs_epoch_bump _ _ _ _).
  fold (group_sweep G m rb db). pose proof (sweep_texts n G m rb db HG) as Hs.
  destruct (group_sweep G m rb db) as [db1 []]; cbn [fst] in Hs;
    (eapply texts_from_trans; [exact Hs|]); [|by apply put_state_texts].
  eapply texts_from_trans; [|by apply put_state_texts]. by apply new_epoch_texts.
Qed.

Lemma publish_texts D n G lane epoch w nid leader db :
  plain_id G -> (0 <= n)%Z -> (n <= lua_int_max)%Z -> db_inv decl D n db ->
  texts_from n G db (publish_run decl G lane epoch w nid leader db).1.
Proof.
  intros HG Hn0 Hn [Hgi _]. destruct (Hgi G HG) as [Hb _ _].
  pose proof (texts_from_refl n G db) as Hrefl. unfold publish_run, PUBLISH_BOOTSTRAP_LUA.
  fold (epoch_of G db). destruct (epoch_of G db) as [e|] eqn:He; [|done].
  destruct (epoch_of_Some decl n G db e Hn Hb He) as [_ Hen].
  destruct (negb (bool_decide _)); [done|].
  match goal with |- context [if negb ?b then _ else _] => destruct b end; [|done]. cbn [negb].
  destruct (andb _ _); [done|]. eapply texts_from_trans; [|by apply put_state_texts].
  case_bool_decide; [done|]. split.
  - intros s r. rewrite hget_hset_all_ne by key_ne. auto.
  - intros i v. rewrite hget_hset_all_if. case_decide; [|by auto]. intros [= <-]. right.
    exists e. split; [apply lua_arg_decimal; lia|lia].
Qed.

Lemma report_texts n G o epoch w succeeded message db :
  plain_id G -> texts_from n G db (report_run decl G o epoch w succeeded message db).1.
Proof.
  intros HG. destruct (report_cases decl G o epoch w succeeded message db)
    as [[-> _]|(s & v & _ & _ & _ & _ & _ & _ & Hres)]; [apply texts_from_refl|].
  destruct Hres as [-> |[[-> _]| ->]]; cbn [fst].
  - split.
    + intros s' r. rewrite hget_failed by (done || key_ne || (intros; key_ne) || left; key_ne). auto.
    + intros i v'. unfold failed. rewrite hget_del_all. case_decide; [done|].
      rewrite hget_hset_all_ne, hget_srem, hget_hset_all_ne, hget_sadd by key_ne. auto.
  - apply texts_from_same; intros; unfold complete; rewrite hget_srem, hget_put_op_state, decide_False;
      try apply hget_sadd; intros [Hk _]; revert Hk; key_ne.
  - apply texts_from_same; intros; unfold running; rewrite hget_put_op_state, decide_False;
      try apply hget_sadd; intros [Hk _]; revert Hk; key_ne.
Qed.

(** A step that touches no key of the group. *)
Lemma other_texts n G G' db db' :
  plain_id G' -> G' ≠ G ->
  changes_only (hash_touch G any_op) (set_touch G any_op) db db' -> texts_from n G' db db'.
Proof.
  intros HG' Hne [Hh _].
  assert (forall k l f, key_parts k = Some (G' :: l) -> hget k f db' = hget k f db) as Hk.
  { intros k l f Hl. apply Hh. intros [[l' Hl']|[Hn _]]; congruence. }
  apply texts_from_same; intros; eapply Hk; [by apply parts_participants|by apply parts_lane].
Qed.

Lemma step_texts D n G db db' :
  step decl db db' -> plain_id G -> (0 <= n)%Z -> (n + 1 < lua_concat_max)%Z -> db_inv decl D n db ->
  texts_from (n + 1) G db db'.
Proof.
  intros Hstep HG Hn0 Hn Hinv.
  assert (lua_concat_max <= lua_int_max)%Z as Hmax by (unfold lua_concat_max, lua_int_max; lia).
  assert (forall p, G = p ∨ G ≠ p) as Hdec by (intros p; destruct (decide (G = p)); auto).
  destruct Hstep as [G0 A db|G0 lane epoch w nid leader db|G0 db|G0 rk A db|
    G0 o epoch w succeeded message db|G0 o rk db|G0 db|db db' Hh Hset].
  - destruct (Hdec G0) as [<-|]; [by apply (join_texts D)|].
    eapply other_texts; [done..|by apply join_run_touch].
  - destruct (Hdec G0) as [<-|].
    + apply (publish_texts D); [done|lia|lia|]. by apply (db_inv_mono decl D n); [lia|].
    + eapply other_texts; [done..|by apply publish_run_touch].
  - destruct (Hdec G0) as [<-|]; [by apply refresh_texts|].
    eapply other_texts; [done..|by apply refresh_run_touch].
  - apply texts_from_same; intros; apply create_run_parts; done.
  - destruct (Hdec G0) as [<-|]; [by apply report_texts|].
    eapply other_texts; [done..|by apply report_run_touch].
  - apply texts_from_same; intros; apply delete_run_parts; done.
  - apply texts_from_same; intros; rewrite hget_del, decide_False by key_ne; done.
  - apply texts_from_same; intros; apply Hh; left; [by rewrite parts_participants|by rewrite parts_lane].
Qed.

Lemma reach_texts n D db G :
  reach decl n D db -> (Z.of_nat n < lua_concat_max)%Z -> plain_id G -> texts_ok (Z.of_nat n) G db.
Proof.
  induction 1 as [db Hh Hset|n D db db' Hr IH Hstep]; intros Hn HG.
  - split; intros s r; rewrite Hh; try done; left; [by rewrite parts_participants|by rewrite parts_lane].
  - rewrite Nat2Z.inj_succ, <- Z.add_1_r in Hn |- *. eapply texts_ok_from; [apply IH; [lia|done]|].
    apply (step_texts D (Z.of_nat n)); try done; try lia. apply (reach_inv decl n D db Hr). lia.
Qed.

(** What the readers of an anchored group parse. *)
Lemma anchored_stamp n G e db i :
  (n <= lua_int_max)%Z -> texts_ok n G db -> anchored decl G e db -> i ∈ dc_lanes (decl G) ->
  hget (lane_key G i) "bootstrap_epoch" db = Some (decimal e) ∧ (0 <= e <= n)%Z.
Proof.
  intros Hn [_ Hl] Hf Hi. pose proof (an_lanes _ _ _ _ Hf i Hi) as Hst. unfold lane_stamp in Hst.
  destruct (hget _ _ _) as [v|] eqn:Hv; [|done]. destruct (Hl i v Hv) as (z & -> & Hz).
  simpl in Hst. rewrite tonumber_decimal in Hst by lia. by injection Hst as ->.
Qed.

Lemma anchored_record n G e db s r :
  (n <= lua_int_max)%Z -> texts_ok n G db -> anchored decl G e db ->
  hget (participants_key G) s db = Some r ->
  ∃ w role index, parse_participant r = Some (w, role, index, decimal e) ∧ (0 <= e <= n)%Z.
Proof.
  intros Hn [Hp _] Hf Hr. destruct (an_acked _ _ _ _ Hf s r Hr) as (w & ro & ix & je & Hp1 & Hje).
  destruct (Hp s r Hr) as (w' & ro' & ix' & z & Hp2 & Hz). rewrite Hp2 in Hp1. simplify_eq.
  rewrite tonumber_decimal in Hje by lia. simplify_eq. by exists w, ro, ix.
Qed.
End texts.

(** ** Torn reads *)

Lemma Forall2_through_zip {A B C} (P : A -> B -> Prop) (Q : A * B -> C -> Prop)
    (R : A -> C -> Prop) ls hs cs :
  Forall2 P ls hs -> Forall2 Q (zip ls hs) cs ->
  (forall l h c, l ∈ ls -> P l h -> Q (l, h) c -> R l c) -> Forall2 R ls cs.
Proof.
  intros HP. revert cs. induction HP as [|l h ls hs Hp HP IH]; intros cs HQ HR.
  - inversion HQ. constructor.
  - inversion HQ; subst. constructor; [eapply HR; [left|done..]|]. apply IH; [done|].
    intros. eapply HR; [by right|done..].
Qed.

Lemma list_filter_forall {A} (P : A -> Prop) `{forall x, Decision (P x)} (l : list A) :
  (forall x, x ∈ l -> P x) -> filter P l = l.
Proof.
  induction l as [|x l IH]; intros HP; [done|].
  rewrite filter_cons_True by (apply HP; set_solver). f_equal. apply IH. set_solver.
Qed.

Section read.
Context {DB : Type} `{RedisServer DB, !RedisStoreLaws DB, !RedisServerLaws DB}.
Context `{LuaNumbers, !LuaNumbersLaws} `{LuaConcat, !LuaConcatLaws} `{HashIterLaws}.
Context (decl : string -> declaration) `{!DeclOk decl}.
Context (G : string) (HG : plain_id G).
Implicit Types db : DB.

(** What the other replicas and clients may do between two calls: any steps from a
    reachable state, short of evicting the root record of the group.  With [calm], no
    refused join has lost a member in the epoch that the group is then in. *)
Definition others (calm : Prop) db db' : Prop :=
  ∃ n m D D', reach decl n D db ∧ run decl G m D db D' db' ∧
    (Z.of_nat (m + n) < lua_concat_max)%Z ∧
    (calm -> forall e, epoch_of G db' = Some e -> ~ D' G e).

(** A reachable state, calm or not. *)
Definition live (calm : Prop) db : Prop := ∃ n D, reach decl n D db ∧
  (Z.of_nat n < lua_concat_max)%Z ∧ (calm -> forall e, epoch_of G db = Some e -> ~ D G e).

Context (calm : Prop).

Lemma others_live db db' : others calm db db' -> live calm db'.
Proof.
  intros (n & m & D & D' & Hr & Hrun & Hn & Hcalm). exists (m + n), D'.
  split; [by eapply run_reach|done].
Qed.

Lemma after_evolves e db db' :
  rtc (others calm) db db' -> epoch_of G db = Some e ->
  ∃ e', epoch_of G db' = Some e' ∧ (e <= e')%Z ∧
    (e' = e -> same_epoch decl (~ calm) G e db db').
Proof.
  intros Hrtc. revert e.
  induction Hrtc as [db|db1 db2 db3 (n & m & D & D' & Hr & Hrun & Hn & Hcalm) _ IH]; intros e He.
  { exists e. split_and!; [done|lia|]. intros _. by split. }
  destruct (run_evolves decl G n m e D D' db1 db2 Hrun Hr HG Hn He) as (e1 & He1 & Hle1 & Hs1).
  destruct (IH e1 He1) as (e2 & He2 & Hle2 & Hs2). exists e2. split_and!; [done|lia|].
  intros ->. assert (e1 = e) as -> by lia. eapply same_epoch_trans; [|auto].
  eapply same_epoch_weaken; [|auto]. intros HD Hc. by apply (Hcalm Hc e).
Qed.

(** Between two moments with the same epoch, an anchored group is the same group. *)
Lemma between e db1 d db2 :
  rtc (others calm) db1 d -> rtc (others calm) d db2 ->
  epoch_of G db1 = Some e -> epoch_of G db2 = Some e ->
  same_epoch decl (~ calm) G e db1 d ∧ same_epoch decl (~ calm) G e d db2.
Proof.
  intros H1' H2' He1 He2. destruct (after_evolves e db1 d H1' He1) as (a & Ha & Hle & Hs).
  destruct (after_evolves a d db2 H2' Ha) as (b & Hb & Hle' & Hs'). rewrite He2 in Hb.
  injection Hb as <-. assert (a = e) as -> by lia. auto.
Qed.

Lemma runs_read {A R} (f : DB -> R) (k : R -> prog DB A) db a db' :
  runs (others calm) (Read f k) db a db' ->
  ∃ d, others calm db d ∧ runs (others calm) (k (f d)) d a db'.
Proof. intros (d & Hd & Hk). by exists d. Qed.

(** The reads of the lanes, each at its own moment. *)
Lemma runs_read_lanes {A} ls (k : list (gmap string string) -> prog DB A) db a db' :
  runs (others calm) (read_lanes G ls k) db a db' ->
  ∃ hs d, runs (others calm) (k hs) d a db' ∧ rtc (others calm) db d ∧
    Forall2 (fun l h => ∃ d', rtc (others calm) db d' ∧ rtc (others calm) d' d ∧ live calm d' ∧
               h = hfields (lane_key G (lane_id l)) d') ls hs.
Proof.
  revert k db. induction ls as [|l ls IH]; intros k db Hr; cbn [read_lanes] in Hr.
  { exists [], db. split_and!; [done|done|constructor]. }
  apply runs_read in Hr as (d0 & Hd0 & Hr). apply IH in Hr as (hs & d & Hk & Hd & Hall).
  eexists (_ :: hs), d. split_and!; [exact Hk|by eapply rtc_l|]. constructor.
  - exists d0. split_and!; [by apply rtc_once|done|by eapply others_live|done].
  - eapply Forall2_impl; [exact Hall|]. intros l' h (d' & Ha & Hb & Hl & ->).
    exists d'. split_and!; [by eapply rtc_l|done..].
Qed.

(** The declaration that the group's identifier stands for, as the readers decode it. *)
Record decl_reads (ls : list Lane) : Prop := {
  dr_text : decode_lanes (dc_text (decl G)) = Ok ls;
  dr_ids : map lane_id ls = dc_lanes (decl G);
  dr_slots : forall l s, l ∈ ls -> s ∈ slots_in_rank_order l -> s ∈ dc_slots (decl G);
  dr_small : forall l, l ∈ ls -> (Z.of_nat (length (slots_in_rank_order l)) <= u32_max)%Z
}.

Lemma live_inv db : live calm db -> ∃ n D, (Z.of_nat n < lua_concat_max)%Z ∧
  group_inv decl D (Z.of_nat n) G db ∧ texts_ok (Z.of_nat n) G db ∧
  (calm -> forall e, epoch_of G db = Some e -> ~ D G e).
Proof.
  intros (n & D & Hr & Hn & Hcalm). exists n, D.
  split_and!; [done| |by apply (reach_texts decl n D)|done].
  by apply (reach_inv decl n D db Hr Hn).
Qed.

Lemma concat_max_small : (lua_concat_max <= lua_int_max)%Z ∧ (lua_concat_max <= u64_max)%Z.
Proof. unfold lua_concat_max, lua_int_max, u64_max. lia. Qed.

(** The epoch that a reader parses is the epoch of the scripts. *)
Lemma read_epoch db e :
  live calm db -> parse_field u64_max (hfields (group_key G) db) "epoch" = Ok e -> epoch_of G db = Some e.
Proof.
  intros (n & D & Hn & [Hb _ _] & _)%live_inv. unfold parse_field, field. rewrite hfields_lookup.
  destruct (hget (group_key G) "epoch" db) as [v|] eqn:Ev; [|done].
  destruct (gb_epoch _ _ _ _ Hb v Ev) as (z & -> & Hz).
  destruct (parse_unsigned u64_max (decimal z)) as [x|] eqn:Ep; [|done]. intros [= <-].
  apply decimal_parse_unsigned in Ep as ->; [|lia]. apply epoch_of_decimal; [|done].
  pose proof concat_max_small. lia.
Qed.

Lemma root_layout_ok ls db e tr gen layout :
  decl_reads ls -> live calm db -> root_layout (hfields (group_key G) db) = Ok (e, tr, gen, layout) ->
  epoch_of G db = Some e ∧ LaneLayout_new ls tr gen = Ok layout.
Proof.
  intros Hls Hlive. unfold root_layout.
  destruct (parse_field u64_max (hfields (group_key G) db) "epoch") as [e0|] eqn:Ee; [|done].
  apply (read_epoch db e0 Hlive) in Ee. destruct (field _ "expected_trainer_slots"); [|done].
  destruct (field _ "expected_generator_slots"); [|done].
  destruct (live_inv db Hlive) as (n & D & Hn & [Hb _ _] & _).
  destruct (gb_root _ _ _ _ Hb) as [_ Htext]; [by eapply epoch_of_root|].
  unfold field. rewrite hfields_lookup, Htext, (dr_text ls Hls).
  destruct (LaneLayout_new ls _ _) as [l|] eqn:El; [|done]. intros [= <- <- <- <-]. done.
Qed.

(** The slots of a lane with their ranks: those that a reader reports, all the declared. *)
Definition ranks_read (cl : CollectiveLane) : list (string * Z) :=
  map (fun p => (cp_slot_id p, cp_rank_in_lane p)) (cl_participants cl).
Definition ranks_declared (lane : Lane) : list (string * Z) :=
  imap (fun i s => (s, Z.of_nat i)) (slots_in_rank_order lane).

(** A lane as a reader reports it, against the server at [db]. *)
Definition lane_read (e : Z) db (lane : Lane) (cl : CollectiveLane) : Prop :=
  cl_lane_id cl = lane_id lane ∧ cl_bootstrap_epoch cl = e ∧
  match hget (lane_key G (lane_id lane)) "nccl_unique_id" db with
  | Some text => hex_decode text = Ok (cl_nccl_unique_id cl)
  | None => cl_nccl_unique_id cl = ""
  end ∧
  ranks_read cl `sublist_of` ranks_declared lane ∧
  Forall (fun p => cp_joined_epoch p = e) (cl_participants cl).

(** The participants of a lane, from the records of an anchored group. *)
Lemma placed_anchored ls tr gen layout e d placed lane :
  decl_reads ls -> LaneLayout_new ls tr gen = Ok layout -> live calm d -> anchored decl G e d ->
  place_all layout (hfields (participants_key G) d) = Ok placed -> lane ∈ ls ->
  map (fun p => (cp_slot_id p, cp_rank_in_lane p)) (default [] (placed !! lane_id lane)) =
    filter (fun x => is_Some (hfields (participants_key G) d !! x.1)) (ranks_declared lane) ∧
  Forall (fun p => cp_joined_epoch p = e) (default [] (placed !! lane_id lane)).
Proof.
  intros Hls Hnew Hlive Han Hpl Hlane. pose proof concat_max_small as [Hm1 Hm2].
  destruct (live_inv d Hlive) as (n & D & Hn & [Hb _ _] & Ht & _).
  destruct (layout_inv ls tr gen layout Hnew) as (Hlanes & _).
  destruct (layout_declared ls tr gen layout Hnew) as (Hnd & _ & _).
  destruct (place_all_lane layout _ placed lane Hpl) as [Hlk Hrec]; [by rewrite Hlanes..|].
  rewrite Hlk. cbn [default from_option]. pose proof (dr_small ls Hls lane Hlane) as Hlen. split.
  - apply (placed_in_rank_order ls tr gen layout Hnew lane Hlane Hlen). intros s r Hr.
    destruct (Hrec s r Hr) as (p & _ & Hp & _). eauto.
  - apply Forall_forall. intros q. rewrite sort_by_key_perm.
    intros (s & r & p & i & Hr & Hp & _ & ->)%(elem_of_placed ls tr gen layout Hnew lane Hlane Hlen).
    rewrite hfields_lookup in Hr.
    destruct (anchored_record decl (Z.of_nat n) G e d s r ltac:(lia) Ht Han Hr) as (w & ro & ix & Hpr & He).
    by destruct (record_joined s r w ro ix e p ltac:(lia) Hpr Hp).
Qed.

(** In a formed group every declared slot is there. *)
Lemma formed_ranks ls e d lane :
  decl_reads ls -> live calm d -> is_Some (epoch_of G d) -> formed decl G e d -> lane ∈ ls ->
  filter (fun x => is_Some (hfields (participants_key G) d !! x.1)) (ranks_declared lane) =
  ranks_declared lane.
Proof.
  intros Hls Hlive [e0 He0] Hf Hlane. destruct (live_inv d Hlive) as (n & D & Hn & [Hb _ _] & _).
  apply list_filter_forall. intros [s z] Hin. rewrite hfields_lookup. cbn [fst].
  apply (formed_slot decl _ G e d s Hb); [by eapply epoch_of_root|done|].
  apply (dr_slots ls Hls lane s Hlane). unfold ranks_declared in Hin.
  apply elem_of_lookup_imap in Hin as (i & y & [= -> ->] & Hy). by eapply list_elem_of_lookup_2.
Qed.

(** A lane hash read while the epoch was current. *)
Lemma lane_message_anchored e d df placed lane cl :
  live calm d -> anchored decl G e d -> lane_id lane ∈ dc_lanes (decl G) -> same_epoch decl (~ calm) G e d df ->
  lane_message placed lane (hfields (lane_key G (lane_id lane)) d) = Ok cl ->
  cl_lane_id cl = lane_id lane ∧ cl_bootstrap_epoch cl = e ∧
  match hget (lane_key G (lane_id lane)) "nccl_unique_id" df with
  | Some text => hex_decode text = Ok (cl_nccl_unique_id cl)
  | None => cl_nccl_unique_id cl = ""
  end ∧ cl_participants cl = default [] (placed !! lane_id lane).
Proof.
  intros Hlive Han Hi Hsame. pose proof concat_max_small as [Hm1 Hm2].
  destruct (live_inv d Hlive) as (n & D & Hn & _ & Ht & _).
  destruct (anchored_stamp decl (Z.of_nat n) G e d (lane_id lane) ltac:(lia) Ht Han Hi) as [Hst He].
  rewrite (se_lanes _ _ _ _ _ _ Hsame) by (done || by apply Han).
  unfold lane_message. rewrite !hfields_lookup, Hst. cbn [mbind option_bind].
  rewrite parse_unsigned_decimal by lia. cbn [default from_option].
  destruct (hget _ "nccl_unique_id" d) as [text|]; [destruct (hex_decode text)|]; try done;
    by intros [= <-].
Qed.

Lemma read_once_ready ls db g d2 :
  decl_reads ls -> runs (others calm) (read_group_once G) db (Ok g) d2 -> cg_state g = GroupReady ->
  forall df, rtc (others calm) d2 df -> epoch_of G df = Some (cg_epoch g) ->
  Forall2 (fun lane cl => lane_read (cg_epoch g) df lane cl ∧
    (calm -> ranks_read cl = ranks_declared lane)) ls (cg_lanes g).
Proof.
  intros Hls Hrun Hstate df Hdf Hef. unfold read_group_once, read_hash in Hrun.
  apply runs_read in Hrun as (d1 & Hd1 & Hrun). pose proof (others_live _ _ Hd1) as Hl1.
  destruct (bool_decide _); [by destruct Hrun|].
  destruct (root_layout (hfields (group_key G) d1)) as [[[[e tr] gen] layout]|] eqn:Eroot;
    [|by destruct Hrun].
  destruct (root_layout_ok ls d1 e tr gen layout Hls Hl1 Eroot) as [He1 Hnew].
  destruct (layout_inv ls tr gen layout Hnew) as (Hlanes & _).
  apply runs_read in Hrun as (dp & Hdp & Hrun). pose proof (others_live _ _ Hdp) as Hlp.
  destruct (place_all layout _) as [placed|] eqn:Epl; [|by destruct Hrun].
  apply runs_read_lanes in Hrun as (hs & dl & Hrun & Hdl & Hall).
  apply runs_read in Hrun as (dd & Hdd & [Hg ->]). rewrite Hlanes in Hall.
  unfold group_message in Hg. rewrite Hlanes in Hg.
  destruct (collect _ (zip ls hs)) as [cls|] eqn:Ec; [|done]. rewrite collect_ok in Ec.
  assert (cg_epoch g = e ∧ cg_lanes g = cls ∧ hget (group_key G) "state" d1 = Some "READY")
    as (Heq & -> & Hready).
  { destruct (field _ "plan_digest") as [gd|]; [|done].
    destruct (field _ "plan_source_worker_id") as [sw|]; [|done].
    match type of Hg with context [match ?x with Ok _ => _ | Err _ => _ end] =>
      destruct x as [ps|]; [|done] end.
    destruct (field _ "model_name") as [mn|]; [|done].
    unfold field at 1 in Hg. rewrite hfields_lookup in Hg.
    destruct (hget (group_key G) "state" d1) as [st|]; [|done].
    destruct (group_state_from_str st) as [gst|] eqn:Est; [|done].
    destruct (parse_field _ _ "created_at_unix_ms"); [|done]. injection Hg as ->. cbn in *. subst gst.
    unfold group_state_from_str in Est. repeat case_match; try done.
    split_and!; [done..|]. f_equal. by apply String.eqb_eq. }
  rewrite Heq in *. destruct (live_inv d1 Hl1) as (n & D & Hn & [_ _ Hr1] & _ & Hcalm1).
  destruct (Hr1 e He1 Hready) as (Han1 & _ & Hfull1).
  assert (forall d, rtc (others calm) d1 d -> rtc (others calm) d df ->
    anchored decl G e d ∧ (calm -> formed decl G e d) ∧ same_epoch decl (~ calm) G e d df ∧
    is_Some (epoch_of G d)) as Hmid.
  { intros d Ha Hb. destruct (between e d1 d df Ha Hb He1 Hef) as [Hs Hs'].
    split_and!; [by apply Hs| |done|rewrite (se_epoch _ _ _ _ _ _ Hs); eauto].
    intros Hc. apply Hs; [naive_solver|]. eapply readiness_formed, Hfull1. by apply Hcalm1. }
  assert (rtc (others calm) dl df) as Hldf by (by eapply rtc_l).
  destruct (Hmid dp) as (Hap & Hfp & _ & Hsp); [by apply rtc_once|by etransitivity|].
  eapply Forall2_through_zip; [exact Hall|exact Ec|].
  intros lane h cl Hlane (d & Ha & Hb & Hld & ->) Hmsg.
  destruct (Hmid d) as (Had & _ & Hsd & _); [by eapply rtc_l|by etransitivity|].
  assert (lane_id lane ∈ dc_lanes (decl G)) as Hid.
  { rewrite <- (dr_ids ls Hls). apply list_elem_of_fmap. eauto. }
  destruct (lane_message_anchored e d df placed lane cl Hld Had Hid Hsd Hmsg) as (H1' & H2' & H3' & Hps).
  destruct (placed_anchored ls tr gen layout e dp placed lane Hls Hnew Hlp Hap Epl Hlane) as [Hr Hj].
  unfold lane_read, ranks_read. rewrite Hps, Hr. split_and!; try done; [by apply sublist_filter|].
  intros Hc. by apply (formed_ranks ls e dp); auto.
Qed.

(** C10: however the other replicas and clients interleave with its reads, a group that
    [read_group] returns as READY is one consistent snapshot: the epoch it carries is the
    current one, every declared lane is listed with the identifier published for that epoch,
    byte for byte the one the server still holds, and each lane lists declared slots of its
    own in rank order, all of which acknowledged that epoch.  If at every read no refused
    join had lost a member of the group's epoch at that moment ([calm]), each lane lists
    exactly its declared slots. *)
Theorem read_group_not_torn ls db g db' :
  decl_reads ls -> runs (others calm) (read_group G) db (Ok g) db' -> cg_state g = GroupReady ->
  epoch_of G db' = Some (cg_epoch g) ∧ Forall2 (lane_read (cg_epoch g) db') ls (cg_lanes g) ∧
  (calm -> Forall2 (fun lane cl => ranks_read cl = ranks_declared lane) ls (cg_lanes g)).
Proof.
  intros Hls. unfold read_group. generalize 5. intros attempts. revert db.
  induction attempts as [|attempts IH]; intros db Hrun Hstate; cbn [read_group_attempts] in Hrun.
  { by destruct Hrun. }
  apply runs_bind in Hrun as ([[]|err] & d1 & _ & Hrun); [|by destruct Hrun].
  apply runs_bind in Hrun as ([g'|err] & d2 & Honce & Hrun); [|by destruct Hrun].
  apply runs_read in Hrun as (df & Hdf & Hrun).
  destruct (recheck (hfields (group_key G) df) g') as [[]|] eqn:Ere; [|by eapply IH|by destruct Hrun].
  destruct Hrun as [[= ->] ->]. unfold recheck in Ere. destruct (bool_decide _); [done|].
  destruct (parse_field u64_max (hfields (group_key G) df) "epoch") as [e|] eqn:Ee; [|done].
  apply read_epoch in Ee; [|by eapply others_live].
  destruct (Z.eqb_spec e (cg_epoch g')) as [->|]; [|done].
  assert (rtc (others calm) d2 df) as Hdf2 by by apply rtc_once.
  pose proof (read_once_ready ls d1 g' d2 Hls Honce Hstate df Hdf2 Ee) as Hall. split_and!; [done|..].
  - eapply Forall2_impl; [exact Hall|]. by intros lane cl [? _].
  - intros Hc. eapply Forall2_impl; [exact Hall|]. intros lane cl [_ Hx]. auto.
Qed.
End read.
