(* ===== verification/CollectiveService.v ===== *)
(** * The collective gRPC service (refit_collective/service.rs)

    Validation of every request and the seven handlers, over the interface
    [CollectiveOps] that the backend implements.  The second half composes the
    service with the Redis backend and the group state machine: a validated join
    is one step of the machine, with arguments that satisfy what it assumes. *)

From Stdlib Require Import ZArith Lia Ascii String.
From stdpp Require Import base tactics option list sorting gmap fin_maps fin_sets strings.
From stdpp Require Import relations fin_map_dom.
From S2P Require Import Prelude RustStr RedisStore SourceIdentityHash Lanes RedisServer.
From S2P Require Import RedisProg CollectiveScripts CollectiveEffects CollectiveMachine.
From S2P Require Import CollectiveInvariant CollectiveTransfers CollectiveEvolution.
From S2P Require Import CollectiveBackend CollectiveText CollectiveRead.

(** The gRPC status codes that the handlers answer. *)
Inductive CollectiveStatus : Type :=
| StInvalidArgument | StNotFound | StFailedPrecondition | StAlreadyExists | StInternal
| StUnavailable.

#[export] Instance CollectiveStatus_eq_dec : EqDecision CollectiveStatus.
Proof. solve_decision. Defined.

Definition sresult (A : Type) : Type := result A CollectiveStatus.

Definition NCCL_UNIQUE_ID_BYTES : nat := 128.

Definition required (value : string) : sresult unit :=
  if str_is_empty (trim value) then Err StInvalidArgument else Ok ().

Definition SLOT_DELIMITERS : list ascii := ["000"; "010"; "013"; "|"; ","]%char.

Definition delimiter_free (value : string) (delimiters : list ascii) : sresult unit :=
  if existsb (fun d => contains_char d value) delimiters then Err StInvalidArgument else Ok ().

Definition backend_status (error : CollectiveBackendError) : CollectiveStatus :=
  match error with
  | CInvalidArgument => StInvalidArgument
  | CNotFound => StNotFound
  | CFailedPrecondition => StFailedPrecondition
  | CAlreadyExists => StAlreadyExists
  | CInternal => StInternal
  | CUnavailable => StUnavailable
  end.

(** [sorted.windows(2).any(|pair| pair[0] == pair[1])]. *)
Fixpoint adjacent_equal (l : list string) : bool :=
  match l with
  | a :: (b :: _) as l' => String.eqb a b || adjacent_equal l'
  | _ => false
  end.

Definition has_duplicates (slots : list string) : bool := adjacent_equal (str_sort slots).

(** A loop of checks stops at the first error. *)
Fixpoint check_all {A} (f : A -> sresult unit) (l : list A) : sresult unit :=
  match l with
  | [] => Ok ()
  | x :: l' => let? _ := f x in check_all f l'
  end.

Definition slot_valid (slot : string) : sresult unit :=
  let? _ := required slot in delimiter_free slot SLOT_DELIMITERS.

Definition validate_spec (spec : option CollectiveGroupSpec) : sresult CollectiveGroupSpec :=
  match spec with
  | None => Err StInvalidArgument
  | Some spec =>
      let? _ := required (gs_model_name spec) in
      let? _ := delimiter_free (gs_model_name spec) ["000"%char] in
      if bool_decide (gs_trainer_slots spec = []) then Err StInvalidArgument
      else if bool_decide (gs_generator_slots spec = []) then Err StInvalidArgument
      else if bool_decide (length (gs_lanes spec) = 0) then Err StInvalidArgument
      else if has_duplicates (gs_trainer_slots spec) then Err StInvalidArgument
      else if has_duplicates (gs_generator_slots spec) then Err StInvalidArgument
      else
        let? _ := check_all slot_valid (gs_trainer_slots spec) in
        let? _ := check_all slot_valid (gs_generator_slots spec) in
        if existsb (fun slot => bool_decide (slot ∈ gs_generator_slots spec))
             (gs_trainer_slots spec)
        then Err StInvalidArgument
        else Ok spec
  end.

(** ** The backend interface *)

(** The trait [CollectiveBackend].  [create] takes a fresh operation id, as the
    backend draws one. *)
Class CollectiveOps (DB : Type) := {
  be_create_transfer : string -> CreateTransferRequest -> prog DB (cresult CollectiveTransfer);
  be_get_transfer : string -> prog DB (cresult CollectiveTransfer);
  be_delete_transfer : string -> prog DB (cresult CollectiveTransfer);
  be_join_group : JoinRequest -> prog DB (cresult CollectiveGroupMembership);
  be_get_group : string -> prog DB (cresult CollectiveGroup);
  be_publish_bootstrap : PublishRequest -> prog DB (cresult CollectiveGroup);
  be_report_transfer : ReportRequest -> prog DB (cresult CollectiveTransfer)
}.

(** The Redis implementation at a moment of its clock. *)
Definition redis_collective {DB} `{RedisServer DB} `{LuaNumbers} `{LuaConcat} `{HashIter} `{Sha256}
    (now_ms timeout_secs : Z) : CollectiveOps DB := {|
  be_create_transfer := create_transfer now_ms timeout_secs;
  be_get_transfer := get_transfer;
  be_delete_transfer := delete_transfer;
  be_join_group := join_group now_ms;
  be_get_group := get_group;
  be_publish_bootstrap := publish_bootstrap;
  be_report_transfer := report_transfer
|}.

(** ** Handlers *)

Section handlers.
Context {DB : Type} `{CollectiveOps DB}.

(** A failed check answers at once; otherwise the backend is called and its
    error becomes a status. *)
Definition guarded {A} (checks : sresult unit) (call : prog DB (cresult A)) : prog DB (sresult A) :=
  match checks with
  | Err e => Ret (Err e)
  | Ok _ =>
      let! r := call in
      Ret (match r with Ok a => Ok a | Err e => Err (backend_status e) end)
  end.

Definition create_checks (request : CreateTransferRequest) : sresult unit :=
  let? _ := validate_spec (cr_spec request) in
  let? _ := required (cr_version_id request) in
  let? _ := required (cr_idempotency_key request) in
  if (cr_expected_epoch request =? 0)%Z then Err StInvalidArgument else Ok ().

Definition create_collective_transfer (operation_id : string) (request : CreateTransferRequest)
    : prog DB (sresult CollectiveTransfer) :=
  guarded (create_checks request) (be_create_transfer operation_id request).

Definition get_collective_transfer (operation_id : string) : prog DB (sresult CollectiveTransfer) :=
  guarded (required operation_id) (be_get_transfer operation_id).

Definition delete_collective_transfer (operation_id : string)
    : prog DB (sresult CollectiveTransfer) :=
  guarded (required operation_id) (be_delete_transfer operation_id).

(** The checks on an advertised plan source. *)
Definition source_checks (role : CollectiveRole) (request : JoinRequest) : sresult unit :=
  match jr_plan_source request with
  | None => Ok ()
  | Some source =>
      let? _ := required (ps_worker_id source) in
      let? _ := required (ps_endpoint source) in
      let? _ := required (ps_digest source) in
      if negb (String.eqb (ps_digest source) (jr_plan_digest request)) then Err StInvalidArgument
      else if negb (String.eqb (ps_worker_id source) (jr_worker_id request))
      then Err StInvalidArgument
      else if negb (bool_decide (role = RoleTrainer)) || negb (jr_index_in_role request =? 0)%Z
      then Err StInvalidArgument
      else Ok ()
  end.

Definition join_checks (request : JoinRequest) : sresult unit :=
  let? _ := validate_spec (jr_spec request) in
  let? _ := required (jr_slot_id request) in
  let? _ := required (jr_worker_id request) in
  let? _ := required (jr_plan_digest request) in
  let? _ := delimiter_free (jr_slot_id request) SLOT_DELIMITERS in
  let? _ := delimiter_free (jr_worker_id request) ["000"%char; "|"%char] in
  let role := default RoleUnspecified (role_try_from (jr_role request)) in
  if bool_decide (role = RoleUnspecified) then Err StInvalidArgument
  else source_checks role request.

Definition join_collective_group (request : JoinRequest)
    : prog DB (sresult CollectiveGroupMembership) :=
  guarded (join_checks request) (be_join_group request).

Definition get_collective_group (group_id : string) : prog DB (sresult CollectiveGroup) :=
  guarded (required group_id) (be_get_group group_id).

Definition publish_checks (request : PublishRequest) : sresult unit :=
  let? _ := required (pr_group_id request) in
  let? _ := required (pr_worker_id request) in
  if (pr_epoch request =? 0)%Z then Err StInvalidArgument
  else if negb (String.length (pr_nccl_unique_id request) =? NCCL_UNIQUE_ID_BYTES)%nat
  then Err StInvalidArgument
  else Ok ().

Definition publish_group_bootstrap (request : PublishRequest) : prog DB (sresult CollectiveGroup) :=
  guarded (publish_checks request) (be_publish_bootstrap request).

Definition report_checks (request : ReportRequest) : sresult unit :=
  let? _ := required (rr_operation_id request) in
  let? _ := required (rr_group_id request) in
  let? _ := required (rr_worker_id request) in
  if (rr_epoch request =? 0)%Z then Err StInvalidArgument
  else if negb (rr_succeeded request) && str_is_empty (trim (rr_message request))
  then Err StInvalidArgument
  else Ok ().

Definition report_collective_transfer (request : ReportRequest)
    : prog DB (sresult CollectiveTransfer) :=
  guarded (report_checks request) (be_report_transfer request).
End handlers.

(** ** What validation guarantees *)

Lemma check_all_ok {A} (f : A -> sresult unit) l : check_all f l = Ok () ↔ Forall (fun x => f x = Ok ()) l.
Proof.
  induction l as [|x l IH]; simpl; [by split|]. rewrite Forall_cons.
  destruct (f x) as [[]|]; [by rewrite IH; naive_solver|naive_solver].
Qed.

Lemma delimiter_free_ok value ds :
  delimiter_free value ds = Ok () ↔ forall d, d ∈ ds -> contains_char d value = false.
Proof.
  unfold delimiter_free. destruct (existsb _ _) eqn:E.
  - apply existsb_exists in E as (d & Hd & Hc). apply list_elem_of_In in Hd.
    split; [done|]. intros Hall. rewrite Hall in Hc; done.
  - split; [|done]. intros _ d Hd. apply not_true_is_false. intros Hc.
    assert (existsb (fun d => contains_char d value) ds = true); [|congruence].
    apply existsb_exists. exists d. by rewrite <- list_elem_of_In.
Qed.

Lemma required_ok value : required value = Ok () -> value ≠ "".
Proof. by intros Hr ->. Qed.

Lemma slot_valid_ok slot : slot_valid slot = Ok () -> slot_plain slot.
Proof.
  unfold slot_valid. destruct (required slot) as [[]|] eqn:Er; [|done].
  rewrite delimiter_free_ok. intros Hd. unfold slot_plain, bar, comma, newline, SLOT_DELIMITERS in *.
  split_and!; [by apply required_ok|apply Hd; set_solver..].
Qed.

Lemma sorted_no_adjacent l :
  StronglySorted (fun a b => String.leb a b = true) l -> adjacent_equal l = false -> NoDup l.
Proof.
  induction 1 as [|a l Hs IH Hall]; [constructor|]. intros Hadj.
  destruct l as [|b l]; [apply NoDup_singleton|].
  cbn [adjacent_equal] in Hadj. apply orb_false_iff in Hadj as [Hab Hadj].
  apply String.eqb_neq in Hab. constructor; [|by apply IH].
  apply Forall_cons in Hall as [Hle _]. apply StronglySorted_inv in Hs as [_ Hb].
  rewrite elem_of_cons. intros [Heq|Hin]; [congruence|]. apply Hab, String.leb_antisym; [done|].
  by eapply Forall_forall in Hb.
Qed.

Lemma adjacent_equal_dup l : adjacent_equal l = true -> ~ NoDup l.
Proof.
  induction l as [|a [|b l] IH]; [done..|]. cbn [adjacent_equal]. rewrite orb_true_iff, NoDup_cons.
  intros [<-%String.eqb_eq|Hadj] [Hnot Hnd]; [set_solver|by apply IH].
Qed.

Lemma has_duplicates_spec slots : has_duplicates slots = false ↔ NoDup slots.
Proof.
  unfold has_duplicates. rewrite <- (sort_by_perm String.leb slots) at 2. fold (str_sort slots). split.
  - apply sorted_no_adjacent, sort_by_sorted; [apply String.leb_total|].
    intros ???. apply string_leb_trans.
  - intros Hnd. apply not_true_is_false. intros Hadj. by apply adjacent_equal_dup in Hadj.
Qed.

(** A declaration that validation lets through has a model name without NUL, at least one
    trainer slot, one generator slot and one lane, and slot names that are pairwise distinct
    across both roles, not blank, and free of every character the stored records split on. *)
Lemma validate_spec_ok spec spec' :
  validate_spec (Some spec) = Ok spec' ->
  spec' = spec ∧ contains_char "000" (gs_model_name spec) = false ∧
  gs_trainer_slots spec ≠ [] ∧ gs_generator_slots spec ≠ [] ∧ gs_lanes spec ≠ [] ∧
  NoDup (gs_trainer_slots spec ++ gs_generator_slots spec) ∧
  Forall slot_plain (gs_trainer_slots spec ++ gs_generator_slots spec).
Proof.
  unfold validate_spec. destruct (required _) as [[]|]; [|done].
  destruct (delimiter_free _ _) as [[]|] eqn:Em; [|done]. rewrite delimiter_free_ok in Em.
  do 3 (case_bool_decide; [done|]).
  destruct (has_duplicates (gs_trainer_slots spec)) eqn:Et; [done|].
  destruct (has_duplicates (gs_generator_slots spec)) eqn:Eg; [done|].
  destruct (check_all slot_valid (gs_trainer_slots spec)) as [[]|] eqn:Ect; [|done].
  destruct (check_all slot_valid (gs_generator_slots spec)) as [[]|] eqn:Ecg; [|done].
  destruct (existsb _ _) eqn:Eo; [done|]. intros [= <-].
  apply has_duplicates_spec in Et, Eg. apply check_all_ok in Ect, Ecg.
  split_and!; try done.
  - apply Em. set_solver.
  - by destruct (gs_lanes spec).
  - apply NoDup_app. split_and!; [done| |done]. intros s Hs Hg. apply not_true_iff_false in Eo.
    apply Eo, existsb_exists. exists s. by rewrite <- list_elem_of_In, bool_decide_eq_true.
  - apply Forall_app. split; (eapply Forall_impl; [eassumption|]); intros; by apply slot_valid_ok.
Qed.

(** ** An accepted join is one step of the machine *)

(** ** Declarations *)

Lemma hex_digit_plain n : (n < 16)%N -> Ascii.eqb ":" (hex_digit n) = false.
Proof.
  intros Hn. destruct (Ascii.eqb_spec ":" (hex_digit n)) as [Heq|]; [|done].
  destruct (hex_digit_value n Hn) as [Hv _]. by rewrite <- Heq in Hv.
Qed.

Lemma hex_encode_plain s : plain_id (hex_encode s).
Proof.
  unfold plain_id. induction s as [|c s IH]; [done|]. cbn [hex_encode].
  pose proof (N_ascii_bounded c).
  rewrite !contains_char_cons, !hex_digit_plain, IH; [done| |].
  - apply N.mod_lt. lia.
  - apply N.Div0.div_lt_upper_bound; lia.
Qed.

(** What the members of a group declare, from the message they send. *)
Definition declaration_of (spec : CollectiveGroupSpec) : declaration :=
  MkDeclaration (list_to_set (gs_trainer_slots spec ++ gs_generator_slots spec))
    (map ls_lane_id (gs_lanes spec)) (encode_lanes (lanes_from_spec spec)).

(** A message off the wire: 32-bit lane identifiers, and fewer slots than fit 32 bits. *)
Definition spec_wire (spec : CollectiveGroupSpec) : Prop :=
  Forall (fun l => 0 <= ls_lane_id l <= u32_max)%Z (gs_lanes spec) ∧
  (Z.of_nat (length (gs_trainer_slots spec ++ gs_generator_slots spec)) <= u32_max)%Z.

Lemma layout_for_ok spec layout :
  layout_for spec = Ok layout ->
  LaneLayout_new (lanes_from_spec spec) (gs_trainer_slots spec) (gs_generator_slots spec) = Ok layout.
Proof. unfold layout_for. destruct (LaneLayout_new _ _ _); by intros [= ->]. Qed.

Lemma layout_counts ls tr gen layout :
  LaneLayout_new ls tr gen = Ok layout ->
  trainer_count layout = u32_try_from_or_max (length tr) ∧
  generator_count layout = u32_try_from_or_max (length gen).
Proof.
  unfold LaneLayout_new. destruct tr, gen, ls; try done.
  match goal with |- context [if ?b then _ else _] => destruct b end; [done|].
  destruct (assign_lanes _ _ _ _ _) as [m|]; [|done].
  destruct (check_assigned _ _); [|done]. by intros [= <-].
Qed.

Lemma spec_lanes_plain spec layout :
  spec_wire spec -> Forall slot_plain (gs_trainer_slots spec ++ gs_generator_slots spec) ->
  layout_for spec = Ok layout -> Forall lane_plain (lanes_from_spec spec).
Proof.
  intros [Hids _] Hslots Hl%layout_for_ok.
  destruct (layout_declared _ _ _ _ Hl) as (_ & Hok & _).
  rewrite Forall_forall in Hok. rewrite Forall_forall in Hslots.
  apply Forall_forall. intros lane Hlane. destruct (Hok lane Hlane) as (_ & _ & _ & Ht & Hg).
  apply list_elem_of_fmap in Hlane as (l & -> & Hin). cbn in *.
  split; [by eapply Forall_forall in Hids|].
  split; cbn; apply Forall_forall; intros s Hs; apply Hslots, elem_of_app; auto.
Qed.

Section system.
Context {DB : Type} `{RedisServer DB, !RedisStoreLaws DB, !RedisServerLaws DB}.
Context `{LuaNumbers, !LuaNumbersLaws} `{LuaConcat, !LuaConcatLaws} `{HashIterLaws} `{Sha256}.
Context (decl : string -> declaration).
Implicit Types db : DB.

(** The readers of a group decode what its members declared. *)
Lemma declared_reads spec layout :
  validate_spec (Some spec) = Ok spec -> spec_wire spec -> layout_for spec = Ok layout ->
  decl (group_id_for spec) = declaration_of spec ->
  decl_reads decl (group_id_for spec) (lanes_from_spec spec).
Proof.
  intros (_ & _ & _ & _ & _ & _ & Hplain)%validate_spec_ok Hwire Hl Hdecl.
  pose proof (layout_for_ok spec layout Hl) as Hnew.
  destruct (layout_declared _ _ _ _ Hnew) as (_ & Hok & _). rewrite Forall_forall in Hok.
  split; rewrite ?Hdecl.
  - apply lanes_decode. by eapply spec_lanes_plain.
  - cbn. unfold lanes_from_spec. by rewrite map_map.
  - intros l s Hlane Hs. destruct (Hok l Hlane) as (_ & _ & _ & Ht & Hg). cbn.
    apply elem_of_list_to_set, elem_of_app. unfold slots_in_rank_order in Hs.
    apply elem_of_app in Hs as [Hs|Hs]; auto.
  - intros l Hlane. destruct (Hok l Hlane) as (_ & _ & Hnd & Ht & Hg).
    destruct Hwire as [_ Hlen]. etransitivity; [|exact Hlen]. apply inj_le.
    apply submseteq_length, NoDup_submseteq; [done|]. intros s. unfold slots_in_rank_order.
    rewrite !elem_of_app. naive_solver.
Qed.

Section join.
Context (now_ms timeout_secs : Z) (request : JoinRequest) (spec : CollectiveGroupSpec).
Context (Hspec : jr_spec request = Some spec) (Hwire : spec_wire spec).
Context (Hdecl : decl (group_id_for spec) = declaration_of spec).

Lemma saturating_total a b :
  (Z.of_nat (a + b) <= u32_max)%Z ->
  saturating_add_u32 (u32_try_from_or_max a) (u32_try_from_or_max b) = Z.of_nat (a + b).
Proof. intros Hn. rewrite !u32_exact by lia. unfold saturating_add_u32. lia. Qed.

Lemma join_script_args_ok layout role_text :
  join_checks request = Ok () -> layout_for spec = Ok layout ->
  contains_char "|" role_text = false ->
  join_args_ok decl (group_id_for spec)
    (join_script_args (group_id_for spec) spec layout role_text request now_ms).
Proof.
  intros Hchk Hl Hrole. unfold join_checks in Hchk. rewrite Hspec in Hchk.
  destruct (validate_spec (Some spec)) as [spec'|] eqn:Ev; [|done].
  destruct (required (jr_slot_id request)) as [[]|]; [|done].
  destruct (required (jr_worker_id request)) as [[]|]; [|done].
  destruct (required (jr_plan_digest request)) as [[]|]; [|done].
  destruct (delimiter_free (jr_slot_id request) _) as [[]|]; [|done].
  destruct (delimiter_free (jr_worker_id request) _) as [[]|] eqn:Ew; [|done]. clear Hchk.
  rewrite delimiter_free_ok in Ew.
  apply validate_spec_ok in Ev as (-> & _ & Htr & Hgen & _ & Hnd & Hplain).
  destruct Hwire as [_ Hlen]. pose proof (layout_for_ok spec layout Hl) as Hnew.
  destruct (layout_counts _ _ _ _ Hnew) as [Htc Hgc].
  destruct (layout_inv _ _ _ _ Hnew) as (Hlanes & _).
  assert (forall l, l ≠ [] -> Forall slot_plain l ->
    split newline (join (String newline "") l) = l) as Hsplit.
  { intros l Hne Hl'. apply split_join; [done|]. eapply Forall_impl; [exact Hl'|]. by intros s (_ & _ & _ & ?). }
  apply Forall_app in Hplain as [Hpt Hpg]. split; cbn.
  - f_equal. rewrite Htc, Hgc. rewrite length_app in Hlen. rewrite saturating_total by done.
    unfold expected. rewrite Hdecl. cbn. rewrite size_list_to_set by done. by rewrite length_app.
  - by rewrite Hlanes, Hdecl.
  - intros s Hs. rewrite Hdecl. cbn. apply elem_of_list_to_set, elem_of_app.
    by rewrite !Hsplit in Hs.
  - apply Ew. set_solver.
  - done.
  - by apply decimal_no.
  - done.
Qed.

(** A request to join that the service accepts is answered either with an error that
    left the server as it was, or by exactly one step of the group state machine, with a
    group identifier and script arguments that satisfy everything the machine assumes of
    a join: the guarantees of the machine are guarantees of the service. *)
Lemma join_request_step db :
  join_checks request = Ok () ->
  let G := group_id_for spec in
  let r := exec (join_collective_group (H := redis_collective now_ms timeout_secs) request) db in
  plain_id G ∧
  ((r.1 = db ∧ ∃ e, r.2 = Err e) ∨
   ∃ A, join_args_ok decl G A ∧ ja_worker_id A = jr_worker_id request ∧
     ja_slot_id A = jr_slot_id request ∧ r.1 = (join_run decl G A db).1).
Proof.
  intros Hchk G r. split; [apply hex_encode_plain|]. subst r G.
  unfold join_collective_group, guarded. rewrite Hchk, exec_bind. cbn [exec fst snd be_join_group redis_collective].
  unfold join_group. rewrite Hspec.
  destruct (layout_for spec) as [layout|] eqn:El; [|left; cbn; eauto].
  destruct (assign layout (jr_slot_id request)) as [as_|]; [|left; cbn; eauto].
  destruct (layout_inv _ _ _ _ (layout_for_ok _ _ El)) as (Hlanes & _).
  assert (forall role_text, contains_char "|" role_text = false ->
    let A := join_script_args (group_id_for spec) spec layout role_text request now_ms in
    join_args_ok decl (group_id_for spec) A ∧
    JOIN_GROUP_LUA (join_script_keys (group_id_for spec) (jr_worker_id request) layout) A db =
    join_run decl (group_id_for spec) A db) as Hrun.
  { intros role_text Hr A. split; [by apply join_script_args_ok|]. unfold join_run, join_keys_of,
      join_script_keys, lane_keys. rewrite Hdecl, Hlanes. cbn. unfold lanes_from_spec.
    by rewrite !map_map. }
  destruct (default RoleUnspecified (role_try_from (jr_role request))); [left; cbn; eauto|..]; right.
  - destruct (Hrun "TRAINER" eq_refl) as [HA Heq]. eexists. split; [exact HA|]. cbn [exec].
    rewrite Heq. by destruct (join_run _ _ _ _).
  - destruct (Hrun "GENERATOR" eq_refl) as [HA Heq]. eexists. split; [exact HA|]. cbn [exec].
    rewrite Heq. by destruct (join_run _ _ _ _).
Qed.
End join.
End system.
