(* ===== verification/CollectiveRun.v ===== *)
(** * A group on a concrete server

    Two workers join a group, its leader publishes the communicator, a transfer
    is opened and reported by both: the guarantees of CollectiveTheorems,
    CollectiveRead and CollectiveService on that run, and a run in which a refused
    join breaks the promise that READY names the current members. *)

From Stdlib Require Import ZArith Lia Ascii String.
From stdpp Require Import base tactics option list relations gmap fin_maps fin_map_dom fin_sets strings.
From S2P Require Import Prelude RustStr RedisStore RedisServer RedisProg Lanes.
From S2P Require Import CollectiveScripts CollectiveEffects CollectiveMachine.
From S2P Require Import CollectiveInvariant CollectiveTransfers CollectiveEvolution.
From S2P Require Import CollectiveBackend CollectiveText CollectiveRead CollectiveTheorems.
From S2P Require Import CollectiveService.

#[local] Existing Instance plain_sha.

Definition spec : CollectiveGroupSpec :=
  MkGroupSpec "m" ["t0"] ["g0"] [MkLaneSpec 0 2 ["t0"] ["g0"]].

(** Every group of this server is declared by [spec]. *)
Definition decl (_ : string) : declaration := declaration_of spec.

#[export] Instance decl_ok : DeclOk decl.
Proof. split; [done|]. intros G. apply Z.leb_le. vm_compute. reflexivity. Qed.

Definition G : string := group_id_for spec.
Definition layout : LaneLayout :=
  match layout_for spec with Ok l => l | Err _ => MkLaneLayout [] ∅ 0 0 end.

Definition register (w role : string) (db : redis_db) : redis_db :=
  hset_all (worker_key w) [("worker_id", w); ("role", role); ("model_name", "m")] db.

Definition join_request (slot w : string) (role index : Z) : JoinRequest :=
  MkJoinRequest (Some spec) slot w role index "d" None.

Definition join_args_of (slot w role_text : string) (role index : Z) : join_args :=
  join_script_args G spec layout role_text (join_request slot w role index) 7.

Definition db0 : redis_db := register "wt" "1" (register "wg" "2" redis_empty).
Definition db1 : redis_db := (join_run decl G (join_args_of "t0" "wt" "TRAINER" 1 0) db0).1.
Definition db2 : redis_db := (join_run decl G (join_args_of "g0" "wg" "GENERATOR" 2 0) db1).1.
Definition db3 : redis_db := (publish_run decl G 0 1 "wt" "ab" "t0" db2).1.

Definition op_args (o : string) : create_args :=
  create_script_args o G spec (MkCreateTransferRequest (Some spec) "v" "k" 1) 7 60.
Definition rk : string := operation_idempotency_key "m" "k".
Definition db4 : redis_db := (create_run G rk (op_args "o1") db3).1.
Definition db5 : redis_db := (report_run decl G "o1" 1 "wt" "1" "" db4).1.
Definition db6 : redis_db := (report_run decl G "o1" 1 "wg" "1" "" db5).1.

Lemma not_worker k w : collective_key k -> k ≠ worker_key w.
Proof.
  intros [Hk|(o & Ho & [->| ->])] Heq; [|discriminate..]. subst k. by destruct Hk.
Qed.

Lemma not_request k m r : collective_key k -> k ≠ operation_idempotency_key m r.
Proof.
  intros [Hk|(o & Ho & [->| ->])] Heq; [|discriminate..]. subst k. by destruct Hk.
Qed.

Lemma join_args_of_ok slot w role_text role index :
  contains_char "|" role_text = false -> contains_char "|" w = false ->
  join_args_ok decl G (join_args_of slot w role_text role index).
Proof.
  intros Hr Hw. split; cbn; try done; [|by apply decimal_no].
  intros s Hs. change (s ∈ ["t0"] ∨ s ∈ ["g0"]) in Hs. set_solver.
Qed.

(** The losses on record along the run: none. *)
Definition noted (D : losses) (db db' : redis_db) : losses := note_losses decl D db db'.
Definition D2 : losses := noted (noted no_losses db0 db1) db1 db2.
Definition D3 : losses := noted D2 db2 db3.
Definition D5 : losses := noted (noted D3 db3 db4) db4 db5.

Lemma kept_noted D db db' :
  dom (hfields (participants_key G) db) ⊆ dom (hfields (participants_key G) db') ->
  ~ D G 1%Z -> ~ noted D db db' G 1%Z.
Proof.
  intros Hdom HD [[HD' _]|[(A & e & s & _ & _ & _ & _ & _ & Hs & Hno) _]]; [done|].
  rewrite <- hfields_lookup in Hs, Hno. apply elem_of_dom, Hdom, elem_of_dom in Hs as [r Hr]. congruence.
Qed.

Ltac by_eval := apply (bool_decide_eq_true_1 _); vm_compute; reflexivity.

Lemma no_loss3 : ~ D3 G 1%Z.
Proof. do 3 (apply kept_noted; [by_eval|]). by intros []. Qed.

Lemma no_loss5 : ~ D5 G 1%Z.
Proof. do 2 (apply kept_noted; [by_eval|]). exact no_loss3. Qed.

Lemma reach0 : reach decl 0 no_losses db0.
Proof.
  apply reach_init.
  - intros k f Hk. unfold db0, register. rewrite !hget_hset_all_ne by by apply not_worker. done.
  - intros k Hk. unfold db0, register. rewrite !set_at_hset_all. done.
Qed.

Lemma reach2 : reach decl 2 D2 db2.
Proof.
  assert (reach decl 1 (noted no_losses db0 db1) db1) as H1.
  { eapply reach_step; [exact reach0|]. apply step_join; [done|by apply join_args_of_ok]. }
  eapply reach_step; [exact H1|]. apply step_join; [done|by apply join_args_of_ok].
Qed.

Lemma publish_step3 : step decl db2 db3.
Proof. apply step_publish; [done|]. apply list_elem_of_here. Qed.

Lemma reach3 : reach decl 3 D3 db3.
Proof. eapply reach_step; [exact reach2|exact publish_step3]. Qed.

Lemma reach5 : reach decl 5 D5 db5.
Proof.
  assert (reach decl 4 (noted D3 db3 db4) db4) as H4.
  { eapply reach_step; [exact reach3|]. apply step_create; [done| |by split].
    intros Hk. by eapply not_request in Hk. }
  eapply reach_step; [exact H4|]. by apply step_report.
Qed.

Lemma small n : n < 100 -> (Z.of_nat n < lua_concat_max)%Z.
Proof. unfold lua_concat_max. lia. Qed.

(** The two participants of [db3]. *)
Lemma elem_of_participants3 s r :
  hget (participants_key G) s db3 = Some r -> r = "wt|TRAINER|0|1" ∨ r = "wg|GENERATOR|0|1".
Proof.
  rewrite <- hfields_lookup. intros Hr%elem_of_map_to_list.
  assert (map_to_list (hfields (participants_key G) db3) ≡ₚ
    [("t0", "wt|TRAINER|0|1"); ("g0", "wg|GENERATOR|0|1")]) as Hl
    by (apply (bool_decide_eq_true_1 _); vm_compute; reflexivity).
  rewrite Hl in Hr. set_solver.
Qed.

(** ** The guarantees on the run *)

Lemma group_ready_sound_witness :
  dom (hfields (participants_key G) db3) = dc_slots (decl G).
Proof.
  apply (group_ready_sound decl 3 D3 db3 G 1); [exact reach3|by apply small; lia|done| | |exact no_loss3];
    vm_compute; reflexivity.
Defined.

(** The refresh after the last publication. *)
Lemma refresh_detects_ready_witness :
  refresh_run decl G db3 = (hset (group_key G) "state" "READY" db3, "OK:" +:+ decimal 1 +:+ ":READY").
Proof.
  apply (refresh_detects_ready decl 3 D3 db3 G 1);
    [exact reach3|by apply small; lia|done|vm_compute; reflexivity| |].
  - apply evaluate_readiness_spec. vm_compute. reflexivity.
  - intros s r Hr. apply elem_of_participants3 in Hr as [->| ->]; vm_compute; reflexivity.
Defined.

Lemma rk_request : request_like rk.
Proof. intros Hk. by eapply not_request in Hk. Qed.

Lemma create_transfer_idempotent_witness :
  create_run G rk (op_args "o2") db4 = (db4, "EXISTING:o1").
Proof.
  apply (create_transfer_idempotent G rk (op_args "o1") db3 rk_request);
    [by split|vm_compute; reflexivity|reflexivity|reflexivity|].
  vm_compute. discriminate.
Defined.

Lemma single_active_transfer_witness :
  hget (operation_key "o1") "epoch" db5 = Some (decimal 1) ∧ admitted G db5 "wt".
Proof.
  destruct (single_active_transfer decl 5 D5 db5 G 1 "o1" "o1") as (_ & He & _ & _ & Hfull);
    [exact reach5|by apply small; lia|done|vm_compute; reflexivity..|].
  split; [exact He|]. apply (proj2 (Hfull no_loss5)). by_eval.
Defined.

Lemma transfer_complete_all_reported_witness :
  "wt" ∈ set_at (reported_key "o1") db6 ∧ size (set_at (reported_key "o1") db6) = 2.
Proof.
  destruct (transfer_complete_all_reported decl 5 D5 db5 G "o1" 1 "wg" "1" "" 1) as (_ & Hsize & Hall);
    [exact reach5|by apply small; lia|done|done|vm_compute; reflexivity..|].
  split; [|etransitivity; [exact Hsize|vm_compute; reflexivity]]. apply (Hall no_loss5).
  exists "t0", "wt|TRAINER|0|1", "TRAINER", "0", "1". split; vm_compute; reflexivity.
Defined.

Lemma transfer_terminal_final_witness :
  op_same "o1" db6 (refresh_run decl G db6).1 ∨
  (forall f, hget (operation_key "o1") f (refresh_run decl G db6).1 = None).
Proof.
  apply (transfer_terminal_final decl db6 (refresh_run decl G db6).1 "o1" "COMPLETE").
  - by apply step_refresh.
  - reflexivity.
  - vm_compute. reflexivity.
  - reflexivity.
Defined.

(** Another identifier for the same lane and epoch is refused. *)
Definition db3' : redis_db := (publish_run decl G 0 1 "wt" "cd" "t0" db3).1.

Lemma bootstrap_agreement_witness :
  hget (lane_key G 0) "nccl_unique_id" db3' = hget (lane_key G 0) "nccl_unique_id" db3 ∧
  forall w, admitted G db3 w -> admitted G db3' w.
Proof.
  destruct (bootstrap_agreement decl 3 1 D3 (noted D3 db3 db3') db3 db3' G 1)
    as (e' & He' & _ & Hl & Hm);
    [exact reach3| |by apply small; lia|done|vm_compute; reflexivity|].
  { eapply run_step; [apply run_refl| |].
    - apply step_publish; [done|]. apply list_elem_of_here.
    - exists 1%Z. vm_compute. reflexivity. }
  assert (e' = 1%Z) as -> by (change (Some 1%Z = Some e') in He'; congruence). split.
  - apply Hl; [done|apply list_elem_of_here|vm_compute; reflexivity].
  - apply Hm; [done|apply kept_noted; [by_eval|exact no_loss3]|].
    apply (readiness_formed decl G 1 None), evaluate_readiness_spec. vm_compute. reflexivity.
Defined.

Lemma lanes_current_witness : lane_stamp (lane_key G 0) db3 = Some 1%Z.
Proof.
  apply (lanes_current decl 3 D3 db3 G 1 0 "nccl_unique_id" "ab");
    [exact reach3|by apply small; lia|done|vm_compute; reflexivity|apply list_elem_of_here|
     vm_compute; reflexivity].
Defined.

Lemma spec_on_wire : spec_wire spec.
Proof. split; [|by vm_compute]. apply Forall_singleton. by vm_compute. Qed.

Lemma spec_reads : decl_reads decl G (lanes_from_spec spec).
Proof.
  apply (declared_reads decl spec layout); [done|exact spec_on_wire|done|done].
Qed.

Lemma others_refl3 : others decl G True db3 db3.
Proof.
  exists 3, 0, D3, D3. split_and!; [exact reach3|apply run_refl|by apply small; lia|].
  intros _ e He. change (Some 1%Z = Some e) in He. injection He as <-. exact no_loss3.
Qed.

Definition group3 : cresult CollectiveGroup := (exec (read_group G) db3).2.

(** Alone, [read_group] does not move the server. *)
Lemma read_path3 : Forall (fun d => d = db3) (path (read_group G) db3).
Proof.
  assert (forallb (fun d => bool_decide (d = db3)) (path (read_group G) db3) = true) as Hp
    by (vm_compute; reflexivity).
  apply Forall_forall. intros d Hd. apply (bool_decide_eq_true_1 _).
  rewrite forallb_forall in Hp. by apply Hp, list_elem_of_In.
Qed.

Lemma read_end3 : (exec (read_group G) db3).1 = db3.
Proof. apply (bool_decide_eq_true_1 _). vm_compute. reflexivity. Qed.

Lemma group3_ready : ∃ g, group3 = Ok g ∧ cg_state g = GroupReady.
Proof. eexists. split; vm_compute; reflexivity. Qed.

Lemma read_group_not_torn_witness :
  ∃ g, group3 = Ok g ∧ cg_state g = GroupReady ∧
    Forall2 (lane_read G (cg_epoch g) db3) (lanes_from_spec spec) (cg_lanes g) ∧
    Forall2 (fun lane cl => ranks_read cl = ranks_declared lane)
      (lanes_from_spec spec) (cg_lanes g).
Proof.
  destruct group3_ready as (g & Eg & Hs). exists g. split; [exact Eg|]. split; [exact Hs|].
  destruct (read_group_not_torn decl G eq_refl True (lanes_from_spec spec) db3 g db3 spec_reads)
    as (_ & Hl & Hr); [|exact Hs|exact (conj Hl (Hr I))].
  rewrite <- read_end3 at 2. rewrite <- Eg. apply path_runs.
  eapply Forall_impl; [exact read_path3|]. intros d ->. exact others_refl3.
Defined.

Lemma join_request_step_witness :
  plain_id G ∧
  ∃ A, join_args_ok decl G A ∧
    (exec (join_collective_group (H := redis_collective 7 60) (join_request "t0" "wt" 1 0)) db0).1 =
    (join_run decl G A db0).1.
Proof.
  destruct (join_request_step decl 7 60 (join_request "t0" "wt" 1 0) spec eq_refl) with (db := db0)
    as [Hp [[_ [e He]]|(A & HA & _ & _ & Hrun)]].
  - exact spec_on_wire.
  - reflexivity.
  - vm_compute. reflexivity.
  - by vm_compute in He.
  - split; [exact Hp|]. exists A. exact (conj HA Hrun).
Defined.

(** ** A refused join that breaks READY *)

(** The generator's registration lapses and a second trainer registers. *)
Definition lapsed : redis_db := register "wt2" "1" (redis_del (worker_key "wg") db3).
(** The second trainer asks for the slot of the first with another index: refused. *)
Definition refused : redis_db * string :=
  join_run decl G (join_args_of "t0" "wt2" "TRAINER" 1 1) lapsed.
(** A replacement for the generator registers and joins. *)
Definition readmitted : redis_db * string :=
  join_run decl G (join_args_of "g0" "wg2" "GENERATOR" 2 0) (register "wg2" "2" refused.1).

Lemma lapsed_reach : ∃ D, reach decl 4 D lapsed.
Proof.
  eexists. eapply reach_step; [exact reach3|]. apply step_env.
  - intros k f Hk. unfold lapsed, register. rewrite hget_hset_all_ne by by apply not_worker.
    rewrite hget_del, decide_False by by apply not_worker. done.
  - intros k Hk. unfold lapsed, register. rewrite set_at_hset_all, set_at_del, decide_False by
      by apply not_worker. done.
Qed.

(** A join that is refused for a conflicting assignment has already removed the lapsed
    participants, without a new epoch: the group, in a reachable state, stays READY at its
    epoch with a slot empty, the loss is on record, and the next worker to take that slot is
    admitted into the same READY epoch, whose communicator was built with the worker that
    is gone. *)
Lemma refused_join_breaks_ready :
  (∃ D, reach decl 5 D refused.1 ∧ D G 1%Z) ∧
  refused.2 = "CONFLICTING_ASSIGNMENT" ∧
  hget (group_key G) "state" refused.1 = Some "READY" ∧ epoch_of G refused.1 = Some 1%Z ∧
  hget (participants_key G) "g0" refused.1 = None ∧
  readmitted.2 = "OK:1:READY" ∧
  hget (participants_key G) "g0" readmitted.1 = Some "wg2|GENERATOR|0|1" ∧
  hget (lane_key G 0) "nccl_unique_id" readmitted.1 = hget (lane_key G 0) "nccl_unique_id" db3.
Proof.
  split; [|vm_compute; repeat split; reflexivity]. destruct lapsed_reach as [D HD].
  assert (join_args_ok decl G (join_args_of "t0" "wt2" "TRAINER" 1 1)) as HA by by apply join_args_of_ok.
  eexists. split; [eapply reach_step; [exact HD|by apply step_join]|]. right. split.
  - exists (join_args_of "t0" "wt2" "TRAINER" 1 1), 1%Z, "g0". split_and!; [done..| | | | |].
    + vm_compute. reflexivity.
    + vm_compute. reflexivity.
    + vm_compute. reflexivity.
    + exists "wg|GENERATOR|0|1". vm_compute. reflexivity.
    + vm_compute. reflexivity.
  - vm_compute. reflexivity.
Qed.
