(* ===== verification/RefitScripts.v ===== *)
(** * The refit scripts (refit/backend/redis.rs and its Lua files)

    The key layout of trainer meshes, weight versions, shard publications, version
    leases and worker registrations, and the ten Lua scripts that change them, each
    one atomic function on the Redis server.  The server's clock is an argument.
    JSON texts are parameters: [MeshJson] has serde_json's printer and parser and
    Lua's cjson; [ShardCodec] is prost's encoding of a publication.  A text that cjson cannot decode to the two strings per worker ends
    a script with an error, which is [None]; what was written before stays. *)

From Stdlib Require Import ZArith Lia Ascii String.
From stdpp Require Import base tactics option list gmap fin_maps fin_map_dom fin_sets strings.
From S2P Require Import Prelude RustStr RedisStore RedisServer.

Record TrainerTensorsMetadata : Type := MkTensorsMetadata {
  tm_logical_shard_id : string;
  tm_metadata_endpoint : string
}.

#[export] Instance TrainerTensorsMetadata_eq_dec : EqDecision TrainerTensorsMetadata.
Proof. solve_decision. Defined.

Abbreviation mesh_workers := (gmap string TrainerTensorsMetadata).

(** The object that [serde_json::json!] makes of a worker's metadata. *)
Definition metadata_fields (m : TrainerTensorsMetadata) : gmap string string :=
  <["logical_shard_id" := tm_logical_shard_id m]>
    {["metadata_endpoint" := tm_metadata_endpoint m]}.

Class MeshJson := {
  (** [serde_json::to_string] of the two collections that the backend stores. *)
  workers_json : mesh_workers -> string;
  shards_json : list string -> string;
  (** [serde_json::from_str] into a map of maps. *)
  serde_workers : string -> option (gmap string (gmap string string));
  (** [cjson.decode]. *)
  cjson_workers : string -> option mesh_workers;
  cjson_shards : string -> option (list string)
}.

Class MeshJsonLaws `{MeshJson} : Prop := {
  serde_workers_json : forall ws, serde_workers (workers_json ws) = Some (metadata_fields <$> ws);
  cjson_workers_json : forall ws, cjson_workers (workers_json ws) = Some ws;
  cjson_shards_json : forall l, cjson_shards (shards_json l) = Some l
}.

Record WeightVersionShard : Type := MkWeightVersionShard {
  wvs_version_id : string;
  wvs_logical_shard_id : string;
  wvs_worker_id : string;
  wvs_stable_metadata_digest : string;
  wvs_metadata_endpoint : string;
  wvs_version_metadata_digest : string
}.

(** prost's encoding of a publication. *)
Class ShardCodec := {
  encode_shard : WeightVersionShard -> string;
  decode_shard : string -> option WeightVersionShard
}.

Class ShardCodecLaws `{ShardCodec} : Prop := {
  decode_encode_shard : forall s, decode_shard (encode_shard s) = Some s
}.

(** ** Keys *)

Definition mesh_key (mesh_id : string) : string := "mx:refit:trainer-mesh:metadata:" +:+ mesh_id.
Definition mesh_versions_key (mesh_id : string) : string :=
  "mx:refit:trainer-mesh:versions:" +:+ mesh_id.
Definition mesh_idempotency_key (model_name request_key : string) : string :=
  "mx:refit:trainer-mesh-request:" +:+ model_name +:+ ":" +:+ request_key.
Definition version_key (version_id : string) : string :=
  "mx:refit:version:metadata:" +:+ version_id.
Definition shards_key (version_id : string) : string := "mx:refit:version:shards:" +:+ version_id.
Definition publication_key (worker_id logical_shard_id : string) : string :=
  decimal (Z.of_nat (String.length worker_id)) +:+ ":" +:+ worker_id +:+ logical_shard_id.
Definition publication_endpoints_key (version_id : string) : string :=
  "mx:refit:version:publication-endpoints:" +:+ version_id.
Definition refit_worker_key (worker_id : string) : string := "mx:refit:worker:" +:+ worker_id.
Definition leases_key (version_id : string) : string := "mx:refit:version:leases:" +:+ version_id.
Definition lease_key (version_id lease_id : string) : string :=
  "mx:refit:version:lease:" +:+ version_id +:+ ":" +:+ lease_id.
Definition idempotency_key (model_name request_key : string) : string :=
  "mx:refit:version-request:" +:+ model_name +:+ ":" +:+ request_key.

(** The numbers of [WeightVersionState] and [WorkerRole] as script arguments. *)
Definition STAGING : string := decimal 1.
Definition READY : string := decimal 2.
Definition RELEASING : string := decimal 3.
Definition TRAINER : string := decimal 1.
Definition GENERATOR : string := decimal 2.

Section scripts.
Context {DB : Type} `{RedisServer DB} `{LuaNumbers} `{LuaConcat} `{HashIter} `{MeshJson}.
Implicit Types db : DB.

(** ** register_worker.lua *)

Definition REGISTER_WORKER_LUA (key worker_id role model_name : string) (ttl_ms : Z)
    (refit_endpoint : string) (now : Z) db : DB * string :=
  if redis_exists key db &&
     negb (bool_decide (hget key "role" db = Some role) &&
           bool_decide (hget key "model_name" db = Some model_name) &&
           String.eqb (default "" (hget key "refit_endpoint" db)) refit_endpoint)
  then (db, "CONFLICT")
  else
    let expires_at := (now + ttl_ms)%Z in
    let db := hset_all key
      [("worker_id", worker_id); ("role", role); ("model_name", model_name);
       ("refit_endpoint", refit_endpoint); ("expires_at_unix_ms", lua_arg expires_at)] db in
    (pexpire key (decimal ttl_ms) db, "OK:" +:+ lua_concat expires_at).

(** ** create_trainer_mesh.lua *)

(** The loop over the workers' registrations; [role_ok] is the comparison of roles,
    which one script makes on strings and another on numbers. *)
Fixpoint check_workers (role_ok : option string -> bool) (model_name : string)
    (workers : mesh_workers) (keys : list string) db : option string :=
  match keys with
  | [] => None
  | key :: keys' =>
      if negb (redis_exists key db) then Some "WORKER_NOT_FOUND"
      else if negb (bool_decide (hget key "model_name" db = Some model_name)) ||
              negb (role_ok (hget key "role" db))
      then Some "WORKER_MISMATCH"
      else
        match w ← hget key "worker_id" db; workers !! w with
        | None => Some "WORKER_MISMATCH"
        | Some m =>
            if negb (bool_decide (hget key "refit_endpoint" db = Some (tm_metadata_endpoint m)))
            then Some "WORKER_MISMATCH"
            else check_workers role_ok model_name workers keys' db
        end
  end.

Definition CREATE_MESH_LUA (mesh request_key : string) (worker_keys : list string)
    (mesh_id model_name logical_shards workers trainer_role : string) db : DB * option string :=
  match str_get request_key db with
  | Some existing => (db, Some ("EXISTING:" +:+ existing))
  | None =>
      if redis_exists mesh db then (db, Some "COLLISION")
      else
        match cjson_workers workers with
        | None => (db, None)
        | Some ws =>
            match check_workers (fun r => bool_decide (r = Some trainer_role)) model_name ws
                    worker_keys db with
            | Some e => (db, Some e)
            | None =>
                let db := hset_all mesh
                  [("mesh_id", mesh_id); ("model_name", model_name); ("generation", lua_arg 1);
                   ("logical_shards", logical_shards); ("workers", workers);
                   ("initial_workers", workers)] db in
                (str_set request_key mesh_id db, Some "CREATED")
            end
        end
  end.

(** ** create_weight_version.lua *)

Record version_args : Type := MkVersionArgs {
  va_uid : string;
  va_model_name : string;
  va_idempotency_key : string;
  va_payload_format : string;
  va_base_version_id : string;
  va_s3_uri : string;
  va_initial_state : string;
  va_state : string;
  va_created_at : string;
  va_trainer_mesh_id : string;
  va_version_number : string
}.

(** The mesh generation that the version is bound to, or the reply of an early return. *)
Definition version_generation (mesh : string) (A : version_args) db : result string string :=
  if String.eqb (va_trainer_mesh_id A) "" then Ok "0"
  else if negb (redis_exists mesh db) then Err "MESH_NOT_FOUND"
  else if negb (bool_decide (hget mesh "model_name" db = Some (va_model_name A)))
  then Err "MESH_MODEL_MISMATCH"
  else
    match hget mesh "generation" db with
    | None => Err "MESH_GENERATION_MISSING"
    | Some generation =>
        if String.eqb generation "0" then Err "MESH_GENERATION_MISSING" else Ok generation
    end.

Definition CREATE_VERSION_LUA (version request_key mesh mesh_versions : string) (A : version_args) db
    : DB * string :=
  match str_get request_key db with
  | Some existing => (db, "EXISTING:" +:+ existing)
  | None =>
      if redis_exists version db then (db, "COLLISION")
      else
        match version_generation mesh A db with
        | Err e => (db, e)
        | Ok generation =>
            let db := hset_all version
              [("uid", va_uid A); ("model_name", va_model_name A);
               ("idempotency_key", va_idempotency_key A);
               ("payload_format", va_payload_format A);
               ("base_version_id", va_base_version_id A); ("s3_uri", va_s3_uri A);
               ("initial_state", va_initial_state A); ("layout_signature", "");
               ("state", va_state A); ("created_at_unix_ms", va_created_at A);
               ("trainer_mesh_id", va_trainer_mesh_id A);
               ("trainer_mesh_generation", generation);
               ("version_number", va_version_number A)] db in
            let db := if String.eqb (va_trainer_mesh_id A) "" then db
                      else sadd mesh_versions (va_uid A) db in
            (str_set request_key (va_uid A) db, "CREATED")
        end
  end.

(** ** update_weight_version_state.lua *)

Definition UPDATE_VERSION_STATE_LUA (version target staging ready releasing : string) db
    : DB * string :=
  if negb (redis_exists version db) then (db, "VERSION_NOT_FOUND")
  else
    let current := hget version "state" db in
    if bool_decide (current = Some target) then (db, "OK")
    else
      let s3_ready :=
        bool_decide (current = Some staging) && String.eqb target ready &&
        negb (String.eqb (default "" (hget version "s3_uri" db)) "") in
      let is_releasing :=
        (bool_decide (current = Some staging) || bool_decide (current = Some ready)) &&
        String.eqb target releasing in
      if negb s3_ready && negb is_releasing then (db, "INVALID_TRANSITION")
      else (hset version "state" target db, "OK").

(** ** create_weight_version_shard.lua *)

Record shard_args : Type := MkShardArgs {
  sa_publication_key : string;
  sa_encoded : string;
  sa_model_name : string;
  sa_logical_shard_id : string;
  sa_staging : string;
  sa_ready : string;
  sa_worker_id : string;
  sa_trainer_role : string;
  sa_metadata_endpoint : string;
  sa_stable_digest : string
}.

Record shard_keys : Type := MkShardKeys {
  sk_version : string;
  sk_worker : string;
  sk_shards : string;
  sk_mesh : string;
  sk_endpoints : string
}.

(** A worker of the mesh has published and is registered as it was admitted. *)
Definition published (K : shard_keys) (A : shard_args) db (worker_id : string)
    (m : TrainerTensorsMetadata) : bool :=
  let key := publication_key worker_id (tm_logical_shard_id m) in
  let registration := refit_worker_key worker_id in
  hexists (sk_shards K) key db &&
  bool_decide (hget (sk_endpoints K) key db = Some (tm_metadata_endpoint m)) &&
  bool_decide (hget registration "refit_endpoint" db = Some (tm_metadata_endpoint m)) &&
  bool_decide (hget registration "model_name" db = Some (sa_model_name A)) &&
  bool_decide (hget registration "role" db = Some (sa_trainer_role A)).

(** The loop that counts the covered logical shards. *)
Definition count_covered (K : shard_keys) (A : shard_args) db (workers : mesh_workers) : nat :=
  (foldl (fun '(present, covered) '(worker_id, m) =>
     if published K A db worker_id m && negb (bool_decide (tm_logical_shard_id m ∈ present))
     then ({[tm_logical_shard_id m]} ∪ present, S covered)
     else (present, covered)) ((∅ : gset string), 0) (hash_entries workers)).2.

(** The checks: the reply of an early return, or the state, the workers and the
    number of logical shards. *)
Definition shard_checks (K : shard_keys) (A : shard_args) db
    : option (result (string * mesh_workers * nat) string) :=
  if negb (redis_exists (sk_version K) db) then Some (Err "VERSION_NOT_FOUND")
  else if negb (redis_exists (sk_worker K) db) then Some (Err "WORKER_NOT_FOUND")
  else if negb (bool_decide (hget (sk_worker K) "model_name" db = Some (sa_model_name A)))
  then Some (Err "MODEL_MISMATCH")
  else
    match hget (sk_version K) "state" db with
    | None => Some (Err "VERSION_NOT_WRITABLE")
    | Some state =>
        if negb (String.eqb state (sa_staging A)) && negb (String.eqb state (sa_ready A))
        then Some (Err "VERSION_NOT_WRITABLE")
        else if negb (String.eqb (default "" (hget (sk_version K) "s3_uri" db)) "")
        then Some (Err "VERSION_NOT_WRITABLE")
        else if negb (redis_exists (sk_mesh K) db) then Some (Err "MESH_NOT_FOUND")
        else
          match hget (sk_version K) "trainer_mesh_generation" db with
          | None => Some (Err "MESH_GENERATION_MISSING")
          | Some generation =>
              if String.eqb generation "0" then Some (Err "MESH_GENERATION_MISSING")
              else if negb (bool_decide (Some generation = hget (sk_mesh K) "generation" db))
              then Some (Err "MESH_GENERATION_MISMATCH")
              else if negb (bool_decide ((v ← hget (sk_worker K) "role" db; lua_tonumber v) =
                                         lua_tonumber (sa_trainer_role A)))
              then Some (Err "WORKER_NOT_TRAINER")
              else
                match hget (sk_mesh K) "workers" db ≫= cjson_workers with
                | None => None
                | Some workers =>
                    match workers !! sa_worker_id A with
                    | None => Some (Err "WORKER_NOT_IN_MESH")
                    | Some m =>
                        if negb (String.eqb (tm_logical_shard_id m) (sa_logical_shard_id A))
                        then Some (Err "WORKER_NOT_IN_MESH")
                        else if negb (String.eqb (tm_metadata_endpoint m) (sa_metadata_endpoint A)) ||
                                negb (bool_decide (hget (sk_worker K) "refit_endpoint" db =
                                                   Some (sa_metadata_endpoint A)))
                        then Some (Err "WORKER_ENDPOINT_MISMATCH")
                        else
                          match hget (sk_mesh K) "logical_shards" db ≫= cjson_shards with
                          | None => None
                          | Some shards => Some (Ok (state, workers, length shards))
                          end
                    end
                end
          end
    end.

Definition pin_field (A : shard_args) : string := "stable_metadata:" +:+ sa_publication_key A.

(** The writes of a publication. *)
Definition publish_writes (K : shard_keys) (A : shard_args) db : DB :=
  hset (sk_endpoints K) (sa_publication_key A) (sa_metadata_endpoint A)
    (hset (sk_shards K) (sa_publication_key A) (sa_encoded A)
      (hset (sk_mesh K) (pin_field A) (sa_stable_digest A) db)).

Definition CREATE_SHARD_LUA (K : shard_keys) (A : shard_args) db : DB * option string :=
  match shard_checks K A db with
  | None => (db, None)
  | Some (Err e) => (db, Some e)
  | Some (Ok (state, workers, expected)) =>
      if match hget (sk_shards K) (sa_publication_key A) db with
         | Some existing => negb (String.eqb existing (sa_encoded A)) | None => false end
      then (db, Some "SHARD_CONFLICT")
      else if match hget (sk_mesh K) (pin_field A) db with
              | Some pinned => negb (String.eqb pinned (sa_stable_digest A)) | None => false end
      then (db, Some "STABLE_METADATA_MISMATCH")
      else
        let db := publish_writes K A db in
        if (count_covered K A db workers =? expected)%nat
        then (hset (sk_version K) "state" (sa_ready A) db, Some ("OK:" +:+ sa_ready A))
        else (db, Some ("OK:" +:+ state))
  end.

(** ** delete_weight_version_shard.lua *)

Definition DELETE_SHARD_LUA (version worker shards leases endpoints : string)
    (publication encoded : string) (now : Z) db : DB * string :=
  if negb (redis_exists version db) then (db, "VERSION_NOT_FOUND")
  else if negb (redis_exists worker db) then (db, "WORKER_NOT_FOUND")
  else
    match hget shards publication db with
    | None => (db, "SHARD_NOT_FOUND")
    | Some current =>
        if negb (String.eqb current encoded) then (db, "SHARD_CONFLICT")
        else
          let db := zremrange_to leases now db in
          if (0 <? zcard leases db)%nat then (db, "VERSION_LEASED")
          else (hdel endpoints publication (hdel shards publication db), "DELETED")
    end.

(** ** register_version_lease.lua *)

(** The lease record is the one of this owner. *)
Definition same_lease (lease lease_id version_id worker_id : string) db : bool :=
  bool_decide (hget lease "lease_id" db = Some lease_id) &&
  bool_decide (hget lease "version_id" db = Some version_id) &&
  bool_decide (hget lease "worker_id" db = Some worker_id).

Definition REGISTER_LEASE_LUA (version worker lease leases : string)
    (lease_id version_id worker_id : string) (ttl_ms : Z) (ready releasing generator : string)
    (now : Z) db : DB * string :=
  if negb (redis_exists version db) then (db, "VERSION_NOT_FOUND")
  else if negb (redis_exists worker db) then (db, "WORKER_NOT_FOUND")
  else if negb (bool_decide (hget worker "role" db = Some generator))
  then (db, "WORKER_NOT_GENERATOR")
  else if negb (bool_decide (hget worker "model_name" db = hget version "model_name" db))
  then (db, "MODEL_MISMATCH")
  else
    let state := hget version "state" db in
    let refusal :=
      if redis_exists lease db then
        if negb (same_lease lease lease_id version_id worker_id db) then Some "LEASE_CONFLICT"
        else if negb (bool_decide (state = Some ready)) && negb (bool_decide (state = Some releasing))
        then Some "VERSION_NOT_LEASEABLE"
        else None
      else if negb (bool_decide (state = Some ready)) then Some "VERSION_NOT_LEASEABLE"
      else None in
    match refusal with
    | Some e => (db, e)
    | None =>
        let expires_at := (now + ttl_ms)%Z in
        let db := hset_all lease
          [("lease_id", lease_id); ("version_id", version_id); ("worker_id", worker_id);
           ("expires_at_unix_ms", lua_arg expires_at)] db in
        let db := pexpire lease (decimal ttl_ms) db in
        (zadd leases expires_at lease_id db, "OK:" +:+ lua_concat expires_at)
    end.

(** ** delete_version_lease.lua *)

Definition DELETE_LEASE_LUA (lease leases : string) (lease_id version_id worker_id : string) db
    : DB * string :=
  if negb (redis_exists lease db) then (zrem leases lease_id db, "NOT_FOUND")
  else if negb (same_lease lease lease_id version_id worker_id db) then (db, "LEASE_CONFLICT")
  else (zrem leases lease_id (redis_del lease db), "DELETED").

(** ** update_trainer_mesh.lua *)

Definition shard_set (ws : mesh_workers) : gset string :=
  list_to_set ((fun e => tm_logical_shard_id e.2) <$> hash_entries ws).

(** Workers of the replacement that are new or changed; old workers that are gone or
    cover another logical shard. *)
Definition changed_workers (old replacement : mesh_workers) : mesh_workers :=
  filter (fun e => old !! e.1 ≠ Some e.2) replacement.
Definition removed_workers (old replacement : mesh_workers) : mesh_workers :=
  filter (fun e => tm_logical_shard_id <$> replacement !! e.1 ≠ Some (tm_logical_shard_id e.2)) old.

(** The publications of one version that the update retires: shards key, endpoints
    key, publication key. *)
Definition retired_of (old replacement : mesh_workers) (version_id : string) db
    : list (string * string * string) :=
  let shards := shards_key version_id in
  let endpoints := publication_endpoints_key version_id in
  let keyed e := publication_key e.1 (tm_logical_shard_id e.2) in
  let gone := filter (fun e => hexists shards (keyed e) db = true)
                (hash_entries (removed_workers old replacement)) in
  let moved := filter (fun e => hexists shards (keyed e) db = true ∧
                        hget endpoints (keyed e) db ≠ Some (tm_metadata_endpoint e.2))
                 (hash_entries (changed_workers old replacement)) in
  (fun e => (shards, endpoints, keyed e)) <$> gone ++ moved.

(** The loop over the linked versions: expired leases go, an active one ends it. *)
Fixpoint retire_scan (old replacement : mesh_workers) (now : Z) (versions : list string) db
    : DB * option (list (string * string * string)) :=
  match versions with
  | [] => (db, Some [])
  | v :: versions' =>
      let db := zremrange_to (leases_key v) now db in
      if (0 <? zcard (leases_key v) db)%nat then (db, None)
      else
        let retired := retired_of old replacement v db in
        let '(db, rest) := retire_scan old replacement now versions' db in
        (db, (fun r => retired ++ r) <$> rest)
  end.

Definition retire (retired : list (string * string * string)) db : DB :=
  foldl (fun db '(shards, endpoints, key) => hdel endpoints key (hdel shards key db)) db retired.

(** The pins of stable metadata belong to one generation. *)
Definition drop_pins (mesh : string) db : DB :=
  foldl (fun db f => if starts_with "stable_metadata:" f then hdel mesh f db else db) db
    (hkeys mesh db).

Definition UPDATE_MESH_LUA (mesh mesh_versions : string) (worker_keys : list string)
    (expected_generation : Z) (workers model_name trainer_role : string) (now : Z) db
    : DB * option string :=
  if negb (redis_exists mesh db) then (db, Some "NOT_FOUND")
  else
    match hget mesh "workers" db ≫= cjson_workers, cjson_workers workers with
    | Some old, Some replacement =>
        if negb (bool_decide (shard_set replacement = shard_set old))
        then (db, Some "COVERAGE_MISMATCH")
        else if negb (bool_decide ((v ← hget mesh "generation" db; lua_tonumber v) =
                                   lua_tonumber (decimal expected_generation)))
        then (db, Some "GENERATION_MISMATCH")
        else
          match check_workers
                  (fun r => bool_decide ((v ← r; lua_tonumber v) = lua_tonumber trainer_role))
                  model_name replacement worker_keys db with
          | Some e => (db, Some e)
          | None =>
              if bool_decide (replacement = old) then (db, Some "UNCHANGED")
              else
                match retire_scan old replacement now (smembers mesh_versions db) db with
                | (db, None) => (db, Some "VERSION_LEASED")
                | (db, Some retired) =>
                    let db := drop_pins mesh (retire retired db) in
                    match lua_tonumber (decimal expected_generation) with
                    | None => (db, None)
                    | Some g =>
                        (hset_all mesh [("workers", workers); ("generation", lua_arg (g + 1))] db,
                         Some "UPDATED")
                    end
                end
          end
    | _, _ => (db, None)
    end.

(** ** delete_trainer_mesh.lua *)

Fixpoint versions_retired (releasing : string) (now : Z) (versions : list string) db : DB * bool :=
  match versions with
  | [] => (db, true)
  | v :: versions' =>
      let db := zremrange_to (leases_key v) now db in
      if negb (bool_decide (hget (version_key v) "state" db = Some releasing)) ||
         (0 <? hlen (shards_key v) db)%nat || (0 <? zcard (leases_key v) db)%nat
      then (db, false)
      else versions_retired releasing now versions' db
  end.

Definition DELETE_MESH_LUA (mesh mesh_versions releasing : string) (now : Z) db : DB * string :=
  if negb (redis_exists mesh db) then (db, "NOT_FOUND")
  else
    match versions_retired releasing now (smembers mesh_versions db) db with
    | (db, false) => (db, "IN_USE")
    | (db, true) => (redis_del mesh_versions (redis_del mesh db), "DELETED")
    end.
End scripts.
