(* ===== verification/RefitMachine.v ===== *)
(** * Refit coordination as a state machine

    One rule per script, with the keys and arguments that the backend passes, a
    rule for what the environment does (registrations and lease records expire,
    other applications), at a moment of the server's clock.  The [touches] lemmas
    say which keys a script can change; RefitTheorems starts from them. *)

From Stdlib Require Import ZArith Lia Ascii String.
From stdpp Require Import base tactics option list gmap fin_maps fin_map_dom fin_sets strings.
From S2P Require Import Prelude RustStr RedisStore RedisServer RefitScripts.

(** ** Keys *)

Lemma version_key_inj a b : version_key a = version_key b -> a = b.
Proof. unfold version_key. intros Heq. by simplify_eq/=. Qed.
Lemma mesh_key_inj a b : mesh_key a = mesh_key b -> a = b.
Proof. unfold mesh_key. intros Heq. by simplify_eq/=. Qed.
Lemma shards_key_inj a b : shards_key a = shards_key b -> a = b.
Proof. unfold shards_key. intros Heq. by simplify_eq/=. Qed.
Lemma endpoints_key_inj a b : publication_endpoints_key a = publication_endpoints_key b -> a = b.
Proof. unfold publication_endpoints_key. intros Heq. by simplify_eq/=. Qed.
Lemma leases_key_inj a b : leases_key a = leases_key b -> a = b.
Proof. unfold leases_key. intros Heq. by simplify_eq/=. Qed.
Lemma mesh_versions_key_inj a b : mesh_versions_key a = mesh_versions_key b -> a = b.
Proof. unfold mesh_versions_key. intros Heq. by simplify_eq/=. Qed.

(** Keys with different prefixes, or with the same prefix and different identifiers. *)
Ltac refit_ne :=
  match goal with
  | |- _ ≠ _ => intros ?Heq; refit_ne
  | Heq : version_key _ = version_key _ |- False => apply version_key_inj in Heq; congruence
  | Heq : mesh_key _ = mesh_key _ |- False => apply mesh_key_inj in Heq; congruence
  | Heq : shards_key _ = shards_key _ |- False => apply shards_key_inj in Heq; congruence
  | Heq : publication_endpoints_key _ = publication_endpoints_key _ |- False =>
      apply endpoints_key_inj in Heq; congruence
  | Heq : leases_key _ = leases_key _ |- False => apply leases_key_inj in Heq; congruence
  | Heq : mesh_versions_key _ = mesh_versions_key _ |- False =>
      apply mesh_versions_key_inj in Heq; congruence
  | Heq : _ = _ |- False => discriminate Heq
  end.

(** ** Footprints *)

Section touches.
Context {DB : Type} `{RedisServer DB}.
Implicit Types db : DB.

(** Only keys that satisfy [P] may differ, in any view. *)
Definition touches (P : string -> Prop) db db' : Prop :=
  forall k, ~ P k ->
    (forall f, hget k f db' = hget k f db) ∧ set_at k db' = set_at k db ∧
    zset_at k db' = zset_at k db ∧ str_get k db' = str_get k db.

Context `{!RedisStoreLaws DB, !RedisServerLaws DB}.

Lemma touches_refl P db : touches P db db.
Proof. by intros k _. Qed.

Lemma touches_trans P db1 db2 db3 : touches P db1 db2 -> touches P db2 db3 -> touches P db1 db3.
Proof.
  intros H1 H2 k Hk. destruct (H1 k Hk) as (A1 & A2 & A3 & A4), (H2 k Hk) as (B1 & B2 & B3 & B4).
  split_and!; [intros f; by rewrite B1|by rewrite B2|by rewrite B3|by rewrite B4].
Qed.

Lemma touches_weaken (P Q : string -> Prop) db db' :
  (forall k, P k -> Q k) -> touches P db db' -> touches Q db db'.
Proof. intros HPQ Ht k Hk. apply Ht. auto. Qed.

Lemma touches_hset (P : string -> Prop) k f v db db' :
  P k -> touches P db db' -> touches P db (hset k f v db').
Proof.
  intros HP Ht. eapply touches_trans; [done|]. intros k' Hk'. autorewrite with redis.
  split_and!; [|done..]. intros f'. rewrite hget_hset, decide_False; [done|]. naive_solver.
Qed.

Lemma touches_hset_all (P : string -> Prop) k fvs db db' :
  P k -> touches P db db' -> touches P db (hset_all k fvs db').
Proof.
  unfold hset_all. revert db'. induction fvs as [|[f v] fvs IH]; intros db' HP Ht; [done|].
  apply IH; [done|]. by apply touches_hset.
Qed.

Lemma touches_hdel (P : string -> Prop) k f db db' :
  P k -> touches P db db' -> touches P db (hdel k f db').
Proof.
  intros HP Ht. eapply touches_trans; [done|]. intros k' Hk'. autorewrite with redis.
  split_and!; [|done..]. intros f'. rewrite hget_hdel, decide_False; [done|]. naive_solver.
Qed.

Lemma touches_del (P : string -> Prop) k db db' :
  P k -> touches P db db' -> touches P db (redis_del k db').
Proof.
  intros HP Ht. eapply touches_trans; [done|]. intros k' Hk'.
  assert (k' ≠ k) by naive_solver.
  rewrite set_at_del, zset_at_del, str_get_del, !decide_False by done.
  split_and!; [|done..]. intros f'. by rewrite hget_del, decide_False.
Qed.

Lemma touches_str_set (P : string -> Prop) k v db db' :
  P k -> touches P db db' -> touches P db (str_set k v db').
Proof.
  intros HP Ht. eapply touches_trans; [done|]. intros k' Hk'. autorewrite with redis.
  rewrite str_get_set, decide_False by naive_solver.
  split_and!; [intros f; by autorewrite with redis|done..].
Qed.

Lemma touches_sadd (P : string -> Prop) k m db db' :
  P k -> touches P db db' -> touches P db (sadd k m db').
Proof.
  intros HP Ht. eapply touches_trans; [done|]. intros k' Hk'. autorewrite with redis.
  rewrite set_at_sadd, decide_False by naive_solver.
  split_and!; [intros f; by autorewrite with redis|done..].
Qed.

Lemma touches_zadd (P : string -> Prop) k s m db db' :
  P k -> touches P db db' -> touches P db (zadd k s m db').
Proof.
  intros HP Ht. eapply touches_trans; [done|]. intros k' Hk'. autorewrite with redis.
  rewrite zset_at_zadd, decide_False by naive_solver.
  split_and!; [intros f; by autorewrite with redis|done..].
Qed.

Lemma touches_zrem (P : string -> Prop) k m db db' :
  P k -> touches P db db' -> touches P db (zrem k m db').
Proof.
  intros HP Ht. eapply touches_trans; [done|]. intros k' Hk'. autorewrite with redis.
  rewrite zset_at_zrem, decide_False by naive_solver.
  split_and!; [intros f; by autorewrite with redis|done..].
Qed.

Lemma touches_zremrange (P : string -> Prop) k hi db db' :
  P k -> touches P db db' -> touches P db (zremrange_to k hi db').
Proof.
  intros HP Ht. eapply touches_trans; [done|]. intros k' Hk'. autorewrite with redis.
  rewrite zset_at_zremrange, decide_False by naive_solver.
  split_and!; [intros f; by autorewrite with redis|done..].
Qed.

Lemma touches_pexpire (P : string -> Prop) k ms db db' :
  touches P db db' -> touches P db (pexpire k ms db').
Proof.
  intros Ht. eapply touches_trans; [done|]. intros k' Hk'. autorewrite with redis.
  split_and!; [intros f; by autorewrite with redis|done..].
Qed.
End touches.

Create HintDb touches.
#[export] Hint Resolve touches_refl touches_hset touches_hset_all touches_hdel touches_del
  touches_str_set touches_sadd touches_zadd touches_zrem touches_zremrange touches_pexpire : touches.

(** A key that a footprint excludes. *)
Ltac not_touched :=
  let Hk := fresh "Hk" in
  intros Hk; cbn beta in Hk;
  repeat match type of Hk with
  | _ ∨ _ => destruct Hk as [Hk|Hk]
  | ∃ _, _ => destruct Hk as [? Hk]
  | _ ∧ _ => destruct Hk as [? Hk]
  end; refit_ne.

(** A view of a key that a footprint excludes is the same. *)
Ltac same_view Ht :=
  let A := fresh "A" in let B := fresh "B" in let C := fresh "C" in let D := fresh "D" in
  match goal with
  | |- hget ?k _ _ = _ => destruct (Ht k) as (A & B & C & D)
  | |- set_at ?k _ = _ => destruct (Ht k) as (A & B & C & D)
  | |- zset_at ?k _ = _ => destruct (Ht k) as (A & B & C & D)
  | |- str_get ?k _ = _ => destruct (Ht k) as (A & B & C & D)
  end; [not_touched|rewrite ?A, ?B, ?C, ?D; reflexivity].

(** A script whose branches all write allowed keys. *)
Ltac script_touches := repeat case_match; simplify_eq; cbn [fst]; auto 12 with touches.

Section machine.
Context {DB : Type} `{RedisServer DB} `{LuaNumbers} `{LuaConcat} `{HashIter} `{MeshJson}
  `{ShardCodec}.
Implicit Types db : DB.

Definition register_worker_run (w role model_name : string) (ttl_ms : Z) (endpoint : string)
    (now : Z) db : DB * string :=
  REGISTER_WORKER_LUA (refit_worker_key w) w role model_name ttl_ms endpoint now db.

(** [logical_shards] is the sorted set of the workers' shards. *)
Definition create_mesh_run (M model_name request_key : string) (shards : list string)
    (ws : mesh_workers) db : DB * option string :=
  CREATE_MESH_LUA (mesh_key M) (mesh_idempotency_key model_name request_key)
    (refit_worker_key <$> (hash_entries ws).*1) M model_name (shards_json shards)
    (workers_json ws) TRAINER db.

Definition create_version_run (A : version_args) db : DB * string :=
  CREATE_VERSION_LUA (version_key (va_uid A))
    (idempotency_key (va_model_name A) (va_idempotency_key A))
    (mesh_key (va_trainer_mesh_id A)) (mesh_versions_key (va_trainer_mesh_id A)) A db.

Definition update_state_run (v target : string) db : DB * string :=
  UPDATE_VERSION_STATE_LUA (version_key v) target STAGING READY RELEASING db.

Definition shard_keys_of (v M worker_id : string) : shard_keys :=
  MkShardKeys (version_key v) (refit_worker_key worker_id) (shards_key v) (mesh_key M)
    (publication_endpoints_key v).

Record shard_args_ok (A : shard_args) : Prop := {
  so_key : sa_publication_key A = publication_key (sa_worker_id A) (sa_logical_shard_id A);
  so_staging : sa_staging A = STAGING;
  so_ready : sa_ready A = READY;
  so_role : sa_trainer_role A = TRAINER;
  so_encoded : ∃ s, decode_shard (sa_encoded A) = Some s ∧ wvs_worker_id s = sa_worker_id A ∧
    wvs_logical_shard_id s = sa_logical_shard_id A ∧
    wvs_metadata_endpoint s = sa_metadata_endpoint A
}.

Definition create_shard_run (v M : string) (A : shard_args) db : DB * option string :=
  CREATE_SHARD_LUA (shard_keys_of v M (sa_worker_id A)) A db.

Definition delete_shard_run (v w shard encoded : string) (now : Z) db : DB * string :=
  DELETE_SHARD_LUA (version_key v) (refit_worker_key w) (shards_key v) (leases_key v)
    (publication_endpoints_key v) (publication_key w shard) encoded now db.

Definition register_lease_run (v w lease_id : string) (ttl_ms now : Z) db : DB * string :=
  REGISTER_LEASE_LUA (version_key v) (refit_worker_key w) (lease_key v lease_id) (leases_key v)
    lease_id v w ttl_ms READY RELEASING GENERATOR now db.

Definition delete_lease_run (v lease_id w : string) db : DB * string :=
  DELETE_LEASE_LUA (lease_key v lease_id) (leases_key v) lease_id v w db.

Definition update_mesh_run (M : string) (generation : Z) (ws : mesh_workers) (model_name : string)
    (now : Z) db : DB * option string :=
  UPDATE_MESH_LUA (mesh_key M) (mesh_versions_key M) (refit_worker_key <$> (hash_entries ws).*1)
    generation (workers_json ws) model_name TRAINER now db.

Definition delete_mesh_run (M : string) (now : Z) db : DB * string :=
  DELETE_MESH_LUA (mesh_key M) (mesh_versions_key M) RELEASING now db.

(** A key of the durable refit metadata: not a registration, not a lease record. *)
Definition durable (k : string) : Prop :=
  (∃ id, k = version_key id ∨ k = shards_key id ∨ k = publication_endpoints_key id ∨
         k = leases_key id ∨ k = mesh_key id ∨ k = mesh_versions_key id) ∨
  (∃ model_name request_key, k = idempotency_key model_name request_key ∨
                             k = mesh_idempotency_key model_name request_key).

(** The state that a request for a new version may name. *)
Definition version_args_ok (A : version_args) : Prop := va_state A = STAGING ∨ va_state A = READY.

Inductive refit_step (now : Z) : DB -> DB -> Prop :=
| rs_register_worker w role model_name ttl_ms endpoint db :
    refit_step now db (register_worker_run w role model_name ttl_ms endpoint now db).1
| rs_create_mesh M model_name request_key shards ws db :
    NoDup shards -> list_to_set shards = shard_set ws ->
    refit_step now db (create_mesh_run M model_name request_key shards ws db).1
| rs_create_version A db :
    version_args_ok A -> refit_step now db (create_version_run A db).1
| rs_update_state v target db : refit_step now db (update_state_run v target db).1
| rs_create_shard v M A db :
    shard_args_ok A -> hget (version_key v) "trainer_mesh_id" db = Some M ->
    refit_step now db (create_shard_run v M A db).1
| rs_delete_shard v w shard encoded db :
    refit_step now db (delete_shard_run v w shard encoded now db).1
| rs_register_lease v w lease_id ttl_ms db :
    refit_step now db (register_lease_run v w lease_id ttl_ms now db).1
| rs_delete_lease v lease_id w db : refit_step now db (delete_lease_run v lease_id w db).1
| rs_update_mesh M generation ws model_name db :
    (0 <= generation < lua_int_max)%Z ->
    refit_step now db (update_mesh_run M generation ws model_name now db).1
| rs_delete_mesh M db : refit_step now db (delete_mesh_run M now db).1
| rs_env db db' : touches (fun k => ~ durable k) db db' -> refit_step now db db'.

(** What the environment leaves alone. *)
Lemma env_same db db' k :
  touches (fun k => ~ durable k) db db' -> durable k ->
  (forall f, hget k f db' = hget k f db) ∧ set_at k db' = set_at k db ∧
  zset_at k db' = zset_at k db ∧ str_get k db' = str_get k db.
Proof. intros Ht Hd. apply Ht. intros Hn. by apply Hn. Qed.
End machine.

Ltac env_view Ht :=
  let A := fresh "A" in let B := fresh "B" in let C := fresh "C" in let D := fresh "D" in
  match goal with
  | |- hget ?k _ _ = _ => destruct (env_same _ _ k Ht) as (A & B & C & D)
  | |- set_at ?k _ = _ => destruct (env_same _ _ k Ht) as (A & B & C & D)
  | |- zset_at ?k _ = _ => destruct (env_same _ _ k Ht) as (A & B & C & D)
  | |- str_get ?k _ = _ => destruct (env_same _ _ k Ht) as (A & B & C & D)
  end; [first [left; eexists; solve [eauto 8] | right; do 2 eexists; solve [eauto]]
       |rewrite ?A, ?B, ?C, ?D; reflexivity].
