(* ===== verification/RefitEffects.v ===== *)
(** * What the refit scripts change

    The keys that each script touches, and the exact effect on the records that the
    theorems are about: the state of a version, the publications and the pins, the
    loops over the linked versions. *)

From Stdlib Require Import ZArith Lia Ascii String.
From stdpp Require Import base tactics option list gmap fin_maps fin_map_dom fin_sets strings.
From S2P Require Import Prelude RustStr RedisStore RedisServer RefitScripts RefitMachine.

Section effects.
Context {DB : Type} `{RedisServer DB, !RedisStoreLaws DB, !RedisServerLaws DB}.
Context `{LuaNumbers} `{LuaConcat} `{HashIter} `{MeshJson} `{ShardCodec}.
Implicit Types db : DB.

(** ** Footprints of the scripts *)

Lemma register_worker_touches w role model_name ttl_ms endpoint now db :
  touches (fun k => k = refit_worker_key w) db
    (register_worker_run w role model_name ttl_ms endpoint now db).1.
Proof. unfold register_worker_run, REGISTER_WORKER_LUA. script_touches. Qed.

Lemma create_mesh_touches M model_name request_key shards ws db :
  touches (fun k => k = mesh_key M ∨ k = mesh_idempotency_key model_name request_key) db
    (create_mesh_run M model_name request_key shards ws db).1.
Proof. unfold create_mesh_run, CREATE_MESH_LUA. script_touches. Qed.

Lemma create_version_touches A db :
  touches (fun k => k = version_key (va_uid A) ∨
             k = idempotency_key (va_model_name A) (va_idempotency_key A) ∨
             k = mesh_versions_key (va_trainer_mesh_id A)) db (create_version_run A db).1.
Proof. unfold create_version_run, CREATE_VERSION_LUA. script_touches. Qed.

Lemma update_state_touches v target db :
  touches (fun k => k = version_key v) db (update_state_run v target db).1.
Proof. unfold update_state_run, UPDATE_VERSION_STATE_LUA. script_touches. Qed.

Lemma create_shard_touches v M A db :
  touches (fun k => k = version_key v ∨ k = shards_key v ∨ k = publication_endpoints_key v ∨
                    k = mesh_key M) db (create_shard_run v M A db).1.
Proof.
  unfold create_shard_run, CREATE_SHARD_LUA, publish_writes. script_touches.
Qed.

Lemma delete_shard_touches v w shard encoded now db :
  touches (fun k => k = leases_key v ∨ k = shards_key v ∨ k = publication_endpoints_key v) db
    (delete_shard_run v w shard encoded now db).1.
Proof. unfold delete_shard_run, DELETE_SHARD_LUA. script_touches. Qed.

Lemma register_lease_touches v w lease_id ttl_ms now db :
  touches (fun k => k = leases_key v ∨ k = lease_key v lease_id) db
    (register_lease_run v w lease_id ttl_ms now db).1.
Proof. unfold register_lease_run, REGISTER_LEASE_LUA. script_touches. Qed.

Lemma delete_lease_touches v lease_id w db :
  touches (fun k => k = leases_key v ∨ k = lease_key v lease_id) db
    (delete_lease_run v lease_id w db).1.
Proof. unfold delete_lease_run, DELETE_LEASE_LUA. script_touches. Qed.

(** ** Loops *)

Lemma retire_scan_touches old replacement now versions db :
  touches (fun k => ∃ v, v ∈ versions ∧ k = leases_key v) db
    (retire_scan old replacement now versions db).1.
Proof.
  revert db. induction versions as [|v vs IH]; intros db; cbn [retire_scan]; [by apply touches_refl|].
  case_match; cbn [fst].
  - apply touches_zremrange; [|apply touches_refl]. set_solver.
  - specialize (IH (zremrange_to (leases_key v) now db)).
    destruct (retire_scan old replacement now vs _) as [db1 rest]. cbn [fst] in *.
    eapply touches_trans, touches_weaken; [|shelve|apply IH].
    + apply touches_zremrange, touches_refl. set_solver.
    Unshelve. set_solver.
Qed.

(** The scan only forgets expired leases. *)
Lemma retire_scan_live old replacement now versions db v l e :
  zset_at (leases_key v) db !! l = Some e -> (now < e)%Z ->
  zset_at (leases_key v) (retire_scan old replacement now versions db).1 !! l = Some e.
Proof.
  revert db. induction versions as [|v' vs IH]; intros db Hl He; cbn [retire_scan]; [done|].
  assert (zset_at (leases_key v) (zremrange_to (leases_key v') now db) !! l = Some e) as Hl'.
  { rewrite zset_at_zremrange. case_decide; [|done]. by apply map_lookup_filter_Some. }
  case_match; [done|]. specialize (IH _ Hl' He).
  by destruct (retire_scan old replacement now vs _).
Qed.

Lemma zcard_zremrange k now db :
  (0 <? zcard k (zremrange_to k now db))%nat = false ↔
  (forall l e, zset_at k db !! l = Some e -> (e <= now)%Z).
Proof.
  rewrite Nat.ltb_ge, zcard_size, zset_at_zremrange, decide_True by done.
  rewrite Nat.le_0_r, map_size_empty_iff, map_empty. setoid_rewrite map_lookup_filter_None.
  split.
  - intros Hn l e Hl. destruct (Hn l) as [Hz|Hz]; [congruence|]. specialize (Hz e Hl). simpl in Hz. lia.
  - intros Hle l. destruct (zset_at k db !! l) as [e|] eqn:Hl; [right|by left].
    intros e' [= <-]. specialize (Hle l e Hl). simpl. lia.
Qed.

(** It ends without an active lease exactly when no linked version has one. *)
Lemma retire_scan_unleased old replacement now versions db db' retired :
  retire_scan old replacement now versions db = (db', Some retired) ->
  forall v l e, v ∈ versions -> zset_at (leases_key v) db !! l = Some e -> (e <= now)%Z.
Proof.
  revert db db' retired. induction versions as [|v' vs IH]; intros db db' retired; cbn [retire_scan].
  { intros _ v l e Hv. set_solver. }
  destruct (0 <? zcard _ _)%nat eqn:Hz; [done|].
  destruct (retire_scan old replacement now vs _) as [db1 [rest|]] eqn:Hs; [|done].
  intros _ v l e Hv Hl. rewrite zcard_zremrange in Hz.
  apply elem_of_cons in Hv as [->|Hv]; [by eapply Hz|].
  destruct (decide (now < e)%Z) as [Hlt|]; [|lia]. eapply IH; [done..|].
  rewrite zset_at_zremrange. case_decide; [|done]. by apply map_lookup_filter_Some.
Qed.

(** What it retires belongs to the linked versions. *)
Lemma retire_scan_of old replacement now versions db db' retired :
  retire_scan old replacement now versions db = (db', Some retired) ->
  forall s ep pk, (s, ep, pk) ∈ retired ->
    ∃ v, v ∈ versions ∧ s = shards_key v ∧ ep = publication_endpoints_key v.
Proof.
  revert db db' retired. induction versions as [|v' vs IH]; intros db db' retired; cbn [retire_scan].
  { intros [= <- <-]. set_solver. }
  case_match; [done|].
  destruct (retire_scan old replacement now vs _) as [db1 [rest|]] eqn:Hs; [|done].
  intros [= <- <-] s ep pk [Hin|Hin]%elem_of_app.
  - unfold retired_of in Hin. apply list_elem_of_fmap in Hin as ([w m] & Heq & _).
    simplify_eq. exists v'. set_solver.
  - destruct (IH _ _ _ Hs _ _ _ Hin) as (v & Hv & ? & ?). exists v. set_solver.
Qed.

Lemma retire_touches retired db :
  touches (fun k => ∃ s ep pk, (s, ep, pk) ∈ retired ∧ (k = s ∨ k = ep)) db (retire retired db).
Proof.
  unfold retire.
  assert (forall db0, touches (fun k => ∃ s ep pk, (s, ep, pk) ∈ retired ∧ (k = s ∨ k = ep)) db db0 ->
    forall rs, rs ⊆ retired ->
    touches (fun k => ∃ s ep pk, (s, ep, pk) ∈ retired ∧ (k = s ∨ k = ep)) db
      (foldl (fun db '(shards, endpoints, key) => hdel endpoints key (hdel shards key db)) db0 rs))
    as Hgo; [|apply Hgo; [apply touches_refl|done]].
  intros db0 Ht rs. revert db0 Ht. induction rs as [|[[s ep] pk] rs IH]; intros db0 Ht Hsub; [done|].
  cbn [foldl]. apply IH; [|set_solver].
  apply touches_hdel; [|apply touches_hdel; [|done]]; exists s, ep, pk; set_solver.
Qed.

(** A publication goes together with its endpoint, or both stay. *)
Lemma retire_pairs retired v f db :
  (forall s ep pk, (s, ep, pk) ∈ retired ->
     ∃ v, s = shards_key v ∧ ep = publication_endpoints_key v) ->
  hget (shards_key v) f (retire retired db) = None ∨
  (hget (shards_key v) f (retire retired db) = hget (shards_key v) f db ∧
   hget (publication_endpoints_key v) f (retire retired db) =
   hget (publication_endpoints_key v) f db).
Proof.
  unfold retire. revert db. induction retired as [|[[s ep] pk] rs IH]; intros db Hof; [by right|].
  cbn [foldl]. destruct (Hof s ep pk) as (v' & -> & ->); [set_solver|].
  destruct (IH (hdel (publication_endpoints_key v') pk (hdel (shards_key v') pk db)))
    as [Hn|[Hs He]]; [set_solver|by left|].
  destruct (decide (v' = v ∧ pk = f)) as [[-> ->]|Hne].
  - left. rewrite Hs, !hget_hdel. destruct (decide _); [done|]. by rewrite decide_True.
  - right. rewrite Hs, He, !hget_hdel. split.
    + destruct (decide _) as [[Hk _]|_]; [exfalso; refit_ne|]. rewrite decide_False; [done|].
      intros [Hk <-]. apply shards_key_inj in Hk as <-. by apply Hne.
    + destruct (decide _) as [[Hk <-]|_].
      * exfalso. apply endpoints_key_inj in Hk as <-. by apply Hne.
      * rewrite decide_False; [done|]. intros [Hk _]. refit_ne.
Qed.

Lemma drop_pins_touches mesh db : touches (fun k => k = mesh) db (drop_pins mesh db).
Proof.
  unfold drop_pins. generalize (hkeys mesh db) as fs. intros fs.
  assert (forall db0, touches (fun k => k = mesh) db db0 -> touches (fun k => k = mesh) db
    (foldl (fun db f => if starts_with "stable_metadata:" f then hdel mesh f db else db) db0 fs))
    as Hgo; [|apply Hgo, touches_refl].
  induction fs as [|f fs IH]; intros db0 Ht; cbn [foldl]; [done|].
  apply IH. case_match; auto with touches.
Qed.

(** Other fields of the mesh stay. *)
Lemma drop_pins_field mesh f db :
  starts_with "stable_metadata:" f = false -> hget mesh f (drop_pins mesh db) = hget mesh f db.
Proof.
  intros Hf. unfold drop_pins. generalize (hkeys mesh db) as fs. intros fs. revert db.
  induction fs as [|f' fs IH]; intros db; cbn [foldl]; [done|].
  rewrite IH. case_match; [|done]. rewrite hget_hdel, decide_False; [done|]. intros [_ ->]. congruence.
Qed.

Lemma versions_retired_touches releasing now versions db :
  touches (fun k => ∃ v, v ∈ versions ∧ k = leases_key v) db
    (versions_retired releasing now versions db).1.
Proof.
  revert db. induction versions as [|v vs IH]; intros db; cbn [versions_retired];
    [by apply touches_refl|].
  assert (touches (fun k => ∃ v0, v0 ∈ v :: vs ∧ k = leases_key v0) db
    (zremrange_to (leases_key v) now db)) as Hz.
  { apply touches_zremrange, touches_refl. set_solver. }
  case_match; [done|]. eapply touches_trans, touches_weaken; [done|shelve|apply IH].
  Unshelve. set_solver.
Qed.

Lemma versions_retired_live releasing now versions db v l e :
  zset_at (leases_key v) db !! l = Some e -> (now < e)%Z ->
  zset_at (leases_key v) (versions_retired releasing now versions db).1 !! l = Some e.
Proof.
  revert db. induction versions as [|v' vs IH]; intros db Hl He; cbn [versions_retired]; [done|].
  assert (zset_at (leases_key v) (zremrange_to (leases_key v') now db) !! l = Some e) as Hl'.
  { rewrite zset_at_zremrange. case_decide; [|done]. by apply map_lookup_filter_Some. }
  case_match; [done|]. by apply IH.
Qed.

(** The deletion goes through exactly when every linked version is released. *)
Lemma versions_retired_true releasing now versions db db' :
  versions_retired releasing now versions db = (db', true) ->
  forall v, v ∈ versions ->
    hget (version_key v) "state" db = Some releasing ∧
    (forall f, hget (shards_key v) f db = None) ∧
    (forall l e, zset_at (leases_key v) db !! l = Some e -> (e <= now)%Z).
Proof.
  revert db. induction versions as [|v' vs IH]; intros db; cbn [versions_retired].
  { intros _ v Hv. set_solver. }
  destruct (_ || _ || _) eqn:Hc; [done|]. intros Hr v Hv.
  apply orb_false_iff in Hc as [[Hst Hsh]%orb_false_iff Hz].
  apply negb_false_iff, bool_decide_eq_true in Hst. rewrite hget_zremrange in Hst.
  rewrite zcard_zremrange in Hz. apply Nat.ltb_ge, Nat.le_0_r in Hsh. rewrite hlen_size in Hsh.
  apply map_size_empty_iff in Hsh.
  apply elem_of_cons in Hv as [->|Hv].
  - split_and!; [done| |done]. intros f. rewrite <- hfields_lookup.
    rewrite (hfields_ext (shards_key v') _ (zremrange_to (leases_key v') now db) db).
    + by rewrite Hsh.
    + intros f'. by rewrite hget_zremrange.
  - destruct (IH _ Hr v Hv) as (H1' & H2' & H3'). rewrite hget_zremrange in H1'.
    split_and!; [done| |].
    + intros f. rewrite <- (H2' f). by rewrite hget_zremrange.
    + intros l e Hl. destruct (decide (now < e)%Z) as [Hlt|]; [|lia]. apply (H3' l).
      rewrite zset_at_zremrange. case_decide; [|done]. by apply map_lookup_filter_Some.
Qed.

(** ** Updating and deleting a mesh *)

Definition linked (M v : string) db : Prop := v ∈ set_at (mesh_versions_key M) db.

(** No lease of the version is active. *)
Definition unleased (now : Z) (v : string) db : Prop :=
  forall l e, zset_at (leases_key v) db !! l = Some e -> (e <= now)%Z.

(** Expired leases of linked versions may be forgotten, nothing else. *)
Record purged (now : Z) (M : string) db db' : Prop := {
  pg_touches : touches (fun k => ∃ v, linked M v db ∧ k = leases_key v) db db';
  pg_live : forall v l e, zset_at (leases_key v) db !! l = Some e -> (now < e)%Z ->
    zset_at (leases_key v) db' !! l = Some e
}.

Lemma purged_refl now M db : purged now M db db.
Proof. split; [apply touches_refl|done]. Qed.

Lemma retire_scan_purged now M old replacement db :
  purged now M db (retire_scan old replacement now (smembers (mesh_versions_key M) db) db).1.
Proof.
  split.
  - eapply touches_weaken; [|apply retire_scan_touches]. intros k (v & Hv & ->).
    exists v. by rewrite elem_of_smembers in Hv.
  - intros v l e. apply retire_scan_live.
Qed.

Lemma versions_retired_purged now M releasing db :
  purged now M db (versions_retired releasing now (smembers (mesh_versions_key M) db) db).1.
Proof.
  split.
  - eapply touches_weaken; [|apply versions_retired_touches]. intros k (v & Hv & ->).
    exists v. by rewrite elem_of_smembers in Hv.
  - intros v l e. apply versions_retired_live.
Qed.

(** An update that went through. *)
Record mesh_updated (now : Z) (M : string) (g : Z) (ws : mesh_workers) db db' : Prop := {
  mu_old : ∃ t old, hget (mesh_key M) "workers" db = Some t ∧ cjson_workers t = Some old ∧
                    shard_set ws = shard_set old ∧ ws ≠ old;
  mu_generation : (v ← hget (mesh_key M) "generation" db; lua_tonumber v) = Some g;
  mu_unleased : forall v, linked M v db -> unleased now v db;
  mu_workers' : hget (mesh_key M) "workers" db' = Some (workers_json ws);
  mu_generation' : hget (mesh_key M) "generation" db' = Some (decimal (g + 1));
  mu_other : forall f, f ≠ "workers" -> f ≠ "generation" ->
    starts_with "stable_metadata:" f = false -> hget (mesh_key M) f db' = hget (mesh_key M) f db;
  mu_pairs : forall v f, hget (shards_key v) f db' = None ∨
    (hget (shards_key v) f db' = hget (shards_key v) f db ∧
     hget (publication_endpoints_key v) f db' = hget (publication_endpoints_key v) f db);
  mu_touches : touches (fun k => k = mesh_key M ∨ ∃ v, linked M v db ∧
    (k = leases_key v ∨ k = shards_key v ∨ k = publication_endpoints_key v)) db db'
}.

Context `{!LuaNumbersLaws, !HashIterLaws, !MeshJsonLaws}.

Lemma update_mesh_writes_touches now M old ws db db1 retired fvs :
  retire_scan old ws now (smembers (mesh_versions_key M) db) db = (db1, Some retired) ->
  touches (fun k => k = mesh_key M ∨ ∃ v, linked M v db ∧
    (k = leases_key v ∨ k = shards_key v ∨ k = publication_endpoints_key v)) db
    (hset_all (mesh_key M) fvs (drop_pins (mesh_key M) (retire retired db1))).
Proof.
  intros Hs. apply touches_hset_all; [by left|].
  eapply touches_trans; [|eapply touches_weaken, drop_pins_touches; naive_solver].
  eapply touches_trans; [|eapply touches_weaken, retire_touches].
  - pose proof (retire_scan_purged now M old ws db) as [Ht _]. rewrite Hs in Ht.
    eapply touches_weaken, Ht. naive_solver.
  - intros k (s & ep & pk & Hin & Hk).
    destruct (retire_scan_of _ _ _ _ _ _ _ Hs _ _ _ Hin) as (v & Hv & -> & ->).
    right. exists v. unfold linked. rewrite <- elem_of_smembers. naive_solver.
Qed.

Lemma update_mesh_cases M g ws model_name now db :
  (0 <= g < lua_int_max)%Z ->
  purged now M db (update_mesh_run M g ws model_name now db).1 ∨
  mesh_updated now M g ws db (update_mesh_run M g ws model_name now db).1.
Proof.
  intros Hg. unfold update_mesh_run, UPDATE_MESH_LUA. rewrite cjson_workers_json.
  case_match; [left; apply purged_refl|].
  destruct (hget (mesh_key M) "workers" db) as [t|] eqn:Ht; cbn [mbind option_bind];
    [|left; apply purged_refl].
  destruct (cjson_workers t) as [old|] eqn:Hold; [|left; apply purged_refl].
  case_match eqn:Hset; [left; apply purged_refl|].
  case_match eqn:Hgen; [left; apply purged_refl|].
  case_match; [left; apply purged_refl|].
  case_match eqn:Hne; [left; apply purged_refl|].
  pose proof (retire_scan_purged now M old ws db) as Hp.
  destruct (retire_scan old ws now _ db) as [db1 [retired|]] eqn:Hs; [|by left].
  right. rewrite tonumber_decimal by lia. rewrite lua_arg_decimal by (unfold lua_int_max in *; lia).
  apply negb_false_iff, bool_decide_eq_true in Hset, Hgen. apply bool_decide_eq_false in Hne.
  rewrite tonumber_decimal in Hgen by lia.
  assert (forall f, hget (mesh_key M) f (retire retired db1) = hget (mesh_key M) f db) as Hkeep.
  { intros f. destruct (retire_touches retired db1 (mesh_key M)) as [-> _].
    - intros (s & ep & pk & Hin & Hk).
      destruct (retire_scan_of _ _ _ _ _ _ _ Hs _ _ _ Hin) as (v & _ & -> & ->).
      destruct Hk as [Hk|Hk]; refit_ne.
    - destruct (pg_touches _ _ _ _ Hp (mesh_key M)) as [-> _]; [|done].
      intros (v & _ & Hk). refit_ne. }
  split; cbn [fst].
  - eauto 10.
  - done.
  - intros v Hv l e. eapply retire_scan_unleased; [done|]. by rewrite elem_of_smembers.
  - by rewrite hget_hset_all.
  - by rewrite hget_hset_all.
  - intros f H1' H2' H3'. rewrite hget_hset_all. unfold assoc_last. cbn [foldl].
    apply String.eqb_neq in H1', H2'. rewrite H1', H2'. by rewrite drop_pins_field.
  - intros v f. rewrite !hget_hset_all_ne by refit_ne.
    destruct (drop_pins_touches (mesh_key M) (retire retired db1) (shards_key v)) as [-> _]; [refit_ne|].
    destruct (drop_pins_touches (mesh_key M) (retire retired db1) (publication_endpoints_key v))
      as [-> _]; [refit_ne|].
    destruct (pg_touches _ _ _ _ Hp (shards_key v)) as [Hs1 _]; [not_touched|].
    destruct (pg_touches _ _ _ _ Hp (publication_endpoints_key v)) as [He1 _]; [not_touched|].
    cbn [fst] in Hs1, He1. rewrite <- Hs1, <- He1. apply retire_pairs.
    intros s ep pk Hin. destruct (retire_scan_of _ _ _ _ _ _ _ Hs _ _ _ Hin) as (v' & _ & ?). eauto.
  - by eapply update_mesh_writes_touches.
Qed.

(** A deletion that went through. *)
Record mesh_deleted (now : Z) (M : string) db db' : Prop := {
  md_released : forall v, linked M v db ->
    hget (version_key v) "state" db = Some RELEASING ∧
    (forall f, hget (shards_key v) f db = None) ∧ unleased now v db;
  md_gone : forall f, hget (mesh_key M) f db' = None;
  md_touches : touches (fun k => k = mesh_key M ∨ k = mesh_versions_key M ∨
                          ∃ v, linked M v db ∧ k = leases_key v) db db'
}.

Lemma delete_mesh_cases M now db :
  purged now M db (delete_mesh_run M now db).1 ∨ mesh_deleted now M db (delete_mesh_run M now db).1.
Proof.
  unfold delete_mesh_run, DELETE_MESH_LUA.
  case_match; [left; apply purged_refl|].
  pose proof (versions_retired_purged now M RELEASING db) as Hp.
  destruct (versions_retired RELEASING now _ db) as [db1 b] eqn:Hs.
  destruct b; [right|by left]. cbn [fst] in *. split.
  - intros v Hv. eapply versions_retired_true; [done|]. by rewrite elem_of_smembers.
  - intros f. rewrite !hget_del. repeat case_decide; done.
  - apply touches_del; [naive_solver|]. apply touches_del; [naive_solver|].
    eapply touches_weaken, pg_touches, Hp. naive_solver.
Qed.

(** ** A publication *)

(** What the checks of a publication found. *)
Record shard_checked (v M : string) (A : shard_args) (state : string) (workers : mesh_workers)
    (expected : nat) db : Prop := {
  sc_state : hget (version_key v) "state" db = Some state;
  sc_open : state = STAGING ∨ state = READY;
  sc_no_s3 : default "" (hget (version_key v) "s3_uri" db) = "";
  sc_generation : ∃ g, hget (version_key v) "trainer_mesh_generation" db = Some g ∧ g ≠ "0" ∧
                       hget (mesh_key M) "generation" db = Some g;
  sc_registered : hget (refit_worker_key (sa_worker_id A)) "model_name" db = Some (sa_model_name A);
  sc_workers : ∃ t, hget (mesh_key M) "workers" db = Some t ∧ cjson_workers t = Some workers;
  sc_member : workers !! sa_worker_id A =
    Some (MkTensorsMetadata (sa_logical_shard_id A) (sa_metadata_endpoint A));
  sc_expected : ∃ t l, hget (mesh_key M) "logical_shards" db = Some t ∧ cjson_shards t = Some l ∧
                       expected = length l
}.

Lemma shard_checks_ok v M A db state workers expected :
  shard_args_ok A ->
  shard_checks (shard_keys_of v M (sa_worker_id A)) A db = Some (Ok (state, workers, expected)) ->
  shard_checked v M A state workers expected db.
Proof.
  intros HA. unfold shard_checks. cbn [sk_version sk_worker sk_mesh shard_keys_of].
  rewrite (so_staging _ HA), (so_ready _ HA).
  case_match; [done|]. case_match; [done|]. case_match eqn:Hm; [done|].
  destruct (hget (version_key v) "state" db) as [st|] eqn:Hst; [|done].
  case_match eqn:Hopen; [done|]. case_match eqn:Hs3; [done|]. case_match; [done|].
  destruct (hget (version_key v) "trainer_mesh_generation" db) as [g|] eqn:Hg; [|done].
  case_match eqn:Hg0; [done|]. case_match eqn:Hgm; [done|]. case_match; [done|].
  destruct (hget (mesh_key M) "workers" db) as [t|] eqn:Ht; cbn [mbind option_bind]; [|done].
  destruct (cjson_workers t) as [ws|] eqn:Hws; [|done].
  destruct (ws !! sa_worker_id A) as [[ls ep]|] eqn:Hmem; [|done].
  cbn [tm_logical_shard_id tm_metadata_endpoint].
  case_match eqn:Hls; [done|]. case_match eqn:Hep; [done|].
  destruct (hget (mesh_key M) "logical_shards" db) as [t'|] eqn:Ht'; cbn [mbind option_bind]; [|done].
  destruct (cjson_shards t') as [l|] eqn:Hl; [|done]. intros Hq. simplify_eq.
  apply negb_false_iff in Hls. apply String.eqb_eq in Hls as ->.
  apply orb_false_iff in Hep as [Hep _]. apply negb_false_iff in Hep. apply String.eqb_eq in Hep as ->.
  apply String.eqb_neq in Hg0. apply negb_false_iff in Hgm, Hm, Hs3.
  apply bool_decide_eq_true in Hgm, Hm. apply String.eqb_eq in Hs3.
  split; [done| |done|eauto|done|eauto|done|eauto 10].
  apply andb_false_iff in Hopen as [Ho|Ho]; apply negb_false_iff, String.eqb_eq in Ho; auto.
Qed.

(** A publication that is accepted. *)
Record shard_accepted (v M : string) (A : shard_args) db db' : Prop := {
  sa_checked : ∃ state workers expected, shard_checked v M A state workers expected db ∧
    let K := shard_keys_of v M (sa_worker_id A) in
    db' = (if (count_covered K A (publish_writes K A db) workers =? expected)%nat
           then hset (version_key v) "state" READY (publish_writes K A db)
           else publish_writes K A db);
  sa_no_conflict : forall x, hget (shards_key v) (sa_publication_key A) db = Some x -> x = sa_encoded A;
  sa_no_mismatch : forall x, hget (mesh_key M) (pin_field A) db = Some x -> x = sa_stable_digest A
}.

Lemma create_shard_cases v M A db :
  shard_args_ok A ->
  (create_shard_run v M A db).1 = db ∨ shard_accepted v M A db (create_shard_run v M A db).1.
Proof.
  intros HA. unfold create_shard_run, CREATE_SHARD_LUA.
  destruct (shard_checks _ A db) as [[[[state workers] expected]|e]|] eqn:Hck; [|by left..].
  match goal with |- context [if ?b then (db, Some "SHARD_CONFLICT") else _] =>
    destruct b eqn:Hconf end; [by left|].
  match goal with |- context [if ?b then (db, Some "STABLE_METADATA_MISMATCH") else _] =>
    destruct b eqn:Hpin end; [by left|]. right.
  apply shard_checks_ok in Hck; [|done].
  split.
  - exists state, workers, expected. split; [done|]. cbn zeta.
    rewrite (so_ready _ HA). by destruct (_ =? _)%nat.
  - intros x Hx. cbn [sk_shards shard_keys_of] in Hconf. rewrite Hx in Hconf.
    by apply negb_false_iff, String.eqb_eq in Hconf.
  - intros x Hx. cbn [sk_mesh shard_keys_of] in Hpin. rewrite Hx in Hpin.
    by apply negb_false_iff, String.eqb_eq in Hpin.
Qed.

(** The view of each record after a publication. *)
Lemma publish_writes_version v M w A k f db :
  k ≠ shards_key v -> k ≠ publication_endpoints_key v -> k ≠ mesh_key M ->
  hget k f (publish_writes (shard_keys_of v M w) A db) = hget k f db.
Proof.
  intros H1' H2' H3'. unfold publish_writes. cbn [sk_endpoints sk_shards sk_mesh shard_keys_of].
  rewrite !hget_hset.
  destruct (decide _) as [[? _]|_]; [done|]. destruct (decide _) as [[? _]|_]; [done|].
  by destruct (decide _) as [[? _]|_].
Qed.

Lemma publish_writes_shards v M w A f db :
  hget (shards_key v) f (publish_writes (shard_keys_of v M w) A db) =
  if decide (f = sa_publication_key A) then Some (sa_encoded A) else hget (shards_key v) f db.
Proof.
  unfold publish_writes. cbn [sk_endpoints sk_shards sk_mesh shard_keys_of]. rewrite !hget_hset.
  destruct (decide _) as [[Hk _]|_]; [exfalso; refit_ne|].
  destruct (decide (f = _)) as [->|Hf].
  - by rewrite decide_True.
  - rewrite decide_False by naive_solver. rewrite decide_False; [done|]. intros [Hk _]. refit_ne.
Qed.

Lemma publish_writes_endpoints v M w A f db :
  hget (publication_endpoints_key v) f (publish_writes (shard_keys_of v M w) A db) =
  if decide (f = sa_publication_key A) then Some (sa_metadata_endpoint A)
  else hget (publication_endpoints_key v) f db.
Proof.
  unfold publish_writes. cbn [sk_endpoints sk_shards sk_mesh shard_keys_of]. rewrite !hget_hset.
  destruct (decide (f = _)) as [->|Hf]; [by rewrite decide_True|].
  rewrite decide_False by naive_solver.
  destruct (decide _) as [[Hk _]|_]; [exfalso; refit_ne|].
  destruct (decide _) as [[Hk _]|_]; [exfalso; refit_ne|done].
Qed.

Lemma publish_writes_mesh v M w A f db :
  hget (mesh_key M) f (publish_writes (shard_keys_of v M w) A db) =
  if decide (f = pin_field A) then Some (sa_stable_digest A) else hget (mesh_key M) f db.
Proof.
  unfold publish_writes. cbn [sk_endpoints sk_shards sk_mesh shard_keys_of]. rewrite !hget_hset.
  destruct (decide _) as [[Hk _]|_]; [exfalso; refit_ne|].
  destruct (decide _) as [[Hk _]|_]; [exfalso; refit_ne|].
  destruct (decide (f = _)) as [->|Hf]; [by rewrite decide_True|].
  by rewrite decide_False by naive_solver.
Qed.

(** Outside the version's record, the readiness write changes nothing. *)
Lemma accepted_view v M A db db' k f :
  shard_accepted v M A db db' -> k ≠ version_key v ->
  hget k f db' = hget k f (publish_writes (shard_keys_of v M (sa_worker_id A)) A db).
Proof.
  intros [(state & ws & n & _ & ->) _ _] Hk. case_match; [|done].
  rewrite hget_hset, decide_False; [done|]. naive_solver.
Qed.
End effects.

(** A view that the step at hand does not touch. *)
Ltac frame_step :=
  match goal with
  | |- context [register_worker_run ?w ?r ?m ?t ?e ?n ?d] =>
      same_view (register_worker_touches w r m t e n d)
  | |- context [create_mesh_run ?M ?m ?r ?s ?ws ?d] => same_view (create_mesh_touches M m r s ws d)
  | |- context [create_version_run ?A ?d] => same_view (create_version_touches A d)
  | |- context [update_state_run ?v ?t ?d] => same_view (update_state_touches v t d)
  | |- context [create_shard_run ?v ?M ?A ?d] => same_view (create_shard_touches v M A d)
  | |- context [delete_shard_run ?v ?w ?s ?e ?n ?d] => same_view (delete_shard_touches v w s e n d)
  | |- context [register_lease_run ?v ?w ?l ?t ?n ?d] =>
      same_view (register_lease_touches v w l t n d)
  | |- context [delete_lease_run ?v ?l ?w ?d] => same_view (delete_lease_touches v l w d)
  | Hg : (0 <= ?g < lua_int_max)%Z |- context [update_mesh_run ?M ?g ?ws ?m ?n ?d] =>
      let Hp := fresh "Hp" in
      destruct (update_mesh_cases M g ws m n d Hg) as [Hp|Hp];
      [same_view (pg_touches _ _ _ _ Hp)|same_view (mu_touches _ _ _ _ _ _ Hp)]
  | |- context [delete_mesh_run ?M ?n ?d] =>
      let Hp := fresh "Hp" in
      destruct (delete_mesh_cases M n d) as [Hp|Hp];
      [same_view (pg_touches _ _ _ _ Hp)|same_view (md_touches _ _ _ _ Hp)]
  | He : touches (fun k => ~ durable k) _ _ |- _ => env_view He
  end.
