(* ===== verification/RefitTheorems.v ===== *)
(** * Properties of refit coordination

    Over every step of the machine of RefitMachine: a version's record is immutable
    and its state only advances; a mesh is well formed, its workers change only
    together with its generation; a publication that makes a version ready finds
    every logical shard published; an active lease keeps the publications and the
    linked mesh; a mesh goes only when its versions are released. *)

From Stdlib Require Import ZArith Lia Ascii String.
From stdpp Require Import base tactics option list gmap fin_maps fin_map_dom fin_sets strings.
From S2P Require Import Prelude RustStr RedisStore RedisServer RefitScripts RefitMachine RefitEffects.

(** Progress of the state of a version. *)
Definition state_next (x y : string) : Prop :=
  x = y ∨ (x = STAGING ∧ (y = READY ∨ y = RELEASING)) ∨ (x = READY ∧ y = RELEASING).

#[export] Instance state_next_preorder : PreOrder state_next.
Proof.
  split; [by left|]. intros x y z Hxy Hyz. unfold state_next, STAGING, READY, RELEASING in *.
  naive_solver.
Qed.

Section theorems.
Context {DB : Type} `{RedisServer DB, !RedisStoreLaws DB, !RedisServerLaws DB}.
Context `{LuaNumbers, !LuaNumbersLaws} `{LuaConcat} `{HashIter, !HashIterLaws}.
Context `{MeshJson, !MeshJsonLaws} `{ShardCodec}.
Implicit Types db : DB.

(** Any number of steps, at any times. *)
Definition refit_steps : DB -> DB -> Prop := rtc (fun db db' => ∃ now, refit_step now db db').

(** ** Versions *)

Definition advances (v f : string) db db' : Prop :=
  forall x, hget (version_key v) f db = Some x ->
    ∃ y, hget (version_key v) f db' = Some y ∧ (if decide (f = "state") then state_next x y else y = x).

Lemma advances_same v f db db' :
  hget (version_key v) f db' = hget (version_key v) f db -> advances v f db db'.
Proof. intros Heq x Hx. exists x. rewrite Heq. split; [done|]. by case_decide; [left|]. Qed.

Lemma advances_state v f y db :
  (forall x, hget (version_key v) "state" db = Some x -> state_next x y) ->
  advances v f db (hset (version_key v) "state" y db).
Proof.
  intros Hy x Hx. rewrite hget_hset. destruct (decide (f = "state")) as [->|Hf].
  - rewrite decide_True by done. eauto.
  - rewrite decide_False by naive_solver. eauto.
Qed.

Lemma update_state_advances v0 target v f db : advances v f db (update_state_run v0 target db).1.
Proof.
  destruct (decide (v = v0)) as [<-|Hne].
  2:{ apply advances_same. same_view (update_state_touches v0 target db). }
  unfold update_state_run, UPDATE_VERSION_STATE_LUA.
  case_match; [by apply advances_same|]. case_match; [by apply advances_same|].
  case_match eqn:Hc; [by apply advances_same|]. cbn [fst].
  apply advances_state. intros x Hx. rewrite Hx in Hc.
  apply andb_false_iff in Hc as [Hc|Hc]; apply negb_false_iff in Hc;
    apply andb_true_iff in Hc as [Hc Ht].
  - apply andb_true_iff in Hc as [Hc1%bool_decide_eq_true Hc2%String.eqb_eq]. simplify_eq.
    right; left. auto.
  - apply String.eqb_eq in Ht as ->. apply orb_true_iff in Hc as [Hc|Hc];
      apply bool_decide_eq_true in Hc; simplify_eq; [right; left|right; right]; auto.
Qed.

Lemma create_version_keeps A v f x db :
  hget (version_key v) f db = Some x -> hget (version_key v) f (create_version_run A db).1 = Some x.
Proof.
  intros Hx. destruct (decide (v = va_uid A)) as [->|Hne].
  - unfold create_version_run, CREATE_VERSION_LUA. case_match; [done|].
    by rewrite (hget_redis_exists _ _ _ _ Hx).
  - rewrite <- Hx. same_view (create_version_touches A db).
Qed.

Lemma create_version_advances A v f db : advances v f db (create_version_run A db).1.
Proof.
  intros x Hx. exists x. split; [by apply create_version_keeps|]. by case_decide; [left|].
Qed.

Lemma create_shard_advances v0 M A v f db :
  shard_args_ok A -> advances v f db (create_shard_run v0 M A db).1.
Proof.
  intros HA. destruct (decide (v = v0)) as [<-|Hne].
  2:{ apply advances_same. same_view (create_shard_touches v0 M A db). }
  destruct (create_shard_cases v M A db HA) as [->|[(state & ws & n & Hck & ->) _ _]];
    [by apply advances_same|].
  assert (forall f, hget (version_key v) f (publish_writes (shard_keys_of v M (sa_worker_id A)) A db) =
    hget (version_key v) f db) as Hpub by (intros f'; apply publish_writes_version; refit_ne).
  case_match; [|by apply advances_same].
  intros x Hx. rewrite <- (Hpub f) in Hx. revert x Hx. apply advances_state.
  intros x Hx. rewrite Hpub, (sc_state _ _ _ _ _ _ _ Hck) in Hx. simplify_eq.
  destruct (sc_open _ _ _ _ _ _ _ Hck) as [->| ->]; [right; left; auto|by left].
Qed.

Lemma step_advances now db db' v f : refit_step now db db' -> advances v f db db'.
Proof.
  destruct 1; try (apply advances_same; frame_step).
  - apply create_version_advances.
  - apply update_state_advances.
  - by apply create_shard_advances.
Qed.

Lemma steps_advance db db' v f : refit_steps db db' -> advances v f db db'.
Proof.
  intros Hr. induction Hr as [db|db1 db2 db3 [now Hs] _ IH]; intros x Hx.
  - exists x. split; [done|]. by case_decide.
  - destruct (step_advances now _ _ v f Hs x Hx) as (y & Hy & Hxy).
    destruct (IH y Hy) as (z & Hz & Hyz). exists z. split; [done|].
    case_decide; [by etrans|congruence].
Qed.

(** Once a weight version is created, no sequence of operations, of any workers,
    changes a field of its record other than the state, and the state only moves
    forward: STAGING to READY to RELEASING, or STAGING to RELEASING. *)
Lemma version_record_frozen db db' v f x :
  refit_steps db db' -> hget (version_key v) f db = Some x ->
  ∃ y, hget (version_key v) f db' = Some y ∧ (if decide (f = "state") then state_next x y else y = x).
Proof. intros Hr Hx. by eapply steps_advance. Qed.

(** ** Requests *)

Lemma request_kept now db db' m r u :
  refit_step now db db' -> str_get (idempotency_key m r) db = Some u ->
  str_get (idempotency_key m r) db' = Some u.
Proof.
  intros Hs Hu. rewrite <- Hu. destruct Hs as [| |A db| | | | | | | |]; try frame_step.
  destruct (decide (idempotency_key m r = idempotency_key (va_model_name A) (va_idempotency_key A)))
    as [Heq|Hne].
  - unfold create_version_run, CREATE_VERSION_LUA. by rewrite <- Heq, Hu.
  - destruct (create_version_touches A db (idempotency_key m r)) as (_ & _ & _ & ->); [|done].
    intros [?|[?|?]]; [refit_ne|done|refit_ne].
Qed.

Lemma request_kept_steps db db' m r u :
  refit_steps db db' -> str_get (idempotency_key m r) db = Some u ->
  str_get (idempotency_key m r) db' = Some u.
Proof. induction 1 as [|db1 db2 db3 [now Hs] _ IH]; eauto using request_kept. Qed.

(** ** Meshes *)

(** The record of a mesh: its workers, the sorted set of their logical shards, its
    generation. *)
Record mesh_record (M : string) (ws : mesh_workers) (shards : list string) (g : Z) db : Prop := {
  mr_workers : hget (mesh_key M) "workers" db = Some (workers_json ws);
  mr_shards : hget (mesh_key M) "logical_shards" db = Some (shards_json shards);
  mr_mesh_id : is_Some (hget (mesh_key M) "mesh_id" db);
  mr_model_name : is_Some (hget (mesh_key M) "model_name" db);
  mr_nodup : NoDup shards;
  mr_cover : list_to_set shards = shard_set ws;
  mr_generation : hget (mesh_key M) "generation" db = Some (decimal g);
  mr_range : (1 <= g <= lua_int_max)%Z
}.

Definition mesh_wf db : Prop :=
  forall M, redis_exists (mesh_key M) db = true -> ∃ ws shards g, mesh_record M ws shards g db.

Lemma mesh_record_same M ws shards g db db' :
  (forall f, starts_with "stable_metadata:" f = false ->
    hget (mesh_key M) f db' = hget (mesh_key M) f db) ->
  mesh_record M ws shards g db -> mesh_record M ws shards g db'.
Proof. intros Heq []. by split; rewrite ?Heq. Qed.

Lemma redis_exists_same k db db' :
  (forall f, hget k f db' = hget k f db) -> redis_exists k db' = redis_exists k db.
Proof.
  intros Heq. destruct (redis_exists k db) eqn:He.
  - apply redis_exists_true in He as (f & x & Hx). apply redis_exists_true. exists f, x. by rewrite Heq.
  - rewrite redis_exists_false in *. intros f. by rewrite Heq.
Qed.

Lemma mesh_created M mn rk shards ws db :
  NoDup shards -> list_to_set shards = shard_set ws ->
  (create_mesh_run M mn rk shards ws db).1 = db ∨
  (redis_exists (mesh_key M) db = false ∧
   mesh_record M ws shards 1 (create_mesh_run M mn rk shards ws db).1).
Proof.
  intros Hnd Hcov. unfold create_mesh_run, CREATE_MESH_LUA.
  case_match; [by left|]. case_match; [by left|]. rewrite cjson_workers_json. case_match; [by left|].
  right. cbn [fst]. split; [done|]. split; autorewrite with redis; rewrite ?hget_hset_all.
  1-6: done.
  - cbn. by rewrite lua_arg_decimal by (unfold lua_int_max; lia).
  - unfold lua_int_max. lia.
Qed.

Lemma pin_field_pin A : starts_with "stable_metadata:" (pin_field A) = true.
Proof. unfold pin_field. apply starts_with_app. Qed.

Lemma create_shard_mesh_field v M A M' f db :
  shard_args_ok A -> starts_with "stable_metadata:" f = false ->
  hget (mesh_key M') f (create_shard_run v M A db).1 = hget (mesh_key M') f db.
Proof.
  intros HA Hf. destruct (create_shard_cases v M A db HA) as [->|Hacc]; [done|].
  rewrite (accepted_view _ _ _ _ _ (mesh_key M') f Hacc) by refit_ne.
  destruct (decide (M' = M)) as [->|Hne]; [|by apply publish_writes_version; refit_ne].
  rewrite publish_writes_mesh, decide_False; [done|]. intros ->. by rewrite pin_field_pin in Hf.
Qed.

(** What a step can do to a mesh. *)
Inductive mesh_change (now : Z) (M : string) (ws : mesh_workers) (shards : list string) (g : Z)
    db db' : Prop :=
| mc_same : mesh_record M ws shards g db' -> mesh_change now M ws shards g db db'
| mc_updated ws' :
    mesh_record M ws' shards (g + 1) db' -> ws' ≠ ws ->
    (forall v, linked M v db -> unleased now v db) -> mesh_change now M ws shards g db db'
| mc_deleted :
    (forall f, hget (mesh_key M) f db' = None) ->
    (forall v, linked M v db -> hget (version_key v) "state" db = Some RELEASING ∧
       (forall f, hget (shards_key v) f db = None) ∧ unleased now v db) ->
    mesh_change now M ws shards g db db'.

Lemma update_mesh_change now M g0 ws0 mn ws shards g db :
  (0 <= g0 < lua_int_max)%Z -> mesh_record M ws shards g db ->
  mesh_change now M ws shards g db (update_mesh_run M g0 ws0 mn now db).1.
Proof.
  intros Hg0 Hr. destruct (update_mesh_cases M g0 ws0 mn now db Hg0) as [Hp|Hp].
  - apply mc_same. eapply mesh_record_same, Hr. intros f _. same_view (pg_touches _ _ _ _ Hp).
  - destruct Hr as [Hws Hsh Hid Hmn Hnd Hcov Hgen Hrange].
    destruct Hp as [(t0 & old & Ht0 & Hold & Hset & Hne) Hg Hun Hw' Hg' Hother _ _]. simplify_eq.
    rewrite cjson_workers_json in Hold. simplify_eq.
    rewrite Hgen in Hg. cbn [mbind option_bind] in Hg. rewrite tonumber_decimal in Hg by lia.
    simplify_eq. apply (mc_updated _ _ _ _ _ _ _ ws0); [|done..]. split.
    + done.
    + by rewrite Hother.
    + by rewrite Hother.
    + by rewrite Hother.
    + done.
    + by rewrite Hset.
    + done.
    + lia.
Qed.

Lemma delete_mesh_change now M ws shards g db :
  mesh_record M ws shards g db -> mesh_change now M ws shards g db (delete_mesh_run M now db).1.
Proof.
  intros Hr. destruct (delete_mesh_cases M now db) as [Hp|Hp].
  - apply mc_same. eapply mesh_record_same, Hr. intros f _. same_view (pg_touches _ _ _ _ Hp).
  - apply mc_deleted; apply Hp.
Qed.

Lemma step_mesh_change now db db' M ws shards g :
  refit_step now db db' -> mesh_record M ws shards g db -> mesh_change now M ws shards g db db'.
Proof.
  intros Hs Hr. destruct Hs as [|M0 mn rk sh ws0 db Hnd Hcov| | |v0 M0 A db HA _| | | |M0 g0 ws0 mn db Hg|M0 db|];
    try (apply mc_same; eapply mesh_record_same, Hr; intros f _; frame_step).
  - apply mc_same. destruct (decide (M = M0)) as [<-|Hne].
    + destruct (mesh_created M mn rk sh ws0 db Hnd Hcov) as [->|[Hno _]]; [done|].
      destruct Hr as [_ _ _ _ _ _ Hgen _]. by rewrite (hget_redis_exists _ _ _ _ Hgen) in Hno.
    + eapply mesh_record_same, Hr. intros f _. frame_step.
  - apply mc_same. eapply mesh_record_same, Hr. intros f Hf. by apply create_shard_mesh_field.
  - destruct (decide (M = M0)) as [<-|Hne]; [by apply update_mesh_change|].
    apply mc_same. eapply mesh_record_same, Hr. intros f _. frame_step.
  - destruct (decide (M = M0)) as [<-|Hne]; [by apply delete_mesh_change|].
    apply mc_same. eapply mesh_record_same, Hr. intros f _. frame_step.
Qed.

Lemma step_mesh_wf now db db' : refit_step now db db' -> mesh_wf db -> mesh_wf db'.
Proof.
  intros Hs Hwf M Hex. destruct (redis_exists (mesh_key M) db) eqn:He.
  - destruct (Hwf M He) as (ws & shards & g & Hr).
    destruct (step_mesh_change now _ _ M ws shards g Hs Hr) as [Hr'|ws' Hr' _ _|Hno _]; [eauto..|].
    apply redis_exists_true in Hex as (f & x & Hx). by rewrite Hno in Hx.
  - destruct Hs as [|M0 mn rk sh ws0 db Hnd Hcov| | |v0 M0 A db HA _| | | |M0 g0 ws0 mn db Hg|M0 db|];
      try (exfalso; erewrite redis_exists_same, He in Hex; [done|]; intros f; frame_step).
    + destruct (decide (M = M0)) as [<-|Hne].
      * destruct (mesh_created M mn rk sh ws0 db Hnd Hcov) as [Heq|[_ Hr]]; [|eauto].
        rewrite Heq in Hex. congruence.
      * exfalso. erewrite redis_exists_same, He in Hex; [done|]. intros f. frame_step.
    + exfalso. destruct (create_shard_cases v0 M0 A db HA) as [Heq|Hacc]; [congruence|].
      destruct (decide (M = M0)) as [<-|Hne].
      * destruct Hacc as [(st & ws & n & [] & _) _ _]. destruct sc_workers as (t & Ht & _).
        by rewrite (hget_redis_exists _ _ _ _ Ht) in He.
      * erewrite redis_exists_same, He in Hex; [done|]. intros f. frame_step.
    + exfalso. destruct (decide (M = M0)) as [<-|Hne].
      * destruct (update_mesh_cases M g0 ws0 mn now db Hg) as [Hp|Hp].
        -- erewrite redis_exists_same, He in Hex; [done|]. intros f.
           same_view (pg_touches _ _ _ _ Hp).
        -- destruct Hp as [(t & ? & Ht & _) _ _ _ _ _ _ _].
           by rewrite (hget_redis_exists _ _ _ _ Ht) in He.
      * erewrite redis_exists_same, He in Hex; [done|]. intros f. frame_step.
    + exfalso. destruct (decide (M = M0)) as [<-|Hne].
      * destruct (delete_mesh_cases M now db) as [Hp|Hp].
        -- erewrite redis_exists_same, He in Hex; [done|]. intros f.
           same_view (pg_touches _ _ _ _ Hp).
        -- apply redis_exists_true in Hex as (f & x & Hx). by rewrite (md_gone _ _ _ _ Hp) in Hx.
      * erewrite redis_exists_same, He in Hex; [done|]. intros f. frame_step.
Qed.

Lemma steps_mesh_wf db db' : refit_steps db db' -> mesh_wf db -> mesh_wf db'.
Proof. induction 1 as [|db1 db2 db3 [now Hs] _ IH]; eauto using step_mesh_wf. Qed.

(** In every state that operations reach from one without malformed meshes, an
    existing mesh has a decodable worker map, exactly the workers' logical shards
    without duplicates, and a positive generation; and one more operation keeps the
    mesh as it is, or installs other workers for the same logical shards under the
    next generation, with no active lease on a linked version, or deletes it, with
    every linked version released, empty and unleased. *)
Lemma mesh_evolution db0 db now db' M :
  mesh_wf db0 -> refit_steps db0 db -> refit_step now db db' ->
  redis_exists (mesh_key M) db = true ->
  ∃ ws shards g, mesh_record M ws shards g db ∧ mesh_change now M ws shards g db db'.
Proof.
  intros Hwf Hr Hs Hex. destruct (steps_mesh_wf _ _ Hr Hwf M Hex) as (ws & shards & g & Hm).
  exists ws, shards, g. split; [done|]. by apply step_mesh_change.
Qed.

(** ** Readiness *)

(** The logical shards that the loop counts. *)
Definition covered_shards (K : shard_keys) (A : shard_args) db (ws : mesh_workers) : gset string :=
  list_to_set (tm_logical_shard_id <$>
    (filter (fun e => published K A db e.1 e.2 = true) (hash_entries ws)).*2).

Lemma count_covered_size K A db ws : count_covered K A db ws = size (covered_shards K A db ws).
Proof.
  unfold count_covered, covered_shards.
  assert (forall es (seen : gset string), (foldl (fun '(present, covered) '(worker_id, m) =>
     if published K A db worker_id m && negb (bool_decide (tm_logical_shard_id m ∈ present))
     then ({[tm_logical_shard_id m]} ∪ present, S covered) else (present, covered))
     (seen, size seen) es).2 =
    size (seen ∪ list_to_set (tm_logical_shard_id <$>
      (filter (fun e => published K A db e.1 e.2 = true) es).*2))) as Hgo.
  { induction es as [|[w m] es IH]; intros seen; [cbn; f_equal; set_solver|].
    cbn [foldl]. rewrite filter_cons. cbn [fst snd].
    destruct (published K A db w m) eqn:Hp; cbn [andb]; [|by rewrite decide_False, IH by done].
    rewrite decide_True by done. case_bool_decide as Hin; cbn [negb].
    - rewrite IH. f_equal. cbn. set_solver.
    - replace (S (size seen)) with (size ({[tm_logical_shard_id m]} ∪ seen)).
      + rewrite IH. f_equal. cbn. set_solver.
      + rewrite size_union by set_solver. by rewrite size_singleton. }
  specialize (Hgo (hash_entries ws) ∅). rewrite size_empty in Hgo. rewrite Hgo. f_equal. set_solver.
Qed.

Lemma elem_of_covered K A db ws s :
  s ∈ covered_shards K A db ws ↔
  ∃ w ep, ws !! w = Some (MkTensorsMetadata s ep) ∧
          published K A db w (MkTensorsMetadata s ep) = true.
Proof.
  unfold covered_shards. rewrite elem_of_list_to_set, list_elem_of_fmap.
  setoid_rewrite list_elem_of_fmap. split.
  - intros (m & -> & (e & -> & [Hp Hin]%list_elem_of_filter)). destruct e as [w [ls ep]].
    apply elem_of_hash_entries in Hin. eauto.
  - intros (w & ep & Hw & Hp). exists (MkTensorsMetadata s ep). split; [done|].
    exists (w, MkTensorsMetadata s ep). split; [done|]. apply list_elem_of_filter.
    by rewrite elem_of_hash_entries.
Qed.

Lemma elem_of_shard_set ws s :
  s ∈ shard_set ws ↔ ∃ w ep, ws !! w = Some (MkTensorsMetadata s ep).
Proof.
  unfold shard_set. rewrite elem_of_list_to_set, list_elem_of_fmap. split.
  - intros ([w [ls ep]] & -> & Hin). apply elem_of_hash_entries in Hin. eauto.
  - intros (w & ep & Hw). exists (w, MkTensorsMetadata s ep). by rewrite elem_of_hash_entries.
Qed.

(** As many covered shards as there are shards: all are covered. *)
Lemma all_covered K A db ws shards :
  NoDup shards -> list_to_set shards = shard_set ws ->
  count_covered K A db ws = length shards -> forall s, s ∈ shards -> s ∈ covered_shards K A db ws.
Proof.
  intros Hnd Hcov Hcount s Hs.
  assert (covered_shards K A db ws ⊆ shard_set ws) as Hsub.
  { intros x (w & ep & Hw & _)%elem_of_covered. apply elem_of_shard_set. eauto. }
  assert (covered_shards K A db ws = shard_set ws) as ->.
  { apply set_eq, set_equiv, set_subseteq_size_equiv; [done|].
    rewrite <- count_covered_size, Hcount, <- Hcov, size_list_to_set by done. lia. }
  rewrite <- Hcov. by apply elem_of_list_to_set.
Qed.

(** Every logical shard has a publication of a worker that the mesh and its
    registration still agree on. *)
Definition covers (v : string) (ws : mesh_workers) (shards : list string) db : Prop :=
  forall s, s ∈ shards -> ∃ w ep,
    ws !! w = Some (MkTensorsMetadata s ep) ∧
    is_Some (hget (shards_key v) (publication_key w s) db) ∧
    hget (publication_endpoints_key v) (publication_key w s) db = Some ep ∧
    hget (refit_worker_key w) "refit_endpoint" db = Some ep ∧
    hget (refit_worker_key w) "role" db = Some TRAINER.

Lemma published_true v M w A db w0 m :
  published (shard_keys_of v M w) A db w0 m = true ->
  is_Some (hget (shards_key v) (publication_key w0 (tm_logical_shard_id m)) db) ∧
  hget (publication_endpoints_key v) (publication_key w0 (tm_logical_shard_id m)) db =
    Some (tm_metadata_endpoint m) ∧
  hget (refit_worker_key w0) "refit_endpoint" db = Some (tm_metadata_endpoint m) ∧
  hget (refit_worker_key w0) "role" db = Some (sa_trainer_role A).
Proof.
  unfold published. cbn [sk_shards sk_endpoints shard_keys_of].
  intros Hp. apply andb_true_iff in Hp as [Hp H4'%bool_decide_eq_true].
  apply andb_true_iff in Hp as [Hp _]. apply andb_true_iff in Hp as [Hp H3'%bool_decide_eq_true].
  apply andb_true_iff in Hp as [Hp H2'%bool_decide_eq_true].
  unfold hexists in Hp. case_match; [|done]. eauto.
Qed.

Lemma accepted_covers v M A db db' ws shards g :
  shard_args_ok A -> shard_accepted v M A db db' -> mesh_record M ws shards g db ->
  hget (version_key v) "state" db = Some STAGING -> hget (version_key v) "state" db' = Some READY ->
  covers v ws shards db'.
Proof.
  intros HA Hacc Hr Hst Hst' s Hs. pose proof Hacc as [(state & ws' & n & Hck & Hdb') _ _].
  destruct Hck as [_ _ _ _ _ (t & Ht & Hws) _ (t' & l & Ht' & Hl & ->)].
  destruct Hr as [Hws0 Hl0 _ _ Hnd Hcov _ _]. simplify_eq.
  rewrite cjson_workers_json in Hws. rewrite cjson_shards_json in Hl. simplify_eq.
  cbn zeta in Hdb'. destruct (_ =? _)%nat eqn:Hcount in Hdb'.
  - apply Nat.eqb_eq in Hcount. eapply all_covered in Hs; [|done..].
    apply elem_of_covered in Hs as (w & ep & Hw & Hp). apply published_true in Hp as (P1 & P2 & P3 & P4).
    exists w, ep. rewrite (so_role _ HA) in P4.
    rewrite !(accepted_view _ _ _ _ _ _ _ Hacc) by refit_ne. done.
  - rewrite Hdb', publish_writes_version in Hst' by refit_ne. rewrite Hst in Hst'. done.
Qed.

Lemma update_state_ready v0 target v db :
  hget (version_key v) "state" db = Some STAGING ->
  hget (version_key v) "state" (update_state_run v0 target db).1 = Some READY ->
  default "" (hget (version_key v) "s3_uri" db) ≠ "".
Proof.
  intros Hst Hst'. destruct (decide (v = v0)) as [<-|Hne].
  - unfold update_state_run, UPDATE_VERSION_STATE_LUA in Hst'. rewrite Hst in Hst'.
    assert (hget (version_key v) "state" db ≠ Some READY) as Hn by by rewrite Hst.
    case_match; [done|]. case_match; [done|]. case_match eqn:Hc; [done|]. cbn [fst] in Hst'.
    rewrite hget_hset, decide_True in Hst' by done. simplify_eq.
    rewrite andb_false_r in Hc. cbn [negb andb] in Hc. rewrite andb_true_r in Hc.
    apply negb_false_iff, andb_true_iff in Hc as [_ Hc]. by apply negb_true_iff, String.eqb_neq in Hc.
  - exfalso. assert (hget (version_key v) "state" (update_state_run v0 target db).1 =
      hget (version_key v) "state" db) as Heq by frame_step. rewrite Heq, Hst in Hst'. done.
Qed.

Lemma step_ready_covered now db db' v :
  mesh_wf db -> refit_step now db db' ->
  hget (version_key v) "state" db = Some STAGING -> hget (version_key v) "state" db' = Some READY ->
  default "" (hget (version_key v) "s3_uri" db) ≠ "" ∨
  ∃ M ws shards g,
    hget (version_key v) "trainer_mesh_id" db = Some M ∧
    hget (version_key v) "trainer_mesh_generation" db = Some (decimal g) ∧
    mesh_record M ws shards g db' ∧ covers v ws shards db'.
Proof.
  intros Hwf Hs Hst Hst'.
  assert (hget (version_key v) "state" db' ≠ hget (version_key v) "state" db) as Hch.
  { rewrite Hst, Hst'. done. }
  destruct Hs as [| |A db HA|v0 target db|v0 M A db HA HM| | | | | |];
    try (exfalso; apply Hch; frame_step).
  - exfalso. apply Hch. rewrite Hst. by apply create_version_keeps.
  - left. by eapply update_state_ready.
  - destruct (decide (v = v0)) as [<-|Hne]; [|exfalso; apply Hch; frame_step].
    right. destruct (create_shard_cases v M A db HA) as [Heq|Hacc]; [by rewrite Heq in Hch|].
    pose proof Hacc as [(state & ws' & n & Hck & _) _ _].
    destruct (sc_workers _ _ _ _ _ _ _ Hck) as (t & Ht & _).
    destruct (Hwf M) as (ws & shards & g & Hr); [by eapply hget_redis_exists|].
    destruct (sc_generation _ _ _ _ _ _ _ Hck) as (gt & Hgv & _ & Hgm).
    rewrite (mr_generation _ _ _ _ _ Hr) in Hgm. simplify_eq.
    exists M, ws, shards, g. split_and!; [done..| |by eapply accepted_covers].
    eapply mesh_record_same, Hr. intros f Hf. by apply create_shard_mesh_field.
Qed.

(** C16: a version becomes READY only in one of two ways: its weights are in object
    storage, or, by a publication, every logical shard of its trainer mesh, which is
    still at the generation that the version is bound to, has a publication of a
    worker of the mesh, made for the worker's current endpoint, and the worker is
    registered there as a trainer at that moment. *)
Theorem ready_covered db0 db now db' v :
  mesh_wf db0 -> refit_steps db0 db -> refit_step now db db' ->
  hget (version_key v) "state" db = Some STAGING -> hget (version_key v) "state" db' = Some READY ->
  default "" (hget (version_key v) "s3_uri" db) ≠ "" ∨
  ∃ M ws shards g,
    hget (version_key v) "trainer_mesh_id" db = Some M ∧
    hget (version_key v) "trainer_mesh_generation" db = Some (decimal g) ∧
    mesh_record M ws shards g db' ∧ covers v ws shards db'.
Proof. intros Hwf Hr. by apply step_ready_covered, (steps_mesh_wf _ _ Hr). Qed.

(** ** Leases *)

(** Lease [l] of version [v] is active at time [now]. *)
Definition held (now : Z) (v l : string) db : Prop :=
  ∃ e, zset_at (leases_key v) db !! l = Some e ∧ (now < e)%Z.

Lemma held_not_unleased now v l db : held now v l db -> ~ unleased now v db.
Proof. intros (e & Hl & He) Hu. specialize (Hu l e Hl). lia. Qed.

Lemma delete_shard_held v w shard enc now l f db :
  held now v l db ->
  hget (shards_key v) f (delete_shard_run v w shard enc now db).1 = hget (shards_key v) f db.
Proof.
  intros Hh. unfold delete_shard_run, DELETE_SHARD_LUA.
  case_match; [done|]. case_match; [done|]. case_match; [|done]. case_match; [done|].
  destruct (0 <? zcard _ _)%nat eqn:Hz; cbn [fst]; [by rewrite hget_zremrange|].
  rewrite zcard_zremrange in Hz. by apply held_not_unleased in Hh.
Qed.

Lemma create_shard_keeps v0 M A v f x db :
  shard_args_ok A -> hget (shards_key v) f db = Some x ->
  hget (shards_key v) f (create_shard_run v0 M A db).1 = Some x.
Proof.
  intros HA Hx. destruct (decide (v = v0)) as [<-|Hne]; [|rewrite <- Hx; frame_step].
  destruct (create_shard_cases v M A db HA) as [->|Hacc]; [done|].
  rewrite (accepted_view _ _ _ _ _ _ _ Hacc), publish_writes_shards by refit_ne.
  case_decide; [subst|done]. f_equal. symmetry. by eapply sa_no_conflict.
Qed.

Lemma step_publications_kept now db db' v l f x :
  refit_step now db db' -> held now v l db -> hget (shards_key v) f db = Some x ->
  hget (shards_key v) f db' = Some x.
Proof.
  intros Hs Hh Hx. pose proof (held_not_unleased _ _ _ _ Hh) as Hn. rewrite <- Hx.
  destruct Hs as [| | | |v0 M A db HA _|v0 w shard enc db| | |M g ws mn db Hg| |]; try frame_step.
  - rewrite Hx. by apply create_shard_keeps.
  - destruct (decide (v = v0)) as [<-|Hne]; [by eapply delete_shard_held|frame_step].
  - destruct (update_mesh_cases M g ws mn now db Hg) as [Hp|Hp]; [same_view (pg_touches _ _ _ _ Hp)|].
    destruct (mu_touches _ _ _ _ _ _ Hp (shards_key v)) as [-> _]; [|done].
    intros [Hk|(v' & Hl & [Hk|[Hk|Hk]])]; try refit_ne.
    apply shards_key_inj in Hk as <-. by apply Hn, (mu_unleased _ _ _ _ _ _ Hp).
Qed.

Lemma step_link_kept now db db' M v l :
  refit_step now db db' -> held now v l db -> linked M v db -> linked M v db'.
Proof.
  intros Hs Hh Hl. pose proof (held_not_unleased _ _ _ _ Hh) as Hn.
  assert (set_at (mesh_versions_key M) db' = set_at (mesh_versions_key M) db -> linked M v db') as Hsame.
  { unfold linked. by intros ->. }
  destruct Hs as [| |A db _| | | | | | |M0 db|]; try (apply Hsame; frame_step).
  - unfold create_version_run, CREATE_VERSION_LUA, linked.
    repeat case_match; cbn [fst]; autorewrite with redis; try done.
    rewrite set_at_sadd. autorewrite with redis. case_decide; [|done]. set_solver.
  - destruct (decide (M = M0)) as [<-|Hne]; [|apply Hsame; frame_step].
    destruct (delete_mesh_cases M now db) as [Hp|Hp]; [apply Hsame; same_view (pg_touches _ _ _ _ Hp)|].
    exfalso. apply Hn. by apply (md_released _ _ _ _ Hp).
Qed.

Lemma step_mesh_kept now db db' M v l ws shards g :
  refit_step now db db' -> held now v l db -> linked M v db ->
  mesh_record M ws shards g db -> mesh_record M ws shards g db'.
Proof.
  intros Hs Hh Hl Hr. apply held_not_unleased in Hh.
  destruct (step_mesh_change now _ _ M ws shards g Hs Hr) as [Hr'|ws' _ _ Hu|_ Hu]; [done|..].
  - by destruct Hh; apply Hu.
  - by destruct Hh; apply Hu.
Qed.

(** Steps during which lease [l] of version [v] stays active. *)
Definition leased_steps (v l : string) : DB -> DB -> Prop :=
  rtc (fun db db' => ∃ now, held now v l db ∧ refit_step now db db').

(** C14: while a generator's lease of a version is active, whatever the other workers
    do, no publication of the version is removed or replaced, and the trainer mesh
    that the version is linked to keeps its workers, its logical shards and its
    generation: it is neither updated nor deleted. *)
Theorem lease_protects db db' v l :
  leased_steps v l db db' ->
  (forall f x, hget (shards_key v) f db = Some x -> hget (shards_key v) f db' = Some x) ∧
  (forall M ws shards g, linked M v db -> mesh_record M ws shards g db ->
     linked M v db' ∧ mesh_record M ws shards g db').
Proof.
  induction 1 as [db|db1 db2 db3 (now & Hh & Hs) _ [IH1 IH2]]; [done|]. split.
  - intros f x Hx. eapply IH1, step_publications_kept; eauto.
  - intros M ws shards g Hl Hr. apply IH2; eauto using step_link_kept, step_mesh_kept.
Qed.

(** A lease is granted for its time to live: the reply of a registration that is
    accepted carries its expiry, the lease is active until then, and it was accepted
    because the worker is registered as a generator of the version's model and the
    version is READY, or RELEASING for the renewal of a lease that the same worker
    already holds. *)
Lemma lease_granted v w l ttl_ms now db db' e :
  register_lease_run v w l ttl_ms now db = (db', "OK:" +:+ e) ->
  e = lua_concat (now + ttl_ms) ∧
  (forall t, (t < now + ttl_ms)%Z -> held t v l db') ∧
  hget (refit_worker_key w) "role" db = Some GENERATOR ∧
  hget (refit_worker_key w) "model_name" db = hget (version_key v) "model_name" db ∧
  (hget (version_key v) "state" db = Some READY ∨
   (hget (version_key v) "state" db = Some RELEASING ∧
    hget (lease_key v l) "worker_id" db = Some w)).
Proof.
  unfold register_lease_run, REGISTER_LEASE_LUA.
  case_match; [done|]. case_match; [done|]. case_match eqn:Hrole; [done|]. case_match eqn:Hmodel; [done|].
  apply negb_false_iff, bool_decide_eq_true in Hrole, Hmodel.
  match goal with |- context [match ?r with Some _ => _ | None => _ end = _ -> _] =>
    destruct r as [err|] eqn:Href end.
  - intros Heq. repeat case_match; simplify_eq/=.
  - intros [= <- He]. split_and!; [by simplify_eq/=| |done|done|].
    + intros t Ht. exists (now + ttl_ms)%Z. split; [|done].
      by rewrite zset_at_zadd, decide_True, lookup_insert_eq.
    + destruct (redis_exists (lease_key v l) db).
      * case_match eqn:Hsame; [done|]. case_match eqn:Hst; [done|].
        apply negb_false_iff in Hsame. unfold same_lease in Hsame.
        apply andb_true_iff in Hsame as [_ Hw%bool_decide_eq_true].
        apply andb_false_iff in Hst as [Hst|Hst]; apply negb_false_iff, bool_decide_eq_true in Hst; auto.
      * case_match eqn:Hst; [done|]. apply negb_false_iff, bool_decide_eq_true in Hst. auto.
Qed.
End theorems.
