(* ===== verification/RefitBackend.v ===== *)
(** * The Redis refit backend (refit/backend/redis.rs)

    The messages of refit.proto, their stored forms, and one program per method of
    the trait [RefitBackend] over the scripts of RefitScripts.  Errors keep their
    kind, not their text.  Arguments of the methods: the server's clock for the
    scripts that read it, this process's clock for creation times, the random
    identifiers that the retry loops draw, the pages that SCAN returns.  SHA-256 and
    prost's encoding of a publication are parameters. *)

From Stdlib Require Import ZArith Lia Ascii String.
From stdpp Require Import base tactics option list gmap fin_maps fin_map_dom fin_sets strings.
From S2P Require Import Prelude RustStr RedisStore RedisServer RedisProg CollectiveBackend.
From S2P Require Import RefitScripts RefitMachine.

(** ** Messages *)

Record WorkerRegistration : Type := MkWorkerRegistration {
  wr_worker_id : string;
  wr_role : Z;
  wr_model_name : string;
  wr_expires_at : Z;
  wr_refit_endpoint : string
}.

Record TrainerMesh : Type := MkTrainerMesh {
  tm_mesh_id : string;
  tm_model_name : string;
  tm_generation : Z;
  tm_workers : mesh_workers
}.

Record CreateTrainerMeshRequest : Type := MkCreateTrainerMeshRequest {
  cmr_model_name : string;
  cmr_idempotency_key : string;
  cmr_workers : mesh_workers
}.

Record ObjectStorageSource : Type := MkObjectStorageSource {
  os_uri : string;
  os_storage_type : Z
}.

#[export] Instance ObjectStorageSource_eq_dec : EqDecision ObjectStorageSource.
Proof. solve_decision. Defined.

Record WeightVersion : Type := MkWeightVersion {
  wv_uid : string;
  wv_model_name : string;
  wv_idempotency_key : string;
  wv_payload_format : Z;
  wv_base_version_id : option string;
  wv_layout_signature : string;
  wv_state : Z;
  wv_created_at : Z;
  wv_object_storage : option ObjectStorageSource;
  wv_trainer_mesh_id : option string;
  wv_version_number : option Z;
  wv_trainer_mesh_generation : Z
}.

Record CreateWeightVersionRequest : Type := MkCreateWeightVersionRequest {
  cvr_model_name : string;
  cvr_idempotency_key : string;
  cvr_payload_format : Z;
  cvr_base_version_id : option string;
  cvr_object_storage : option ObjectStorageSource;
  cvr_state : Z;
  cvr_uid : option string;
  cvr_trainer_mesh_id : option string;
  cvr_version_number : option Z
}.

Record VersionLease : Type := MkVersionLease {
  vl_lease_id : string;
  vl_version_id : string;
  vl_worker_id : string;
  vl_expires_at : Z
}.

(** [RefitBackendError], by kind. *)
Inductive RefitBackendError : Type :=
| RInvalidArgument | RNotFound | RFailedPrecondition | RAlreadyExists | RResourceExhausted
| RInternal | RUnavailable.

#[export] Instance RefitBackendError_eq_dec : EqDecision RefitBackendError.
Proof. solve_decision. Defined.

Definition RefitResult (A : Type) : Type := result A RefitBackendError.

(** ** Numbers *)

(** [u64::from(ttl_seconds).saturating_mul(1000)]. *)
Definition ttl_ms (ttl_seconds : Z) : Z := Z.min (ttl_seconds * 1000) u64_max.

(** ** Stored records *)

Definition hash_field (fields : gmap string string) (name : string) : RefitResult string :=
  match fields !! name with Some v => Ok v | None => Err RInternal end.

Definition parse_hash_field (parse : string -> option Z) (fields : gmap string string)
    (name : string) : RefitResult Z :=
  let? v := hash_field fields name in
  match parse v with Some z => Ok z | None => Err RInternal end.

(** A field that reads as absent when it is empty. *)
Definition nonempty_field (fields : gmap string string) (name : string) : option string :=
  v ← fields !! name; if str_is_empty v then None else Some v.

Definition S3 : Z := 1.

Definition version_from_hash (fields : gmap string string) : RefitResult WeightVersion :=
  let? uid := hash_field fields "uid" in
  let? model_name := hash_field fields "model_name" in
  let? request_key := hash_field fields "idempotency_key" in
  let? payload_format := parse_hash_field (parse_signed 32) fields "payload_format" in
  let? base := hash_field fields "base_version_id" in
  let? layout_signature := hash_field fields "layout_signature" in
  let? state := parse_hash_field (parse_signed 32) fields "state" in
  let? created := parse_hash_field (parse_unsigned u64_max) fields "created_at_unix_ms" in
  let? generation := parse_hash_field (parse_unsigned u64_max) fields "trainer_mesh_generation" in
  let? version_number :=
    match nonempty_field fields "version_number" with
    | None => Ok None
    | Some number =>
        match parse_signed 64 number with Some z => Ok (Some z) | None => Err RInternal end
    end in
  Ok (MkWeightVersion uid model_name request_key payload_format
        (if str_is_empty base then None else Some base) layout_signature state created
        ((fun uri => MkObjectStorageSource uri S3) <$> nonempty_field fields "s3_uri")
        (nonempty_field fields "trainer_mesh_id") version_number generation).

(** The workers of a mesh from the decoded JSON: both fields must be there. *)
Definition decode_metadata (fields : gmap string string) : RefitResult TrainerTensorsMetadata :=
  let? shard := hash_field fields "logical_shard_id" in
  let? endpoint := hash_field fields "metadata_endpoint" in
  Ok (MkTensorsMetadata shard endpoint).

Section decode.
Context `{MeshJson} `{HashIter}.

Fixpoint collect_workers (es : list (string * gmap string string)) : RefitResult mesh_workers :=
  match es with
  | [] => Ok ∅
  | (worker_id, fields) :: es' =>
      let? m := decode_metadata fields in
      let? ws := collect_workers es' in
      Ok (<[worker_id := m]> ws)
  end.

Definition decode_mesh_workers (encoded : string) : RefitResult mesh_workers :=
  match serde_workers encoded with
  | None => Err RInternal
  | Some ws => collect_workers (hash_entries ws)
  end.

Definition mesh_from_hash (fields : gmap string string) : RefitResult TrainerMesh :=
  let? text := hash_field fields "workers" in
  let? workers := decode_mesh_workers text in
  let? mesh_id := hash_field fields "mesh_id" in
  let? model_name := hash_field fields "model_name" in
  let? generation := parse_hash_field (parse_unsigned u64_max) fields "generation" in
  Ok (MkTrainerMesh mesh_id model_name generation workers).
End decode.

Definition lease_from_hash (fields : gmap string string) : RefitResult VersionLease :=
  let? lease_id := hash_field fields "lease_id" in
  let? version_id := hash_field fields "version_id" in
  let? worker_id := hash_field fields "worker_id" in
  let? expires := parse_hash_field (parse_unsigned u64_max) fields "expires_at_unix_ms" in
  Ok (MkVersionLease lease_id version_id worker_id expires).

(** The first four bytes of the digest in hexadecimal. *)
Definition lease_id `{Sha256} (version_id worker_id : string) : string :=
  hex_encode (String.substring 0 4 (sha256 (version_id +:+ nul +:+ worker_id))).

(** ** Methods *)

Section methods.
Context {DB : Type} `{RedisServer DB} `{LuaNumbers} `{LuaConcat} `{HashIter} `{MeshJson}
  `{Sha256} `{ShardCodec}.

Definition get_version_fields (uid : string) : prog DB (RefitResult (gmap string string)) :=
  Read (hfields (version_key uid)) (fun fields =>
    Ret (if bool_decide (fields = ∅) then Err RNotFound else Ok fields)).

Definition get_weight_version (uid : string) : prog DB (RefitResult WeightVersion) :=
  try! fields := get_version_fields uid in Ret (version_from_hash fields).

Definition transition_weight_version_state (uid : string) (state : Z)
    : prog DB (RefitResult WeightVersion) :=
  Call (update_state_run uid (signed_decimal state)) (fun result =>
    if String.eqb result "OK" then get_weight_version uid
    else if String.eqb result "VERSION_NOT_FOUND" then Ret (Err RNotFound)
    else if String.eqb result "INVALID_TRANSITION" then Ret (Err RFailedPrecondition)
    else Ret (Err RInternal)).

Definition get_lease (version_id lease_id : string) : prog DB (RefitResult VersionLease) :=
  Read (hfields (lease_key version_id lease_id)) (fun fields =>
    Ret (if bool_decide (fields = ∅) then Err RNotFound else lease_from_hash fields)).

(** One [HGETALL] per worker; the replies are checked in the same order. *)
Fixpoint read_all {A} (keys : list string) (k : list (gmap string string) -> prog DB A)
    : prog DB A :=
  match keys with
  | [] => k []
  | key :: keys' => Read (hfields key) (fun h => read_all keys' (fun hs => k (h :: hs)))
  end.

Definition registration_ok (model_name worker_id : string) (m : TrainerTensorsMetadata)
    (registration : gmap string string) : bool :=
  bool_decide (registration !! "worker_id" = Some worker_id) &&
  bool_decide (registration !! "model_name" = Some model_name) &&
  bool_decide (registration !! "role" = Some TRAINER) &&
  bool_decide (registration !! "refit_endpoint" = Some (tm_metadata_endpoint m)).

Definition validate_trainer_mesh_workers (model_name : string) (workers : mesh_workers)
    : prog DB (RefitResult unit) :=
  let members := hash_entries workers in
  read_all (refit_worker_key <$> members.*1) (fun registrations =>
    Ret (if forallb (fun '((w, m), r) => registration_ok model_name w m r)
              (zip members registrations)
         then Ok () else Err RFailedPrecondition)).

Definition get_trainer_mesh (mesh_id : string) : prog DB (RefitResult TrainerMesh) :=
  Read (hfields (mesh_key mesh_id)) (fun fields =>
    Ret (if bool_decide (fields = ∅) then Err RNotFound else mesh_from_hash fields)).

Definition existing_mesh (request : CreateTrainerMeshRequest) (fields : gmap string string)
    : RefitResult (option TrainerMesh) :=
  if bool_decide (fields = ∅) then Err RAlreadyExists
  else
    let? text := hash_field fields "initial_workers" in
    let? initial_workers := decode_mesh_workers text in
    let? existing := mesh_from_hash fields in
    if negb (String.eqb (tm_model_name existing) (cmr_model_name request)) ||
       negb (bool_decide (initial_workers = cmr_workers request))
    then Err RAlreadyExists
    else Ok (Some existing).

Definition find_trainer_mesh_for_request (request : CreateTrainerMeshRequest)
    : prog DB (RefitResult (option TrainerMesh)) :=
  Read (str_get (mesh_idempotency_key (cmr_model_name request) (cmr_idempotency_key request)))
    (fun existing_id =>
       match existing_id with
       | None => Ret (Ok None)
       | Some existing_id =>
           Read (hfields (mesh_key existing_id)) (fun fields => Ret (existing_mesh request fields))
       end).

(** The [BTreeSet] of the workers' logical shards. *)
Definition logical_shards (workers : mesh_workers) : list string :=
  str_sort (elements (shard_set workers)).

(** One attempt per identifier that is drawn. *)
Fixpoint create_mesh_attempts (request : CreateTrainerMeshRequest) (ids : list string)
    : prog DB (RefitResult TrainerMesh) :=
  match ids with
  | [] => Ret (Err RResourceExhausted)
  | mesh_id :: ids' =>
      Call (create_mesh_run mesh_id (cmr_model_name request) (cmr_idempotency_key request)
              (logical_shards (cmr_workers request)) (cmr_workers request)) (fun result =>
        match result with
        | None => Ret (Err RInternal)
        | Some result =>
            if String.eqb result "CREATED" then get_trainer_mesh mesh_id
            else if starts_with "EXISTING:" result then
              try! found := find_trainer_mesh_for_request request in
              Ret (match found with Some mesh => Ok mesh | None => Err RInternal end)
            else if String.eqb result "WORKER_NOT_FOUND" || String.eqb result "WORKER_MISMATCH"
            then Ret (Err RFailedPrecondition)
            else if negb (String.eqb result "COLLISION") then Ret (Err RInternal)
            else create_mesh_attempts request ids'
        end)
  end.

Definition create_trainer_mesh (fresh : nat -> string) (request : CreateTrainerMeshRequest)
    : prog DB (RefitResult TrainerMesh) :=
  create_mesh_attempts request (fresh <$> seq 0 5).

Definition update_trainer_mesh (mesh_id : string) (expected_generation : Z) (workers : mesh_workers)
    (now : Z) : prog DB (RefitResult TrainerMesh) :=
  try! current := get_trainer_mesh mesh_id in
  if negb (tm_generation current =? expected_generation)%Z then Ret (Err RFailedPrecondition)
  else
    Call (update_mesh_run mesh_id expected_generation workers (tm_model_name current) now)
      (fun result =>
         match result with
         | None => Ret (Err RInternal)
         | Some result =>
             if String.eqb result "UPDATED" || String.eqb result "UNCHANGED"
             then get_trainer_mesh mesh_id
             else if String.eqb result "COVERAGE_MISMATCH" then Ret (Err RInvalidArgument)
             else if String.eqb result "NOT_FOUND" then Ret (Err RNotFound)
             else if String.eqb result "GENERATION_MISMATCH" then Ret (Err RFailedPrecondition)
             else if String.eqb result "WORKER_NOT_FOUND" || String.eqb result "WORKER_MISMATCH"
             then Ret (Err RFailedPrecondition)
             else if String.eqb result "VERSION_LEASED" then Ret (Err RFailedPrecondition)
             else Ret (Err RInternal)
         end).

Definition delete_trainer_mesh (mesh_id : string) (now : Z) : prog DB (RefitResult unit) :=
  Call (delete_mesh_run mesh_id now) (fun result =>
    Ret (if String.eqb result "DELETED" then Ok ()
         else if String.eqb result "NOT_FOUND" then Err RNotFound
         else if String.eqb result "IN_USE" then Err RFailedPrecondition
         else Err RInternal)).

Definition register_worker (worker : WorkerRegistration) (ttl_seconds now : Z)
    : prog DB (RefitResult WorkerRegistration) :=
  Call (register_worker_run (wr_worker_id worker) (signed_decimal (wr_role worker))
          (wr_model_name worker) (ttl_ms ttl_seconds) (wr_refit_endpoint worker) now) (fun result =>
    Ret (if String.eqb result "CONFLICT" then Err RAlreadyExists
         else match strip_prefix "OK:" result ≫= parse_unsigned u64_max with
              | None => Err RInternal
              | Some expires => Ok (MkWorkerRegistration (wr_worker_id worker) (wr_role worker)
                                      (wr_model_name worker) expires (wr_refit_endpoint worker))
              end)).

(** The arguments of the creation script. *)
Definition version_script_args (request : CreateWeightVersionRequest) (uid : string)
    (created_at : Z) : version_args :=
  MkVersionArgs uid (cvr_model_name request) (cvr_idempotency_key request)
    (signed_decimal (cvr_payload_format request)) (default "" (cvr_base_version_id request))
    (from_option os_uri "" (cvr_object_storage request)) (signed_decimal (cvr_state request))
    (signed_decimal (cvr_state request)) (decimal created_at)
    (default "" (cvr_trainer_mesh_id request))
    (from_option signed_decimal "" (cvr_version_number request)).

(** A replayed request must describe the version that exists. *)
Definition same_version (request : CreateWeightVersionRequest) (existing : WeightVersion)
    (initial_state : Z) : bool :=
  String.eqb (wv_model_name existing) (cvr_model_name request) &&
  (wv_payload_format existing =? cvr_payload_format request)%Z &&
  bool_decide (wv_base_version_id existing = cvr_base_version_id request) &&
  bool_decide (wv_object_storage existing = cvr_object_storage request) &&
  bool_decide (wv_trainer_mesh_id existing = cvr_trainer_mesh_id request) &&
  bool_decide (wv_version_number existing = cvr_version_number request) &&
  (initial_state =? cvr_state request)%Z.

Definition replayed_version (request : CreateWeightVersionRequest) (fields : gmap string string)
    : RefitResult WeightVersion :=
  let? initial_state :=
    match fields !! "initial_state" with
    | None => Ok 1%Z
    | Some value => match parse_signed 32 value with Some z => Ok z | None => Err RInternal end
    end in
  let? existing := version_from_hash fields in
  if same_version request existing initial_state then Ok existing else Err RAlreadyExists.

Fixpoint create_version_attempts (request : CreateWeightVersionRequest)
    (draws : list (string * Z)) : prog DB (RefitResult WeightVersion) :=
  match draws with
  | [] => Ret (Err RResourceExhausted)
  | (uid, created_at) :: draws' =>
      Call (create_version_run (version_script_args request uid created_at)) (fun result =>
        if String.eqb result "CREATED" then get_weight_version uid
        else
          match strip_prefix "EXISTING:" result with
          | Some existing_uid =>
              if match cvr_uid request with
                 | Some uid => negb (String.eqb uid existing_uid) | None => false end
              then Ret (Err RAlreadyExists)
              else try! fields := get_version_fields existing_uid in
                   Ret (replayed_version request fields)
          | None =>
              if String.eqb result "COLLISION" && bool_decide (is_Some (cvr_uid request))
              then Ret (Err RAlreadyExists)
              else if String.eqb result "MESH_NOT_FOUND" then Ret (Err RNotFound)
              else if String.eqb result "MESH_MODEL_MISMATCH" then Ret (Err RFailedPrecondition)
              else if String.eqb result "MESH_GENERATION_MISSING" then Ret (Err RFailedPrecondition)
              else if negb (String.eqb result "COLLISION") then Ret (Err RInternal)
              else create_version_attempts request draws'
          end)
  end.

(** [fresh] and [clock] are what each attempt draws. *)
Definition create_weight_version (fresh : nat -> string) (clock : nat -> Z)
    (request : CreateWeightVersionRequest) : prog DB (RefitResult WeightVersion) :=
  create_version_attempts request
    match cvr_uid request with
    | Some uid => [(uid, clock 0)]
    | None => (fun i => (fresh i, clock i)) <$> seq 0 5
    end.

(** Newest first; ties by descending identifier. *)
Definition version_leb (a b : WeightVersion) : bool :=
  (wv_created_at b <? wv_created_at a)%Z ||
  ((wv_created_at b =? wv_created_at a)%Z && String.leb (wv_uid b) (wv_uid a)).

(** The records collected by identifier; a malformed one fails the listing. *)
Fixpoint collect_versions (model_name : string) (mesh_id : option string)
    (records : list (gmap string string)) (acc : gmap string WeightVersion)
    : RefitResult (gmap string WeightVersion) :=
  match records with
  | [] => Ok acc
  | fields :: records' =>
      if bool_decide (fields = ∅) then collect_versions model_name mesh_id records' acc
      else
        let? version := version_from_hash fields in
        let kept := String.eqb (wv_model_name version) model_name &&
                    match mesh_id with
                    | None => true
                    | Some mesh_id => bool_decide (wv_trainer_mesh_id version = Some mesh_id)
                    end in
        collect_versions model_name mesh_id records'
          (if kept then <[wv_uid version := version]> acc else acc)
  end.

Definition listed_versions (model_name : string) (mesh_id : option string)
    (records : list (gmap string string)) : RefitResult (list WeightVersion) :=
  let? versions := collect_versions model_name mesh_id records ∅ in
  Ok (sort_by version_leb (hash_values versions)).

(** Without a mesh the keys come from a SCAN loop, whose pages are an argument. *)
Definition list_weight_versions (pages : list (list string)) (model_name : string)
    (trainer_mesh_id : option string) : prog DB (RefitResult (list WeightVersion)) :=
  let listed keys :=
    match keys with
    | [] => Ret (Ok [])
    | _ => read_all keys (fun records => Ret (listed_versions model_name trainer_mesh_id records))
    end in
  match trainer_mesh_id with
  | Some mesh_id => Read (smembers (mesh_versions_key mesh_id)) (fun ids => listed (version_key <$> ids))
  | None => listed (concat pages)
  end.

Definition delete_weight_version (uid : string) : prog DB (RefitResult WeightVersion) :=
  transition_weight_version_state uid 3.

Definition update_weight_version_state (uid : string) (state : Z)
    : prog DB (RefitResult WeightVersion) :=
  try! version := get_weight_version uid in
  if bool_decide (is_Some (wv_trainer_mesh_id version)) then Ret (Err RFailedPrecondition)
  else transition_weight_version_state uid state.

(** The arguments of the publication script. *)
Definition shard_script_args (shard : WeightVersionShard) (model_name : string) : shard_args :=
  MkShardArgs (publication_key (wvs_worker_id shard) (wvs_logical_shard_id shard))
    (encode_shard shard) model_name (wvs_logical_shard_id shard) STAGING READY
    (wvs_worker_id shard) TRAINER (wvs_metadata_endpoint shard) (wvs_stable_metadata_digest shard).

(** The reply of the publication script as a state. *)
Definition publication_state (result : string) : RefitResult Z :=
  if String.eqb result "VERSION_NOT_FOUND" then Err RNotFound
  else if existsb (String.eqb result)
            ["WORKER_NOT_FOUND"; "MODEL_MISMATCH"; "MESH_NOT_FOUND"; "MESH_GENERATION_MISSING";
             "MESH_GENERATION_MISMATCH"; "WORKER_NOT_TRAINER"; "WORKER_NOT_IN_MESH";
             "WORKER_ENDPOINT_MISMATCH"; "STABLE_METADATA_MISMATCH"; "VERSION_NOT_WRITABLE"]
  then Err RFailedPrecondition
  else if String.eqb result "SHARD_CONFLICT" then Err RAlreadyExists
  else
    match strip_prefix "OK:" result ≫= parse_signed 32 with
    | None => Err RInternal
    | Some state => if (0 <=? state)%Z && (state <=? 3)%Z then Ok state else Err RInternal
    end.

Definition with_state (version : WeightVersion) (state : Z) : WeightVersion :=
  MkWeightVersion (wv_uid version) (wv_model_name version) (wv_idempotency_key version)
    (wv_payload_format version) (wv_base_version_id version) (wv_layout_signature version) state
    (wv_created_at version) (wv_object_storage version) (wv_trainer_mesh_id version)
    (wv_version_number version) (wv_trainer_mesh_generation version).

Definition create_weight_version_shard (shard : WeightVersionShard)
    : prog DB (RefitResult (WeightVersionShard * WeightVersion)) :=
  try! version := get_weight_version (wvs_version_id shard) in
  Call (create_shard_run (wvs_version_id shard) (default "" (wv_trainer_mesh_id version))
          (shard_script_args shard (wv_model_name version))) (fun result =>
    Ret (match result with
         | None => Err RInternal
         | Some result =>
             let? state := publication_state result in Ok (shard, with_state version state)
         end)).

(** Decoding stops at the first malformed publication. *)
Fixpoint decode_shards (encoded : list string) : RefitResult (list WeightVersionShard) :=
  match encoded with
  | [] => Ok []
  | bytes :: encoded' =>
      match decode_shard bytes with
      | None => Err RInternal
      | Some shard => let? shards := decode_shards encoded' in Ok (shard :: shards)
      end
  end.

Definition in_mesh (mesh : TrainerMesh) (shard : WeightVersionShard) : bool :=
  match tm_workers mesh !! wvs_worker_id shard with
  | None => false
  | Some m => String.eqb (tm_logical_shard_id m) (wvs_logical_shard_id shard) &&
              String.eqb (tm_metadata_endpoint m) (wvs_metadata_endpoint shard)
  end.

(** One [HGET] of the registered endpoint per publication. *)
Fixpoint read_endpoints {A} (shards : list WeightVersionShard) (k : list (option string) -> prog DB A)
    : prog DB A :=
  match shards with
  | [] => k []
  | shard :: shards' =>
      Read (hget (refit_worker_key (wvs_worker_id shard)) "refit_endpoint") (fun e =>
        read_endpoints shards' (fun es => k (e :: es)))
  end.

Definition live_shard (mesh : TrainerMesh) (shard : WeightVersionShard) (endpoint : option string) : bool :=
  match tm_workers mesh !! wvs_worker_id shard with
  | None => false
  | Some m => bool_decide (endpoint = Some (tm_metadata_endpoint m))
  end.

Definition shard_leb (a b : WeightVersionShard) : bool :=
  if String.eqb (wvs_logical_shard_id a) (wvs_logical_shard_id b)
  then String.leb (wvs_worker_id a) (wvs_worker_id b)
  else String.leb (wvs_logical_shard_id a) (wvs_logical_shard_id b).

Definition list_weight_version_shards (version_id : string)
    : prog DB (RefitResult (list WeightVersionShard)) :=
  try! version := get_weight_version version_id in
  Read (hvals (shards_key version_id)) (fun encoded =>
    match decode_shards encoded with
    | Err e => Ret (Err e)
    | Ok shards =>
        match wv_trainer_mesh_id version with
        | None => Ret (Ok (sort_by shard_leb shards))
        | Some mesh_id =>
            try! mesh := get_trainer_mesh mesh_id in
            let shards := filter (fun s => in_mesh mesh s = true) shards in
            read_endpoints shards (fun endpoints =>
              Ret (Ok (sort_by shard_leb
                (fst <$> filter (fun e => live_shard mesh e.1 e.2 = true) (zip shards endpoints)))))
        end
    end).

Definition delete_weight_version_shard (version_id shard_id worker_id : string) (now : Z)
    : prog DB (RefitResult bool) :=
  Read (hget (shards_key version_id) (publication_key worker_id shard_id)) (fun encoded =>
    match encoded with
    | None => Ret (Err RNotFound)
    | Some encoded =>
        match decode_shard encoded with
        | None => Ret (Err RInternal)
        | Some shard =>
            if negb (String.eqb (wvs_worker_id shard) worker_id) then Ret (Err RFailedPrecondition)
            else Call (delete_shard_run version_id worker_id shard_id encoded now) (fun result =>
              Ret (if String.eqb result "DELETED" then Ok true
                   else if String.eqb result "VERSION_NOT_FOUND" then Err RNotFound
                   else if String.eqb result "WORKER_NOT_FOUND" then Err RFailedPrecondition
                   else if String.eqb result "SHARD_NOT_FOUND" then Err RNotFound
                   else if String.eqb result "SHARD_CONFLICT" then Err RFailedPrecondition
                   else if String.eqb result "VERSION_LEASED" then Err RFailedPrecondition
                   else Err RInternal))
        end
    end).

Definition register_version_lease (version_id worker_id : string) (ttl_seconds now : Z)
    : prog DB (RefitResult VersionLease) :=
  try! _ := get_weight_version version_id in
  let lease := lease_id version_id worker_id in
  Call (register_lease_run version_id worker_id lease (ttl_ms ttl_seconds) now) (fun result =>
    if starts_with "OK:" result then get_lease version_id lease
    else Ret (if String.eqb result "VERSION_NOT_FOUND" then Err RNotFound
              else if String.eqb result "VERSION_NOT_LEASEABLE" then Err RFailedPrecondition
              else if String.eqb result "WORKER_NOT_FOUND" then Err RFailedPrecondition
              else if String.eqb result "WORKER_NOT_GENERATOR" then Err RFailedPrecondition
              else if String.eqb result "MODEL_MISMATCH" then Err RFailedPrecondition
              else if String.eqb result "LEASE_CONFLICT" then Err RAlreadyExists
              else Err RInternal)).

Definition delete_version_lease (version_id lease_id worker_id : string)
    : prog DB (RefitResult bool) :=
  Call (delete_lease_run version_id lease_id worker_id) (fun result =>
    Ret (if String.eqb result "DELETED" then Ok true
         else if String.eqb result "NOT_FOUND" then Ok false
         else if String.eqb result "LEASE_CONFLICT" then Err RFailedPrecondition
         else Err RInternal)).
End methods.
