(* ===== verification/RefitPublications.v ===== *)
(** * Publications, as the backend lists them

    A publication's key determines its worker and its logical shard; every stored
    publication decodes to a message that agrees with its key and with the endpoint
    index; so the listing of a version at the moment it becomes ready has one live
    publication per logical shard. *)

From Stdlib Require Import ZArith Lia Ascii String.
From stdpp Require Import base tactics option list gmap fin_maps fin_map_dom fin_sets strings.
From S2P Require Import Prelude RustStr RedisStore RedisServer RedisProg CollectiveEffects.
From S2P Require Import CollectiveBackend CollectiveText RefitScripts RefitMachine RefitEffects.
From S2P Require Import RefitTheorems RefitBackend.

Lemma append_inj_length (a b c d : string) :
  String.length a = String.length c -> a +:+ b = c +:+ d -> a = c ∧ b = d.
Proof.
  revert c. induction a as [|x a IH]; intros [|y c] Hl Heq; simpl in *; try done.
  injection Heq as -> Heq. apply IH in Heq as [-> ->]; [done|]. lia.
Qed.

(** The length prefix makes the pair of worker and shard unambiguous. *)
Lemma publication_key_inj w s w' s' :
  publication_key w s = publication_key w' s' -> w = w' ∧ s = s'.
Proof.
  unfold publication_key. intros Heq.
  assert (split_once ":" (decimal (Z.of_nat (String.length w)) +:+ String ":" (w +:+ s)) =
          split_once ":" (decimal (Z.of_nat (String.length w')) +:+ String ":" (w' +:+ s'))) as Hs by by f_equal.
  rewrite !split_once_app in Hs by by apply decimal_no. injection Hs as Hl Hr.
  apply decimal_inj in Hl; [|lia..]. apply append_inj_length in Hr; [done|]. lia.
Qed.

Section publications.
Context {DB : Type} `{RedisServer DB, !RedisStoreLaws DB, !RedisServerLaws DB}.
Context `{LuaNumbers, !LuaNumbersLaws} `{LuaConcat} `{HashIter, !HashIterLaws}.
Context `{MeshJson, !MeshJsonLaws} `{ShardCodec}.
Implicit Types db : DB.

Definition pub_ok (v k x : string) db : Prop :=
  ∃ s, decode_shard x = Some s ∧ k = publication_key (wvs_worker_id s) (wvs_logical_shard_id s) ∧
       hget (publication_endpoints_key v) k db = Some (wvs_metadata_endpoint s).

Definition pubs_ok db : Prop :=
  forall v k x, hget (shards_key v) k db = Some x -> pub_ok v k x db.

(** Publications of the new state are old ones whose endpoint stayed. *)
Lemma pubs_ok_sub db db' :
  pubs_ok db ->
  (forall v k, hget (shards_key v) k db' = None ∨
     (hget (shards_key v) k db' = hget (shards_key v) k db ∧
      hget (publication_endpoints_key v) k db' = hget (publication_endpoints_key v) k db)) ->
  pubs_ok db'.
Proof.
  intros Hok Hsub v k x Hx. destruct (Hsub v k) as [Hn|[Hs He]]; [congruence|].
  unfold pub_ok. rewrite He. apply Hok. congruence.
Qed.

Lemma delete_shard_pairs v0 w s enc now db v k :
  let db' := (delete_shard_run v0 w s enc now db).1 in
  hget (shards_key v) k db' = None ∨
  (hget (shards_key v) k db' = hget (shards_key v) k db ∧
   hget (publication_endpoints_key v) k db' = hget (publication_endpoints_key v) k db).
Proof.
  cbn zeta. unfold delete_shard_run, DELETE_SHARD_LUA. repeat case_match; simplify_eq; cbn [fst];
    autorewrite with redis; try by right.
  destruct (decide (v = v0 ∧ k = publication_key w s)) as [[-> ->]|Hne].
  - left. rewrite !hget_hdel. destruct (decide _); [done|]. by rewrite decide_True.
  - right. rewrite !hget_hdel, !hget_zremrange. split.
    + destruct (decide _) as [[Hk _]|_]; [exfalso; refit_ne|]. rewrite decide_False; [done|].
      intros [Hk ->]. apply shards_key_inj in Hk as ->. by apply Hne.
    + destruct (decide _) as [[Hk ->]|_].
      * exfalso. apply endpoints_key_inj in Hk as ->. by apply Hne.
      * rewrite decide_False; [done|]. intros [Hk _]. refit_ne.
Qed.

Lemma create_shard_pubs v M A db : shard_args_ok A -> pubs_ok db -> pubs_ok (create_shard_run v M A db).1.
Proof.
  intros HA Hok. destruct (create_shard_cases v M A db HA) as [->|Hacc]; [done|].
  intros v' k x Hx. destruct (decide (v' = v)) as [->|Hne].
  - rewrite (accepted_view _ _ _ _ _ _ _ Hacc), publish_writes_shards in Hx by refit_ne.
    unfold pub_ok. rewrite (accepted_view _ _ _ _ _ _ _ Hacc), publish_writes_endpoints by refit_ne.
    case_decide as Hk; [|by apply Hok]. simplify_eq.
    destruct (so_encoded _ HA) as (s & Hs & Hw & Hl & He). exists s.
    by rewrite He, Hw, Hl, (so_key _ HA).
  - unfold pub_ok.
    assert (hget (publication_endpoints_key v') k (create_shard_run v M A db).1 =
      hget (publication_endpoints_key v') k db) as -> by frame_step.
    apply Hok. rewrite <- Hx. symmetry. frame_step.
Qed.

Lemma step_pubs_ok now db db' : refit_step now db db' -> pubs_ok db -> pubs_ok db'.
Proof.
  intros Hs Hok.
  destruct Hs as [| | | |v0 M A db HA _|v0 w shard enc db| | |M g ws mn db Hg| |];
    try (apply (pubs_ok_sub db); [done|]; intros ??; right; split; frame_step).
  - by apply create_shard_pubs.
  - apply (pubs_ok_sub db); [done|]. intros v k. apply delete_shard_pairs.
  - apply (pubs_ok_sub db); [done|]. intros v k.
    destruct (update_mesh_cases M g ws mn now db Hg) as [Hp|Hp].
    + right. split; same_view (pg_touches _ _ _ _ Hp).
    + apply (mu_pairs _ _ _ _ _ _ Hp).
Qed.

Lemma steps_pubs_ok db db' : refit_steps db db' -> pubs_ok db -> pubs_ok db'.
Proof. induction 1 as [|db1 db2 db3 [now Hs] _ IH]; eauto using step_pubs_ok. Qed.

(** ** The listing *)

Lemma exec_read_endpoints {A} shards (k : list (option string) -> prog DB A) db :
  exec (read_endpoints shards k) db =
  exec (k ((fun s => hget (refit_worker_key (wvs_worker_id s)) "refit_endpoint" db) <$> shards)) db.
Proof. revert k. induction shards as [|s shards IH]; intros k; cbn; [done|]. by rewrite IH. Qed.

Lemma decode_shards_ok encoded :
  (forall x, x ∈ encoded -> is_Some (decode_shard x)) ->
  ∃ shards, decode_shards encoded = Ok shards ∧
    forall s, s ∈ shards ↔ ∃ x, x ∈ encoded ∧ decode_shard x = Some s.
Proof.
  induction encoded as [|x xs IH]; intros Hall.
  - exists []. split; [done|]. intros s. set_solver.
  - destruct (Hall x) as [s Hs]; [set_solver|]. destruct IH as (shards & Hd & Hin); [set_solver|].
    exists (s :: shards). cbn [decode_shards]. rewrite Hs, Hd. split; [done|].
    intros s'. rewrite elem_of_cons, Hin. split.
    + intros [->|(y & Hy & Hs')]; [exists x|exists y]; set_solver.
    + intros (y & [->|Hy]%elem_of_cons & Hs'); [left; congruence|right; eauto].
Qed.

Lemma decode_metadata_fields m : decode_metadata (metadata_fields m) = Ok m.
Proof.
  destruct m as [ls ep]. unfold decode_metadata, metadata_fields, hash_field.
  by rewrite lookup_insert_eq, lookup_insert_ne, lookup_singleton_eq by done.
Qed.

Lemma collect_workers_ok (es : list (string * TrainerTensorsMetadata)) :
  collect_workers ((fun e => (e.1, metadata_fields e.2)) <$> es) = Ok (list_to_map es).
Proof.
  induction es as [|[w m] es IH]; [done|]. rewrite fmap_cons. cbn [collect_workers fst snd].
  by rewrite decode_metadata_fields, IH.
Qed.

(** What the backend writes for the workers of a mesh it reads back. *)
Lemma decode_workers_json ws : decode_mesh_workers (workers_json ws) = Ok ws.
Proof.
  unfold decode_mesh_workers. rewrite serde_workers_json.
  pose proof (hash_entries_perm _ (metadata_fields <$> ws)) as Hp.
  rewrite map_to_list_fmap in Hp.
  apply Permutation_map_inv in Hp as (es & Heq & Hp).
  assert (hash_entries (metadata_fields <$> ws) = (fun e => (e.1, metadata_fields e.2)) <$> es) as ->.
  { rewrite Heq. apply map_ext. by intros []. }
  rewrite collect_workers_ok. f_equal. rewrite <- (list_to_map_to_list ws).
  apply list_to_map_proper; [|by symmetry]. rewrite <- Hp. apply NoDup_fst_map_to_list.
Qed.

Lemma mesh_from_record M ws shards g db :
  mesh_record M ws shards g db ->
  ∃ id mn, mesh_from_hash (hfields (mesh_key M) db) = Ok (MkTrainerMesh id mn g ws).
Proof.
  intros [Hws _ [id Hid] [mn Hmn] _ _ Hg Hr]. exists id, mn.
  unfold mesh_from_hash, parse_hash_field, hash_field. rewrite !hfields_lookup, Hws, Hid, Hmn, Hg.
  rewrite decode_workers_json, parse_unsigned_decimal; [done|].
  unfold lua_int_max, u64_max in *. lia.
Qed.

Lemma get_mesh_exec M ws shards g db :
  mesh_record M ws shards g db ->
  ∃ id mn, exec (get_trainer_mesh M) db = (db, Ok (MkTrainerMesh id mn g ws)).
Proof.
  intros Hr. destruct (mesh_from_record _ _ _ _ _ Hr) as (id & mn & Hm). exists id, mn.
  cbn. rewrite Hm, bool_decide_eq_false_2; [done|]. intros He.
  destruct Hr as [Hws _ _ _ _ _ _ _]. by rewrite <- hfields_lookup, He in Hws.
Qed.

Lemma version_mesh_id fields ver :
  version_from_hash fields = Ok ver ->
  wv_trainer_mesh_id ver = nonempty_field fields "trainer_mesh_id".
Proof. unfold version_from_hash. intros Hv. repeat case_match; by simplify_eq. Qed.

Lemma get_version_exec v ver db :
  version_from_hash (hfields (version_key v) db) = Ok ver ->
  exec (get_weight_version v) db = (db, Ok ver).
Proof.
  intros Hver. unfold get_weight_version, get_version_fields, Read. cbn [bind exec].
  rewrite bool_decide_eq_false_2; [cbn; by rewrite Hver|]. intros He. by rewrite He in Hver.
Qed.

(** The listing of a version whose record can be read, in a well-formed state. *)
Lemma listing_exec v ver M ws shards g db :
  pubs_ok db -> version_from_hash (hfields (version_key v) db) = Ok ver ->
  mesh_record M ws shards g db -> (wv_trainer_mesh_id ver = Some M ∨ wv_trainer_mesh_id ver = None) ->
  ∃ listed, exec (list_weight_version_shards v) db = (db, Ok listed) ∧
    forall k x s, hget (shards_key v) k db = Some x -> decode_shard x = Some s ->
      ws !! wvs_worker_id s = Some (MkTensorsMetadata (wvs_logical_shard_id s) (wvs_metadata_endpoint s)) ->
      hget (refit_worker_key (wvs_worker_id s)) "refit_endpoint" db = Some (wvs_metadata_endpoint s) ->
      s ∈ listed.
Proof.
  intros Hok Hver Hr Hmesh.
  destruct (decode_shards_ok (hvals (shards_key v) db)) as (stored & Hd & Hin).
  { intros x (k & Hx)%elem_of_hvals. destruct (Hok _ _ _ Hx) as (s & Hs & _). by rewrite Hs. }
  assert (forall k x s, hget (shards_key v) k db = Some x -> decode_shard x = Some s -> s ∈ stored)
    as Hstored.
  { intros k x s Hx Hs. apply Hin. exists x. split; [|done]. apply elem_of_hvals. eauto. }
  unfold list_weight_version_shards. rewrite exec_bind, (get_version_exec _ _ _ Hver).
  cbn [fst snd exec Read].
  rewrite Hd. destruct Hmesh as [->| ->].
  - destruct (get_mesh_exec _ _ _ _ _ Hr) as (id & mn & Hm). rewrite exec_bind, Hm. cbn [fst snd].
    rewrite exec_read_endpoints. eexists. split; [done|].
    intros k x s Hx Hs Hw He. rewrite sort_by_perm, list_elem_of_fmap.
    exists (s, hget (refit_worker_key (wvs_worker_id s)) "refit_endpoint" db). split; [done|].
    apply list_elem_of_filter. unfold live_shard. cbn [tm_workers fst snd]. rewrite Hw, He.
    split; [by rewrite bool_decide_eq_true_2|].
    rewrite zip_with_fmap_r, zip_with_diag. apply list_elem_of_fmap. exists s. rewrite He.
    split; [done|]. apply list_elem_of_filter. split; [|by eapply Hstored].
    unfold in_mesh. cbn [tm_workers]. by rewrite Hw, !String.eqb_refl.
  - eexists. split; [done|]. intros k x s Hx Hs _ _. rewrite sort_by_perm. by eapply Hstored.
Qed.

(** C15: the publication that makes a version READY leaves it complete for a reader:
    listing its publications right then succeeds and, for every logical shard of the
    trainer mesh, contains a publication whose worker is registered at the endpoint
    that the publication names. *)
Theorem ready_listed db0 db now db' v ver :
  mesh_wf db0 -> pubs_ok db0 -> refit_steps db0 db -> refit_step now db db' ->
  hget (version_key v) "state" db = Some STAGING -> hget (version_key v) "state" db' = Some READY ->
  default "" (hget (version_key v) "s3_uri" db) = "" ->
  version_from_hash (hfields (version_key v) db') = Ok ver ->
  ∃ M ws shards g listed,
    hget (version_key v) "trainer_mesh_id" db = Some M ∧ mesh_record M ws shards g db' ∧
    exec (list_weight_version_shards v) db' = (db', Ok listed) ∧
    forall s, s ∈ shards -> ∃ p, p ∈ listed ∧ wvs_logical_shard_id p = s ∧
      hget (refit_worker_key (wvs_worker_id p)) "refit_endpoint" db' = Some (wvs_metadata_endpoint p).
Proof.
  intros Hwf0 Hok0 Hrun Hs Hst Hst' Hs3 Hver.
  pose proof (steps_mesh_wf _ _ Hrun Hwf0) as Hwf.
  pose proof (step_pubs_ok _ _ _ Hs (steps_pubs_ok _ _ Hrun Hok0)) as Hok.
  destruct (step_ready_covered now db db' v Hwf Hs Hst Hst')
    as [Hs3'|(M & ws & shards & g & HM & _ & Hr & Hcov)]; [done|].
  assert (wv_trainer_mesh_id ver = Some M ∨ wv_trainer_mesh_id ver = None) as Hmid.
  { destruct (step_advances now _ _ v "trainer_mesh_id" Hs _ HM) as (y & Hy & ->).
    rewrite (version_mesh_id _ _ Hver). unfold nonempty_field. rewrite hfields_lookup, Hy. cbn.
    case_match; auto. }
  destruct (listing_exec v ver M ws shards g db' Hok Hver Hr Hmid) as (listed & Hlist & Hmem).
  exists M, ws, shards, g, listed. split_and!; [done..|].
  intros s Hs'. destruct (Hcov s Hs') as (w & ep & Hw & [x Hx] & Hep & Hreg & _).
  destruct (Hok _ _ _ Hx) as (p & Hp & [-> ->]%publication_key_inj & Hpe).
  rewrite Hpe in Hep. simplify_eq. exists p. split_and!; [|done..]. by eapply Hmem.
Qed.
End publications.
