(* ===== verification/RefitVersions.v ===== *)
(** * Creating a version through the backend

    The record that the creation script writes reads back as the message of the
    request, and a repeated request finds it, whatever happened in between. *)

From Stdlib Require Import ZArith Lia Ascii String.
From stdpp Require Import base tactics option list gmap fin_maps fin_map_dom fin_sets strings.
From S2P Require Import Prelude RustStr RedisStore RedisServer RedisProg CollectiveEffects.
From S2P Require Import CollectiveBackend CollectiveText RefitScripts RefitMachine RefitEffects.
From S2P Require Import RefitTheorems RefitBackend.

Lemma parse_signed_decimal bits z :
  (1 < bits)%Z -> (- 2 ^ (bits - 1) <= z <= 2 ^ (bits - 1) - 1)%Z ->
  parse_signed bits (signed_decimal z) = Some z.
Proof.
  intros Hb Hz. unfold parse_signed, signed_decimal. destruct (Z.ltb_spec z 0) as [Hneg|Hpos].
  - rewrite strip_prefix_app. pose proof (parse_decimal (- z) ltac:(lia)) as Hp.
    destruct (str_is_empty (decimal (- z))); [done|]. rewrite Hp. cbn [mbind option_bind].
    rewrite (proj2 (Z.leb_le _ _)) by lia. f_equal. lia.
  - rewrite (strip_no_prefix "-") by done. apply parse_unsigned_decimal. lia.
Qed.

(** An absent value is stored as the empty string. *)
Lemma optional_text (o : option string) :
  o ≠ Some "" -> (if str_is_empty (default "" o) then None else Some (default "" o)) = o.
Proof. destruct o as [[|c s]|]; done. Qed.

Lemma signed_decimal_nonempty z : str_is_empty (signed_decimal z) = false.
Proof.
  unfold signed_decimal. case_match; [done|]. destruct (decimal z) eqn:E; [|done].
  by destruct (decimal_ne_empty z).
Qed.

(** The fields of a version's record that never change. *)
Definition frozen_fields (request : CreateWeightVersionRequest) (uid : string) (created_at g : Z)
    : list (string * string) :=
  [("uid", uid); ("model_name", cvr_model_name request);
   ("idempotency_key", cvr_idempotency_key request);
   ("payload_format", signed_decimal (cvr_payload_format request));
   ("base_version_id", default "" (cvr_base_version_id request));
   ("s3_uri", from_option os_uri "" (cvr_object_storage request));
   ("initial_state", signed_decimal (cvr_state request)); ("layout_signature", "");
   ("created_at_unix_ms", decimal created_at);
   ("trainer_mesh_id", default "" (cvr_trainer_mesh_id request));
   ("trainer_mesh_generation", decimal g);
   ("version_number", from_option signed_decimal "" (cvr_version_number request))].

(** The version that a request describes. *)
Definition version_message (request : CreateWeightVersionRequest) (uid : string)
    (created_at g state : Z) : WeightVersion :=
  MkWeightVersion uid (cvr_model_name request) (cvr_idempotency_key request)
    (cvr_payload_format request) (cvr_base_version_id request) "" state created_at
    (cvr_object_storage request) (cvr_trainer_mesh_id request) (cvr_version_number request) g.

(** What the service checked, and the widths of the message's fields. *)
Record version_request_ok (request : CreateWeightVersionRequest) : Prop := {
  ro_state : cvr_state request = 1%Z ∨ cvr_state request = 2%Z;
  ro_payload : (- 2 ^ 31 <= cvr_payload_format request <= 2 ^ 31 - 1)%Z;
  ro_base : cvr_base_version_id request ≠ Some "";
  ro_mesh : cvr_trainer_mesh_id request ≠ Some "";
  ro_storage : forall o, cvr_object_storage request = Some o -> os_uri o ≠ "" ∧ os_storage_type o = S3;
  ro_number : forall z, cvr_version_number request = Some z -> (- 2 ^ 63 <= z <= 2 ^ 63 - 1)%Z;
  ro_uid : cvr_uid request ≠ Some ""
}.

Section versions.
Context {DB : Type} `{RedisServer DB, !RedisStoreLaws DB, !RedisServerLaws DB}.
Context `{LuaNumbers, !LuaNumbersLaws} `{LuaConcat} `{HashIter, !HashIterLaws}.
Context `{MeshJson, !MeshJsonLaws} `{ShardCodec}.
Implicit Types db : DB.

Definition stored (v : string) (fvs : list (string * string)) db : Prop :=
  Forall (fun fv => hget (version_key v) fv.1 db = Some fv.2) fvs.

Lemma stored_message request uid t g st db :
  version_request_ok request -> (0 <= t <= u64_max)%Z -> (0 <= g <= u64_max)%Z ->
  stored uid (frozen_fields request uid t g) db ->
  hget (version_key uid) "state" db = Some (decimal st) -> (0 <= st <= 2 ^ 31 - 1)%Z ->
  version_from_hash (hfields (version_key uid) db) = Ok (version_message request uid t g st).
Proof.
  intros [Hs Hp Hb Hm Ho Hn _] Ht Hg Hst Hstate Hst3.
  unfold stored, frozen_fields in Hst.
  repeat (apply Forall_cons in Hst as [?Hf Hst]). cbn [fst snd] in *. clear Hst.
  assert (decimal st = signed_decimal st) as Hds.
  { unfold signed_decimal. by rewrite (proj2 (Z.ltb_ge _ _)) by lia. }
  unfold version_from_hash, parse_hash_field, hash_field, nonempty_field.
  rewrite !hfields_lookup.
  repeat match goal with Hf : hget _ ?f db = _ |- context [hget _ ?f db] => rewrite Hf end.
  rewrite Hds, !(parse_signed_decimal 32), !parse_unsigned_decimal by lia.
  unfold version_message. cbn [mbind option_bind]. rewrite !optional_text by done.
  assert ((fun uri => MkObjectStorageSource uri S3) <$>
    (if str_is_empty (from_option os_uri "" (cvr_object_storage request)) then None
     else Some (from_option os_uri "" (cvr_object_storage request))) = cvr_object_storage request) as ->.
  { destruct (cvr_object_storage request) as [[uri ty]|]; [|done].
    destruct (Ho _ eq_refl) as [Hu Hty]. cbn in *. subst. by destruct uri. }
  destruct (cvr_version_number request) as [z|]; cbn [from_option]; [|done].
  rewrite signed_decimal_nonempty, (parse_signed_decimal 64); [done|lia|]. by apply Hn.
Qed.

(** The record right after its creation. *)
Lemma created_stored request uid t db db1 :
  version_request_ok request -> mesh_wf db ->
  create_version_run (version_script_args request uid t) db = (db1, "CREATED") ->
  ∃ g, (0 <= g <= u64_max)%Z ∧ stored uid (frozen_fields request uid t g) db1 ∧
    hget (version_key uid) "state" db1 = Some (decimal (cvr_state request)) ∧
    str_get (idempotency_key (cvr_model_name request) (cvr_idempotency_key request)) db1 = Some uid.
Proof.
  intros Hok Hwf. unfold create_version_run, CREATE_VERSION_LUA.
  case_match; [done|]. case_match; [done|].
  destruct (version_generation _ _ db) as [gt|e] eqn:Hgen.
  2:{ intros Hc. unfold version_generation in Hgen. repeat case_match; simplify_eq. }
  intros Hc. apply (f_equal fst) in Hc. cbn [fst] in Hc. subst db1.
  assert (∃ g, gt = decimal g ∧ (0 <= g <= u64_max)%Z) as (g & -> & Hg).
  { unfold version_generation in Hgen. cbn [version_script_args va_trainer_mesh_id va_model_name] in Hgen.
    case_match; [exists 0%Z; by simplify_eq|]. case_match eqn:Hex; [done|]. case_match; [done|].
    apply negb_false_iff in Hex. destruct (Hwf _ Hex) as (ws & sh & g & Hr).
    rewrite (mr_generation _ _ _ _ _ Hr) in Hgen. case_match; [done|]. simplify_eq.
    exists g. pose proof (mr_range _ _ _ _ _ Hr). unfold lua_int_max, u64_max in *. split; [done|lia]. }
  unfold version_script_args.
  cbn [va_uid va_model_name va_idempotency_key va_payload_format va_base_version_id va_s3_uri
    va_initial_state va_state va_created_at va_trainer_mesh_id va_version_number].
  exists g. split; [done|]. rewrite str_get_set, decide_True by done. split_and!; [| |done].
  - unfold stored, frozen_fields. rewrite !Forall_cons, Forall_nil.
    case_match; autorewrite with redis; by rewrite !hget_hset_all.
  - assert (signed_decimal (cvr_state request) = decimal (cvr_state request)) as <-.
    { by destruct (ro_state _ Hok) as [-> | ->]. }
    case_match; autorewrite with redis; by rewrite !hget_hset_all.
Qed.

(** ... and after any operations. *)
Lemma stored_kept request uid t g db db' :
  refit_steps db db' -> stored uid (frozen_fields request uid t g) db ->
  stored uid (frozen_fields request uid t g) db'.
Proof.
  intros Hr Hst. unfold stored in *. rewrite Forall_forall in *.
  intros [f x] Hin. specialize (Hst _ Hin) as Hx. cbn [fst snd] in *.
  destruct (steps_advance _ _ uid f Hr x Hx) as (y & Hy & Heq).
  rewrite decide_False in Heq; [congruence|]. intros ->. unfold frozen_fields in Hin.
  repeat (apply elem_of_cons in Hin as [[= ]|Hin]). by apply not_elem_of_nil in Hin.
Qed.

Lemma state_kept uid s db db' :
  refit_steps db db' -> (s = 1 ∨ s = 2)%Z -> hget (version_key uid) "state" db = Some (decimal s) ->
  ∃ s', (s <= s' <= 3)%Z ∧ hget (version_key uid) "state" db' = Some (decimal s').
Proof.
  intros Hr Hs Hst. destruct (steps_advance _ _ uid "state" Hr _ Hst) as (y & Hy & Hn).
  rewrite decide_True in Hn by done. rewrite Hy. unfold state_next, READY, RELEASING in Hn.
  destruct Hn as [<-|[[_ [-> | ->]]|[_ ->]]]; [exists s|exists 2%Z|exists 3%Z..]; split; auto; lia.
Qed.

(** Creating a version and asking again, after any operations, with the same request,
    is answered with the version of the first request, in the state that it has reached. *)
Lemma backend_version_retry request uid t db db1 db2 fresh clock :
  version_request_ok request -> mesh_wf db -> (0 <= t <= u64_max)%Z ->
  (cvr_uid request = None ∨ cvr_uid request = Some uid) ->
  create_version_run (version_script_args request uid t) db = (db1, "CREATED") ->
  refit_steps db1 db2 ->
  ∃ g state, (cvr_state request <= state <= 3)%Z ∧
    exec (create_weight_version fresh clock request) db2 =
    (db2, Ok (version_message request uid t g state)).
Proof.
  intros Hok Hwf Ht Huid Hc Hr.
  destruct (created_stored _ _ _ _ _ Hok Hwf Hc) as (g & Hg & Hst & Hstate & Hreq).
  destruct (state_kept _ _ _ _ Hr (ro_state _ Hok) Hstate) as (st & Hst3 & Hstate2).
  assert (0 <= st <= 2 ^ 31 - 1)%Z as Hrange by (destruct (ro_state _ Hok); lia).
  pose proof (stored_kept _ _ _ _ _ _ Hr Hst) as Hst2.
  pose proof (stored_message _ _ _ _ _ _ Hok Ht Hg Hst2 Hstate2 Hrange) as Hmsg.
  pose proof (request_kept_steps _ _ _ _ _ Hr Hreq) as Hreq2.
  assert (hfields (version_key uid) db2 !! "initial_state" = Some (signed_decimal (cvr_state request)))
    as Hinit.
  { rewrite hfields_lookup. unfold stored in Hst2. rewrite Forall_forall in Hst2.
    apply (Hst2 ("initial_state", _)). unfold frozen_fields. set_solver. }
  exists g, st. split; [lia|]. unfold create_weight_version.
  assert (forall d ds, exec (create_version_attempts request (d :: ds)) db2 =
    (db2, Ok (version_message request uid t g st))) as Hgo.
  { intros [u0 t0] ds. cbn [create_version_attempts exec]. unfold create_version_run, CREATE_VERSION_LUA.
    cbn [version_script_args va_model_name va_idempotency_key]. rewrite Hreq2.
    change ("EXISTING:" +:+ uid =? "CREATED")%string with false. cbv iota.
    rewrite strip_prefix_app.
    assert (match cvr_uid request with Some u => negb (u =? uid)%string | None => false end = false)
      as ->.
    { destruct Huid as [-> | ->]; [done|]. by rewrite String.eqb_refl. }
    unfold get_version_fields, Read. cbn [bind exec].
    rewrite bool_decide_eq_false_2; [|intros He; by rewrite He in Hmsg]. cbn [bind exec].
    unfold replayed_version. rewrite Hinit, (parse_signed_decimal 32), Hmsg by (destruct (ro_state _ Hok); lia).
    unfold same_version, version_message. cbn.
    by rewrite String.eqb_refl, !Z.eqb_refl, !bool_decide_eq_true_2. }
  destruct Huid as [-> | ->]; apply Hgo.
Qed.
End versions.
