(* ===== verification/RefitService.v ===== *)
(** * The refit gRPC service (refit/service.rs, refit/coverage.rs)

    Validation of every request, the check of a worker's bound tensor coverage, and
    the handlers over the interface [RefitOps] that the backend implements.  A
    handler answers the first failed check; otherwise it calls the backend and maps
    its error to a status.  Parameters: the call to a worker's metadata endpoint,
    serde_json on a manifest, SHA-256, and the order in which concurrent checks
    complete. *)

From Stdlib Require Import ZArith Lia Ascii String.
From stdpp Require Import base tactics option list gmap fin_maps fin_map_dom fin_sets strings.
From S2P Require Import Prelude RustStr RedisStore RedisServer RedisProg CollectiveBackend.
From S2P Require Import RefitScripts RefitMachine RefitEffects RefitTheorems RefitBackend RefitVersions.

(** The gRPC status codes that the handlers answer. *)
Inductive RefitStatus : Type :=
| RsInvalidArgument | RsNotFound | RsFailedPrecondition | RsAlreadyExists | RsResourceExhausted
| RsInternal | RsUnavailable.

#[export] Instance RefitStatus_eq_dec : EqDecision RefitStatus.
Proof. solve_decision. Defined.

Definition rs_result (A : Type) : Type := result A RefitStatus.

(** ** Validation *)

Definition required (value : string) : rs_result unit :=
  if str_is_empty (trim value) then Err RsInvalidArgument else Ok ().

Definition validate_ttl (ttl_seconds : Z) : rs_result unit :=
  if (ttl_seconds =? 0)%Z then Err RsInvalidArgument else Ok ().

Fixpoint check_members (members : list (string * TrainerTensorsMetadata)) : rs_result unit :=
  match members with
  | [] => Ok ()
  | (worker_id, m) :: members' =>
      let? _ := required worker_id in
      let? _ := required (tm_logical_shard_id m) in
      let? _ := required (tm_metadata_endpoint m) in
      check_members members'
  end.

Definition validate_mesh_members `{HashIter} (workers : mesh_workers) : rs_result unit :=
  if bool_decide (workers = ∅) then Err RsInvalidArgument else check_members (hash_entries workers).

Definition validate_s3_uri (uri : string) : rs_result unit :=
  if contains_char "?" uri || contains_char "#" uri then Err RsInvalidArgument
  else
    match strip_prefix "s3://" uri with
    | None => Err RsInvalidArgument
    | Some location =>
        match split_once "/" location with
        | None => Err RsInvalidArgument
        | Some (bucket, key) =>
            if str_is_empty (trim bucket) || str_is_empty (trim key) || starts_with "/" key
            then Err RsInvalidArgument else Ok ()
        end
    end.

Inductive WeightPayloadFormat : Type :=
| PayloadUnspecified | FullTensor | XorDelta | FullHfCheckpoint.
Inductive WeightVersionState : Type := StateUnspecified | Staging | Ready | Releasing.
Inductive ObjectStorageType : Type := StorageUnspecified | StorageS3 | StorageAzure | StorageGcs.
Inductive WorkerRole : Type := RoleUnspecified | RoleTrainer | RoleGenerator.

(** [try_from(..).unwrap_or(Unspecified)]. *)
Definition payload_format_of (z : Z) : WeightPayloadFormat :=
  match z with 1 => FullTensor | 2 => XorDelta | 3 => FullHfCheckpoint | _ => PayloadUnspecified end%Z.
Definition version_state_of (z : Z) : WeightVersionState :=
  match z with 1 => Staging | 2 => Ready | 3 => Releasing | _ => StateUnspecified end%Z.
Definition storage_type_of (z : Z) : ObjectStorageType :=
  match z with 1 => StorageS3 | 2 => StorageAzure | 3 => StorageGcs | _ => StorageUnspecified end%Z.
Definition worker_role_of (z : Z) : WorkerRole :=
  match z with 1 => RoleTrainer | 2 => RoleGenerator | _ => RoleUnspecified end%Z.

Definition is_s3 (source : ObjectStorageSource) : bool :=
  match storage_type_of (os_storage_type source) with StorageS3 => true | _ => false end.

Definition validate_payload_format (request : CreateWeightVersionRequest)
    : rs_result WeightPayloadFormat :=
  let has_base := bool_decide (is_Some (cvr_base_version_id request)) in
  match payload_format_of (cvr_payload_format request) with
  | FullTensor => if has_base then Err RsInvalidArgument else Ok FullTensor
  | XorDelta => if has_base then Ok XorDelta else Err RsInvalidArgument
  | FullHfCheckpoint =>
      if has_base then Err RsInvalidArgument
      else if from_option is_s3 false (cvr_object_storage request) then Ok FullHfCheckpoint
      else Err RsInvalidArgument
  | PayloadUnspecified => Err RsInvalidArgument
  end.

Definition optional_required (value : option string) : rs_result unit :=
  match value with Some v => required v | None => Ok () end.

Definition validate_publication (request : CreateWeightVersionRequest) : rs_result unit :=
  let? _ := optional_required (cvr_uid request) in
  let? _ := optional_required (cvr_trainer_mesh_id request) in
  let state := version_state_of (cvr_state request) in
  match cvr_object_storage request with
  | Some source =>
      if negb (is_s3 source) then Err RsInvalidArgument
      else
        let? _ := required (os_uri source) in
        let? _ := validate_s3_uri (os_uri source) in
        if bool_decide (is_Some (cvr_trainer_mesh_id request)) then Err RsInvalidArgument
        else match state with Staging | Ready => Ok () | _ => Err RsInvalidArgument end
  | None =>
      match state with
      | Staging =>
          if bool_decide (cvr_trainer_mesh_id request = None) then Err RsInvalidArgument else Ok ()
      | _ => Err RsInvalidArgument
      end
  end.

Definition backend_status (error : RefitBackendError) : RefitStatus :=
  match error with
  | RInvalidArgument => RsInvalidArgument
  | RNotFound => RsNotFound
  | RFailedPrecondition => RsFailedPrecondition
  | RAlreadyExists => RsAlreadyExists
  | RResourceExhausted => RsResourceExhausted
  | RInternal => RsInternal
  | RUnavailable => RsUnavailable
  end.

(** ** Tensor coverage of a binding *)

Record BoxCoverage : Type := MkBoxCoverage {
  bc_shard_offset : list Z;
  bc_shape : list Z
}.

Record TensorCoverage : Type := MkTensorCoverage {
  tc_name : string;
  tc_dtype : string;
  tc_elsize : Z;
  tc_full_shape : list Z;
  tc_shards : list BoxCoverage
}.

Definition checked_mul_u64 (a b : Z) : rs_result Z :=
  if (a * b <=? u64_max)%Z then Ok (a * b)%Z else Err RsInvalidArgument.
Definition checked_add_u64 (a b : Z) : rs_result Z :=
  if (a + b <=? u64_max)%Z then Ok (a + b)%Z else Err RsInvalidArgument.

(** [try_fold] from the left. *)
Fixpoint volume_from (acc : Z) (shape : list Z) : rs_result Z :=
  match shape with
  | [] => Ok acc
  | extent :: shape' =>
      if (extent =? 0)%Z then Err RsInvalidArgument
      else let? v := checked_mul_u64 acc extent in volume_from v shape'
  end.

Definition volume (shape : list Z) : rs_result Z := volume_from 1 shape.

(** Lexicographic order of [Vec<u64>], and of boxes. *)
Fixpoint list_leb (a b : list Z) : bool :=
  match a, b with
  | [], _ => true
  | _, [] => false
  | x :: a', y :: b' => (x <? y)%Z || ((x =? y)%Z && list_leb a' b')
  end.

Definition box_leb (a b : BoxCoverage) : bool :=
  if bool_decide (bc_shard_offset a = bc_shard_offset b) then list_leb (bc_shape a) (bc_shape b)
  else list_leb (bc_shard_offset a) (bc_shard_offset b).

Fixpoint boxes_bytes (elsize total : Z) (boxes : list BoxCoverage) : rs_result Z :=
  match boxes with
  | [] => Ok total
  | b :: boxes' =>
      let? v := volume (bc_shape b) in
      let? bytes := checked_mul_u64 v elsize in
      let? total := checked_add_u64 total bytes in
      boxes_bytes elsize total boxes'
  end.

Definition sort_boxes (t : TensorCoverage) : TensorCoverage :=
  MkTensorCoverage (tc_name t) (tc_dtype t) (tc_elsize t) (tc_full_shape t)
    (sort_by box_leb (tc_shards t)).

Fixpoint total_bytes (total : Z) (ts : list TensorCoverage) : rs_result Z :=
  match ts with
  | [] => Ok total
  | t :: ts' => let? total := boxes_bytes (tc_elsize t) total (tc_shards t) in total_bytes total ts'
  end.

(** serde_json on a manifest: the parser, and the canonical printer. *)
Class ManifestJson := {
  parse_manifest : string -> option (list TensorCoverage);
  canonical_manifest : list TensorCoverage -> string
}.

Definition sha256_hex `{Sha256} (bytes : string) : string := hex_encode (sha256 bytes).

(** The answer of a worker's metadata endpoint: metadata and its digest. *)
Definition validate_binding `{ManifestJson, Sha256}
    (fetch : TrainerTensorsMetadata -> rs_result (string * string)) (m : TrainerTensorsMetadata)
    : rs_result unit :=
  let? answer := fetch m in
  let '(metadata, metadata_digest) := answer in
  if negb (String.eqb metadata_digest (tm_logical_shard_id m)) ||
     negb (String.eqb (sha256_hex metadata) (tm_logical_shard_id m))
  then Err RsInvalidArgument
  else
    match parse_manifest metadata with
    | None => Err RsInvalidArgument
    | Some tensors =>
        let tensors := sort_boxes <$> sort_by (fun a b => String.leb (tc_name a) (tc_name b)) tensors in
        let? _ := total_bytes 0 tensors in
        if negb (String.eqb (sha256_hex (canonical_manifest tensors)) (tm_logical_shard_id m))
        then Err RsInvalidArgument else Ok ()
    end.

(** The checks run concurrently; the first that completes with an error ends them. *)
Class Completion := { completed : forall {A : Type}, list A -> list A }.
Class CompletionLaws `{Completion} : Prop := {
  completed_perm : forall (A : Type) (l : list A), completed l ≡ₚ l
}.

Fixpoint first_error {A} (f : A -> rs_result unit) (l : list A) : rs_result unit :=
  match l with
  | [] => Ok ()
  | x :: l' => let? _ := f x in first_error f l'
  end.

(** ** The backend interface *)

(** The trait [RefitBackend]; the server's clock and what the backend draws are
    arguments of the implementation. *)
Class RefitOps (DB : Type) := {
  be_validate_workers : string -> mesh_workers -> prog DB (RefitResult unit);
  be_create_mesh : CreateTrainerMeshRequest -> prog DB (RefitResult TrainerMesh);
  be_get_mesh : string -> prog DB (RefitResult TrainerMesh);
  be_find_mesh : CreateTrainerMeshRequest -> prog DB (RefitResult (option TrainerMesh));
  be_update_mesh : string -> Z -> mesh_workers -> prog DB (RefitResult TrainerMesh);
  be_delete_mesh : string -> prog DB (RefitResult unit);
  be_register_worker : WorkerRegistration -> Z -> prog DB (RefitResult WorkerRegistration);
  be_create_version : CreateWeightVersionRequest -> prog DB (RefitResult WeightVersion);
  be_get_version : string -> prog DB (RefitResult WeightVersion);
  be_list_versions : string -> option string -> prog DB (RefitResult (list WeightVersion));
  be_delete_version : string -> prog DB (RefitResult WeightVersion);
  be_update_state : string -> Z -> prog DB (RefitResult WeightVersion);
  be_create_shard : WeightVersionShard -> prog DB (RefitResult (WeightVersionShard * WeightVersion));
  be_list_shards : string -> prog DB (RefitResult (list WeightVersionShard));
  be_delete_shard : string -> string -> string -> prog DB (RefitResult bool);
  be_register_lease : string -> string -> Z -> prog DB (RefitResult VersionLease);
  be_delete_lease : string -> string -> string -> prog DB (RefitResult bool)
}.

(** The Redis implementation at a moment of the server's clock. *)
Definition redis_refit {DB} `{RedisServer DB} `{LuaNumbers} `{LuaConcat} `{HashIter} `{MeshJson}
    `{Sha256} `{ShardCodec} (now : Z) (fresh : nat -> string) (clock : nat -> Z)
    (pages : list (list string)) : RefitOps DB := {|
  be_validate_workers := validate_trainer_mesh_workers;
  be_create_mesh := create_trainer_mesh fresh;
  be_get_mesh := get_trainer_mesh;
  be_find_mesh := find_trainer_mesh_for_request;
  be_update_mesh M g ws := update_trainer_mesh M g ws now;
  be_delete_mesh M := delete_trainer_mesh M now;
  be_register_worker w ttl := register_worker w ttl now;
  be_create_version := create_weight_version fresh clock;
  be_get_version := get_weight_version;
  be_list_versions := list_weight_versions pages;
  be_delete_version := delete_weight_version;
  be_update_state := update_weight_version_state;
  be_create_shard := create_weight_version_shard;
  be_list_shards := list_weight_version_shards;
  be_delete_shard v s w := delete_weight_version_shard v s w now;
  be_register_lease v w ttl := register_version_lease v w ttl now;
  be_delete_lease := delete_version_lease
|}.

(** ** Handlers *)

Section handlers.
Context {DB : Type} `{RefitOps DB} `{HashIter} `{Completion} `{ManifestJson} `{Sha256}.
Context (fetch : TrainerTensorsMetadata -> rs_result (string * string)).

(** [map_err(backend_status)]. *)
Definition call {A} (p : prog DB (RefitResult A)) : prog DB (rs_result A) :=
  let! r := p in Ret (match r with Ok a => Ok a | Err e => Err (backend_status e) end).

Definition guarded {A} (checks : rs_result unit) (p : prog DB (RefitResult A))
    : prog DB (rs_result A) :=
  match checks with Err e => Ret (Err e) | Ok _ => call p end.

Definition validate_mesh_bindings (workers : list (string * TrainerTensorsMetadata))
    : rs_result unit :=
  first_error (fun e => validate_binding fetch e.2) (completed workers).

Definition create_mesh_checks (request : CreateTrainerMeshRequest) : rs_result unit :=
  let? _ := required (cmr_model_name request) in
  let? _ := required (cmr_idempotency_key request) in
  validate_mesh_members (cmr_workers request).

Definition create_trainer_mesh_handler (request : CreateTrainerMeshRequest)
    : prog DB (rs_result TrainerMesh) :=
  match create_mesh_checks request with
  | Err e => Ret (Err e)
  | Ok _ =>
      try! found := call (be_find_mesh request) in
      match found with
      | Some mesh => Ret (Ok mesh)
      | None =>
          try! _ := call (be_validate_workers (cmr_model_name request) (cmr_workers request)) in
          match validate_mesh_bindings (hash_entries (cmr_workers request)) with
          | Err e => Ret (Err e)
          | Ok _ => call (be_create_mesh request)
          end
      end
  end.

Definition get_trainer_mesh_handler (mesh_id : string) : prog DB (rs_result TrainerMesh) :=
  guarded (required mesh_id) (be_get_mesh mesh_id).

(** Only workers that are new or changed are asked for their coverage. *)
Definition update_trainer_mesh_handler (mesh_id : string) (expected_generation : Z)
    (workers : mesh_workers) : prog DB (rs_result TrainerMesh) :=
  match (let? _ := required mesh_id in validate_mesh_members workers) with
  | Err e => Ret (Err e)
  | Ok _ =>
      try! current := call (be_get_mesh mesh_id) in
      if negb (tm_generation current =? expected_generation)%Z
      then Ret (Err RsFailedPrecondition)
      else
        try! _ := call (be_validate_workers (tm_model_name current) workers) in
        match validate_mesh_bindings
                (filter (fun e => tm_workers current !! e.1 ≠ Some e.2) (hash_entries workers)) with
        | Err e => Ret (Err e)
        | Ok _ => call (be_update_mesh mesh_id expected_generation workers)
        end
  end.

Definition delete_trainer_mesh_handler (mesh_id : string) : prog DB (rs_result unit) :=
  guarded (required mesh_id) (be_delete_mesh mesh_id).

Definition register_worker_handler (worker : option WorkerRegistration) (ttl_seconds : Z)
    : prog DB (rs_result WorkerRegistration) :=
  match worker with
  | None => Ret (Err RsInvalidArgument)
  | Some worker =>
      guarded
        (let? _ := required (wr_worker_id worker) in
         let? _ := required (wr_model_name worker) in
         match worker_role_of (wr_role worker) with
         | RoleUnspecified => Err RsInvalidArgument
         | _ => validate_ttl ttl_seconds
         end)
        (be_register_worker worker ttl_seconds)
  end.

Definition create_version_checks (request : CreateWeightVersionRequest)
    : rs_result WeightPayloadFormat :=
  let? _ := required (cvr_model_name request) in
  let? _ := required (cvr_idempotency_key request) in
  let? payload_format := validate_payload_format request in
  let? _ := validate_publication request in
  Ok payload_format.

(** A delta needs a ready base of the same model. *)
Definition check_base (request : CreateWeightVersionRequest) (payload_format : WeightPayloadFormat)
    : prog DB (rs_result unit) :=
  match cvr_base_version_id request, payload_format with
  | Some base_version_id, XorDelta =>
      try! base := call (be_get_version base_version_id) in
      Ret (if negb (String.eqb (wv_model_name base) (cvr_model_name request)) ||
              negb (wv_state base =? 2)%Z
           then Err RsFailedPrecondition else Ok ())
  | _, _ => Ret (Ok ())
  end.

Definition create_weight_version_handler (request : CreateWeightVersionRequest)
    : prog DB (rs_result WeightVersion) :=
  match create_version_checks request with
  | Err e => Ret (Err e)
  | Ok payload_format =>
      try! _ := check_base request payload_format in
      call (be_create_version request)
  end.

Definition get_weight_version_handler (uid : string) : prog DB (rs_result WeightVersion) :=
  guarded (required uid) (be_get_version uid).

Definition update_weight_version_state_handler (uid : string) (state : Z)
    : prog DB (rs_result WeightVersion) :=
  guarded
    (let? _ := required uid in
     match version_state_of state with StateUnspecified => Err RsInvalidArgument | _ => Ok () end)
    (be_update_state uid state).

Definition delete_weight_version_handler (uid : string) : prog DB (rs_result WeightVersion) :=
  guarded (required uid) (be_delete_version uid).

Definition list_weight_versions_handler (model_name : string) (trainer_mesh_id : option string)
    : prog DB (rs_result (list WeightVersion)) :=
  guarded (let? _ := required model_name in optional_required trainer_mesh_id)
    (be_list_versions model_name trainer_mesh_id).

Definition create_weight_version_shard_handler (shard : option WeightVersionShard)
    : prog DB (rs_result (WeightVersionShard * WeightVersion)) :=
  match shard with
  | None => Ret (Err RsInvalidArgument)
  | Some shard =>
      guarded
        (let? _ := required (wvs_version_id shard) in
         let? _ := required (wvs_logical_shard_id shard) in
         let? _ := required (wvs_worker_id shard) in
         let? _ := required (wvs_stable_metadata_digest shard) in
         required (wvs_metadata_endpoint shard))
        (be_create_shard shard)
  end.

Definition list_weight_version_shards_handler (version_id : string)
    : prog DB (rs_result (list WeightVersionShard)) :=
  guarded (required version_id) (be_list_shards version_id).

Definition delete_weight_version_shard_handler (version_id shard_id worker_id : string)
    : prog DB (rs_result bool) :=
  guarded
    (let? _ := required version_id in let? _ := required shard_id in required worker_id)
    (be_delete_shard version_id shard_id worker_id).

Definition register_version_lease_handler (version_id worker_id : string) (ttl_seconds : Z)
    : prog DB (rs_result VersionLease) :=
  guarded
    (let? _ := required version_id in let? _ := required worker_id in validate_ttl ttl_seconds)
    (be_register_lease version_id worker_id ttl_seconds).

Definition delete_version_lease_handler (version_id lease_id worker_id : string)
    : prog DB (rs_result bool) :=
  guarded
    (let? _ := required version_id in let? _ := required lease_id in required worker_id)
    (be_delete_lease version_id lease_id worker_id).
End handlers.

(** ** What validation guarantees *)

Lemma refit_required_ok value : required value = Ok () -> value ≠ "".
Proof. by intros Hr ->. Qed.

Lemma optional_required_ok value : optional_required value = Ok () -> value ≠ Some "".
Proof. destruct value as [v|]; [|done]. intros Hr [= ->]. done. Qed.

(** An accepted object-storage location is [s3://bucket/key]: a bucket and a key that
    are not blank, no empty first key segment, no query, no fragment. *)
Lemma validate_s3_uri_spec uri :
  validate_s3_uri uri = Ok () ↔
  ∃ bucket key, uri = "s3://" +:+ bucket +:+ String "/" key ∧ contains_char "/" bucket = false ∧
    trim bucket ≠ "" ∧ trim key ≠ "" ∧ starts_with "/" key = false ∧
    contains_char "?" uri = false ∧ contains_char "#" uri = false.
Proof.
  unfold validate_s3_uri.
  destruct (contains_char "?" uri) eqn:Hq; cbn [orb]; [naive_solver|].
  destruct (contains_char "#" uri) eqn:Hh; cbn [orb]; [naive_solver|].
  assert (forall s : string, str_is_empty s = false ↔ s ≠ "") as Hempty by (by intros []).
  destruct (strip_prefix "s3://" uri) as [location|] eqn:Hp.
  - apply strip_prefix_Some in Hp as ->. destruct (split_once "/" location) as [[b k]|] eqn:Hs.
    + apply split_once_Some in Hs as [-> Hb]. split.
      * intros Hc. destruct (_ || _ || _) eqn:Hor; [done|].
        apply orb_false_iff in Hor as [[H1 H2]%orb_false_iff H3].
        rewrite Hempty in H1, H2. exists b, k. done.
      * intros (b' & k' & Heq & Hb' & H1 & H2 & H3 & _). apply (inj (String.append "s3://")) in Heq.
        assert (split_once "/" (b +:+ String "/" k) = split_once "/" (b' +:+ String "/" k')) as Hso
          by by rewrite Heq.
        rewrite !split_once_app in Hso by done. simplify_eq.
        rewrite <- Hempty in H1, H2. by rewrite H1, H2, H3.
    + split; [done|]. intros (b & k & Heq & Hb & _). apply (inj (String.append "s3://")) in Heq.
      subst. by rewrite split_once_app in Hs.
  - split; [done|]. intros (b & k & -> & _). by rewrite strip_prefix_app in Hp.
Qed.

(** The product of a shape, and the condition under which [volume] returns it. *)
Definition product (shape : list Z) : Z := foldr Z.mul 1%Z shape.

Lemma product_pos shape : Forall (fun x => 0 < x)%Z shape -> (0 < product shape)%Z.
Proof. induction 1 as [|x shape Hx _ IH]; cbn; [done|]. fold (product shape). nia. Qed.

Lemma volume_from_spec acc shape v :
  (1 <= acc)%Z -> Forall (fun x => 0 <= x)%Z shape ->
  (acc <= u64_max)%Z ->
  volume_from acc shape = Ok v ↔
  Forall (fun x => 0 < x)%Z shape ∧ v = (acc * product shape)%Z ∧ (v <= u64_max)%Z.
Proof.
  revert acc. induction shape as [|x shape IH]; intros acc Hacc Hall Hmax; cbn [volume_from].
  { unfold product. cbn. rewrite Forall_nil. split; [intros [= <-]; lia|]. intros (_ & -> & _). f_equal. lia. }
  apply Forall_cons in Hall as [Hx Hall]. rewrite Forall_cons.
  change (product (x :: shape)) with (x * product shape)%Z.
  destruct (Z.eqb_spec x 0) as [->|Hx0]; [split; [done|lia]|].
  unfold checked_mul_u64. destruct (Z.leb_spec (acc * x) u64_max) as [Hle|Hgt].
  - rewrite IH by (done || nia). rewrite Z.mul_assoc. split; [|naive_solver lia].
    intros (? & ? & ?). split_and!; [lia|done..].
  - split; [done|]. intros ((_ & Hpos) & -> & Hv). pose proof (product_pos _ Hpos). nia.
Qed.

(** The element count of a box is its exact mathematical product, or an error:
    [volume] answers a number exactly when every extent is positive and the product
    fits in 64 bits, and then it is the product; no intermediate product wraps. *)
Lemma volume_exact shape v :
  Forall (fun x => 0 <= x <= u64_max)%Z shape ->
  volume shape = Ok v ↔
  Forall (fun x => 0 < x)%Z shape ∧ v = product shape ∧ (v <= u64_max)%Z.
Proof.
  intros Hall. unfold volume. rewrite volume_from_spec.
  - by rewrite Z.mul_1_l.
  - lia.
  - eapply Forall_impl; [exact Hall|]. cbn. lia.
  - unfold u64_max. lia.
Qed.

(** A creation request that passes the checks, with fields of the message's widths,
    satisfies what the backend relies on. *)
Lemma create_checks_ok request payload_format :
  create_version_checks request = Ok payload_format ->
  cvr_base_version_id request ≠ Some "" ->
  (forall z, cvr_version_number request = Some z -> (- 2 ^ 63 <= z <= 2 ^ 63 - 1)%Z) ->
  version_request_ok request.
Proof.
  unfold create_version_checks. intros Hc Hbase Hn.
  destruct (required (cvr_model_name request)); [|done].
  destruct (required (cvr_idempotency_key request)); [|done].
  destruct (validate_payload_format request) as [pf|] eqn:Hpf; [|done].
  destruct (validate_publication request) as [[]|] eqn:Hpub; [|done]. clear Hc.
  unfold validate_publication in Hpub.
  destruct (optional_required (cvr_uid request)) as [[]|] eqn:Hu; [|done].
  destruct (optional_required (cvr_trainer_mesh_id request)) as [[]|] eqn:Hm; [|done].
  apply optional_required_ok in Hu, Hm.
  assert (forall P, (version_state_of (cvr_state request) = Staging -> P) ->
    (version_state_of (cvr_state request) = Ready -> P) ->
    match version_state_of (cvr_state request) with
    | Staging | Ready => @Ok unit RefitStatus () | _ => Err RsInvalidArgument end = Ok () -> P) as Hsr.
  { intros P. destruct (version_state_of (cvr_state request)); auto; discriminate. }
  assert (version_state_of (cvr_state request) = Staging ∨ version_state_of (cvr_state request) = Ready)
    as Hst.
  { destruct (cvr_object_storage request) as [o|].
    - destruct (is_s3 o); [|done]. destruct (required (os_uri o)); [|done].
      destruct (validate_s3_uri (os_uri o)); [|done]. cbn in Hpub. case_bool_decide; [done|].
      revert Hpub. apply Hsr; auto.
    - destruct (version_state_of (cvr_state request)); auto; discriminate. }
  split; [| |done|done| |done|done].
  - unfold version_state_of in Hst. repeat case_match; naive_solver.
  - unfold validate_payload_format, payload_format_of in Hpf. repeat case_match; try discriminate; lia.
  - intros o Ho. rewrite Ho in Hpub. destruct (is_s3 o) eqn:Hs3; [|done].
    destruct (required (os_uri o)) as [[]|] eqn:Hr; [|done]. apply refit_required_ok in Hr.
    split; [done|]. unfold is_s3, storage_type_of in Hs3. repeat case_match; done.
Qed.

(** ** The service over Redis *)

Section system.
Context {DB : Type} `{RedisServer DB, !RedisStoreLaws DB, !RedisServerLaws DB}.
Context `{LuaNumbers, !LuaNumbersLaws} `{LuaConcat} `{HashIter, !HashIterLaws}.
Context `{MeshJson, !MeshJsonLaws} `{ShardCodec} `{Sha256}.
Implicit Types db : DB.

Lemma full_payload_no_base request pf :
  create_version_checks request = Ok pf -> pf ≠ XorDelta -> cvr_base_version_id request = None.
Proof.
  unfold create_version_checks. intros Hc Hx.
  destruct (required (cvr_model_name request)); [|done].
  destruct (required (cvr_idempotency_key request)); [|done].
  destruct (validate_payload_format request) as [pf'|] eqn:Hpf; [|done].
  destruct (validate_publication request) as [[]|]; [|done]. simplify_eq.
  unfold validate_payload_format in Hpf.
  destruct (cvr_base_version_id request) as [b|]; [|done].
  rewrite bool_decide_eq_true_2 in Hpf by done. repeat case_match; simplify_eq.
Qed.

(** A client that created a full version and repeats the same request to the
    service, after any operations of other clients, gets the version of the first
    request: the message has exactly the request's fields and the generation stamped
    at creation, and the state that the version has reached; nothing is written. *)
Lemma create_version_retry request pf uid t db db1 db2 now fresh clock pages :
  create_version_checks request = Ok pf -> pf ≠ XorDelta ->
  (forall z, cvr_version_number request = Some z -> (- 2 ^ 63 <= z <= 2 ^ 63 - 1)%Z) ->
  mesh_wf db -> (0 <= t <= u64_max)%Z ->
  (cvr_uid request = None ∨ cvr_uid request = Some uid) ->
  create_version_run (version_script_args request uid t) db = (db1, "CREATED") ->
  refit_steps db1 db2 ->
  ∃ g state, (cvr_state request <= state <= 3)%Z ∧
    exec (@create_weight_version_handler DB (redis_refit now fresh clock pages) request) db2 =
    (db2, Ok (version_message request uid t g state)).
Proof.
  intros Hck Hpf Hnum Hwf Ht Huid Hc Hr. pose proof (full_payload_no_base _ _ Hck Hpf) as Hbase.
  pose proof (create_checks_ok _ _ Hck ltac:(by rewrite Hbase) Hnum) as Hok.
  destruct (backend_version_retry request uid t db db1 db2 fresh clock Hok Hwf Ht Huid Hc Hr)
    as (g & state & Hstate & Hex).
  exists g, state. split; [done|]. unfold create_weight_version_handler. rewrite Hck.
  unfold check_base. rewrite Hbase. cbn [bind exec]. unfold call. rewrite exec_bind.
  cbn [be_create_version redis_refit]. by rewrite Hex.
Qed.
End system.
