(* ===== verification/RefitRun.v ===== *)
(** * A concrete run of refit coordination

    Two trainers form a mesh and publish a version, a generator leases it.  The
    texts are lawful codes for JSON and prost.  The run shows that the hypotheses of
    the theorems are met, and one behaviour that the documentation does not have. *)

From Stdlib Require Import ZArith Lia Ascii String.
From stdpp Require Import base tactics option list gmap fin_maps fin_map_dom fin_sets strings countable.
From S2P Require Import Prelude RustStr RedisStore RedisServer RedisProg CollectiveBackend CollectiveText.
From S2P Require Import RefitScripts RefitMachine RefitEffects RefitTheorems RefitBackend.
From S2P Require Import RefitPublications RefitVersions RefitService.

(** ** Codes *)

#[export] Instance TrainerTensorsMetadata_countable : Countable TrainerTensorsMetadata.
Proof.
  refine (inj_countable' (fun m => (tm_logical_shard_id m, tm_metadata_endpoint m))
            (fun '(a, b) => MkTensorsMetadata a b) _). by intros [].
Defined.

#[export] Instance WeightVersionShard_eq_dec : EqDecision WeightVersionShard.
Proof. solve_decision. Defined.

#[export] Instance WeightVersionShard_countable : Countable WeightVersionShard.
Proof.
  refine (inj_countable'
    (fun s => (wvs_version_id s, wvs_logical_shard_id s, wvs_worker_id s,
               wvs_stable_metadata_digest s, wvs_metadata_endpoint s, wvs_version_metadata_digest s))
    (fun '(a, b, c, d, e, f) => MkWeightVersionShard a b c d e f) _). by intros [].
Defined.

#[export] Instance coded_mesh_json : MeshJson | 100 := {|
  workers_json := code;
  shards_json := code;
  serde_workers s := (fun ws : mesh_workers => metadata_fields <$> ws) <$> uncode s;
  cjson_workers := uncode;
  cjson_shards := uncode
|}.

#[export] Instance coded_mesh_json_laws : MeshJsonLaws | 100.
Proof.
  split; intros x; [|exact (uncode_code x)..].
  exact (f_equal (fmap (fun ws : mesh_workers => metadata_fields <$> ws)) (uncode_code x)).
Qed.

#[export] Instance coded_shards : ShardCodec | 100 :=
  {| encode_shard := code; decode_shard := uncode |}.

#[export] Instance coded_shards_laws : ShardCodecLaws | 100.
Proof. split. intros. apply uncode_code. Qed.

(** ** The run *)

Definition t0 : Z := 1000.
Definition workers : mesh_workers :=
  {["w1" := MkTensorsMetadata "s1" "e1"; "w2" := MkTensorsMetadata "s2" "e2"]}.
Definition request : CreateWeightVersionRequest :=
  MkCreateWeightVersionRequest "m" "q" 1 None None 1 None (Some "M") (Some (-3)%Z).
Definition shard (w s e : string) : WeightVersionShard := MkWeightVersionShard "v" s w "d" e "".

Definition d1 : redis_db := (register_worker_run "w1" TRAINER "m" 60000 "e1" t0 redis_empty).1.
Definition d2 : redis_db := (register_worker_run "w2" TRAINER "m" 60000 "e2" t0 d1).1.
Definition d3 : redis_db := (register_worker_run "g" GENERATOR "m" 60000 "" t0 d2).1.
Definition d4 : redis_db := (create_mesh_run "M" "m" "r" ["s1"; "s2"] workers d3).1.
Definition d5 : redis_db := (create_version_run (version_script_args request "v" 900) d4).1.
Definition d6 : redis_db :=
  (create_shard_run "v" "M" (shard_script_args (shard "w1" "s1" "e1") "m") d5).1.
Definition d7 : redis_db :=
  (create_shard_run "v" "M" (shard_script_args (shard "w2" "s2" "e2") "m") d6).1.
Definition d8 : redis_db := (register_lease_run "v" "g" "l" 30000 t0 d7).1.
(** The trainer and the orchestrator try to take the source away. *)
Definition d9 : redis_db :=
  (delete_shard_run "v" "w1" "s1" (encode_shard (shard "w1" "s1" "e1")) 2000 d8).1.
Definition d10 : redis_db := (delete_mesh_run "M" 2000 d9).1.

Lemma args_ok w s e : shard_args_ok (shard_script_args (shard w s e) "m").
Proof.
  split; try done. exists (shard w s e). split; [|done]. apply uncode_code.
Qed.

Lemma run_d4 : refit_steps redis_empty d4.
Proof.
  eapply rtc_l; [exists t0; apply (rs_register_worker t0 "w1" TRAINER "m" 60000 "e1")|].
  eapply rtc_l; [exists t0; apply (rs_register_worker t0 "w2" TRAINER "m" 60000 "e2")|].
  eapply rtc_l; [exists t0; apply (rs_register_worker t0 "g" GENERATOR "m" 60000 "")|].
  eapply rtc_l; [exists t0; apply (rs_create_mesh t0 "M" "m" "r" ["s1"; "s2"] workers)|apply rtc_refl].
  - apply (bool_decide_unpack _). vm_compute. reflexivity.
  - apply (bool_decide_unpack _). vm_compute. reflexivity.
Qed.

Lemma run_d5 : refit_steps redis_empty d5.
Proof.
  eapply rtc_r; [apply run_d4|]. exists t0.
  apply (rs_create_version t0 (version_script_args request "v" 900)). by left.
Qed.

Lemma step_d6 : refit_step t0 d5 d6.
Proof. apply rs_create_shard; [apply args_ok|]. vm_compute. reflexivity. Qed.

Lemma run_d6 : refit_steps redis_empty d6.
Proof. eapply rtc_r; [apply run_d5|]. exists t0. apply step_d6. Qed.

Lemma step_d7 : refit_step t0 d6 d7.
Proof. apply rs_create_shard; [apply args_ok|]. vm_compute. reflexivity. Qed.

Lemma run_d8 : refit_steps d7 d8.
Proof. eapply rtc_l; [|apply rtc_refl]. exists t0. apply rs_register_lease. Qed.

Lemma empty_wf : mesh_wf redis_empty.
Proof. by intros M Hex. Qed.

Lemma empty_pubs : pubs_ok redis_empty.
Proof. by intros v k x Hx. Qed.

Lemma staged : hget (version_key "v") "state" d6 = Some STAGING.
Proof. vm_compute. reflexivity. Qed.

Lemma became_ready : hget (version_key "v") "state" d7 = Some READY.
Proof. vm_compute. reflexivity. Qed.

Lemma granted : register_lease_run "v" "g" "l" 30000 t0 d7 = (d8, "OK:" +:+ "31000").
Proof. apply injective_projections; [reflexivity|vm_compute; reflexivity]. Qed.

Lemma version_created :
  create_version_run (version_script_args request "v" 900) d4 = (d5, "CREATED").
Proof. apply injective_projections; [reflexivity|vm_compute; reflexivity]. Qed.

(** ** The theorems on it *)

Lemma version_record_frozen_witness :
  ∃ y, hget (version_key "v") "model_name" d8 = Some y ∧ y = "m".
Proof.
  destruct (version_record_frozen d7 d8 "v" "model_name" "m" run_d8 ltac:(vm_compute; reflexivity))
    as (y & Hy & Heq). exists y. exact (conj Hy Heq).
Defined.

Lemma mesh_evolution_witness :
  ∃ ws shards g, mesh_record "M" ws shards g d6 ∧ mesh_change t0 "M" ws shards g d6 d7.
Proof.
  apply (mesh_evolution redis_empty d6 t0 d7 "M" empty_wf run_d6 step_d7). vm_compute. reflexivity.
Defined.

Lemma ready_covered_witness :
  ∃ M ws shards g, hget (version_key "v") "trainer_mesh_id" d6 = Some M ∧
    mesh_record M ws shards g d7 ∧ covers "v" ws shards d7.
Proof.
  destruct (ready_covered redis_empty d6 t0 d7 "v" empty_wf run_d6 step_d7 staged became_ready)
    as [Hs|(M & ws & shards & g & H1 & _ & H3 & H4)].
  - destruct Hs. vm_compute. reflexivity.
  - exists M, ws, shards, g. exact (conj H1 (conj H3 H4)).
Defined.

Lemma ready_listed_witness :
  ∃ M ws shards g listed, hget (version_key "v") "trainer_mesh_id" d6 = Some M ∧
    mesh_record M ws shards g d7 ∧ exec (list_weight_version_shards "v") d7 = (d7, Ok listed).
Proof.
  destruct (ready_listed redis_empty d6 t0 d7 "v" (version_message request "v" 900 1 2) empty_wf
    empty_pubs run_d6 step_d7 staged became_ready ltac:(vm_compute; reflexivity) ltac:(vm_compute; reflexivity))
    as (M & ws & shards & g & listed & H1 & H2 & H3 & _).
  exists M, ws, shards, g, listed. exact (conj H1 (conj H2 H3)).
Defined.

Lemma lease_granted_witness :
  "31000" = lua_concat (t0 + 30000) ∧ held 30999 "v" "l" d8.
Proof.
  destruct (lease_granted "v" "g" "l" 30000 t0 d7 d8 "31000" granted) as (H1 & H2 & _).
  split; [exact H1|]. apply H2. reflexivity.
Defined.

Lemma leased_run : leased_steps "v" "l" d8 d10.
Proof.
  eapply rtc_l; [exists 2000%Z; split|].
  - exists 31000%Z. split; [vm_compute; reflexivity|lia].
  - apply (rs_delete_shard 2000 "v" "w1" "s1" (encode_shard (shard "w1" "s1" "e1"))).
  - eapply rtc_l; [exists 2000%Z; split|apply rtc_refl].
    + exists 31000%Z. split; [vm_compute; reflexivity|lia].
    + apply (rs_delete_mesh 2000 "M").
Qed.

Lemma lease_protects_witness :
  hget (shards_key "v") (publication_key "w1" "s1") d10 =
  Some (encode_shard (shard "w1" "s1" "e1")).
Proof.
  destruct (lease_protects d8 d10 "v" "l" leased_run) as [Hp _]. apply Hp. vm_compute. reflexivity.
Defined.

#[local] Existing Instance plain_sha.

Lemma create_version_retry_witness :
  ∃ g state, (1 <= state <= 3)%Z ∧
    exec (@create_weight_version_handler redis_db
      (redis_refit 5000 (fun _ => "x") (fun _ => 7%Z) []) request) d8 =
    (d8, Ok (version_message request "v" 900 g state)).
Proof.
  apply (create_version_retry request FullTensor "v" 900 d4 d5 d8 5000 (fun _ => "x") (fun _ => 7%Z) []).
  - vm_compute; reflexivity.
  - done.
  - intros z [= <-]. lia.
  - apply (steps_mesh_wf redis_empty d4 run_d4 empty_wf).
  - unfold u64_max. lia.
  - by left.
  - exact version_created.
  - eapply rtc_l; [exists t0; apply step_d6|].
    eapply rtc_l; [exists t0; apply step_d7|apply run_d8].
Defined.

Lemma volume_exact_witness : volume [2; 3]%Z = Ok 6%Z.
Proof.
  apply (volume_exact [2; 3]%Z 6).
  - repeat constructor; unfold u64_max; lia.
  - split_and!; [repeat constructor; lia|done|unfold u64_max; lia].
Defined.

(** ** A retry that is refused

    A delta is created while its base is READY; once the base is released, repeating
    the same request is refused, although the version exists: the handler checks the
    base before it looks at the idempotency key. *)
Definition base_request : CreateWeightVersionRequest :=
  MkCreateWeightVersionRequest "m" "base" 1 None (Some (MkObjectStorageSource "s3://b/k" 1)) 2
    (Some "b") None None.
Definition delta_request : CreateWeightVersionRequest :=
  MkCreateWeightVersionRequest "m" "delta" 2 (Some "b") (Some (MkObjectStorageSource "s3://b/d" 1)) 2
    (Some "x") None None.
Definition serve (r : CreateWeightVersionRequest) : prog redis_db (rs_result WeightVersion) :=
  @create_weight_version_handler redis_db (redis_refit t0 (fun _ => "") (fun _ => 7%Z) []) r.
Definition x1 : redis_db := (exec (serve base_request) redis_empty).1.
Definition x2 : redis_db := (exec (serve delta_request) x1).1.
Definition x3 : redis_db := (exec (delete_weight_version "b") x2).1.

Lemma delta_retry_refused :
  (exec (serve delta_request) x1).2 = Ok (version_message delta_request "x" 7 0 2) ∧
  (exec (serve delta_request) x2).2 = Ok (version_message delta_request "x" 7 0 2) ∧
  (exec (serve delta_request) x3).2 = Err RsFailedPrecondition.
Proof. split_and!; vm_compute; reflexivity. Qed.

(** Requests of different models share an idempotency record when their names and
    keys concatenate to the same text. *)
Lemma request_keys_collide : idempotency_key "a" "b:c" = idempotency_key "a:b" "c".
Proof. reflexivity. Qed.
